(* ===== verification/_CoqProject ===== *)
-Q . S2P
Prelude.v
GoStrings.v
Json.v
GoJson.v
JsonText.v
Base64.v
Conversation.v
Projection.v
Task.v
TaskPlan.v
GoTime.v
AutonomousTurn.v
Store.v
StepStore.v
StepInv.v
Journal.v
History.v
Lifecycle.v
Admission.v
Finalize.v
TaskRows.v
TaskControl.v
FinalizeInv.v
JournalInv.v
Occurrence.v
Delivery.v
DeliverySpec.v
HistoryInv.v
TaskInv.v
Dispatch.v
GraphExec.v
TaskProgram.v
TaskProgramRun.v
ProgramFilter.v
ProgramDelivery.v
ProgramRunInv.v
TaskConfig.v
Gates.v
World.v
Notify.v
NotifyInv.v
Registry.v
TaskTools.v
Execute.v
ExecuteInv.v
TaskLoop.v
Deadlines.v
Turns.v
Cascade.v
PlanParse.v
PlanExec.v
AgentText.v
AgentTools.v
AgentLoop.v
AgentLoopInv.v
AgentProtocol.v
AgentStream.v
Grounding.v
TaskReport.v
FinalState.v
TaskRetry.v
GraphRun.v
GraphRunInv.v
GraphReviewInv.v
GraphRunEnd.v
Citations.v
Acceptance.v
GraphAccept.v
GraphRepair.v
GraphCalc.v
GraphStep.v
Regex.v
RolePlan.v
Background.v
