(* ===== verification/Prelude.v ===== *)
(** * BlueShip verification

    A verification library for BlueShip, a Go framework that runs assistants
    over chat transports and executes their background work.  It covers the
    parts whose errors a user would notice and a test would miss: the
    background-task engine with its PostgreSQL tables and its scheduler, the
    typed task programs, the notification journal, the model and tool loop of
    an agent turn, the tool registry, the history handed to the model, and the
    turn control of the voice and chat gateways.

    ** The program and the files

    A background task is a row of [agent_tasks].  A version 1 task is run by
    the scheduler one iteration at a time; a version 2 task is planned as a
    graph of steps, run by a coordinator that holds a lease on the task and
    hands steps to workers that hold leases on the steps.  Either way a task
    ends in [finalizeTaskTx], which writes the report, the terminal row and a
    delivery intent; the intent is delivered through the notification journal
    and enters the chat history.  A recurring task may carry a task program:
    its inputs are tool calls whose keyed items are filtered against the same
    journal.  A chat message, and every iteration of a task that asks a model,
    is an agent turn: a loop of model requests and tool calls.

    The language and its packages:
    - Prelude, GoStrings, Json, GoJson, JsonText, Base64, GoTime: errors as
      [res], packages strings, encoding/json, unicode/utf8, encoding/base64
      and time.

    Background tasks and their tables:
    - Task: the rows [AgentTask] and [TaskStep] and the predicates on them
      (internal/core/agent.go, agent_deadline.go, task_research_budget.go,
      agent_finalize.go, task_rollout.go).
    - TaskPlan: [ValidateTaskSteps] (internal/core/task_steps.go) and
      [parseGraphPlan] (runtime/handler/graph_plan.go).
    - Store: the tables as the record [db], a transaction as a state and error
      monad [Tx] over the clocks, the fresh identifiers and the failing
      statements of an environment [env]; [run_tx] is BeginTxx to Commit.
    - StepStore, StepInv, Lifecycle: the transactions on steps and leases
      (task_steps.go, task_run.go), the invariant of the step table and what
      holds over whole executions.
    - Admission, Dispatch: the owner's cap on live coordinators and the queue
      that respects it (task_run.go).
    - Journal, JournalInv, Occurrence, Delivery, DeliverySpec: the notification
      journal (agent_store.go), its invariant, the occurrence key, its
      executions, and the abstract service it refines.
    - AutonomousTurn, Projection, History, HistoryInv: unprompted messages in
      the chat history (autonomous_turn.go, message_projection.go,
      agent_store.go).
    - Finalize, FinalizeInv: agent_finalize.go.
    - TaskRows, TaskControl, TaskInv: the operations on task rows
      (agent_store.go, agent_submission.go, agent_checkpoint.go,
      agent_deadline.go, task_origin.go), the owner's commands
      (task_control.go, task_restart.go) and what holds of a finished task.

    The scheduler (internal/agenttask):
    - World: an action of the scheduler between the doings of others.
    - TaskConfig, Gates: a task's configuration and when it is due.
    - Notify, NotifyInv: carrying notifications to the transport.
    - TaskTools: the tools of a task.
    - Execute, ExecuteInv, TaskLoop, Deadlines: an iteration, iterations back
      to back, the deadlines of every tick.
    - GraphExec: graph.go, the executor as a transition system, and the outcome
      of graph_coordinator.go.
    - GraphRun, GraphRunInv, GraphReviewInv, GraphRunEnd: one coordinator run of
      a graph task, from planning to settlement, with the review of its report
      (graph_runner.go, graph_validation.go): its stages, its review, and that
      it ends; FinalState: what it remembers of the review in the task's
      progress.
    - Grounding: the audit of a report against its sources (grounding.go,
      graph_grounding.go, grounding_parts.go).
    - Citations, Acceptance, GraphAccept: the acceptance of a result
      (evaluator.go): the sources it cites against the pages the task opened,
      the reviewer's answer, the audit in parts with its worker pool and its
      resumption (graph_reviews.go), and the gates of a graph report
      (graph_grounding.go, graph_validation.go).
    - TaskReport, TaskRetry: the notice of a finished report and the failures
      worth another attempt (internal/core/task_report.go, task_retry.go).

    Handlers and models:
    - TaskProgram, TaskProgramRun, ProgramFilter, ProgramDelivery,
      ProgramRunInv: internal/core/task_program.go and
      runtime/handler/task_program.go.
    - PlanParse, PlanExec: structured goals (runtime/handler/plan_parse.go,
      plan_executor.go, plan_steps.go).
    - GraphStep: one attempt of a graph step, its checkpoint and its review
      (runtime/handler/graph_step.go, graph_observation.go).
    - GraphCalc, GraphRepair: the calculations of a report and the patch that
      repairs one (graph_calculation.go, graph_repair.go).
    - RolePlan, Background: an iteration of a version 1 task
      (runtime/handler/plan.go, evidence.go, background.go,
      notification_validation.go): the step plan and its patches, the ledger
      of facts, the phase of the iteration and what becomes of its reply.
      Regex: the expressions of package regexp they use.
    - Registry: internal/core/registry.go.
    - Conversation: internal/core/types.go, runtime/agent/compact.go,
      runtime/session/compact.go.
    - AgentText, AgentTools, AgentLoop, AgentLoopInv, AgentProtocol,
      AgentStream: one agent turn (runtime/agent: accumulate.go,
      tool_result_compact.go, loop.go, tracked.go, read_batch.go,
      tool_execute.go, response_validation.go, outcome.go), its logic, its
      bound, its protocol and its streaming form (stream.go).
    - Cascade: failover between inference endpoints (cascade.go).
    - Turns: internal/transport/ws/turn_manager.go and
      internal/gateway/turn_registry.go.

    Definitions keep the names of the Go functions and types.  A record field
    whose Go name would clash has a prefix ([s_Status] of a step, [n_State] of
    an attempt, [tp_Inputs] of a program, [c_Role] of a run's configuration).

    ** What the theorems show

    - Steps and leases (Lifecycle, Admission, Dispatch): in every reachable
      state an effectful step runs alone and attempted steps have confirmed
      dependencies; an effect that may have happened is not repeated; a worker
      or coordinator whose lease is gone writes nothing; an owner has at most
      two live coordinators.
    - Delivery (Delivery, DeliverySpec, Occurrence, HistoryInv): an item is
      reserved once and for all; a resolved attempt is final; the journal
      refines a delivery service whose messages own their occurrences for
      good, settle for good and are handed out again only after a refusal; a confirmed autonomous turn enters its
      conversation once.
    - Tasks (TaskInv): finalization is atomic and publishes a report; the
      outcome of a finished one-shot task stays; a stale claim writes nothing;
      a restart happens once.
    - The scheduler (ExecuteInv, NotifyInv, Deadlines, TaskLoop, Gates,
      TaskTools): a handler runs only on a row this very run has claimed and
      read back, and not while a finished draft waits for its review; a
      rejected draft is never sent nor told as done, and shown at most as a
      partial result; what is sent was admitted and its outcome is recorded;
      a maintenance pass enforces the deadlines of the rows it read, whatever
      other writers do beside it to other rows; the loop of a capped task
      ends; a task runs only when it is due and with the tools it may have.
    - Plans and executors (TaskPlan, GraphExec, PlanExec): the validators
      accept exactly well-formed acyclic plans; the graph executor never runs
      an effect beside another step and confirms only accepted output; a
      structured plan finishes.
    - A graph task's run (GraphRunInv, GraphReviewInv, GraphRunEnd, FinalState,
      Grounding, TaskReport): it returns, and settles its task at most once: a
      run that did not is a failure or was cancelled; what it publishes as completed was
      reviewed; the review ends after three reviews and two repairs, and its
      state survives the coordinator; a combined audit passes exactly when
      every part does; the parts are the report; the marker of a notice comes
      off again.
    - The acceptance of a result (Citations, Acceptance, GraphAccept): a result
      is accepted exactly when the rechecks were made, the citation gates hold,
      the reviewer agrees and the audit does not object; a graph report is
      published as completed only when it passed its gates; a resumed audit
      gives the verdict of a fresh one and asks only for the rest; the order
      in which the audit's workers end does not matter.
    - A graph step (GraphStep, GraphCalc, GraphRepair): a call with effects that
      failed is never made again; a step reported as done was judged; a
      calculation is exact to half a unit of its last place; a repair replaces
      the passages it names and keeps all else.
    - An iteration of a version 1 task (RolePlan, Background): a patch keeps the
      plan fit and within the iterations left, and what is done stays done; the
      plan is worked off before the synthesis; a message with keyed items is
      exactly its deliveries, the items its reply acknowledges; the ledger records a sourced claim once and keeps
      forty.
    - Task programs (TaskProgram, ProgramDelivery, ProgramRunInv): validation
      is exactly its contract; the filter offers the items that are not
      recorded and hides their identity; a run calls the declared tools only
      and stays within its limits.
    - An agent turn (AgentLoopInv, AgentProtocol, AgentStream): it ends; its requests carry
      answered histories; a handler runs only for a stored, offered, permitted
      and announced call; only cleared answers are stored and returned; nothing
      follows a failed write; a stream is a tracked run that also tells its
      callbacks, and its text callback gets only what the validator cleared
      (thinking, tool uses, tool results and counts are not withheld).
    - Registry, Conversation, Projection, Cascade, Turns: a peer cannot take a
      local name; the tools shown are the tools run; compaction cuts nothing it
      has not summarized; a repaired history is well-formed; a projection has
      its type, and an assistant's visible text is the written one less its
      leaked calls and sentinels; the outcome of a failover is explained by its
      attempts; one turn at a time.

    ** Conventions

    Times are Unix nanoseconds and durations nanoseconds, in [Z]; identifiers
    are numbers.  A Go map is a [gmap], a set a [gset]; where Go ranges over a
    map, the order is an argument or the result does not depend on it.  A SQL
    statement is its WHERE clause as a predicate and its SET clause as an
    update.  Row and advisory locks make a transaction one step.  Code that
    acts on the world between transactions (the scheduler, an agent turn) is a
    state monad with a trace of what it did; the host's answers are functions
    of the number of questions asked so far, so a theorem holds for every
    sequence of answers.

    Recursion that is not structural has fuel: [walk_fuel], the number of
    steps plus one, for the plan searches (shown to be enough by
    [plan_checks_terminate]); the length of the text for the UTF-8 loops, the
    trimming of repeated cuts and [ParseDuration], each of whose rounds
    consumes a byte; the iterations a task has left for [runTask]
    ([run_task_terminates]); the configured turns and seven more for an agent
    turn ([agent_turns_bounded]); four for the final review of a report
    ([graph_review_bounded]); for the rounds of a coordinator run, more than
    the steps the task has left and than the 64 of a plan
    ([graph_run_settles_once]); four units per token for the calculations of a
    report, whose scanner makes at most one token of a byte; the runes left for
    a repetition of a regular expression, each round of which consumes one.
    The JSON scanner has no fuel: it reads one
    byte at a time.

    Arguments stand for what is outside the program: SHA-256, the entropy of
    delivery tokens, package uuid, the tools and the models, the clocks,
    PostgreSQL's collation and its cast of a text to a time, the Unicode
    tables, the transports.  What a theorem assumes of them is a named
    hypothesis.

    ** What is not modelled

    The scheduler's worker pools and wake timers and the skill router that
    shapes a new task; what an auditor is shown (the selection of documents,
    the prompts); the assembly of prompts and the model calls of the handlers,
    the backend prefetch, the delegate and reflex handlers; the head of an
    agent turn, which loads and annotates the dialogue; the gateway beyond its
    turn registry, the provider and transport adapters, federation, tools and
    integrations, and the plain SQL of sessions, users and configuration.  They
    call the modelled operations or are called by them through the arguments
    above. *)

From stdpp Require Export base tactics option numbers strings sets gmap list.

(** ** Notations

    Go's results: a value or an error.  The notations live in a scope of
    their own and are imported by the files that thread errors. *)

Declare Scope blueship_scope.
Delimit Scope blueship_scope with bs.

Inductive res (E A : Type) : Type :=
| Ok (a : A)
| Err (e : E).
Arguments Ok {E A} a.
Arguments Err {E A} e.

(** [res E] is a monad: Go's [if err != nil { return err }] is its bind,
    written with stdpp's [x ← m; k]. *)
#[global] Instance res_ret {E} : MRet (res E) := fun A a => Ok a.
#[global] Instance res_bind {E} : MBind (res E) := fun A B k r =>
  match r with
  | Ok a => k a
  | Err e => Err e
  end.

(** [check! c else e in k]: the early return [if !c { return e }]. *)
Notation "'check!' c 'else' e 'in' k" := (if c then k else Err e)
  (at level 10, c at level 200, e at level 200, k at level 200)
  : blueship_scope.

Definition is_ok {E A} (r : res E A) : bool :=
  match r with Ok _ => true | Err _ => false end.

#[global] Instance res_eq_dec {E A} `{EqDecision E, EqDecision A} :
  EqDecision (res E A).
Proof.
  intros [x|x] [y|y]; [|by right|by right|];
    (destruct (decide (x = y)) as [->|Hne]; [by left|right; congruence]).
Defined.

(** ** Proof automation *)

(** [split_match] destructs the scrutinee of a match or an [if] of the goal
    or of a hypothesis, keeping the equation. *)
Ltac split_match :=
  match goal with
  | |- context [match ?x with _ => _ end] => destruct x eqn:?
  | H : context [match ?x with _ => _ end] |- _ => destruct x eqn:?
  end.

(** [crush_match] runs through every branch of a guard cascade, discarding
    the contradictory ones. *)
Ltac crush_match := repeat (split_match; simplify_eq/=).

(** Boolean guards to propositions. *)
Ltac bool_to_prop :=
  repeat match goal with
  | H : _ && _ = true |- _ => apply andb_true_iff in H as [? ?]
  | H : _ || _ = false |- _ => apply orb_false_iff in H as [? ?]
  | H : negb _ = true |- _ => apply negb_true_iff in H
  | H : negb _ = false |- _ => apply negb_false_iff in H
  | H : bool_decide _ = true |- _ => apply bool_decide_eq_true in H
  | H : bool_decide _ = false |- _ => apply bool_decide_eq_false in H
  | H : (_ =? _)%string = true |- _ => apply String.eqb_eq in H
  | H : (_ =? _)%string = false |- _ => apply String.eqb_neq in H
  | H : (_ <=? _)%Z = true |- _ => apply Z.leb_le in H
  | H : (_ <=? _)%Z = false |- _ => apply Z.leb_gt in H
  | H : (_ <? _)%Z = true |- _ => apply Z.ltb_lt in H
  | H : (_ <? _)%Z = false |- _ => apply Z.ltb_ge in H
  | H : (_ =? _)%Z = true |- _ => apply Z.eqb_eq in H
  | H : (_ =? _)%Z = false |- _ => apply Z.eqb_neq in H
  | H : (_ =? _)%nat = true |- _ => apply Nat.eqb_eq in H
  | H : (_ =? _)%nat = false |- _ => apply Nat.eqb_neq in H
  | H : (_ <=? _)%nat = true |- _ => apply Nat.leb_le in H
  | H : (_ <=? _)%nat = false |- _ => apply Nat.leb_gt in H
  | H : (_ <? _)%nat = true |- _ => apply Nat.ltb_lt in H
  | H : (_ <? _)%nat = false |- _ => apply Nat.ltb_ge in H
  end.

Create HintDb blueship discriminated.
#[export] Hint Constants Opaque : blueship.
#[export] Hint Variables Opaque : blueship.

(** ** Generic lemmas *)

Lemma res_bind_Ok {E A B} (r : res E A) (k : A -> res E B) b :
  r ≫= k = Ok b <-> exists a, r = Ok a /\ k a = Ok b.
Proof.
  destruct r as [a|e]; simpl; split.
  - by exists a.
  - by intros (? & [= ->] & ?).
  - done.
  - by intros (? & ? & ?).
Qed.

Lemma Ok_inj' {E A} (a b : A) : @Ok E A a = Ok b -> a = b.
Proof. by intros [= ->]. Qed.

(** An early return that lets the rest run. *)
Lemma guard_Ok {E A} (c : bool) (e : E) (k : res E A) a :
  (if c then k else Err e) = Ok a <-> c = true /\ k = Ok a.
Proof. destruct c; split; [done|by intros [_ ?]|done|by intros [? _]]. Qed.

Lemma forallb_Forall {A} (p : A -> bool) l :
  forallb p l = true <-> Forall (fun x => p x = true) l.
Proof.
  induction l as [|x l IH]; simpl; [by split|].
  rewrite andb_true_iff, Forall_cons. tauto.
Qed.

Lemma existsb_Exists {A} (p : A -> bool) l :
  existsb p l = true <-> Exists (fun x => p x = true) l.
Proof.
  induction l as [|x l IH]; simpl; [by rewrite Exists_nil|].
  rewrite orb_true_iff, Exists_cons. tauto.
Qed.

Lemma existsb_false_Forall {A} (p : A -> bool) l :
  existsb p l = false <-> Forall (fun x => p x = false) l.
Proof.
  induction l as [|x l IH]; simpl; [by split|].
  rewrite orb_false_iff, Forall_cons. tauto.
Qed.
