(* ===== verification/GoStrings.v ===== *)
(** * GoStrings: the string operations of Go's standard library

    A Go string is a sequence of bytes.  Identifiers and constants are kept
    as [string] (a list of bytes with literals); text that the program slices
    by index is kept as [bytes], a list of bytes.  The operations are those
    of package [strings]: [HasPrefix], [Index], [Contains], [Cut],
    [TrimSpace]. *)

From Stdlib Require Import Ascii String.
From S2P Require Import Prelude.

Definition bytes := list ascii.

(** [lit "text"] is the byte list of a literal. *)
Definition lit (s : string) : bytes := list_ascii_of_string s.
Definition str (l : bytes) : string := string_of_list_ascii l.

(** ** Prefix tests and search *)

Fixpoint HasPrefix (s p : bytes) : bool :=
  match p, s with
  | [], _ => true
  | c :: p', d :: s' => Ascii.eqb c d && HasPrefix s' p'
  | _ :: _, [] => false
  end.

(** [strings.Index]: the least offset at which [sub] occurs ([None] for
    Go's [-1]). *)
Fixpoint Index (s sub : bytes) : option nat :=
  if HasPrefix s sub then Some 0
  else match s with
       | [] => None
       | _ :: s' => S <$> Index s' sub
       end.

Definition Contains (s sub : bytes) : bool :=
  match Index s sub with Some _ => true | None => false end.

(** [strings.Cut]. *)
Definition Cut (s sep : bytes) : bytes * bytes * bool :=
  match Index s sep with
  | Some i => (take i s, drop (i + length sep) s, true)
  | None => (s, [], false)
  end.

(** ** White space

    [strings.TrimSpace] removes the code points of [unicode.IsSpace]: six
    ASCII bytes and the listed multi-byte UTF-8 sequences. *)

Definition is_ascii_space (c : ascii) : bool :=
  match nat_of_ascii c with
  | 9 | 10 | 11 | 12 | 13 | 32 => true
  | _ => false
  end.

Definition chr (n : nat) : ascii := ascii_of_nat n.

Definition wide_spaces : list bytes :=
  [ [chr 194; chr 133]; [chr 194; chr 160]; [chr 225; chr 154; chr 128];
    [chr 226; chr 128; chr 168]; [chr 226; chr 128; chr 169];
    [chr 226; chr 128; chr 175]; [chr 226; chr 129; chr 159];
    [chr 227; chr 128; chr 128] ]
  ++ ((fun k => [chr 226; chr 128; chr (128 + k)]) <$> seq 0 11).

(** Length of the white-space code point [s] starts with, 0 for none. *)
Definition space_prefix (tbl : list bytes) (s : bytes) : nat :=
  match s with
  | [] => 0
  | c :: _ =>
      if is_ascii_space c then 1
      else match List.find (fun w => HasPrefix s w) tbl with
           | Some w => length w
           | None => 0
           end
  end.

Fixpoint trim_with (fuel : nat) (tbl : list bytes) (s : bytes) : bytes :=
  match fuel with
  | 0 => s
  | S fuel' =>
      match space_prefix tbl s with
      | 0 => s
      | n => trim_with fuel' tbl (drop n s)
      end
  end.

Definition TrimLeftSpace (s : bytes) : bytes :=
  trim_with (length s) wide_spaces s.
Definition TrimRightSpace (s : bytes) : bytes :=
  reverse (trim_with (length s) (reverse <$> wide_spaces) (reverse s)).
Definition TrimSpace_b (s : bytes) : bytes := TrimRightSpace (TrimLeftSpace s).

Definition TrimSpace (s : string) : string := str (TrimSpace_b (lit s)).

Definition blank (s : string) : bool := String.eqb (TrimSpace s) "".

(** ** Cutting and replacing *)

(** [strings.ReplaceAll(l, old, "")] of a non-empty [old]. *)
Fixpoint remove_all (old : bytes) (skip : nat) (l : bytes) : bytes :=
  match l with
  | [] => []
  | c :: rest =>
      match skip with
      | S k => remove_all old k rest
      | O => if HasPrefix l old then remove_all old (pred (length old)) rest
             else c :: remove_all old 0 rest
      end
  end.

(** [strings.ReplaceAll(l, old, new)] of a non-empty [old]. *)
Fixpoint replace_from (old new : bytes) (skip : nat) (l : bytes) : bytes :=
  match l with
  | [] => []
  | c :: rest =>
      match skip with
      | S k => replace_from old new k rest
      | O => if HasPrefix l old
             then new ++ replace_from old new (pred (length old)) rest
             else c :: replace_from old new 0 rest
      end
  end.
Definition ReplaceAll (l old new : bytes) : bytes := replace_from old new 0 l.

(** [strings.LastIndex] of one byte. *)
Fixpoint LastIndexByte (s : bytes) (c : ascii) : option nat :=
  match s with
  | [] => None
  | d :: s' => match LastIndexByte s' c with
               | Some i => Some (S i)
               | None => if Ascii.eqb c d then Some 0 else None
               end
  end.

(** [strings.TrimPrefix], [strings.Split] at one byte and [strings.Join]. *)
Definition TrimPrefix (s p : bytes) : bytes :=
  if HasPrefix s p then drop (length p) s else s.
Fixpoint split_at (c : ascii) (s : bytes) : list bytes :=
  match s with
  | [] => [[]]
  | d :: s' =>
      if Ascii.eqb c d then [] :: split_at c s'
      else match split_at c s' with
           | l :: ls => (d :: l) :: ls
           | [] => [[d]]
           end
  end.
Fixpoint Join (sep : bytes) (l : list bytes) : bytes :=
  match l with
  | [] => []
  | [x] => x
  | x :: l' => x ++ sep ++ Join sep l'
  end.

(** ** Lemmas *)

Lemma HasPrefix_spec s p : HasPrefix s p = true <-> exists t, s = p ++ t.
Proof.
  revert s; induction p as [|c p IH]; intros s.
  { split; [eauto|]. by destruct s. }
  destruct s as [|d s]; simpl; [split; [done|by intros [? ?]]|].
  rewrite andb_true_iff, Ascii.eqb_eq, IH. split.
  - intros [-> [t ->]]. by exists t.
  - intros [t [= -> ->]]. eauto.
Qed.

Lemma Index_Some s sub i :
  Index s sub = Some i ->
  s = take i s ++ sub ++ drop (i + length sub) s /\
  (forall j, j < i -> HasPrefix (drop j s) sub = false).
Proof.
  revert i; induction s as [|c s IH]; intros i; cbn [Index].
  - destruct sub; simpl; [|done]. intros ?; simplify_eq/=. split; [done|lia].
  - destruct (HasPrefix (c :: s) sub) eqn:E.
    + intros [= <-]. apply HasPrefix_spec in E as [t ->]. simpl.
      split; [by rewrite drop_app_length|lia].
    + destruct (Index s sub) as [k|] eqn:E'; [|done]. intros [= <-]. simpl.
      destruct (IH k eq_refl) as [Hs Hj]. split; [by f_equal|].
      intros [|j] ?; [done|]. apply Hj. lia.
Qed.

Lemma Index_None s sub :
  Index s sub = None <-> forall j, HasPrefix (drop j s) sub = false.
Proof.
  induction s as [|c s IH]; cbn [Index].
  - destruct sub; simpl; split; try done.
    + intros H. by specialize (H 0).
    + intros _ [|j]; done.
  - destruct (HasPrefix (c :: s) sub) eqn:E.
    + split; [done|]. intros H. specialize (H 0). rewrite drop_0 in H. congruence.
    + rewrite fmap_None, IH. split.
      * intros H [|j]; [done|apply H].
      * intros H j. apply (H (S j)).
Qed.

Lemma Index_le s sub i : Index s sub = Some i -> i + length sub <= length s.
Proof.
  revert i; induction s as [|c s IH]; intros i; cbn [Index].
  - destruct sub; simpl; [intros [= <-]; lia|done].
  - destruct (HasPrefix (c :: s) sub) eqn:E.
    + intros [= <-]. apply HasPrefix_spec in E as [t ->].
      rewrite length_app. lia.
    + destruct (Index s sub) as [k|]; [|done]. intros [= <-]. simpl.
      specialize (IH k eq_refl). lia.
Qed.

Lemma remove_all_absent old s : Index s old = None -> remove_all old 0 s = s.
Proof.
  induction s as [|c s IH]; [done|]. rewrite Index_None. intros H. cbn [remove_all].
  pose proof (H 0) as H0. rewrite drop_0 in H0. rewrite H0, IH; [done|].
  apply Index_None. intros j. apply (H (S j)).
Qed.

Lemma Index_HasPrefix s p : Index s p = None -> HasPrefix s p = false.
Proof. rewrite Index_None. intros H. specialize (H 0). by rewrite drop_0 in H. Qed.

(** ** Trimming *)

Lemma str_lit s : str (lit s) = s.
Proof. apply string_of_list_ascii_of_string. Qed.
Lemma lit_str l : lit (str l) = l.
Proof. apply list_ascii_of_string_of_list_ascii. Qed.
Lemma length_lit s : length (lit s) = String.length s.
Proof. unfold lit. induction s as [|c s IH]; simpl; [done|]. by rewrite IH. Qed.

Lemma space_prefix_le tbl s : space_prefix tbl s <= length s.
Proof.
  unfold space_prefix. destruct s as [|c s]; [done|].
  destruct (is_ascii_space c); [simpl; lia|].
  destruct (List.find _ tbl) as [w|] eqn:E; [|lia].
  apply List.find_some in E as [_ E]. apply HasPrefix_spec in E as [t ->].
  rewrite length_app. lia.
Qed.

Lemma trim_with_done fuel tbl s :
  length s <= fuel -> space_prefix tbl (trim_with fuel tbl s) = 0.
Proof.
  revert s; induction fuel as [|fuel IH]; intros s Hf; simpl.
  - destruct s; [done|simpl in Hf; lia].
  - destruct (space_prefix tbl s) eqn:E; [done|]. apply IH.
    rewrite length_drop. lia.
Qed.

Lemma trim_with_fix fuel tbl s : space_prefix tbl s = 0 -> trim_with fuel tbl s = s.
Proof. destruct fuel; simpl; [done|]. by intros ->. Qed.

Lemma trim_with_suffix fuel tbl s : exists t, s = t ++ trim_with fuel tbl s.
Proof.
  revert s; induction fuel as [|fuel IH]; intros s; simpl; [by exists []|].
  destruct (space_prefix tbl s) as [|n]; [by exists []|].
  destruct (IH (drop (S n) s)) as [t Ht].
  exists (take (S n) s ++ t). rewrite <- app_assoc, <- Ht. by rewrite take_drop.
Qed.

Lemma HasPrefix_app s t p : HasPrefix s p = true -> HasPrefix (s ++ t) p = true.
Proof. rewrite !HasPrefix_spec. intros [u ->]. exists (u ++ t). by rewrite app_assoc. Qed.

(** A prefix of a text that starts with no space starts with none. *)
Lemma space_prefix_prefix tbl s t :
  (forall w, w ∈ tbl -> w <> []) -> space_prefix tbl (s ++ t) = 0 -> space_prefix tbl s = 0.
Proof.
  intros Hne. destruct s as [|c s]; [done|]. cbn [space_prefix app].
  destruct (is_ascii_space c); [done|].
  destruct (List.find (fun w => HasPrefix (c :: s) w) tbl) as [w|] eqn:E; [|done].
  apply List.find_some in E as [Hin Hp]. simpl in Hp.
  destruct (List.find (fun w => HasPrefix (c :: s ++ t) w) tbl) as [w'|] eqn:E'.
  - apply List.find_some in E' as [Hin' _]. intros Hl.
    destruct (Hne w'); [by apply list_elem_of_In|]. by destruct w'.
  - intros _. apply (List.find_none _ _ E') in Hin.
    apply (HasPrefix_app (c :: s) t w) in Hp. simpl in Hin, Hp. congruence.
Qed.

Lemma wide_spaces_nonempty w : w ∈ wide_spaces -> w <> [].
Proof.
  intros H Hw. subst w. assert (existsb (fun w => bool_decide (w = [])) wide_spaces = true) as E.
  { apply existsb_exists. exists []. split; [by apply list_elem_of_In|done]. }
  by vm_compute in E.
Qed.

Lemma TrimSpace_b_left s : space_prefix wide_spaces (TrimSpace_b s) = 0.
Proof.
  unfold TrimSpace_b, TrimRightSpace.
  set (l := TrimLeftSpace s).
  destruct (trim_with_suffix (length l) (reverse <$> wide_spaces) (reverse l)) as [t Ht].
  set (r := trim_with _ _ _) in *.
  apply (space_prefix_prefix _ _ (reverse t) wide_spaces_nonempty).
  rewrite <- reverse_app, <- Ht, reverse_involutive.
  apply trim_with_done. lia.
Qed.

Lemma TrimSpace_b_right s :
  space_prefix (reverse <$> wide_spaces) (reverse (TrimSpace_b s)) = 0.
Proof.
  unfold TrimSpace_b, TrimRightSpace. rewrite reverse_involutive.
  apply trim_with_done. by rewrite length_reverse.
Qed.

Lemma TrimSpace_b_idem s : TrimSpace_b (TrimSpace_b s) = TrimSpace_b s.
Proof.
  unfold TrimSpace_b at 1. unfold TrimLeftSpace.
  rewrite trim_with_fix by apply TrimSpace_b_left.
  unfold TrimRightSpace. rewrite trim_with_fix by apply TrimSpace_b_right.
  apply reverse_involutive.
Qed.

Lemma TrimSpace_idem s : TrimSpace (TrimSpace s) = TrimSpace s.
Proof. unfold TrimSpace. by rewrite lit_str, TrimSpace_b_idem. Qed.

Lemma blank_TrimSpace s : blank (TrimSpace s) = String.eqb (TrimSpace s) "".
Proof. unfold blank. by rewrite TrimSpace_idem. Qed.
