(* ===== verification/Json.v ===== *)
(** * Json: decoded JSON documents

    [json.RawMessage] fields and [jsonb] columns are modelled by the document
    they hold.  [field] is the lookup [->] of an object key, [text] the
    operator [->>] (a NULL is [None]), [concat] the object merge [||], and
    [decode_*] the conversions [json.Unmarshal] makes into a struct field of
    the given Go type: a missing key or a JSON null leaves the zero value, a
    value of another JSON type is a decoding error. *)

From Stdlib Require Import Ascii String.
From S2P Require Import Prelude GoStrings.

Set Warnings "-register-all".
Inductive json : Type :=
| JNull
| JBool (v : bool)
| JNum (literal : string)
| JStr (s : string)
| JArr (items : list json)
| JObj (fields : list (string * json)).

Definition assoc {A} (k : string) (l : list (string * A)) : option A :=
  match List.find (fun p => String.eqb k (fst p)) l with
  | Some p => Some (snd p)
  | None => None
  end.

Definition field (k : string) (j : json) : option json :=
  match j with
  | JObj fs => assoc k fs
  | _ => None
  end.

(** PostgreSQL's text output of a document. *)
Definition hex_digit (n : nat) : ascii :=
  nth n (lit "0123456789abcdef") "0"%char.
Definition escape_char (c : ascii) : bytes :=
  match nat_of_ascii c with
  | 8 => lit "\b" | 9 => lit "\t" | 10 => lit "\n"
  | 12 => lit "\f" | 13 => lit "\r" | 34 => ["\"%char; c]
  | 92 => ["\"%char; c]
  | n => if Nat.ltb n 32
         then lit "\u00" ++ [hex_digit (n / 16); hex_digit (n mod 16)]
         else [c]
  end.
Definition dquote : ascii := ascii_of_nat 34.
Definition quote (s : string) : bytes :=
  [dquote] ++ (lit s ≫= escape_char) ++ [dquote].

Fixpoint join (sep : bytes) (l : list bytes) : bytes :=
  match l with
  | [] => []
  | [x] => x
  | x :: l' => x ++ sep ++ join sep l'
  end.

Fixpoint jsonb_out (j : json) : bytes :=
  match j with
  | JNull => lit "null"
  | JBool v => if v then lit "true" else lit "false"
  | JNum s => lit s
  | JStr s => quote s
  | JArr l => lit "[" ++ join (lit ", ") (List.map jsonb_out l) ++ lit "]"
  | JObj fs =>
      lit "{" ++ join (lit ", ")
        (List.map (fun p => quote (fst p) ++ lit ": " ++ jsonb_out (snd p)) fs)
      ++ lit "}"
  end.

Definition text (k : string) (j : json) : option string :=
  match field k j with
  | None | Some JNull => None
  | Some (JStr s) => Some s
  | Some v => Some (str (jsonb_out v))
  end.

Definition is_json_string (j : option json) : bool :=
  match j with Some (JStr _) => true | _ => false end.

(** [jsonb - key] and [jsonb || jsonb] on objects. *)
Definition remove_key {A} (k : string) (fs : list (string * A)) :=
  List.filter (fun p => negb (String.eqb k (fst p))) fs.
Definition minus (j : json) (k : string) : json :=
  match j with
  | JObj fs => JObj (remove_key k fs)
  | _ => j
  end.
Definition set_key {A} (k : string) (v : A) (fs : list (string * A)) :=
  remove_key k fs ++ [(k, v)].
Definition concat_fields {A} (l r : list (string * A)) : list (string * A) :=
  fold_left (fun acc p => set_key (fst p) (snd p) acc) r l.
Definition concat (l r : json) : json :=
  match l, r with
  | JObj a, JObj c => JObj (concat_fields a c)
  | JObj _, JArr c => JArr (l :: c)
  | JArr a, JArr c => JArr (a ++ c)
  | JArr a, _ => JArr (a ++ [r])
  | _, JArr c => JArr (l :: c)
  | _, _ => JArr [l; r]
  end.

(** [json.Unmarshal] into struct fields.  A document key names the field it
    equals up to case folding (ASCII letters, the long s and the Kelvin sign);
    the fields are assigned in document order and a null assigns nothing. *)
Fixpoint fold_name (l : bytes) : bytes :=
  match l with
  | [] => []
  | c :: rest =>
      let n := nat_of_ascii c in
      match n, rest with
      | 197, d :: rest' =>
          if Nat.eqb (nat_of_ascii d) 191 then "S"%char :: fold_name rest'
          else c :: fold_name rest
      | 226, d :: d' :: rest' =>
          if Nat.eqb (nat_of_ascii d) 132 && Nat.eqb (nat_of_ascii d') 170
          then "K"%char :: fold_name rest' else c :: fold_name rest
      | _, _ =>
          (if Nat.leb 97 n && Nat.leb n 122 then ascii_of_nat (n - 32) else c)
          :: fold_name rest
      end
  end.
Definition same_name (x y : string) : bool :=
  String.eqb (str (fold_name (lit x))) (str (fold_name (lit y))).

Definition assign {A} (conv : json -> option A) (k : string) (acc : option A)
    (p : string * json) : option A :=
  if same_name k (fst p) then
    match acc, snd p with
    | None, _ => None
    | Some v, JNull => Some v
    | Some _, x => conv x
    end
  else acc.
Definition decode_field {A} (zero : A) (conv : json -> option A)
    (k : string) (j : json) : option A :=
  match j with
  | JObj fs => fold_left (assign conv k) fs (Some zero)
  | _ => Some zero
  end.
Definition as_string (j : json) : option string :=
  match j with JStr s => Some s | _ => None end.
Definition as_bool (j : json) : option bool :=
  match j with JBool v => Some v | _ => None end.
Definition decode_string := decode_field ""%string as_string.
Definition decode_bool := decode_field false as_bool.
Definition is_object (j : json) : bool :=
  match j with JObj _ => true | _ => false end.

Definition is_null (j : json) : bool :=
  match j with JNull => true | _ => false end.

(** ** Lemmas *)

Lemma assoc_remove_eq {A} k (fs : list (string * A)) :
  assoc k (remove_key k fs) = None.
Proof.
  unfold assoc. induction fs as [|[k' v] fs IH]; simpl; [done|].
  destruct (String.eqb k k') eqn:E; simpl; [done|]. by rewrite E.
Qed.

Lemma assoc_remove_ne {A} k k' (fs : list (string * A)) :
  k <> k' -> assoc k (remove_key k' fs) = assoc k fs.
Proof.
  intros Hne. unfold assoc. induction fs as [|[k'' v] fs IH]; simpl; [done|].
  destruct (String.eqb k' k'') eqn:E; simpl.
  - apply String.eqb_eq in E as <-.
    by rewrite (proj2 (String.eqb_neq k k') Hne).
  - by destruct (String.eqb k k'').
Qed.

Lemma assoc_app {A} k (l r : list (string * A)) :
  assoc k (l ++ r) = match assoc k l with Some v => Some v | None => assoc k r end.
Proof.
  unfold assoc. induction l as [|[k' v] l IH]; simpl; [done|].
  by destruct (String.eqb k k').
Qed.

Lemma assoc_set_eq {A} k v (fs : list (string * A)) :
  assoc k (set_key k v fs) = Some v.
Proof.
  unfold set_key. rewrite assoc_app, assoc_remove_eq.
  unfold assoc. simpl. by rewrite String.eqb_refl.
Qed.

Lemma assoc_set_ne {A} k k' v (fs : list (string * A)) :
  k <> k' -> assoc k (set_key k' v fs) = assoc k fs.
Proof.
  intros Hne. unfold set_key. rewrite assoc_app, assoc_remove_ne by done.
  destruct (assoc k fs); [done|]. unfold assoc. simpl.
  by rewrite (proj2 (String.eqb_neq k k') Hne).
Qed.

Lemma assoc_cons {A} k k' (v : A) fs :
  assoc k ((k', v) :: fs) = if String.eqb k k' then Some v else assoc k fs.
Proof. unfold assoc. simpl. by destruct (String.eqb k k'). Qed.

Lemma assoc_None {A} k (fs : list (string * A)) :
  assoc k fs = None <-> k ∉ fs.*1.
Proof.
  induction fs as [|[k' v] fs IH]; [by split; [intros _ ?%not_elem_of_nil|]|].
  rewrite fmap_cons, not_elem_of_cons. unfold assoc in *; simpl.
  destruct (String.eqb k k') eqn:E.
  - apply String.eqb_eq in E as ->. split; [done|]. by intros [? _].
  - apply String.eqb_neq in E. tauto.
Qed.

(** Merging an object whose keys are distinct: the right operand wins. *)
Lemma assoc_concat {A} k (l r : list (string * A)) :
  NoDup r.*1 ->
  assoc k (concat_fields l r)
  = match assoc k r with Some v => Some v | None => assoc k l end.
Proof.
  unfold concat_fields. revert l.
  induction r as [|[k' v] r IH]; intros l Hnd; [done|].
  rewrite fmap_cons in Hnd. apply NoDup_cons in Hnd as [Hnin Hnd].
  simpl. rewrite IH, assoc_cons by done.
  destruct (String.eqb k k') eqn:E.
  - apply String.eqb_eq in E as ->. apply assoc_None in Hnin.
    simpl in Hnin. by rewrite Hnin, assoc_set_eq.
  - apply String.eqb_neq in E. rewrite assoc_set_ne by done. done.
Qed.

Create Rewrite HintDb json.
#[export] Hint Rewrite @assoc_set_eq @assoc_remove_eq : json.
