(* ===== verification/GoJson.v ===== *)
(** * GoJson: the JSON text codec of Go's standard library

    What the task-program code uses of package encoding/json and of
    unicode/utf8: [json.Valid] and decoding into [any] with [UseNumber]
    ([Parse]: one pass of a push-down scanner over the bytes, as Go's scanner
    is, so no fuel), [json.Marshal] of a decoded value ([Marshal]), and
    [utf8.ValidString].  Package strconv's quoting (the verb [%q]) is
    [Quote]; the Unicode table [strconv.IsPrint] is its argument. *)

From Stdlib Require Import Ascii String.
From S2P Require Import Prelude GoStrings Json.

Definition code (c : ascii) : Z := Z.of_nat (nat_of_ascii c).
Definition in_range (lo hi : Z) (c : ascii) : bool :=
  Z.leb lo (code c) && Z.leb (code c) hi.
Definition byte_of (z : Z) : ascii := ascii_of_nat (Z.to_nat z).

(** ** UTF-8 *)

Definition cont (c : ascii) : bool := in_range 128 191 c.

(** The length of the well-formed encoding [s] starts with, 0 for none: the
    table of [utf8.DecodeRune] (no overlong forms, no surrogates, at most
    U+10FFFF). *)
Definition rune_len (s : bytes) : nat :=
  match s with
  | [] => 0
  | a :: s1 =>
      if Z.ltb (code a) 128 then 1 else
      match s1 with
      | [] => 0
      | b :: s2 =>
          if in_range 194 223 a && cont b then 2 else
          match s2 with
          | [] => 0
          | c :: s3 =>
              if cont c
                 && (Z.eqb (code a) 224 && in_range 160 191 b
                     || in_range 225 236 a && cont b
                     || Z.eqb (code a) 237 && in_range 128 159 b
                     || in_range 238 239 a && cont b) then 3 else
              match s3 with
              | [] => 0
              | d :: _ =>
                  if cont c && cont d
                     && (Z.eqb (code a) 240 && in_range 144 191 b
                         || in_range 241 243 a && cont b
                         || Z.eqb (code a) 244 && in_range 128 143 b)
                  then 4 else 0
              end
          end
      end
  end.

Fixpoint valid_utf8 (fuel : nat) (s : bytes) : bool :=
  match fuel, s with
  | _, [] => true
  | 0, _ => false
  | S fuel, _ =>
      match rune_len s with
      | 0 => false
      | n => valid_utf8 fuel (drop n s)
      end
  end.
Definition ValidString (s : bytes) : bool := valid_utf8 (length s) s.

(** The code point of a well-formed encoding of length [n]. *)
Definition bits (c : ascii) (w : Z) : Z := Z.land (code c) (Z.ones w).
Definition rune_at (s : bytes) : Z :=
  match rune_len s, s with
  | 1, a :: _ => code a
  | 2, a :: b :: _ => (Z.shiftl (bits a 5) 6 + bits b 6)%Z
  | 3, a :: b :: c :: _ =>
      (Z.shiftl (bits a 4) 12 + Z.shiftl (bits b 6) 6 + bits c 6)%Z
  | 4, a :: b :: c :: d :: _ =>
      (Z.shiftl (bits a 3) 18 + Z.shiftl (bits b 6) 12
       + Z.shiftl (bits c 6) 6 + bits d 6)%Z
  | _, _ => 65533
  end.

(** [utf8.AppendRune] for the code points [unquote] makes. *)
Definition encode_rune (r : Z) : bytes :=
  if Z.ltb r 128 then [byte_of r]
  else if Z.ltb r 2048 then
    [byte_of (192 + Z.shiftr r 6)%Z; byte_of (128 + Z.land r 63)%Z]
  else if Z.ltb r 65536 then
    [byte_of (224 + Z.shiftr r 12)%Z; byte_of (128 + Z.land (Z.shiftr r 6) 63)%Z;
     byte_of (128 + Z.land r 63)%Z]
  else
    [byte_of (240 + Z.shiftr r 18)%Z; byte_of (128 + Z.land (Z.shiftr r 12) 63)%Z;
     byte_of (128 + Z.land (Z.shiftr r 6) 63)%Z; byte_of (128 + Z.land r 63)%Z].
Definition rune_error : bytes := encode_rune 65533.

(** ** String literals *)

Definition hex_value (c : ascii) : option Z :=
  if in_range 48 57 c then Some (code c - 48)%Z
  else if in_range 97 102 c then Some (code c - 87)%Z
  else if in_range 65 70 c then Some (code c - 55)%Z
  else None.
Definition is_hex (c : ascii) : bool :=
  match hex_value c with Some _ => true | None => false end.

(** [getu4]: the code unit of the escape [\uXXXX] at the front. *)
Definition getu4 (s : bytes) : option Z :=
  match s with
  | b :: u :: h1 :: h2 :: h3 :: h4 :: _ =>
      if Ascii.eqb b "\"%char && Ascii.eqb u "u"%char then
        a ← hex_value h1; b ← hex_value h2; c ← hex_value h3; d ← hex_value h4;
        Some (a * 4096 + b * 256 + c * 16 + d)%Z
      else None
  | _ => None
  end.

Definition surrogate (r : Z) : bool := Z.leb 55296 r && Z.leb r 57343.
Definition high_surrogate (r : Z) : bool := Z.leb 55296 r && Z.leb r 56319.
Definition low_surrogate (r : Z) : bool := Z.leb 56320 r && Z.leb r 57343.
Definition combine (hi lo : Z) : Z :=
  (Z.shiftl (hi - 55296) 10 + (lo - 56320) + 65536)%Z.

(** One step of [unquote]: the bytes it appends and how many it consumes. *)
Definition unquote_step (s : bytes) : bytes * nat :=
  match s with
  | [] => ([], 0)
  | c :: rest =>
      if Ascii.eqb c "\"%char then
        match rest with
        | [] => ([], 1)
        | e :: _ =>
            if Ascii.eqb e "u"%char then
              match getu4 s with
              | None => ([], 6)
              | Some r =>
                  if surrogate r then
                    match getu4 (drop 6 s) with
                    | Some lo =>
                        if high_surrogate r && low_surrogate lo
                        then (encode_rune (combine r lo), 12)
                        else (rune_error, 6)
                    | None => (rune_error, 6)
                    end
                  else (encode_rune r, 6)
              end
            else
              ([if Ascii.eqb e "b"%char then chr 8
                else if Ascii.eqb e "f"%char then chr 12
                else if Ascii.eqb e "n"%char then chr 10
                else if Ascii.eqb e "r"%char then chr 13
                else if Ascii.eqb e "t"%char then chr 9
                else e], 2)
        end
      else if Z.ltb (code c) 128 then ([c], 1)
      else match rune_len s with
           | 0 => (rune_error, 1)
           | n => (take n s, n)
           end
  end.
Fixpoint unquote_with (fuel : nat) (s : bytes) : bytes :=
  match fuel, s with
  | _, [] => []
  | 0, _ => []
  | S fuel, _ =>
      (unquote_step s).1 ++ unquote_with fuel (drop (unquote_step s).2 s)
  end.
Definition unquote (s : bytes) : string := str (unquote_with (length s) s).

(** ** The scanner *)

Inductive frame : Type :=
| InArr (items : list json)
| InObj (fields : list (string * json)) (key : string).

(** Number states: after the sign, a leading zero, integer digits, the dot,
    fraction digits, the exponent letter, its sign, exponent digits. *)
Inductive numst : Type := NSign | NZero | NInt | NDot | NFrac | NE | NESign | NExp.

Inductive mode : Type :=
| MValue                                  (* a value must start *)
| MFirst                                  (* a value or the closing bracket *)
| MKeyFirst                               (* a key or the closing brace *)
| MKey                                    (* a key must start *)
| MColon (key : string)
| MStr (key : bool) (rev : bytes)
| MEsc (key : bool) (rev : bytes)
| MHex (key : bool) (left : nat) (rev : bytes)
| MNum (st : numst) (rev : bytes)
| MLit (rest : bytes) (v : json)
| MEnd                                    (* a value ended inside a container *)
| MTop (v : json).                        (* the top-level value ended *)

(** An object being read before its key is known has the key [""]. *)
Record scan := MkScan { sc_mode : mode; sc_stack : list frame }.

Definition is_space (c : ascii) : bool :=
  match nat_of_ascii c with 9 | 10 | 13 | 32 => true | _ => false end.

Definition maxNestingDepth : nat := 100 * 100.

Definition push (f : frame) (m : mode) (st : list frame) : option scan :=
  if Nat.leb (S (length st)) maxNestingDepth
  then Some (MkScan m (f :: st)) else None.

Definition begin_num (c : ascii) : option numst :=
  if Ascii.eqb c "-"%char then Some NSign
  else if Ascii.eqb c "0"%char then Some NZero
  else if in_range 49 57 c then Some NInt
  else None.

Definition begin_value (c : ascii) (st : list frame) : option scan :=
  if Ascii.eqb c "{"%char then push (InObj [] "") MKeyFirst st
  else if Ascii.eqb c "["%char then push (InArr []) MFirst st
  else if Ascii.eqb c dquote then Some (MkScan (MStr false []) st)
  else if Ascii.eqb c "t"%char then Some (MkScan (MLit (lit "rue") (JBool true)) st)
  else if Ascii.eqb c "f"%char then Some (MkScan (MLit (lit "alse") (JBool false)) st)
  else if Ascii.eqb c "n"%char then Some (MkScan (MLit (lit "ull") JNull) st)
  else match begin_num c with
       | Some n => Some (MkScan (MNum n [c]) st)
       | None => None
       end.

Definition num_step (n : numst) (c : ascii) : option numst :=
  let digit := in_range 48 57 c in
  let exp := Ascii.eqb c "e"%char || Ascii.eqb c "E"%char in
  match n with
  | NSign => if Ascii.eqb c "0"%char then Some NZero
             else if in_range 49 57 c then Some NInt else None
  | NZero => if Ascii.eqb c "."%char then Some NDot
             else if exp then Some NE else None
  | NInt => if digit then Some NInt
            else if Ascii.eqb c "."%char then Some NDot
            else if exp then Some NE else None
  | NDot => if digit then Some NFrac else None
  | NFrac => if digit then Some NFrac else if exp then Some NE else None
  | NE => if Ascii.eqb c "+"%char || Ascii.eqb c "-"%char then Some NESign
          else if digit then Some NExp else None
  | NESign => if digit then Some NExp else None
  | NExp => if digit then Some NExp else None
  end.
Definition num_done (n : numst) : bool :=
  match n with NZero | NInt | NFrac | NExp => true | _ => false end.

Definition set_top_key (k : string) (st : list frame) : list frame :=
  match st with InObj fs _ :: st' => InObj fs k :: st' | _ => st end.

Definition escapable (c : ascii) : bool :=
  existsb (Ascii.eqb c) (dquote :: lit "bfnrt\/").

(** [put] adds a member to the object being read. *)
Section scanner.
Context (put : string -> json -> list (string * json) -> list (string * json)).

(** A value is complete: it goes to the enclosing container. *)
Definition deliver (v : json) (st : list frame) : scan :=
  match st with
  | [] => MkScan (MTop v) []
  | InArr items :: st' => MkScan MEnd (InArr (items ++ [v]) :: st')
  | InObj fs k :: st' => MkScan MEnd (InObj (put k v fs) k :: st')
  end.

(** The byte after a complete value. *)
Definition end_value (c : ascii) (s : scan) : option scan :=
  if is_space c then Some s
  else match sc_stack s with
       | InArr items :: st =>
           if Ascii.eqb c ","%char then Some (MkScan MValue (sc_stack s))
           else if Ascii.eqb c "]"%char then Some (deliver (JArr items) st)
           else None
       | InObj fs _ :: st =>
           if Ascii.eqb c ","%char then Some (MkScan MKey (sc_stack s))
           else if Ascii.eqb c "}"%char then Some (deliver (JObj fs) st)
           else None
       | [] => None
       end.

Definition end_string (key : bool) (raw : bytes) (st : list frame) : scan :=
  if key then MkScan (MColon (unquote raw)) st
  else deliver (JStr (unquote raw)) st.

Definition scan_step (s : scan) (c : ascii) : option scan :=
  let st := sc_stack s in
  match sc_mode s with
  | MValue => if is_space c then Some s else begin_value c st
  | MFirst =>
      if is_space c then Some s
      else if Ascii.eqb c "]"%char then
        match st with InArr items :: st' => Some (deliver (JArr items) st') | _ => None end
      else begin_value c st
  | MKeyFirst =>
      if is_space c then Some s
      else if Ascii.eqb c "}"%char then
        match st with InObj fs _ :: st' => Some (deliver (JObj fs) st') | _ => None end
      else if Ascii.eqb c dquote then Some (MkScan (MStr true []) st) else None
  | MKey =>
      if is_space c then Some s
      else if Ascii.eqb c dquote then Some (MkScan (MStr true []) st) else None
  | MColon k =>
      if is_space c then Some s
      else if Ascii.eqb c ":"%char then Some (MkScan MValue (set_top_key k st)) else None
  | MStr key rv =>
      if Ascii.eqb c dquote then Some (end_string key (rev rv) st)
      else if Ascii.eqb c "\"%char then Some (MkScan (MEsc key (c :: rv)) st)
      else if Z.ltb (code c) 32 then None
      else Some (MkScan (MStr key (c :: rv)) st)
  | MEsc key rv =>
      if escapable c then Some (MkScan (MStr key (c :: rv)) st)
      else if Ascii.eqb c "u"%char then Some (MkScan (MHex key 4 (c :: rv)) st)
      else None
  | MHex key n rv =>
      if is_hex c then
        Some (MkScan (if Nat.leb n 1 then MStr key (c :: rv)
                      else MHex key (n - 1) (c :: rv)) st)
      else None
  | MNum n rv =>
      match num_step n c with
      | Some n' => Some (MkScan (MNum n' (c :: rv)) st)
      | None =>
          if num_done n then end_value c (deliver (JNum (str (rev rv))) st)
          else None
      end
  | MLit [] _ => None
  | MLit (x :: rest) v =>
      if Ascii.eqb c x then
        Some (match rest with [] => deliver v st | _ => MkScan (MLit rest v) st end)
      else None
  | MEnd | MTop _ => end_value c s
  end.

Fixpoint scan_all (s : scan) (input : bytes) : option scan :=
  match input with
  | [] => Some s
  | c :: rest => s' ← scan_step s c; scan_all s' rest
  end.

Definition scan_end (s : scan) : option json :=
  match sc_mode s with
  | MTop v => Some v
  | MNum n rv => if num_done n then
                   match sc_stack s with
                   | [] => Some (JNum (str (rev rv)))
                   | _ => None
                   end
                 else None
  | _ => None
  end.

(** The value of a text that holds exactly one JSON document. *)
Definition Decode (s : bytes) : option json :=
  st ← scan_all (MkScan MValue []) s; scan_end st.
End scanner.

(** Decoding into a Go map keeps the last value of a repeated key; decoding
    into a struct sees the members in document order. *)
Definition Parse : bytes -> option json := Decode set_key.
Definition append_member (k : string) (v : json) (fs : list (string * json)) :=
  fs ++ [(k, v)].
Definition Members : bytes -> option json := Decode append_member.
Definition Valid (s : bytes) : bool :=
  match Parse s with Some _ => true | None => false end.

(** ** Marshal *)

Definition hex2 (n : nat) : bytes := [hex_digit (n / 16); hex_digit (n mod 16)].

Definition marshal_rune (s : bytes) : bytes * nat :=
  match s with
  | [] => ([], 0)
  | c :: _ =>
      if Z.ltb (code c) 128 then
        (match nat_of_ascii c with
         | 8 => lit "\b" | 9 => lit "\t" | 10 => lit "\n"
         | 12 => lit "\f" | 13 => lit "\r"
         | 34 => ["\"%char; c] | 92 => ["\"%char; c]
         | n => if Nat.ltb n 32 || Nat.eqb n 38 || Nat.eqb n 60 || Nat.eqb n 62
                then lit "\u00" ++ hex2 n else [c]
         end, 1)
      else match rune_len s with
           | 0 => (lit "\ufffd", 1)
           | n => (if Z.eqb (rune_at s) 8232 then lit "\u2028"
                   else if Z.eqb (rune_at s) 8233 then lit "\u2029"
                   else take n s, n)
           end
  end.
Fixpoint marshal_string_with (fuel : nat) (s : bytes) : bytes :=
  match fuel, s with
  | _, [] => []
  | 0, _ => []
  | S fuel, _ =>
      (marshal_rune s).1 ++ marshal_string_with fuel (drop (marshal_rune s).2 s)
  end.
Definition marshal_string (s : string) : bytes :=
  [dquote] ++ marshal_string_with (String.length s) (lit s) ++ [dquote].

(** Object keys are written in increasing order of their bytes. *)
Fixpoint insert_key {A} (p : string * A) (l : list (string * A)) :=
  match l with
  | [] => [p]
  | q :: l' => if String.leb (fst p) (fst q) then p :: l else q :: insert_key p l'
  end.
Definition sort_keys {A} (l : list (string * A)) : list (string * A) :=
  fold_right insert_key [] l.

Fixpoint Marshal (j : json) : bytes :=
  match j with
  | JNull => lit "null"
  | JBool v => if v then lit "true" else lit "false"
  | JNum s => lit s
  | JStr s => marshal_string s
  | JArr l => lit "[" ++ join (lit ",") (List.map Marshal l) ++ lit "]"
  | JObj fs =>
      lit "{" ++ join (lit ",")
        (List.map (fun p => marshal_string (fst p) ++ lit ":" ++ snd p)
           (sort_keys (List.map (fun p => (fst p, Marshal (snd p))) fs)))
      ++ lit "}"
  end.

(** ** Numbers as float64

    Decoding into [any] converts a number to a float64: it fails when the
    value rounds to an infinity, and a tiny one becomes zero. *)

Fixpoint digits_value (acc : Z) (l : bytes) : Z :=
  match l with
  | [] => acc
  | c :: l' => digits_value (acc * 10 + (code c - 48))%Z l'
  end.
Fixpoint span_digits (l : bytes) : bytes * bytes :=
  match l with
  | c :: l' => if in_range 48 57 c
               then let '(d, r) := span_digits l' in (c :: d, r) else ([], l)
  | [] => ([], [])
  end.
(** The magnitude [m * 10 ^ e] of a literal of JSON's number grammar. *)
Definition magnitude (literal : bytes) : Z * Z :=
  let l := match literal with
           | c :: l' => if Ascii.eqb c "-"%char then l' else literal
           | [] => []
           end in
  let '(int, l) := span_digits l in
  let '(frac, l) := match l with
                    | c :: l' => if Ascii.eqb c "."%char then span_digits l' else ([], l)
                    | [] => ([], [])
                    end in
  let e := match l with
           | _ :: s :: l' =>
               if Ascii.eqb s "-"%char then (- digits_value 0 l')%Z
               else if Ascii.eqb s "+"%char then digits_value 0 l'
               else digits_value 0 (s :: l')
           | _ => 0%Z
           end in
  (digits_value 0 (int ++ frac), (e - Z.of_nat (length frac))%Z).
(** [m * 10 ^ e] compared with a bound without dividing. *)
Definition scaled_le (m e bound : Z) : bool :=
  if Z.leb 0 e then Z.leb (m * 10 ^ e) bound else Z.leb m (bound * 10 ^ (- e)).
(** Half of the least subnormal 2^-1074 rounds to zero; the least value that
    rounds to an infinity is 2^1024 - 2^970. *)
Definition float_is_zero (literal : bytes) : bool :=
  let '(m, e) := magnitude literal in
  Z.eqb m 0 || (Z.ltb e 0 && Z.leb (m * 2 ^ 1075) (10 ^ (- e))).
Definition float_in_range (literal : bytes) : bool :=
  let '(m, e) := magnitude literal in
  negb (scaled_le (- m) e (- (2 ^ 1024 - 2 ^ 970))).

Fixpoint floats_in_range (j : json) : bool :=
  match j with
  | JNum s => float_in_range (lit s)
  | JArr l => forallb floats_in_range l
  | JObj fs => forallb (fun p => floats_in_range (snd p)) fs
  | _ => true
  end.
(** [json.Unmarshal] into [any]. *)
Definition UnmarshalAny (s : bytes) : option json :=
  j ← Parse s; if floats_in_range j then Some j else None.

(** [strconv.ParseInt(s, 10, 64)]. *)
Fixpoint parse_digits (acc : Z) (s : bytes) : option Z :=
  match s with
  | [] => Some acc
  | c :: rest => if in_range 48 57 c then parse_digits (acc * 10 + (code c - 48))%Z rest else None
  end.
Definition ParseInt (s : bytes) : option Z :=
  let '(neg, digits) := match s with
    | c :: rest => if Ascii.eqb c "-"%char then (true, rest)
                   else if Ascii.eqb c "+"%char then (false, rest) else (false, s)
    | [] => (false, [])
    end in
  match digits with
  | [] => None
  | _ =>
      n ← parse_digits 0 digits;
      let n := if (neg : bool) then (- n)%Z else n in
      if Z.leb (- 2 ^ 63) n && Z.ltb n (2 ^ 63) then Some n else None
  end.
(** Decoding into [int]: the literal must be an integer of 64 bits. *)
Definition as_int (j : json) : option Z :=
  match j with JNum s => ParseInt (lit s) | _ => None end.
Definition decode_int := decode_field 0%Z as_int.

(** ** strconv.Quote *)

Section quoting.
Context (IsPrint : Z -> bool).

Fixpoint hex_digits (n : nat) (z : Z) : bytes :=
  match n with
  | 0 => []
  | S n => hex_digits n (Z.shiftr z 4) ++ [hex_digit (Z.to_nat (Z.land z 15))]
  end.

Definition quote_rune (s : bytes) : bytes * nat :=
  match s, rune_len s with
  | [], _ => ([], 0)
  | c :: _, 0 => (lit "\x" ++ hex2 (nat_of_ascii c), 1)
  | c :: _, n =>
      let r := rune_at s in
      (if Ascii.eqb c dquote || Ascii.eqb c "\"%char then ["\"%char; c]
       else if (Z.leb 32 r && Z.leb r 126) || (Z.leb 128 r && IsPrint r) then take n s
       else match r with
            | 7 => lit "\a" | 8 => lit "\b" | 12 => lit "\f" | 10 => lit "\n"
            | 13 => lit "\r" | 9 => lit "\t" | 11 => lit "\v"
            | _ => if Z.ltb r 32 || Z.eqb r 127 then lit "\x" ++ hex2 (Z.to_nat r)
                   else if Z.ltb r 65536 then lit "\u" ++ hex_digits 4 r
                   else lit "\U" ++ hex_digits 8 r
            end%Z, n)
  end.
Fixpoint quote_with (fuel : nat) (s : bytes) : bytes :=
  match fuel, s with
  | _, [] => []
  | 0, _ => []
  | S fuel, _ => (quote_rune s).1 ++ quote_with fuel (drop (quote_rune s).2 s)
  end.
Definition Quote (s : string) : bytes :=
  [dquote] ++ quote_with (String.length s) (lit s) ++ [dquote].
End quoting.
