(* ===== verification/JsonText.v ===== *)
(** * JsonText: what package encoding/json writes, it reads back

    The string literals [marshal_string] writes for valid UTF-8 are scanned as
    one literal and unquoted to the text they came from, and a struct of
    string fields ([marshal_struct]) is read back member by member. *)

From Stdlib Require Import Ascii String.
From S2P Require Import Prelude GoStrings Json GoJson.

(** ** Well-formed encodings *)

Definition wide (c : ascii) : Prop := (128 <= code c)%Z.

Lemma in_range_iff lo hi c : in_range lo hi c = true <-> (lo <= code c <= hi)%Z.
Proof. unfold in_range. rewrite andb_true_iff, !Z.leb_le. done. Qed.

Lemma cont_iff c : cont c = true <-> (128 <= code c <= 191)%Z.
Proof. apply in_range_iff. Qed.

Ltac ranges :=
  repeat match goal with
  | H : _ && _ = true |- _ => apply andb_true_iff in H as [? ?]
  | H : _ || _ = true |- _ => apply orb_true_iff in H as [?|?]
  | H : in_range _ _ _ = true |- _ => apply in_range_iff in H
  | H : cont _ = true |- _ => apply cont_iff in H
  | H : Z.eqb _ _ = true |- _ => apply Z.eqb_eq in H
  | H : Z.ltb _ _ = true |- _ => apply Z.ltb_lt in H
  | H : Z.ltb _ _ = false |- _ => apply Z.ltb_ge in H
  end.

(** The four shapes of a well-formed encoding. *)
Inductive encoding : bytes -> nat -> Prop :=
| enc1 a s : (code a < 128)%Z -> encoding (a :: s) 1
| enc2 a b s : (194 <= code a <= 223)%Z -> (128 <= code b <= 191)%Z ->
    encoding (a :: b :: s) 2
| enc3 a b c s : (224 <= code a <= 239)%Z -> (128 <= code b <= 191)%Z ->
    (128 <= code c <= 191)%Z -> encoding (a :: b :: c :: s) 3
| enc4 a b c d s : (240 <= code a <= 244)%Z -> (128 <= code b <= 191)%Z ->
    (code a = 240 -> 144 <= code b)%Z -> (128 <= code c <= 191)%Z ->
    (128 <= code d <= 191)%Z -> encoding (a :: b :: c :: d :: s) 4.

Lemma rune_len_encoding s n : rune_len s = S n -> encoding s (S n).
Proof.
  destruct s as [|a [|b [|c [|d s]]]]; simpl; intros H; try done;
    repeat case_match; simplify_eq; ranges; constructor; try lia.
Qed.

Lemma rune_len_take s n t : rune_len s = S n -> rune_len (take (S n) s ++ t) = S n.
Proof.
  intros H. pose proof (rune_len_encoding _ _ H) as He.
  inversion He; subst; revert H; simpl; repeat case_match; done.
Qed.

Lemma rune_len_le s : rune_len s <= length s.
Proof.
  destruct (rune_len s) as [|n] eqn:E; [lia|].
  destruct (rune_len_encoding _ _ E); simpl; lia.
Qed.

Lemma encoding_wide s n : encoding s (S (S n)) -> Forall wide (take (S (S n)) s).
Proof. inversion 1; subst; simpl; repeat constructor; unfold wide; lia. Qed.

Lemma low_bits c w k : (0 <= w)%Z -> (0 <= k)%Z -> (k * 2 ^ w <= code c < (k + 1) * 2 ^ w)%Z ->
  bits c w = (code c - k * 2 ^ w)%Z.
Proof.
  intros Hw Hk H. unfold bits. rewrite Z.land_ones by done.
  symmetry. apply (Z.mod_unique_pos _ _ k); nia.
Qed.

Lemma code_inj c d : code c = code d -> c = d.
Proof.
  unfold code. intros H%Nat2Z.inj. rewrite <- (ascii_nat_embedding c), <- (ascii_nat_embedding d).
  by rewrite H.
Qed.

(** The two separators JSON escapes have one encoding each. *)
Lemma rune_at_separator s n : rune_len s = S n ->
  (rune_at s = 8232 -> take (S n) s = encode_rune 8232)%Z
  /\ (rune_at s = 8233 -> take (S n) s = encode_rune 8233)%Z.
Proof.
  intros H. pose proof (rune_len_encoding _ _ H) as He. unfold rune_at. rewrite H.
  inversion He; subst; simpl take; [split; lia|..].
  - rewrite (low_bits a 5 6), (low_bits b 6 2) by lia.
    rewrite Z.shiftl_mul_pow2 by lia. split; lia.
  - rewrite (low_bits a 4 14), (low_bits b 6 2), (low_bits c 6 2) by lia.
    rewrite !Z.shiftl_mul_pow2 by lia. split; intros Hr.
    + assert (a = byte_of 226) as -> by (apply code_inj; change (code (byte_of 226)) with 226%Z; lia).
      assert (b = byte_of 128) as -> by (apply code_inj; change (code (byte_of 128)) with 128%Z; lia).
      assert (c = byte_of 168) as -> by (apply code_inj; change (code (byte_of 168)) with 168%Z; lia).
      done.
    + assert (a = byte_of 226) as -> by (apply code_inj; change (code (byte_of 226)) with 226%Z; lia).
      assert (b = byte_of 128) as -> by (apply code_inj; change (code (byte_of 128)) with 128%Z; lia).
      assert (c = byte_of 169) as -> by (apply code_inj; change (code (byte_of 169)) with 169%Z; lia).
      done.
  - rewrite (low_bits a 3 30), (low_bits b 6 2), (low_bits c 6 2), (low_bits d 6 2) by lia.
    rewrite !Z.shiftl_mul_pow2 by lia. split; lia.
Qed.

(** ** One encoded code point *)

(** What is written for an ASCII character: itself, a two-character escape or
    [\u00XX]. *)
Definition simple_escape (e : ascii) : ascii :=
  if Ascii.eqb e "b"%char then chr 8
  else if Ascii.eqb e "f"%char then chr 12
  else if Ascii.eqb e "n"%char then chr 10
  else if Ascii.eqb e "r"%char then chr 13
  else if Ascii.eqb e "t"%char then chr 9
  else e.

Inductive ascii_chunk (c : ascii) : bytes -> Prop :=
| ac_plain : c <> "\"%char -> c <> dquote -> (32 <= code c < 128)%Z -> ascii_chunk c [c]
| ac_escape e : escapable e = true -> e <> "u"%char -> simple_escape e = c ->
    ascii_chunk c ["\"%char; e]
| ac_hex h1 h2 : is_hex h1 = true -> is_hex h2 = true ->
    getu4 ("\"%char :: "u"%char :: "0"%char :: "0"%char :: [h1; h2]) = Some (code c) ->
    (code c < 128)%Z -> ascii_chunk c ("\"%char :: "u"%char :: "0"%char :: "0"%char :: [h1; h2]).

Definition ascii_chunk_b (c : ascii) (l : bytes) : bool :=
  match l with
  | [d] => Ascii.eqb d c && negb (Ascii.eqb c "\"%char) && negb (Ascii.eqb c dquote)
           && Z.leb 32 (code c) && Z.ltb (code c) 128
  | [b; e] => Ascii.eqb b "\"%char && escapable e && negb (Ascii.eqb e "u"%char)
              && Ascii.eqb (simple_escape e) c
  | [b; u; z1; z2; h1; h2] =>
      Ascii.eqb b "\"%char && Ascii.eqb u "u"%char && Ascii.eqb z1 "0"%char
      && Ascii.eqb z2 "0"%char && is_hex h1 && is_hex h2 && Z.ltb (code c) 128
      && bool_decide (getu4 l = Some (code c))
  | _ => false
  end.

Lemma ascii_chunk_b_ok c l : ascii_chunk_b c l = true -> ascii_chunk c l.
Proof.
  destruct l as [|b [|e [|z1 [|z2 [|h1 [|h2 [|]]]]]]]; simpl; try done; intros H;
    repeat match goal with H : _ && _ = true |- _ => apply andb_true_iff in H as [? ?] end;
    bool_to_prop; repeat match goal with
    | H : Ascii.eqb _ _ = true |- _ => apply Ascii.eqb_eq in H; try subst
    | H : Ascii.eqb _ _ = false |- _ => apply Ascii.eqb_neq in H
    end; by constructor.
Qed.

Lemma marshal_ascii c s : (code c < 128)%Z ->
  ascii_chunk c (marshal_rune (c :: s)).1 /\ (marshal_rune (c :: s)).2 = 1.
Proof.
  intros Hc. unfold marshal_rune. rewrite (proj2 (Z.ltb_lt _ _) Hc). split; [|done].
  apply ascii_chunk_b_ok.
  assert (forallb (fun n => ascii_chunk_b (chr n) (marshal_rune [chr n]).1) (seq 0 128) = true)
    as Hall by (vm_compute; reflexivity).
  rewrite forallb_forall in Hall. specialize (Hall (nat_of_ascii c)).
  unfold chr in Hall. rewrite ascii_nat_embedding in Hall. unfold marshal_rune in Hall.
  rewrite (proj2 (Z.ltb_lt _ _) Hc) in Hall. apply Hall, in_seq. unfold code in Hc. lia.
Qed.

Lemma getu4_app l t : length l = 6 -> getu4 (l ++ t) = getu4 l.
Proof. by destruct l as [|? [|? [|? [|? [|? [|? [|]]]]]]]. Qed.

Lemma unquote_step_ascii c l t : ascii_chunk c l -> unquote_step (l ++ t) = ([c], length l).
Proof.
  intros [Hb Hq Hc|e He Hu <-|h1 h2 H1 H2 Hu Hc]; cbn [app length unquote_step].
  - by rewrite (proj2 (Ascii.eqb_neq _ _) Hb), (proj2 (Z.ltb_lt _ _) (proj2 Hc)).
  - by rewrite Ascii.eqb_refl, (proj2 (Ascii.eqb_neq _ _) Hu).
  - rewrite !Ascii.eqb_refl.
    rewrite <- (getu4_app ["\"%char; "u"%char; "0"%char; "0"%char; h1; h2] t) in Hu by done.
    cbn [app] in Hu. rewrite Hu. unfold surrogate.
    rewrite (proj2 (Z.leb_gt _ _)) by lia. cbn [andb].
    unfold encode_rune. rewrite (proj2 (Z.ltb_lt _ _) Hc). unfold byte_of, code.
    by rewrite Nat2Z.id, ascii_nat_embedding.
Qed.

Lemma unquote_step_rune s n t :
  rune_len s = S n ->
  unquote_step ((marshal_rune s).1 ++ t) = (take (S n) s, length (marshal_rune s).1)
  /\ (marshal_rune s).2 = S n.
Proof.
  intros H. pose proof (rune_len_encoding _ _ H) as He. destruct s as [|c s]; [done|].
  destruct (Z.ltb_spec (code c) 128) as [Hc|Hc].
  - assert (n = 0) as -> by (inversion He; subst; [done|lia..]).
    destruct (marshal_ascii c s Hc) as [Hk Hn]. split; [|done]. by apply unquote_step_ascii.
  - unfold marshal_rune. rewrite (proj2 (Z.ltb_ge _ _) Hc), H. split; [|done]. cbn [fst snd].
    destruct (rune_at_separator _ _ H) as [H1 H2].
    destruct (Z.eqb_spec (rune_at (c :: s)) 8232) as [E|_]; [rewrite (H1 E); reflexivity|].
    destruct (Z.eqb_spec (rune_at (c :: s)) 8233) as [E|_]; [rewrite (H2 E); reflexivity|].
    pose proof (rune_len_take _ _ t H) as Hl. cbn [take] in *. rewrite <- app_comm_cons in *.
    cbn [unquote_step]. rewrite (proj2 (Ascii.eqb_neq c "\"%char)) by (intros ->; done).
    rewrite (proj2 (Z.ltb_ge _ _) Hc), Hl.
    assert (length (c :: take n s) = S n) as Hlen.
    { pose proof (rune_len_le (c :: s)) as Hle. rewrite H in Hle. simpl in *.
      rewrite length_take. lia. }
    rewrite Hlen. f_equal. change (c :: take n s ++ t) with ((c :: take n s) ++ t).
    rewrite <- Hlen at 1. by rewrite take_app_length.
Qed.

Ltac next_byte :=
  cbn [mbind option_bind scan_step sc_mode sc_stack Nat.leb Nat.sub].

Section scanner.
Context (put : string -> json -> list (string * json) -> list (string * json)).

Lemma scan_all_app s l1 l2 :
  scan_all put s (l1 ++ l2) = s' ← scan_all put s l1; scan_all put s' l2.
Proof.
  revert s. induction l1 as [|c l1 IH]; intros s; [done|]. cbn [scan_all app].
  destruct (scan_step put s c) as [s'|]; [apply IH|done].
Qed.

Lemma scan_ascii c key rv st l : ascii_chunk c l ->
  scan_all put (MkScan (MStr key rv) st) l = Some (MkScan (MStr key (rev l ++ rv)) st).
Proof.
  intros [Hb Hq Hc|e He Hu Hc|h1 h2 H1 H2 Hu Hc];
    cbn [scan_all scan_step sc_mode sc_stack].
  - rewrite (proj2 (Ascii.eqb_neq _ _) Hq), (proj2 (Ascii.eqb_neq _ _) Hb).
    by rewrite (proj2 (Z.ltb_ge _ _)) by lia.
  - change (Ascii.eqb "\"%char dquote) with false. rewrite Ascii.eqb_refl.
    next_byte. by rewrite He.
  - change (Ascii.eqb "\"%char dquote) with false. rewrite Ascii.eqb_refl.
    next_byte.
    change (escapable "u"%char) with false. rewrite Ascii.eqb_refl.
    next_byte.
    change (is_hex "0"%char) with true. next_byte.
    change (is_hex "0"%char) with true. next_byte.
    rewrite H1. next_byte. by rewrite H2.
Qed.

Lemma scan_wide key rv st l :
  Forall wide l -> scan_all put (MkScan (MStr key rv) st) l
                   = Some (MkScan (MStr key (rev l ++ rv)) st).
Proof.
  intros H. revert rv. induction H as [|c l Hc _ IH]; intros rv; [done|].
  cbn [scan_all scan_step sc_mode sc_stack]. unfold wide in Hc.
  rewrite (proj2 (Ascii.eqb_neq c dquote)) by (intros ->; done).
  rewrite (proj2 (Ascii.eqb_neq c "\"%char)) by (intros ->; done).
  rewrite (proj2 (Z.ltb_ge _ _)) by lia. cbn. rewrite IH. simpl. by rewrite <- app_assoc.
Qed.

Lemma scan_rune key rv st s n :
  rune_len s = S n ->
  scan_all put (MkScan (MStr key rv) st) (marshal_rune s).1
  = Some (MkScan (MStr key (rev (marshal_rune s).1 ++ rv)) st).
Proof.
  intros H. pose proof (rune_len_encoding _ _ H) as He. destruct s as [|c s]; [done|].
  destruct (Z.ltb_spec (code c) 128) as [Hc|Hc].
  - by apply (scan_ascii c), marshal_ascii.
  - unfold marshal_rune. rewrite (proj2 (Z.ltb_ge _ _) Hc), H. cbn [fst]. destruct (Z.eqb _ 8232); [reflexivity|].
    destruct (Z.eqb _ 8233); [reflexivity|]. apply scan_wide.
    destruct n as [|n]; [|by apply encoding_wide]. inversion He; lia.
Qed.

Lemma scan_text key st f : forall s rv, valid_utf8 f s = true ->
  scan_all put (MkScan (MStr key rv) st) (marshal_string_with f s)
  = Some (MkScan (MStr key (rev (marshal_string_with f s) ++ rv)) st).
Proof.
  induction f as [|f IH]; intros [|c s] rv; try done. cbn [valid_utf8 marshal_string_with].
  destruct (rune_len (c :: s)) as [|n] eqn:E; [done|]. intros H.
  destruct (unquote_step_rune _ _ [] E) as [_ Hn].
  rewrite scan_all_app, (scan_rune _ _ _ _ _ E). cbn [mbind option_bind].
  rewrite Hn, IH by done. by rewrite rev_app_distr, <- app_assoc.
Qed.

Lemma unquote_text f : forall s g, valid_utf8 f s = true ->
  length (marshal_string_with f s) <= g -> unquote_with g (marshal_string_with f s) = s.
Proof.
  induction f as [|f IH]; intros [|c s] g; try done; try by destruct g.
  cbn [valid_utf8 marshal_string_with].
  destruct (rune_len (c :: s)) as [|n] eqn:E; [done|]. intros H.
  destruct (unquote_step_rune _ _ (marshal_string_with f (drop (S n) (c :: s))) E) as [Hs Hn].
  rewrite Hn. set (m := (marshal_rune (c :: s)).1) in *.
  assert (m <> []) as Hm.
  { intros Hm. destruct (unquote_step_rune _ _ [] E) as [Hs' _]. fold m in Hs'.
    by rewrite Hm in Hs'. }
  clearbody m. destruct m as [|x m]; [done|]. rewrite length_app. cbn [length Nat.add].
  intros Hg. destruct g as [|g]; [lia|]. rewrite <- app_comm_cons in *. cbn [unquote_with].
  rewrite Hs. cbn [fst snd]. rewrite app_comm_cons, drop_app_length, IH by (done || lia).
  by rewrite take_drop.
Qed.

(** ** String literals and members *)

Lemma unquote_marshal s : ValidString (lit s) = true ->
  unquote (marshal_string_with (String.length s) (lit s)) = s.
Proof.
  intros H. unfold unquote, ValidString in *. rewrite length_lit in H.
  rewrite unquote_text by done. apply str_lit.
Qed.

Lemma scan_literal key st s rest : ValidString (lit s) = true ->
  scan_all put (MkScan (MStr key []) st)
    (marshal_string_with (String.length s) (lit s) ++ dquote :: rest)
  = scan_all put (end_string put key (marshal_string_with (String.length s) (lit s)) st) rest.
Proof.
  intros H. rewrite scan_all_app, scan_text;
    [|unfold ValidString in H; by rewrite length_lit in H].
  cbn [mbind option_bind scan_all scan_step sc_mode sc_stack]. rewrite Ascii.eqb_refl.
  cbn [mbind option_bind]. by rewrite app_nil_r, rev_involutive.
Qed.

(** One member [key:text] where a key may start. *)
Definition member (p : string * string) : bytes :=
  marshal_string (fst p) ++ lit ":" ++ marshal_string (snd p).

Definition text_ok (s : string) : Prop := ValidString (lit s) = true.

Lemma scan_member m p fs k st rest :
  m = MKey \/ m = MKeyFirst -> text_ok (fst p) -> text_ok (snd p) ->
  scan_all put (MkScan m (InObj fs k :: st)) (member p ++ rest)
  = scan_all put (MkScan MEnd (InObj (put (fst p) (JStr (snd p)) fs) (fst p) :: st)) rest.
Proof.
  intros Hm Hk Hv. unfold member, marshal_string. rewrite <- !app_assoc.
  assert (forall l, [dquote] ++ l = dquote :: l) as Hq by done. rewrite !Hq. cbn [scan_all].
  assert (scan_step put (MkScan m (InObj fs k :: st)) dquote
          = Some (MkScan (MStr true []) (InObj fs k :: st))) as ->
    by (destruct Hm as [-> | ->]; reflexivity).
  cbn [mbind option_bind]. rewrite scan_literal by done.
  unfold end_string. rewrite unquote_marshal by done.
  change (scan_all put _ (lit ":" ++ dquote :: ?l))
    with (scan_all put (MkScan (MStr false []) (InObj fs (fst p) :: st)) l).
  rewrite scan_literal by done. unfold end_string. by rewrite unquote_marshal.
Qed.
End scanner.

(** [json.Marshal] of a struct whose fields are all written as strings: the
    members in declaration order. *)
Definition marshal_struct (fs : list (string * string)) : bytes :=
  lit "{" ++ join (lit ",") (List.map member fs) ++ lit "}".

Definition as_members (fs : list (string * string)) : list (string * json) :=
  prod_map id JStr <$> fs.

Lemma scan_members fs : forall m p acc k st,
  m = MKey \/ m = MKeyFirst -> Forall (fun p => text_ok (fst p) /\ text_ok (snd p)) (p :: fs) ->
  scan_all append_member (MkScan m (InObj acc k :: st))
    (join (lit ",") (List.map member (p :: fs)) ++ lit "}")
  = Some (deliver append_member (JObj (acc ++ as_members (p :: fs))) st).
Proof.
  induction fs as [|q fs IH]; intros m p acc k st Hm [[Hk Hv] Hfs]%Forall_cons.
  - cbn [List.map join]. rewrite scan_member by done. reflexivity.
  - change (join (lit ",") (List.map member (p :: q :: fs)))
      with (member p ++ lit "," ++ join (lit ",") (List.map member (q :: fs))).
    rewrite <- !app_assoc, scan_member by done.
    change (lit "," ++ ?l) with (","%char :: l). cbn [scan_all].
    change (scan_step append_member ?s ","%char) with (Some (MkScan MKey (sc_stack s))).
    cbn [mbind option_bind sc_stack]. rewrite IH by (by left || done).
    unfold append_member, as_members. rewrite <- app_assoc. reflexivity.
Qed.

Lemma Members_struct p fs :
  Forall (fun p => text_ok (fst p) /\ text_ok (snd p)) (p :: fs) ->
  Members (marshal_struct (p :: fs)) = Some (JObj (as_members (p :: fs))).
Proof.
  intros H. unfold Members, Decode, marshal_struct.
  change (lit "{" ++ ?l) with ("{"%char :: l). cbn [scan_all].
  change (scan_step _ (MkScan MValue []) "{"%char) with (Some (MkScan MKeyFirst [InObj [] ""])).
  cbn [mbind option_bind]. rewrite (scan_members fs MKeyFirst p [] "" [] (or_intror eq_refl) H).
  reflexivity.
Qed.

(** ** White space at the ends *)

(** A multi-byte table of white space has no entry that starts in ASCII. *)
Definition multibyte (tbl : list bytes) : bool :=
  forallb (fun w => match w with c :: _ => Z.leb 128 (code c) | [] => false end) tbl.

Definition graphic (c : ascii) : Prop := (32 < code c < 128)%Z.
Definition starts_graphic (l : bytes) : Prop :=
  match l with c :: _ => graphic c | [] => True end.

Lemma space_prefix_graphic tbl l :
  multibyte tbl = true -> starts_graphic l -> space_prefix tbl l = 0.
Proof.
  intros Ht Hc. destruct l as [|c l]; [done|]. cbn [space_prefix].
  assert (is_ascii_space c = false) as ->.
  { simpl in Hc. unfold is_ascii_space, graphic, code in *.
    repeat (case_match; try done); lia. }
  destruct (List.find _ tbl) as [w|] eqn:E; [|done].
  apply List.find_some in E as [Hin Hp].
  unfold multibyte in Ht. rewrite List.forallb_forall in Ht.
  specialize (Ht w Hin). destruct w as [|d w]; [done|].
  apply andb_true_iff in Hp as [->%Ascii.eqb_eq _]. apply Z.leb_le in Ht.
  destruct Hc. lia.
Qed.

Lemma TrimSpace_b_graphic l :
  starts_graphic l -> starts_graphic (reverse l) -> TrimSpace_b l = l.
Proof.
  intros Hl Hr. unfold TrimSpace_b, TrimLeftSpace.
  rewrite trim_with_fix by (apply space_prefix_graphic; [by vm_compute|done]).
  unfold TrimRightSpace.
  rewrite trim_with_fix by (apply space_prefix_graphic; [by vm_compute|done]).
  apply reverse_involutive.
Qed.

Lemma Forall_graphic_ends l :
  Forall graphic l -> starts_graphic l /\ starts_graphic (reverse l).
Proof.
  intros H. split; [by destruct H|]. apply Forall_reverse in H.
  by destruct H.
Qed.
