(* ===== verification/Base64.v ===== *)
(** * Base64: package encoding/base64, [RawStdEncoding]

    [EncodeToString] writes three bytes as four characters of the standard
    alphabet and a rest of one or two bytes as two or three, without padding;
    [DecodeString] skips line breaks, refuses any other foreign character and
    a rest of a single character, and ignores the unused low bits of the last
    one, as the non-strict Go decoder does. *)

From Stdlib Require Import Ascii String.
From S2P Require Import Prelude GoStrings Json GoJson.

Local Open Scope Z_scope.

Definition alphabet : bytes :=
  lit "ABCDEFGHIJKLMNOPQRSTUVWXYZabcdefghijklmnopqrstuvwxyz0123456789+/".

Definition digit_char (n : Z) : ascii := nth (Z.to_nat n) alphabet "A"%char.
Definition digit_value (c : ascii) : option Z :=
  p ← list_find (fun d => c = d) alphabet; Some (Z.of_nat (fst p)).

Fixpoint EncodeToString (l : bytes) : bytes :=
  match l with
  | [] => []
  | [a] =>
      let v := code a * 16 in
      [digit_char (v / 64); digit_char (v mod 64)]
  | [a; b] =>
      let v := (code a * 256 + code b) * 4 in
      [digit_char (v / 4096); digit_char (v / 64 mod 64); digit_char (v mod 64)]
  | a :: b :: c :: rest =>
      let v := code a * 65536 + code b * 256 + code c in
      digit_char (v / 262144) :: digit_char (v / 4096 mod 64)
      :: digit_char (v / 64 mod 64) :: digit_char (v mod 64) :: EncodeToString rest
  end.

Fixpoint decode_digits (l : list Z) : option bytes :=
  match l with
  | [] => Some []
  | [_] => None
  | [x; y] => Some [byte_of ((x * 64 + y) / 16)]
  | [x; y; z] =>
      let v := (x * 4096 + y * 64 + z) / 4 in
      Some [byte_of (v / 256); byte_of (v mod 256)]
  | x :: y :: z :: w :: rest =>
      let v := x * 262144 + y * 4096 + z * 64 + w in
      out ← decode_digits rest;
      Some (byte_of (v / 65536) :: byte_of (v / 256 mod 256) :: byte_of (v mod 256) :: out)
  end.

Definition line_break (c : ascii) : bool :=
  Ascii.eqb c (chr 10) || Ascii.eqb c (chr 13).

Definition DecodeString (s : bytes) : option bytes :=
  ds ← mapM digit_value (List.filter (fun c => negb (line_break c)) s);
  decode_digits ds.

(** ** The round trip *)

Definition base64_char (c : ascii) : bool := existsb (Ascii.eqb c) alphabet.

Lemma code_range c : 0 <= code c < 256.
Proof. unfold code. pose proof (nat_ascii_bounded c). lia. Qed.

Lemma byte_of_code c : byte_of (code c) = c.
Proof. unfold byte_of, code. by rewrite Nat2Z.id, ascii_nat_embedding. Qed.

Lemma digit_char_ok n : 0 <= n < 64 ->
  digit_value (digit_char n) = Some n /\ base64_char (digit_char n) = true
  /\ line_break (digit_char n) = false.
Proof.
  intros Hn. set (ok n := bool_decide (digit_value (digit_char n) = Some n)
                          && base64_char (digit_char n) && negb (line_break (digit_char n))).
  assert (forallb (fun k => ok (Z.of_nat k)) (seq 0 64) = true) as H by (vm_compute; reflexivity).
  rewrite forallb_forall in H. specialize (H (Z.to_nat n)). rewrite Z2Nat.id in H by lia.
  unfold ok in H. rewrite !andb_true_iff, bool_decide_eq_true, negb_true_iff in H.
  destruct H as [[??]?]; [apply in_seq; lia|done].
Qed.

(** Induction three bytes at a time. *)
Lemma triples_ind (P : bytes -> Prop) :
  P [] -> (forall a, P [a]) -> (forall a b, P [a; b]) ->
  (forall a b c l, P l -> P (a :: b :: c :: l)) -> forall l, P l.
Proof.
  intros H0 H1 H2 H3. fix IH 1. intros [|a [|b [|c l]]]; [done..|]. apply H3, IH.
Qed.

Lemma Encode_digits l : exists ds,
  EncodeToString l = digit_char <$> ds /\ Forall (fun n => 0 <= n < 64) ds
  /\ decode_digits ds = Some l.
Proof.
  induction l as [|a|a b|a b c l IH] using triples_ind.
  - by exists [].
  - pose proof (code_range a). exists [code a * 16 / 64; code a * 16 mod 64].
    split; [done|]. split; [repeat constructor; Z.to_euclidean_division_equations; lia|].
    cbn [decode_digits]. rewrite <- (byte_of_code a) at 3. do 3 f_equal.
    Z.to_euclidean_division_equations; lia.
  - pose proof (code_range a). pose proof (code_range b).
    set (v := (code a * 256 + code b) * 4).
    exists [v / 4096; v / 64 mod 64; v mod 64].
    split; [done|]. split; [subst v; repeat constructor; Z.to_euclidean_division_equations; lia|].
    cbn [decode_digits].
    assert ((v / 4096 * 4096 + v / 64 mod 64 * 64 + v mod 64) / 4 = code a * 256 + code b) as ->
      by (subst v; Z.to_euclidean_division_equations; lia).
    assert ((code a * 256 + code b) / 256 = code a) as ->
      by (Z.to_euclidean_division_equations; lia).
    assert ((code a * 256 + code b) mod 256 = code b) as ->
      by (Z.to_euclidean_division_equations; lia).
    by rewrite !byte_of_code.
  - destruct IH as (ds & Hl & Hds & Hd).
    pose proof (code_range a). pose proof (code_range b). pose proof (code_range c).
    set (v := code a * 65536 + code b * 256 + code c).
    exists (v / 262144 :: v / 4096 mod 64 :: v / 64 mod 64 :: v mod 64 :: ds).
    cbn [EncodeToString decode_digits fmap list_fmap]. fold v. rewrite Hl, Hd.
    split; [done|].
    split; [subst v; repeat constructor; try done; Z.to_euclidean_division_equations; lia|].
    cbn [mbind option_bind].
    assert (v / 262144 * 262144 + v / 4096 mod 64 * 4096 + v / 64 mod 64 * 64 + v mod 64 = v) as ->
      by (subst v; Z.to_euclidean_division_equations; lia).
    assert (v / 65536 = code a) as -> by (subst v; Z.to_euclidean_division_equations; lia).
    assert (v / 256 mod 256 = code b) as -> by (subst v; Z.to_euclidean_division_equations; lia).
    assert (v mod 256 = code c) as -> by (subst v; Z.to_euclidean_division_equations; lia).
    by rewrite !byte_of_code.
Qed.

Lemma Encode_chars l : forallb base64_char (EncodeToString l) = true.
Proof.
  destruct (Encode_digits l) as (ds & -> & Hds & _). apply forallb_Forall, Forall_fmap.
  eapply Forall_impl; [exact Hds|]. intros n Hn. by apply digit_char_ok.
Qed.

Lemma Encode_nil l : EncodeToString l = [] -> l = [].
Proof. by destruct l as [|a [|b [|c l]]]. Qed.

Lemma Decode_Encode l : DecodeString (EncodeToString l) = Some l.
Proof.
  destruct (Encode_digits l) as (ds & -> & Hds & Hd). unfold DecodeString.
  assert (List.filter (fun c => negb (line_break c)) (digit_char <$> ds) = digit_char <$> ds) as ->.
  { clear Hd. induction Hds as [|n ds Hn _ IH]; [done|].
    rewrite fmap_cons. cbn [List.filter].
    destruct (digit_char_ok n Hn) as (_ & _ & ->). cbn [negb]. by rewrite IH. }
  assert (mapM digit_value (digit_char <$> ds) = Some ds) as ->.
  { apply mapM_Some. clear Hd. induction Hds; constructor; [by apply digit_char_ok|done]. }
  exact Hd.
Qed.
