(* ===== verification/Conversation.v ===== *)
(** * Conversation: the history an agent turn is given

    The token estimate of internal/core/types.go, the choice of what to
    compact (runtime/agent/compact.go: [findSplitPoint], [Compact] and the
    text it hands to the summarizer) and the repair of a loaded history
    (runtime/session/compact.go: [trimOrphanedLeading],
    [sanitizeOrphanedToolUse], [truncateOlderToolResults]).

    A message's content is its list of blocks, what [NormalizeContent] makes
    of the stored value.  A tool result's content is text or another value,
    kept as its JSON encoding.  The summarizer is an argument of [Compact]. *)

From Stdlib Require Import Ascii String.
From stdpp Require Import pretty.
From S2P Require Import Prelude GoStrings GoJson.

Local Open Scope Z_scope.

(** ** Messages *)

Inductive ResultContent : Type :=
| RText (s : bytes)
| ROther (encoded : bytes).

Record ContentBlock := MkBlock {
  Type_ : string;
  Text : bytes;
  ID_ : string;
  bName : bytes;
  Input : bytes;
  ThoughtSignature : bytes;
  ToolUseID : string;
  Content : ResultContent;
  IsError : bool;
}.

Record Message := MkMessage { Role : string; Blocks : list ContentBlock }.

Definition is_type (ty : string) (b : ContentBlock) : bool := String.eqb (Type_ b) ty.
Definition hasToolUse (m : Message) : bool := existsb (is_type "tool_use") (Blocks m).
Definition hasToolResult (m : Message) : bool := existsb (is_type "tool_result") (Blocks m).
Definition is_role (r : string) (m : Message) : bool := String.eqb (Role m) r.

(** ** Token estimates *)

Definition ceilDiv (n d : Z) : Z :=
  if Z.leb d 0 then 0 else if Z.leb n 0 then 0 else (n + d - 1) / d.

(** One pass of the rune loop: runes, runes above 127, a Hebrew one seen. *)
Record text_stats := MkStats { runes : Z; nonASCII : Z; hasHebrew : bool }.
Fixpoint count_runes (fuel : nat) (s : bytes) (st : text_stats) : text_stats :=
  match fuel, s with
  | _, [] => st
  | O, _ => st
  | S fuel, _ =>
      let r := rune_at s in
      count_runes fuel (drop (Nat.max 1 (rune_len s)) s)
        (MkStats (runes st + 1) (nonASCII st + if Z.ltb 127 r then 1 else 0)
           (hasHebrew st || (Z.leb 1424 r && Z.leb r 1535)))
  end.

Definition EstimateTextTokens (text : bytes) : Z :=
  match text with
  | [] => 0
  | _ =>
      let st := count_runes (length text) text (MkStats 0 0 false) in
      let estimate := ceilDiv (runes st) 3 in
      let estimate :=
        if hasHebrew st || Z.leb (runes st) (nonASCII st * 3) then
          let estimate := Z.max 0 (Z.max estimate (ceilDiv (Z.of_nat (length text)) 2)) in
          Z.max 0 (Z.max estimate (ceilDiv (runes st * 5) 6))
        else estimate in
      if Z.leb estimate 0 then 1 else estimate
  end.

Definition block_tokens (b : ContentBlock) : Z :=
  if is_type "text" b then EstimateTextTokens (Text b)
  else if is_type "tool_use" b then
    EstimateTextTokens (bName b) + EstimateTextTokens (Input b)
    + EstimateTextTokens (ThoughtSignature b)
  else if is_type "image" b then 1600
  else if is_type "tool_result" b then
    EstimateTextTokens (match Content b with RText s => s | ROther s => s end)
  else 0.

Definition EstimateTokens (blocks : list ContentBlock) : Z :=
  let total := fold_left (fun n b => n + block_tokens b) blocks 0 in
  if Z.eqb total 0 then 1 else total.

Definition estimateMessagesTokens (messages : list Message) : Z :=
  fold_left (fun n m => n + EstimateTokens (Blocks m)) messages 0.

(** ** The split point *)

(** The index, counted from the end, of the first message at which the tail
    reaches [keep] tokens. *)
Fixpoint tail_reaches (keep tokenSum : Z) (newest_first : list Message) : option nat :=
  match newest_first with
  | [] => None
  | m :: rest =>
      let tokenSum := tokenSum + EstimateTokens (Blocks m) in
      if Z.leb keep tokenSum then Some (length rest) else tail_reaches keep tokenSum rest
  end.

Definition at_index (p : Message -> bool) (messages : list Message) (i : nat) : bool :=
  match messages !! i with Some m => p m | None => false end.

(** The adjustment around a tool round. *)
Definition around_tools (messages : list Message) (splitIdx : nat) : nat :=
  if Nat.ltb 0 splitIdx && Nat.ltb splitIdx (length messages) then
    let splitIdx :=
      if at_index hasToolResult messages splitIdx then (splitIdx - 1)%nat else splitIdx in
    if at_index hasToolUse messages splitIdx && Nat.ltb (S splitIdx) (length messages) then
      if at_index hasToolResult messages (S splitIdx) then S (S splitIdx) else S splitIdx
    else splitIdx
  else splitIdx.

Fixpoint next_user (i : nat) (messages : list Message) : nat :=
  match messages with
  | [] => i
  | m :: rest => if is_role "user" m then i else next_user (S i) rest
  end.

Definition findSplitPoint (messages : list Message) (keep : Z) : nat :=
  let splitIdx := default (length messages) (tail_reaches keep 0 (rev messages)) in
  let splitIdx := around_tools messages splitIdx in
  let splitIdx := next_user splitIdx (drop splitIdx messages) in
  if Nat.leb (length messages) splitIdx then 0%nat else splitIdx.

(** ** The text to summarize *)

(** The runes of a text, each as its UTF-8 bytes ([string([]rune)] writes
    U+FFFD for an invalid byte). *)
Fixpoint rune_list (fuel : nat) (s : bytes) : list bytes :=
  match fuel, s with
  | _, [] => []
  | O, _ => []
  | S fuel, _ =>
      match rune_len s with
      | O => rune_error :: rune_list fuel (drop 1 s)
      | n => take n s :: rune_list fuel (drop n s)
      end
  end.

Definition ellipsis : bytes := encode_rune 8230.

Definition toolResultSnippet (b : ContentBlock) (maxLen : nat) : bytes :=
  let s := TrimSpace_b (match Content b with RText s => s | ROther s => s end) in
  let rs := rune_list (length s) s in
  if Nat.ltb maxLen (length rs)
  then List.concat (take maxLen rs) ++ ellipsis else s.

Definition format_block (m : Message) (b : ContentBlock) : bytes :=
  if is_type "text" b then
    if Nat.eqb (length (Text b)) 0 then []
    else lit "[" ++ lit (if is_role "assistant" m then "assistant" else "user") ++ lit "]: "
         ++ Text b ++ [chr 10]
  else if is_type "tool_use" b then lit "[tool_call: " ++ bName b ++ lit "]" ++ [chr 10]
  else if is_type "tool_result" b then
    let result := toolResultSnippet b 200 in
    if Nat.eqb (length result) 0 then []
    else lit "[tool_result " ++ encode_rune 8594 ++ lit " " ++ result ++ lit "]" ++ [chr 10]
  else [].

Definition formatForCompaction (messages : list Message) : bytes :=
  messages ≫= fun m => Blocks m ≫= format_block m.

Record Compactor := MkCompactor { threshold : Z; keepTokens : Z }.

Definition Compact (summarize : bytes -> res bytes bytes) (c : Compactor)
    (messages : list Message) : res bytes (bytes * list Message) :=
  if Z.ltb (estimateMessagesTokens messages) (threshold c) then Ok ([], messages)
  else
    let splitIdx := findSplitPoint messages (keepTokens c) in
    if Nat.leb splitIdx 0 then Ok ([], messages)
    else
      let dialogue := formatForCompaction (take splitIdx messages) in
      if Nat.eqb (length dialogue) 0 then Ok ([], messages)
      else match summarize dialogue with
           | Err e => Err (lit "summarize: " ++ e)
           | Ok summary => Ok (summary, drop splitIdx messages)
           end.

(** ** Repairing a loaded history *)

Definition truncate_block (maxChars : nat) (b : ContentBlock) : ContentBlock :=
  if is_type "tool_result" b then
    match Content b with
    | RText s =>
        if Nat.leb (length s) maxChars then b
        else MkBlock (Type_ b) (Text b) (ID_ b) (bName b) (Input b) (ThoughtSignature b)
               (ToolUseID b)
               (RText (lit "[truncated, " ++ lit (pretty (length s)) ++ lit " chars]"))
               (IsError b)
    | ROther _ => b
    end
  else b.
Definition truncate_message (maxChars : nat) (m : Message) : Message :=
  MkMessage (Role m) (truncate_block maxChars <$> Blocks m).
Definition truncateOlderToolResults (keep maxChars : nat) (msgs : list Message) : list Message :=
  let cutoff := (length msgs - keep)%nat in
  (truncate_message maxChars <$> take cutoff msgs) ++ drop cutoff msgs.

Fixpoint trimOrphanedLeading (msgs : list Message) : list Message :=
  match msgs with
  | [] => []
  | m :: rest =>
      if negb (is_role "user" m) || hasToolResult m then trimOrphanedLeading rest else msgs
  end.

Definition tool_use_ids (blocks : list ContentBlock) : gset string :=
  list_to_set (ID_ <$> List.filter (fun b => is_type "tool_use" b
                                   && negb (String.eqb (ID_ b) "")) blocks).
Definition result_ids (blocks : list ContentBlock) : gset string :=
  list_to_set (ToolUseID <$> List.filter (fun b => is_type "tool_result" b
                                         && negb (String.eqb (ToolUseID b) "")) blocks).
Definition next_blocks (rest : list Message) : list ContentBlock :=
  match rest with m :: _ => Blocks m | [] => [] end.
(** The tool calls of [m] that the next message does not answer. *)
Definition unanswered (m : Message) (rest : list Message) : gset string :=
  tool_use_ids (Blocks m) ∖ result_ids (next_blocks rest).
Definition drop_unanswered (ids : gset string) (blocks : list ContentBlock) :=
  List.filter (fun b => negb (is_type "tool_use" b && bool_decide (ID_ b ∈ ids))) blocks.

Fixpoint sanitizeOrphanedToolUse (msgs : list Message) : list Message :=
  match msgs with
  | [] => []
  | m :: rest =>
      if negb (is_role "assistant" m) || negb (hasToolUse m)
      then m :: sanitizeOrphanedToolUse rest
      else
        let ids := unanswered m rest in
        if bool_decide (ids = ∅) then m :: sanitizeOrphanedToolUse rest
        else match drop_unanswered ids (Blocks m) with
             | [] => sanitizeOrphanedToolUse rest
             | cleaned => MkMessage (Role m) cleaned :: sanitizeOrphanedToolUse rest
             end
  end.

(** The end of [messagesForAPI]. *)
Definition repair (msgs : list Message) : list Message :=
  sanitizeOrphanedToolUse (trimOrphanedLeading (truncateOlderToolResults 10 500 msgs)).

(** * Properties *)

(** ** Compaction *)

Lemma next_user_spec messages : forall i,
  (i <= next_user i messages <= i + length messages)%nat
  /\ ((next_user i messages < i + length messages)%nat ->
      at_index (is_role "user") messages (next_user i messages - i) = true).
Proof.
  induction messages as [|m messages IH]; intros i; cbn [next_user length]; [split; lia|].
  destruct (is_role "user" m) eqn:E.
  - split; [lia|]. intros _. rewrite Nat.sub_diag. exact E.
  - destruct (IH (S i)) as [? H]. split; [lia|]. intros Hlt.
    replace (next_user (S i) messages - i)%nat
      with (S (next_user (S i) messages - S i)) by lia.
    apply H. lia.
Qed.

Lemma at_index_drop p l i j : at_index p (drop i l) j = at_index p l (i + j).
Proof. unfold at_index. by rewrite lookup_drop. Qed.

Lemma findSplitPoint_cases messages keep :
  findSplitPoint messages keep = 0%nat
  \/ (findSplitPoint messages keep < length messages)%nat
     /\ at_index (is_role "user") messages (findSplitPoint messages keep) = true.
Proof.
  unfold findSplitPoint. set (i := around_tools _ _).
  destruct (next_user_spec (drop i messages) i) as [[Hle _] H].
  destruct (Nat.leb_spec (length messages) (next_user i (drop i messages))) as [|Hlt]; [by left|].
  right. split; [done|]. rewrite length_drop, at_index_drop in H.
  replace (i + (next_user i (drop i messages) - i))%nat
    with (next_user i (drop i messages)) in H by lia.
  apply H. lia.
Qed.

(** Compaction never loses a message: the messages it keeps are the end
    of the history, and either they are all of it, with no summary, or the
    history had reached the threshold, what was cut off is not empty and its
    non-empty rendering is exactly what the summarizer was given, the summary
    is its answer, and the kept part begins with a user message. *)
Theorem Compact_loses_nothing summarize c messages summary kept :
  Compact summarize c messages = Ok (summary, kept) ->
  (summary = [] /\ kept = messages)
  \/ exists cut m rest, messages = cut ++ kept /\ kept = m :: rest /\ Role m = "user"%string
     /\ cut <> [] /\ threshold c <= estimateMessagesTokens messages
     /\ formatForCompaction cut <> [] /\ summarize (formatForCompaction cut) = Ok summary.
Proof.
  unfold Compact. destruct (Z.ltb _ _) eqn:Ht; [intros [= <- <-]; by left|].
  pose proof (findSplitPoint_cases messages (keepTokens c)) as Hcases.
  set (k := findSplitPoint messages (keepTokens c)) in *.
  destruct (Nat.leb k 0) eqn:Hk; [intros [= <- <-]; by left|].
  destruct (Nat.eqb _ 0) eqn:Hd; [intros [= <- <-]; by left|].
  destruct (summarize _) as [s|] eqn:Hs; [|done]. intros [= <- <-]. right. bool_to_prop.
  destruct Hcases as [?|[Hlt Hu]]; [lia|].
  unfold at_index in Hu. destruct (messages !! k) as [m|] eqn:Hm; [|done].
  exists (take k messages), m, (drop (S k) messages).
  rewrite take_drop. split_and!; [done|by apply drop_S|by apply String.eqb_eq| |lia| |done].
  - intros E. apply (f_equal length) in E. rewrite length_take in E. simpl in E. lia.
  - intros E. by rewrite E in Hd.
Qed.

(** ** Repair *)

(** Every identified tool call of an assistant message is answered in the
    next message. *)
Fixpoint answered (msgs : list Message) : Prop :=
  match msgs with
  | [] => True
  | m :: rest =>
      (Role m = "assistant"%string -> unanswered m rest = ∅) /\ answered rest
  end.

Lemma elem_tool_use_ids id blocks :
  id ∈ tool_use_ids blocks <->
  exists b, b ∈ blocks /\ is_type "tool_use" b = true /\ ID_ b = id /\ id <> ""%string.
Proof.
  unfold tool_use_ids. rewrite elem_of_list_to_set, list_elem_of_fmap.
  setoid_rewrite list_elem_of_In. setoid_rewrite List.filter_In.
  setoid_rewrite andb_true_iff. setoid_rewrite negb_true_iff. setoid_rewrite String.eqb_neq.
  naive_solver.
Qed.

Lemma elem_result_ids id blocks :
  id ∈ result_ids blocks <->
  exists b, b ∈ blocks /\ is_type "tool_result" b = true /\ ToolUseID b = id /\ id <> ""%string.
Proof.
  unfold result_ids. rewrite elem_of_list_to_set, list_elem_of_fmap.
  setoid_rewrite list_elem_of_In. setoid_rewrite List.filter_In.
  setoid_rewrite andb_true_iff. setoid_rewrite negb_true_iff. setoid_rewrite String.eqb_neq.
  naive_solver.
Qed.

Lemma drop_unanswered_elem ids blocks b :
  b ∈ drop_unanswered ids blocks <->
  b ∈ blocks /\ ~ (is_type "tool_use" b = true /\ ID_ b ∈ ids).
Proof.
  unfold drop_unanswered. rewrite list_elem_of_In, List.filter_In, <- list_elem_of_In.
  rewrite negb_true_iff, andb_false_iff, bool_decide_eq_false.
  destruct (is_type "tool_use" b); intuition congruence.
Qed.

Lemma type_exclusive b : is_type "tool_result" b = true -> is_type "tool_use" b = false.
Proof. unfold is_type. by intros ->%String.eqb_eq. Qed.

(** Dropping calls keeps the answers. *)
Lemma drop_unanswered_results ids blocks :
  result_ids (drop_unanswered ids blocks) = result_ids blocks.
Proof.
  apply set_eq. intros id. rewrite !elem_result_ids. setoid_rewrite drop_unanswered_elem.
  split; [naive_solver|]. intros (b & Hb & Ht & ? & ?). exists b. split_and!; try done.
  intros [Hu _]. apply type_exclusive in Ht. congruence.
Qed.

(** What [m] must find in the next message is still there after the repair of
    the rest. *)
Lemma sanitize_keeps_results msgs :
  result_ids (next_blocks msgs) ⊆ result_ids (next_blocks (sanitizeOrphanedToolUse msgs)).
Proof.
  destruct msgs as [|m rest]; [done|]. cbn [sanitizeOrphanedToolUse next_blocks].
  destruct (_ || _); [done|]. case_bool_decide; [done|].
  destruct (drop_unanswered (unanswered m rest) (Blocks m)) as [|b bs] eqn:E.
  - rewrite <- (drop_unanswered_results (unanswered m rest)), E. apply empty_subseteq.
  - cbn [next_blocks Blocks]. by rewrite <- E, drop_unanswered_results.
Qed.

Lemma unanswered_mono m rest rest' :
  result_ids (next_blocks rest) ⊆ result_ids (next_blocks rest') ->
  unanswered m rest = ∅ -> unanswered m rest' = ∅.
Proof. unfold unanswered. intros H E. apply set_eq. intros id. set_solver. Qed.

Lemma cleaned_answered m rest :
  unanswered (MkMessage (Role m) (drop_unanswered (unanswered m rest) (Blocks m))) rest = ∅.
Proof.
  apply set_eq. intros id. unfold unanswered at 1. cbn [Blocks].
  rewrite elem_of_difference, elem_tool_use_ids. split; [|by intros ?%elem_of_empty].
  intros [(b & Hb & Ht & Hid & Hne) Hn]. apply drop_unanswered_elem in Hb as [Hb Hno].
  exfalso. apply Hno. split; [done|]. subst id. unfold unanswered.
  apply elem_of_difference. split; [|done]. apply elem_tool_use_ids. by exists b.
Qed.

Lemma no_calls_answered m rest : hasToolUse m = false -> unanswered m rest = ∅.
Proof.
  intros H. apply set_eq. intros id. unfold unanswered.
  rewrite elem_of_difference, elem_tool_use_ids. split; [|by intros ?%elem_of_empty].
  intros [(b & Hb & Ht & _) _]. unfold hasToolUse in H. apply existsb_false_Forall in H.
  rewrite Forall_forall in H. rewrite (H b Hb) in Ht. done.
Qed.

Lemma sanitize_answered msgs : answered (sanitizeOrphanedToolUse msgs).
Proof.
  induction msgs as [|m rest IH]; [done|]. cbn [sanitizeOrphanedToolUse].
  destruct (_ || _) eqn:Hskip.
  { split; [|done]. intros Hr. apply orb_true_iff in Hskip as [Hs|Hs].
    - unfold is_role in Hs. rewrite Hr in Hs. done.
    - apply negb_true_iff in Hs. by apply no_calls_answered. }
  case_bool_decide as Hids.
  { split; [|done]. intros _. eapply unanswered_mono; [apply sanitize_keeps_results|done]. }
  destruct (drop_unanswered (unanswered m rest) (Blocks m)) as [|b bs] eqn:E; [done|].
  split; [|done]. intros _. eapply unanswered_mono; [apply sanitize_keeps_results|].
  rewrite <- E. apply cleaned_answered.
Qed.

Lemma trim_start msgs :
  trimOrphanedLeading msgs = []
  \/ exists m rest, trimOrphanedLeading msgs = m :: rest
     /\ Role m = "user"%string /\ hasToolResult m = false.
Proof.
  induction msgs as [|m rest IH]; [by left|]. cbn [trimOrphanedLeading].
  destruct (_ || _) eqn:E; [done|]. right. apply orb_false_iff in E as [Hu Hr].
  apply negb_false_iff, String.eqb_eq in Hu. by exists m, rest.
Qed.

(** The repaired history is one a provider accepts: it is empty or starts
    with a user message that carries no tool result, and every identified tool
    call of an assistant message is answered by the message after it, wherever
    in the conversation a crash left one open. *)
Theorem repair_well_formed msgs :
  answered (repair msgs)
  /\ (repair msgs = [] \/ exists m rest, repair msgs = m :: rest
      /\ Role m = "user"%string /\ hasToolResult m = false).
Proof.
  unfold repair. split; [apply sanitize_answered|].
  destruct (trim_start (truncateOlderToolResults 10 500 msgs)) as [->|(m & rest & -> & Hu & Hr)];
    [by left|right].
  exists m, (sanitizeOrphanedToolUse rest). split_and!; [|done|done].
  cbn [sanitizeOrphanedToolUse]. unfold is_role. by rewrite Hu.
Qed.

(** ** A tool round that the split point tears apart *)

Definition text_block (s : string) : ContentBlock :=
  MkBlock "text" (lit s) "" [] [] [] "" (RText []) false.
Definition call_block (id : string) : ContentBlock :=
  MkBlock "tool_use" [] id (lit "t") (lit "x") [] "" (RText []) false.
Definition result_block (id : string) : ContentBlock :=
  MkBlock "tool_result" [] "" [] [] [] id (RText (lit "y")) false.
Definition two_rounds : list Message :=
  [MkMessage "user" [text_block "q"];
   MkMessage "assistant" [call_block "a"]; MkMessage "user" [result_block "a"];
   MkMessage "assistant" [call_block "b"]; MkMessage "user" [result_block "b"];
   MkMessage "assistant" [text_block "r"]].

(** In a turn of two tool rounds the part kept can begin with the answer to a
    call that was cut off: [findSplitPoint] steps over one round only, then
    stops at the first message of role user, which is a tool result; loading
    the history drops that result, which no summary has seen. *)
Theorem findSplitPoint_tears_round :
  let kept := drop (findSplitPoint two_rounds 5) two_rounds in
  kept = [MkMessage "user" [result_block "b"]; MkMessage "assistant" [text_block "r"]]
  /\ trimOrphanedLeading kept = [].
Proof. vm_compute. split; reflexivity. Qed.

(** ** Witness *)

Lemma Compact_loses_nothing_witness :
  let c := MkCompactor 3 1 in
  let history := [MkMessage "user" [text_block "one"]; MkMessage "assistant" [text_block "two"];
                  MkMessage "user" [text_block "three"]] in
  exists summary kept, Compact (fun d => Ok (lit "S")) c history = Ok (summary, kept)
  /\ ((summary = [] /\ kept = history)
      \/ exists cut m rest, history = cut ++ kept /\ kept = m :: rest /\ Role m = "user"%string
         /\ cut <> [] /\ threshold c <= estimateMessagesTokens history
         /\ formatForCompaction cut <> [] /\ Ok (lit "S") = Ok summary (E := bytes)).
Proof.
  intros c history. exists (lit "S"), [MkMessage "user" [text_block "three"]].
  assert (Compact (fun d => Ok (lit "S")) c history
          = Ok (lit "S", [MkMessage "user" [text_block "three"]])) as H
    by (vm_compute; reflexivity).
  split; [exact H|].
  apply (Compact_loses_nothing (fun d => Ok (lit "S")) c history (lit "S")
           [MkMessage "user" [text_block "three"]] H).
Defined.
