(* ===== verification/Projection.v ===== *)
(** * Projection: the visible text of a stored message

    internal/core/message_projection.go: what of a chat message is shown when
    a transcript is searched.  A projection is derived from the blocks about
    to be written ([ProjectMessageForWrite]) or from a stored payload
    ([ProjectLegacyMessage]); provider artefacts that leaked into the text
    are cut out of it ([stripLeakedAssistantArtifacts]), and so are the
    sentinels that dispatch attachments ([unmarked]). *)

From Stdlib Require Import Ascii String.
From S2P Require Import Prelude GoStrings Json GoJson Conversation.

(** ** Leaked artefacts *)

Definition call_tail (c : ascii) : bool := existsb (Ascii.eqb c) (chr 10 :: lit "|>< ").

Fixpoint skip_while (p : ascii -> bool) (s : bytes) : bytes :=
  match s with
  | c :: s' => if p c then skip_while p s' else s
  | [] => []
  end.

(** One round of the first loop: a [call:...}] and what trails it. *)
Definition cut_call (text : bytes) : option bytes :=
  idx ← Index text (lit "call:");
  e ← Index (drop idx text) (lit "}");
  Some (take idx text ++ skip_while call_tail (drop (idx + e + 1) text)).

Definition tool_open : bytes := lit "<tool_call".
Definition tool_close : bytes := lit "</tool_call>".

(** One round of the second loop: an element, or an opening tag alone. *)
Definition cut_tool_call (text : bytes) : option bytes :=
  start ← Index text tool_open;
  match Index (drop start text) tool_close with
  | Some e => Some (take start text ++ drop (start + e + length tool_close) text)
  | None =>
      e ← Index (drop start text) (lit ">");
      Some (take start text ++ drop (start + e + 1) text)
  end.

(** Each round removes bytes: the length of the text bounds the rounds. *)
Fixpoint repeat_cut (cut : bytes -> option bytes) (fuel : nat) (text : bytes) : bytes :=
  match fuel with
  | 0 => text
  | S fuel => match cut text with
              | Some text' => repeat_cut cut fuel text'
              | None => text
              end
  end.

Definition leaked_tokens : list bytes :=
  [lit "<br>"; lit "<br/>"; lit "<br />"; lit "</html>"; lit "<html>"; lit "</body>";
   lit "<body>"; lit "<channel|>"; lit "</channel>";
   chr 10 :: lit "thought" ++ [chr 10];
   chr 10 :: chr 10 :: lit "thought" ++ [chr 10; chr 10]].

Definition strip_artifacts (text : bytes) : bytes :=
  let text := repeat_cut cut_call (length text) text in
  let text := repeat_cut cut_tool_call (length text) text in
  let text := fold_left (fun t token => remove_all token 0 t) leaked_tokens text in
  TrimPrefix (TrimPrefix text (lit "thought" ++ [chr 10])) (lit "thought").

Definition stripLeakedAssistantArtifacts (text : bytes) : bytes * bool :=
  (strip_artifacts text, negb (bool_decide (strip_artifacts text = text))).

Definition SanitizeLeakedAssistantText (text : bytes) : bytes :=
  TrimSpace_b (stripLeakedAssistantArtifacts text).1.

(** ** Attachment markers

    [attachMarkerRE] of internal/core/attachment.go:
    [(?i)\[attached:\s*([0-9a-f-]{36})\s*\]]. *)

Definition to_lower (c : ascii) : ascii :=
  if in_range 65 90 c then byte_of (code c + 32) else c.
Definition re_space (c : ascii) : bool :=
  match nat_of_ascii c with 9 | 10 | 12 | 13 | 32 => true | _ => false end.
Definition id_char (c : ascii) : bool :=
  in_range 48 57 c || in_range 97 102 (to_lower c) || Ascii.eqb c "-"%char.

(** The length of the marker [s] starts with. *)
Definition attach_marker (s : bytes) : option nat :=
  let opening := lit "[attached:" in
  if HasPrefix (to_lower <$> s) opening then
    let rest := skip_while re_space (drop (length opening) s) in
    if Nat.leb 36 (length rest) && forallb id_char (take 36 rest) then
      match skip_while re_space (drop 36 rest) with
      | c :: tail => if Ascii.eqb c "]"%char then Some (length s - length tail) else None
      | [] => None
      end
    else None
  else None.

Fixpoint MatchString (s : bytes) : bool :=
  match attach_marker s with
  | Some _ => true
  | None => match s with [] => false | _ :: s' => MatchString s' end
  end.

(** [ReplaceAllString(s, "")]: [skip] bytes of a match are to be dropped. *)
Fixpoint remove_markers (skip : nat) (s : bytes) : bytes :=
  match s with
  | [] => []
  | c :: s' =>
      match skip with
      | S k => remove_markers k s'
      | 0 => match attach_marker s with
             | Some n => remove_markers (pred n) s'
             | None => c :: remove_markers 0 s'
             end
      end
  end.

Definition trim_right_line (l : bytes) : bytes :=
  reverse (skip_while (fun c => existsb (Ascii.eqb c) (chr 9 :: chr 13 :: lit " ")) (reverse l)).

(** The lines kept: of a run of empty lines, the first. *)
Fixpoint collapse_lines (blanks : nat) (lines : list bytes) : list bytes :=
  match lines with
  | [] => []
  | line :: rest =>
      match trim_right_line line with
      | [] => if Nat.ltb 1 (S blanks) then collapse_lines (S blanks) rest
              else [] :: collapse_lines (S blanks) rest
      | line => line :: collapse_lines 0 rest
      end
  end.
Definition collapseAssistantVisibleLines (text : bytes) : bytes :=
  TrimSpace_b (Join [chr 10] (collapse_lines 0 (split_at (chr 10) text))).

Definition ProjectAssistantVisibleText (text : bytes) : bytes :=
  let '(cleaned, artifactsRemoved) := stripLeakedAssistantArtifacts text in
  if MatchString cleaned
  then collapseAssistantVisibleLines (remove_markers 0 cleaned)
  else if (artifactsRemoved : bool) then TrimSpace_b cleaned
  else text.

(** ** Projections *)

Inductive MessageProjectionStatus : Type :=
| ProjectionProjected
| ProjectionNonDialogue
| ProjectionUnprojectableLegacy.

Definition CanonicalMessageProjectorVersion : string := "canonical-v1".
Definition LegacyMessageProjectorVersion : string := "legacy-v1".

Record MessageProjection := MkProjection {
  VisibleText : option bytes;
  pr_Status : MessageProjectionStatus;
  pr_Reason : string;
  ProjectorVersion : string;
}.

Definition projectedText (text : bytes) (version : string) : MessageProjection :=
  MkProjection (Some text) ProjectionProjected "" version.
Definition nonDialogueProjection (reason version : string) : MessageProjection :=
  MkProjection None ProjectionNonDialogue reason version.
Definition unprojectableLegacy (reason : string) : MessageProjection :=
  MkProjection None ProjectionUnprojectableLegacy reason LegacyMessageProjectorVersion.

(** The text of a block list, [None] when a block is not plain dialogue. *)
Fixpoint text_parts (allowToolUse : bool) (blocks : list ContentBlock) : option (list bytes) :=
  match blocks with
  | [] => Some []
  | b :: rest =>
      if is_type "text" b then parts ← text_parts allowToolUse rest; Some (Text b :: parts)
      else if is_type "image" b then text_parts allowToolUse rest
      else if is_type "tool_use" b && allowToolUse then text_parts allowToolUse rest
      else None
  end.
Definition textOnlyProjection (blocks : list ContentBlock) (allowToolUse : bool)
    : option bytes :=
  parts ← text_parts allowToolUse blocks; Some (Join [chr 10; chr 10] parts).

Definition isToolTranscript (blocks : list ContentBlock) : bool :=
  existsb (is_type "tool_result") blocks
  || existsb (is_type "tool_use") blocks
     && negb (existsb (is_type "text") blocks) && negb (existsb (is_type "image") blocks).

(** The ASCII characters of [strings.ToLower(text)]: the capital dotted I and
    the Kelvin sign are the only other code points that become ASCII. *)
Definition is_code (n : nat) (c : ascii) : bool := Nat.eqb (nat_of_ascii c) n.
Fixpoint ToLower_ascii (s : bytes) : bytes :=
  match s with
  | [] => []
  | c :: rest =>
      match rest with
      | [] => [to_lower c]
      | d :: rest' =>
          if is_code 196 c && is_code 176 d then "i"%char :: ToLower_ascii rest'
          else match rest' with
               | [] => to_lower c :: ToLower_ascii rest
               | d' :: rest'' =>
                   if is_code 226 c && is_code 132 d && is_code 170 d'
                   then "k"%char :: ToLower_ascii rest'' else to_lower c :: ToLower_ascii rest
               end
      end
  end.

Definition expansion_markers : list bytes :=
  [lit "[reply to:"; lit "[reply-attached:"; lit "[ref:"; lit "[pdf:"; lit "[xlsx:";
   lit "[docx:"; lit "[file:"; lit "[video:"; lit "[attached:"].
Definition containsProviderExpansion (text : bytes) : bool :=
  existsb (fun m => Contains (ToLower_ascii text) m) expansion_markers.

Definition projectLegacyBlocks (blocks : list ContentBlock) : MessageProjection :=
  if Nat.eqb (length blocks) 0 then unprojectableLegacy "empty_content"
  else if isToolTranscript blocks
  then nonDialogueProjection "tool_transcript" LegacyMessageProjectorVersion
  else match textOnlyProjection blocks false with
       | None => unprojectableLegacy "mixed_or_unknown_content"
       | Some text =>
           if containsProviderExpansion text
           then unprojectableLegacy "provider_expanded_text"
           else projectedText text LegacyMessageProjectorVersion
       end.

(** ** Stored payloads *)

(** A [json.RawMessage] field takes any value, null included; its text is
    kept re-encoded. *)
Definition decode_raw (k : string) (j : json) : bytes :=
  match j with
  | JObj fs => fold_left (fun acc p => if same_name k (fst p) then Marshal (snd p) else acc) fs []
  | _ => []
  end.
Definition decode_any (k : string) (j : json) : ResultContent :=
  match j with
  | JObj fs => fold_left (fun acc p => if same_name k (fst p) then
                 match snd p with
                 | JStr s => RText (lit s) | JNull => RText [] | v => ROther (Marshal v) end
                 else acc) fs (RText [])
  | _ => RText []
  end.
Definition as_image_source (j : json) : option unit :=
  if is_object j then
    _ ← decode_string "type" j; _ ← decode_string "media_type" j;
    _ ← decode_string "data" j; Some tt
  else None.
Definition decode_block (j : json) : option ContentBlock :=
  if is_object j || is_null j then
    ty ← decode_string "type" j; txt ← decode_string "text" j; id ← decode_string "id" j;
    name ← decode_string "name" j; sig ← decode_string "thought_signature" j;
    use ← decode_string "tool_use_id" j; err ← decode_bool "is_error" j;
    _ ← decode_field tt as_image_source "source" j;
    Some (MkBlock ty (lit txt) id (lit name) (decode_raw "input" j) (lit sig) use
            (decode_any "content" j) err)
  else None.
Definition decode_blocks (content : bytes) : option (list ContentBlock) :=
  j ← Members content;
  match j with
  | JArr items => mapM decode_block items
  | _ => None
  end.

Definition is_dialogue_role (role : string) : bool :=
  String.eqb role "user" || String.eqb role "assistant".

Definition ProjectLegacyMessage (role : string) (content : bytes) : MessageProjection :=
  if negb (is_dialogue_role (TrimSpace role))
  then nonDialogueProjection "role_not_dialogue" LegacyMessageProjectorVersion
  else
    let content := TrimSpace_b content in
    if Nat.eqb (length content) 0 || bool_decide (content = lit "null")
    then unprojectableLegacy "empty_content"
    else match Members content with
    | Some (JStr text) =>
        if containsProviderExpansion (lit text)
        then unprojectableLegacy "provider_expanded_text"
        else projectedText (lit text) LegacyMessageProjectorVersion
    | _ => match decode_blocks content with
           | None => unprojectableLegacy "malformed_content"
           | Some blocks => projectLegacyBlocks blocks
           end
    end.

(** [marshalled] is [json.Marshal(blocks)], which fails on a tool input that
    is not a JSON text. *)
Definition ProjectMessageForWrite (role : string) (visible : option bytes)
    (blocks : list ContentBlock) (marshalled : option bytes) : MessageProjection :=
  if negb (is_dialogue_role role)
  then nonDialogueProjection "role_not_dialogue" CanonicalMessageProjectorVersion
  else if isToolTranscript blocks
  then nonDialogueProjection "tool_transcript" CanonicalMessageProjectorVersion
  else
    let assistant := String.eqb role "assistant" in
    match visible with
    | Some text =>
        projectedText (if assistant then ProjectAssistantVisibleText text else text)
          CanonicalMessageProjectorVersion
    | None =>
        match (if assistant then textOnlyProjection blocks true else None) with
        | Some text =>
            projectedText (ProjectAssistantVisibleText text) CanonicalMessageProjectorVersion
        | None =>
            match marshalled with
            | None => unprojectableLegacy "marshal_content"
            | Some raw => ProjectLegacyMessage role raw
            end
        end
    end.

(** * Properties *)

(** ** Cutting terminates *)

Lemma skip_while_le p s : length (skip_while p s) <= length s.
Proof. induction s as [|c s IH]; simpl; [done|]. destruct (p c); simpl; lia. Qed.

Lemma cut_call_shorter text text' :
  cut_call text = Some text' -> length text' < length text.
Proof.
  unfold cut_call. intros (idx & Hi & (e & He & [= <-])%bind_Some)%bind_Some.
  apply Index_le in Hi, He. rewrite length_drop in He. simpl in *.
  rewrite length_app, length_take.
  pose proof (skip_while_le call_tail (drop (idx + e + 1) text)) as Hs.
  rewrite length_drop in Hs. lia.
Qed.

Lemma cut_tool_call_shorter text text' :
  cut_tool_call text = Some text' -> length text' < length text.
Proof.
  unfold cut_tool_call. intros (start & Hi & H)%bind_Some.
  apply Index_le in Hi. destruct (Index (drop start text) tool_close) as [e|] eqn:He.
  - injection H as <-. apply Index_le in He. rewrite length_drop in He.
    rewrite length_app, length_take, length_drop. simpl in *. lia.
  - apply bind_Some in H as (e & He' & [= <-]). apply Index_le in He'.
    rewrite length_drop in He'. rewrite length_app, length_take, length_drop. simpl in *. lia.
Qed.

Lemma repeat_cut_done cut text :
  (forall t t', cut t = Some t' -> length t' < length t) ->
  forall fuel, length text <= fuel -> cut (repeat_cut cut fuel text) = None.
Proof.
  intros Hs fuel. revert text. induction fuel as [|fuel IH]; intros text Hf; simpl.
  - destruct (cut text) as [t|] eqn:E; [|done]. apply Hs in E. lia.
  - destruct (cut text) as [t|] eqn:E; [|done]. apply IH. apply Hs in E. lia.
Qed.

Lemma repeat_cut_fix cut fuel text : cut text = None -> repeat_cut cut fuel text = text.
Proof. intros H. destruct fuel; simpl; [done|]. by rewrite H. Qed.

(** The loops of [stripLeakedAssistantArtifacts] end, with no call text or
    tool element left to cut. *)
Theorem strip_loops_terminate (text : bytes) :
  cut_call (repeat_cut cut_call (length text) text) = None
  /\ cut_tool_call (repeat_cut cut_tool_call (length text) text) = None.
Proof.
  split; apply repeat_cut_done; eauto using cut_call_shorter, cut_tool_call_shorter.
Qed.

(** ** Clean text *)

(** A text with no trace of a provider artefact or an attachment marker. *)
Definition clean (text : bytes) : Prop :=
  Forall (fun token => Index text token = None)
    (lit "call:" :: tool_open :: lit "thought" :: leaked_tokens)
  /\ MatchString text = false.

Lemma remove_tokens_clean tokens text :
  Forall (fun token => Index text token = None) tokens ->
  fold_left (fun t token => remove_all token 0 t) tokens text = text.
Proof.
  induction 1 as [|token tokens Ht _ IH]; simpl; [done|].
  by rewrite remove_all_absent.
Qed.

Lemma TrimPrefix_absent s p : HasPrefix s p = false -> TrimPrefix s p = s.
Proof. unfold TrimPrefix. by intros ->. Qed.

Lemma strip_clean text : clean text -> strip_artifacts text = text.
Proof.
  intros [H _]. apply Forall_cons in H as [Hc H]. apply Forall_cons in H as [Ht H].
  apply Forall_cons in H as [Hth H]. unfold strip_artifacts.
  rewrite (repeat_cut_fix cut_call) by (unfold cut_call; by rewrite Hc).
  rewrite (repeat_cut_fix cut_tool_call) by (unfold cut_tool_call; by rewrite Ht).
  rewrite remove_tokens_clean by done.
  apply Index_HasPrefix in Hth. rewrite (TrimPrefix_absent _ (lit "thought" ++ [chr 10])).
  { by apply TrimPrefix_absent. }
  apply not_true_iff_false. intros (t & ->)%HasPrefix_spec.
  rewrite <- app_assoc in Hth. assert (HasPrefix (lit "thought" ++ [chr 10] ++ t) (lit "thought") = true)
    by (apply HasPrefix_spec; eauto). congruence.
Qed.

Lemma clean_text_unchanged text : clean text -> ProjectAssistantVisibleText text = text.
Proof.
  intros H. unfold ProjectAssistantVisibleText, stripLeakedAssistantArtifacts.
  rewrite (strip_clean _ H), bool_decide_eq_true_2 by done. destruct H as [_ Hm].
  by rewrite Hm.
Qed.

(** ** The shape of a projection *)

Definition well_formed (p : MessageProjection) : Prop :=
  match VisibleText p with
  | Some _ => pr_Status p = ProjectionProjected /\ pr_Reason p = ""%string
  | None => pr_Status p <> ProjectionProjected /\ pr_Reason p <> ""%string
  end.

Lemma legacy_well_formed role content : well_formed (ProjectLegacyMessage role content).
Proof.
  unfold ProjectLegacyMessage, projectLegacyBlocks. repeat (case_match; try by split).
Qed.

Lemma text_parts_tool_result allow blocks :
  existsb (is_type "tool_result") blocks = true -> text_parts allow blocks = None.
Proof.
  induction blocks as [|b blocks IH]; simpl; [done|].
  intros [H|H]%orb_true_iff; [|rewrite (IH H); by repeat case_match].
  unfold is_type in *. apply String.eqb_eq in H as ->. by destruct allow.
Qed.

(** ** What the sentinel expression takes out *)

(** A dispatch sentinel, [[attached: <uuid>]] in any case. *)
Definition is_marker (m : bytes) : Prop :=
  exists opening before id after,
    m = opening ++ before ++ id ++ after ++ ["]"%char]
    /\ to_lower <$> opening = lit "[attached:" /\ length id = 36
    /\ Forall (fun c => re_space c = true) before /\ Forall (fun c => id_char c = true) id
    /\ Forall (fun c => re_space c = true) after.
Definition has_marker (s : bytes) : Prop := exists a m b, s = a ++ m ++ b /\ is_marker m.

(** [s'] is [s] without its markers, read from the left. *)
Inductive unmarked : bytes -> bytes -> Prop :=
| unmarked_end : unmarked [] []
| unmarked_marker m s s' : is_marker m -> unmarked s s' -> unmarked (m ++ s) s'
| unmarked_byte c s s' :
    (forall m r, is_marker m -> c :: s <> m ++ r) -> unmarked s s' ->
    unmarked (c :: s) (c :: s').

Lemma skip_while_app p a b :
  Forall (fun c => p c = true) a -> skip_while p (a ++ b) = skip_while p b.
Proof. induction 1 as [|c a Hc _ IH]; simpl; [done|]. by rewrite Hc. Qed.

Lemma skip_while_split p s :
  exists a, s = a ++ skip_while p s /\ Forall (fun c => p c = true) a.
Proof.
  induction s as [|c s (a & Hs & Ha)]; simpl; [by exists []|].
  destruct (p c) eqn:E; [|by exists []]. exists (c :: a). split; [by rewrite Hs at 1|by constructor].
Qed.

Lemma id_char_not_space c : id_char c = true -> re_space c = false.
Proof. intros H. destruct (re_space c) eqn:E; [|done]. revert H E. by destruct c as [[] [] [] [] [] [] [] []]. Qed.

Lemma skip_while_stop p c s : p c = false -> skip_while p (c :: s) = c :: s.
Proof. simpl. by intros ->. Qed.

Lemma attach_marker_complete m r : is_marker m -> attach_marker (m ++ r) = Some (length m).
Proof.
  intros (o & b & id & a & -> & Ho & Hid & Hb & Hi & Ha). unfold attach_marker.
  assert (Hlo : length o = 10) by (rewrite <- (length_fmap to_lower), Ho; done).
  rewrite <- !app_assoc, fmap_app, Ho.
  rewrite (proj2 (HasPrefix_spec _ _)) by eauto.
  change (length (lit "[attached:")) with 10. rewrite drop_app_length' by done.
  rewrite skip_while_app by done.
  destruct id as [|c id]; [done|]. inversion Hi as [|? ? Hc Hi']; subst.
  set (t := a ++ _). assert (Hsk : skip_while re_space ((c :: id) ++ t) = (c :: id) ++ t)
    by (apply (skip_while_stop re_space c (id ++ t)), id_char_not_space, Hc).
  rewrite Hsk. subst t. rewrite take_app_length', drop_app_length' by done.
  replace (36 <=? _) with true by (symmetry; apply Nat.leb_le; rewrite length_app; lia).
  replace (forallb id_char (c :: id)) with true
    by (symmetry; apply forallb_forall; rewrite Forall_forall in Hi; intros x ?; by apply Hi, list_elem_of_In).
  simpl andb. cbv iota. rewrite skip_while_app by done.
  simpl. f_equal. rewrite !length_app. simpl. rewrite !length_app. simpl. lia.
Qed.

Lemma attach_marker_sound s n :
  attach_marker s = Some n -> exists m r, s = m ++ r /\ is_marker m /\ length m = n.
Proof.
  unfold attach_marker. destruct (HasPrefix _ _) eqn:Ho; [|done].
  apply HasPrefix_spec in Ho as (t & Ho).
  assert (Hs : to_lower <$> take 10 s = lit "[attached:")
    by (rewrite fmap_take, Ho; done).
  change (length (lit "[attached:")) with 10.
  destruct (skip_while_split re_space (drop 10 s)) as (b & Hb & Hbs).
  set (rest := skip_while re_space (drop 10 s)) in *. clearbody rest.
  destruct (_ && _) eqn:Hid; [|done]. apply andb_true_iff in Hid as [Hlen Hid].
  apply Nat.leb_le in Hlen.
  destruct (skip_while_split re_space (drop 36 rest)) as (a & Ha & Has).
  destruct (skip_while re_space (drop 36 rest)) as [|c tail]; [done|].
  destruct (Ascii.eqb c "]"%char) eqn:Ec; [|done]. apply Ascii.eqb_eq in Ec as ->.
  intros [= <-].
  assert (E : s = (take 10 s ++ b ++ take 36 rest ++ a ++ ["]"%char]) ++ tail).
  { rewrite <- (take_drop 10 s) at 1. rewrite Hb, <- (take_drop 36 rest) at 1. rewrite Ha.
    by rewrite <- !app_assoc. }
  exists (take 10 s ++ b ++ take 36 rest ++ a ++ ["]"%char]), tail. split; [done|]. split.
  - exists (take 10 s), b, (take 36 rest), a. rewrite length_take. split_and!; try done; [lia|].
    apply Forall_forall. intros x Hx. rewrite forallb_forall in Hid. by apply Hid, list_elem_of_In.
  - apply (f_equal length) in E. rewrite length_app in E. lia.
Qed.

Lemma remove_markers_skip n s : remove_markers n s = remove_markers 0 (drop n s).
Proof. revert n; induction s as [|c s IH]; intros [|n]; simpl; try done. Qed.

Lemma is_marker_nonempty m : is_marker m -> 0 < length m.
Proof.
  intros (o & b & id & a & -> & _). rewrite !length_app. simpl. lia.
Qed.

Lemma remove_markers_unmarked s : unmarked s (remove_markers 0 s).
Proof.
  remember (length s) as n eqn:Hn. revert s Hn.
  induction n as [n IH] using lt_wf_ind. intros s ->.
  destruct s as [|c s]; [constructor|]. cbn [remove_markers].
  destruct (attach_marker (c :: s)) as [k|] eqn:E.
  - apply attach_marker_sound in E as (m & r & E & Hm & <-).
    pose proof (is_marker_nonempty m Hm). rewrite remove_markers_skip.
    destruct m as [|c' m]; [simpl in *; lia|]. injection E as <- ->.
    simpl pred. rewrite drop_app_length. apply (unmarked_marker (c :: m)); [done|].
    apply (IH (length r)); [|done]. simpl. rewrite length_app. lia.
  - constructor; [|apply (IH (length s)); simpl; lia].
    intros m r Hm Hs. rewrite Hs, attach_marker_complete in E by done. done.
Qed.

Lemma MatchString_spec s : MatchString s = true <-> has_marker s.
Proof.
  split.
  - induction s as [|c s IH]; [done|]. cbn [MatchString].
    destruct (attach_marker (c :: s)) as [n|] eqn:E.
    + intros _. apply attach_marker_sound in E as (m & r & -> & Hm & _). by exists [], m, r.
    + intros (a & m & b & -> & Hm)%IH. by exists (c :: a), m, b.
  - intros (a & m & b & -> & Hm). induction a as [|c a IH].
    + pose proof (attach_marker_complete m b Hm) as E. simpl.
      destruct (m ++ b) as [|c t] eqn:Em; [|by cbn [MatchString]; rewrite E].
      apply is_marker_nonempty in Hm. by destruct m.
    + cbn [app MatchString]. by destruct (attach_marker _).
Qed.

(** ** Collapsing lines makes no marker *)

(** [squeezed s s']: [s'] is [s] less some white space that stands before
    white space that stays, or at the end. *)
Inductive squeezed : bytes -> bytes -> Prop :=
| squeezed_end : squeezed [] []
| squeezed_keep c s s' : squeezed s s' -> squeezed (c :: s) (c :: s')
| squeezed_drop c s s' :
    re_space c = true -> (forall d, head s' = Some d -> re_space d = true) ->
    squeezed s s' -> squeezed (c :: s) s'.

Lemma squeezed_keeps p s s' :
  Forall (fun c => re_space c = false) p -> squeezed s (p ++ s') ->
  exists r, s = p ++ r /\ squeezed r s'.
Proof.
  intros Hp. revert s. induction Hp as [|c p Hc _ IH]; intros s Hs; [by exists s|].
  inversion Hs as [|c' t t' Ht|c' t t' Hw Hd Ht]; subst.
  - destruct (IH _ Ht) as (r & -> & Hr). by exists r.
  - specialize (Hd c eq_refl). congruence.
Qed.

Lemma squeezed_spaces p s s' :
  Forall (fun c => re_space c = true) p -> squeezed s (p ++ s') ->
  exists p' r, s = p' ++ r /\ Forall (fun c => re_space c = true) p' /\ squeezed r s'.
Proof.
  intros Hp Hs. remember (p ++ s') as t eqn:Et. revert p Hp Et.
  induction Hs as [|c s t Ht IH|c s t Hw Hd Ht IH]; intros p Hp Et.
  - destruct p; [|done]. simplify_eq/=. exists [], []. repeat constructor.
  - destruct p as [|c' p]; simplify_eq/=.
    + exists [], (c :: s). by repeat constructor.
    + inversion Hp; subst. edestruct IH as (p' & r & -> & Hp' & Hr); [done..|].
      exists (c' :: p'), r. by repeat constructor.
  - destruct (IH _ Hp Et) as (p' & r & -> & Hp' & Hr). exists (c :: p'), r. by repeat constructor.
Qed.

Lemma squeezed_marker m s s' :
  is_marker m -> squeezed s (m ++ s') -> exists m' r, s = m' ++ r /\ is_marker m'.
Proof.
  intros (o & b & id & a & -> & Ho & Hid & Hb & Hi & Ha). rewrite <- !app_assoc.
  intros (r1 & -> & (b' & r2 & -> & Hb' & H2)%squeezed_spaces)%squeezed_keeps; [|done|].
  2:{ apply Forall_forall. intros c Hc%(list_elem_of_fmap_2 to_lower). rewrite Ho in Hc.
      assert (Hl : Forall (fun c => re_space c = false) (lit "[attached:")) by by repeat constructor.
      rewrite Forall_forall in Hl. apply Hl in Hc. revert Hc.
      by destruct c as [[] [] [] [] [] [] [] []]. }
  apply squeezed_keeps in H2 as (r3 & -> & (a' & r4 & -> & Ha' & H4)%squeezed_spaces); 
    [|done|by eapply Forall_impl; [exact Hi|intros ? ?%id_char_not_space]].
  apply (squeezed_keeps ["]"%char]) in H4 as (r & -> & _); [|by repeat constructor].
  exists (o ++ b' ++ id ++ a' ++ ["]"%char]), r. rewrite <- !app_assoc. split; [done|].
  by exists o, b', id, a'.
Qed.

Lemma squeezed_has_marker s s' : squeezed s s' -> has_marker s' -> has_marker s.
Proof.
  intros Hs (a & m & b & -> & Hm). revert s Hs. induction a as [|c a IH]; intros s Hs.
  - apply (squeezed_marker _ _ _ Hm) in Hs as (m' & r & -> & Hm'). by exists [], m', r.
  - simpl in Hs. remember (c :: a ++ m ++ b) as t eqn:Et. induction Hs as [|c' s t Ht _|c' s t _ _ _ IHs]; [done|..].
    + injection Et as -> ->. destruct (IH _ Ht) as (a' & m' & b' & -> & ?). by exists (c :: a'), m', b'.
    + destruct (IHs Et) as (a' & m' & b' & -> & ?). by exists (c' :: a'), m', b'.
Qed.

Lemma is_marker_app_last m b t c :
  is_marker m -> re_space c = true -> m ++ b = t ++ [c] -> exists b', t = m ++ b'.
Proof.
  intros (o & x & id & y & -> & _) Hc. destruct b as [|d b _] using rev_ind; intros E.
  - rewrite app_nil_r, !app_assoc in E. apply app_inj_tail in E as [_ <-]. done.
  - rewrite app_assoc in E. apply app_inj_tail in E as [<- _]. by exists b.
Qed.

Lemma has_marker_snoc s c : re_space c = true -> has_marker (s ++ [c]) -> has_marker s.
Proof.
  intros Hc (a & m & b & E & Hm). revert s E. induction a as [|d a IH]; intros s E.
  - symmetry in E. destruct (is_marker_app_last _ _ _ _ Hm Hc E) as (b' & ->). by exists [], m, b'.
  - destruct s as [|d' s]; injection E as -> E.
    + pose proof (is_marker_nonempty _ Hm). apply (f_equal length) in E.
      rewrite !length_app in E. simpl in E. lia.
    + destruct (IH _ E) as (a' & m' & b' & -> & ?). by exists (d :: a'), m', b'.
Qed.

Lemma has_marker_mid s a b : has_marker s -> has_marker (a ++ s ++ b).
Proof. intros (x & m & y & -> & Hm). exists (a ++ x), m, (y ++ b). by rewrite <- !app_assoc. Qed.

(** The lines of a text, each with its end. *)
Definition terminated (lines : list bytes) : bytes :=
  List.concat ((fun l => l ++ [chr 10]) <$> lines).

Lemma Join_terminated lines :
  lines <> [] -> Join [chr 10] lines ++ [chr 10] = terminated lines.
Proof.
  intros H. destruct lines as [|l lines]; [done|]. clear H. unfold terminated.
  revert l. induction lines as [|l' lines IH]; intros l; simpl; [by rewrite app_nil_r|].
  specialize (IH l'). simpl in IH. rewrite <- IH. by rewrite <- !app_assoc.
Qed.

Lemma split_at_nonempty c s : split_at c s <> [].
Proof. destruct s; simpl; by repeat case_match. Qed.

Lemma Join_cons sep x l : l <> [] -> Join sep (x :: l) = x ++ sep ++ Join sep l.
Proof. by destruct l. Qed.

Lemma Join_split_at c s : Join [c] (split_at c s) = s.
Proof.
  induction s as [|d s IH]; [done|]. pose proof (split_at_nonempty c s) as Hn. cbn [split_at].
  destruct (Ascii.eqb c d) eqn:E.
  - apply Ascii.eqb_eq in E as <-. rewrite Join_cons, IH by done. done.
  - destruct (split_at c s) as [|l ls]; [done|]. rewrite <- IH. by destruct ls.
Qed.

Lemma trim_right_line_split l :
  exists sp, l = trim_right_line l ++ sp /\ Forall (fun c => re_space c = true) sp.
Proof.
  unfold trim_right_line. set (p := fun c : ascii => existsb _ _).
  destruct (skip_while_split p (reverse l)) as (a & Hl & Ha). exists (reverse a). split.
  - rewrite <- reverse_app, <- Hl. by rewrite reverse_involutive.
  - apply Forall_reverse. eapply Forall_impl; [exact Ha|]. intros c.
    by destruct c as [[] [] [] [] [] [] [] []].
Qed.

Lemma squeezed_app a s s' : squeezed s s' -> squeezed (a ++ s) (a ++ s').
Proof. intros H. induction a; simpl; [done|by constructor]. Qed.

Lemma squeezed_trail sp s s' :
  Forall (fun c => re_space c = true) sp -> squeezed s (chr 10 :: s') ->
  squeezed (sp ++ s) (chr 10 :: s').
Proof. induction 1; simpl; [done|]. intros. constructor; [done|by intros ? [= <-]|auto]. Qed.

Lemma terminated_cons l lines : terminated (l :: lines) = l ++ chr 10 :: terminated lines.
Proof. unfold terminated. rewrite fmap_cons. simpl. by rewrite <- app_assoc. Qed.

Lemma collapse_squeezed lines :
  squeezed (terminated lines) (terminated (collapse_lines 0 lines))
  /\ forall n, squeezed (chr 10 :: terminated lines)
                        (chr 10 :: terminated (collapse_lines (S n) lines)).
Proof.
  induction lines as [|l lines [IH0 IHn]]; [split; intros; repeat constructor|].
  destruct (trim_right_line_split l) as (sp & Hl & Hsp). cbn [collapse_lines].
  destruct (trim_right_line l) as [|c l'].
  - simpl in Hl. subst l. simpl. rewrite !terminated_cons. simpl. split.
    + apply squeezed_trail; [done|apply IHn].
    + intros n. constructor; [done|by intros ? [= <-]|]. apply squeezed_trail; [done|apply IHn].
  - rewrite !terminated_cons. split; [|intros n; apply squeezed_keep].
    all: rewrite Hl, <- !app_assoc; apply squeezed_app, squeezed_trail; [done|].
    all: by apply squeezed_keep.
Qed.

Lemma trim_with_drop fuel tbl s : exists n, trim_with fuel tbl s = drop n s.
Proof.
  revert s. induction fuel as [|fuel IH]; intros s; simpl; [by exists 0|].
  destruct (space_prefix tbl s) as [|n]; [by exists 0|].
  destruct (IH (drop (S n) s)) as (k & ->). exists (S n + k). by rewrite drop_drop.
Qed.

Lemma TrimSpace_b_part s : exists a b, s = a ++ TrimSpace_b s ++ b.
Proof.
  unfold TrimSpace_b, TrimLeftSpace, TrimRightSpace.
  destruct (trim_with_drop (length s) wide_spaces s) as (n & ->).
  set (t := drop n s). edestruct (trim_with_drop (length t)) as (k & ->).
  exists (take n s), (reverse (take k (reverse t))).
  rewrite <- reverse_app, take_drop, reverse_involutive. subst t. by rewrite take_drop.
Qed.

Lemma collapse_marker s : has_marker (collapseAssistantVisibleLines s) -> has_marker s.
Proof.
  intros H. unfold collapseAssistantVisibleLines in H. set (c := collapse_lines _ _) in H.
  destruct (TrimSpace_b_part (Join [chr 10] c)) as (a & b & E).
  apply (has_marker_mid _ a b) in H. rewrite <- E in H.
  apply (has_marker_mid _ [] [chr 10]) in H. simpl in H.
  apply (has_marker_snoc _ (chr 10)); [done|].
  rewrite <- (Join_split_at (chr 10) s), Join_terminated by apply split_at_nonempty.
  eapply squeezed_has_marker; [apply collapse_squeezed|].
  rewrite Join_terminated in H; [done|]. subst c.
  destruct (split_at (chr 10) s) eqn:Es; [by apply split_at_nonempty in Es|].
  cbn [collapse_lines]. by case_match.
Qed.

(** ** Leaked calls in otherwise clean text *)

Lemma Index_first before sub r c t :
  sub = c :: t -> c ∉ t -> Index before sub = None ->
  Index (before ++ sub ++ r) sub = Some (length before).
Proof.
  intros -> Hc. induction before as [|d before IH]; intros H.
  - simpl. by rewrite Ascii.eqb_refl, (proj2 (HasPrefix_spec _ _)) by eauto.
  - rewrite Index_None in H.
    change ((d :: before) ++ (c :: t) ++ r) with (d :: (before ++ (c :: t) ++ r)). cbn [Index].
    destruct (HasPrefix (d :: before ++ (c :: t) ++ r) (c :: t)) eqn:E.
    + exfalso. apply HasPrefix_spec in E as (r' & E). specialize (H 0). rewrite drop_0 in H.
      change (d :: before ++ (c :: t) ++ r) with ((d :: before) ++ (c :: t) ++ r) in E.
      apply app_eq_inv in E as [(k & E & _)|(k & E & E')].
      * cut (HasPrefix (d :: before) (c :: t) = true); [congruence|]. rewrite E.
        apply HasPrefix_spec. eauto.
      * destruct k as [|x k].
        { rewrite app_nil_r in E. rewrite <- E in H.
          cut (HasPrefix (c :: t) (c :: t) = true); [congruence|]. apply HasPrefix_spec.
          exists []. by rewrite app_nil_r. }
        injection E' as <- _. injection E as _ ->. apply Hc. set_solver.
    + rewrite IH; [done|]. apply Index_None. intros j. apply (H (S j)).
Qed.

Lemma Index_None_left a b sub : Index (a ++ b) sub = None -> Index a sub = None.
Proof.
  rewrite !Index_None. intros H j. destruct (HasPrefix (drop j a) sub) eqn:E; [|done].
  apply HasPrefix_spec in E as (t & E). specialize (H j). rewrite <- H. symmetry.
  destruct (decide (j <= length a)).
  - rewrite drop_app_le by done. apply HasPrefix_spec. rewrite E. eexists. by rewrite <- app_assoc.
  - rewrite drop_ge in E by lia. destruct sub; [|done]. by destruct (drop j (a ++ b)).
Qed.

Lemma Index_absent (s : bytes) c : c ∉ s -> Index s [c] = None.
Proof.
  intros H. apply Index_None. intros j. destruct (HasPrefix _ _) eqn:E; [|done].
  apply HasPrefix_spec in E as (t & E). exfalso. apply H.
  rewrite <- (take_drop j s), E. set_solver.
Qed.

Lemma strip_cut text kept n :
  repeat_cut cut_tool_call n (repeat_cut cut_call (length text) text) = kept ->
  n = length (repeat_cut cut_call (length text) text) -> clean kept ->
  strip_artifacts text = kept.
Proof.
  intros H -> Hc. unfold strip_artifacts. rewrite H.
  pose proof (strip_clean _ Hc) as Hs. unfold strip_artifacts in Hs.
  destruct Hc as [Hf _]. apply Forall_cons in Hf as [Hcall Hf]. apply Forall_cons in Hf as [Htool _].
  rewrite (repeat_cut_fix cut_call) in Hs by (unfold cut_call; by rewrite Hcall).
  by rewrite (repeat_cut_fix cut_tool_call) in Hs by (unfold cut_tool_call; by rewrite Htool).
Qed.

(** One leaked call in otherwise clean text. *)
Lemma call_cut_out before body trail after :
  clean (before ++ after) -> "}"%char ∉ body -> Forall (fun c => call_tail c = true) trail ->
  (forall c, head after = Some c -> call_tail c = false) ->
  strip_artifacts (before ++ lit "call:" ++ body ++ lit "}" ++ trail ++ after) = before ++ after.
Proof.
  intros Hc Hb Ht Ha. pose proof Hc as [Hf _]. apply Forall_cons in Hf as [Hcall Hf].
  apply Forall_cons in Hf as [Htool _].
  set (text := before ++ _). assert (Hcut : cut_call text = Some (before ++ after)).
  { assert (Hi : Index (lit "call:" ++ body ++ lit "}" ++ trail ++ after) (lit "}")
                 = Some (length (lit "call:" ++ body))).
    { rewrite app_assoc. apply (Index_first _ (lit "}") _ "}"%char []); [done|set_solver|].
      apply Index_absent. intros [Hin|Hin]%elem_of_app; [|done]. revert Hin. by apply (bool_decide_eq_false_1 _). }
    unfold cut_call, text. rewrite (Index_first before (lit "call:") _ "c"%char (lit "all:"));
      [|done|by apply (bool_decide_eq_false_1 _)|by eapply Index_None_left].
    cbn [mbind option_bind]. rewrite drop_app_length, take_app_length, Hi.
    cbn [mbind option_bind]. f_equal. f_equal.
    rewrite <- Nat.add_assoc, <- drop_drop, drop_app_length.
    rewrite (app_assoc (lit "call:")), (app_assoc _ (lit "}")).
    rewrite drop_app_length' by (rewrite !length_app; simpl; lia).
    rewrite skip_while_app by done. destruct after as [|d after]; [done|].
    apply skip_while_stop. by apply Ha. }
  assert (Hr : repeat_cut cut_call (length text) text = before ++ after).
  { destruct (length text) as [|n] eqn:Hn.
    { subst text. rewrite !length_app in Hn. simpl in Hn. lia. }
    cbn [repeat_cut]. rewrite Hcut. apply repeat_cut_fix. unfold cut_call. by rewrite Hcall. }
  eapply strip_cut; [|done|done]. rewrite Hr. apply repeat_cut_fix.
  unfold cut_tool_call. by rewrite Htool.
Qed.

(** One leaked tool element in otherwise clean text. *)
Lemma tool_cut_out before body after :
  let text := before ++ tool_open ++ body ++ tool_close ++ after in
  clean (before ++ after) -> Index (tool_open ++ body) tool_close = None ->
  Index text (lit "call:") = None -> strip_artifacts text = before ++ after.
Proof.
  intros text Hc Hb Hcall. pose proof Hc as [Hf _].
  apply Forall_cons in Hf as [_ Hf]. apply Forall_cons in Hf as [Htool _].
  assert (Hr : repeat_cut cut_call (length text) text = text)
    by (apply repeat_cut_fix; unfold cut_call; by rewrite Hcall).
  eapply strip_cut; [|done|done]. rewrite Hr.
  assert (Hcut : cut_tool_call text = Some (before ++ after)).
  { unfold cut_tool_call, text.
    rewrite (Index_first before tool_open _ "<"%char (lit "tool_call"));
      [|done|by apply (bool_decide_eq_false_1 _)|by eapply Index_None_left].
    cbn [mbind option_bind]. rewrite drop_app_length, take_app_length.
    rewrite (app_assoc tool_open).
    rewrite (Index_first (tool_open ++ body) tool_close _ "<"%char (lit "/tool_call>"));
      [|done|by apply (bool_decide_eq_false_1 _)|done].
    f_equal. f_equal. rewrite <- Nat.add_assoc, <- drop_drop, <- app_assoc, drop_app_length.
    rewrite <- drop_drop, (app_assoc tool_open), drop_app_length, drop_app_length. done. }
  destruct (length text) as [|n] eqn:Hn.
  { subst text. rewrite !length_app in Hn. simpl in Hn. lia. }
  cbn [repeat_cut]. rewrite Hcut. apply repeat_cut_fix. unfold cut_tool_call. by rewrite Htool.
Qed.

(** Text around one leaked tool call. *)
Inductive leaks (before after : bytes) : bytes -> Prop :=
| leaks_call body trail :
    "}"%char ∉ body -> Forall (fun c => call_tail c = true) trail ->
    (forall c, head after = Some c -> call_tail c = false) ->
    leaks before after (before ++ lit "call:" ++ body ++ lit "}" ++ trail ++ after)
| leaks_tool body :
    Index (tool_open ++ body) tool_close = None ->
    Index (before ++ tool_open ++ body ++ tool_close ++ after) (lit "call:") = None ->
    leaks before after (before ++ tool_open ++ body ++ tool_close ++ after).

Lemma leak_cut_out before after text :
  leaks before after text -> clean (before ++ after) ->
  ProjectAssistantVisibleText text = TrimSpace_b (before ++ after).
Proof.
  intros Hl Hc. unfold ProjectAssistantVisibleText, stripLeakedAssistantArtifacts.
  assert (strip_artifacts text = before ++ after /\ before ++ after <> text) as [-> Hd].
  { destruct Hl as [body trail Hb Ht Ha|body Hb Hcall]; (split; [|intros E;
      apply (f_equal length) in E; rewrite !length_app in E; simpl in E; lia]).
    - by apply call_cut_out.
    - by apply tool_cut_out. }
  rewrite bool_decide_eq_false_2 by done. destruct Hc as [_ ->]. done.
Qed.

(** [shown] is the assistant's [text] less its leaked artefacts and its
    markers; a marker can remain in it only where taking one out has joined
    the bytes around it into another. *)
Definition delivered (text shown : bytes) : Prop :=
  exists bare, unmarked (strip_artifacts text) bare
    /\ (has_marker (strip_artifacts text) -> shown = collapseAssistantVisibleLines bare)
    /\ (~ has_marker (strip_artifacts text) ->
        shown = if bool_decide (strip_artifacts text = text) then text
                else TrimSpace_b (strip_artifacts text))
    /\ (has_marker shown -> has_marker bare).

Lemma unmarked_id s : ~ has_marker s -> unmarked s s.
Proof.
  induction s as [|c s IH]; intros H; constructor.
  - intros m r Hm E. apply H. by exists [], m, r.
  - apply IH. intros (a & m & b & -> & Hm). apply H. by exists (c :: a), m, b.
Qed.

Lemma visible_delivered text : delivered text (ProjectAssistantVisibleText text).
Proof.
  unfold delivered, ProjectAssistantVisibleText, stripLeakedAssistantArtifacts.
  set (cleaned := strip_artifacts text). destruct (MatchString cleaned) eqn:Em.
  - pose proof (proj1 (MatchString_spec _) Em) as Hm.
    exists (remove_markers 0 cleaned). split_and!; try done; [apply remove_markers_unmarked|].
    apply collapse_marker.
  - assert (Hm : ~ has_marker cleaned) by (rewrite <- MatchString_spec; congruence).
    exists cleaned. split_and!; [by apply unmarked_id|done|by intros; case_bool_decide|].
    intros Hs. exfalso. apply Hm. case_bool_decide as Hd; simpl in Hs; [by rewrite Hd|].
    destruct (TrimSpace_b_part cleaned) as (a & b & ->). by apply has_marker_mid.
Qed.

(** ** Legacy payloads *)

Lemma is_code_chr n c : is_code n c = true -> c = chr n.
Proof. intros E%Nat.eqb_eq. unfold chr. by rewrite <- E, ascii_nat_embedding. Qed.

Lemma ToLower_other c rest :
  nat_of_ascii c < 128 -> ToLower_ascii (c :: rest) = to_lower c :: ToLower_ascii rest.
Proof.
  intros Hc. destruct rest as [|d rest]; [done|]. cbn [ToLower_ascii].
  replace (is_code 196 c) with false by (symmetry; apply Nat.eqb_neq; lia).
  replace (is_code 226 c) with false by (symmetry; apply Nat.eqb_neq; lia). by destruct rest.
Qed.

Lemma ToLower_step c rest :
  exists x r, ToLower_ascii (c :: rest) = x :: ToLower_ascii r
              /\ (r = rest \/ rest = chr 176 :: r \/ rest = chr 132 :: chr 170 :: r).
Proof.
  destruct rest as [|d rest]; [exists (to_lower c), []; auto|].
  destruct (is_code 196 c && is_code 176 d) eqn:E.
  { exists "i"%char, rest. cbn [ToLower_ascii]. rewrite E. apply andb_true_iff in E as [_ E].
    apply is_code_chr in E as ->. auto. }
  destruct rest as [|d' rest].
  { exists (to_lower c), [d]. cbn [ToLower_ascii]. rewrite E. auto. }
  destruct (is_code 226 c && is_code 132 d && is_code 170 d') eqn:E'.
  - exists "k"%char, rest. cbn [ToLower_ascii]. rewrite E, E'.
    apply andb_true_iff in E' as [[_ Ed]%andb_true_iff Ed'].
    apply is_code_chr in Ed as ->, Ed' as ->. auto.
  - exists (to_lower c), (d :: d' :: rest). split; [|by left].
    change (ToLower_ascii (c :: d :: d' :: rest))
      with (if is_code 196 c && is_code 176 d then "i"%char :: ToLower_ascii (d' :: rest)
            else if is_code 226 c && is_code 132 d && is_code 170 d'
                 then "k"%char :: ToLower_ascii rest
                 else to_lower c :: ToLower_ascii (d :: d' :: rest)).
    by rewrite E, E'.
Qed.

Lemma ToLower_before s c r :
  nat_of_ascii c < 128 -> exists x, ToLower_ascii (s ++ c :: r) = x ++ ToLower_ascii (c :: r).
Proof.
  intros Hc. remember (length s) as n eqn:Hn. revert s Hn.
  induction n as [n IH] using lt_wf_ind. intros [|d s] ->; [by exists []|].
  assert (Hn : forall k, 128 <= nat_of_ascii (chr k) -> c <> chr k) by (intros k ? ->; lia).
  assert (H176 : c <> chr 176) by (apply Hn; vm_compute; lia).
  assert (H132 : c <> chr 132) by (apply Hn; vm_compute; lia).
  assert (H170 : c <> chr 170) by (apply Hn; vm_compute; lia). clear Hn.
  assert (H : exists x t, ToLower_ascii (d :: (s ++ c :: r)) = x :: ToLower_ascii (t ++ c :: r)
                          /\ length t <= length s).
  { destruct (ToLower_step d (s ++ c :: r)) as (x & t & -> & [->|[Et|Et]]); [by exists x, s|..].
    - destruct s as [|e s]; [by injection Et|]. injection Et as _ <-. exists x, s. simpl. auto with lia.
    - destruct s as [|e [|e' s]]; [by injection Et|by injection Et|].
      injection Et as _ _ <-. exists x, s. simpl. auto with lia. }
  destruct H as (x & t & H & Hl). destruct (IH (length t)) with (s := t) as (y & Hy);
    [simpl; lia|done|]. exists (x :: y).
  change ((d :: s) ++ c :: r) with (d :: (s ++ c :: r)). by rewrite H, Hy.
Qed.

Lemma ToLower_plain o r :
  Forall (fun c => nat_of_ascii c < 128) o -> ToLower_ascii (o ++ r) = (to_lower <$> o) ++ ToLower_ascii r.
Proof.
  induction 1 as [|c o Hc _ IH]; [done|]. rewrite <- app_comm_cons, ToLower_other, IH by lia. done.
Qed.

Lemma marker_expansion text : has_marker text -> containsProviderExpansion text = true.
Proof.
  intros (s & m & t & -> & (o & b & id & a & -> & Ho & _)).
  assert (Hp : Forall (fun c => nat_of_ascii c < 128) o).
  { apply Forall_forall. intros c Hc%(list_elem_of_fmap_2 to_lower). rewrite Ho in Hc.
    assert (Hl : Forall (fun c => nat_of_ascii c < 128) (lit "[attached:"))
      by (repeat constructor; vm_compute; lia).
    rewrite Forall_forall in Hl. apply Hl in Hc. revert Hc.
    destruct c as [[] [] [] [] [] [] [] []]; vm_compute; lia. }
  apply existsb_exists. exists (lit "[attached:"). split; [simpl; tauto|].
  rewrite <- !app_assoc. destruct o as [|c o]; [done|].
  rewrite <- app_comm_cons. destruct (ToLower_before s c (o ++ b ++ id ++ a ++ ["]"%char] ++ t)) as (x & ->);
    [by inversion Hp|]. rewrite app_comm_cons, ToLower_plain, Ho by done.
  unfold Contains. destruct (Index _ _) eqn:E; [done|]. exfalso. rewrite Index_None in E.
  specialize (E (length x)). rewrite drop_app_length in E.
  rewrite (proj2 (HasPrefix_spec _ _)) in E; [done|eauto].
Qed.

Lemma legacy_projected role content text :
  VisibleText (ProjectLegacyMessage role content) = Some text ->
  containsProviderExpansion text = false.
Proof.
  unfold ProjectLegacyMessage, projectLegacyBlocks.
  repeat (case_match; simpl; try done; try by intros [= <-]).
Qed.

Lemma legacy_tool_result role content blocks :
  decode_blocks (TrimSpace_b content) = Some blocks ->
  existsb (is_type "tool_result") blocks = true ->
  pr_Status (ProjectLegacyMessage role content) = ProjectionNonDialogue.
Proof.
  intros Hd Hb. unfold ProjectLegacyMessage. destruct (negb _); [done|].
  case_match eqn:E.
  { apply orb_true_iff in E as [E|E]; revert Hd.
    - apply Nat.eqb_eq, nil_length_inv in E as ->. done.
    - apply bool_decide_eq_true in E as ->. done. }
  rewrite Hd. assert (projectLegacyBlocks blocks = nonDialogueProjection "tool_transcript" LegacyMessageProjectorVersion) as Hp.
  { unfold projectLegacyBlocks, isToolTranscript. rewrite Hb. by destruct blocks. }
  unfold decode_blocks in Hd. apply bind_Some in Hd as (j & -> & Hj).
  by destruct j; try done; rewrite Hp.
Qed.


(** A single pass leaves the sentinel that the one inside it held apart. *)
Example nested_marker_remains :
  let id := "0123456789abcdef-0123456789abcdef-abc" in
  let m := String.append "[attached:" (String.append (String.substring 0 36 id) "]") in
  MatchString (ProjectAssistantVisibleText
    (lit (String.append "[attach" (String.append m (String.substring 7 40 m))))) = true.
Proof. reflexivity. Qed.
