(* ===== verification/Task.v ===== *)
(** * Task: the background-task data model

    [AgentTask] is the row type of [agent_tasks] (internal/core/agent.go) and
    [TaskStep] the row type of [agent_task_steps] (internal/core/task_steps.go);
    the lifecycle predicates on a task are those of agent_deadline.go,
    task_research_budget.go, agent_finalize.go and task_rollout.go.

    Times are Unix nanoseconds and durations nanoseconds; [time_zero] is Go's
    zero [time.Time].  A [uuid] is the number its 16 bytes spell. *)

From Stdlib Require Import Ascii String.
From S2P Require Import Prelude GoStrings Json.

Abbreviation uuid := N.
Abbreviation time := Z.
Abbreviation duration := Z.
Definition uuid_Nil : uuid := 0%N.

Local Open Scope Z_scope.
Definition Nanosecond : duration := 1.
Definition Millisecond : duration := 1000000.
Definition Second : duration := 1000000000.
Definition Minute : duration := 60 * Second.
Definition time_zero : time := -62135596800 * Second.
Definition IsZero (t : time) : bool := Z.eqb t time_zero.

(** [d.Milliseconds()] truncates towards zero. *)
Definition Milliseconds (d : duration) : Z := Z.quot d Millisecond.

(** The [status] columns, with the constructors of their CHECK constraints. *)
Inductive TaskStatus : Type :=
| TPending | TRunning | TPaused | TDone | TFailed | TCanceled.
Inductive StepStatus : Type :=
| SPending | SRunning | SDone | SBlocked | SReconciliation.

#[global] Instance TaskStatus_eq_dec : EqDecision TaskStatus.
Proof. solve_decision. Defined.
#[global] Instance StepStatus_eq_dec : EqDecision StepStatus.
Proof. solve_decision. Defined.

Definition tstatus_in (s : TaskStatus) (l : list TaskStatus) : bool :=
  existsb (fun t => bool_decide (s = t)) l.
Definition sstatus_in (s : StepStatus) (l : list StepStatus) : bool :=
  existsb (fun t => bool_decide (s = t)) l.

Definition is_some {A} (o : option A) : bool :=
  match o with Some _ => true | None => false end.
Definition is_none {A} (o : option A) : bool := negb (is_some o).

Record AgentTask := MkAgentTask {
  ExecutorVersion : Z;
  ID : uuid;
  SoulID : uuid;
  UserID : uuid;
  Title : string;
  Description : option string;
  AcceptanceCriteria : option string;
  Strategy : string;
  Handler : string;
  DelegateTo : option string;
  Config : json;
  Plan : json;
  Tools : list string;
  UseAgents : list string;
  Schedule : option string;
  Deadline : option time;
  Cadence : option string;
  Status : TaskStatus;
  Progress : json;
  Result : option string;
  ErrorMessage : option string;
  Iteration : Z;
  MaxIterations : Z;
  LastRunAt : option time;
  CompletedAt : option time;
  CreatedAt : time;
  SessionID : option string;
  RequiredRecheckURLs : list string;
}.
Definition set_Title (v : string) (r : AgentTask) : AgentTask :=
  MkAgentTask (ExecutorVersion r) (ID r) (SoulID r) (UserID r) v
    (Description r) (AcceptanceCriteria r) (Strategy r) (Handler r)
    (DelegateTo r) (Config r) (Plan r) (Tools r) (UseAgents r) (Schedule r)
    (Deadline r) (Cadence r) (Status r) (Progress r) (Result r)
    (ErrorMessage r) (Iteration r) (MaxIterations r) (LastRunAt r)
    (CompletedAt r) (CreatedAt r) (SessionID r) (RequiredRecheckURLs r).
Definition set_AcceptanceCriteria (v : option string) (r : AgentTask) : AgentTask :=
  MkAgentTask (ExecutorVersion r) (ID r) (SoulID r) (UserID r) (Title r)
    (Description r) v (Strategy r) (Handler r) (DelegateTo r) (Config r)
    (Plan r) (Tools r) (UseAgents r) (Schedule r) (Deadline r) (Cadence r)
    (Status r) (Progress r) (Result r) (ErrorMessage r) (Iteration r)
    (MaxIterations r) (LastRunAt r) (CompletedAt r) (CreatedAt r) (SessionID
    r) (RequiredRecheckURLs r).
Definition set_Config (v : json) (r : AgentTask) : AgentTask :=
  MkAgentTask (ExecutorVersion r) (ID r) (SoulID r) (UserID r) (Title r)
    (Description r) (AcceptanceCriteria r) (Strategy r) (Handler r)
    (DelegateTo r) v (Plan r) (Tools r) (UseAgents r) (Schedule r) (Deadline
    r) (Cadence r) (Status r) (Progress r) (Result r) (ErrorMessage r)
    (Iteration r) (MaxIterations r) (LastRunAt r) (CompletedAt r) (CreatedAt
    r) (SessionID r) (RequiredRecheckURLs r).
Definition set_Schedule (v : option string) (r : AgentTask) : AgentTask :=
  MkAgentTask (ExecutorVersion r) (ID r) (SoulID r) (UserID r) (Title r)
    (Description r) (AcceptanceCriteria r) (Strategy r) (Handler r)
    (DelegateTo r) (Config r) (Plan r) (Tools r) (UseAgents r) v (Deadline
    r) (Cadence r) (Status r) (Progress r) (Result r) (ErrorMessage r)
    (Iteration r) (MaxIterations r) (LastRunAt r) (CompletedAt r) (CreatedAt
    r) (SessionID r) (RequiredRecheckURLs r).
Definition set_Deadline (v : option time) (r : AgentTask) : AgentTask :=
  MkAgentTask (ExecutorVersion r) (ID r) (SoulID r) (UserID r) (Title r)
    (Description r) (AcceptanceCriteria r) (Strategy r) (Handler r)
    (DelegateTo r) (Config r) (Plan r) (Tools r) (UseAgents r) (Schedule r)
    v (Cadence r) (Status r) (Progress r) (Result r) (ErrorMessage r)
    (Iteration r) (MaxIterations r) (LastRunAt r) (CompletedAt r) (CreatedAt
    r) (SessionID r) (RequiredRecheckURLs r).
Definition set_Status (v : TaskStatus) (r : AgentTask) : AgentTask :=
  MkAgentTask (ExecutorVersion r) (ID r) (SoulID r) (UserID r) (Title r)
    (Description r) (AcceptanceCriteria r) (Strategy r) (Handler r)
    (DelegateTo r) (Config r) (Plan r) (Tools r) (UseAgents r) (Schedule r)
    (Deadline r) (Cadence r) v (Progress r) (Result r) (ErrorMessage r)
    (Iteration r) (MaxIterations r) (LastRunAt r) (CompletedAt r) (CreatedAt
    r) (SessionID r) (RequiredRecheckURLs r).
Definition set_Progress (v : json) (r : AgentTask) : AgentTask :=
  MkAgentTask (ExecutorVersion r) (ID r) (SoulID r) (UserID r) (Title r)
    (Description r) (AcceptanceCriteria r) (Strategy r) (Handler r)
    (DelegateTo r) (Config r) (Plan r) (Tools r) (UseAgents r) (Schedule r)
    (Deadline r) (Cadence r) (Status r) v (Result r) (ErrorMessage r)
    (Iteration r) (MaxIterations r) (LastRunAt r) (CompletedAt r) (CreatedAt
    r) (SessionID r) (RequiredRecheckURLs r).
Definition set_Result (v : option string) (r : AgentTask) : AgentTask :=
  MkAgentTask (ExecutorVersion r) (ID r) (SoulID r) (UserID r) (Title r)
    (Description r) (AcceptanceCriteria r) (Strategy r) (Handler r)
    (DelegateTo r) (Config r) (Plan r) (Tools r) (UseAgents r) (Schedule r)
    (Deadline r) (Cadence r) (Status r) (Progress r) v (ErrorMessage r)
    (Iteration r) (MaxIterations r) (LastRunAt r) (CompletedAt r) (CreatedAt
    r) (SessionID r) (RequiredRecheckURLs r).
Definition set_ErrorMessage (v : option string) (r : AgentTask) : AgentTask :=
  MkAgentTask (ExecutorVersion r) (ID r) (SoulID r) (UserID r) (Title r)
    (Description r) (AcceptanceCriteria r) (Strategy r) (Handler r)
    (DelegateTo r) (Config r) (Plan r) (Tools r) (UseAgents r) (Schedule r)
    (Deadline r) (Cadence r) (Status r) (Progress r) (Result r) v (Iteration
    r) (MaxIterations r) (LastRunAt r) (CompletedAt r) (CreatedAt r)
    (SessionID r) (RequiredRecheckURLs r).
Definition set_Iteration (v : Z) (r : AgentTask) : AgentTask :=
  MkAgentTask (ExecutorVersion r) (ID r) (SoulID r) (UserID r) (Title r)
    (Description r) (AcceptanceCriteria r) (Strategy r) (Handler r)
    (DelegateTo r) (Config r) (Plan r) (Tools r) (UseAgents r) (Schedule r)
    (Deadline r) (Cadence r) (Status r) (Progress r) (Result r)
    (ErrorMessage r) v (MaxIterations r) (LastRunAt r) (CompletedAt r)
    (CreatedAt r) (SessionID r) (RequiredRecheckURLs r).
Definition set_MaxIterations (v : Z) (r : AgentTask) : AgentTask :=
  MkAgentTask (ExecutorVersion r) (ID r) (SoulID r) (UserID r) (Title r)
    (Description r) (AcceptanceCriteria r) (Strategy r) (Handler r)
    (DelegateTo r) (Config r) (Plan r) (Tools r) (UseAgents r) (Schedule r)
    (Deadline r) (Cadence r) (Status r) (Progress r) (Result r)
    (ErrorMessage r) (Iteration r) v (LastRunAt r) (CompletedAt r)
    (CreatedAt r) (SessionID r) (RequiredRecheckURLs r).
Definition set_LastRunAt (v : option time) (r : AgentTask) : AgentTask :=
  MkAgentTask (ExecutorVersion r) (ID r) (SoulID r) (UserID r) (Title r)
    (Description r) (AcceptanceCriteria r) (Strategy r) (Handler r)
    (DelegateTo r) (Config r) (Plan r) (Tools r) (UseAgents r) (Schedule r)
    (Deadline r) (Cadence r) (Status r) (Progress r) (Result r)
    (ErrorMessage r) (Iteration r) (MaxIterations r) v (CompletedAt r)
    (CreatedAt r) (SessionID r) (RequiredRecheckURLs r).
Definition set_CompletedAt (v : option time) (r : AgentTask) : AgentTask :=
  MkAgentTask (ExecutorVersion r) (ID r) (SoulID r) (UserID r) (Title r)
    (Description r) (AcceptanceCriteria r) (Strategy r) (Handler r)
    (DelegateTo r) (Config r) (Plan r) (Tools r) (UseAgents r) (Schedule r)
    (Deadline r) (Cadence r) (Status r) (Progress r) (Result r)
    (ErrorMessage r) (Iteration r) (MaxIterations r) (LastRunAt r) v
    (CreatedAt r) (SessionID r) (RequiredRecheckURLs r).
Definition set_RequiredRecheckURLs (v : list string) (r : AgentTask) : AgentTask :=
  MkAgentTask (ExecutorVersion r) (ID r) (SoulID r) (UserID r) (Title r)
    (Description r) (AcceptanceCriteria r) (Strategy r) (Handler r)
    (DelegateTo r) (Config r) (Plan r) (Tools r) (UseAgents r) (Schedule r)
    (Deadline r) (Cadence r) (Status r) (Progress r) (Result r)
    (ErrorMessage r) (Iteration r) (MaxIterations r) (LastRunAt r)
    (CompletedAt r) (CreatedAt r) (SessionID r) v.

Record TaskStep := MkTaskStep {
  s_TaskID : uuid;
  s_ID : string;
  s_Goal : string;
  s_Acceptance : string;
  s_Kind : string;
  s_Dependencies : list string;
  s_Tools : list string;
  s_Status : StepStatus;
  s_Result : string;
  s_Checkpoint : json;
  s_Attempts : Z;
  s_MaxAttempts : Z;
  s_NextAttemptAt : time;
  s_LastError : string;
  s_RunID : option uuid;
  s_LeaseUntil : option time;
  s_HeartbeatAt : option time;
  s_StartedAt : option time;
  s_CompletedAt : option time;
  s_ProgressAt : option time;
  s_EstimatedMS : option Z;
}.
Definition set_s_MaxAttempts (v : Z) (r : TaskStep) : TaskStep :=
  MkTaskStep (s_TaskID r) (s_ID r) (s_Goal r) (s_Acceptance r) (s_Kind r)
    (s_Dependencies r) (s_Tools r) (s_Status r) (s_Result r) (s_Checkpoint r)
    (s_Attempts r) v (s_NextAttemptAt r) (s_LastError r) (s_RunID r)
    (s_LeaseUntil r) (s_HeartbeatAt r) (s_StartedAt r) (s_CompletedAt r)
    (s_ProgressAt r) (s_EstimatedMS r).
Definition set_s_Status (v : StepStatus) (r : TaskStep) : TaskStep :=
  MkTaskStep (s_TaskID r) (s_ID r) (s_Goal r) (s_Acceptance r) (s_Kind r)
    (s_Dependencies r) (s_Tools r) v (s_Result r) (s_Checkpoint r)
    (s_Attempts r) (s_MaxAttempts r) (s_NextAttemptAt r) (s_LastError r)
    (s_RunID r) (s_LeaseUntil r) (s_HeartbeatAt r) (s_StartedAt r)
    (s_CompletedAt r) (s_ProgressAt r) (s_EstimatedMS r).
Definition set_s_Result (v : string) (r : TaskStep) : TaskStep :=
  MkTaskStep (s_TaskID r) (s_ID r) (s_Goal r) (s_Acceptance r) (s_Kind r)
    (s_Dependencies r) (s_Tools r) (s_Status r) v (s_Checkpoint r)
    (s_Attempts r) (s_MaxAttempts r) (s_NextAttemptAt r) (s_LastError r)
    (s_RunID r) (s_LeaseUntil r) (s_HeartbeatAt r) (s_StartedAt r)
    (s_CompletedAt r) (s_ProgressAt r) (s_EstimatedMS r).
Definition set_s_Checkpoint (v : json) (r : TaskStep) : TaskStep :=
  MkTaskStep (s_TaskID r) (s_ID r) (s_Goal r) (s_Acceptance r) (s_Kind r)
    (s_Dependencies r) (s_Tools r) (s_Status r) (s_Result r) v (s_Attempts r)
    (s_MaxAttempts r) (s_NextAttemptAt r) (s_LastError r) (s_RunID r)
    (s_LeaseUntil r) (s_HeartbeatAt r) (s_StartedAt r) (s_CompletedAt r)
    (s_ProgressAt r) (s_EstimatedMS r).
Definition set_s_Attempts (v : Z) (r : TaskStep) : TaskStep :=
  MkTaskStep (s_TaskID r) (s_ID r) (s_Goal r) (s_Acceptance r) (s_Kind r)
    (s_Dependencies r) (s_Tools r) (s_Status r) (s_Result r) (s_Checkpoint r)
    v (s_MaxAttempts r) (s_NextAttemptAt r) (s_LastError r) (s_RunID r)
    (s_LeaseUntil r) (s_HeartbeatAt r) (s_StartedAt r) (s_CompletedAt r)
    (s_ProgressAt r) (s_EstimatedMS r).
Definition set_s_NextAttemptAt (v : time) (r : TaskStep) : TaskStep :=
  MkTaskStep (s_TaskID r) (s_ID r) (s_Goal r) (s_Acceptance r) (s_Kind r)
    (s_Dependencies r) (s_Tools r) (s_Status r) (s_Result r) (s_Checkpoint r)
    (s_Attempts r) (s_MaxAttempts r) v (s_LastError r) (s_RunID r)
    (s_LeaseUntil r) (s_HeartbeatAt r) (s_StartedAt r) (s_CompletedAt r)
    (s_ProgressAt r) (s_EstimatedMS r).
Definition set_s_LastError (v : string) (r : TaskStep) : TaskStep :=
  MkTaskStep (s_TaskID r) (s_ID r) (s_Goal r) (s_Acceptance r) (s_Kind r)
    (s_Dependencies r) (s_Tools r) (s_Status r) (s_Result r) (s_Checkpoint r)
    (s_Attempts r) (s_MaxAttempts r) (s_NextAttemptAt r) v (s_RunID r)
    (s_LeaseUntil r) (s_HeartbeatAt r) (s_StartedAt r) (s_CompletedAt r)
    (s_ProgressAt r) (s_EstimatedMS r).
Definition set_s_RunID (v : option uuid) (r : TaskStep) : TaskStep :=
  MkTaskStep (s_TaskID r) (s_ID r) (s_Goal r) (s_Acceptance r) (s_Kind r)
    (s_Dependencies r) (s_Tools r) (s_Status r) (s_Result r) (s_Checkpoint r)
    (s_Attempts r) (s_MaxAttempts r) (s_NextAttemptAt r) (s_LastError r) v
    (s_LeaseUntil r) (s_HeartbeatAt r) (s_StartedAt r) (s_CompletedAt r)
    (s_ProgressAt r) (s_EstimatedMS r).
Definition set_s_LeaseUntil (v : option time) (r : TaskStep) : TaskStep :=
  MkTaskStep (s_TaskID r) (s_ID r) (s_Goal r) (s_Acceptance r) (s_Kind r)
    (s_Dependencies r) (s_Tools r) (s_Status r) (s_Result r) (s_Checkpoint r)
    (s_Attempts r) (s_MaxAttempts r) (s_NextAttemptAt r) (s_LastError r)
    (s_RunID r) v (s_HeartbeatAt r) (s_StartedAt r) (s_CompletedAt r)
    (s_ProgressAt r) (s_EstimatedMS r).
Definition set_s_HeartbeatAt (v : option time) (r : TaskStep) : TaskStep :=
  MkTaskStep (s_TaskID r) (s_ID r) (s_Goal r) (s_Acceptance r) (s_Kind r)
    (s_Dependencies r) (s_Tools r) (s_Status r) (s_Result r) (s_Checkpoint r)
    (s_Attempts r) (s_MaxAttempts r) (s_NextAttemptAt r) (s_LastError r)
    (s_RunID r) (s_LeaseUntil r) v (s_StartedAt r) (s_CompletedAt r)
    (s_ProgressAt r) (s_EstimatedMS r).
Definition set_s_StartedAt (v : option time) (r : TaskStep) : TaskStep :=
  MkTaskStep (s_TaskID r) (s_ID r) (s_Goal r) (s_Acceptance r) (s_Kind r)
    (s_Dependencies r) (s_Tools r) (s_Status r) (s_Result r) (s_Checkpoint r)
    (s_Attempts r) (s_MaxAttempts r) (s_NextAttemptAt r) (s_LastError r)
    (s_RunID r) (s_LeaseUntil r) (s_HeartbeatAt r) v (s_CompletedAt r)
    (s_ProgressAt r) (s_EstimatedMS r).
Definition set_s_CompletedAt (v : option time) (r : TaskStep) : TaskStep :=
  MkTaskStep (s_TaskID r) (s_ID r) (s_Goal r) (s_Acceptance r) (s_Kind r)
    (s_Dependencies r) (s_Tools r) (s_Status r) (s_Result r) (s_Checkpoint r)
    (s_Attempts r) (s_MaxAttempts r) (s_NextAttemptAt r) (s_LastError r)
    (s_RunID r) (s_LeaseUntil r) (s_HeartbeatAt r) (s_StartedAt r) v
    (s_ProgressAt r) (s_EstimatedMS r).
Definition set_s_ProgressAt (v : option time) (r : TaskStep) : TaskStep :=
  MkTaskStep (s_TaskID r) (s_ID r) (s_Goal r) (s_Acceptance r) (s_Kind r)
    (s_Dependencies r) (s_Tools r) (s_Status r) (s_Result r) (s_Checkpoint r)
    (s_Attempts r) (s_MaxAttempts r) (s_NextAttemptAt r) (s_LastError r)
    (s_RunID r) (s_LeaseUntil r) (s_HeartbeatAt r) (s_StartedAt r)
    (s_CompletedAt r) v (s_EstimatedMS r).
Definition StrategyRecurring : string := "recurring".
Definition StrategyDirect : string := "direct".

(** ** Lifecycle predicates *)

Definition DefaultTaskWallTimeout : duration := 30 * Minute.

Definition TaskRunsToCompletion (t : AgentTask) : bool :=
  Z.eqb (ExecutorVersion t) 2 && is_none (Schedule t) && is_none (Cadence t)
  && negb (String.eqb (Strategy t) StrategyRecurring).

Definition TaskStopDeadline (t : AgentTask) : option time :=
  if TaskRunsToCompletion t then None else Deadline t.

(** [scheduled] is the decoded [start_at] of the task's config: [None] when
    the key is absent or is not an RFC 3339 time. *)
Definition TaskWallStart (scheduled : option time) (t : AgentTask) (now : time)
    : time :=
  let start := if IsZero (CreatedAt t) then now else CreatedAt t in
  match scheduled with
  | Some s => if Z.ltb start s then s else start
  | None => start
  end.

Definition TaskWallDeadline (scheduled : option time) (t : AgentTask)
    (now : time) (limit : duration) : option time :=
  if TaskRunsToCompletion t then None
  else if is_some (Schedule t) || is_some (Cadence t)
          || String.eqb (Strategy t) StrategyRecurring
  then Deadline t
  else
    let limit := if Z.leb limit 0 then DefaultTaskWallTimeout else limit in
    let deadline := TaskWallStart scheduled t now + limit in
    match Deadline t with
    | Some d => if Z.ltb d deadline then Some d else Some deadline
    | None => Some deadline
    end.

Definition TaskResearchDeadline (t : AgentTask) (reserve : duration)
    : option time :=
  match TaskStopDeadline t with
  | None => None
  | Some deadline =>
      let reserve := if Z.leb reserve 0 then 3 * Minute else reserve in
      let reserve :=
        if negb (IsZero (CreatedAt t)) then
          let total := deadline - CreatedAt t in
          if Z.ltb 0 total && Z.ltb (Z.quot total 3) reserve
          then Z.quot total 3 else reserve
        else reserve in
      Some (deadline - reserve)
  end.

Definition TaskStepHasCandidate (s : TaskStep) : bool :=
  if negb (String.eqb (s_Kind s) "read") then false
  else if is_object (s_Checkpoint s) || is_null (s_Checkpoint s) then
    match decode_bool "candidate_ready" (s_Checkpoint s),
          decode_string "output" (s_Checkpoint s) with
    | Some ready, Some output => ready && negb (blank output)
    | _, _ => false
    end
  else false.

Definition TaskTerminalStatus (t : AgentTask) (outcome : string) : TaskStatus :=
  if String.eqb outcome "completed"
     || (String.eqb outcome "partial" && TaskRunsToCompletion t)
  then TDone
  else if String.eqb outcome "cancelled" then TCanceled
  else TFailed.

Definition task_terminal (s : TaskStatus) : bool :=
  tstatus_in s [TDone; TFailed; TCanceled].
Definition task_live (s : TaskStatus) : bool :=
  tstatus_in s [TPending; TRunning; TPaused].

(** Creation-time choice of the executor. *)
Record BackgroundTaskConfig := {
  ExecutorV2 : bool;
  CanaryUserIDs : list string;
}.

Definition graphTaskEligible (t : AgentTask) : bool :=
  String.eqb (Strategy t) StrategyDirect
  && (String.eqb (Handler t) "" || String.eqb (Handler t) "background")
  && is_none (Schedule t) && is_none (Cadence t) && is_none (DelegateTo t)
  && bool_decide (UseAgents t = []).

(** [uuid_String] is the third-party uuid package's text form. *)
Definition chooseExecutorVersion (uuid_String : uuid -> string)
    (c : BackgroundTaskConfig) (t : AgentTask) : Z :=
  if negb (ExecutorV2 c) || negb (graphTaskEligible t)
     || N.eqb (UserID t) uuid_Nil
  then 1
  else match CanaryUserIDs c with
       | [] => 2
       | ids => if existsb (fun id => String.eqb id (uuid_String (UserID t))) ids
                then 2 else 1
       end.

(** ** Lemmas *)

Lemma task_terminal_live s : task_live s = negb (task_terminal s).
Proof. by destruct s. Qed.

Lemma TaskTerminalStatus_terminal t o : task_terminal (TaskTerminalStatus t o) = true.
Proof.
  unfold TaskTerminalStatus. by repeat case_match.
Qed.
