(* ===== verification/TaskPlan.v ===== *)
(** * TaskPlan: validation of a task graph

    [ValidateTaskSteps] of internal/core/task_steps.go (the guards on each
    step and the depth-first search for dependency cycles) and
    [parseGraphPlan] of runtime/handler/graph_plan.go, from the decoded plan
    on: tool permissions, the single finalizer and its ancestor search.

    The Go maps [visited], [visiting], [seen] and [ancestors] are sets of
    keys.  Go ranges over [byID] in an unspecified order, which is an
    argument here.  The recursive closures carry fuel; [walk_fuel_enough] and
    [visit_fuel_enough] show that the number of steps is enough of it. *)

From Stdlib Require Import Ascii String.
From S2P Require Import Prelude GoStrings Json Task.

Local Open Scope blueship_scope.

Inductive PlanError : Type :=
| EPlanSize
| EStepFields
| EDuplicateStep (id : string)
| EStepKind (kind : string)
| EAttemptBudget
| ETimeEstimate
| ECycle (id : string)
| EUnknownDependency (id : string)
| EDuplicateDependency (id : string)
| EPlanTooLong
| EUnknownTool (name : string)
| EEffectfulRead (id name : string)
| EFinalizeResearch
| EMultipleFinalizers
| ENoFinalizer
| EDisconnected
| EOutOfFuel.

(** ** The guards of the first loop *)

Definition step_guard (s : TaskStep) : res PlanError unit :=
  check! negb (String.eqb (s_ID s) "" || Nat.ltb 80 (String.length (s_ID s))
               || blank (s_Goal s) || blank (s_Acceptance s))
    else EStepFields in Ok tt.

Definition kind_ok (k : string) : bool :=
  String.eqb k "read" || String.eqb k "action" || String.eqb k "finalize".

Definition step_limits (s : TaskStep) : res PlanError unit :=
  check! kind_ok (s_Kind s) else EStepKind (s_Kind s) in
  check! Z.leb 0 (s_MaxAttempts s) && Z.leb (s_MaxAttempts s) 10
    else EAttemptBudget in
  check! match s_EstimatedMS s with Some n => Z.ltb 0 n | None => true end
    else ETimeEstimate in Ok tt.

Fixpoint collect_steps (byID : gmap string TaskStep) (steps : list TaskStep)
    : res PlanError (gmap string TaskStep) :=
  match steps with
  | [] => Ok byID
  | s :: rest =>
      _ ← step_guard s;
      match byID !! s_ID s with
      | Some _ => Err (EDuplicateStep (s_ID s))
      | None => _ ← step_limits s; collect_steps (<[s_ID s := s]> byID) rest
      end
  end.

(** ** The cycle search *)

Record marks := MkMarks { visiting : gset string; visited : gset string }.

Section walk_deps.
Variable walk : string -> marks -> res PlanError marks.

Fixpoint walk_deps (seen : gset string) (deps : list string) (m : marks)
    : res PlanError marks :=
  match deps with
  | [] => Ok m
  | dep :: rest =>
      if bool_decide (dep ∈ seen) then Err (EDuplicateDependency dep)
      else m' ← walk dep m; walk_deps ({[dep]} ∪ seen) rest m'
  end.
End walk_deps.

Fixpoint walk (byID : gmap string TaskStep) (fuel : nat) (id : string)
    (m : marks) : res PlanError marks :=
  match fuel with
  | 0 => Err EOutOfFuel
  | S fuel =>
      if bool_decide (id ∈ visiting m) then Err (ECycle id)
      else if bool_decide (id ∈ visited m) then Ok m
      else match byID !! id with
           | None => Err (EUnknownDependency id)
           | Some s =>
               m' ← walk_deps (walk byID fuel) ∅ (s_Dependencies s)
                      (MkMarks ({[id]} ∪ visiting m) (visited m));
               Ok (MkMarks (visiting m' ∖ {[id]}) ({[id]} ∪ visited m'))
           end
  end.

Fixpoint walk_all (byID : gmap string TaskStep) (fuel : nat)
    (ids : list string) (m : marks) : res PlanError marks :=
  match ids with
  | [] => Ok m
  | id :: rest => m' ← walk byID fuel id m; walk_all byID fuel rest m'
  end.

Definition walk_fuel (byID : gmap string TaskStep) : nat := S (size byID).

(** [order byID] is the order in which Go ranges over the map. *)
Definition ValidateTaskSteps (order : gmap string TaskStep -> list string)
    (steps : list TaskStep) : res PlanError unit :=
  check! negb (Nat.eqb (length steps) 0 || Nat.ltb 64 (length steps))
    else EPlanSize in
  byID ← collect_steps ∅ steps;
  _ ← walk_all byID (walk_fuel byID) (order byID) (MkMarks ∅ ∅);
  Ok tt.

(** ** The planner's output *)

Record PlannedStep := {
  p_ID : string;
  p_Goal : string;
  p_Acceptance : string;
  p_Kind : string;
  p_Dependencies : list string;
  p_Tools : list string;
}.

(** What the planner asks of the task's tool registry: the names it defines
    and which of them only read. *)
Record ToolCatalog := {
  known_tools : list string;
  IsReadOnly : string -> bool;
}.

Definition mem (x : string) (l : list string) : bool :=
  existsb (String.eqb x) l.

Definition add_fetch (reg : ToolCatalog) (s : PlannedStep) : list string :=
  if String.eqb (p_Kind s) "read" && mem "browser_search" (p_Tools s)
     && negb (mem "browser_fetch" (p_Tools s))
     && mem "browser_fetch" (known_tools reg) && IsReadOnly reg "browser_fetch"
  then p_Tools s ++ ["browser_fetch"%string]
  else p_Tools s.

Fixpoint tools_guard (reg : ToolCatalog) (id kind : string)
    (tools : list string) : res PlanError unit :=
  match tools with
  | [] => Ok tt
  | name :: rest =>
      check! mem name (known_tools reg) else EUnknownTool name in
      check! negb (String.eqb kind "read" && negb (IsReadOnly reg name))
        else EEffectfulRead id name in
      check! negb (String.eqb kind "finalize" && IsReadOnly reg name)
        else EFinalizeResearch in
      tools_guard reg id kind rest
  end.

Definition plan_step (s : PlannedStep) (tools : list string) : TaskStep :=
  MkTaskStep uuid_Nil (p_ID s) (p_Goal s) (p_Acceptance s) (p_Kind s)
    (p_Dependencies s) tools SPending "" JNull 0 3 time_zero "" None None None
    None None None None.

Fixpoint build_steps (reg : ToolCatalog) (final : string)
    (planned : list PlannedStep) : res PlanError (list TaskStep * string) :=
  match planned with
  | [] => Ok ([], final)
  | s :: rest =>
      let tools := add_fetch reg s in
      _ ← tools_guard reg (p_ID s) (p_Kind s) tools;
      if String.eqb (p_Kind s) "finalize" then
        check! String.eqb final "" else EMultipleFinalizers in
        r ← build_steps reg (p_ID s) rest;
        Ok (plan_step s tools :: r.1, r.2)
      else
        r ← build_steps reg final rest;
        Ok (plan_step s tools :: r.1, r.2)
  end.

(** The ancestor search marks a step before it follows its dependencies. *)
Section visit_deps.
Variable visit : string -> gset string -> option (gset string).
Fixpoint visit_deps (deps : list string) (seen : gset string)
    : option (gset string) :=
  match deps with
  | [] => Some seen
  | dep :: rest => seen' ← visit dep seen; visit_deps rest seen'
  end.
End visit_deps.

Definition deps_of (byID : gmap string TaskStep) (id : string) : list string :=
  match byID !! id with Some s => s_Dependencies s | None => [] end.

Fixpoint visit (byID : gmap string TaskStep) (fuel : nat) (id : string)
    (ancestors : gset string) : option (gset string) :=
  match fuel with
  | 0 => None
  | S fuel =>
      if bool_decide (id ∈ ancestors) then Some ancestors
      else visit_deps (visit byID fuel) (deps_of byID id) ({[id]} ∪ ancestors)
  end.

Definition index_steps (steps : list TaskStep) : gmap string TaskStep :=
  fold_left (fun m s => <[s_ID s := s]> m) steps ∅.

Definition parseGraphPlan (order : gmap string TaskStep -> list string)
    (reg : ToolCatalog) (planned : list PlannedStep)
    : res PlanError (list TaskStep) :=
  check! negb (Nat.ltb 12 (length planned)) else EPlanTooLong in
  built ← build_steps reg "" planned;
  let steps := built.1 in
  let final := built.2 in
  let byID := index_steps steps in
  _ ← ValidateTaskSteps order steps;
  check! negb (String.eqb final "") else ENoFinalizer in
  match visit byID (S (S (size byID))) final ∅ with
  | None => Err EOutOfFuel
  | Some ancestors =>
      check! Nat.eqb (size ancestors) (length steps) else EDisconnected in
      Ok steps
  end.

(** * Properties *)

(** ** The index of a plan *)

Definition step_ok (s : TaskStep) : Prop :=
  step_guard s = Ok tt /\ step_limits s = Ok tt.

Definition index_from (m : gmap string TaskStep) (steps : list TaskStep) :=
  fold_left (fun m s => <[s_ID s := s]> m) steps m.

Lemma index_from_lookup steps : forall m id s,
  NoDup (s_ID <$> steps) ->
  index_from m steps !! id = Some s <->
  (s ∈ steps /\ s_ID s = id) \/ (id ∉ s_ID <$> steps /\ m !! id = Some s).
Proof.
  unfold index_from. induction steps as [|t steps IH]; intros m id s Hnd; simpl.
  - rewrite elem_of_nil. set_solver.
  - rewrite fmap_cons in Hnd. apply NoDup_cons in Hnd as [Hnin Hnd].
    rewrite IH by done. destruct (decide (s_ID t = id)) as [<-|Hne].
    + rewrite lookup_insert_eq. split.
      * intros [[? ?]|[? [= ->]]]; left; set_solver.
      * intros [[[->|?]%elem_of_cons ?]|[? ?]]; [right; done|left; done|].
        set_solver.
    + rewrite lookup_insert_ne by done. rewrite elem_of_cons. split.
      * intros [?|[? ?]]; [left; naive_solver|right; split; [set_solver|done]].
      * intros [[[->|?] ?]|[? ?]]; [done|left; done|right; set_solver].
Qed.

Lemma index_steps_lookup steps id s :
  NoDup (s_ID <$> steps) ->
  index_steps steps !! id = Some s <-> s ∈ steps /\ s_ID s = id.
Proof.
  intros Hnd. unfold index_steps. fold (index_from ∅ steps).
  rewrite index_from_lookup, lookup_empty by done. naive_solver.
Qed.

Lemma collect_steps_Ok steps : forall m byID,
  collect_steps m steps = Ok byID <->
  Forall step_ok steps /\ NoDup (s_ID <$> steps)
  /\ Forall (fun s => m !! s_ID s = None) steps /\ byID = index_from m steps.
Proof.
  induction steps as [|s steps IH]; intros m byID; cbn [collect_steps].
  - unfold index_from. simpl. split; [intros [= ->]; repeat constructor|].
    by intros (_ & _ & _ & ->).
  - rewrite !Forall_cons, fmap_cons, NoDup_cons. unfold step_ok at 1. split.
    + intros ([] & Hg & H)%res_bind_Ok.
      destruct (m !! s_ID s) eqn:Hm; [done|].
      apply res_bind_Ok in H as ([] & Hl & H). apply IH in H as (? & ? & Hf & ->).
      assert (s_ID s ∉ s_ID <$> steps).
      { intros (t & Heq & Ht)%list_elem_of_fmap. rewrite Forall_forall in Hf.
        specialize (Hf t Ht). by rewrite <- Heq, lookup_insert_eq in Hf. }
      repeat split; try done. eapply Forall_impl; [exact Hf|].
      intros t. destruct (decide (s_ID s = s_ID t)) as [->|].
      * by rewrite lookup_insert_eq.
      * by rewrite lookup_insert_ne.
    + intros ([[Hg Hl] Hok] & [Hnin Hnd] & [Hm Hf] & ->).
      rewrite Hg. simpl. rewrite Hm, Hl. simpl. apply IH. repeat split; try done.
      apply Forall_forall. intros t Ht. rewrite Forall_forall in Hf.
      rewrite lookup_insert_ne; [by apply Hf|].
      intros Heq. apply Hnin. rewrite Heq. by apply list_elem_of_fmap_2.
Qed.

(** ** The cycle search *)

Section search.
Context (byID : gmap string TaskStep).

(** A reverse post-order: every step comes before (is nearer the head than)
    its dependencies. *)
Inductive topo : list string -> Prop :=
| topo_nil : topo []
| topo_cons x s l :
    topo l -> byID !! x = Some s -> x ∉ l -> NoDup (s_Dependencies s) ->
    (forall d, d ∈ s_Dependencies s -> d ∈ l) -> topo (x :: l).

Definition marks_inv (m : marks) (l : list string) : Prop :=
  topo l /\ visited m = list_to_set l /\ visiting m ## visited m.

Definition walk_post (m m' : marks) (l : list string) (ids : list string) :=
  visiting m' = visiting m /\
  exists l', marks_inv m' (l' ++ l) /\ forall id, id ∈ ids -> id ∈ l' ++ l.

Lemma walk_deps_sound (f : string -> marks -> res PlanError marks) :
  (forall id m m' l, marks_inv m l -> f id m = Ok m' ->
     walk_post m m' l [id]) ->
  forall deps seen m m' l, marks_inv m l ->
    walk_deps f seen deps m = Ok m' ->
    walk_post m m' l deps /\ NoDup deps /\ (forall d, d ∈ deps -> d ∉ seen).
Proof.
  intros Hf deps. induction deps as [|d deps IH]; intros seen m m' l Hinv;
    cbn [walk_deps].
  - intros [= ->]. split; [split; [done|exists []]|]; [set_solver|].
    split; [constructor|set_solver].
  - case_bool_decide as Hseen; [done|].
    intros (m1 & H1 & H2)%res_bind_Ok.
    destruct (Hf _ _ _ _ Hinv H1) as (Hv1 & l1 & Hinv1 & Hin1).
    destruct (IH _ _ _ _ Hinv1 H2) as ((Hv2 & l2 & Hinv2 & Hin2) & Hnd & Hs).
    split; [split; [congruence|exists (l2 ++ l1)]|split].
    + rewrite <- app_assoc. split; [done|]. set_solver.
    + constructor; [|done]. intros Hd. specialize (Hs d Hd). set_solver.
    + set_solver.
Qed.

Lemma walk_sound fuel : forall id m m' l,
  marks_inv m l -> walk byID fuel id m = Ok m' -> walk_post m m' l [id].
Proof.
  induction fuel as [|fuel IH]; intros id m m' l Hinv; cbn [walk]; [done|].
  case_bool_decide as Hvis; [done|].
  case_bool_decide as Hdone.
  { intros [= <-]. split; [done|]. exists []. split; [done|].
    destruct Hinv as (_ & Hl & _). set_solver. }
  destruct (byID !! id) as [s|] eqn:Hs; [|done].
  intros (m1 & H1 & [= <-])%res_bind_Ok.
  destruct Hinv as (Ht & Hl & Hdis).
  assert (marks_inv (MkMarks ({[id]} ∪ visiting m) (visited m)) l) as Hinv'.
  { split; [done|]. split; [done|]. simpl. set_solver. }
  destruct (walk_deps_sound _ IH _ _ _ _ _ Hinv' H1)
    as ((Hv1 & l1 & (Ht1 & Hl1 & Hd1) & Hin1) & Hnd & _).
  simpl in Hv1. rewrite Hv1 in Hd1 |- *.
  split; [simpl; set_solver|]. exists (id :: l1). simpl. split; [|set_solver].
  split; [econstructor; eauto; set_solver|]. simpl.
  split; [by rewrite Hl1|set_solver].
Qed.

Lemma walk_all_sound fuel ids : forall m m' l,
  marks_inv m l -> walk_all byID fuel ids m = Ok m' -> walk_post m m' l ids.
Proof.
  induction ids as [|id ids IH]; intros m m' l Hinv; cbn [walk_all].
  - intros [= ->]. split; [done|]. exists []. split; [done|set_solver].
  - intros (m1 & H1 & H2)%res_bind_Ok.
    destruct (walk_sound _ _ _ _ _ Hinv H1) as (Hv1 & l1 & Hinv1 & Hin1).
    destruct (IH _ _ _ Hinv1 H2) as (Hv2 & l2 & Hinv2 & Hin2).
    split; [congruence|]. exists (l2 ++ l1). rewrite <- app_assoc.
    split; [done|set_solver].
Qed.

(** The position in a reverse post-order ranks the steps. *)
Fixpoint rank (l : list string) (x : string) : nat :=
  match l with
  | [] => 0
  | y :: l' => if bool_decide (x = y) then S (length l') else rank l' x
  end.

Lemma rank_le l x : rank l x <= length l.
Proof. induction l as [|y l IH]; simpl; [lia|]. case_bool_decide; lia. Qed.

Lemma topo_rank l x s d :
  topo l -> x ∈ l -> byID !! x = Some s -> d ∈ s_Dependencies s ->
  rank l d < rank l x.
Proof.
  intros Ht Hx Hs Hd. induction Ht as [|y t l Ht IH Hy Hyl Hnd Hdeps].
  { by apply elem_of_nil in Hx. }
  simpl. destruct (decide (x = y)) as [->|Hxy].
  - simplify_eq. rewrite (bool_decide_eq_true_2 (y = y)) by done.
    rewrite bool_decide_eq_false_2; [|intros ->; by apply Hyl, Hdeps].
    pose proof (rank_le l d). lia.
  - rewrite (bool_decide_eq_false_2 (x = y)) by done.
    apply elem_of_cons in Hx as [?|Hx]; [done|]. specialize (IH Hx).
    case_bool_decide as Hdy; [|done]. subst d. exfalso.
    (* a later step cannot be a dependency of an earlier one *)
    clear IH Hdeps Hnd. induction Ht as [|z u l Ht IH Hz Hzl Hnd Hdeps].
    + by apply elem_of_nil in Hx.
    + apply elem_of_cons in Hx as [->|Hx].
      * simplify_eq. set_solver.
      * apply IH; [set_solver|done].
Qed.

(** Fuel: the chain of visited marks bounds the depth. *)
Definition fuel_ok (fuel : nat) (m : marks) : Prop :=
  visiting m ⊆ dom byID /\ size byID < fuel + size (visiting m).

Lemma fuel_ok_pos m : ~ fuel_ok 0 m.
Proof.
  intros [Hsub Hlt]. apply subseteq_size in Hsub.
  rewrite size_dom in Hsub. lia.
Qed.

Lemma fuel_ok_step fuel m id s v :
  fuel_ok (S fuel) m -> id ∉ visiting m -> byID !! id = Some s ->
  fuel_ok fuel (MkMarks ({[id]} ∪ visiting m) v).
Proof.
  intros [Hsub Hlt] Hid Hs. split; simpl.
  - apply union_least; [|done]. apply singleton_subseteq_l.
    apply elem_of_dom. eauto.
  - rewrite size_union by set_solver. rewrite size_singleton. lia.
Qed.

Lemma walk_deps_fuel (f : string -> marks -> res PlanError marks) fuel :
  (forall id m, fuel_ok fuel m ->
     f id m <> Err EOutOfFuel /\
     forall m', f id m = Ok m' -> visiting m' = visiting m) ->
  forall deps seen m, fuel_ok fuel m ->
     walk_deps f seen deps m <> Err EOutOfFuel /\
     forall m', walk_deps f seen deps m = Ok m' -> visiting m' = visiting m.
Proof.
  intros Hf deps. induction deps as [|d deps IH]; intros seen m Hfuel;
    cbn [walk_deps]; [by split; [|intros ? [= ->]]|].
  case_bool_decide; [done|]. destruct (Hf d m Hfuel) as [Hne Hok].
  destruct (f d m) as [m1|e]; simpl; [|split; [congruence|done]].
  specialize (Hok m1 eq_refl).
  assert (fuel_ok fuel m1) as Hfuel1 by (unfold fuel_ok; by rewrite Hok).
  destruct (IH ({[d]} ∪ seen) m1 Hfuel1) as [? Hok']. split; [done|].
  intros m' Hm'. rewrite (Hok' m' Hm'). done.
Qed.

Lemma walk_fuel_enough fuel : forall id m, fuel_ok fuel m ->
  walk byID fuel id m <> Err EOutOfFuel /\
  forall m', walk byID fuel id m = Ok m' -> visiting m' = visiting m.
Proof.
  induction fuel as [|fuel IH]; intros id m Hfuel.
  { by destruct (fuel_ok_pos m). }
  cbn [walk]. case_bool_decide as Hvis; [done|].
  case_bool_decide; [by split; [|intros ? [= ->]]|].
  destruct (byID !! id) as [s|] eqn:Hs; [|done].
  pose proof (fuel_ok_step _ _ _ _ (visited m) Hfuel Hvis Hs) as Hfuel'.
  destruct (walk_deps_fuel _ _ IH (s_Dependencies s) ∅ _ Hfuel') as [Hne Hok].
  destruct (walk_deps _ _ _ _) as [m1|e]; simpl; [|split; [congruence|done]].
  split; [done|]. intros m' [= <-]. rewrite (Hok m1 eq_refl). simpl. set_solver.
Qed.

(** Completeness: on a closed, duplicate-free plan with a rank decreasing
    along dependencies the search reports nothing. *)
Context (r : string -> nat).
Hypothesis closed : forall id s d,
  byID !! id = Some s -> d ∈ s_Dependencies s -> is_Some (byID !! d).
Hypothesis distinct : forall id s,
  byID !! id = Some s -> NoDup (s_Dependencies s).
Hypothesis ranked : forall id s d,
  byID !! id = Some s -> d ∈ s_Dependencies s -> r d < r id.

Lemma walk_deps_complete (f : string -> marks -> res PlanError marks) fuel n :
  (forall id m, fuel_ok fuel m -> is_Some (byID !! id) ->
     (forall v, v ∈ visiting m -> r id < r v) ->
     exists m', f id m = Ok m' /\ visiting m' = visiting m) ->
  forall deps seen m, fuel_ok fuel m -> NoDup deps ->
    (forall d, d ∈ deps -> d ∉ seen /\ is_Some (byID !! d) /\ r d < n) ->
    (forall v, v ∈ visiting m -> n <= r v) ->
    exists m', walk_deps f seen deps m = Ok m' /\ visiting m' = visiting m.
Proof.
  intros Hf deps. induction deps as [|d deps IH]; intros seen m Hfuel Hnd Hd Hv;
    cbn [walk_deps]; [by exists m|].
  apply NoDup_cons in Hnd as [Hnin Hnd].
  destruct (Hd d) as (Hseen & Hsome & Hlt); [set_solver|].
  rewrite bool_decide_eq_false_2 by done.
  destruct (Hf d m Hfuel Hsome) as (m1 & Hm1 & Hv1).
  { intros v Hin. specialize (Hv v Hin). lia. }
  rewrite Hm1. simpl.
  destruct (IH ({[d]} ∪ seen) m1) as (m2 & Hm2 & Hv2).
  - unfold fuel_ok. by rewrite Hv1.
  - done.
  - intros d' Hd'. destruct (Hd d') as (? & ? & ?); [set_solver|].
    split; [|done]. set_solver.
  - by rewrite Hv1.
  - exists m2. split; [done|congruence].
Qed.

Lemma walk_complete fuel : forall id m, fuel_ok fuel m ->
  is_Some (byID !! id) -> (forall v, v ∈ visiting m -> r id < r v) ->
  exists m', walk byID fuel id m = Ok m' /\ visiting m' = visiting m.
Proof.
  induction fuel as [|fuel IH]; intros id m Hfuel [s Hs] Hv.
  { by destruct (fuel_ok_pos m). }
  cbn [walk]. assert (id ∉ visiting m) as Hvis.
  { intros Hin. specialize (Hv id Hin). lia. }
  rewrite bool_decide_eq_false_2 by done.
  case_bool_decide; [by exists m|]. rewrite Hs.
  destruct (walk_deps_complete _ fuel (r id) IH (s_Dependencies s) ∅
    (MkMarks ({[id]} ∪ visiting m) (visited m))) as (m1 & Hm1 & Hv1).
  - by eapply fuel_ok_step.
  - eauto.
  - intros d Hd. split; [set_solver|]. eauto.
  - simpl. intros v [->%elem_of_singleton|Hin]%elem_of_union; [lia|].
    specialize (Hv v Hin). lia.
  - rewrite Hm1. simpl. eexists. split; [done|]. simpl. rewrite Hv1. set_solver.
Qed.

Lemma walk_all_complete fuel ids : forall m, fuel_ok fuel m ->
  visiting m = ∅ -> (forall id, id ∈ ids -> is_Some (byID !! id)) ->
  exists m', walk_all byID fuel ids m = Ok m'.
Proof.
  induction ids as [|id ids IH]; intros m Hfuel Hv Hids; cbn [walk_all]; [eauto|].
  destruct (walk_complete fuel id m Hfuel) as (m1 & Hm1 & Hv1).
  - apply Hids. set_solver.
  - rewrite Hv. set_solver.
  - rewrite Hm1. simpl. apply IH; [|congruence|set_solver].
    unfold fuel_ok. by rewrite Hv1.
Qed.
End search.

(** ** What [ValidateTaskSteps] accepts *)

Record plan_ok (steps : list TaskStep) : Prop := {
  plan_size : 1 <= length steps <= 64;
  plan_guards : Forall step_ok steps;
  plan_ids : NoDup (s_ID <$> steps);
  plan_deps_distinct : forall s, s ∈ steps -> NoDup (s_Dependencies s);
  plan_deps_known : forall s d, s ∈ steps -> d ∈ s_Dependencies s ->
    d ∈ s_ID <$> steps;
  plan_acyclic : exists r : string -> nat, forall s d,
    s ∈ steps -> d ∈ s_Dependencies s -> r d < r (s_ID s);
}.

Definition ranges_over (order : gmap string TaskStep -> list string) : Prop :=
  forall m, order m ≡ₚ (map_to_list m).*1.

Lemma ranges_over_elem order m id :
  ranges_over order -> id ∈ order m <-> is_Some (m !! id).
Proof.
  intros Ho. rewrite (Ho m), list_elem_of_fmap. split.
  - intros ([k v] & -> & Hin%elem_of_map_to_list). simpl. eauto.
  - intros [v Hv]. exists (id, v). by rewrite elem_of_map_to_list.
Qed.

Lemma index_steps_is_Some steps id :
  NoDup (s_ID <$> steps) ->
  is_Some (index_steps steps !! id) <-> id ∈ s_ID <$> steps.
Proof.
  intros Hnd. rewrite list_elem_of_fmap. split.
  - intros [s Hs]. apply index_steps_lookup in Hs as [? ?]; eauto.
  - intros (s & -> & Hs). exists s. by apply index_steps_lookup.
Qed.

Lemma index_steps_self steps s :
  NoDup (s_ID <$> steps) -> s ∈ steps -> index_steps steps !! s_ID s = Some s.
Proof. intros. by apply index_steps_lookup. Qed.

Lemma fuel_ok_start byID : fuel_ok byID (walk_fuel byID) (MkMarks ∅ ∅).
Proof.
  split; simpl; [set_solver|]. unfold walk_fuel. lia.
Qed.

Lemma walk_all_plan order steps m' :
  ranges_over order -> NoDup (s_ID <$> steps) ->
  walk_all (index_steps steps) (walk_fuel (index_steps steps))
    (order (index_steps steps)) (MkMarks ∅ ∅) = Ok m' ->
  exists l, topo (index_steps steps) l /\
    forall s, s ∈ steps -> s_ID s ∈ l.
Proof.
  intros Ho Hnd H.
  assert (marks_inv (index_steps steps) (MkMarks ∅ ∅) []) as Hinv.
  { split; [constructor|]. split; [done|]. simpl. set_solver. }
  destruct (walk_all_sound _ _ _ _ _ _ Hinv H) as (_ & l & (Ht & _ & _) & Hin).
  rewrite app_nil_r in *. exists l. split; [done|].
  intros s Hs. apply Hin, ranges_over_elem; [done|].
  exists s. by apply index_steps_self.
Qed.

Lemma topo_lookup byID l x s :
  topo byID l -> x ∈ l -> byID !! x = Some s ->
  NoDup (s_Dependencies s) /\ forall d, d ∈ s_Dependencies s -> d ∈ l.
Proof.
  intros Ht Hx Hs. induction Ht as [|y t l Ht IH Hy Hyl Hnd Hdeps].
  - by apply elem_of_nil in Hx.
  - apply elem_of_cons in Hx as [->|Hx].
    + simplify_eq. split; [done|]. intros d Hd. right. by apply Hdeps.
    + destruct (IH Hx) as [? IHd]. split; [done|]. intros d Hd. right. by apply IHd.
Qed.

Lemma topo_known byID l x : topo byID l -> x ∈ l -> is_Some (byID !! x).
Proof.
  intros Ht Hx. induction Ht; [by apply elem_of_nil in Hx|].
  apply elem_of_cons in Hx as [->|Hx]; eauto.
Qed.

Lemma plan_size_guard (steps : list TaskStep) :
  negb (Nat.eqb (length steps) 0 || Nat.ltb 64 (length steps)) = true <->
  1 <= length steps <= 64.
Proof.
  rewrite negb_true_iff, orb_false_iff, Nat.eqb_neq, Nat.ltb_ge. lia.
Qed.

Lemma ValidateTaskSteps_sound order steps :
  ranges_over order -> ValidateTaskSteps order steps = Ok tt -> plan_ok steps.
Proof.
  intros Ho. unfold ValidateTaskSteps.
  destruct (negb _) eqn:Hsize; [|done]. apply plan_size_guard in Hsize.
  intros (byID & Hc & (m' & Hw & _)%res_bind_Ok)%res_bind_Ok.
  apply collect_steps_Ok in Hc as (Hg & Hnd & _ & ->).
  destruct (walk_all_plan order steps m' Ho Hnd Hw) as (l & Ht & Hin).
  split; try done.
  - intros s Hs. eapply topo_lookup; eauto using index_steps_self.
  - intros s d Hs Hd. apply index_steps_is_Some; [done|].
    eapply topo_known; [done|].
    eapply topo_lookup; eauto using index_steps_self.
  - exists (rank l). intros s d Hs Hd.
    eapply topo_rank; eauto using index_steps_self.
Qed.

Lemma collect_steps_plan steps :
  plan_ok steps -> collect_steps ∅ steps = Ok (index_steps steps).
Proof.
  intros [_ Hg Hnd _ _ _]. apply collect_steps_Ok. repeat split; try done.
  apply Forall_forall. intros s _. apply lookup_empty.
Qed.

Lemma ValidateTaskSteps_complete order steps :
  ranges_over order -> plan_ok steps -> ValidateTaskSteps order steps = Ok tt.
Proof.
  intros Ho Hok. unfold ValidateTaskSteps. rewrite (collect_steps_plan _ Hok).
  destruct Hok as [Hsize _ Hnd Hdd Hdk [r Hr]].
  apply plan_size_guard in Hsize as ->. simpl.
  assert (forall id s, index_steps steps !! id = Some s ->
            s ∈ steps /\ s_ID s = id) as Hlk.
  { intros id s Hs. by apply index_steps_lookup in Hs. }
  destruct (walk_all_complete (index_steps steps) r) with
    (fuel := walk_fuel (index_steps steps))
    (ids := order (index_steps steps)) (m := MkMarks ∅ ∅) as [m' ->].
  - intros id s d [Hs <-]%Hlk Hd. apply index_steps_is_Some; eauto.
  - intros id s [Hs <-]%Hlk. eauto.
  - intros id s d [Hs <-]%Hlk Hd. eauto.
  - apply fuel_ok_start.
  - done.
  - intros id. by apply ranges_over_elem.
  - done.
Qed.

(** C32: the validator accepts exactly the plans of 1 to 64 well-formed steps
    with distinct names, known and distinct dependencies and no dependency
    cycle, whatever order Go enumerates the steps in. *)
Theorem ValidateTaskSteps_iff order steps :
  ranges_over order ->
  ValidateTaskSteps order steps = Ok tt <-> plan_ok steps.
Proof.
  intros Ho. split.
  - by apply ValidateTaskSteps_sound.
  - by apply ValidateTaskSteps_complete.
Qed.

Definition keys_order (m : gmap string TaskStep) : list string :=
  (map_to_list m).*1.

Definition sample_step (id kind : string) (deps tools : list string) :=
  plan_step {| p_ID := id; p_Goal := "goal"; p_Acceptance := "accept";
               p_Kind := kind; p_Dependencies := deps; p_Tools := tools |} tools.

Definition sample_plan : list TaskStep :=
  [sample_step "a" "read" [] ["browser_fetch"%string];
   sample_step "b" "read" ["a"%string] [];
   sample_step "report" "finalize" ["a"%string; "b"%string] []].

Lemma keys_order_ranges : ranges_over keys_order.
Proof. by intros m. Qed.

Lemma ValidateTaskSteps_iff_witness :
  ValidateTaskSteps keys_order sample_plan = Ok tt /\ plan_ok sample_plan.
Proof.
  assert (ValidateTaskSteps keys_order sample_plan = Ok tt) as H
    by (vm_compute; reflexivity).
  split; [exact H|].
  exact (proj1 (ValidateTaskSteps_iff keys_order sample_plan keys_order_ranges) H).
Defined.

(** Fuel: the cycle search never runs out of it. *)
Lemma walk_all_fuel byID fuel ids : forall m, fuel_ok byID fuel m ->
  walk_all byID fuel ids m <> Err EOutOfFuel.
Proof.
  induction ids as [|id ids IH]; intros m Hf; cbn [walk_all]; [done|].
  destruct (walk_fuel_enough byID fuel id m Hf) as [Hne Hok].
  destruct (walk byID fuel id m) as [m1|e]; simpl; [|congruence].
  apply IH. unfold fuel_ok. by rewrite (Hok m1 eq_refl).
Qed.

Lemma collect_steps_fuel steps : forall m,
  collect_steps m steps <> Err EOutOfFuel.
Proof.
  induction steps as [|s steps IH]; intros m; cbn [collect_steps]; [done|].
  unfold step_guard, step_limits. repeat (case_match; simpl; try done).
Qed.

Lemma ValidateTaskSteps_fuel order steps :
  ValidateTaskSteps order steps <> Err EOutOfFuel.
Proof.
  unfold ValidateTaskSteps. case_match; [|done].
  pose proof (collect_steps_fuel steps ∅).
  destruct (collect_steps ∅ steps) as [byID|e]; simpl; [|congruence].
  pose proof (walk_all_fuel byID _ (order byID) _ (fuel_ok_start byID)).
  destruct (walk_all _ _ _ _); simpl; congruence.
Qed.

(** ** The ancestor search *)

Section ancestors.
Context (byID : gmap string TaskStep).

(** [reach x y]: [y] is [x] or one of its transitive dependencies. *)
Definition reach : string -> string -> Prop :=
  rtc (fun x y => y ∈ deps_of byID x).

Definition visit_spec (roots : list string) (seen seen' : gset string) :=
  seen ⊆ seen' /\
  forall x, x ∈ seen' -> x ∈ seen \/ exists r, r ∈ roots /\ reach r x.

Lemma visit_deps_sound (f : string -> gset string -> option (gset string)) :
  (forall id seen seen', f id seen = Some seen' ->
     visit_spec [id] seen seen' /\ id ∈ seen') ->
  forall deps seen seen', visit_deps f deps seen = Some seen' ->
    visit_spec deps seen seen' /\ forall d, d ∈ deps -> d ∈ seen'.
Proof.
  intros Hf deps. induction deps as [|d deps IH]; intros seen seen';
    cbn [visit_deps].
  - intros [= <-]. split; [split; [done|auto]|set_solver].
  - intros (s1 & H1 & H2)%bind_Some.
    destruct (Hf _ _ _ H1) as [[Hs1 Hr1] Hd1].
    destruct (IH _ _ H2) as [[Hs2 Hr2] Hd2].
    split; [split; [set_solver|]|set_solver].
    intros x [Hx|(r & ? & ?)]%Hr2; [|right; exists r; split; [set_solver|done]].
    apply Hr1 in Hx as [?|(r & ->%list_elem_of_singleton & ?)]; [by left|].
    right. exists d. split; [set_solver|done].
Qed.

Lemma visit_sound fuel : forall id seen seen',
  visit byID fuel id seen = Some seen' ->
  visit_spec [id] seen seen' /\ id ∈ seen'.
Proof.
  induction fuel as [|fuel IH]; intros id seen seen'; cbn [visit]; [done|].
  case_bool_decide as Hin; [intros [= <-]; split; [split; [done|auto]|done]|].
  intros [[Hs Hr] _]%(visit_deps_sound _ IH).
  split; [split; [set_solver|]|set_solver].
  intros x [[->%elem_of_singleton|?]%elem_of_union|(d & Hd & Hx)]%Hr.
  - right. exists id. split; [set_solver|]. apply rtc_refl.
  - by left.
  - right. exists id. split; [set_solver|]. by eapply rtc_l.
Qed.

Hypothesis closed : forall id d, d ∈ deps_of byID id -> is_Some (byID !! d).

Definition visit_fuel_ok (fuel : nat) (seen : gset string) : Prop :=
  seen ⊆ dom byID /\ size byID < fuel + size seen.

Lemma visit_fuel_enough fuel : forall id seen,
  is_Some (byID !! id) -> visit_fuel_ok fuel seen ->
  exists seen', visit byID fuel id seen = Some seen'
    /\ seen ⊆ seen' /\ seen' ⊆ dom byID.
Proof.
  induction fuel as [|fuel IH]; intros id seen Hid [Hsub Hlt].
  { apply subseteq_size in Hsub. rewrite size_dom in Hsub. lia. }
  cbn [visit]. case_bool_decide as Hin; [by exists seen|].
  assert (forall deps s1, (forall d, d ∈ deps -> is_Some (byID !! d)) ->
    {[id]} ∪ seen ⊆ s1 -> s1 ⊆ dom byID ->
    exists seen', visit_deps (visit byID fuel) deps s1 = Some seen'
      /\ s1 ⊆ seen' /\ seen' ⊆ dom byID) as Hdeps.
  { intros deps. induction deps as [|d deps IHd]; intros s1 Hk Hs1 Hdom;
      cbn [visit_deps]; [by exists s1|].
    destruct (IH d s1) as (s2 & H2 & Hs2 & Hdom2).
    - apply Hk. set_solver.
    - split; [done|]. apply subseteq_size in Hs1.
      rewrite size_union, size_singleton in Hs1 by set_solver. lia.
    - rewrite H2. simpl. destruct (IHd s2) as (s3 & H3 & ? & ?).
      + intros d' ?. apply Hk. set_solver.
      + set_solver.
      + done.
      + exists s3. split; [done|]. split; [set_solver|done]. }
  destruct (Hdeps (deps_of byID id) ({[id]} ∪ seen)) as (s' & -> & ? & ?).
  - intros d Hd. by eapply closed.
  - done.
  - apply union_least; [|done]. apply singleton_subseteq_l, elem_of_dom. done.
  - exists s'. split; [done|]. split; [set_solver|done].
Qed.
End ancestors.

#[local] Arguments visit : simpl never.

(** ** What [parseGraphPlan] accepts *)

(** The tools a step of each kind may name. *)
Definition tools_permitted (reg : ToolCatalog) (s : TaskStep) : Prop :=
  forall name, name ∈ s_Tools s ->
    name ∈ known_tools reg
    /\ (s_Kind s = "read"%string -> IsReadOnly reg name = true)
    /\ (s_Kind s = "finalize"%string -> IsReadOnly reg name = false).

Lemma mem_elem x l : mem x l = true <-> x ∈ l.
Proof.
  unfold mem. rewrite existsb_Exists, Exists_exists. split.
  - by intros (y & ? & ->%String.eqb_eq).
  - intros ?. exists x. by rewrite String.eqb_refl.
Qed.

Lemma tools_guard_Ok reg id kind tools :
  tools_guard reg id kind tools = Ok tt -> forall name, name ∈ tools ->
    name ∈ known_tools reg
    /\ (kind = "read"%string -> IsReadOnly reg name = true)
    /\ (kind = "finalize"%string -> IsReadOnly reg name = false).
Proof.
  induction tools as [|t tools IH]; cbn [tools_guard]; [set_solver|].
  destruct (mem t (known_tools reg)) eqn:Hm; [|done]. apply mem_elem in Hm.
  destruct (String.eqb kind "read") eqn:Er,
    (String.eqb kind "finalize") eqn:Ef, (IsReadOnly reg t) eqn:Ho;
    simpl; try done; intros H name [->|Hin]%elem_of_cons; try (by apply IH);
    bool_to_prop; naive_solver.
Qed.

Definition finalizers (steps : list TaskStep) : list string :=
  s_ID <$> filter (fun s => s_Kind s = "finalize"%string) steps.

Lemma build_steps_Ok reg planned : forall final steps f,
  build_steps reg final planned = Ok (steps, f) ->
  Forall (tools_permitted reg) steps
  /\ (finalizers steps = [] /\ f = final
      \/ exists l x, finalizers steps = l ++ [x] /\ f = x
         /\ (final <> ""%string -> False) /\ Forall (fun y => y = ""%string) l).
Proof.
  induction planned as [|p planned IH]; intros final steps f; cbn [build_steps].
  - intros [= <- <-]. split; [constructor|by left].
  - intros ([] & Hg & H)%res_bind_Ok.
    assert (tools_permitted reg (plan_step p (add_fetch reg p))) as Hperm
      by (intros name; apply (tools_guard_Ok _ _ _ _ Hg)).
    destruct (String.eqb (p_Kind p) "finalize") eqn:Hk.
    + destruct (String.eqb final "") eqn:Hf; [|done].
      apply String.eqb_eq in Hk, Hf.
      apply res_bind_Ok in H as ([steps' f'] & Hb & [= <- <-]). simpl.
      destruct (IH _ _ _ Hb) as [Hall Hfin]. split; [by constructor|right].
      unfold finalizers in *. rewrite filter_cons_True by done. rewrite fmap_cons.
      destruct Hfin as [[-> ->]|(l & x & -> & -> & Hne & Hl)].
      * by exists [], (p_ID p).
      * exists (p_ID p :: l), x. repeat split; try done.
        constructor; [|done]. simpl in *.
        destruct (decide (p_ID p = ""%string)); [done|]. by destruct Hne.
    + apply String.eqb_neq in Hk.
      apply res_bind_Ok in H as ([steps' f'] & Hb & [= <- <-]). simpl.
      destruct (IH _ _ _ Hb) as [Hall Hfin]. split; [by constructor|].
      unfold finalizers in *. by rewrite filter_cons_False.
Qed.

Lemma plan_closed steps id d :
  plan_ok steps -> d ∈ deps_of (index_steps steps) id ->
  is_Some (index_steps steps !! d).
Proof.
  intros [_ _ Hnd _ Hk _]. unfold deps_of.
  destruct (index_steps steps !! id) as [s|] eqn:Hs; [|set_solver].
  apply index_steps_lookup in Hs as [Hs _]; [|done].
  intros Hd. apply index_steps_is_Some; eauto.
Qed.

Lemma plan_id_nonempty steps s : plan_ok steps -> s ∈ steps -> s_ID s <> ""%string.
Proof.
  intros [_ Hg _ _ _ _] Hs. rewrite Forall_forall in Hg.
  destruct (Hg s Hs) as [Hstep _]. unfold step_guard in Hstep.
  intros He. rewrite He in Hstep. done.
Qed.

Lemma finalizers_elem steps x :
  x ∈ finalizers steps -> exists s, s ∈ steps /\ s_ID s = x
    /\ s_Kind s = "finalize"%string.
Proof.
  intros (s & -> & Hs)%list_elem_of_fmap. apply list_elem_of_filter in Hs.
  exists s. naive_solver.
Qed.

Lemma visit_final_total steps f :
  plan_ok steps -> f ∈ s_ID <$> steps ->
  let byID := index_steps steps in
  exists anc, visit byID (S (S (size byID))) f ∅ = Some anc
    /\ anc ⊆ dom byID.
Proof.
  intros Hok Hf byID. destruct Hok as [? ? Hnd ? ? ?] eqn:E.
  destruct (visit_fuel_enough byID) with (fuel := S (S (size byID)))
    (id := f) (seen := (∅ : gset string)) as (anc & ? & _ & ?); eauto.
  - intros id d. by apply plan_closed.
  - by apply index_steps_is_Some.
  - split; [set_solver|lia].
Qed.

Lemma dom_index_steps steps :
  NoDup (s_ID <$> steps) -> dom (index_steps steps) = list_to_set (s_ID <$> steps).
Proof.
  intros Hnd. apply set_eq. intros x.
  by rewrite elem_of_dom, elem_of_list_to_set, index_steps_is_Some.
Qed.

(** An accepted plan is a valid graph of at most 12 steps with exactly
    one finalizer, which depends (transitively) on every step; its read steps
    name only read-only tools of the task's registry and its finalizer no
    research tool. *)
Theorem parseGraphPlan_sound order reg planned steps :
  ranges_over order ->
  parseGraphPlan order reg planned = Ok steps ->
  plan_ok steps /\ length planned <= 12 /\ Forall (tools_permitted reg) steps
  /\ exists f, finalizers steps = [f]
     /\ forall s, s ∈ steps -> reach (index_steps steps) f (s_ID s).
Proof.
  intros Ho. unfold parseGraphPlan.
  destruct (Nat.ltb 12 (length planned)) eqn:Hlen; [done|]. bool_to_prop. simpl.
  intros ([st f] & Hb & ([] & Hv & H)%res_bind_Ok)%res_bind_Ok. simpl in *.
  apply ValidateTaskSteps_sound in Hv; [|done].
  destruct (String.eqb f "") eqn:Hfe; [done|]. apply String.eqb_neq in Hfe.
  destruct (build_steps_Ok _ _ _ _ _ Hb) as [Hperm Hfin]. simpl in H.
  destruct (visit _ _ f ∅) as [anc|] eqn:Hvis; [|done].
  destruct (Nat.eqb (size anc) (length st)) eqn:Hsz; simplify_eq.
  apply Nat.eqb_eq in Hsz. split; [done|]. split; [lia|]. split; [done|].
  exists f. destruct Hfin as [[_ ->]|(l & x & Hl & <- & _ & Hemp)]; [done|].
  assert (l = []) as ->.
  { destruct l as [|y l]; [done|]. apply Forall_cons in Hemp as [-> _].
    destruct (finalizers_elem steps "") as (s & Hs & Hid & _).
    - rewrite Hl. set_solver.
    - by destruct (plan_id_nonempty steps s). }
  split; [done|].
  destruct (finalizers_elem steps f) as (sf & Hsf & Hidf & _);
    [rewrite Hl; set_solver|].
  destruct (visit_final_total steps f Hv) as (anc' & Hanc & Hdom).
  { rewrite <- Hidf. by apply list_elem_of_fmap_2. }
  rewrite Hvis in Hanc. simplify_eq.
  destruct (visit_sound _ _ _ _ _ Hvis) as [[_ Hr] _].
  assert (anc' = dom (index_steps steps)) as ->.
  { apply set_subseteq_size_eq; [done|].
    rewrite Hsz, dom_index_steps, size_list_to_set, length_fmap; [done|apply Hv..]. }
  intros s Hs. destruct (Hr (s_ID s)) as [?|(r & ->%list_elem_of_singleton & ?)].
  - apply elem_of_dom, index_steps_is_Some; [apply Hv|]. by apply list_elem_of_fmap_2.
  - set_solver.
  - done.
Qed.

Definition sample_catalog : ToolCatalog :=
  {| known_tools := ["browser_search"; "browser_fetch"; "message_send"]%string;
     IsReadOnly := fun t => mem t ["browser_search"; "browser_fetch"]%string |}.

Definition sample_planned : list PlannedStep :=
  [{| p_ID := "a"; p_Goal := "find"; p_Acceptance := "found"; p_Kind := "read";
      p_Dependencies := []; p_Tools := ["browser_search"%string] |};
   {| p_ID := "r"; p_Goal := "write"; p_Acceptance := "written";
      p_Kind := "finalize"; p_Dependencies := ["a"%string]; p_Tools := [] |}].

(** The planner's search step receives the fetch tool. *)
Example sample_planned_steps :
  s_Tools <$> (match parseGraphPlan keys_order sample_catalog sample_planned with
               | Ok l => l | Err _ => [] end)
  = [["browser_search"; "browser_fetch"]; []]%string.
Proof. vm_compute. reflexivity. Qed.

Lemma parseGraphPlan_sound_witness :
  exists steps, parseGraphPlan keys_order sample_catalog sample_planned = Ok steps
    /\ plan_ok steps.
Proof.
  destruct (parseGraphPlan keys_order sample_catalog sample_planned)
    as [steps|e] eqn:E; [|vm_compute in E; discriminate E].
  exists steps. split; [reflexivity|].
  exact (proj1 (parseGraphPlan_sound _ _ _ _ keys_order_ranges E)).
Defined.

(** Fuel: planning never fails for lack of it. *)
Lemma build_steps_fuel reg planned : forall final,
  build_steps reg final planned <> Err EOutOfFuel.
Proof.
  assert (forall id kind tools, tools_guard reg id kind tools <> Err EOutOfFuel)
    as Htg.
  { intros id kind tools. induction tools; cbn [tools_guard]; [done|].
    repeat (case_match; try done). }
  induction planned as [|p planned IH]; intros final; cbn [build_steps]; [done|].
  specialize (Htg (p_ID p) (p_Kind p) (add_fetch reg p)).
  destruct (tools_guard _ _ _ _); simpl; [|congruence].
  repeat case_match; try done;
    match goal with |- context [build_steps reg ?x planned] =>
      specialize (IH x); destruct (build_steps reg x planned); simpl; congruence
    end.
Qed.

Lemma parseGraphPlan_fuel order reg planned :
  ranges_over order -> parseGraphPlan order reg planned <> Err EOutOfFuel.
Proof.
  intros Ho. unfold parseGraphPlan. case_match; [|done].
  pose proof (build_steps_fuel reg planned "").
  destruct (build_steps reg "" planned) as [[st f]|e] eqn:Hb; simpl; [|congruence].
  pose proof (ValidateTaskSteps_fuel order st).
  destruct (ValidateTaskSteps order st) as [[]|e] eqn:Hv; simpl; [|congruence].
  apply ValidateTaskSteps_sound in Hv; [|done].
  destruct (String.eqb f "") eqn:Hf; [done|]. apply String.eqb_neq in Hf. simpl.
  destruct (build_steps_Ok _ _ _ _ _ Hb) as [_ [[_ ?]|(l & x & Hl & <- & _)]];
    [done|].
  destruct (visit_final_total st f Hv) as (anc & -> & _); [|by case_match].
  destruct (finalizers_elem st f) as (s & ? & <- & _); [rewrite Hl; set_solver|].
  by apply list_elem_of_fmap_2.
Qed.

(** Both checks of a plan terminate: the fuel the recursive searches carry
    (one more than the number of steps, two more for the ancestor search) is
    never exhausted, for any plan and any enumeration order. *)
Theorem plan_checks_terminate order reg steps planned :
  ValidateTaskSteps order steps <> Err EOutOfFuel
  /\ (ranges_over order -> parseGraphPlan order reg planned <> Err EOutOfFuel).
Proof. split; [apply ValidateTaskSteps_fuel|apply parseGraphPlan_fuel]. Qed.
