(* ===== verification/GoTime.v ===== *)
(** * GoTime: package time

    [time.ParseDuration], with its float64 arithmetic for fractions, the RFC
    3339 layout of [time.Parse] (which also reads the timestamps of JSON), and
    the wall clock of a location: the hour and the date of an instant.  A
    location is its UTC offset, in seconds, at each instant. *)

From Stdlib Require Import Ascii String SpecFloat.
From S2P Require Import Prelude GoStrings Json GoJson Task.

Local Open Scope Z_scope.

(** ** Durations *)

Definition float64_of (n : Z) : spec_float := binary_normalize 53 1024 n 0 false.
Definition float64_mul := SFmul 53 1024.
Definition float64_div := SFdiv 53 1024.
(** [uint64(x)] of a non-negative float64. *)
Definition float64_trunc (x : spec_float) : Z :=
  match x with
  | S754_finite false m e => if Z.leb 0 e then Z.pos m * 2 ^ e else Z.pos m / 2 ^ (- e)
  | _ => 0
  end.

Definition is_digit (c : ascii) : bool := in_range 48 57 c.
Definition digit (c : ascii) : Z := code c - 48.

(** [leadingInt]: fails when the value passes 2^63. *)
Fixpoint leadingInt (x : Z) (s : bytes) : option (Z * bytes) :=
  match s with
  | c :: s' =>
      if is_digit c then
        if Z.ltb (2 ^ 63 / 10) x then None
        else let x := x * 10 + digit c in
             if Z.ltb (2 ^ 63) x then None else leadingInt x s'
      else Some (x, s)
  | [] => Some (x, s)
  end.
(** [leadingFraction]: digits past the precision are dropped. *)
Fixpoint leadingFraction (overflow : bool) (x scale : Z) (s : bytes) : Z * Z * bytes :=
  match s with
  | c :: s' =>
      if is_digit c then
        if overflow then leadingFraction true x scale s'
        else if Z.ltb ((2 ^ 63 - 1) / 10) x then leadingFraction true x scale s'
        else let y := x * 10 + digit c in
             if Z.ltb (2 ^ 63) y then leadingFraction true x scale s'
             else leadingFraction false y (scale * 10) s'
      else (x, scale, s)
  | [] => (x, scale, s)
  end.

Definition unit_of (u : bytes) : option Z :=
  if bool_decide (u = lit "ns") then Some 1
  else if bool_decide (u = lit "us") then Some 1000
  else if bool_decide (u = [chr 194; chr 181; "s"%char]) then Some 1000
  else if bool_decide (u = [chr 206; chr 188; "s"%char]) then Some 1000
  else if bool_decide (u = lit "ms") then Some Millisecond
  else if bool_decide (u = lit "s") then Some Second
  else if bool_decide (u = lit "m") then Some Minute
  else if bool_decide (u = lit "h") then Some (60 * Minute)
  else None.

Fixpoint span_unit (s : bytes) : bytes * bytes :=
  match s with
  | c :: s' => if Ascii.eqb c "."%char || is_digit c then ([], s)
               else let '(u, r) := span_unit s' in (c :: u, r)
  | [] => ([], [])
  end.

(** One number with its unit: its nanoseconds and the rest. *)
Definition parse_component (s : bytes) : option (Z * bytes) :=
  match s with
  | c :: _ =>
      if negb (Ascii.eqb c "."%char || is_digit c) then None
      else
        '(v, r) ← leadingInt 0 s;
        let pre := negb (Nat.eqb (length r) (length s)) in
        let '(f, scale, r, post) :=
          match r with
          | d :: r' => if Ascii.eqb d "."%char
                       then let '(f, scale, r2) := leadingFraction false 0 1 r' in
                            (f, scale, r2, negb (Nat.eqb (length r2) (length r')))
                       else (0, 1, r, false)
          | [] => (0, 1, r, false)
          end in
        if negb (pre || post) then None
        else
          let '(u, rest) := span_unit r in
          match u with
          | [] => None
          | _ =>
              unit ← unit_of u;
              if Z.ltb (2 ^ 63 / unit) v then None
              else
                let v := v * unit in
                if Z.ltb 0 f then
                  let v := v + float64_trunc (float64_mul (float64_of f)
                                 (float64_div (float64_of unit) (float64_of scale))) in
                  if Z.ltb (2 ^ 63) v then None else Some (v, rest)
                else Some (v, rest)
          end
  | [] => None
  end.

(** Each component takes at least two bytes. *)
Fixpoint parse_components (fuel : nat) (d : Z) (s : bytes) : option Z :=
  match s, fuel with
  | [], _ => Some d
  | _, O => None
  | _, S fuel =>
      '(v, rest) ← parse_component s;
      let d := d + v in
      if Z.ltb (2 ^ 63) d then None else parse_components fuel d rest
  end.

Definition ParseDuration (s : bytes) : option duration :=
  let '(neg, s) := match s with
    | c :: s' => if Ascii.eqb c "-"%char then (true, s')
                 else if Ascii.eqb c "+"%char then (false, s') else (false, s)
    | [] => (false, [])
    end in
  if bool_decide (s = lit "0") then Some 0
  else match s with
  | [] => None
  | _ =>
      d ← parse_components (length s) 0 s;
      if (neg : bool) then Some (- d)
      else if Z.ltb (2 ^ 63 - 1) d then None else Some d
  end.

(** ** Dates *)

Definition is_leap (y : Z) : bool :=
  Z.eqb (y mod 4) 0 && (negb (Z.eqb (y mod 100) 0) || Z.eqb (y mod 400) 0).
Definition daysIn (m y : Z) : Z :=
  if Z.eqb m 2 then (if is_leap y then 29 else 28)
  else if existsb (Z.eqb m) [4; 6; 9; 11] then 30 else 31.
(** Days from 1970-01-01 to the first of January of [y], and to a date. *)
Definition days_before_year (y : Z) : Z :=
  let p := y - 1 in p * 365 + p / 4 - p / 100 + p / 400 - 719162.
Fixpoint days_before_month (n : nat) (y : Z) : Z :=
  match n with
  | S (S _ as k) => days_before_month k y + daysIn (Z.of_nat k) y
  | _ => 0
  end.
Definition day_number (y m d : Z) : Z :=
  days_before_year y + days_before_month (Z.to_nat m) y + (d - 1).

(** ** The RFC 3339 layout *)

Definition two_digits (s : bytes) : option (Z * bytes) :=
  match s with
  | a :: b :: s' => if is_digit a && is_digit b then Some (digit a * 10 + digit b, s') else None
  | _ => None
  end.
(** The hour of the layout may have one digit. *)
Definition one_or_two (s : bytes) : option (Z * bytes) :=
  match s with
  | a :: s' =>
      if is_digit a then
        match s' with
        | b :: s2 => if is_digit b then Some (digit a * 10 + digit b, s2) else Some (digit a, s')
        | [] => Some (digit a, s')
        end
      else None
  | [] => None
  end.
Definition expect (c : ascii) (s : bytes) : option bytes :=
  match s with d :: s' => if Ascii.eqb c d then Some s' else None | [] => None end.
Definition guard_range (lo hi n : Z) : option unit :=
  if Z.leb lo n && Z.leb n hi then Some tt else None.

(** The fraction of a second: at most nine digits count. *)
Definition parse_fraction (s : bytes) : Z * bytes :=
  match s with
  | c :: ((d :: _) as s') =>
      if (Ascii.eqb c "."%char || Ascii.eqb c ","%char) && is_digit d then
        let '(ds, rest) := span_digits s' in
        let ds := take 9 ds in
        (digits_value 0 ds * 10 ^ (9 - Z.of_nat (length ds)), rest)
      else (0, s)
  | _ => (0, s)
  end.

(** The offset in seconds; nothing may follow. *)
Definition parse_zone (s : bytes) : option Z :=
  match s with
  | [c] => if Ascii.eqb c "Z"%char then Some 0 else None
  | c :: s' =>
      if Ascii.eqb c "+"%char || Ascii.eqb c "-"%char then
        '(h, r) ← two_digits s'; r ← expect ":"%char r; '(m, r) ← two_digits r;
        _ ← guard_range 0 24 h; _ ← guard_range 0 60 m;
        match r with
        | [] => Some ((if Ascii.eqb c "-"%char then -1 else 1) * (h * 3600 + m * 60))
        | _ => None
        end
      else None
  | [] => None
  end.

Definition four_digits (s : bytes) : option (Z * bytes) :=
  match s with
  | a :: b :: c :: d :: s' =>
      if is_digit a && is_digit b && is_digit c && is_digit d
      then Some (digits_value 0 [a; b; c; d], s') else None
  | _ => None
  end.

(** [time.Parse(time.RFC3339, s)]. *)
Definition ParseRFC3339 (s : bytes) : option time :=
  '(y, s) ← four_digits s; s ← expect "-"%char s;
  '(mo, s) ← two_digits s; _ ← guard_range 1 12 mo; s ← expect "-"%char s;
  '(d, s) ← two_digits s; s ← expect "T"%char s;
  '(h, s) ← one_or_two s; _ ← guard_range 0 23 h; s ← expect ":"%char s;
  '(mi, s) ← two_digits s; _ ← guard_range 0 59 mi; s ← expect ":"%char s;
  '(se, s) ← two_digits s; _ ← guard_range 0 59 se;
  let '(frac, s) := parse_fraction s in
  off ← parse_zone s;
  _ ← guard_range 1 (daysIn mo y) d;
  Some ((day_number y mo d * 86400 + h * 3600 + mi * 60 + se - off) * Second + frac).

(** The value of a timestamp in JSON: [UnmarshalJSON] is stricter than [Parse]
    on the hour, the separator of the fraction and the range of the offset. *)
Definition offset_in_range (s : bytes) : bool :=
  match last s with
  | Some c =>
      Ascii.eqb c "Z"%char
      || match two_digits (drop (length s - 5) s), two_digits (drop (length s - 2) s) with
         | Some (h, _), Some (m, _) => Z.ltb h 24 && Z.ltb m 60
         | _, _ => false
         end
  | None => false
  end.
Definition strict_layout (s : bytes) : bool :=
  negb (bool_decide (s !! 12%nat = Some ":"%char)) && negb (bool_decide (s !! 19%nat = Some ","%char))
  && offset_in_range s.
Definition json_time (j : json) : option time :=
  match j with
  | JStr s => t ← ParseRFC3339 (lit s); if strict_layout (lit s) then Some t else None
  | _ => None
  end.

(** ** Wall clocks *)

Definition location := time -> Z.
Definition UTC : location := fun _ => 0.
Definition local_seconds (loc : location) (t : time) : Z := t / Second + loc t.
Definition local_hour (loc : location) (t : time) : Z := local_seconds loc t / 3600 mod 24.
(** The local date, as the number of its day. *)
Definition local_day (loc : location) (t : time) : Z := local_seconds loc t / 86400.

Lemma local_hour_bounds loc t : 0 <= local_hour loc t < 24.
Proof. unfold local_hour. apply Z.mod_pos_bound. lia. Qed.

(** An hour of a day is a window of 3600 seconds of that day. *)
Lemma local_hour_window loc t h :
  local_hour loc t = h ->
  local_day loc t * 86400 + h * 3600 <= local_seconds loc t < local_day loc t * 86400 + (h + 1) * 3600.
Proof.
  unfold local_hour, local_day. set (s := local_seconds loc t). intros <-.
  Z.to_euclidean_division_equations; lia.
Qed.


