(* ===== verification/AutonomousTurn.v ===== *)
(** * AutonomousTurn: the journaled form of an unprompted turn

    internal/core/autonomous_turn.go: a turn the model wrote without a user
    message is wrapped by [FormatAutonomousTurnNotification] into the text of
    a task notification and recognized again by
    [ParseAutonomousTurnNotification] at delivery.

    [uuid_String] and [uuid_Parse] are the third-party uuid package's text
    form and its parser; a UUID is a JSON string in the payload. *)

From Stdlib Require Import Ascii String.
From S2P Require Import Prelude GoStrings Json GoJson JsonText Base64 Task.

Definition autonomousTurnNotificationPrefix : bytes := lit "[blueship:autonomous-turn:v1]".

Record AutonomousTurnRequest := MkRequest {
  rq_UserID : uuid;
  rq_SoulID : uuid;
  rq_AnchorMessageID : string;
}.

Record AutonomousTurnDraft := MkDraft {
  dr_Text : string;
  dr_SessionID : string;
  dr_DialogMessageID : string;
  dr_ActivityToken : string;
  dr_NoOp : bool;
}.

Record AutonomousTurnCommit := MkCommit {
  cm_UserID : uuid;
  cm_SoulID : uuid;
  cm_AnchorMessageID : string;
  cm_SessionID : string;
  cm_DialogMessageID : string;
  cm_ActivityToken : string;
  cm_Text : string;
}.

Inductive AutonomousError : Type :=
| AUserSoulRequired
| AAnchorRequired
| ANotDeliverable
| ASessionRequired
| ADialogRequired
| AActivityRequired
| AMalformedMarker
| ADecode
| AUnmarshal
| AIncomplete.

#[global] Instance AutonomousError_eq_dec : EqDecision AutonomousError.
Proof. solve_decision. Defined.

Section codec.
Context (uuid_String : uuid -> string) (uuid_Parse : string -> option uuid).

(** The members [json.Marshal] writes for a commit. *)
Definition commit_members (c : AutonomousTurnCommit) : list (string * string) :=
  [("user_id", uuid_String (cm_UserID c)); ("soul_id", uuid_String (cm_SoulID c));
   ("anchor_message_id", cm_AnchorMessageID c); ("session_id", cm_SessionID c);
   ("dialog_message_id", cm_DialogMessageID c); ("activity_token", cm_ActivityToken c);
   ("text", cm_Text c)]%string.

Definition FormatAutonomousTurnNotification (req : AutonomousTurnRequest)
    (draft : AutonomousTurnDraft) : res AutonomousError string :=
  let txt := TrimSpace (dr_Text draft) in
  if N.eqb (rq_UserID req) uuid_Nil || N.eqb (rq_SoulID req) uuid_Nil
  then Err AUserSoulRequired
  else if blank (rq_AnchorMessageID req) then Err AAnchorRequired
  else if dr_NoOp draft || String.eqb txt "" then Err ANotDeliverable
  else if blank (dr_SessionID draft) then Err ASessionRequired
  else if blank (dr_DialogMessageID draft) then Err ADialogRequired
  else if blank (dr_ActivityToken draft) then Err AActivityRequired
  else
    let payload := marshal_struct (commit_members
      (MkCommit (rq_UserID req) (rq_SoulID req) (rq_AnchorMessageID req)
         (dr_SessionID draft) (dr_DialogMessageID draft) (dr_ActivityToken draft) txt)) in
    Ok (str (autonomousTurnNotificationPrefix ++ [chr 10] ++ EncodeToString payload)).

(** [json.Unmarshal] into the commit: a null document leaves it zero. *)
Definition as_uuid (j : json) : option uuid :=
  s ← as_string j; uuid_Parse s.
Definition decode_uuid := decode_field uuid_Nil as_uuid.
Definition unmarshal_commit (payload : bytes) : option AutonomousTurnCommit :=
  j ← Members payload;
  if is_object j || is_null j then
    u ← decode_uuid "user_id" j; s ← decode_uuid "soul_id" j;
    anchor ← decode_string "anchor_message_id" j; session ← decode_string "session_id" j;
    dialog ← decode_string "dialog_message_id" j; token ← decode_string "activity_token" j;
    txt ← decode_string "text" j;
    Some (MkCommit u s anchor session dialog token txt)
  else None.

Definition complete_commit (c : AutonomousTurnCommit) : bool :=
  negb (N.eqb (cm_UserID c) uuid_Nil || N.eqb (cm_SoulID c) uuid_Nil
        || blank (cm_AnchorMessageID c) || blank (cm_SessionID c)
        || blank (cm_DialogMessageID c) || blank (cm_ActivityToken c)
        || String.eqb (cm_Text c) "").

(** [Ok None] is an ordinary notification text. *)
Definition ParseAutonomousTurnNotification (txt : string)
    : res AutonomousError (option AutonomousTurnCommit) :=
  let raw := TrimSpace_b (lit txt) in
  if negb (HasPrefix raw autonomousTurnNotificationPrefix) then Ok None
  else
    let marker := autonomousTurnNotificationPrefix ++ [chr 10] in
    let encoded := TrimSpace_b (drop (length marker) raw) in
    if negb (HasPrefix raw marker) || bool_decide (encoded = []) then Err AMalformedMarker
    else match DecodeString encoded with
    | None => Err ADecode
    | Some payload =>
        match unmarshal_commit payload with
        | None => Err AUnmarshal
        | Some c =>
            let c := MkCommit (cm_UserID c) (cm_SoulID c) (cm_AnchorMessageID c)
              (cm_SessionID c) (cm_DialogMessageID c) (cm_ActivityToken c)
              (TrimSpace (cm_Text c)) in
            if complete_commit c then Ok (Some c) else Err AIncomplete
        end
    end.

(** ** The round trip *)

(** What the uuid package documents of its text form, and that the form is
    text. *)
Definition uuid_codec : Prop :=
  forall u, uuid_Parse (uuid_String u) = Some u /\ text_ok (uuid_String u).

Lemma unmarshal_marshal c :
  uuid_codec ->
  Forall text_ok [cm_AnchorMessageID c; cm_SessionID c; cm_DialogMessageID c;
                  cm_ActivityToken c; cm_Text c] ->
  unmarshal_commit (marshal_struct (commit_members c)) = Some c.
Proof.
  intros Hu Ht. destruct c as [u s anchor session dialog token txt]. simpl in Ht.
  destruct (Hu u) as [Hpu Htu], (Hu s) as [Hps Hts].
  repeat match goal with H : Forall _ (_ :: _) |- _ => apply Forall_cons in H as [? ?] end.
  unfold unmarshal_commit, commit_members.
  rewrite Members_struct by (repeat constructor; done).
  unfold as_members, decode_uuid, decode_string, decode_field, assign.
  cbn [fmap list_fmap prod_map fst snd id is_object is_null orb mbind option_bind fold_left
       cm_UserID cm_SoulID cm_AnchorMessageID cm_SessionID cm_DialogMessageID
       cm_ActivityToken cm_Text].
  repeat match goal with |- context [same_name ?x ?y] =>
    let v := eval vm_compute in (same_name x y) in change (same_name x y) with v end.
  cbn [mbind option_bind as_uuid as_string]. rewrite Hpu, Hps. reflexivity.
Qed.

Lemma base64_graphic c : base64_char c = true -> graphic c.
Proof.
  intros (d & Hd & ->%Ascii.eqb_eq)%existsb_exists. unfold graphic.
  assert (forallb (fun c => Z.ltb 32 (code c) && Z.ltb (code c) 128) alphabet = true) as H
    by (vm_compute; reflexivity).
  rewrite forallb_forall in H. apply H in Hd.
  apply andb_true_iff in Hd as [?%Z.ltb_lt ?%Z.ltb_lt]. lia.
Qed.

Lemma Encode_trimmed l :
  TrimSpace_b (EncodeToString l) = EncodeToString l
  /\ (l <> [] -> TrimSpace_b (autonomousTurnNotificationPrefix ++ [chr 10] ++ EncodeToString l)
                 = autonomousTurnNotificationPrefix ++ [chr 10] ++ EncodeToString l).
Proof.
  assert (Forall graphic (EncodeToString l)) as H.
  { eapply Forall_impl; [apply forallb_Forall, Encode_chars|]. exact base64_graphic. }
  apply Forall_graphic_ends in H as [Hl Hr]. split; [by apply TrimSpace_b_graphic|].
  intros Hne. apply TrimSpace_b_graphic; [by vm_compute|].
  rewrite !reverse_app. destruct (reverse (EncodeToString l)) as [|c r] eqn:E; [|done].
  exfalso. apply Hne, Encode_nil. rewrite <- (reverse_involutive (EncodeToString l)).
  by rewrite E.
Qed.

(** What a formatted turn parses to. *)
Definition committed (req : AutonomousTurnRequest) (draft : AutonomousTurnDraft)
    : AutonomousTurnCommit :=
  MkCommit (rq_UserID req) (rq_SoulID req) (rq_AnchorMessageID req) (dr_SessionID draft)
    (dr_DialogMessageID draft) (dr_ActivityToken draft) (TrimSpace (dr_Text draft)).

Definition texts (req : AutonomousTurnRequest) (draft : AutonomousTurnDraft) : list string :=
  [rq_AnchorMessageID req; dr_SessionID draft; dr_DialogMessageID draft;
   dr_ActivityToken draft; TrimSpace (dr_Text draft)].

(** C35: the round trip of the notification marker: the text a drafted turn is
    journaled as is recognized, and parses back to exactly the request's user,
    soul and anchor and the draft's session, dialogue message, activity token
    and trimmed text (for fields that are valid UTF-8 and the uuid package's
    documented parser). *)
Theorem autonomous_turn_roundtrip (Hu : uuid_codec) req draft out
    (Hf : FormatAutonomousTurnNotification req draft = Ok out)
    (Ht : Forall text_ok (texts req draft)) :
  ParseAutonomousTurnNotification out = Ok (Some (committed req draft)).
Proof.
  unfold FormatAutonomousTurnNotification in Hf. fold (committed req draft) in Hf.
  assert (complete_commit (committed req draft) = true
          /\ out = str (autonomousTurnNotificationPrefix ++ [chr 10]
               ++ EncodeToString (marshal_struct (commit_members (committed req draft)))))
    as [Hc ->].
  { unfold complete_commit. cbn [committed cm_UserID cm_SoulID cm_AnchorMessageID cm_SessionID
      cm_DialogMessageID cm_ActivityToken cm_Text].
    repeat (match type of Hf with (if ?b then Err _ else _) = _ => destruct b eqn:? end; [done|]).
    apply Ok_inj' in Hf as <-. split; [|done].
    repeat match goal with H : _ || _ = false |- _ => apply orb_false_iff in H as [? ?] end.
    repeat match goal with H : _ = false |- _ => rewrite H end. done. }
  assert (marshal_struct (commit_members (committed req draft)) <> []) as Hne by done.
  clear Hf.
  unfold ParseAutonomousTurnNotification. rewrite lit_str.
  destruct (Encode_trimmed (marshal_struct (commit_members (committed req draft)))) as [He Hp].
  rewrite (Hp Hne).
  set (enc := EncodeToString _) in *.
  rewrite (proj2 (HasPrefix_spec _ _)) by eauto.
  rewrite app_assoc, (proj2 (HasPrefix_spec _ (_ ++ [chr 10]))) by eauto.
  cbn [negb orb]. rewrite drop_app_length, He.
  rewrite bool_decide_eq_false_2 by (intros E%Encode_nil; done).
  unfold enc. rewrite Decode_Encode, unmarshal_marshal by done.
  cbn [cm_UserID cm_SoulID cm_AnchorMessageID cm_SessionID cm_DialogMessageID cm_ActivityToken
       cm_Text committed]. rewrite TrimSpace_idem. fold (committed req draft). by rewrite Hc.
Qed.
End codec.

(** ** A concrete UUID text form: the binary digits, least significant first *)

Fixpoint bits_of_pos (p : positive) : bytes :=
  match p with
  | xH => ["1"%char]
  | xO p => "0"%char :: bits_of_pos p
  | xI p => "1"%char :: bits_of_pos p
  end.
Fixpoint pos_of_bits (l : bytes) : option positive :=
  match l with
  | [] => None
  | [c] => if Ascii.eqb c "1"%char then Some xH else None
  | c :: l => p ← pos_of_bits l; Some (if Ascii.eqb c "1"%char then xI p else xO p)
  end.
Definition bits_String (u : uuid) : string :=
  match u with N0 => "" | Npos p => str (bits_of_pos p) end.
Definition bits_Parse (s : string) : option uuid :=
  match lit s with [] => Some N0 | l => Npos <$> pos_of_bits l end.

Lemma pos_of_bits_of p : pos_of_bits (bits_of_pos p) = Some p.
Proof.
  induction p as [p IH|p IH|]; [..|done]; cbn [bits_of_pos pos_of_bits]; rewrite IH;
    by destruct (bits_of_pos p).
Qed.

Lemma bits_text p : ValidString (bits_of_pos p) = true.
Proof. unfold ValidString. by induction p. Qed.

Lemma bits_codec : uuid_codec bits_String bits_Parse.
Proof.
  intros [|p]; [done|]. unfold bits_String, bits_Parse, text_ok. rewrite lit_str.
  split; [|apply bits_text]. pose proof (pos_of_bits_of p) as H.
  destruct (bits_of_pos p); [done|]. by rewrite H.
Qed.

Definition sample_request : AutonomousTurnRequest := MkRequest 5 9 "m-1".
Definition sample_draft : AutonomousTurnDraft :=
  MkDraft "  Look & <see> at 5"  "session-4" "m-7" "tok" false.

Lemma autonomous_turn_roundtrip_witness :
  exists out, FormatAutonomousTurnNotification bits_String sample_request sample_draft = Ok out
    /\ ParseAutonomousTurnNotification bits_Parse out
       = Ok (Some (committed sample_request sample_draft)).
Proof.
  destruct (FormatAutonomousTurnNotification bits_String sample_request sample_draft)
    as [out|e] eqn:Hf; [|exfalso; revert Hf; by vm_compute].
  exists out. split; [done|].
  refine (autonomous_turn_roundtrip bits_String bits_Parse bits_codec
    sample_request sample_draft out Hf _).
  repeat constructor.
Defined.
