(* ===== verification/Store.v ===== *)
(** * Store: the task tables and their transactions

    The PostgreSQL tables of the background-task store as one record, and the
    transactions of [AgentTaskStore] (internal/core) as a state-and-error
    monad.  A transaction body runs statement by statement; every statement
    reads the clocks and may fail.  [run_tx] is [BeginTxx] ... [Commit] with
    the deferred [Rollback]: a body that returns an error, or returns without
    committing, leaves the tables as they were.  A failing [Commit] is taken
    not to have been applied.

    Row locks ([FOR UPDATE], advisory locks) serialise the transactions on a
    task, so a transaction is one step of the store. *)

From Stdlib Require Import Ascii String.
From S2P Require Import Prelude GoStrings Json Task TaskPlan AutonomousTurn Conversation Projection.

Local Open Scope Z_scope.

(** ** Tables *)

Record TaskRun := MkTaskRun {
  r_TaskID : uuid;
  r_RunID : uuid;
  r_LeaseUntil : time;
  r_HeartbeatAt : time;
  r_NextAttemptAt : time;
  r_StartedAt : time;
}.

Record TaskArtifact := MkTaskArtifact {
  a_TaskID : uuid;
  a_Version : Z;
  a_Outcome : string;
  a_Body : string;
  a_Reason : string;
}.

Record TaskSubmission := MkTaskSubmission {
  sub_Output : string;
  sub_Notify : string;
  sub_Progress : json;
  sub_ToolCalls : json;
  sub_PendingDeliveries : json;
  sub_ReviewAttempts : Z;
  sub_NextReviewAt : time;
  sub_LastError : string;
}.

(** An empty [json.RawMessage] is [None], and so is a NULL. *)
Record TaskCheckpoint := MkTaskCheckpoint {
  cp_ClaimStartedAt : time;
  cp_Iteration : Z;
  cp_SessionID : string;
  cp_Phase : string;
  cp_Output : string;
  cp_Progress : option json;
  cp_ToolCalls : option json;
  cp_Receipts : option json;
  cp_PendingTool : option json;
}.

(** The notification journal: [agent_task_notification_attempts], the
    occurrences an attempt reserves and the ledger of delivered ones. *)
Inductive AttemptState : Type :=
| NDispatching | NRetryable | NSent | NUncertain | NRejected.
#[global] Instance AttemptState_eq_dec : EqDecision AttemptState.
Proof. solve_decision. Defined.

Record NotificationAttempt := MkNotificationAttempt {
  n_TaskID : uuid;
  n_UserID : uuid;
  n_OccurrenceKey : string;
  n_Text : string;
  n_State : AttemptState;
  n_Receipt : option json;
  n_Error : option string;
  n_AttemptCount : Z;
  n_NextAttemptAt : option time;
  n_LastAttemptAt : time;
  n_CreatedAt : time;
  n_ResolvedAt : option time;
}.

Record TaskDeliveryRef := MkRef { InputID : string; ItemKey : string }.
#[global] Instance TaskDeliveryRef_eq_dec : EqDecision TaskDeliveryRef.
Proof. solve_decision. Defined.
#[global] Instance TaskDeliveryRef_countable : Countable TaskDeliveryRef.
Proof.
  refine (inj_countable' (fun r => (InputID r, ItemKey r))
    (fun p => MkRef (fst p) (snd p)) _).
  by intros [].
Defined.

(** A row of [agent_task_notification_attempt_items]. *)
Record AttemptItem := MkItem {
  i_AttemptID : uuid;
  i_TaskID : uuid;
  i_Ref : TaskDeliveryRef;
}.

Record TaskIteration := MkTaskIteration {
  it_TaskID : uuid;
  it_Iteration : Z;
  it_Output : option string;
}.

(** The chat tables, as far as the autonomous turns touch them: rows of
    [chat_sessions] and [chat_messages]; a message's content is its block
    list. *)
Record ChatSession := MkChatSession {
  cs_UserID : uuid;
  cs_SoulID : uuid;
  cs_Source : string;
  cs_TokenCount : Z;
  cs_MessageCount : Z;
  cs_UpdatedAt : time;
}.

Record ChatMessage := MkChatMessage {
  m_SoulID : uuid;
  m_SessionID : uuid;
  m_Role : string;
  m_Content : list ContentBlock;
  m_TokenEstimate : Z;
  m_TgMessageID : option Z;
  m_CreatedAt : time;
  m_Projection : MessageProjection;
}.

(** [history_projected] is the attempts' column
    [autonomous_history_projected_at]. *)
Record db := MkDB {
  tasks : gmap uuid AgentTask;
  runs : gmap uuid TaskRun;
  steps : list TaskStep;
  artifacts : list TaskArtifact;
  submissions : gmap uuid TaskSubmission;
  checkpoints : gmap uuid TaskCheckpoint;
  iterations : list TaskIteration;
  notifications : gmap uuid NotificationAttempt;
  attempt_items : list AttemptItem;
  deliveries : gset (uuid * TaskDeliveryRef);
  dismissals : gset uuid;
  restarts : gmap uuid uuid;
  history_projected : gmap uuid time;
  chat_sessions : gmap uuid ChatSession;
  chat_messages : gmap uuid ChatMessage;
}.

Definition empty_db : db := MkDB ∅ ∅ [] [] ∅ ∅ [] ∅ [] ∅ ∅ ∅ ∅ ∅ ∅.

Definition with_tasks (v : gmap uuid AgentTask) (d : db) : db :=
  MkDB v (runs d) (steps d) (artifacts d) (submissions d) (checkpoints d)
    (iterations d) (notifications d) (attempt_items d) (deliveries d) (dismissals d) (restarts d)
    (history_projected d) (chat_sessions d) (chat_messages d).
Definition with_runs (v : gmap uuid TaskRun) (d : db) : db :=
  MkDB (tasks d) v (steps d) (artifacts d) (submissions d) (checkpoints d)
    (iterations d) (notifications d) (attempt_items d) (deliveries d) (dismissals d) (restarts d)
    (history_projected d) (chat_sessions d) (chat_messages d).
Definition with_steps (v : list TaskStep) (d : db) : db :=
  MkDB (tasks d) (runs d) v (artifacts d) (submissions d) (checkpoints d)
    (iterations d) (notifications d) (attempt_items d) (deliveries d) (dismissals d) (restarts d)
    (history_projected d) (chat_sessions d) (chat_messages d).
Definition with_artifacts (v : list TaskArtifact) (d : db) : db :=
  MkDB (tasks d) (runs d) (steps d) v (submissions d) (checkpoints d)
    (iterations d) (notifications d) (attempt_items d) (deliveries d) (dismissals d) (restarts d)
    (history_projected d) (chat_sessions d) (chat_messages d).
Definition with_submissions (v : gmap uuid TaskSubmission) (d : db) : db :=
  MkDB (tasks d) (runs d) (steps d) (artifacts d) v (checkpoints d)
    (iterations d) (notifications d) (attempt_items d) (deliveries d) (dismissals d) (restarts d)
    (history_projected d) (chat_sessions d) (chat_messages d).
Definition with_checkpoints (v : gmap uuid TaskCheckpoint) (d : db) : db :=
  MkDB (tasks d) (runs d) (steps d) (artifacts d) (submissions d) v
    (iterations d) (notifications d) (attempt_items d) (deliveries d) (dismissals d) (restarts d)
    (history_projected d) (chat_sessions d) (chat_messages d).
Definition with_iterations (v : list TaskIteration) (d : db) : db :=
  MkDB (tasks d) (runs d) (steps d) (artifacts d) (submissions d) (checkpoints d)
    v (notifications d) (attempt_items d) (deliveries d) (dismissals d) (restarts d)
    (history_projected d) (chat_sessions d) (chat_messages d).
Definition with_notifications (v : gmap uuid NotificationAttempt) (d : db) : db :=
  MkDB (tasks d) (runs d) (steps d) (artifacts d) (submissions d) (checkpoints d)
    (iterations d) v (attempt_items d) (deliveries d) (dismissals d) (restarts d)
    (history_projected d) (chat_sessions d) (chat_messages d).
Definition with_attempt_items (v : list AttemptItem) (d : db) : db :=
  MkDB (tasks d) (runs d) (steps d) (artifacts d) (submissions d) (checkpoints d)
    (iterations d) (notifications d) v (deliveries d) (dismissals d) (restarts d)
    (history_projected d) (chat_sessions d) (chat_messages d).
Definition with_deliveries (v : gset (uuid * TaskDeliveryRef)) (d : db) : db :=
  MkDB (tasks d) (runs d) (steps d) (artifacts d) (submissions d) (checkpoints d)
    (iterations d) (notifications d) (attempt_items d) v (dismissals d) (restarts d)
    (history_projected d) (chat_sessions d) (chat_messages d).
Definition with_dismissals (v : gset uuid) (d : db) : db :=
  MkDB (tasks d) (runs d) (steps d) (artifacts d) (submissions d) (checkpoints d)
    (iterations d) (notifications d) (attempt_items d) (deliveries d) v (restarts d)
    (history_projected d) (chat_sessions d) (chat_messages d).
Definition with_restarts (v : gmap uuid uuid) (d : db) : db :=
  MkDB (tasks d) (runs d) (steps d) (artifacts d) (submissions d) (checkpoints d)
    (iterations d) (notifications d) (attempt_items d) (deliveries d) (dismissals d) v
    (history_projected d) (chat_sessions d) (chat_messages d).
Definition with_history_projected (v : gmap uuid time) (d : db) : db :=
  MkDB (tasks d) (runs d) (steps d) (artifacts d) (submissions d) (checkpoints d)
    (iterations d) (notifications d) (attempt_items d) (deliveries d) (dismissals d) (restarts d)
    v (chat_sessions d) (chat_messages d).
Definition with_chat_sessions (v : gmap uuid ChatSession) (d : db) : db :=
  MkDB (tasks d) (runs d) (steps d) (artifacts d) (submissions d) (checkpoints d)
    (iterations d) (notifications d) (attempt_items d) (deliveries d) (dismissals d) (restarts d)
    (history_projected d) v (chat_messages d).
Definition with_chat_messages (v : gmap uuid ChatMessage) (d : db) : db :=
  MkDB (tasks d) (runs d) (steps d) (artifacts d) (submissions d) (checkpoints d)
    (iterations d) (notifications d) (attempt_items d) (deliveries d) (dismissals d) (restarts d)
    (history_projected d) (chat_sessions d) v.

(** [UPDATE t SET f WHERE p] and the count of affected rows. *)
Definition update_where {A} (p : A -> bool) (f : A -> A) (t : list A) : list A :=
  (fun r => if p r then f r else r) <$> t.
Definition affected {A} (p : A -> bool) (t : list A) : Z :=
  Z.of_nat (length (List.filter p t)).

(** [ORDER BY], [le] the order on rows; the sort is stable. *)
Fixpoint order_insert {A} (le : A -> A -> bool) (x : A) (l : list A) : list A :=
  match l with
  | [] => [x]
  | y :: l' => if le x y then x :: l else y :: order_insert le x l'
  end.
Definition order_by {A} (le : A -> A -> bool) (l : list A) : list A :=
  fold_right (order_insert le) [] l.

(** [UPDATE agent_tasks SET f WHERE id=id]. *)
Definition update_task (id : uuid) (f : AgentTask -> AgentTask) (d : db) : db :=
  with_tasks (alter f id (tasks d)) d.

(** ** The transaction monad *)

Inductive StoreError : Type :=
| EDatabase
| ENoRows
| ETaskClaimLost
| EInvalidLease
| EInvalidPlan (e : PlanError)
| EDuplicateKey
| EEmptyResult
| ERunningSteps
| EInvalidOutcome (outcome : string)
| ENoResult
| ENoExplanation
| EInvalidDeliveryRef
| EInvalidCheckpoint
| ETaskNotTerminal
| ETaskRestartUncertain
| ETaskNotRecurring
| ETaskActive
| EInvalidLimit
| EInvalidArgument (what : string)
| EOverlap
| EInvalidState (st : AttemptState)
| ENoRefs
| EAutonomousTurn (e : AutonomousError).

#[global] Instance PlanError_eq_dec : EqDecision PlanError.
Proof. solve_decision. Defined.
#[global] Instance StoreError_eq_dec : EqDecision StoreError.
Proof. solve_decision. Defined.

(** What a run of a transaction observes, indexed by the number of statements
    before: the database clock [clock_timestamp()], the host clock
    [time.Now()], the fresh identifiers and the statements that fail.
    [ctx_run] is the coordinator's run ID carried by the context
    ([uuid_Nil] when there is none). *)
Record env := MkEnv {
  clk : nat -> time;
  wall : nat -> time;
  fresh : nat -> uuid;
  fault : nat -> bool;
  ctx_run : uuid;
}.

Definition Tx (A : Type) : Type :=
  env -> nat -> db -> res StoreError (A * nat * db).

#[global] Instance tx_ret : MRet Tx := fun A a e n d => Ok (a, n, d).
#[global] Instance tx_bind : MBind Tx := fun A B k t e n d =>
  match t e n d with
  | Ok (a, n', d') => k a e n' d'
  | Err x => Err x
  end.

Definition throw {A} (x : StoreError) : Tx A := fun e n d => Err x.

(** One SQL statement. *)
Definition stmt {A} (f : time -> db -> res StoreError (A * db)) : Tx A :=
  fun e n d =>
    if fault e n then Err EDatabase
    else match f (clk e n) d with
         | Ok (a, d') => Ok (a, S n, d')
         | Err x => Err x
         end.
Definition query {A} (f : time -> db -> A) : Tx A :=
  stmt (fun now d => Ok (f now d, d)).
Definition exec (f : time -> db -> db) : Tx unit :=
  stmt (fun now d => Ok (tt, f now d)).
(** An UPDATE of which the program reads the affected-row count. *)
Definition exec_count (f : time -> db -> Z * db) : Tx Z :=
  stmt (fun now d => Ok (f now d)).

Definition time_Now : Tx time := fun e n d => Ok (wall e n, S n, d).
Definition uuid_New : Tx uuid := fun e n d => Ok (fresh e n, S n, d).
Definition ctx_run_id : Tx uuid := fun e n d => Ok (ctx_run e, n, d).
(** [now()]: the start of the transaction. *)
Definition tx_now : Tx time := fun e n d => Ok (clk e 0%nat, n, d).

(** How a body ends. *)
Inductive ending (A : Type) : Type :=
| Commit (a : A)
| Rollback (a : A).
Arguments Commit {A} a.
Arguments Rollback {A} a.

Definition Op (A : Type) : Type := env -> db -> res StoreError A * db.

Definition run_tx {A} (body : Tx (ending A)) : Op A := fun e d =>
  if fault e 0%nat then (Err EDatabase, d)
  else match body e 1%nat d with
       | Err x => (Err x, d)
       | Ok (Rollback a, _, _) => (Ok a, d)
       | Ok (Commit a, n, d') =>
           if fault e n then (Err EDatabase, d) else (Ok a, d')
       end.

(** The environment a second call sees after [k] observations. *)
Definition later (k : nat) (e : env) : env :=
  MkEnv (fun n => clk e (k + n)%nat) (fun n => wall e (k + n)%nat)
    (fun n => fresh e (k + n)%nat) (fun n => fault e (k + n)%nat) (ctx_run e).

(** A single autocommitted statement. *)
Definition autocommit {A} (t : Tx A) : Op A := fun e d =>
  match t e 0%nat d with
  | Ok (a, _, d') => (Ok a, d')
  | Err x => (Err x, d)
  end.

(** ** Lemmas *)

Lemma tx_bind_Ok {A B} (t : Tx A) (k : A -> Tx B) e n d r :
  (t ≫= k) e n d = Ok r <->
  exists a n' d', t e n d = Ok (a, n', d') /\ k a e n' d' = Ok r.
Proof.
  unfold mbind, tx_bind. destruct (t e n d) as [[[a n'] d']|x]; split.
  - eauto.
  - by intros (? & ? & ? & [= -> -> ->] & ?).
  - done.
  - by intros (? & ? & ? & ? & ?).
Qed.

Lemma stmt_Ok {A} (f : time -> db -> res StoreError (A * db)) e n d a n' d' :
  stmt f e n d = Ok (a, n', d') <->
  fault e n = false /\ n' = S n /\ f (clk e n) d = Ok (a, d').
Proof.
  unfold stmt. destruct (fault e n); [by split; [|intros (? & ? & ?)]|].
  destruct (f (clk e n) d) as [[a1 d1]|x].
  - split; [by intros [= -> <- ->]|by intros (_ & -> & [= -> ->])].
  - by split; [|intros (? & ? & ?)].
Qed.

Lemma query_Ok {A} (f : time -> db -> A) e n d a n' d' :
  query f e n d = Ok (a, n', d') <->
  fault e n = false /\ n' = S n /\ a = f (clk e n) d /\ d' = d.
Proof.
  unfold query. rewrite stmt_Ok.
  split; [by intros (? & ? & [= <- <-])|by intros (? & ? & -> & ->)].
Qed.

Lemma exec_Ok (f : time -> db -> db) e n d a n' d' :
  exec f e n d = Ok (a, n', d') <->
  fault e n = false /\ n' = S n /\ d' = f (clk e n) d.
Proof.
  unfold exec. rewrite stmt_Ok. destruct a.
  split; [by intros (? & ? & [= <-])|by intros (? & ? & ->)].
Qed.

Lemma exec_count_Ok (f : time -> db -> Z * db) e n d a n' d' :
  exec_count f e n d = Ok (a, n', d') <->
  fault e n = false /\ n' = S n /\ (a, d') = f (clk e n) d.
Proof.
  unfold exec_count. rewrite stmt_Ok.
  split; [by intros (? & ? & [= <-])|by intros (? & ? & <-)].
Qed.

Lemma ret_Ok {A} (x : A) e n d a n' d' :
  (mret x : Tx A) e n d = Ok (a, n', d') <-> a = x /\ n' = n /\ d' = d.
Proof.
  unfold mret, tx_ret. split; [by intros [= -> -> ->]|by intros (-> & -> & ->)].
Qed.

(** A transaction that reports an error changed nothing. *)
Lemma run_tx_err {A} (body : Tx (ending A)) e d x d' :
  run_tx body e d = (Err x, d') -> d' = d.
Proof.
  unfold run_tx. intros. crush_match; done.
Qed.

Lemma run_tx_Ok {A} (body : Tx (ending A)) e d a d' :
  run_tx body e d = (Ok a, d') ->
  fault e 0%nat = false /\
  exists n d1, (body e 1%nat d = Ok (Commit a, n, d1) /\ d' = d1) \/
               (body e 1%nat d = Ok (Rollback a, n, d1) /\ d' = d).
Proof. unfold run_tx. intros. crush_match; split; eauto. Qed.

(** Every change a transaction makes is a committed run of its body. *)
Lemma run_tx_cases {A} (body : Tx (ending A)) e d r d' :
  run_tx body e d = (r, d') ->
  d' = d \/ exists a n, body e 1%nat d = Ok (Commit a, n, d') /\ r = Ok a.
Proof. unfold run_tx. intros. crush_match; eauto. Qed.

Lemma autocommit_cases {A} (t : Tx A) e d r d' :
  autocommit t e d = (r, d') ->
  d' = d \/ exists a n, t e 0%nat d = Ok (a, n, d') /\ r = Ok a.
Proof. unfold autocommit. intros. crush_match; eauto. Qed.

Lemma autocommit_Ok {A} (t : Tx A) e d a d' :
  autocommit t e d = (Ok a, d') -> exists n, t e 0%nat d = Ok (a, n, d').
Proof. unfold autocommit. intros. crush_match; eauto. Qed.

(** [tx_inv] splits a successful run of a body into its statements. *)
Ltac tx_inv :=
  repeat match goal with
  | H : (_ ≫= _) _ _ _ = Ok _ |- _ =>
      apply tx_bind_Ok in H as (? & ? & ? & ? & H)
  | H : query _ _ _ _ = Ok _ |- _ => apply query_Ok in H as (? & ? & ? & ?)
  | H : exec _ _ _ _ = Ok _ |- _ => apply exec_Ok in H as (? & ? & ?)
  | H : exec_count _ _ _ _ = Ok _ |- _ =>
      apply exec_count_Ok in H as (? & ? & ?)
  | H : stmt _ _ _ _ = Ok _ |- _ => apply stmt_Ok in H as (? & ? & ?)
  | H : mret _ _ _ _ = Ok _ |- _ => apply ret_Ok in H as (? & ? & ?)
  | H : throw _ _ _ _ = Ok _ |- _ => discriminate H
  | H : time_Now _ _ _ = Ok _ |- _ => unfold time_Now in H
  | H : uuid_New _ _ _ = Ok _ |- _ => unfold uuid_New in H
  | H : ctx_run_id _ _ _ = Ok _ |- _ => unfold ctx_run_id in H
  | H : tx_now _ _ _ = Ok _ |- _ => unfold tx_now in H
  | _ => progress simplify_eq
  end.

(** Sorting keeps the rows. *)
Lemma order_insert_Permutation {A} (le : A -> A -> bool) y l : order_insert le y l ≡ₚ y :: l.
Proof.
  induction l as [|z l IH]; simpl; [done|]. destruct (le y z); [done|]. rewrite IH. apply Permutation_swap.
Qed.
Lemma order_by_Permutation {A} (le : A -> A -> bool) l : order_by le l ≡ₚ l.
Proof. induction l as [|y l IH]; [done|]. simpl. by rewrite order_insert_Permutation, IH. Qed.

Lemma update_where_elem {A} (p : A -> bool) f (t : list A) r :
  r ∈ update_where p f t <->
  exists r0, r0 ∈ t /\ r = if p r0 then f r0 else r0.
Proof. unfold update_where. rewrite list_elem_of_fmap. naive_solver. Qed.

Lemma affected_zero {A} (p : A -> bool) (t : list A) :
  affected p t = 0 <-> forall r, r ∈ t -> p r = false.
Proof.
  unfold affected. induction t as [|x t IH]; simpl; [set_solver|].
  destruct (p x) eqn:E; simpl.
  - split; [lia|]. intros H. rewrite H in E; [done|set_solver].
  - rewrite IH. set_solver.
Qed.

Lemma affected_pos {A} (p : A -> bool) (t : list A) :
  affected p t <> 0 <-> exists r, r ∈ t /\ p r = true.
Proof.
  unfold affected. induction t as [|x t IH]; simpl; [set_solver|].
  destruct (p x) eqn:E; simpl.
  - split; [|lia]. intros _. exists x. set_solver.
  - rewrite IH. split; [set_solver|]. intros (r & [->|?]%elem_of_cons & ?); [congruence|eauto].
Qed.
