(* ===== verification/StepStore.v ===== *)
(** * StepStore: transactions on graph steps and coordinator runs

    internal/core/task_steps.go ([SaveTaskSteps], [ClaimTaskStep],
    [CheckpointTaskStep], [CompleteTaskStep], [RecoverTaskSteps],
    [FailTaskStepAfter], [ResolveStuckTaskSteps]) and
    internal/core/task_run.go ([ClaimGraphTask], [RenewGraphTask],
    [YieldGraphTask], [SaveGraphProgress]).  The SQL statements are
    transcribed: their WHERE clauses as boolean row predicates, their SET
    clauses as row updates. *)

From Stdlib Require Import Ascii String.
From S2P Require Import Prelude GoStrings Json Task TaskPlan Store.

Local Open Scope Z_scope.

Definition MaxConcurrentGraphTasksPerUser : Z := 2.

(** The [start_at] gate [graphStartAtSQL]: [start_at cfg] is the instant the
    task configuration names ([None] when absent or malformed). *)
Definition start_gate (start_at : json -> option time) (t : AgentTask)
    (now : time) : bool :=
  match start_at (Config t) with Some s => Z.leb s now | None => true end.

(** ** Locking *)

Definition requireTaskRun (id : uuid) : Tx unit :=
  run ← ctx_run_id;
  if N.eqb run uuid_Nil then throw ETaskClaimLost
  else
    current ← query (fun now d =>
      match runs d !! id with
      | Some r => N.eqb (r_RunID r) run && Z.ltb now (r_LeaseUntil r)
      | None => false
      end);
    if (current : bool) then mret tt else throw ETaskClaimLost.

Definition claim_matches (claim : option time) (t : AgentTask) : bool :=
  match claim with
  | None => true
  | Some c => match LastRunAt t with Some l => Z.eqb l c | None => false end
  end.

(** The deadline test of a lock that asks for one. *)
Definition deadline_live (dl : option time) : Tx unit :=
  match dl with
  | Some t =>
      live ← query (fun now _ => Z.ltb now t);
      if (live : bool) then mret tt else throw ETaskClaimLost
  | None => mret tt
  end.

Definition lockTaskExecution (id : uuid) (claim : option time)
    (deadline : bool) : Tx unit :=
  row ← query (fun _ d => tasks d !! id);
  match (row : option AgentTask) with
  | None => throw ETaskClaimLost
  | Some task =>
      if bool_decide (Status task <> TRunning) || negb (claim_matches claim task)
      then throw ETaskClaimLost
      else
        _ ← deadline_live (if deadline then Deadline task else None);
        if Z.eqb (ExecutorVersion task) 2 then requireTaskRun id else mret tt
  end.

Definition lease_ok (lease : duration) : bool :=
  Z.leb Second lease && Z.leb lease (10 * Minute).

(** [n*interval '1 millisecond']. *)
Definition interval_ms (n : Z) : duration := n * Millisecond.

(** ** Steps *)

Definition same_step (id : uuid) (sid : string) (s : TaskStep) : bool :=
  N.eqb (s_TaskID s) id && String.eqb (s_ID s) sid.

Definition insert_step (id : uuid) (s : TaskStep) (next : time) : TaskStep :=
  MkTaskStep id (s_ID s) (s_Goal s) (s_Acceptance s) (s_Kind s)
    (s_Dependencies s) (s_Tools s) SPending "" (JObj []) 0
    (if Z.eqb (s_MaxAttempts s) 0 then 3 else s_MaxAttempts s) next ""
    None None None None None None (s_EstimatedMS s).

Fixpoint insert_steps (id : uuid) (l : list TaskStep) : Tx unit :=
  match l with
  | [] => mret tt
  | s :: rest =>
      now0 ← tx_now;
      _ ← stmt (fun _ d =>
        if existsb (same_step id (s_ID s)) (steps d) then Err EDuplicateKey
        else Ok (tt, with_steps (steps d ++ [insert_step id s now0]) d));
      insert_steps id rest
  end.

Definition SaveTaskSteps (order : gmap string TaskStep -> list string)
    (id : uuid) (claim : time) (l : list TaskStep) : Op unit := fun e d =>
  match ValidateTaskSteps order l with
  | Err x => (Err (EInvalidPlan x), d)
  | Ok _ =>
      run_tx (_ ← lockTaskExecution id (Some claim) false;
              _ ← insert_steps id l;
              mret (Commit tt)) e d
  end.

(** Dependencies and peers of a candidate row [s]. *)
Definition dep_done (t : list TaskStep) (s : TaskStep) (dep : string) : bool :=
  existsb (fun p => same_step (s_TaskID s) dep p
                    && bool_decide (s_Status p = SDone)) t.
Definition conflicting_peer (s peer : TaskStep) : bool :=
  N.eqb (s_TaskID peer) (s_TaskID s)
  && sstatus_in (s_Status peer) [SRunning; SReconciliation]
  && (negb (String.eqb (s_Kind s) "read") || negb (String.eqb (s_Kind peer) "read")).
Definition claimable (t : list TaskStep) (now : time) (s : TaskStep) : bool :=
  bool_decide (s_Status s = SPending) && Z.leb (s_NextAttemptAt s) now
  && Z.ltb (s_Attempts s) (s_MaxAttempts s)
  && negb (existsb (conflicting_peer s) t)
  && forallb (dep_done t s) (s_Dependencies s).

Definition coalesce {A} (o : option A) (v : A) : A :=
  match o with Some x => x | None => v end.

Definition claim_row (run : uuid) (lease : duration) (now : time) (s : TaskStep)
    : TaskStep :=
  MkTaskStep (s_TaskID s) (s_ID s) (s_Goal s) (s_Acceptance s) (s_Kind s)
    (s_Dependencies s) (s_Tools s) SRunning (s_Result s) (s_Checkpoint s)
    (s_Attempts s + 1) (s_MaxAttempts s) (s_NextAttemptAt s) (s_LastError s)
    (Some run) (Some (now + interval_ms (Milliseconds lease))) (Some now)
    (Some (coalesce (s_StartedAt s) now)) (s_CompletedAt s) (s_ProgressAt s)
    (s_EstimatedMS s).

Definition ClaimTaskStep (id : uuid) (sid : string) (lease : duration)
    : Op (option TaskStep) := fun e d =>
  if negb (lease_ok lease) then (Err EInvalidLease, d)
  else run_tx (
    _ ← lockTaskExecution id None true;
    run ← uuid_New;
    claimed ← stmt (fun now d =>
      let p s := same_step id sid s && claimable (steps d) now s in
      Ok (head (claim_row run lease now <$> List.filter p (steps d)),
          with_steps (update_where p (claim_row run lease now) (steps d)) d));
    match (claimed : option TaskStep) with
    | None => mret (Rollback None)
    | Some s => mret (Commit (Some s))
    end) e d.

(** A worker owns the row it writes. *)
Definition owns (id : uuid) (sid : string) (run : uuid) (now : time)
    (s : TaskStep) : bool :=
  same_step id sid s && bool_decide (s_RunID s = Some run)
  && bool_decide (s_Status s = SRunning)
  && match s_LeaseUntil s with Some l => Z.ltb now l | None => false end.

Definition complete_row (result : string) (now : time) (s : TaskStep) : TaskStep :=
  set_s_LeaseUntil None (set_s_ProgressAt (Some now) (set_s_CompletedAt (Some now)
    (set_s_Result result (set_s_Status SDone s)))).

(** [checkpoint IS DISTINCT FROM $4] needs equality of documents. *)
Fixpoint json_eqb (x y : json) : bool :=
  match x, y with
  | JNull, JNull => true
  | JBool a, JBool b => Bool.eqb a b
  | JNum a, JNum b => String.eqb a b
  | JStr a, JStr b => String.eqb a b
  | JArr a, JArr b =>
      (fix go (a b : list json) : bool :=
         match a, b with
         | [], [] => true
         | x :: a, y :: b => json_eqb x y && go a b
         | _, _ => false
         end) a b
  | JObj a, JObj b =>
      (fix go (a b : list (string * json)) : bool :=
         match a, b with
         | [], [] => true
         | (k, x) :: a, (l, y) :: b => String.eqb k l && json_eqb x y && go a b
         | _, _ => false
         end) a b
  | _, _ => false
  end.

Definition checkpoint_row (cp : option json) (lease : duration) (now : time)
    (s : TaskStep) : TaskStep :=
  let progressed := match cp with
                    | Some c => negb (json_eqb (s_Checkpoint s) c)
                    | None => false
                    end in
  set_s_LeaseUntil (Some (now + interval_ms (Milliseconds lease)))
    (set_s_HeartbeatAt (Some now)
      (set_s_Checkpoint (coalesce cp (s_Checkpoint s))
        (set_s_ProgressAt (if progressed then Some now else s_ProgressAt s) s))).

Definition updateTaskStep (id : uuid) (sid : string) (run : uuid)
    (complete : bool) (result : string) (cp : option json) (lease : duration)
    : Op unit := run_tx (
  _ ← lockTaskExecution id None true;
  n ← exec_count (fun now d =>
    let p := owns id sid run now in
    let f := if complete then complete_row result now
             else checkpoint_row cp lease now in
    (affected p (steps d), with_steps (update_where p f (steps d)) d));
  if Z.eqb n 0 then throw ETaskClaimLost else mret (Commit tt)).

Definition CheckpointTaskStep (id : uuid) (sid : string) (run : uuid)
    (lease : duration) (cp : option json) : Op unit := fun e d =>
  if negb (lease_ok lease) then (Err EInvalidLease, d)
  else updateTaskStep id sid run false "" cp lease e d.

Definition CompleteTaskStep (id : uuid) (sid : string) (run : uuid)
    (result : string) : Op unit := fun e d =>
  if blank result then (Err EEmptyResult, d)
  else updateTaskStep id sid run true result None 0 e d.

(** [btrim] strips spaces only. *)
Definition is_space32 (c : ascii) : bool := Nat.eqb (nat_of_ascii c) 32.
Fixpoint drop_spaces (l : bytes) : bytes :=
  match l with
  | c :: l' => if is_space32 c then drop_spaces l' else l
  | [] => []
  end.
Definition btrim (s : string) : string :=
  str (reverse (drop_spaces (reverse (drop_spaces (lit s))))).

(** [stepNeedsReconciliationSQL]: an effect that may have happened. *)
Definition verification_candidate (cp : json) : bool :=
  match text "candidate_ready" cp with
  | Some r => String.eqb r "true"
  | None => false
  end
  && match text "phase" cp with
     | Some p => String.eqb p "verification" || String.eqb p "verified"
     | None => false
     end
  && is_json_string (field "output" cp)
  && match text "output" cp with
     | Some o => negb (String.eqb (btrim o) "")
     | None => false
     end
  && match field "pending_tool" cp with
     | None | Some JNull => true
     | Some _ => false
     end.
Definition stepNeedsReconciliation (s : TaskStep) : bool :=
  negb (String.eqb (s_Kind s) "read")
  && negb (String.eqb (s_Kind s) "finalize" && bool_decide (s_Tools s = []))
  && negb (verification_candidate (s_Checkpoint s)).

Definition recovered_status (s : TaskStep) : StepStatus :=
  if stepNeedsReconciliation s then SReconciliation
  else if Z.leb (s_MaxAttempts s) (s_Attempts s) then SBlocked
  else SPending.

Definition lease_expired (now : time) (s : TaskStep) : bool :=
  match s_LeaseUntil s with Some l => Z.leb l now | None => false end.

Definition RecoverTaskSteps (id : uuid) : Op unit := run_tx (
  _ ← lockTaskExecution id None false;
  _ ← exec (fun now d => with_steps (update_where
        (fun s => N.eqb (s_TaskID s) id && bool_decide (s_Status s = SRunning)
                  && lease_expired now s)
        (fun s => set_s_LeaseUntil None (set_s_Status (recovered_status s) s))
        (steps d)) d);
  mret (Commit tt)).

Definition failed_status (retryable : bool) (s : TaskStep) : StepStatus :=
  if stepNeedsReconciliation s then SReconciliation
  else if retryable && Z.ltb (s_Attempts s) (s_MaxAttempts s) then SPending
  else SBlocked.

Definition backoff_ms (attempts delay_ms : Z) : Z :=
  Z.max (Z.min 60 (5 * attempts) * 1000) delay_ms.

Definition fail_row (reason : string) (retryable : bool) (delay : duration)
    (now : time) (s : TaskStep) : TaskStep :=
  set_s_LeaseUntil None
    (set_s_NextAttemptAt
       (now + interval_ms (backoff_ms (s_Attempts s) (Z.max 0 (Milliseconds delay))))
       (set_s_Status (failed_status retryable s) (set_s_LastError reason s))).

Definition FailTaskStepAfter (id : uuid) (sid : string) (run : uuid)
    (reason : string) (retryable : bool) (delay : duration) : Op unit := run_tx (
  _ ← lockTaskExecution id None false;
  n ← exec_count (fun now d =>
    let p := owns id sid run now in
    (affected p (steps d),
     with_steps (update_where p (fail_row reason retryable delay now) (steps d)) d));
  if Z.eqb n 0 then throw ETaskClaimLost else mret (Commit tt)).

Definition FailTaskStep (id : uuid) (sid : string) (run : uuid)
    (reason : string) (retryable : bool) : Op unit :=
  FailTaskStepAfter id sid run reason retryable 0.

(** [NULLIF(btrim(x),'')]. *)
Definition nonblank (o : option string) : option string :=
  match o with
  | Some x => if String.eqb (btrim x) "" then None else Some (btrim x)
  | None => None
  end.
Definition nl : string := String (chr 10) EmptyString.
Definition stuck_result (s : TaskStep) : string :=
  (let saved := match nonblank (text "output" (s_Checkpoint s)) with
                | Some o => o
                | None => coalesce (nonblank (text "last_candidate" (s_Checkpoint s))) ""
                end in
   btrim (saved ++ nl ++ nl
     ++ "[unverified_step_result]" ++ nl
     ++ "This step could not be completed: "
     ++ coalesce (nonblank (Some (s_LastError s))) "no confirmed result" ++ nl
     ++ "Use only facts its sources support and state this gap explicitly in the deliverable."
     ++ nl ++ "[/unverified_step_result]"))%string.

Definition is_stuck (id : uuid) (s : TaskStep) : bool :=
  N.eqb (s_TaskID s) id && sstatus_in (s_Status s) [SBlocked; SReconciliation]
  && negb (String.eqb (s_Kind s) "finalize").

Definition ResolveStuckTaskSteps (id : uuid) : Op Z := run_tx (
  _ ← lockTaskExecution id None false;
  n ← exec_count (fun now d =>
    (affected (is_stuck id) (steps d),
     with_steps (update_where (is_stuck id)
       (fun s => set_s_Result (stuck_result s) (set_s_LeaseUntil None
          (set_s_CompletedAt (Some now) (set_s_Status SDone s)))) (steps d)) d));
  mret (Commit n)).

(** ** Coordinator runs *)

Definition counts_against (d : db) (user id : uuid) (now : time)
    (p : uuid * TaskRun) : bool :=
  negb (N.eqb (fst p) id)
  && match tasks d !! fst p with
     | Some t => N.eqb (UserID t) user && Z.eqb (ExecutorVersion t) 2
                 && tstatus_in (Status t) [TPending; TRunning]
     | None => false
     end
  && Z.ltb now (r_LeaseUntil (snd p)).

(** Live coordinators of [user] on tasks other than [id]. *)
Definition active_others (d : db) (user id : uuid) (now : time) : Z :=
  affected (counts_against d user id now) (map_to_list (runs d)).

Definition claimable_task (start_at : json -> option time) (now : time)
    (t : AgentTask) : bool :=
  Z.eqb (ExecutorVersion t) 2 && tstatus_in (Status t) [TPending; TRunning]
  && match Deadline t with Some dl => Z.ltb now dl | None => true end
  && start_gate start_at t now.

Definition claim_run (id run : uuid) (lease : duration) (now now0 : time)
    (old : option TaskRun) : option TaskRun :=
  let until := now + interval_ms (Milliseconds lease) in
  match old with
  | None => Some (MkTaskRun id run until now now0 now0)
  | Some r =>
      if Z.leb (r_LeaseUntil r) now && Z.leb (r_NextAttemptAt r) now
      then Some (MkTaskRun id run until now (r_NextAttemptAt r) now)
      else None
  end.

Definition running_progress (p : json) : json :=
  concat (minus (match p with JNull => JObj [] | _ => p end) "next_attempt_at")
    (JObj [("phase"%string, JStr "running")]).

Definition ClaimGraphTask (start_at : json -> option time) (id : uuid)
    (lease : duration) : Op (option TaskRun) := fun e d =>
  if negb (lease_ok lease) then (Err EInvalidLease, d)
  else run_tx (
    row ← query (fun now d =>
      match tasks d !! id with
      | Some t => if claimable_task start_at now t then Some t else None
      | None => None
      end);
    match (row : option AgentTask) with
    | None => mret (Rollback None)
    | Some task =>
        _ ← query (fun _ _ => tt); (* the owner's advisory lock *)
        active ← query (fun now d => active_others d (UserID task) id now);
        if Z.leb MaxConcurrentGraphTasksPerUser active
        then mret (Rollback None)
        else
          run ← uuid_New;
          now0 ← tx_now;
          claimed ← stmt (fun now d =>
            match claim_run id run lease now now0 (runs d !! id) with
            | Some r => Ok (Some r, with_runs (<[id := r]> (runs d)) d)
            | None => Ok (None, d)
            end);
          match (claimed : option TaskRun) with
          | None => mret (Rollback None)
          | Some r =>
              _ ← exec (fun now => update_task id (fun t =>
                set_Progress (running_progress (Progress t))
                  (set_LastRunAt (Some now) (set_Status TRunning t))));
              _ ← exec (fun _ d => with_steps (update_where
                (fun s => N.eqb (s_TaskID s) id
                          && bool_decide (s_Status s = SRunning))
                (fun s => set_s_LastError "coordinator lease lost"
                  (set_s_LeaseUntil None (set_s_Status (recovered_status s) s)))
                (steps d)) d);
              mret (Commit (Some r))
          end
    end) e d.

Definition set_r_lease (until hb : time) (r : TaskRun) : TaskRun :=
  MkTaskRun (r_TaskID r) (r_RunID r) until hb (r_NextAttemptAt r) (r_StartedAt r).

Definition RenewGraphTask (id : uuid) (lease : duration) : Op unit := fun e d =>
  if negb (lease_ok lease) then (Err EInvalidLease, d)
  else run_tx (
    _ ← lockTaskExecution id None true;
    _ ← requireTaskRun id;
    _ ← exec (fun now d => with_runs (alter
          (set_r_lease (now + interval_ms (Milliseconds lease)) now) id (runs d)) d);
    mret (Commit tt)) e d.

(** PostgreSQL's text form of a timestamp is the library's. *)
Definition YieldGraphTask (timestamp_text : time -> string) (id : uuid)
    (next : time) : Op unit := run_tx (
  _ ← lockTaskExecution id None false;
  _ ← requireTaskRun id;
  active ← query (fun _ d => existsb (fun s =>
             N.eqb (s_TaskID s) id && bool_decide (s_Status s = SRunning)) (steps d));
  if (active : bool) then throw ERunningSteps
  else
    _ ← exec (fun now d => with_runs (alter (fun r =>
          MkTaskRun (r_TaskID r) (r_RunID r) now (r_HeartbeatAt r) next (r_StartedAt r))
          id (runs d)) d);
    _ ← exec (fun _ => update_task id (fun t =>
          set_Progress (concat (match Progress t with JNull => JObj [] | p => p end)
            (JObj [("phase"%string, JStr "retry_wait");
                   ("next_attempt_at"%string, JStr (timestamp_text next))]))
            (set_Status TPending t)));
    mret (Commit tt)).

Definition SaveGraphProgress (id : uuid) (progress : json) : Op unit := run_tx (
  _ ← lockTaskExecution id None true;
  _ ← exec (fun _ => update_task id (fun t =>
        set_Progress (concat (match Progress t with JNull => JObj [] | p => p end)
          progress) t));
  mret (Commit tt)).
