(* ===== verification/StepInv.v ===== *)
(** * StepInv: the invariants of the step table

    The life of a graph step as a relation on rows ([life]), the well-formed
    step table ([steps_inv]) and the proof that every transaction of
    [StepStore] keeps it: keys are unique, an effectful step runs alone,
    started steps have confirmed dependencies, attempts stay within their
    budget. *)

From Stdlib Require Import Ascii String.
From S2P Require Import Prelude GoStrings Json Task TaskPlan Store StepStore.

Local Open Scope Z_scope.

Definition skey (s : TaskStep) : uuid * string := (s_TaskID s, s_ID s).
Definition is_active (s : TaskStep) : bool :=
  sstatus_in (s_Status s) [SRunning; SReconciliation].
Definition is_read (s : TaskStep) : bool := String.eqb (s_Kind s) "read".

(** The columns no transaction rewrites. *)
Definition same_identity (s s' : TaskStep) : Prop :=
  skey s' = skey s /\ s_Kind s' = s_Kind s /\ s_Tools s' = s_Tools s
  /\ s_Dependencies s' = s_Dependencies s /\ s_MaxAttempts s' = s_MaxAttempts s.

(** The life of a step, claims apart. *)
Inductive life : TaskStep -> TaskStep -> Prop :=
| life_keep s : life s s
| life_checkpoint s s' :
    same_identity s s' -> s_Attempts s' = s_Attempts s ->
    s_Status s = SRunning -> s_Status s' = SRunning -> life s s'
| life_release s s' :
    same_identity s s' -> s_Attempts s' = s_Attempts s ->
    s_Status s = SRunning -> s_Status s' <> SRunning ->
    (s_Status s' = SReconciliation -> is_read s = false) ->
    (s_Status s' = SPending -> s_Attempts s < s_MaxAttempts s) ->
    (s_Status s' = SPending \/ s_Status s' = SBlocked ->
     stepNeedsReconciliation s' = false) -> life s s'
| life_resolve s s' :
    same_identity s s' -> s_Attempts s' = s_Attempts s ->
    sstatus_in (s_Status s) [SBlocked; SReconciliation] = true ->
    s_Status s' = SDone -> life s s'.

Lemma life_identity s s' : life s s' -> same_identity s s' /\ s_Attempts s' = s_Attempts s.
Proof. intros []; [by split|by split..]. Qed.

Lemma life_done s s' : life s s' -> s_Status s = SDone -> s' = s.
Proof. intros [] Hd; try done; rewrite Hd in *; done. Qed.

Lemma life_reconciliation s s' :
  life s s' -> s_Status s = SReconciliation ->
  s' = s \/ s_Status s' = SDone.
Proof. intros [] Hd; auto; rewrite Hd in *; done. Qed.

Lemma life_active s s' :
  life s s' -> is_active s' = true -> is_active s = true.
Proof.
  unfold is_active. intros [] Ha; try done.
  - by rewrite H1.
  - by rewrite H1.
  - by rewrite H2 in Ha.
Qed.

Lemma life_pending s s' :
  life s s' -> s_Status s' <> SPending -> s_Status s <> SPending \/ s' = s.
Proof. intros [] Hs; auto; left; intros E; rewrite E in *; done. Qed.

(** ** The invariant *)

Definition exclusive (t : list TaskStep) : Prop :=
  forall s1 s2, s1 ∈ t -> s2 ∈ t -> s_TaskID s1 = s_TaskID s2 ->
    s_ID s1 <> s_ID s2 -> is_active s1 = true -> is_active s2 = true ->
    is_read s1 = true.

Definition deps_done (t : list TaskStep) (s : TaskStep) : Prop :=
  forall dep, dep ∈ s_Dependencies s -> exists p, p ∈ t
    /\ skey p = (s_TaskID s, dep) /\ s_Status p = SDone.

Definition attempts_ok (s : TaskStep) : Prop :=
  0 <= s_Attempts s <= s_MaxAttempts s
  /\ (s_Status s <> SPending -> 1 <= s_Attempts s)
  /\ (s_Status s = SPending -> s_Attempts s < s_MaxAttempts s).

(** A step that was attempted and then released is free of effects, or its
    saved candidate makes the tool loop unnecessary. *)
Definition released_ok (s : TaskStep) : Prop :=
  0 < s_Attempts s -> s_Status s = SPending \/ s_Status s = SBlocked ->
  stepNeedsReconciliation s = false.

Record steps_inv (t : list TaskStep) : Prop := {
  inv_keys : NoDup (skey <$> t);
  inv_exclusive : exclusive t;
  inv_deps : forall s, s ∈ t -> 0 < s_Attempts s -> deps_done t s;
  inv_attempts : forall s, s ∈ t -> attempts_ok s;
  inv_released : forall s, s ∈ t -> released_ok s;
}.

(** ** Updates along the life relation *)

Definition living (t t' : list TaskStep) : Prop := Forall2 life t t'.

Lemma living_update p f t :
  (forall s, s ∈ t -> p s = true -> life s (f s)) -> living t (update_where p f t).
Proof.
  intros H. unfold living, update_where. induction t as [|s t IH]; [constructor|].
  constructor.
  - destruct (p s) eqn:E; [apply H; [set_solver|done]|constructor].
  - apply IH. intros s' Hs'. apply H. set_solver.
Qed.

Lemma living_keys t t' : living t t' -> skey <$> t' = skey <$> t.
Proof.
  induction 1 as [|s s' t t' Hl _ IH]; [done|]. rewrite !fmap_cons, IH.
  apply life_identity in Hl as [[-> _] _]. done.
Qed.

Lemma living_elem t t' s' : living t t' -> s' ∈ t' -> exists s, s ∈ t /\ life s s'.
Proof.
  induction 1 as [|s1 s1' t t' Hl _ IH]; [set_solver|].
  intros [->|Hin]%elem_of_cons; [exists s1; set_solver|].
  destruct (IH Hin) as (s & ? & ?). exists s. set_solver.
Qed.

Lemma living_elem_l t t' s : living t t' -> s ∈ t -> exists s', s' ∈ t' /\ life s s'.
Proof.
  induction 1 as [|s1 s1' t t' Hl _ IH]; [set_solver|].
  intros [->|Hin]%elem_of_cons; [exists s1'; set_solver|].
  destruct (IH Hin) as (s' & ? & ?). exists s'. set_solver.
Qed.

Lemma deps_done_living t t' s s' :
  living t t' -> same_identity s s' -> deps_done t s -> deps_done t' s'.
Proof.
  intros Hl ([= Hk _] & _ & _ & Hd & _) Hall dep Hdep.
  rewrite Hd in Hdep. destruct (Hall dep Hdep) as (p & Hp & Hpk & Hps).
  destruct (living_elem_l _ _ _ Hl Hp) as (p' & Hp' & Hlp).
  rewrite (life_done _ _ Hlp Hps) in Hp'. exists p. by rewrite Hk.
Qed.

Lemma life_attempts_ok s s' : life s s' -> attempts_ok s -> attempts_ok s'.
Proof.
  intros [] (Hb & Hp & Hq); try done;
    destruct H as (_ & _ & _ & _ & Hm); unfold attempts_ok;
    rewrite H0, Hm.
  - rewrite H2. rewrite H1 in Hp. naive_solver.
  - rewrite H1 in Hp. naive_solver.
  - rewrite H2. split; [done|]. split; [|done]. intros _. apply Hp.
    intros E. rewrite E in H1. done.
Qed.

Lemma life_released_ok s s' : life s s' -> released_ok s -> released_ok s'.
Proof.
  intros [] Hr; try done; intros Hp [Hs|Hs]; try congruence; eauto.
Qed.

Lemma living_inv t t' : living t t' -> steps_inv t -> steps_inv t'.
Proof.
  intros Hl [Hk He Hd Ha Hr]. split.
  - by rewrite (living_keys _ _ Hl).
  - intros s1' s2' H1 H2 Ht Hne Ha1 Ha2.
    destruct (living_elem _ _ _ Hl H1) as (s1 & Hs1 & Hl1).
    destruct (living_elem _ _ _ Hl H2) as (s2 & Hs2 & Hl2).
    destruct (life_identity _ _ Hl1) as [([= Ht1 Hi1] & Hk1 & _) _].
    destruct (life_identity _ _ Hl2) as [([= Ht2 Hi2] & _) _].
    unfold is_read. rewrite Hk1. apply (He s1 s2); try congruence.
    + by eapply life_active.
    + by eapply life_active.
  - intros s' Hs' Hpos. destruct (living_elem _ _ _ Hl Hs') as (s & Hs & Hls).
    destruct (life_identity _ _ Hls) as [Hid Hat]. rewrite Hat in Hpos.
    eapply deps_done_living; eauto.
  - intros s' Hs'. destruct (living_elem _ _ _ Hl Hs') as (s & Hs & Hls).
    eapply life_attempts_ok; eauto.
  - intros s' Hs'. destruct (living_elem _ _ _ Hl Hs') as (s & Hs & Hls).
    eapply life_released_ok; eauto.
Qed.

(** ** Claims *)

Lemma skey_inj t s1 s2 :
  NoDup (skey <$> t) -> s1 ∈ t -> s2 ∈ t -> skey s1 = skey s2 -> s1 = s2.
Proof.
  intros Hnd (i & Hi)%list_elem_of_lookup (j & Hj)%list_elem_of_lookup Hk.
  assert (i = j) as ->; [|congruence].
  eapply NoDup_lookup; [exact Hnd| |]; rewrite list_lookup_fmap.
  - rewrite Hi. done.
  - rewrite Hj. simpl. by rewrite Hk.
Qed.

Lemma same_step_skey id sid s : same_step id sid s = true <-> skey s = (id, sid).
Proof.
  unfold same_step, skey. rewrite andb_true_iff, N.eqb_eq, String.eqb_eq.
  split; [by intros [-> ->]|by intros [= -> ->]].
Qed.

Lemma dep_done_iff t s :
  forallb (dep_done t s) (s_Dependencies s) = true <-> deps_done t s.
Proof.
  rewrite forallb_Forall, Forall_forall. unfold deps_done, dep_done.
  split; intros H dep Hdep; specialize (H dep Hdep).
  - apply existsb_Exists, Exists_exists in H as (p & Hp & Hc).
    apply andb_true_iff in Hc as [Hk%same_step_skey Hs%bool_decide_eq_true].
    eauto.
  - apply existsb_Exists, Exists_exists. destruct H as (p & Hp & Hk & Hs).
    exists p. split; [done|]. apply andb_true_iff.
    by rewrite same_step_skey, bool_decide_eq_true.
Qed.

Lemma claimable_spec t now s :
  claimable t now s = true <->
  s_Status s = SPending /\ s_NextAttemptAt s <= now
  /\ s_Attempts s < s_MaxAttempts s
  /\ (forall p, p ∈ t -> s_TaskID p = s_TaskID s -> is_active p = true ->
        is_read s = true /\ is_read p = true)
  /\ deps_done t s.
Proof.
  unfold claimable. rewrite !andb_true_iff, bool_decide_eq_true, Z.leb_le, Z.ltb_lt,
    negb_true_iff, existsb_false_Forall, dep_done_iff, Forall_forall.
  assert ((forall p, p ∈ t -> conflicting_peer s p = false) <->
    (forall p, p ∈ t -> s_TaskID p = s_TaskID s -> is_active p = true ->
        is_read s = true /\ is_read p = true)) as ->; [|tauto].
  unfold conflicting_peer, is_active, is_read. split; intros H p Hp.
  - intros Ht Ha. specialize (H p Hp). rewrite Ha, Ht, N.eqb_refl in H. simpl in H.
    by apply orb_false_iff in H as [?%negb_false_iff ?%negb_false_iff].
  - specialize (H p Hp). destruct (N.eqb_spec (s_TaskID p) (s_TaskID s)); [|done].
    destruct (sstatus_in (s_Status p) [SRunning; SReconciliation]) eqn:Ha;
      [|by rewrite andb_false_r].
    destruct H as [-> ->]; done.
Qed.

Section claim.
Context (id : uuid) (sid : string) (run : uuid) (lease now : Z) (t : list TaskStep).
Let p s := same_step id sid s && claimable t now s.
Let t' := update_where p (claim_row run lease now) t.

Lemma claim_elem s' : s' ∈ t' ->
  s' ∈ t \/ exists s, s ∈ t /\ skey s = (id, sid) /\ claimable t now s = true
    /\ s' = claim_row run lease now s.
Proof.
  intros (s & Hs & ->)%update_where_elem. destruct (p s) eqn:E; [|by left].
  right. apply andb_true_iff in E as [?%same_step_skey ?]. eauto 6.
Qed.

Lemma claim_done q : q ∈ t -> s_Status q = SDone -> q ∈ t'.
Proof.
  intros Hq Hd. apply update_where_elem. exists q. split; [done|].
  destruct (p q) eqn:E; [|done].
  apply andb_true_iff in E as [_ E%claimable_spec]. destruct E. congruence.
Qed.

Lemma claim_deps_done s s' :
  skey s' = skey s -> s_Dependencies s' = s_Dependencies s ->
  deps_done t s -> deps_done t' s'.
Proof.
  intros [= Hk _] Hd H dep Hdep. rewrite Hd in Hdep.
  destruct (H dep Hdep) as (q & Hq & ? & ?). exists q. rewrite Hk.
  split; [by apply claim_done|done].
Qed.

Lemma claim_inv : steps_inv t -> steps_inv t'.
Proof.
  intros [Hk He Hd Ha Hr]. split.
  - assert (skey <$> t' = skey <$> t) as ->; [|done].
    unfold t', update_where. rewrite <- list_fmap_compose.
    apply list_fmap_ext. intros i s _. simpl. by destruct (p s).
  - intros s1 s2 [H1|(u & Hu & Hku & Hcu & ->)]%claim_elem
      [H2|(v & Hv & Hkv & Hcv & ->)]%claim_elem Ht Hne Ha1 Ha2.
    + eauto.
    + apply claimable_spec in Hcv as (_ & _ & _ & Hp & _).
      apply (Hp s1); [done|exact Ht|done].
    + apply claimable_spec in Hcu as (_ & _ & _ & Hp & _).
      apply (Hp s2 H2); [symmetry; exact Ht|done].
    + exfalso. apply Hne. simpl. unfold skey in *. congruence.
  - intros s [Hs|(u & Hu & Hku & Hcu & ->)]%claim_elem Hpos.
    + by apply (claim_deps_done s); [| |apply Hd].
    + apply claimable_spec in Hcu as (_ & _ & _ & _ & Hdd).
      by apply (claim_deps_done u).
  - intros s [Hs|(u & Hu & Hku & Hcu & ->)]%claim_elem; [by apply Ha|].
    apply claimable_spec in Hcu as (Hst & _ & Hlt & _).
    destruct (Ha u Hu) as (? & _ & _). unfold attempts_ok. simpl.
    split; [lia|]. split; [lia|done].
  - intros s [Hs|(u & _ & _ & _ & ->)]%claim_elem; [by apply Hr|].
    by intros _ [|].
Qed.
End claim.

(** ** What each transaction does to the step table *)

Definition inserted (id : uuid) (now : time) (l t t' : list TaskStep) : Prop :=
  t' = t ++ ((fun s => insert_step id s now) <$> l)
  /\ NoDup (s_ID <$> l)
  /\ (forall s, s ∈ l -> (id, s_ID s) ∉ skey <$> t)
  /\ Forall step_ok l.

Inductive step_change (t t' : list TaskStep) : Prop :=
| sc_living : living t t' -> step_change t t'
| sc_claim id sid run lease now :
    t' = update_where (fun s => same_step id sid s && claimable t now s)
           (claim_row run lease now) t -> step_change t t'
| sc_insert id now l : inserted id now l t t' -> step_change t t'.

Lemma living_refl t : living t t.
Proof. unfold living. induction t; constructor; [constructor|done]. Qed.

Lemma step_change_refl t : step_change t t.
Proof. apply sc_living, living_refl. Qed.

Lemma step_ok_max s : step_ok s -> 0 <= s_MaxAttempts s <= 10.
Proof.
  intros [_ H]. unfold step_limits in H.
  destruct (kind_ok _); [|done].
  destruct (_ && _) eqn:E; [|done]. bool_to_prop. lia.
Qed.

Lemma inserted_inv id now l t t' :
  inserted id now l t t' -> steps_inv t -> steps_inv t'.
Proof.
  intros (-> & Hnd & Hfresh & Hok) [Hk He Hd Ha Hr].
  assert (forall r, r ∈ ((fun s => insert_step id s now) <$> l) ->
    s_Status r = SPending /\ s_Attempts r = 0 /\ 1 <= s_MaxAttempts r
    /\ exists s, s ∈ l /\ skey r = (id, s_ID s)) as Hnew.
  { intros r (s & -> & Hs)%list_elem_of_fmap. rewrite Forall_forall in Hok.
    pose proof (step_ok_max s (Hok s Hs)). simpl. repeat split; [|by exists s].
    destruct (Z.eqb_spec (s_MaxAttempts s) 0); lia. }
  split.
  - rewrite fmap_app, <- list_fmap_compose. apply NoDup_app. split; [done|].
    split.
    + intros k Hk1 (s & -> & Hs)%list_elem_of_fmap. by apply (Hfresh s Hs).
    + assert (skey ∘ (fun s => insert_step id s now) <$> l
              = (fun x => (id, x)) <$> (s_ID <$> l)) as ->.
      { by rewrite <- list_fmap_compose. }
      apply NoDup_fmap_2; [|done]. by intros ? ? [= ->].
  - intros s1 s2 [H1|H1]%elem_of_app [H2|H2]%elem_of_app ? ? Ha1 Ha2; [eauto|..].
    + apply Hnew in H2 as [E _]. unfold is_active in Ha2. by rewrite E in Ha2.
    + apply Hnew in H1 as [E _]. unfold is_active in Ha1. by rewrite E in Ha1.
    + apply Hnew in H1 as [E _]. unfold is_active in Ha1. by rewrite E in Ha1.
  - intros s [Hs|Hs]%elem_of_app Hpos.
    + intros dep Hdep. destruct (Hd s Hs Hpos dep Hdep) as (p & ? & ?).
      exists p. rewrite elem_of_app. auto.
    + apply Hnew in Hs as (_ & E & _). lia.
  - intros s [Hs|Hs]%elem_of_app; [by apply Ha|].
    apply Hnew in Hs as (E1 & E2 & E3 & _). unfold attempts_ok.
    rewrite E1, E2. split; [lia|]. split; [done|lia].
  - intros s [Hs|Hs]%elem_of_app; [by apply Hr|].
    apply Hnew in Hs as (_ & E & _). intros Hp. lia.
Qed.

Lemma step_change_inv t t' : step_change t t' -> steps_inv t -> steps_inv t'.
Proof.
  intros [Hl|id sid run lease now ->|id now l Hi].
  - by apply living_inv.
  - by apply claim_inv.
  - by eapply inserted_inv.
Qed.

(** A confirmed step is never written again. *)
Lemma step_change_done t t' s :
  step_change t t' -> s ∈ t -> s_Status s = SDone -> s ∈ t'.
Proof.
  intros [Hl|id sid run lease now ->|id now l (-> & _)] Hs Hd.
  - destruct (living_elem_l _ _ _ Hl Hs) as (s' & Hs' & Hlife).
    by rewrite (life_done _ _ Hlife Hd) in Hs'.
  - by apply claim_done.
  - apply elem_of_app. by left.
Qed.

(** An uncertain effect can only be handed over as done. *)
Lemma step_change_reconciliation t t' s :
  step_change t t' -> s ∈ t -> s_Status s = SReconciliation ->
  exists s', s' ∈ t' /\ skey s' = skey s /\ s_Attempts s' = s_Attempts s
    /\ (s_Status s' = SReconciliation \/ s_Status s' = SDone).
Proof.
  intros [Hl|id sid run lease now ->|id now l (-> & _)] Hs Hd.
  - destruct (living_elem_l _ _ _ Hl Hs) as (s' & Hs' & Hlife). exists s'.
    destruct (life_identity _ _ Hlife) as [(? & _) ?].
    destruct (life_reconciliation _ _ Hlife Hd) as [->|?]; auto.
  - exists s. split; [|auto]. apply update_where_elem. exists s. split; [done|].
    destruct (_ && _) eqn:E; [|done].
    apply andb_true_iff in E as [_ E%claimable_spec]. destruct E. congruence.
  - exists s. rewrite elem_of_app. auto.
Qed.

(** Row updates of the transactions are steps of a life. *)
Lemma owns_running id sid run now s : owns id sid run now s = true -> s_Status s = SRunning.
Proof. unfold owns. intros H. bool_to_prop. done. Qed.

Lemma checkpoint_life cp lease now s :
  s_Status s = SRunning -> life s (checkpoint_row cp lease now s).
Proof. intros. by apply life_checkpoint. Qed.

Lemma complete_life result now s :
  s_Status s = SRunning -> life s (complete_row result now s).
Proof. intros. apply life_release; try done. by intros [|]. Qed.

Lemma needs_false_ext s s' :
  same_identity s s' -> s_Checkpoint s' = s_Checkpoint s ->
  stepNeedsReconciliation s = false -> stepNeedsReconciliation s' = false.
Proof. unfold stepNeedsReconciliation. intros (_ & -> & -> & _) ->. done. Qed.

Lemma needs_not_read s : stepNeedsReconciliation s = true -> is_read s = false.
Proof. unfold stepNeedsReconciliation, is_read. by destruct (String.eqb _ _). Qed.

Lemma released_life s s' (x : StepStatus) :
  s_Status s = SRunning -> same_identity s s' -> s_Attempts s' = s_Attempts s ->
  s_Checkpoint s' = s_Checkpoint s ->
  s_Status s' = (if stepNeedsReconciliation s then SReconciliation else x) ->
  x = SBlocked \/ x = SPending /\ s_Attempts s < s_MaxAttempts s -> life s s'.
Proof.
  intros Hr Hid Ha Hc Hs Hx.
  destruct (stepNeedsReconciliation s) eqn:En.
  - apply life_release; try done; rewrite Hs; [done|intros _|done|by intros [|]].
    by apply needs_not_read.
  - apply life_release; try done; rewrite ?Hs;
      try (intros _; by apply (needs_false_ext s)); destruct Hx as [->|[-> ?]]; done.
Qed.

Lemma recovered_life s s' :
  s_Status s = SRunning -> same_identity s s' -> s_Attempts s' = s_Attempts s ->
  s_Checkpoint s' = s_Checkpoint s -> s_Status s' = recovered_status s -> life s s'.
Proof.
  intros. eapply released_life; [done..|].
  destruct (Z.leb_spec (s_MaxAttempts s) (s_Attempts s)); auto.
Qed.

Lemma fail_life reason retryable delay now s :
  s_Status s = SRunning -> life s (fail_row reason retryable delay now s).
Proof.
  intros. eapply released_life; [done..|].
  destruct (Z.ltb_spec (s_Attempts s) (s_MaxAttempts s)), retryable; auto.
Qed.

(** ** Locks and fences *)

(** The context carries the coordinator run currently leased for the task. *)
Definition run_live (e : env) (d : db) (id : uuid) : Prop :=
  ctx_run e <> uuid_Nil /\ exists r k, runs d !! id = Some r
    /\ r_RunID r = ctx_run e /\ clk e k < r_LeaseUntil r.

Definition executing (e : env) (d : db) (id : uuid) (claim : option time) : Prop :=
  exists task, tasks d !! id = Some task /\ Status task = TRunning
    /\ claim_matches claim task = true
    /\ (ExecutorVersion task = 2 -> run_live e d id).

Lemma requireTaskRun_Ok id e n d a n' d' :
  requireTaskRun id e n d = Ok (a, n', d') -> d' = d /\ run_live e d id.
Proof.
  unfold requireTaskRun. intros. tx_inv.
  destruct (N.eqb_spec (ctx_run e) uuid_Nil); [tx_inv|].
  tx_inv. split_match; tx_inv. split; [done|]. split; [done|].
  match goal with H : context [runs ?q !! id] |- _ =>
    destruct (runs q !! id) as [r|] eqn:Hr; [|done];
    apply andb_true_iff in H as [?%N.eqb_eq ?%Z.ltb_lt]
  end. eauto 6.
Qed.

Lemma deadline_live_Ok dl e n d a n' d' :
  deadline_live dl e n d = Ok (a, n', d') -> d' = d.
Proof.
  unfold deadline_live. destruct dl; intros; tx_inv; [split_match; by tx_inv|done].
Qed.

Lemma lock_Ok id claim dl e n d a n' d' :
  lockTaskExecution id claim dl e n d = Ok (a, n', d') ->
  d' = d /\ executing e d id claim.
Proof.
  unfold lockTaskExecution. intros (row & n1 & d1 & Hq & H)%tx_bind_Ok.
  apply query_Ok in Hq as (_ & _ & -> & ->).
  destruct (tasks d !! id) as [task|] eqn:Ht; [|tx_inv].
  destruct (bool_decide _ || _) eqn:Hg; [tx_inv|].
  apply orb_false_iff in Hg as [Hs%bool_decide_eq_false Hc%negb_false_iff].
  apply tx_bind_Ok in H as (u & n2 & d2 & Hd%deadline_live_Ok & H). subst d2.
  assert (d' = d /\ (ExecutorVersion task = 2 -> run_live e d id)) as [-> Hrun].
  { destruct (Z.eqb_spec (ExecutorVersion task) 2); [|by tx_inv].
    apply requireTaskRun_Ok in H as [-> ?]. done. }
  split; [done|]. exists task. split; [done|]. split; [by apply dec_stable|].
  done.
Qed.

Lemma executing_not_terminal e d id claim t :
  executing e d id claim -> tasks d !! id = Some t -> Status t = TRunning.
Proof. intros (t' & ? & ? & _) ?. by simplify_eq. Qed.

(** ** Worker writes *)

(** The worker's three writes to the row of a claimed step. *)
Inductive worker_write (id : uuid) (sid : string) (run : uuid) : Op unit -> Prop :=
| ww_checkpoint lease cp :
    worker_write id sid run (CheckpointTaskStep id sid run lease cp)
| ww_complete result :
    worker_write id sid run (CompleteTaskStep id sid run result)
| ww_fail reason retryable delay :
    worker_write id sid run (FailTaskStepAfter id sid run reason retryable delay).

(** A write took place: the fences held and the only change is a step of the
    life of the worker's own row. *)
Definition authorised (e : env) (d d' : db) (id : uuid) (sid : string)
    (run : uuid) : Prop :=
  executing e d id None /\
  exists k s f, s ∈ steps d /\ owns id sid run (clk e k) s = true
    /\ (forall r, s_Status r = SRunning -> life r (f r))
    /\ d' = with_steps (update_where (owns id sid run (clk e k)) f (steps d)) d.

Lemma updateTaskStep_cases id sid run complete result cp lease e d r d' :
  updateTaskStep id sid run complete result cp lease e d = (r, d') ->
  (r <> Ok tt /\ d' = d) \/ (r = Ok tt /\ authorised e d d' id sid run).
Proof.
  intros H. unfold updateTaskStep in H. destruct r as [[]|x].
  - right. split; [done|].
    apply run_tx_Ok in H as (_ & n & d1 & [[Hb ->]|[Hb ->]]); tx_inv;
      split_match; tx_inv.
    apply lock_Ok in H as [-> Hex]. split; [done|]. bool_to_prop.
    apply affected_pos in Heqb as (s & Hs & Ho).
    do 3 eexists. split; [exact Hs|]. split; [exact Ho|]. split; [|done].
    intros r Hr. destruct complete; [by apply complete_life|by apply checkpoint_life].
  - left. split; [done|]. by eapply run_tx_err.
Qed.

Lemma FailTaskStepAfter_cases id sid run reason retryable delay e d r d' :
  FailTaskStepAfter id sid run reason retryable delay e d = (r, d') ->
  (r <> Ok tt /\ d' = d) \/ (r = Ok tt /\ authorised e d d' id sid run).
Proof.
  intros H. unfold FailTaskStepAfter in H. destruct r as [[]|x].
  - right. split; [done|].
    apply run_tx_Ok in H as (_ & n & d1 & [[Hb ->]|[Hb ->]]); tx_inv;
      split_match; tx_inv.
    apply lock_Ok in H as [-> Hex]. split; [done|]. bool_to_prop.
    apply affected_pos in Heqb as (s & Hs & Ho).
    do 3 eexists. split; [exact Hs|]. split; [exact Ho|]. split; [|done].
    intros r Hr. by apply fail_life.
  - left. split; [done|]. by eapply run_tx_err.
Qed.

Lemma worker_write_cases id sid run op e d r d' :
  worker_write id sid run op -> op e d = (r, d') ->
  (r <> Ok tt /\ d' = d) \/ (r = Ok tt /\ authorised e d d' id sid run).
Proof.
  intros [lease cp|result|reason retryable delay].
  - unfold CheckpointTaskStep. case_match; [intros [= <- <-]; by left|].
    apply updateTaskStep_cases.
  - unfold CompleteTaskStep. case_match; [intros [= <- <-]; by left|].
    apply updateTaskStep_cases.
  - apply FailTaskStepAfter_cases.
Qed.

Lemma authorised_living e d d' id sid run :
  authorised e d d' id sid run -> living (steps d) (steps d').
Proof.
  intros (_ & k & s & f & _ & _ & Hf & ->). simpl. apply living_update.
  intros r _ Ho. by eapply Hf, owns_running.
Qed.

Lemma worker_write_change id sid run op e d r d' :
  worker_write id sid run op -> op e d = (r, d') ->
  step_change (steps d) (steps d').
Proof.
  intros Hw H. destruct (worker_write_cases _ _ _ _ _ _ _ _ Hw H) as [[_ ->]|[_ Ha]].
  - apply step_change_refl.
  - apply sc_living. by eapply authorised_living.
Qed.

(** ** The other transactions *)

Lemma insert_steps_Ok id l : forall e n d a n' d',
  insert_steps id l e n d = Ok (a, n', d') ->
  d' = with_steps (steps d ++ ((fun s => insert_step id s (clk e 0%nat)) <$> l)) d
  /\ NoDup (s_ID <$> l) /\ (forall s, s ∈ l -> (id, s_ID s) ∉ skey <$> steps d).
Proof.
  induction l as [|s l IH]; intros e n d a n' d'; cbn [insert_steps].
  - intros H. tx_inv. rewrite app_nil_r. destruct d. repeat split; [constructor|set_solver].
  - intros (now0 & n1 & d1 & Hnow & H)%tx_bind_Ok. unfold tx_now in Hnow. simplify_eq.
    apply tx_bind_Ok in H as ([] & n2 & d2 & Hs & H).
    apply stmt_Ok in Hs as (_ & _ & Hs).
    destruct (existsb _ _) eqn:Hex; [done|]. simplify_eq.
    destruct (IH _ _ _ _ _ _ H) as (-> & Hnd & Hfresh). simpl in *.
    apply existsb_false_Forall in Hex. rewrite Forall_forall in Hex.
    split; [|split].
    + by rewrite <- app_assoc.
    + constructor; [|done]. intros (s' & Heq & Hs')%list_elem_of_fmap.
      apply (Hfresh s' Hs'). rewrite fmap_app, elem_of_app. right.
      simpl. rewrite <- Heq. set_solver.
    + intros s' [->|Hs']%elem_of_cons.
      * intros (r & Hr & Hin)%list_elem_of_fmap. specialize (Hex r Hin).
        symmetry in Hr. by rewrite (proj2 (same_step_skey _ _ _) Hr) in Hex.
      * specialize (Hfresh s' Hs'). rewrite fmap_app in Hfresh. set_solver.
Qed.

Lemma SaveTaskSteps_change order id claim l e d r d' :
  ranges_over order -> SaveTaskSteps order id claim l e d = (r, d') ->
  step_change (steps d) (steps d').
Proof.
  intros Ho. unfold SaveTaskSteps.
  destruct (ValidateTaskSteps order l) as [[]|x] eqn:Hv; [|intros [= _ ->]; apply step_change_refl].
  intros [->|([] & n & Hb & _)]%run_tx_cases; [apply step_change_refl|].
  apply tx_bind_Ok in Hb as (u & n1 & d1 & [-> _]%lock_Ok & Hb).
  apply tx_bind_Ok in Hb as (u' & n2 & d2 & Hi & Hb). tx_inv.
  apply insert_steps_Ok in Hi as (-> & Hnd & Hfresh).
  apply (sc_insert _ _ id (clk e 0%nat) l). repeat split; try done.
  by apply ValidateTaskSteps_sound in Hv as [].
Qed.

Lemma ClaimTaskStep_cases id sid lease e d r d' :
  ClaimTaskStep id sid lease e d = (r, d') ->
  d' = d \/
  exists k run s, executing e d id None /\ s ∈ steps d /\ skey s = (id, sid)
    /\ claimable (steps d) (clk e k) s = true
    /\ r = Ok (Some (claim_row run lease (clk e k) s))
    /\ d' = with_steps (update_where (fun s => same_step id sid s
               && claimable (steps d) (clk e k) s)
               (claim_row run lease (clk e k)) (steps d)) d.
Proof.
  unfold ClaimTaskStep. case_match; [intros [= _ ->]; by left|].
  intros [->|(a & n & Hb & ->)]%run_tx_cases; [by left|].
  apply tx_bind_Ok in Hb as (u & n1 & d1 & [-> Hex]%lock_Ok & Hb).
  apply tx_bind_Ok in Hb as (run & n2 & d2 & [= <- <- <-] & Hb).
  apply tx_bind_Ok in Hb as (c & n3 & d3 & Hs & Hb).
  apply stmt_Ok in Hs as (_ & -> & [= <- <-]).
  destruct (head _) as [s'|] eqn:Hh; tx_inv. right.
  destruct (List.filter _ _) as [|s l] eqn:Hf; [done|]. simpl in Hh. simplify_eq.
  assert (s ∈ List.filter (fun s => same_step id sid s
            && claimable (steps d) (clk e (S n1)) s) (steps d)) as Hin
    by (rewrite Hf; set_solver).
  apply list_elem_of_In, filter_In in Hin as [Hin%list_elem_of_In Hp].
  apply andb_true_iff in Hp as [Hk%same_step_skey Hc].
  do 3 eexists. repeat split; eauto.
Qed.

Lemma ClaimTaskStep_change id sid lease e d r d' :
  ClaimTaskStep id sid lease e d = (r, d') -> step_change (steps d) (steps d').
Proof.
  intros [->|(k & run & s & _ & _ & _ & _ & _ & ->)]%ClaimTaskStep_cases;
    [apply step_change_refl|]. by eapply sc_claim.
Qed.

Lemma RecoverTaskSteps_change id e d r d' :
  RecoverTaskSteps id e d = (r, d') -> step_change (steps d) (steps d').
Proof.
  intros [->|([] & n & Hb & ->)]%run_tx_cases; [apply step_change_refl|].
  apply tx_bind_Ok in Hb as (u & n1 & d1 & [-> Hex]%lock_Ok & Hb). tx_inv.
  apply sc_living, living_update. intros s _ Hp. bool_to_prop.
  by apply recovered_life.
Qed.

Lemma ResolveStuckTaskSteps_change id e d r d' :
  ResolveStuckTaskSteps id e d = (r, d') -> step_change (steps d) (steps d').
Proof.
  intros [->|(m & n & Hb & ->)]%run_tx_cases; [apply step_change_refl|].
  apply tx_bind_Ok in Hb as (u & n1 & d1 & [-> Hex]%lock_Ok & Hb). tx_inv.
  apply sc_living, living_update. intros s _ Hp. unfold is_stuck in Hp. bool_to_prop.
  by apply life_resolve.
Qed.

(** A successful claim of the coordinator lease, statement by statement. *)
Lemma ClaimGraphTask_Ok start_at id lease e d r d' :
  ClaimGraphTask start_at id lease e d = (Ok (Some r), d') ->
  exists task k m new,
    tasks d !! id = Some task
    /\ claimable_task start_at (clk e 1%nat) task = true
    /\ active_others d (UserID task) id (clk e k) < MaxConcurrentGraphTasksPerUser
    /\ claim_run id new lease (clk e m) (clk e 0%nat) (runs d !! id) = Some r
    /\ new = fresh e (S k) /\ (k <= m)%nat
    /\ tasks d' = alter (fun t => set_Progress (running_progress (Progress t))
         (set_LastRunAt (Some (clk e (S m))) (set_Status TRunning t))) id (tasks d)
    /\ runs d' = <[id := r]> (runs d)
    /\ steps d' = update_where (fun s => N.eqb (s_TaskID s) id
                    && bool_decide (s_Status s = SRunning))
         (fun s => set_s_LastError "coordinator lease lost"
            (set_s_LeaseUntil None (set_s_Status (recovered_status s) s))) (steps d)
    /\ artifacts d' = artifacts d /\ notifications d' = notifications d.
Proof.
  unfold ClaimGraphTask. case_match; [done|].
  intros (_ & n & d1 & [[Hb ->]|[Hb _]])%run_tx_Ok;
    apply tx_bind_Ok in Hb as (row & n1 & d2 & (_ & -> & -> & ->)%query_Ok & Hb);
    (destruct (tasks d !! id) as [t|] eqn:Ht; [|by tx_inv]);
    (destruct (claimable_task _ _ _) eqn:Hc; [|by tx_inv]);
    apply tx_bind_Ok in Hb as (u & n2 & d3 & (_ & -> & _ & ->)%query_Ok & Hb);
    apply tx_bind_Ok in Hb as (act & n3 & d4 & (_ & -> & -> & ->)%query_Ok & Hb);
    (destruct (Z.leb _ _) eqn:Hact; [by tx_inv|]); bool_to_prop;
    apply tx_bind_Ok in Hb as (run & n4 & d5 & [= <- <- <-] & Hb);
    apply tx_bind_Ok in Hb as (now0 & n5 & d6 & [= <- <- <-] & Hb);
    apply tx_bind_Ok in Hb as (c & n6 & d7 & (_ & -> & Hs)%stmt_Ok & Hb);
    (destruct (claim_run _ _ _ _ _ _) as [r'|] eqn:Hcr; [|simplify_eq; by tx_inv]);
    simplify_eq; tx_inv.
  eexists _, 3%nat, _, _. repeat split; eauto.
Qed.
