(* ===== verification/Journal.v ===== *)
(** * Journal: at-most-once notifications

    The notification journal of internal/core/agent_store.go: occurrence
    references ([normalizeTaskDeliveryRefs], [sortTaskDeliveryRefs],
    [taskNotificationOccurrenceKey]), the delivery ledger and the state
    machine of an attempt ([BeginNotificationAttempt],
    [ConfirmNotificationAttempt], [MarkNotificationUncertain],
    [DeferNotificationAttempt], [RejectNotificationAttempt],
    [ClaimRetryableNotification]).

    [digest] stands for SHA-256 with its base64 form; what is hashed,
    [occurrence_input], is modelled. *)

From Stdlib Require Import Ascii String.
From S2P Require Import Prelude GoStrings Json Task TaskPlan AutonomousTurn Store.

Local Open Scope Z_scope.

(** ** Delivery references *)

Definition taskDeliveryInputIDMaxBytes : nat := 64.
Definition TaskDeliveryItemKeyMaxBytes : nat := 512.

Fixpoint normalize_from (seen : gset TaskDeliveryRef) (refs : list TaskDeliveryRef)
    : res StoreError (list TaskDeliveryRef) :=
  match refs with
  | [] => Ok []
  | ref :: rest =>
      let ref := MkRef (TrimSpace (InputID ref)) (TrimSpace (ItemKey ref)) in
      if String.eqb (InputID ref) "" || String.eqb (ItemKey ref) ""
      then normalize_from seen rest
      else if Nat.ltb taskDeliveryInputIDMaxBytes (String.length (InputID ref))
      then Err EInvalidDeliveryRef
      else if Nat.ltb TaskDeliveryItemKeyMaxBytes (String.length (ItemKey ref))
      then Err EInvalidDeliveryRef
      else if bool_decide (ref ∈ seen) then normalize_from seen rest
      else out ← normalize_from ({[ref]} ∪ seen) rest; Ok (ref :: out)
  end.
Definition normalizeTaskDeliveryRefs := normalize_from ∅.

Definition ref_lt (x y : TaskDeliveryRef) : bool :=
  if negb (String.eqb (InputID x) (InputID y))
  then String.ltb (InputID x) (InputID y)
  else String.ltb (ItemKey x) (ItemKey y).

Fixpoint insert_ref (r : TaskDeliveryRef) (l : list TaskDeliveryRef) :=
  match l with
  | [] => [r]
  | x :: l' => if ref_lt r x then r :: l else x :: insert_ref r l'
  end.
Definition sortTaskDeliveryRefs (l : list TaskDeliveryRef) : list TaskDeliveryRef :=
  fold_right insert_ref [] l.

(** [binary.BigEndian.PutUint32(uint32(n))]. *)
Definition be32 (n : nat) : bytes :=
  let z := Z.of_nat n mod 2 ^ 32 in
  [chr (Z.to_nat (Z.shiftr z 24)); chr (Z.to_nat (Z.land (Z.shiftr z 16) 255));
   chr (Z.to_nat (Z.land (Z.shiftr z 8) 255)); chr (Z.to_nat (Z.land z 255))].
Definition sized (s : string) : bytes := be32 (String.length s) ++ lit s.
Definition occurrence_input (refs : list TaskDeliveryRef) : bytes :=
  lit "task-notification-occurrence/v1" ++ [chr 0]
  ++ (sortTaskDeliveryRefs refs ≫= fun r => sized (InputID r) ++ sized (ItemKey r)).
Definition taskNotificationOccurrenceKey (digest : bytes -> string)
    (refs : list TaskDeliveryRef) : string :=
  ("refs:v1:" ++ digest (occurrence_input refs))%string.

(** ** The ledger *)

Definition reserved_by (d : db) (task : uuid) (r : TaskDeliveryRef) : bool :=
  existsb (fun i => N.eqb (i_TaskID i) task && bool_decide (i_Ref i = r))
    (attempt_items d).

(** The references among [refs] already delivered or reserved. *)
Definition LookupDelivered (task : uuid) (refs : list TaskDeliveryRef)
    : Op (list TaskDeliveryRef) := fun e d =>
  match normalizeTaskDeliveryRefs refs with
  | Err x => (Err x, d)
  | Ok [] => (Ok [], d)
  | Ok refs => autocommit (query (fun _ d =>
      List.filter (fun r => bool_decide ((task, r) ∈ deliveries d)
                            || reserved_by d task r) refs)) e d
  end.

Definition MarkDelivered (task : uuid) (refs : list TaskDeliveryRef) : Op unit :=
  fun e d =>
  match normalizeTaskDeliveryRefs refs with
  | Err x => (Err x, d)
  | Ok [] => (Ok tt, d)
  | Ok refs => autocommit (exec (fun _ d =>
      with_deliveries (list_to_set ((fun r => (task, r)) <$> refs) ∪ deliveries d) d)) e d
  end.

(** ** Attempts *)

Definition find_attempt (d : db) (task : uuid) (key : string)
    : option (uuid * NotificationAttempt) :=
  List.find (fun p => N.eqb (n_TaskID (snd p)) task
                      && String.eqb (n_OccurrenceKey (snd p)) key)
    (map_to_list (notifications d)).

Definition BeginNotificationAttempt (digest : bytes -> string) (task user : uuid)
    (txt : string) (refs : list TaskDeliveryRef) : Op (uuid * bool) := fun e d =>
  if N.eqb task uuid_Nil || N.eqb user uuid_Nil
  then (Err (EInvalidArgument "task_id and user_id are required"), d)
  else if blank txt then (Err (EInvalidArgument "text is required"), d)
  else match normalizeTaskDeliveryRefs refs with
  | Err x => (Err x, d)
  | Ok [] => (Err (EInvalidArgument "at least one delivery ref is required"), d)
  | Ok refs =>
    let refs := sortTaskDeliveryRefs refs in
    let key := taskNotificationOccurrenceKey digest refs in
    run_tx (
      id ← uuid_New;
      now0 ← tx_now;
      inserted ← stmt (fun _ d =>
        match tasks d !! task, find_attempt d task key with
        | Some t, None =>
            if N.eqb (UserID t) user then
              match notifications d !! id with
              | Some _ => Err EDuplicateKey
              | None => Ok (true, with_notifications
                  (<[id := MkNotificationAttempt task user key txt NDispatching
                             None None 1 None now0 now0 None]> (notifications d)) d)
              end
            else Ok (false, d)
        | _, _ => Ok (false, d)
        end);
      if (inserted : bool) then
        reserved ← exec_count (fun _ d =>
          let free := List.filter (fun r => negb (reserved_by d task r)) refs in
          (Z.of_nat (length free),
           with_attempt_items
             (attempt_items d ++ ((fun r => MkItem id task r) <$> free)) d));
        if negb (Z.eqb reserved (Z.of_nat (length refs))) then throw EOverlap
        else mret (Commit (id, true))
      else
        found ← query (fun _ d =>
          match find_attempt d task key with
          | Some (aid, a) => if N.eqb (n_UserID a) user then Some aid else None
          | None => None
          end);
        match (found : option uuid) with
        | None => throw (EInvalidArgument "task/user pair not found")
        | Some aid => mret (Commit (aid, false))
        end) e d
  end.

Definition resolve (st : AttemptState) (receipt : option json) (err : option string)
    (next : option time) (resolved : option time) (a : NotificationAttempt)
    : NotificationAttempt :=
  MkNotificationAttempt (n_TaskID a) (n_UserID a) (n_OccurrenceKey a) (n_Text a)
    st receipt err (n_AttemptCount a) next (n_LastAttemptAt a) (n_CreatedAt a)
    resolved.

(** [agent_task_notification_attempts_state_shape_check]. *)
Definition state_shape (a : NotificationAttempt) : bool :=
  match n_State a with
  | NDispatching => is_none (n_Receipt a) && is_none (n_Error a)
                    && is_none (n_NextAttemptAt a) && is_none (n_ResolvedAt a)
  | NRetryable => is_none (n_Receipt a) && is_some (n_Error a)
                  && is_some (n_NextAttemptAt a) && is_none (n_ResolvedAt a)
  | NSent => is_some (n_Receipt a) && is_none (n_Error a)
             && is_none (n_NextAttemptAt a) && is_some (n_ResolvedAt a)
  | NUncertain | NRejected => is_none (n_Receipt a) && is_some (n_Error a)
             && is_none (n_NextAttemptAt a) && is_some (n_ResolvedAt a)
  end.

(** [UPDATE ... WHERE id = $1 AND state = 'dispatching']. *)
Definition update_dispatching (id : uuid)
    (f : NotificationAttempt -> NotificationAttempt) (d : db) : db :=
  with_notifications (alter (fun a =>
    if bool_decide (n_State a = NDispatching) then f a else a) id (notifications d)) d.

Definition lock_attempt (id : uuid) : Tx NotificationAttempt :=
  a ← query (fun _ d => notifications d !! id);
  match (a : option NotificationAttempt) with
  | Some a => mret a
  | None => throw ENoRows
  end.

(** An autonomous turn is confirmed only for the user its marker names. *)
Definition ConfirmNotificationAttempt (uuid_Parse : string -> option uuid)
    (id : uuid) (transport : string) (receipt : json) : Op unit := fun e d =>
  if N.eqb id uuid_Nil then (Err (EInvalidArgument "id is required"), d)
  else if blank transport
  then (Err (EInvalidArgument "receipt transport is required"), d)
  else run_tx (
    a ← lock_attempt id;
    match ParseAutonomousTurnNotification uuid_Parse (n_Text a) with
    | Err x => throw (EAutonomousTurn x)
    | Ok turn =>
        if match turn with
           | Some c => negb (N.eqb (cm_UserID c) (n_UserID a))
           | None => false
           end
        then throw (EInvalidArgument "autonomous user")
        else match n_State a with
             | NSent => mret (Commit tt)
             | NDispatching =>
                 _ ← exec (fun _ d => with_deliveries
                   (list_to_set ((fun i => (i_TaskID i, i_Ref i)) <$>
                      List.filter (fun i => N.eqb (i_AttemptID i) id) (attempt_items d))
                    ∪ deliveries d) d);
                 now0 ← tx_now;
                 n ← exec_count (fun _ d =>
                   (if match notifications d !! id with
                       | Some a => bool_decide (n_State a = NDispatching)
                       | None => false
                       end then 1 else 0,
                    update_dispatching id
                      (resolve NSent (Some receipt) None None (Some now0)) d));
                 if negb (Z.eqb n 1) then throw (EInvalidState NDispatching)
                 else mret (Commit tt)
             | st => throw (EInvalidState st)
             end
    end) e d.

Definition MarkNotificationUncertain (id : uuid) (reason : string) : Op unit :=
  fun e d =>
  if N.eqb id uuid_Nil then (Err (EInvalidArgument "id is required"), d)
  else
    let reason := if String.eqb (TrimSpace reason) ""
                  then "notification delivery outcome is uncertain"%string
                  else TrimSpace reason in
    run_tx (
      a ← lock_attempt id;
      match n_State a with
      | NUncertain => mret (Commit tt)
      | NDispatching =>
          now0 ← tx_now;
          _ ← exec (fun _ => update_dispatching id
                (resolve NUncertain None (Some reason) None (Some now0)));
          mret (Commit tt)
      | st => throw (EInvalidState st)
      end) e d.

Definition DeferNotificationAttempt (id : uuid) (reason : string) (retryAt : time)
    : Op unit := fun e d =>
  if N.eqb id uuid_Nil then (Err (EInvalidArgument "id is required"), d)
  else if blank reason then (Err (EInvalidArgument "reason is required"), d)
  else if IsZero retryAt then (Err (EInvalidArgument "retry_at is required"), d)
  else run_tx (
    a ← lock_attempt id;
    match n_State a with
    | NRetryable => mret (Commit tt)
    | NDispatching =>
        _ ← exec (fun _ => update_dispatching id
              (fun a => resolve NRetryable (n_Receipt a) (Some (TrimSpace reason))
                          (Some retryAt) None a));
        mret (Commit tt)
    | st => throw (EInvalidState st)
    end) e d.

Definition RejectNotificationAttempt (id : uuid) (reason : string) : Op unit :=
  fun e d =>
  if N.eqb id uuid_Nil then (Err (EInvalidArgument "id is required"), d)
  else if blank reason then (Err (EInvalidArgument "reason is required"), d)
  else run_tx (
    a ← lock_attempt id;
    match n_State a with
    | NRejected => mret (Commit tt)
    | NDispatching =>
        now0 ← tx_now;
        _ ← exec (fun _ => update_dispatching id
              (fun a => resolve NRejected (n_Receipt a) (Some (TrimSpace reason))
                          None (Some now0) a));
        mret (Commit tt)
    | st => throw (EInvalidState st)
    end) e d.

(** [min(next_attempt_at)] over the retryable rows after [now]; zero time
    when there is none. *)
Definition NextNotificationRetry (now : time) (d : db) : time :=
  let dues := omap (fun p => match n_State (snd p), n_NextAttemptAt (snd p) with
                | NRetryable, Some t => if Z.ltb now t then Some t else None
                | _, _ => None
                end) (map_to_list (notifications d)) in
  match dues with
  | [] => time_zero
  | t :: rest => fold_left Z.min rest t
  end.

(** The queue order [next_attempt_at, created_at, id]. *)
Definition due (now : time) (locked : uuid -> bool) (p : uuid * NotificationAttempt)
    : option (time * time * uuid) :=
  match n_State (snd p), n_NextAttemptAt (snd p) with
  | NRetryable, Some t =>
      if Z.leb t now && negb (locked (fst p))
      then Some (t, n_CreatedAt (snd p), fst p) else None
  | _, _ => None
  end.
Definition before (x y : time * time * uuid) : bool :=
  let '(t1, c1, i1) := x in
  let '(t2, c2, i2) := y in
  Z.ltb t1 t2 || (Z.eqb t1 t2 && (Z.ltb c1 c2 || (Z.eqb c1 c2 && N.ltb i1 i2))).
Fixpoint earliest (l : list (time * time * uuid)) : option (time * time * uuid) :=
  match l with
  | [] => None
  | x :: l' => match earliest l' with
               | Some y => if before y x then Some y else Some x
               | None => Some x
               end
  end.

Record TaskNotificationIntent := MkIntent {
  ni_ID : uuid;
  ni_TaskID : uuid;
  ni_UserID : uuid;
  ni_Text : string;
  ni_Refs : list TaskDeliveryRef;
}.

Definition redispatch (now : time) (a : NotificationAttempt) : NotificationAttempt :=
  MkNotificationAttempt (n_TaskID a) (n_UserID a) (n_OccurrenceKey a) (n_Text a)
    NDispatching (n_Receipt a) None (n_AttemptCount a + 1) None now (n_CreatedAt a) None.

(** [locked] tells which rows another drainer holds ([SKIP LOCKED]). *)
Definition ClaimRetryableNotification (locked : uuid -> bool) (now : time)
    : Op (option TaskNotificationIntent) := fun e d =>
  if IsZero now then (Err (EInvalidArgument "now is required"), d)
  else run_tx (
    claimed ← stmt (fun _ d =>
      match earliest (omap (due now locked) (map_to_list (notifications d))) with
      | None => Ok (None, d)
      | Some (_, _, id) =>
          Ok ((fun a => (id, a)) <$> notifications d !! id,
              with_notifications (alter (redispatch now) id (notifications d)) d)
      end);
    match (claimed : option (uuid * NotificationAttempt)) with
    | None => mret (Rollback None)
    | Some (id, a) =>
        refs ← query (fun _ d => sortTaskDeliveryRefs (i_Ref <$>
                 List.filter (fun i => N.eqb (i_AttemptID i) id) (attempt_items d)));
        match (refs : list TaskDeliveryRef) with
        | [] => throw ENoRefs
        | _ => mret (Commit (Some (MkIntent id (n_TaskID a) (n_UserID a) (n_Text a) refs)))
        end
    end) e d.
