(* ===== verification/History.v ===== *)
(** * History: confirmed autonomous turns in the chat history

    internal/core/agent_store.go: a sent notification that carries an
    autonomous turn is written into the dialogue it belongs to, from its
    journal row ([ProjectAutonomousHistoryAttempt], [projectAutonomousTurn]),
    before the next turn of the conversation
    ([EnsureAutonomousHistoryForSession]) and in the background
    ([ReconcileAutonomousHistory]).

    Outside the program: [uuid_Parse] and [uuid_NewSHA1] of the uuid package. *)

From Stdlib Require Import Ascii String.
From S2P Require Import Prelude GoStrings Json GoJson JsonText Task GoTime TaskPlan AutonomousTurn.
From S2P Require Import Conversation Projection Store StepStore Journal.

Local Open Scope Z_scope.

Record TaskNotificationReceipt := MkReceipt {
  Transport : string;
  MessageID : string;
  DeliveredAt : time;
}.

Section history.
Context (uuid_Parse : string -> option uuid) (uuid_NewSHA1 : uuid -> bytes -> uuid).

Definition AutonomousTurnMessageIDs (attemptID : uuid) : uuid * uuid :=
  (uuid_NewSHA1 attemptID (lit "autonomous-turn-boundary/v1"),
   uuid_NewSHA1 attemptID (lit "autonomous-turn-assistant/v1")).

Definition unmarshal_receipt (j : json) : option TaskNotificationReceipt :=
  if is_object j || is_null j then
    tr ← decode_string "transport" j; _ ← decode_string "bot_id" j;
    _ ← decode_string "chat_id" j; mid ← decode_string "message_id" j;
    at_ ← decode_field time_zero json_time "delivered_at" j;
    Some (MkReceipt tr mid at_)
  else None.

Definition text_content (s : bytes) : list ContentBlock :=
  [MkBlock "text" s "" [] [] [] "" (RText []) false].

(** The two rows of a turn. *)
Definition boundary_row (c : AutonomousTurnCommit) (sessionID : uuid) (deliveredAt : time)
    : ChatMessage :=
  MkChatMessage (cm_SoulID c) sessionID "turn_boundary" [] 0 None (deliveredAt - 1000)
    (ProjectMessageForWrite "turn_boundary" None [] (Some (lit "[]"))).
Definition assistant_row (c : AutonomousTurnCommit) (sessionID : uuid) (deliveredAt : time)
    (tgMessageID : option Z) : ChatMessage :=
  let blocks := text_content (TrimSpace_b (lit (cm_Text c))) in
  MkChatMessage (cm_SoulID c) sessionID "assistant" blocks (EstimateTokens blocks)
    tgMessageID deliveredAt
    (ProjectMessageForWrite "assistant" (Some (lit (cm_Text c))) blocks
       (Some (lit "[" ++ marshal_struct [("type", "text"); ("text", TrimSpace (cm_Text c))]%string
              ++ lit "]"))).

(** [INSERT ... ON CONFLICT (id) DO NOTHING] and its affected-row count. *)
Definition insert_message (id : uuid) (m : ChatMessage) (d : db) : Z * db :=
  match chat_messages d !! id with
  | Some _ => (0, d)
  | None => (1, with_chat_messages (<[id := m]> (chat_messages d)) d)
  end.

Definition owned_session (s : ChatSession) (c : AutonomousTurnCommit) : bool :=
  N.eqb (cs_UserID s) (cm_UserID c) && N.eqb (cs_SoulID s) (cm_SoulID c)
  && String.eqb (cs_Source s) "chat".

Definition telegram_id (r : TaskNotificationReceipt) : res StoreError (option Z) :=
  if String.eqb (Transport r) "telegram" then
    match ParseInt (TrimSpace_b (lit (MessageID r))) with
    | Some n => if Z.leb n 0 then Err (EInvalidArgument "telegram message id") else Ok (Some n)
    | None => Err (EInvalidArgument "telegram message id")
    end
  else Ok None.

Definition bump (now : time) (tokens rows : Z) (s : ChatSession) : ChatSession :=
  MkChatSession (cs_UserID s) (cs_SoulID s) (cs_Source s) (cs_TokenCount s + tokens)
    (cs_MessageCount s + rows) now.

Definition projectAutonomousTurn (attemptID : uuid) (deliveredAt : time)
    (c : AutonomousTurnCommit) (receipt : TaskNotificationReceipt) : Tx unit :=
  match uuid_Parse (TrimSpace (cm_SessionID c)) with
  | None => throw (EInvalidArgument "session id")
  | Some sessionID =>
      sessionExists ← query (fun _ d =>
        match chat_sessions d !! sessionID with
        | Some s => owned_session s c
        | None => false
        end);
      if negb sessionExists then throw (EInvalidArgument "session")
      else match telegram_id receipt with
      | Err e => throw e
      | Ok tgMessageID =>
          let '(boundaryID, assistantID) := AutonomousTurnMessageIDs attemptID in
          let row := assistant_row c sessionID deliveredAt tgMessageID in
          boundaryInserted ← exec_count (fun _ =>
            insert_message boundaryID (boundary_row c sessionID deliveredAt));
          assistantInserted ← exec_count (fun _ => insert_message assistantID row);
          if Z.eqb (boundaryInserted + assistantInserted) 0 then mret tt
          else
            now0 ← tx_now;
            exec (fun _ d => with_chat_sessions
              (alter (bump now0 (m_TokenEstimate row * assistantInserted)
                        (boundaryInserted + assistantInserted)) sessionID (chat_sessions d)) d)
      end
  end.

Definition delivered_at (r : TaskNotificationReceipt) (a : NotificationAttempt) : time :=
  let at_ := match n_ResolvedAt a with
             | Some t => if IsZero (DeliveredAt r) then t else DeliveredAt r
             | None => DeliveredAt r
             end in
  if IsZero at_ then n_LastAttemptAt a else at_.

Definition ProjectAutonomousHistoryAttempt (id : uuid) : Op unit := fun e d =>
  if N.eqb id uuid_Nil then (Err (EInvalidArgument "attempt id is required"), d)
  else run_tx (
    row ← query (fun _ d => (notifications d !! id, history_projected d !! id));
    match (row : option NotificationAttempt * option time) with
    | (None, _) => throw ENoRows
    | (Some _, Some _) => mret (Commit tt)
    | (Some a, None) =>
        if negb (bool_decide (n_State a = NSent)) then throw (EInvalidState (n_State a))
        else match ParseAutonomousTurnNotification uuid_Parse (n_Text a) with
        | Err x => throw (EAutonomousTurn x)
        | Ok None => throw (EInvalidArgument "not autonomous")
        | Ok (Some c) =>
            if negb (N.eqb (cm_UserID c) (n_UserID a))
            then throw (EInvalidArgument "autonomous user")
            else match r ← n_Receipt a; unmarshal_receipt r with
            | None => throw (EInvalidArgument "receipt")
            | Some receipt =>
                _ ← projectAutonomousTurn id (delivered_at receipt a) c receipt;
                now0 ← tx_now;
                _ ← exec (fun _ d =>
                  match notifications d !! id, history_projected d !! id with
                  | Some a, None =>
                      if bool_decide (n_State a = NSent)
                      then with_history_projected (<[id := now0]> (history_projected d)) d
                      else d
                  | _, _ => d
                  end);
                mret (Commit tt)
            end
        end
    end) e d.

(** The sent attempts with a marker that no projection has marked. *)
Definition pending_history (d : db) : list (uuid * NotificationAttempt) :=
  List.filter (fun p => bool_decide (n_State (snd p) = NSent)
      && is_none (history_projected d !! fst p)
      && HasPrefix (lit (n_Text (snd p))) autonomousTurnNotificationPrefix)
    (map_to_list (notifications d)).

(** [ORDER BY resolved_at]: NULLs last, first when descending. *)
Definition resolved_le (x y : uuid * NotificationAttempt) : bool :=
  match n_ResolvedAt (snd x), n_ResolvedAt (snd y) with
  | Some t, Some u => Z.ltb t u || (Z.eqb t u && N.leb (fst x) (fst y))
  | Some _, None => true
  | None, Some _ => false
  | None, None => N.leb (fst x) (fst y)
  end.
Definition resolved_ge (x y : uuid * NotificationAttempt) : bool :=
  match n_ResolvedAt (snd x), n_ResolvedAt (snd y) with
  | Some t, Some u => Z.ltb u t || (Z.eqb t u && N.leb (fst x) (fst y))
  | None, Some _ => true
  | Some _, None => false
  | None, None => N.leb (fst x) (fst y)
  end.

(** The projections of a list of attempts, each its own transaction: those
    that succeeded and the errors of the others. *)
Fixpoint project_each (envs : nat -> env) (ids : list uuid) (d : db)
    : list uuid * list (uuid * StoreError) * db :=
  match ids with
  | [] => ([], [], d)
  | id :: rest =>
      let '(r, d1) := ProjectAutonomousHistoryAttempt id (envs 0%nat) d in
      let '(done, errs, d2) := project_each (fun k => envs (S k)) rest d1 in
      match r with
      | Ok _ => (id :: done, errs, d2)
      | Err x => (done, (id, x) :: errs, d2)
      end
  end.

Definition belongs (user soul : uuid) (sessionID : string)
    (p : uuid * NotificationAttempt) : bool :=
  match ParseAutonomousTurnNotification uuid_Parse (n_Text (snd p)) with
  | Ok (Some c) => N.eqb (cm_UserID c) user && N.eqb (cm_SoulID c) soul
                   && String.eqb (cm_SessionID c) sessionID
  | _ => false
  end.

(** The first transaction of [envs] is the listing's. *)
Definition EnsureAutonomousHistoryForSession (user soul : uuid) (sessionID : string)
    (envs : nat -> env) (d : db) : res StoreError (list (uuid * StoreError)) * db :=
  if N.eqb user uuid_Nil || N.eqb soul uuid_Nil || blank sessionID
  then (Err (EInvalidArgument "user, soul, and session are required"), d)
  else match autocommit (query (fun _ d => order_by resolved_le
               (List.filter (fun p => N.eqb (n_UserID (snd p)) user) (pending_history d))))
             (envs 0%nat) d with
  | (Err x, d) => (Err x, d)
  | (Ok candidates, d) =>
      let ids := fst <$> List.filter (belongs user soul sessionID) candidates in
      let '(_, errs, d') := project_each (fun k => envs (S k)) ids d in
      (Ok errs, d')
  end.

Definition ReconcileAutonomousHistory (limit : Z) (envs : nat -> env) (d : db)
    : res StoreError (Z * list (uuid * StoreError)) * db :=
  if Z.leb limit 0 then (Ok (0, []), d)
  else match autocommit (query (fun _ d =>
               take (Z.to_nat limit) (order_by resolved_ge (pending_history d))))
             (envs 0%nat) d with
  | (Err x, d) => (Err x, d)
  | (Ok candidates, d) =>
      let '(done, errs, d') := project_each (fun k => envs (S k)) (fst <$> candidates) d in
      (Ok (Z.of_nat (length done), errs), d')
  end.
End history.
