(* ===== verification/Lifecycle.v ===== *)
(** * Lifecycle: what the step store guarantees over whole executions

    [store_step] is one committed or aborted transaction on the tables;
    [rtc store_step] an execution.  The theorems are about every state an
    execution reaches: effects are exclusive, confirmed steps final, uncertain
    effects not repeated, workers and coordinators fenced by their leases, and
    admission bounded per owner. *)

From Stdlib Require Import Ascii String.
From S2P Require Import Prelude GoStrings Json Task TaskPlan Store StepStore StepInv.

Local Open Scope Z_scope.

(** One transaction.  [ss_other] stands for every transaction that does not
    write [agent_task_steps], whatever it does to the other tables. *)
Inductive store_step (d d' : db) : Prop :=
| ss_save order id claim l e r :
    ranges_over order -> SaveTaskSteps order id claim l e d = (r, d') ->
    store_step d d'
| ss_claim id sid lease e r :
    ClaimTaskStep id sid lease e d = (r, d') -> store_step d d'
| ss_write id sid run op e r :
    worker_write id sid run op -> op e d = (r, d') -> store_step d d'
| ss_recover id e r : RecoverTaskSteps id e d = (r, d') -> store_step d d'
| ss_resolve id e r : ResolveStuckTaskSteps id e d = (r, d') -> store_step d d'
| ss_coordinator start_at id lease e r :
    ClaimGraphTask start_at id lease e d = (r, d') -> store_step d d'
| ss_other : steps d' = steps d -> store_step d d'.

(** ** Coordinator claims *)

Lemma ClaimGraphTask_none start_at id lease e d r d' :
  ClaimGraphTask start_at id lease e d = (r, d') ->
  (forall x, r <> Ok (Some x)) -> d' = d.
Proof.
  intros H Hn. destruct r as [[x|]|x]; [by destruct (Hn x)| |].
  - unfold ClaimGraphTask in H. case_match; [done|].
    apply run_tx_Ok in H as (_ & n & d1 & [[Hb ->]|[_ ->]]); [|done].
    exfalso. tx_inv; repeat (split_match; tx_inv).
  - unfold ClaimGraphTask in H. case_match; [by simplify_eq|].
    by eapply run_tx_err.
Qed.

Lemma ClaimGraphTask_change start_at id lease e d r d' :
  ClaimGraphTask start_at id lease e d = (r, d') -> step_change (steps d) (steps d').
Proof.
  intros H. destruct r as [[x|]|x].
  - apply ClaimGraphTask_Ok in H
      as (task & k & m & new & _ & _ & _ & _ & _ & _ & _ & _ & -> & _).
    apply sc_living, living_update. intros s _ Hp. bool_to_prop.
    by apply recovered_life.
  - rewrite (ClaimGraphTask_none _ _ _ _ _ _ _ H); [|done]. apply step_change_refl.
  - rewrite (ClaimGraphTask_none _ _ _ _ _ _ _ H); [|done]. apply step_change_refl.
Qed.

Lemma store_step_change d d' : store_step d d' -> step_change (steps d) (steps d').
Proof.
  intros [order id claim l e r Ho H|id sid lease e r H|id sid run op e r Hw H
         |id e r H|id e r H|start_at id lease e r H| ->].
  - by eapply SaveTaskSteps_change.
  - by eapply ClaimTaskStep_change.
  - by eapply worker_write_change.
  - by eapply RecoverTaskSteps_change.
  - by eapply ResolveStuckTaskSteps_change.
  - by eapply ClaimGraphTask_change.
  - apply step_change_refl.
Qed.

Lemma reachable_inv d d' :
  rtc store_step d d' -> steps_inv (steps d) -> steps_inv (steps d').
Proof.
  induction 1 as [|d d1 d' Hs _ IH]; [done|].
  intros Hi. apply IH. eapply step_change_inv; [by apply store_step_change|done].
Qed.

Lemma empty_inv : steps_inv (steps empty_db).
Proof. split; [constructor|intros ? ? []%elem_of_nil|intros ? []%elem_of_nil..]. Qed.

(** ** A sample execution *)

Definition sample_env (run : uuid) (now : time) : env :=
  MkEnv (fun _ => now) (fun _ => now) (fun k => N.of_nat (100 + k)) (fun _ => false) run.
Definition sample_task : AgentTask :=
  MkAgentTask 2 1%N 7%N 8%N "report" None None StrategyDirect "background" None
    (JObj []) JNull [] [] None None None TRunning (JObj []) None None 0 100
    (Some 5) None 1 None [].
Definition sample_run (until : time) : TaskRun := MkTaskRun 1%N 50%N until 0 0 0.
Definition sample_start : db :=
  with_runs {[1%N := sample_run (60 * Second)]}
    (with_tasks {[1%N := sample_task]} empty_db).
Definition sample_saved : db :=
  snd (SaveTaskSteps keys_order 1 5 sample_plan (sample_env 50 10) sample_start).
Definition sample_claimed : db :=
  snd (ClaimTaskStep 1 "a" Minute (sample_env 50 20) sample_saved).
Definition sample_confirmed : db :=
  snd (CompleteTaskStep 1 "a" 103 "body" (sample_env 50 30) sample_claimed).

Example sample_statuses :
  s_Status <$> steps sample_confirmed = [SDone; SPending; SPending].
Proof. by vm_compute. Qed.

Lemma sample_reachable : rtc store_step empty_db sample_claimed.
Proof.
  apply (rtc_l _ _ sample_start); [by apply ss_other|].
  apply (rtc_l _ _ sample_saved).
  { exact (ss_save _ _ _ _ _ _ _ _ keys_order_ranges (surjective_pairing _)). }
  apply rtc_once. exact (ss_claim _ _ _ _ _ _ _ (surjective_pairing _)).
Qed.

(** ** Steps *)

(** C1: in every state an execution reaches, step names are unique within a
    task, an effectful (not [read]) step that is running or uncertain excludes
    every other running or uncertain step of its task, every step attempted at
    least once has all its dependencies confirmed, and no step was attempted
    more often than its budget allows. *)
Theorem steps_invariant d :
  rtc store_step empty_db d ->
  NoDup (skey <$> steps d)
  /\ (forall s1 s2, s1 ∈ steps d -> s2 ∈ steps d -> s_TaskID s1 = s_TaskID s2 ->
        is_active s1 = true -> is_active s2 = true -> is_read s1 = false -> s1 = s2)
  /\ (forall s dep, s ∈ steps d -> 0 < s_Attempts s -> dep ∈ s_Dependencies s ->
        exists p, p ∈ steps d /\ skey p = (s_TaskID s, dep) /\ s_Status p = SDone)
  /\ (forall s, s ∈ steps d -> 0 <= s_Attempts s <= s_MaxAttempts s).
Proof.
  intros [Hk He Hd Ha _]%reachable_inv; [|apply empty_inv]. split_and!.
  - done.
  - intros s1 s2 H1 H2 Ht Ha1 Ha2 Hr.
    destruct (decide (s_ID s1 = s_ID s2)) as [Hi|Hi].
    + eapply skey_inj; eauto. unfold skey. congruence.
    + rewrite (He s1 s2) in Hr; done.
  - intros s dep Hs Hpos Hdep. by apply (Hd s Hs Hpos).
  - intros s Hs. by apply Ha.
Qed.

Lemma steps_invariant_witness :
  rtc store_step empty_db sample_claimed /\ NoDup (skey <$> steps sample_claimed).
Proof.
  split; [exact sample_reachable|].
  exact (proj1 (steps_invariant sample_claimed sample_reachable)).
Defined.

Lemma rtc_done d d' s :
  rtc store_step d d' -> s ∈ steps d -> s_Status s = SDone -> s ∈ steps d'.
Proof.
  induction 1 as [|d d1 d' Hs _ IH]; [done|]. intros Hin Hd. apply IH; [|done].
  eapply step_change_done; eauto. by apply store_step_change.
Qed.

Lemma rtc_reconciliation d d' s :
  rtc store_step d d' -> s ∈ steps d ->
  s_Status s = SReconciliation \/ s_Status s = SDone ->
  exists s', s' ∈ steps d' /\ skey s' = skey s /\ s_Attempts s' = s_Attempts s
    /\ (s_Status s' = SReconciliation \/ s_Status s' = SDone).
Proof.
  intros H. revert s. induction H as [|d d1 d' Hs _ IH]; intros s Hin Hst; [eauto|].
  assert (exists s', s' ∈ steps d1 /\ skey s' = skey s /\ s_Attempts s' = s_Attempts s
    /\ (s_Status s' = SReconciliation \/ s_Status s' = SDone))
    as (s1 & H1 & Hk1 & Ha1 & Hst1).
  { apply store_step_change in Hs. destruct Hst as [Hr|Hd].
    - by apply (step_change_reconciliation (steps d) (steps d1)).
    - exists s. split; [by eapply step_change_done|auto]. }
  destruct (IH s1 H1 Hst1) as (s2 & ? & ? & ? & ?).
  exists s2. repeat split; [done|congruence|congruence|done].
Qed.

(** C2: a step whose external effect may have happened is never executed
    again.  From [done] or [reconciliation] no transaction leads anywhere but
    [done], the attempt counter stays as it was, and a confirmed row (its
    result included) is never rewritten; and a step that was attempted and
    waits for another attempt, or is blocked, either has no external effect or
    holds a saved candidate that resumes without its tools. *)
Theorem effects_not_repeated d d' s :
  rtc store_step d d' -> steps_inv (steps d) -> s ∈ steps d ->
  (s_Status s = SDone -> s ∈ steps d')
  /\ (s_Status s = SReconciliation ->
      forall s', s' ∈ steps d' -> skey s' = skey s ->
        s_Attempts s' = s_Attempts s
        /\ (s_Status s' = SReconciliation \/ s_Status s' = SDone))
  /\ (forall s', s' ∈ steps d' -> 0 < s_Attempts s' ->
        s_Status s' = SPending \/ s_Status s' = SBlocked ->
        stepNeedsReconciliation s' = false).
Proof.
  intros Hr Hinv Hs. split; [by intros; eapply rtc_done|].
  split; [|intros s'; by apply (inv_released _ (reachable_inv _ _ Hr Hinv))].
  intros Hst s' Hs' Hk.
  destruct (rtc_reconciliation _ _ _ Hr Hs (or_introl Hst)) as (s1 & H1 & Hk1 & Ha1 & Hst1).
  pose proof (inv_keys _ (reachable_inv _ _ Hr Hinv)) as Hnd.
  rewrite (skey_inj _ s' s1 Hnd Hs' H1) by congruence. done.
Qed.

Definition sample_first (d : db) : TaskStep :=
  default (sample_step "" "" [] []) (head (steps d)).

Lemma sample_confirmed_reachable : rtc store_step empty_db sample_confirmed.
Proof.
  eapply rtc_r; [exact sample_reachable|].
  exact (ss_write _ _ _ _ _ _ _ _ (ww_complete _ _ _ _) (surjective_pairing _)).
Qed.

Lemma effects_not_repeated_witness :
  s_Status (sample_first sample_confirmed) = SDone
  /\ sample_first sample_confirmed ∈
       steps (snd (RecoverTaskSteps 1 (sample_env 50 (100 * Minute)) sample_confirmed)).
Proof.
  split; [by vm_compute|].
  refine (proj1 (effects_not_repeated sample_confirmed _ (sample_first sample_confirmed)
    _ _ _) _).
  - apply rtc_once. exact (ss_recover _ _ _ _ _ (surjective_pairing _)).
  - exact (reachable_inv _ _ sample_confirmed_reachable empty_inv).
  - apply list_elem_of_lookup. exists 0%nat. by vm_compute.
  - by vm_compute.
Defined.

(** C21: a worker's checkpoint, completion or failure report changes the tables
    only while its task runs under the coordinator run its context carries and
    its own unexpired lease is on the running row; it then rewrites that row
    alone.  In every other case it reports an error and changes nothing. *)
Theorem worker_write_fenced id sid run op e d r d' :
  worker_write id sid run op -> op e d = (r, d') -> NoDup (skey <$> steps d) ->
  (exists x, r = Err x /\ d' = d)
  \/ (r = Ok tt /\ executing e d id None
      /\ exists k s l, s ∈ steps d /\ skey s = (id, sid) /\ s_Status s = SRunning
         /\ s_RunID s = Some run /\ s_LeaseUntil s = Some l /\ clk e k < l
         /\ (forall o, o ∈ steps d -> o <> s -> o ∈ steps d')
         /\ tasks d' = tasks d /\ runs d' = runs d /\ artifacts d' = artifacts d).
Proof.
  intros Hw H Hnd. destruct (worker_write_cases _ _ _ _ _ _ _ _ Hw H) as [[Hr ->]|[-> Ha]].
  - left. destruct r as [[]|x]; [done|eauto].
  - right. split; [done|]. destruct Ha as (Hex & k & s & f & Hs & Ho & Hf & ->).
    split; [done|]. unfold owns in Ho. bool_to_prop.
    destruct (s_LeaseUntil s) as [l|] eqn:Hl; [|done]. bool_to_prop.
    match goal with H : same_step _ _ _ = true |- _ => apply same_step_skey in H as Hk end.
    exists k, s, l. do 6 (split; [done|]). split; [|done].
    intros o Hin Hne. apply update_where_elem. exists o. split; [done|].
    destruct (owns id sid run (clk e k) o) eqn:Ho; [|done].
    unfold owns in Ho. bool_to_prop.
    match goal with H : same_step _ _ o = true |- _ => apply same_step_skey in H as Hko end.
    destruct Hne. eapply skey_inj; eauto. congruence.
Qed.

Lemma worker_write_fenced_witness :
  let r := CompleteTaskStep 1 "a" 103 "body" (sample_env 50 (2 * Minute)) sample_claimed in
  fst r <> Ok tt /\ snd r = sample_claimed.
Proof.
  cbv zeta.
  set (r := CompleteTaskStep 1 "a" 103 "body" (sample_env 50 (2 * Minute)) sample_claimed).
  assert (fst r <> Ok tt) as Hr by (by vm_compute).
  split; [done|].
  destruct (worker_write_fenced 1 "a" 103 (CompleteTaskStep 1 "a" 103 "body")
    (sample_env 50 (2 * Minute)) sample_claimed (fst r) (snd r)) as [(x & _ & ?)|[? _]].
  - apply ww_complete.
  - apply surjective_pairing.
  - apply (inv_keys _ (reachable_inv _ _ sample_reachable empty_inv)).
  - done.
  - by destruct Hr.
Defined.

(** ** Coordinators *)

(** The writes a coordinator and its workers make to a claimed task. *)
Inductive graph_write (id : uuid) : forall A, Op A -> Prop :=
| gw_save order claim l : graph_write id unit (SaveTaskSteps order id claim l)
| gw_claim sid lease : graph_write id (option TaskStep) (ClaimTaskStep id sid lease)
| gw_worker sid run op : worker_write id sid run op -> graph_write id unit op
| gw_recover : graph_write id unit (RecoverTaskSteps id)
| gw_resolve : graph_write id Z (ResolveStuckTaskSteps id)
| gw_renew lease : graph_write id unit (RenewGraphTask id lease)
| gw_yield timestamp_text next : graph_write id unit (YieldGraphTask timestamp_text id next)
| gw_progress progress : graph_write id unit (SaveGraphProgress id progress).

(** A body that locks its task first. *)
Lemma locked_run_tx {A} id claim dl (k : unit -> Tx (ending A)) e d r d' :
  run_tx (lockTaskExecution id claim dl ≫= k) e d = (r, d') ->
  (exists x, r = Err x /\ d' = d) \/ executing e d id claim.
Proof.
  intros H. destruct r as [a|x]; [right|left; exists x; split; [done|by eapply run_tx_err]].
  apply run_tx_Ok in H as (_ & n & d1 & [[Hb _]|[Hb _]]);
    by apply tx_bind_Ok in Hb as (u & n1 & d2 & [_ Hex]%lock_Ok & _).
Qed.

Lemma executing_run e d id claim t r :
  executing e d id claim -> tasks d !! id = Some t -> ExecutorVersion t = 2 ->
  runs d !! id = Some r -> r_RunID r = ctx_run e.
Proof.
  intros (t' & Ht' & _ & _ & Hrun) Ht Hv Hr. simplify_eq.
  destruct (Hrun Hv) as (_ & r' & k & ? & ? & _). by simplify_eq.
Qed.

Lemma graph_write_locked id A (op : Op A) e d r d' :
  graph_write id A op -> op e d = (r, d') ->
  (exists x, r = Err x /\ d' = d) \/ exists claim, executing e d id claim.
Proof.
  intros Hg. revert r. destruct Hg as [order claim l|sid lease|sid run o Hw| | |lease|tt next|progress];
    intros r H.
  - unfold SaveTaskSteps in H. destruct (ValidateTaskSteps order l);
      [|simplify_eq; eauto]. apply locked_run_tx in H as [?|?]; eauto.
  - unfold ClaimTaskStep in H. case_match; [simplify_eq; eauto|].
    apply locked_run_tx in H as [?|?]; eauto.
  - destruct (worker_write_cases _ _ _ _ _ _ _ _ Hw H) as [[Hr ->]|[_ [? _]]]; [|eauto].
    left. destruct r as [[]|x]; [done|eauto].
  - apply locked_run_tx in H as [?|?]; eauto.
  - apply locked_run_tx in H as [?|?]; eauto.
  - unfold RenewGraphTask in H. case_match; [simplify_eq; eauto|].
    apply locked_run_tx in H as [?|?]; eauto.
  - apply locked_run_tx in H as [?|?]; eauto.
  - apply locked_run_tx in H as [?|?]; eauto.
Qed.

(** Once another coordinator has claimed the task, nothing the previous
    one (or a worker acting under its run) does to the plan, the steps, the
    progress or the lease succeeds, and nothing of it changes the tables. *)
Theorem stale_coordinator_fenced start_at id lease e d r d1 A (op : Op A) e2 res d2 :
  ClaimGraphTask start_at id lease e d = (Ok (Some r), d1) ->
  graph_write id A op -> ctx_run e2 <> r_RunID r -> op e2 d1 = (res, d2) ->
  (exists x, res = Err x) /\ d2 = d1.
Proof.
  intros Hc Hw Hne Hop.
  apply ClaimGraphTask_Ok in Hc
    as (t & k & m & new & Ht & Hct & _ & _ & _ & _ & Htasks & Hruns & _).
  destruct (graph_write_locked _ _ _ _ _ _ _ Hw Hop) as [(x & -> & ->)|(claim & Hex)];
    [eauto|].
  destruct Hne. symmetry. eapply executing_run; [exact Hex| | |].
  - by rewrite Htasks, lookup_alter_eq, Ht.
  - simpl. unfold claimable_task in Hct. by bool_to_prop.
  - by rewrite Hruns, lookup_insert_eq.
Qed.

Definition no_start (_ : json) : option time := None.
Definition sample_reclaim :=
  ClaimGraphTask no_start 1 Minute (sample_env 0 (2 * Minute)) sample_claimed.

Lemma stale_coordinator_fenced_witness :
  exists r d1, sample_reclaim = (Ok (Some r), d1) /\ r_RunID r <> 50%N
    /\ snd (CompleteTaskStep 1 "a" 103 "late" (sample_env 50 (2 * Minute)) d1) = d1.
Proof.
  destruct sample_reclaim as [[[r|]|x] d1] eqn:E;
    [|exfalso; revert E; by vm_compute..].
  assert (r_RunID r = 104%N) as Hr.
  { revert E. vm_compute. by intros [= <- _]. }
  exists r, d1. split; [done|]. split; [by rewrite Hr|].
  exact (proj2 (stale_coordinator_fenced no_start 1 Minute (sample_env 0 (2 * Minute))
    sample_claimed r d1 unit (CompleteTaskStep 1 "a" 103 "late")
    (sample_env 50 (2 * Minute)) _ _ E
    (gw_worker 1 "a" 103 _ (ww_complete _ _ _ _))
    ltac:(rewrite Hr; discriminate) (surjective_pairing _))).
Defined.
