(* ===== verification/Admission.v ===== *)
(** * Admission: at most two live coordinators per owner

    [ClaimGraphTask] counts the owner's unexpired leases before it takes one.
    The invariant [capped] of the tables at an instant says the count stays
    within [MaxConcurrentGraphTasksPerUser]; every transaction on the leases
    keeps it at all later instants. *)

From Stdlib Require Import Ascii String.
From S2P Require Import Prelude GoStrings Json Task TaskPlan Store StepStore StepInv Lifecycle.

Local Open Scope Z_scope.

(** Does the lease [r] on task [id] count for [user] at [now]? *)
Definition live_for (d : db) (user : uuid) (now : time) (id : uuid) (r : TaskRun) : bool :=
  match tasks d !! id with
  | Some t => N.eqb (UserID t) user && Z.eqb (ExecutorVersion t) 2
              && tstatus_in (Status t) [TPending; TRunning]
  | None => false
  end && Z.ltb now (r_LeaseUntil r).

Definition live_leases (d : db) (user : uuid) (now : time) : Z :=
  affected (fun p => live_for d user now (fst p) (snd p)) (map_to_list (runs d)).

Definition capped (now : time) (d : db) : Prop :=
  forall user t, now <= t -> live_leases d user t <= MaxConcurrentGraphTasksPerUser.

(** An environment whose clock only moves forward, within [now, now']. *)
Definition clock_within (e : env) (now now' : time) : Prop :=
  now <= clk e 0%nat /\ (forall j k, (j <= k)%nat -> clk e j <= clk e k)
  /\ forall k, clk e k <= now'.

(** Transactions on leases, and any other one: it keeps the leases and gives
    none of the leased tasks to another owner nor reactivates it. *)
Definition keeps_leases (d d' : db) : Prop :=
  runs d' = runs d /\
  forall id r t', runs d !! id = Some r -> tasks d' !! id = Some t' ->
    ExecutorVersion t' = 2 -> tstatus_in (Status t') [TPending; TRunning] = true ->
    exists t, tasks d !! id = Some t /\ UserID t = UserID t' /\ ExecutorVersion t = 2
      /\ tstatus_in (Status t) [TPending; TRunning] = true.

Inductive lease_step : time * db -> time * db -> Prop :=
| ls_claim start_at id lease e r now now' d d' :
    clock_within e now now' -> ClaimGraphTask start_at id lease e d = (r, d') ->
    lease_step (now, d) (now', d')
| ls_renew id lease e r now now' d d' :
    clock_within e now now' -> RenewGraphTask id lease e d = (r, d') ->
    lease_step (now, d) (now', d')
| ls_yield timestamp_text id next e r now now' d d' :
    clock_within e now now' -> YieldGraphTask timestamp_text id next e d = (r, d') ->
    lease_step (now, d) (now', d')
| ls_other now now' d d' :
    now <= now' -> keeps_leases d d' -> lease_step (now, d) (now', d').

(** ** Counting *)

Lemma affected_perm {A} (p : A -> bool) l l' : l ≡ₚ l' -> affected p l = affected p l'.
Proof.
  unfold affected. induction 1 as [|x l l' _ IH|x y l|l1 l2 l3 _ IH1 _ IH2]; simpl.
  - done.
  - destruct (p x); simpl; lia.
  - destruct (p x), (p y); simpl; lia.
  - congruence.
Qed.

Lemma affected_mono {A} (p q : A -> bool) l :
  (forall x, x ∈ l -> p x = true -> q x = true) -> affected p l <= affected q l.
Proof.
  unfold affected. induction l as [|x l IH]; intros H; simpl; [lia|].
  assert (p x = true -> q x = true) as Hx by (apply H; set_solver).
  specialize (IH (fun y Hy => H y ltac:(set_solver))).
  destruct (p x); [rewrite Hx by done; simpl; lia|].
  destruct (q x); simpl; lia.
Qed.

Lemma affected_ext {A} (p q : A -> bool) l :
  (forall x, x ∈ l -> p x = q x) -> affected p l = affected q l.
Proof.
  intros H. apply Z.le_antisymm; apply affected_mono; intros x Hx;
    rewrite (H x Hx); done.
Qed.

Definition others (d : db) (user id : uuid) (t : time) : Z :=
  affected (fun p => live_for d user t (fst p) (snd p)) (map_to_list (delete id (runs d))).

Lemma counts_against_spec d user id t p :
  counts_against d user id t p = negb (N.eqb (fst p) id) && live_for d user t (fst p) (snd p).
Proof. unfold counts_against, live_for. by rewrite andb_assoc. Qed.

Lemma elem_delete_ne {A} (m : gmap uuid A) id p :
  p ∈ map_to_list (delete id m) -> fst p <> id.
Proof.
  destruct p as [i r]. rewrite elem_of_map_to_list, lookup_delete_Some. simpl. intros [? _]. congruence.
Qed.

Definition holds (d : db) (user : uuid) (t : time) (id : uuid) : Z :=
  match runs d !! id with
  | Some r => if live_for d user t id r then 1 else 0
  | None => 0
  end.

Lemma live_split d user t id : live_leases d user t = holds d user t id + others d user id t.
Proof.
  unfold live_leases, others, holds. destruct (runs d !! id) as [r|] eqn:Hr.
  - rewrite <- (affected_perm _ _ _ (map_to_list_delete _ _ _ Hr)).
    unfold affected. simpl. destruct (live_for d user t id r); simpl; lia.
  - rewrite delete_id; [lia|done].
Qed.

Lemma active_others_eq d user id t : active_others d user id t = others d user id t.
Proof.
  unfold active_others, others. destruct (runs d !! id) as [r|] eqn:Hr.
  - rewrite <- (affected_perm _ _ _ (map_to_list_delete _ _ _ Hr)).
    transitivity (affected (counts_against d user id t) (map_to_list (delete id (runs d)))).
    + unfold affected at 1. simpl. rewrite counts_against_spec. simpl.
      by rewrite N.eqb_refl.
    + apply affected_ext. intros p Hp%elem_delete_ne. rewrite counts_against_spec.
      by apply N.eqb_neq in Hp as ->.
  - rewrite delete_id by done. apply affected_ext.
    intros [i x] Hp. rewrite counts_against_spec. simpl.
    apply elem_of_map_to_list in Hp. destruct (N.eqb_spec i id); [congruence|done].
Qed.

Lemma live_for_mono d user t t' id r :
  t <= t' -> live_for d user t' id r = true -> live_for d user t id r = true.
Proof.
  unfold live_for. rewrite !andb_true_iff, !Z.ltb_lt. intros ? [-> ?]. split; [done|lia].
Qed.

Lemma others_mono d user id t t' : t <= t' -> others d user id t' <= others d user id t.
Proof. intros H. apply affected_mono. intros p _. by apply live_for_mono. Qed.

Lemma others_nonneg d user id t : 0 <= others d user id t.
Proof. unfold others, affected. lia. Qed.

(** Two states that agree away from [id] count the same other leases. *)
Lemma others_ext d d' user id t :
  delete id (runs d') = delete id (runs d) ->
  (forall i, i <> id -> tasks d' !! i = tasks d !! i) ->
  others d' user id t = others d user id t.
Proof.
  intros Hr Ht. unfold others. rewrite Hr. apply affected_ext.
  intros p Hp%elem_delete_ne. unfold live_for. by rewrite Ht.
Qed.

Lemma holds_le d user t id : 0 <= holds d user t id <= 1.
Proof. unfold holds. repeat case_match; lia. Qed.

(** [id]'s lease may be rewritten where it counted before, or where the
    others leave room. *)
Lemma capped_at now now' d d' id :
  capped now d -> now <= now' ->
  delete id (runs d') = delete id (runs d) ->
  (forall i, i <> id -> tasks d' !! i = tasks d !! i) ->
  (forall user t, now' <= t -> holds d' user t id = 1 ->
     exists u, u <= t /\ others d user id u + 1 <= MaxConcurrentGraphTasksPerUser) ->
  capped now' d'.
Proof.
  intros Hc Hle Hr Ht Hh user t Hlt.
  rewrite (live_split d' user t id), (others_ext d d' user id t Hr Ht).
  destruct (decide (holds d' user t id = 1)) as [E|E].
  - destruct (Hh user t Hlt E) as (u & Hu & Hb).
    pose proof (others_mono d user id u t Hu). lia.
  - pose proof (holds_le d' user t id).
    pose proof (Hc user t ltac:(lia)) as Hb. rewrite (live_split d user t id) in Hb.
    pose proof (holds_le d user t id). lia.
Qed.

(** ** The transactions *)

Lemma RenewGraphTask_Ok id lease e d d' :
  RenewGraphTask id lease e d = (Ok tt, d') ->
  run_live e d id /\ exists k, d' = with_runs (alter
     (set_r_lease (clk e k + interval_ms (Milliseconds lease)) (clk e k)) id (runs d)) d.
Proof.
  unfold RenewGraphTask. case_match; [done|].
  intros (_ & n & d1 & [[Hb ->]|[Hb _]])%run_tx_Ok; [|by tx_inv].
  apply tx_bind_Ok in Hb as (u & n1 & d2 & [-> _]%lock_Ok & Hb).
  apply tx_bind_Ok in Hb as (u' & n2 & d3 & [-> Hl]%requireTaskRun_Ok & Hb).
  apply tx_bind_Ok in Hb as (u2 & n3 & d4 & (_ & -> & ->)%exec_Ok & Hb). tx_inv. eauto.
Qed.

Lemma YieldGraphTask_Ok tt_text id next e d d' :
  YieldGraphTask tt_text id next e d = (Ok tt, d') ->
  run_live e d id /\ exists k f,
    runs d' = alter (fun r => MkTaskRun (r_TaskID r) (r_RunID r) (clk e k)
      (r_HeartbeatAt r) next (r_StartedAt r)) id (runs d)
    /\ tasks d' = alter f id (tasks d) /\ steps d' = steps d.
Proof.
  unfold YieldGraphTask.
  intros (_ & n & d1 & [[Hb ->]|[Hb _]])%run_tx_Ok;
    apply tx_bind_Ok in Hb as (u & n1 & d2 & [-> _]%lock_Ok & Hb);
    apply tx_bind_Ok in Hb as (u' & n2 & d3 & [-> Hl]%requireTaskRun_Ok & Hb);
    apply tx_bind_Ok in Hb as (act & n3 & d4 & (_ & -> & -> & ->)%query_Ok & Hb);
    (destruct (existsb _ _); [by tx_inv|]); [|by tx_inv].
  apply tx_bind_Ok in Hb as (u2 & n4 & d5 & (_ & -> & ->)%exec_Ok & Hb).
  apply tx_bind_Ok in Hb as (u3 & n5 & d6 & (_ & -> & ->)%exec_Ok & Hb). tx_inv. eauto 10.
Qed.

Lemma err_unchanged_renew id lease e d r d' :
  RenewGraphTask id lease e d = (r, d') -> r <> Ok tt -> d' = d.
Proof.
  unfold RenewGraphTask. case_match; [by intros [= _ ->]|]. intros Hx Hr.
  destruct r as [[]|x]; [done|by eapply run_tx_err].
Qed.

Lemma err_unchanged_yield tt_text id next e d r d' :
  YieldGraphTask tt_text id next e d = (r, d') -> r <> Ok tt -> d' = d.
Proof. intros H Hr. destruct r as [[]|x]; [done|by eapply run_tx_err]. Qed.

Lemma capped_later now now' d : now <= now' -> capped now d -> capped now' d.
Proof. intros H Hc user t Ht. apply Hc. lia. Qed.

Lemma clock_within_le e now now' k :
  clock_within e now now' -> now <= clk e k <= now'.
Proof. intros (H0 & Hm & Hk). specialize (Hm 0%nat k ltac:(lia)). specialize (Hk k). lia. Qed.

Lemma capped_claim start_at id lease e r now now' d d' :
  clock_within e now now' -> ClaimGraphTask start_at id lease e d = (r, d') ->
  capped now d -> capped now' d'.
Proof.
  intros Hw H Hc. pose proof (clock_within_le _ _ _ 0%nat Hw) as H0.
  destruct r as [[x|]|x];
    [|rewrite (ClaimGraphTask_none _ _ _ _ _ _ _ H) by done; eapply capped_later; [|done]; lia..].
  apply ClaimGraphTask_Ok in H
    as (t & k & m & new & Ht & Hct & Hact & _ & _ & _ & Htasks & Hruns & _).
  eapply (capped_at now now' d d' id); [done|lia| | |].
  - by rewrite Hruns, delete_insert_eq.
  - intros i Hi. by rewrite Htasks, lookup_alter_ne.
  - intros user u Hu. unfold holds. rewrite Hruns, lookup_insert_eq. unfold live_for.
    rewrite Htasks, lookup_alter_eq, Ht. cbn [fmap option_fmap option_map UserID].
    simpl. destruct (N.eqb_spec (UserID t) user) as [<-|]; [|done]. intros _.
    exists (clk e k). rewrite active_others_eq in Hact.
    pose proof (clock_within_le _ _ _ k Hw). split; lia.
Qed.

Lemma capped_renew id lease e r now now' d d' :
  clock_within e now now' -> RenewGraphTask id lease e d = (r, d') ->
  capped now d -> capped now' d'.
Proof.
  intros Hw H Hc. pose proof (clock_within_le _ _ _ 0%nat Hw) as H0.
  destruct r as [[]|x];
    [|rewrite (err_unchanged_renew _ _ _ _ _ _ H) by done; eapply capped_later; [|done]; lia].
  apply RenewGraphTask_Ok in H as ((_ & r & k & Hr & _ & Hlive) & j & ->).
  pose proof (clock_within_le _ _ _ k Hw) as Hk.
  eapply (capped_at now now' d _ id); [done|lia| |done|].
  - simpl. by rewrite delete_alter_eq.
  - intros user u Hu Hh. exists (clk e k). split; [lia|].
    pose proof (Hc user (clk e k) ltac:(lia)) as Hb.
    rewrite (live_split d user _ id) in Hb. unfold holds in Hb, Hh.
    simpl in Hh. rewrite lookup_alter_eq, Hr in Hh. rewrite Hr in Hb. simpl in Hh.
    unfold live_for in Hb, Hh. simpl in Hh.
    destruct (match tasks d !! id with Some _ => _ | None => _ end); [|done].
    apply Z.ltb_lt in Hlive. rewrite Hlive in Hb. simpl in Hb. lia.
Qed.

Lemma capped_yield tt_text id next e r now now' d d' :
  clock_within e now now' -> YieldGraphTask tt_text id next e d = (r, d') ->
  capped now d -> capped now' d'.
Proof.
  intros Hw H Hc. pose proof (clock_within_le _ _ _ 0%nat Hw) as H0.
  destruct r as [[]|x];
    [|rewrite (err_unchanged_yield _ _ _ _ _ _ _ H) by done; eapply capped_later; [|done]; lia].
  apply YieldGraphTask_Ok in H as (_ & k & f & Hr & Ht & _).
  pose proof (clock_within_le _ _ _ k Hw) as Hk.
  eapply (capped_at now now' d _ id); [done|lia| | |].
  - by rewrite Hr, delete_alter_eq.
  - intros i Hi. by rewrite Ht, lookup_alter_ne.
  - intros user u Hu. unfold holds. rewrite Hr, lookup_alter_eq.
    destruct (runs d !! id); [|done]. simpl. unfold live_for. simpl.
    assert (Z.ltb u (clk e k) = false) as -> by (apply Z.ltb_ge; lia).
    by rewrite andb_false_r.
Qed.

Lemma capped_other now now' d d' :
  now <= now' -> keeps_leases d d' -> capped now d -> capped now' d'.
Proof.
  intros Hle [Hr Hk] Hc user t Ht. etransitivity; [|apply (Hc user t); lia].
  unfold live_leases. rewrite Hr. apply affected_mono. intros [i r] Hp%elem_of_map_to_list.
  simpl. unfold live_for. destruct (tasks d' !! i) as [t'|] eqn:Ht'; [|done].
  rewrite !andb_true_iff, N.eqb_eq, Z.eqb_eq. intros [[[Hu Hv] Hs] ->].
  destruct (Hk i r t' Hp Ht' Hv Hs) as (t0 & -> & -> & Hv0 & ->).
  rewrite Hu, Hv0. by rewrite N.eqb_refl.
Qed.

Lemma lease_step_capped x y : lease_step x y -> capped (fst x) (snd x) -> capped (fst y) (snd y).
Proof.
  intros []; simpl; eauto using capped_claim, capped_renew, capped_yield, capped_other.
Qed.

Lemma lease_steps_capped x y :
  rtc lease_step x y -> capped (fst x) (snd x) -> capped (fst y) (snd y).
Proof. induction 1; eauto using lease_step_capped. Qed.

(** C30: whatever coordinators claim, renew and yield, an owner never has more
    than two tasks under an unexpired coordinator lease, as long as the
    database clock moves forward. *)
Theorem admission_bounded now d now' d' user t :
  rtc lease_step (now, d) (now', d') -> capped now d -> now' <= t ->
  live_leases d' user t <= MaxConcurrentGraphTasksPerUser.
Proof. intros H Hc Ht. by apply (lease_steps_capped _ _ H). Qed.

Definition sample_three : db :=
  with_tasks {[1%N := sample_task; 2%N := sample_task; 3%N := sample_task]} empty_db.
Definition claim_next (id : uuid) (d : db) : db :=
  snd (ClaimGraphTask no_start id Minute (sample_env 0 10) d).
Definition sample_admitted : db := claim_next 3 (claim_next 2 (claim_next 1 sample_three)).

Lemma claim_next_step id d : lease_step (10, d) (10, claim_next id d).
Proof.
  refine (ls_claim no_start id Minute (sample_env 0 10) _ _ _ _ _ _
    (surjective_pairing _)). split; [done|]. by split.
Qed.

Lemma sample_admissions : rtc lease_step (10, sample_three) (10, sample_admitted).
Proof.
  unfold sample_admitted. eapply rtc_l; [apply claim_next_step|].
  eapply rtc_l; [apply claim_next_step|]. eapply rtc_l; [apply claim_next_step|].
  apply rtc_refl.
Qed.

Lemma sample_capped : capped 10 sample_three.
Proof. intros user t _. change (live_leases sample_three user t) with 0. done. Qed.

Lemma admission_bounded_witness :
  live_leases sample_admitted 8 10 <= MaxConcurrentGraphTasksPerUser.
Proof.
  exact (admission_bounded 10 sample_three 10 sample_admitted 8 10
    sample_admissions sample_capped (Z.le_refl 10)).
Defined.
