(* ===== verification/Finalize.v ===== *)
(** * Finalize: the terminal transaction of a task

    internal/core/agent_finalize.go.  [cleanTaskDraft] removes the hidden
    planning and audit blocks of a draft; [finalizeTaskTx] fences the caller,
    chooses the best saved draft, and writes the artifact, the terminal row
    and the delivery intent in one transaction ([FinalizeTask]).

    [collate] is the database's text collation, [digest] the hash of
    [Journal], [UnverifiedDraftFmt] the host's localized format as the
    function [fmt.Sprintf] makes of it. *)

From stdpp Require Import pretty.
From Stdlib Require Import Ascii String.
From S2P Require Import Prelude GoStrings Json Task TaskPlan Store StepStore Journal.

Local Open Scope Z_scope.

(** ** Drafts *)

(** A pattern character under [(?i)]: ASCII letters in either case, and the
    long s (two bytes) for s.  The result is the number of bytes matched. *)
Definition fold_match (p : ascii) (l : bytes) : option nat :=
  match l with
  | [] => None
  | c :: rest =>
      let lower a := let n := nat_of_ascii a in
        if Nat.leb 65 n && Nat.leb n 90 then ascii_of_nat (n + 32) else a in
      if Ascii.eqb (lower c) (lower p) then Some 1%nat
      else if Ascii.eqb (lower p) "s" && HasPrefix l [chr 197; chr 191]
      then Some 2%nat else None
  end.
Fixpoint fold_prefix (p l : bytes) : option nat :=
  match p with
  | [] => Some 0%nat
  | c :: p' =>
      match fold_match c l with
      | Some n => Nat.add n <$> fold_prefix p' (drop n l)
      | None => None
      end
  end.

Definition re_space (c : ascii) : bool :=
  match nat_of_ascii c with 9 | 10 | 12 | 13 | 32 => true | _ => false end%nat.

(** [<<<NAME\s]: a block of one of the three names. *)
Definition block_open (l : bytes) : option nat :=
  let try name :=
    match fold_prefix (lit "<<<" ++ lit name) l with
    | Some n => match drop n l with
                | c :: _ => if re_space c then Some (S n) else None
                | [] => None
                end
    | None => None
    end in
  match try "PLAN_JSON"%string with
  | Some n => Some n
  | None => match try "PLAN_PATCH_JSON"%string with
            | Some n => Some n
            | None => try "EVIDENCE_JSON"%string
            end
  end.

Inductive draft_mode : Type := Visible | Scratchpad | Block.

Definition mode_open (l : bytes) : option (nat * draft_mode) :=
  match fold_prefix (lit "<scratchpad>") l with
  | Some n => Some (n, Scratchpad)
  | None => (fun n => (n, Block)) <$> block_open l
  end.
Definition mode_close (m : draft_mode) (l : bytes) : option nat :=
  match m with
  | Visible => None
  | Scratchpad => fold_prefix (lit "</scratchpad>") l
  | Block => fold_prefix (lit ">>>") l
  end.

(** [taskDraftInternals.ReplaceAllString(l, "")]; [skip] bytes of a delimiter
    are still to be dropped. *)
Fixpoint strip_internals (m : draft_mode) (skip : nat) (l : bytes) : bytes :=
  match l with
  | [] => []
  | c :: rest =>
      match skip with
      | S k => strip_internals m k rest
      | O =>
          match m with
          | Visible =>
              match mode_open l with
              | Some (n, m') => strip_internals m' (pred n) rest
              | None => c :: strip_internals Visible 0 rest
              end
          | _ =>
              match mode_close m l with
              | Some n => strip_internals Visible (pred n) rest
              | None => strip_internals m 0 rest
              end
          end
      end
  end.

Definition draft_markers : list string :=
  ["[DONE]"; "[CONTINUE]"; "[PAUSE]"; "[MILESTONE]"; "[NOTIFY]"; "[no-op]"]%string.
Definition strip_markers (l : bytes) : bytes :=
  fold_left (fun body marker => remove_all (lit marker) 0 body) draft_markers l.
Definition cleanTaskDraft (body : string) : string :=
  str (TrimSpace_b (strip_markers (strip_internals Visible 0 (lit body)))).

(** ** The finalization *)

Record TaskFinalization := MkFinalization {
  f_Outcome : string;
  f_Body : string;
  f_Reason : string;
  f_UnverifiedDraftFmt : string -> string -> string -> string;
  f_EmptyBody : string;
  f_Notify : string;
  f_EmptyNotify : string;
  f_Progress : option json;
  f_PendingDeliveries : list TaskDeliveryRef;
  f_ClaimStartedAt : option time;
  f_ExpiredAt : option time;
}.

(** The checked candidate saved in the task's progress. *)
Definition as_object (j : json) : option json :=
  match j with JObj _ => Some j | _ => None end.
Definition saved_candidate (progress : json) : string :=
  match progress with
  | JObj _ | JNull =>
      match decode_field (JObj []) as_object "final_validation" progress with
      | Some final =>
          match decode_bool "response_checked" final,
                decode_string "safe_body" final,
                decode_string "last_checked_body" final with
          | Some checked, Some safe, Some last =>
              let body := if checked then cleanTaskDraft safe else ""%string in
              if String.eqb body "" then cleanTaskDraft last else body
          | _, _, _ => ""%string
          end
      | None => ""%string
      end
  | _ => ""%string
  end.

Section finalize.
Context (collate : string -> string -> bool) (digest : bytes -> string).

Definition steps_of (id : uuid) (p : TaskStep -> bool) (d : db) : list TaskStep :=
  order_by (fun x y => collate (s_ID x) (s_ID y))
    (List.filter (fun s => N.eqb (s_TaskID s) id && p s) (steps d)).

Definition candidate_ready (s : TaskStep) : bool :=
  match text "candidate_ready" (s_Checkpoint s) with
  | Some r => String.eqb r "true"
  | None => false
  end.
Definition finalize_candidate (id : uuid) (d : db) : string :=
  match steps_of id (fun s => String.eqb (s_Kind s) "finalize" && candidate_ready s
      && negb (String.eqb (btrim (coalesce (text "output" (s_Checkpoint s)) ""%string)) "")) d with
  | s :: _ => coalesce (text "output" (s_Checkpoint s)) ""%string
  | [] => ""%string
  end.

Definition confirmed_results (id : uuid) (d : db) : string :=
  String.concat (nl ++ nl)%string
    ((fun s => s_Goal s ++ nl ++ s_Result s)%string <$>
       steps_of id (fun s => bool_decide (s_Status s = SDone)
                             && negb (String.eqb (btrim (s_Result s)) "")) d).

(** Unfinished read steps with a complete candidate: goal, output, review. *)
Definition read_output (s : TaskStep) : option string :=
  if candidate_ready s then text "output" (s_Checkpoint s)
  else text "last_candidate" (s_Checkpoint s).
Definition read_review (s : TaskStep) : string :=
  coalesce (if candidate_ready s then text "review_reason" (s_Checkpoint s)
            else text "last_candidate_review" (s_Checkpoint s)) (s_LastError s).
Definition read_drafts (id : uuid) (d : db) : list (string * string * string) :=
  (fun s => (s_Goal s, coalesce (read_output s) ""%string, read_review s)) <$>
    steps_of id (fun s => String.eqb (s_Kind s) "read"
      && bool_decide (s_Status s <> SDone)
      && negb (String.eqb (btrim (coalesce (read_output s) ""%string)) "")) d.

Definition with_drafts (fmt : string -> string -> string -> string) (body : string)
    (drafts : list (string * string * string)) : string :=
  let parts := (if String.eqb body "" then [] else [body])
    ++ omap (fun '(goal, out, review) =>
         let text := cleanTaskDraft out in
         if String.eqb text "" then None else Some (fmt goal text review)) drafts in
  String.concat (nl ++ nl)%string parts.

Definition last_iteration (id : uuid) (d : db) : string :=
  match order_by (fun x y => Z.leb (it_Iteration y) (it_Iteration x))
    (List.filter (fun i => N.eqb (it_TaskID i) id
       && negb (String.eqb (btrim (coalesce (it_Output i) ""%string)) "")) (iterations d)) with
  | i :: _ => coalesce (it_Output i) ""%string
  | [] => ""%string
  end.

(** [orElse body q]: the next fallback, read only when nothing was found. *)
Definition orElse (body : string) (q : db -> string) : Tx string :=
  if String.eqb body "" then
    draft ← query (fun _ d => q d);
    mret (cleanTaskDraft draft)
  else mret body.

Definition graph_drafts (id : uuid) (in_ : TaskFinalization) (body : string) : Tx string :=
  body1 ← orElse body (finalize_candidate id);
  body2 ← orElse body1 (confirmed_results id);
  if String.eqb body2 "" || String.eqb body1 "" then
    drafts ← query (fun _ d => read_drafts id d);
    mret (with_drafts (f_UnverifiedDraftFmt in_) body2 drafts)
  else mret body2.

Definition find_draft (task : AgentTask) (id : uuid) (in_ : TaskFinalization)
    : Tx string :=
  let v2 := Z.eqb (ExecutorVersion task) 2 in
  let body := cleanTaskDraft (f_Body in_) in
  let body := if String.eqb body "" && v2 then saved_candidate (Progress task) else body in
  body ← (if (String.eqb body "" && v2) : bool then graph_drafts id in_ body
          else mret body);
  body ← orElse body (fun d => match submissions d !! id with
                               | Some s => sub_Output s | None => ""%string end);
  body ← orElse body (fun d => match checkpoints d !! id with
                               | Some c => if String.eqb (btrim (cp_Output c)) ""
                                           then ""%string else cp_Output c
                               | None => ""%string end);
  orElse body (last_iteration id).

Definition max_version (id : uuid) (d : db) : Z :=
  fold_left Z.max
    (a_Version <$> List.filter (fun a => N.eqb (a_TaskID a) id) (artifacts d)) 0.

Definition jsonbObject (raw : option json) : json := coalesce raw (JObj []).

Definition terminal_metadata (outcome : string) (version : Z) (reason : string) : json :=
  JObj [("phase", JStr "terminal"); ("result_outcome", JStr outcome);
        ("result_version", JNum (pretty version)); ("termination_reason", JStr reason)]%string.

Definition coalesce_object (p : json) : json :=
  match p with JNull => JObj [] | _ => p end.

Definition terminate (outcome body reason : string) (status : TaskStatus)
    (progress metadata : json) (now : time) (t : AgentTask) : AgentTask :=
  set_Progress (concat (concat (coalesce_object (Progress t)) progress) metadata)
    (set_CompletedAt (Some now)
      (set_ErrorMessage
         (let m := if bool_decide (status = TDone) then ""%string else reason in
          if String.eqb m "" then None else Some m)
        (set_Result (Some body) (set_Status status t)))).

Fixpoint insert_items (aid id : uuid) (l : list TaskDeliveryRef) : Tx unit :=
  match l with
  | [] => mret tt
  | r :: rest =>
      _ ← stmt (fun _ d =>
        if reserved_by d id r then Err EDuplicateKey
        else Ok (tt, with_attempt_items (attempt_items d ++ [MkItem aid id r]) d));
      insert_items aid id rest
  end.

Definition queue_result (task : AgentTask) (id : uuid) (version : Z)
    (pending : list TaskDeliveryRef) (notify : string) : Tx unit :=
  let ref := MkRef "task_result" ("version:" ++ pretty version) in
  match normalizeTaskDeliveryRefs (pending ++ [ref]) with
  | Err x => throw x
  | Ok refs =>
      let refs := sortTaskDeliveryRefs refs in
      let key := taskNotificationOccurrenceKey digest refs in
      aid ← uuid_New;
      now0 ← tx_now;
      _ ← stmt (fun _ d =>
        match notifications d !! aid, find_attempt d id key with
        | None, None => Ok (tt, with_notifications
            (<[aid := MkNotificationAttempt id (UserID task) key notify NRetryable
                        None (Some "delivery_pending"%string) 0 (Some now0) now0 now0 None]>
               (notifications d)) d)
        | _, _ => Err EDuplicateKey
        end);
      insert_items aid id refs
  end.

Definition valid_outcome (o : string) : bool :=
  existsb (String.eqb o) ["completed"; "partial"; "blocked"; "cancelled"]%string.

(** The guards of the transaction, on the locked row. *)
Inductive verdict : Type := Refuse (e : StoreError) | Ignore | Proceed.
Definition finalize_guard (in_ : TaskFinalization) (task : AgentTask) : verdict :=
  if match f_ClaimStartedAt in_ with
     | Some c => bool_decide (Status task <> TRunning)
                 || match LastRunAt task with Some l => negb (Z.eqb l c) | None => true end
     | None => false
     end
  then Refuse ETaskClaimLost
  else match f_ExpiredAt in_ with
       | Some x => match Deadline task with
                   | None => Ignore
                   | Some dl => if Z.ltb x dl then Ignore else Proceed
                   end
       | None => Proceed
       end.

Definition publish (task : AgentTask) (id : uuid) (in_ : TaskFinalization)
    (found : string) : Tx (option TaskArtifact) :=
  let empty := String.eqb found "" in
  let body := if empty then TrimSpace (f_EmptyBody in_) else found in
  let notify := if empty then f_EmptyNotify in_ else f_Notify in_ in
  let outcome := if empty && String.eqb (f_Outcome in_) "partial"
                 then "blocked"%string else f_Outcome in_ in
  if String.eqb body "" then throw ENoExplanation
  else
    art ← stmt (fun _ d =>
      let a := MkTaskArtifact id (max_version id d + 1) outcome body (f_Reason in_) in
      if String.eqb (btrim body) "" then Err EDatabase (* CHECK *)
      else Ok (a, with_artifacts (artifacts d ++ [a]) d));
    let status := TaskTerminalStatus task outcome in
    let metadata := terminal_metadata outcome (a_Version art) (f_Reason in_) in
    now0 ← tx_now;
    _ ← exec (fun _ => update_task id
          (terminate outcome body (f_Reason in_) status (jsonbObject (f_Progress in_))
             metadata now0));
    let notify := if String.eqb outcome "completed" && blank notify then body else notify in
    _ ← (if blank notify then mret tt
         else queue_result task id (a_Version art) (f_PendingDeliveries in_) notify);
    mret (Some art).

Definition finalizeTaskTx (id : uuid) (in_ : TaskFinalization)
    : Tx (option TaskArtifact) :=
  if negb (valid_outcome (f_Outcome in_)) then throw (EInvalidOutcome (f_Outcome in_))
  else
    row ← query (fun _ d => tasks d !! id);
    match (row : option AgentTask) with
    | None => throw ENoRows
    | Some task =>
        if negb (task_live (Status task)) then mret None
        else
          _ ← (if Z.eqb (ExecutorVersion task) 2 && is_none (f_ExpiredAt in_)
                  && negb (String.eqb (f_Outcome in_) "cancelled")
               then requireTaskRun id else mret tt);
          match finalize_guard in_ task with
          | Refuse x => throw x
          | Ignore => mret None
          | Proceed =>
              late ← (match Deadline task with
                      | Some dl => if String.eqb (f_Outcome in_) "completed"
                                   then now ← time_Now; mret (Z.leb dl now)
                                   else mret false
                      | None => mret false
                      end);
              if (late : bool) then throw ETaskClaimLost
              else if String.eqb (cleanTaskDraft (f_Body in_)) ""
                      && String.eqb (f_Outcome in_) "completed"
              then throw ENoResult
              else
                found ← find_draft task id in_;
                publish task id in_ found
          end
    end.

Definition FinalizeTask (id : uuid) (in_ : TaskFinalization)
    : Op (option TaskArtifact) :=
  run_tx (a ← finalizeTaskTx id in_; mret (Commit a)).
End finalize.
