(* ===== verification/TaskRows.v ===== *)
(** * TaskRows: the single-statement operations on task rows

    internal/core/agent_store.go from [PendingTasks] on, task_origin.go, and
    the single-statement operations of agent_deadline.go and
    agent_submission.go.  Each is one UPDATE or INSERT: its WHERE clause is a
    predicate on the row, its SET clause a row update. *)

From Stdlib Require Import Ascii String.
From S2P Require Import Prelude GoStrings Json Task TaskPlan Store StepStore Journal Finalize.

Local Open Scope Z_scope.

(** [UPDATE agent_tasks SET f WHERE id=id AND p], with the affected count. *)
Definition update_row (id : uuid) (p : AgentTask -> bool) (f : AgentTask -> AgentTask)
    (d : db) : Z * db :=
  match tasks d !! id with
  | Some t => if p t then (1, with_tasks (<[id := f t]> (tasks d)) d) else (0, d)
  | None => (0, d)
  end.
(** [UPDATE agent_tasks SET f WHERE p]. *)
Definition update_rows (p : AgentTask -> bool) (f : AgentTask -> AgentTask)
    (d : db) : Z * db :=
  (affected (fun kt => p (snd kt)) (map_to_list (tasks d)),
   with_tasks ((fun t => if p t then f t else t) <$> tasks d) d).

Definition statement (f : time -> db -> Z * db) : Op unit :=
  autocommit (_ ← exec_count f; mret tt).

Definition v1 (t : AgentTask) : bool := Z.eqb (ExecutorVersion t) 1.
Definition has_status (l : list TaskStatus) (t : AgentTask) : bool :=
  tstatus_in (Status t) l.
Definition not_expired (now : time) (t : AgentTask) : bool :=
  match Deadline t with Some dl => Z.ltb now dl | None => true end.
Definition one_shot_row (t : AgentTask) : bool :=
  is_none (Schedule t) && is_none (Cadence t)
  && negb (String.eqb (Strategy t) StrategyRecurring).

(** ** Claiming *)

(** [ORDER BY last_run_at NULLS FIRST, created_at]. *)
Definition nulls_first (x y : option time) : comparison :=
  match x, y with
  | None, None => Eq
  | None, Some _ => Lt
  | Some _, None => Gt
  | Some a, Some c => Z.compare a c
  end.
Definition run_order (x y : AgentTask) : bool :=
  match nulls_first (LastRunAt x) (LastRunAt y) with
  | Lt => true
  | Gt => false
  | Eq => Z.leb (CreatedAt x) (CreatedAt y)
  end.

Definition PendingTasks : Op (list AgentTask) := autocommit (query (fun now d =>
  order_by run_order (List.filter (fun t => v1 t && has_status [TPending] t
    && (Z.eqb (MaxIterations t) 0 || Z.ltb (Iteration t) (MaxIterations t))
    && not_expired now t) ((map_to_list (tasks d)).*2)))).

Definition run_row (now : time) (t : AgentTask) : AgentTask :=
  set_LastRunAt (Some now) (set_Status TRunning t).

Definition SetRunning (id : uuid) : Op unit :=
  statement (fun now => update_row id v1 (run_row now)).

Definition TrySetRunning (id : uuid) : Op bool := autocommit (
  n ← exec_count (fun now =>
    update_row id (fun t => v1 t && has_status [TPending] t && not_expired now t)
      (run_row now));
  mret (Z.eqb n 1)).

(** ** Iterations *)

Definition next_iteration (t : AgentTask) : AgentTask :=
  set_Iteration (Iteration t + 1) t.

Definition UpdateProgressWithRecheck (id : uuid) (progress : option json)
    (recheckURLs : list string) : Op unit :=
  statement (fun _ => update_row id (has_status [TRunning]) (fun t =>
    set_RequiredRecheckURLs recheckURLs (next_iteration
      (set_Status TPending (set_Progress (jsonbObject progress) t))))).
Definition UpdateProgress (id : uuid) (progress : option json) : Op unit :=
  UpdateProgressWithRecheck id progress [].

Definition Complete (id : uuid) (result : string) : Op unit := autocommit (
  n ← exec_count (fun now =>
    update_row id (fun t => has_status [TRunning] t && not_expired now t)
      (fun t => set_RequiredRecheckURLs [] (next_iteration
        (set_CompletedAt (Some now) (set_Result (Some result) (set_Status TDone t))))));
  if Z.eqb n 0 then throw ETaskClaimLost else mret tt).

Definition exhausted_message : string :=
  "max_iterations reached without satisfying acceptance criteria".

Definition last_output (id : uuid) (d : db) : option string :=
  match order_by (fun x y => Z.leb (it_Iteration y) (it_Iteration x))
    (List.filter (fun i => N.eqb (it_TaskID i) id
       && negb (String.eqb (coalesce (it_Output i) ""%string) "")) (iterations d)) with
  | i :: _ => it_Output i
  | [] => None
  end.
Definition salvaged (d : db) (id : uuid) (t : AgentTask) : string :=
  let kept := match Result t with
              | Some r => if negb (String.eqb (btrim r) "")
                             && negb (String.eqb r "Cancelled by user")
                          then Some r else None
              | None => None
              end in
  match kept with
  | Some r => r
  | None => coalesce (last_output id d) exhausted_message
  end.
Definition exhausted (t : AgentTask) : bool :=
  v1 t && has_status [TPending] t && is_none (Schedule t)
  && Z.ltb 0 (MaxIterations t) && Z.leb (MaxIterations t) (Iteration t).

(** Rows force-failed at their iteration cap, with the draft salvaged. *)
Definition CompleteExhausted : Op (list AgentTask) := autocommit (stmt (fun now d =>
  let fail_row id t := set_Result (Some (salvaged d id t))
    (set_ErrorMessage (Some (coalesce (ErrorMessage t) exhausted_message))
      (set_CompletedAt (Some now) (set_Status TFailed t))) in
  Ok (omap (fun p => if exhausted (snd p) then Some (fail_row (fst p) (snd p)) else None)
        (map_to_list (tasks d)),
      with_tasks (map_imap (fun id t => Some (if exhausted t then fail_row id t else t))
        (tasks d)) d))).

Definition UpdateShaping (id : uuid) (config : json) (maxIterations : Z)
    (acceptance : option string) : Op unit :=
  statement (fun _ => update_row id (fun _ => true) (fun t =>
    set_AcceptanceCriteria (match acceptance with Some a => Some a
                            | None => AcceptanceCriteria t end)
      (set_MaxIterations maxIterations (set_Config config t)))).

(** ** Status changes *)

Definition SetPending (id : uuid) : Op unit :=
  statement (fun _ => update_row id (has_status [TRunning]) (set_Status TPending)).

Definition SetPendingForNotificationRetry (id : uuid) : Op unit :=
  statement (fun _ => update_row id (has_status [TRunning]) (fun t =>
    set_LastRunAt None (set_Status TPending t))).

Definition Fail (id : uuid) (errMsg : string) : Op unit :=
  statement (fun _ => update_row id (fun _ => true) (fun t =>
    set_ErrorMessage (Some errMsg) (set_Status TFailed t))).

(** The deprecated [AgentTaskStore.Cancel]. *)
Definition StoreCancel (id : uuid) : Op unit :=
  statement (fun now => update_row id (has_status [TPending; TRunning]) (fun t =>
    set_CompletedAt (Some now)
      (set_Result (Some "Cancelled by user"%string) (set_Status TDone t)))).

Definition stale (status : TaskStatus) (limit : time) (t : AgentTask) : bool :=
  v1 t && has_status [status] t
  && match LastRunAt t with Some l => Z.ltb l limit | None => false end.
Definition ResetStale (staleAfter : duration) : Op Z := autocommit (
  now ← time_Now;
  exec_count (fun _ => update_rows (stale TRunning (now - staleAfter)) (set_Status TPending))).
Definition WakeStalePaused (staleAfter : duration) : Op Z := autocommit (
  now ← time_Now;
  exec_count (fun _ => update_rows (stale TPaused (now - staleAfter)) (set_Status TPending))).

Definition ResetForNextRun (id : uuid) : Op unit :=
  statement (fun _ => update_row id (fun _ => true) (fun t =>
    set_CompletedAt None (set_ErrorMessage None (set_Result None
      (set_Progress (JObj []) (set_Iteration 0 (set_Status TPending t))))))).

Definition Approve (id : uuid) : Op unit :=
  statement (fun _ => update_row id (has_status [TPaused]) (set_Status TPending)).

Definition PauseTask (id : uuid) (progress : option json) : Op unit :=
  statement (fun _ => update_row id (has_status [TRunning]) (fun t =>
    next_iteration (set_Status TPaused (set_Progress (jsonbObject progress) t)))).

Definition waits_for (peerTaskID : string) (t : AgentTask) : bool :=
  v1 t && has_status [TPaused] t
  && match text "peer_task_id" (Progress t) with
     | Some p => String.eqb p peerTaskID
     | None => false
     end.
Definition WakePausedByPeerTask (peerTaskID : string) : Op uuid := autocommit (
  ids ← stmt (fun _ d =>
    Ok ((List.filter (fun p => waits_for peerTaskID (snd p)) (map_to_list (tasks d))).*1,
        snd (update_rows (waits_for peerTaskID) (set_Status TPending) d)));
  match (ids : list uuid) with
  | id :: _ => mret id
  | [] => throw ENoRows
  end).

(** ** Creation *)

Definition Get (id : uuid) : Op AgentTask := autocommit (
  row ← query (fun _ d => tasks d !! id);
  match (row : option AgentTask) with
  | Some t => mret t
  | None => throw ENoRows
  end).

Record TaskOrigin := MkTaskOrigin {
  o_Transport : string;
  o_BotID : uuid;
  o_ChatID : string;
}.

(** [captureTaskOrigin]: the trusted origin of the context replaces whatever
    routing the configuration carries. *)
Definition captureTaskOrigin (uuid_String : uuid -> string)
    (origin : option TaskOrigin) (config : json) : res StoreError json :=
  fields ← (match config with
            | JObj fs => Ok fs
            | JNull => Ok []
            | _ => Err (EInvalidArgument "capture task origin")
            end);
  let fields := remove_key "delivery_origin" fields in
  match origin with
  | None => Ok (JObj fields)
  | Some o =>
      if String.eqb (o_Transport o) "" || String.eqb (o_ChatID o) ""
      then Err (EInvalidArgument "invalid task delivery origin")
      else Ok (JObj (set_key "delivery_origin"%string
        (JObj [("transport", JStr (o_Transport o)); ("bot_id", JStr (uuid_String (o_BotID o)));
               ("chat_id", JStr (o_ChatID o))]%string) fields))
  end.

(** The task a caller asks for: its row with [None] for the columns left to
    their defaults.  [soul] and [origin] come from the context. *)
Record TaskRequest := MkTaskRequest {
  q_task : AgentTask;
  q_status : option TaskStatus;
}.

Definition created_row (soul : uuid) (now0 : time) (t : AgentTask) : AgentTask :=
  MkAgentTask (ExecutorVersion t) (ID t) soul (UserID t) (Title t) (Description t)
    (AcceptanceCriteria t) (Strategy t) (Handler t) (DelegateTo t) (Config t) (Plan t)
    (Tools t) (UseAgents t) (Schedule t) (Deadline t) (Cadence t) (Status t) (Progress t)
    None None 0 (MaxIterations t) None None now0 (SessionID t) [].

Definition normalize_version (v : Z) : Z := if Z.eqb v 0 then 1 else v.

Definition Create (uuid_String : uuid -> string) (start_at : json -> option time)
    (soul : uuid) (origin : option TaskOrigin) (q : TaskRequest) : Op AgentTask :=
  fun e d =>
  let t := q_task q in
  let version := normalize_version (ExecutorVersion t) in
  if negb (Z.eqb version 1) && negb (Z.eqb version 2)
  then (Err (EInvalidArgument "unsupported executor version"), d)
  else if Z.eqb version 2 && negb (graphTaskEligible t)
  then (Err (EInvalidArgument "executor v2 requires a direct one-shot background task"), d)
  else match captureTaskOrigin uuid_String origin (Config t) with
  | Err x => (Err x, d)
  | Ok config =>
    let inserted := autocommit (
      fresh_id ← uuid_New;
      let id := if N.eqb (ID t) uuid_Nil then fresh_id else ID t in
      let row := MkAgentTask version id (SoulID t) (UserID t) (Title t) (Description t)
        (AcceptanceCriteria t)
        (if String.eqb (Strategy t) "" then StrategyRecurring else Strategy t)
        (Handler t) (DelegateTo t) config (Plan t) (Tools t) (UseAgents t) (Schedule t)
        (Deadline t) (Cadence t) (coalesce (q_status q) TPending) (Progress t) None None
        0 (if Z.eqb (MaxIterations t) 0 then 10 else MaxIterations t) None None
        (CreatedAt t) (SessionID t) [] in
      now ← time_Now;
      let row := match Deadline row with
                 | Some _ => row
                 | None => set_Deadline (TaskWallDeadline (start_at (Config row)) row now
                             DefaultTaskWallTimeout) row
                 end in
      stmt (fun now0 d =>
        match tasks d !! id with
        | Some _ => Err EDuplicateKey
        | None => Ok (id, with_tasks (<[id := created_row soul now0 row]> (tasks d)) d)
        end)) e d in
    match inserted with
    | (Ok id, d') => Get id (later 3 e) d'
    | (Err x, d') => (Err x, d')
    end
  end.

(** ** Deadlines *)

Definition TaskDeadlineExceeded : string := "wall_clock_deadline_exceeded".

Definition SetTaskDeadline (id : uuid) (deadline : time) : Op unit :=
  statement (fun _ => update_row id (fun t => v1 t && task_live (Status t)
      && match Deadline t with Some dl => Z.ltb deadline dl | None => true end)
    (set_Deadline (Some deadline))).

Definition ExpireTask (id : uuid) (now : time) : Op bool := autocommit (
  n ← exec_count (fun _ => update_row id (fun t => v1 t && task_live (Status t)
        && match Deadline t with Some dl => Z.leb dl now | None => false end)
      (fun t => set_CompletedAt (Some now)
        (set_ErrorMessage (Some TaskDeadlineExceeded) (set_Status TFailed t))));
  mret (Z.ltb 0 n)).

Definition terminal_intent (d : db) (id : uuid) : bool :=
  existsb (fun i => N.eqb (i_TaskID i) id
    && ((String.eqb (InputID (i_Ref i)) "task_lifecycle"
         && String.eqb (ItemKey (i_Ref i)) "deadline")
        || String.eqb (InputID (i_Ref i)) "task_result")) (attempt_items d).
Definition DeadlineTasks : Op (list AgentTask) := autocommit (query (fun _ d =>
  order_by (fun x y => Z.leb (CreatedAt x) (CreatedAt y))
    ((List.filter (fun p => let t := snd p in
       v1 t && ((task_live (Status t) && (is_some (Deadline t) || one_shot_row t))
                || (bool_decide (Status t = TFailed)
                    && bool_decide (ErrorMessage t = Some TaskDeadlineExceeded)
                    && negb (terminal_intent d (fst p)))))
       (map_to_list (tasks d))).*2))).

(** ** Submissions and checkpoints *)

Definition claimed_at (claim : time) (t : AgentTask) : bool :=
  has_status [TRunning] t
  && match LastRunAt t with Some l => Z.eqb l claim | None => false end.

(** [now()] in the row, [json.Marshal] of the references. *)
Definition SaveTaskSubmission (refs_json : list TaskDeliveryRef -> json)
    (id : uuid) (claim : time) (output notify : string) (progress : option json)
    (toolCalls : option json) (pending : list TaskDeliveryRef) : Op unit := autocommit (
  n ← stmt (fun now d =>
    match tasks d !! id with
    | Some t =>
        if claimed_at claim t then
          if String.eqb (btrim output) "" then Err EDatabase (* CHECK *)
          else Ok (1, with_submissions (<[id := MkTaskSubmission output notify
                 (jsonbObject progress) (coalesce toolCalls (JArr [])) (refs_json pending)
                 0 now ""]> (submissions d)) d)
        else Ok (0, d)
    | None => Ok (0, d)
    end);
  if Z.eqb n 0 then throw ETaskClaimLost else mret tt).

Definition DeferTaskVerification (id : uuid) (claim : time) (reason : string)
    (next : time) : Op unit := run_tx (
  n ← exec_count (fun _ => update_row id (claimed_at claim) (fun t =>
        set_Progress (concat (coalesce_object (Progress t))
          (JObj [("phase"%string, JStr "verification_wait")])) (set_Status TPending t)));
  if Z.eqb n 0 then throw ETaskClaimLost
  else
    n ← exec_count (fun _ d =>
      match submissions d !! id with
      | Some s => (1, with_submissions (<[id := MkTaskSubmission (sub_Output s)
            (sub_Notify s) (sub_Progress s) (sub_ToolCalls s) (sub_PendingDeliveries s)
            (sub_ReviewAttempts s + 1) next reason]> (submissions d)) d)
      | None => (0, d)
      end);
    if Z.eqb n 0 then throw ENoRows else mret (Commit tt)).

Definition RejectTaskSubmission (id : uuid) (claim : time) (progress : option json)
    (recheckURLs : list string) : Op unit := run_tx (
  n ← exec_count (fun _ => update_row id (claimed_at claim) (fun t =>
        set_RequiredRecheckURLs recheckURLs (next_iteration
          (set_Status TPending (set_Progress (jsonbObject progress) t)))));
  if Z.eqb n 0 then throw ETaskClaimLost
  else
    _ ← exec (fun _ d => with_submissions (delete id (submissions d)) d);
    mret (Commit tt)).

Definition CheckpointTask (id : uuid) (claim : time) (cp : TaskCheckpoint)
    : Op unit := fun e d =>
  if String.eqb (cp_SessionID cp) "" || String.eqb (cp_Phase cp) ""
     || Z.leb (cp_Iteration cp) 0 || IsZero claim
  then (Err EInvalidCheckpoint, d)
  else run_tx (
    row ← query (fun _ d =>
      match tasks d !! id with Some t => claimed_at claim t | None => false end);
    if negb (row : bool) then throw ETaskClaimLost
    else
      _ ← exec (fun _ d =>
        let output := match checkpoints d !! id with
                      | Some old => if String.eqb (cp_Output cp) "" then cp_Output old
                                    else cp_Output cp
                      | None => cp_Output cp
                      end in
        with_checkpoints (<[id := MkTaskCheckpoint claim (cp_Iteration cp)
          (cp_SessionID cp) (cp_Phase cp) output (Some (jsonbObject (cp_Progress cp)))
          (Some (coalesce (cp_ToolCalls cp) (JArr [])))
          (Some (coalesce (cp_Receipts cp) (JArr []))) (cp_PendingTool cp)]>
            (checkpoints d)) d);
      _ ← exec (fun _ => update_task id (fun t =>
            set_Progress (concat (coalesce_object (Progress t))
              (jsonbObject (cp_Progress cp))) t));
      mret (Commit tt)) e d.
