(* ===== verification/TaskControl.v ===== *)
(** * TaskControl: the owner's lifecycle commands and the dispatch queries

    [TaskController] of internal/core/task_control.go and task_restart.go
    ([Cancel], [Dismiss], [DismissFinished], [Restart], [Resume]), and the
    queries of task_run.go that pick the graph tasks to dispatch, expire or
    wake for.  The optional [SET LOCAL search_path] of a schema-bound
    controller has no effect on the tables and is left out. *)

From Stdlib Require Import Ascii String.
From S2P Require Import Prelude GoStrings Json Task TaskPlan Store StepStore Journal Finalize TaskRows.

Local Open Scope Z_scope.

Section control.
Context (collate : string -> string -> bool) (digest : bytes -> string).
Context (uuid_String : uuid -> string).

Definition recurring (t : AgentTask) : bool := negb (one_shot_row t).

(** The owner-scoped row lock. *)
Definition lock_owned (user soul id : uuid) : Tx AgentTask :=
  row ← query (fun _ d =>
    match tasks d !! id with
    | Some t => if N.eqb (UserID t) user && N.eqb (SoulID t) soul then Some t else None
    | None => None
    end);
  match (row : option AgentTask) with
  | Some t => mret t
  | None => throw ENoRows
  end.

Definition cancellation (emptyBody : string) : TaskFinalization :=
  MkFinalization "cancelled" "" "cancelled_by_user"
    (fun goal draft review => ("Unverified research draft — " ++ goal ++ nl ++ draft
       ++ nl ++ "Unresolved review: " ++ review)%string)
    emptyBody "" "" None [] None None.

Definition Cancel (user soul id : uuid) (emptyBody : string) : Op bool := fun e d =>
  if N.eqb user uuid_Nil || N.eqb soul uuid_Nil || N.eqb id uuid_Nil
  then (Err ENoRows, d)
  else run_tx (
    task ← lock_owned user soul id;
    if recurring task then
      if bool_decide (Status task <> TCanceled) then
        _ ← exec (fun _ => update_task id (set_Status TCanceled));
        mret (Commit true)
      else mret (Commit false)
    else
      art ← finalizeTaskTx collate digest id (cancellation emptyBody);
      mret (Commit (is_some (art : option TaskArtifact)))) e d.

Definition Dismiss (user soul id : uuid) : Op bool := fun e d =>
  if N.eqb user uuid_Nil || N.eqb soul uuid_Nil || N.eqb id uuid_Nil
  then (Err ENoRows, d)
  else run_tx (
    row ← query (fun _ d =>
      match tasks d !! id with
      | Some t => if N.eqb (UserID t) user && N.eqb (SoulID t) soul && one_shot_row t
                  then Some (Status t) else None
      | None => None
      end);
    match (row : option TaskStatus) with
    | None => throw ENoRows
    | Some status =>
        if negb (task_terminal status) then throw ETaskActive
        else
          new ← stmt (fun _ d =>
            Ok (bool_decide (id ∉ dismissals d), with_dismissals ({[id]} ∪ dismissals d) d));
          mret (Commit (new : bool))
    end) e d.

Definition dismissible (user soul : uuid) (t : AgentTask) : bool :=
  N.eqb (UserID t) user && N.eqb (SoulID t) soul && task_terminal (Status t)
  && one_shot_row t.
Definition DismissFinished (user soul : uuid) : Op Z := fun e d =>
  if N.eqb user uuid_Nil || N.eqb soul uuid_Nil then (Err ENoRows, d)
  else run_tx (
    n ← exec_count (fun _ d =>
      let ids := (List.filter (fun p => dismissible user soul (snd p)
                    && bool_decide (fst p ∉ dismissals d)) (map_to_list (tasks d))).*1 in
      (Z.of_nat (length ids), with_dismissals (list_to_set ids ∪ dismissals d) d));
    mret (Commit n)) e d.

(** The row [INSERT ... SELECT] makes of the source task. *)
Definition restarted (child : uuid) (budget : duration) (now now0 : time)
    (t : AgentTask) : AgentTask :=
  MkAgentTask (ExecutorVersion t) child (SoulID t) (UserID t) (Title t) (Description t)
    (AcceptanceCriteria t) (Strategy t) (Handler t) (DelegateTo t)
    (concat (minus (coalesce_object (Config t)) "start_at")
       (JObj [("restart_of"%string, JStr (uuid_String (ID t)))]))
    (Plan t) (Tools t) (UseAgents t) None
    (if TaskRunsToCompletion t then None
     else Some (now + interval_ms (Milliseconds budget)))
    None TPending (JObj []) None None 0 (MaxIterations t) None None now0 None [].

(** An attempted effect that no receipt confirms. *)
Definition uncertain_effect (id : uuid) (s : TaskStep) : bool :=
  N.eqb (s_TaskID s) id && negb (String.eqb (s_Kind s) "read")
  && negb (String.eqb (s_Kind s) "finalize" && bool_decide (s_Tools s = []))
  && Z.ltb 0 (s_Attempts s) && bool_decide (s_Status s <> SDone).

Definition Restart (user soul id : uuid) (budget : duration) : Op uuid := fun e d =>
  if N.eqb user uuid_Nil || N.eqb soul uuid_Nil || N.eqb id uuid_Nil
  then (Err ENoRows, d)
  else
    let budget := if Z.leb budget 0 then DefaultTaskWallTimeout else budget in
    run_tx (
      task ← lock_owned user soul id;
      if recurring task then throw ETaskNotTerminal
      else if negb (task_terminal (Status task)) then throw ETaskNotTerminal
      else
        previous ← query (fun _ d => restarts d !! id);
        match (previous : option uuid) with
        | Some p => mret (Rollback p)
        | None =>
            uncertain ← (if Z.eqb (ExecutorVersion task) 2
                         then query (fun _ d => existsb (uncertain_effect id) (steps d))
                         else mret false);
            if (uncertain : bool) then throw ETaskRestartUncertain
            else
              child ← uuid_New;
              now0 ← tx_now;
              _ ← stmt (fun now d =>
                match tasks d !! id, tasks d !! child with
                | Some t, None => Ok (tt, with_tasks
                    (<[child := restarted child budget now now0 t]> (tasks d)) d)
                | None, _ => Ok (tt, d)
                | _, Some _ => Err EDuplicateKey
                end);
              _ ← stmt (fun _ d =>
                if is_some (restarts d !! id)
                   || existsb (fun p => N.eqb (snd p) child) (map_to_list (restarts d))
                   || N.eqb id child
                then Err EDuplicateKey
                else Ok (tt, with_restarts (<[id := child]> (restarts d)) d));
              mret (Commit child)
        end) e d.

Definition Resume (user soul id : uuid) : Op unit := fun e d =>
  if N.eqb user uuid_Nil || N.eqb soul uuid_Nil || N.eqb id uuid_Nil
  then (Err ENoRows, d)
  else run_tx (
    task ← lock_owned user soul id;
    if negb (recurring task) then throw ETaskNotRecurring
    else
      _ ← (if tstatus_in (Status task) [TCanceled; TPaused]
           then exec (fun _ => update_task id (set_Status TPending))
           else mret tt);
      mret (Commit tt)) e d.
End control.

(** ** Dispatch *)

Section dispatch.
Context (start_at : json -> option time).

Definition claim_ready (now : time) (r : option TaskRun) : bool :=
  match r with
  | None => true
  | Some r => Z.leb (r_LeaseUntil r) now && Z.leb (r_NextAttemptAt r) now
  end.
Definition eligible (d : db) (now : time) (p : uuid * AgentTask) : bool :=
  claimable_task start_at now (snd p) && claim_ready now (runs d !! fst p).

(** The order [last_run_at NULLS FIRST, created_at, id]. *)
Definition dispatch_order (x y : uuid * AgentTask) : bool :=
  match nulls_first (LastRunAt (snd x)) (LastRunAt (snd y)) with
  | Lt => true
  | Gt => false
  | Eq => Z.ltb (CreatedAt (snd x)) (CreatedAt (snd y))
          || (Z.eqb (CreatedAt (snd x)) (CreatedAt (snd y)) && N.leb (fst x) (fst y))
  end.

(** [row_number() OVER (PARTITION BY user_id ...)] of an ordered list. *)
Fixpoint owner_ranks (seen : gmap uuid Z) (l : list (uuid * AgentTask))
    : list (Z * (uuid * AgentTask)) :=
  match l with
  | [] => []
  | p :: rest =>
      let n := default 0 (seen !! UserID (snd p)) + 1 in
      (n, p) :: owner_ranks (<[UserID (snd p) := n]> seen) rest
  end.

(** Live coordinators of [user], whatever the task. *)
Definition active_of (d : db) (user : uuid) (now : time) : Z :=
  affected (fun p : uuid * TaskRun =>
    match tasks d !! fst p with
    | Some t => N.eqb (UserID t) user && Z.eqb (ExecutorVersion t) 2
                && tstatus_in (Status t) [TPending; TRunning]
    | None => false
    end && Z.ltb now (r_LeaseUntil (snd p))) (map_to_list (runs d)).

Definition ranked (d : db) (now : time) : list (Z * (uuid * AgentTask)) :=
  List.filter (fun x => Z.leb (fst x) MaxConcurrentGraphTasksPerUser)
    ((fun x => (fst x + active_of d (UserID (snd (snd x))) now, snd x)) <$>
      owner_ranks ∅ (order_by dispatch_order
        (List.filter (eligible d now) (map_to_list (tasks d))))).

Definition RunnableGraphTasks (limit : Z) : Op (list (uuid * AgentTask)) := fun e d =>
  if Z.ltb limit 1 || Z.ltb 100 limit then (Err EInvalidLimit, d)
  else autocommit (query (fun now d =>
    take (Z.to_nat limit) ((order_by (fun x y => Z.ltb (fst x) (fst y)
        || (Z.eqb (fst x) (fst y) && dispatch_order (snd x) (snd y)))
      (ranked d now)).*2))) e d.

Definition ExpiredGraphTasks (now : time) (limit : Z) : Op (list (uuid * AgentTask)) :=
  fun e d =>
  if Z.ltb limit 1 || Z.ltb 1000 limit then (Err EInvalidLimit, d)
  else autocommit (query (fun _ d =>
    let due p := let t := snd p in
      Z.eqb (ExecutorVersion t) 2 && task_live (Status t)
      && match Deadline t with Some dl => Z.leb dl now | None => false end in
    let order x y := let dl p := coalesce (Deadline (snd p)) 0 in
      Z.ltb (dl x) (dl y) || (Z.eqb (dl x) (dl y) && N.leb (fst x) (fst y)) in
    List.filter (fun p => is_some (TaskStopDeadline (snd p)))
      (take (Z.to_nat limit)
        (order_by order (List.filter due (map_to_list (tasks d))))))) e d.

(** [GREATEST] of its non-null arguments. *)
Definition greatest (l : list (option time)) : option time :=
  match omap id l with
  | [] => None
  | x :: rest => Some (fold_left Z.max rest x)
  end.
Definition boundaries (d : db) (p : uuid * AgentTask) : list time :=
  let t := snd p in
  let run := runs d !! fst p in
  omap id [Deadline t;
    (if tstatus_in (Status t) [TPending; TRunning]
     then greatest [r_LeaseUntil <$> run; r_NextAttemptAt <$> run; start_at (Config t)]
     else None)].
Definition NextGraphWake : Op (option time) := autocommit (query (fun now d =>
  let due := List.filter (Z.ltb now)
    ((List.filter (fun p => Z.eqb (ExecutorVersion (snd p)) 2 && task_live (Status (snd p)))
        (map_to_list (tasks d))) ≫= boundaries d) in
  match due with
  | [] => None
  | x :: rest => Some (fold_left Z.min rest x)
  end)).
End dispatch.
