(* ===== verification/FinalizeInv.v ===== *)
(** * FinalizeInv: what a finalization commits

    The decomposition of [finalizeTaskTx] used by the lifecycle and the
    journal theorems: a finalization either leaves the tables alone or writes
    one artifact, one terminal row and at most one delivery intent. *)

From stdpp Require Import pretty.
From Stdlib Require Import Ascii String.
From S2P Require Import Prelude GoStrings Json Task TaskPlan Store StepStore StepInv Journal Finalize.

Local Open Scope Z_scope.

(** A new attempt [aid] with the occurrences [refs]. *)
Definition journaled (d d' : db) (aid : uuid) (a : NotificationAttempt)
    (refs : list TaskDeliveryRef) : Prop :=
  notifications d !! aid = None
  /\ find_attempt d (n_TaskID a) (n_OccurrenceKey a) = None
  /\ notifications d' = <[aid := a]> (notifications d)
  /\ attempt_items d' = attempt_items d ++ ((fun r => MkItem aid (n_TaskID a) r) <$> refs)
  /\ NoDup refs /\ (forall r, r ∈ refs -> reserved_by d (n_TaskID a) r = false)
  /\ deliveries d' = deliveries d.

Lemma reserved_by_items d d' task r :
  attempt_items d' = attempt_items d -> reserved_by d' task r = reserved_by d task r.
Proof. unfold reserved_by. by intros ->. Qed.

Lemma reserved_by_app d d' task r l :
  attempt_items d' = attempt_items d ++ l ->
  reserved_by d' task r = false <->
  reserved_by d task r = false
  /\ forall i, i ∈ l -> i_TaskID i = task -> i_Ref i <> r.
Proof.
  unfold reserved_by. intros ->. rewrite existsb_app, orb_false_iff, !existsb_false_Forall,
    !Forall_forall. split.
  - intros [H1 H2]. split; [done|]. intros i Hi <- <-. specialize (H2 i Hi).
    by rewrite N.eqb_refl, bool_decide_eq_true_2 in H2.
  - intros [H1 H2]. split; [done|]. intros i Hi. apply andb_false_iff.
    destruct (N.eqb_spec (i_TaskID i) task); [right|by left].
    apply bool_decide_eq_false. eauto.
Qed.

Lemma insert_items_Ok aid id l : forall e n d u n' d',
  insert_items aid id l e n d = Ok (u, n', d') ->
  d' = with_attempt_items (attempt_items d ++ (MkItem aid id <$> l)) d
  /\ NoDup l /\ (forall r, r ∈ l -> reserved_by d id r = false).
Proof.
  induction l as [|r l IH]; intros e n d u n' d'; cbn [insert_items].
  - intros (_ & _ & ->)%ret_Ok. simpl. rewrite app_nil_r. destruct d.
    split; [done|]. split; [constructor|set_solver].
  - intros (u' & n1 & d1 & (_ & _ & Hs)%stmt_Ok & H)%tx_bind_Ok.
    destruct (reserved_by d id r) eqn:Hr; [done|]. simplify_eq.
    destruct (IH _ _ _ _ _ _ H) as (-> & Hnd & Hfree). simpl.
    split; [by rewrite <- app_assoc|].
    assert (forall r', r' ∈ l -> reserved_by d id r' = false /\ r <> r') as Hr'.
    { intros r' Hin. specialize (Hfree r' Hin).
      apply (reserved_by_app d _ id r' [MkItem aid id r]) in Hfree as [? Hne]; [|done].
      split; [done|]. apply (Hne (MkItem aid id r)); [set_solver|done]. }
    split.
    + constructor; [|done]. intros Hin. by apply (Hr' r).
    + intros r' [->|Hin]%elem_of_cons; [done|]. by apply Hr'.
Qed.

Section finalize_inv.
Context (collate : string -> string -> bool) (digest : bytes -> string).

Lemma orElse_Ok body q e n d r n' d' : orElse body q e n d = Ok (r, n', d') -> d' = d.
Proof. unfold orElse. destruct (String.eqb body ""); intros; by tx_inv. Qed.

Lemma graph_drafts_Ok id in_ body e n d r n' d' :
  graph_drafts collate id in_ body e n d = Ok (r, n', d') -> d' = d.
Proof.
  unfold graph_drafts. intros (b1 & n1 & d1 & ->%orElse_Ok & H)%tx_bind_Ok.
  apply tx_bind_Ok in H as (b2 & n2 & d2 & ->%orElse_Ok & H).
  destruct (_ || _); by tx_inv.
Qed.

Lemma find_draft_Ok task id in_ e n d r n' d' :
  find_draft collate task id in_ e n d = Ok (r, n', d') -> d' = d.
Proof.
  unfold find_draft. cbv zeta. intros (b1 & n1 & d1 & Hg & H)%tx_bind_Ok.
  assert (d1 = d) as -> by (destruct (_ && _) in Hg; [by eapply graph_drafts_Ok|by tx_inv]).
  apply tx_bind_Ok in H as (b2 & n2 & d2 & ->%orElse_Ok & H).
  apply tx_bind_Ok in H as (b3 & n3 & d3 & ->%orElse_Ok & H). by eapply orElse_Ok.
Qed.

Lemma queue_result_Ok task id v pending notify e n d u n' d' :
  queue_result digest task id v pending notify e n d = Ok (u, n', d') ->
  exists aid refs0 a now0,
    normalizeTaskDeliveryRefs (pending ++ [MkRef "task_result" ("version:" ++ pretty v)])
      = Ok refs0
    /\ a = MkNotificationAttempt id (UserID task)
             (taskNotificationOccurrenceKey digest (sortTaskDeliveryRefs refs0)) notify
             NRetryable None (Some "delivery_pending"%string) 0 (Some now0) now0 now0 None
    /\ journaled d d' aid a (sortTaskDeliveryRefs refs0)
    /\ tasks d' = tasks d /\ runs d' = runs d /\ steps d' = steps d
    /\ artifacts d' = artifacts d /\ restarts d' = restarts d
    /\ dismissals d' = dismissals d.
Proof.
  unfold queue_result. cbv zeta.
  destruct (normalizeTaskDeliveryRefs _) as [refs0|x]; [|by intros; tx_inv].
  intros (aid & n1 & d1 & [= <- <- <-] & H)%tx_bind_Ok.
  apply tx_bind_Ok in H as (now0 & n2 & d2 & [= <- <- <-] & H).
  apply tx_bind_Ok in H as (u' & n3 & d3 & (_ & -> & Hs)%stmt_Ok & H).
  destruct (notifications d !! fresh e n) eqn:Hn; [done|].
  destruct (find_attempt d id _) eqn:Hf; [done|]. simplify_eq.
  apply insert_items_Ok in H as (-> & Hnd & Hfree).
  do 4 eexists. split; [done|]. split; [done|]. by repeat split.
Qed.

(** The tables a publication leaves alone. *)
Definition rest_kept (d d' : db) : Prop :=
  runs d' = runs d /\ steps d' = steps d /\ submissions d' = submissions d
  /\ restarts d' = restarts d /\ dismissals d' = dismissals d /\ deliveries d' = deliveries d.

(** What one committed finalization of [task] writes. *)
Record published (in_ : TaskFinalization) (id : uuid) (task : AgentTask)
    (d d' : db) (a : TaskArtifact) : Prop := {
  pub_id : a_TaskID a = id;
  pub_version : a_Version a = max_version id d + 1;
  pub_outcome : valid_outcome (a_Outcome a) = true;
  pub_downgrade : a_Outcome a = f_Outcome in_
    \/ (f_Outcome in_ = "partial"%string /\ a_Outcome a = "blocked"%string);
  pub_body : a_Body a <> ""%string /\ btrim (a_Body a) <> ""%string;
  pub_artifacts : artifacts d' = artifacts d ++ [a];
  pub_task : exists now, tasks d' = alter (terminate (a_Outcome a) (a_Body a) (f_Reason in_)
    (TaskTerminalStatus task (a_Outcome a)) (jsonbObject (f_Progress in_))
    (terminal_metadata (a_Outcome a) (a_Version a) (f_Reason in_)) now) id (tasks d);
  pub_rest : runs d' = runs d /\ steps d' = steps d /\ restarts d' = restarts d
    /\ dismissals d' = dismissals d;
  pub_intent :
    (notifications d' = notifications d /\ attempt_items d' = attempt_items d
     /\ deliveries d' = deliveries d /\ a_Outcome a <> "completed"%string)
    \/ exists aid n refs, journaled d d' aid n refs /\ n_TaskID n = id
         /\ n_UserID n = UserID task /\ n_State n = NRetryable /\ n_AttemptCount n = 0
         /\ state_shape n = true
         /\ blank (n_Text n) = false
         /\ n_Text n ∈ [a_Body a; f_Notify in_; f_EmptyNotify in_];
}.

Lemma cleanTaskDraft_blank b : blank (cleanTaskDraft b) = String.eqb (cleanTaskDraft b) "".
Proof. unfold cleanTaskDraft, blank, TrimSpace. by rewrite lit_str, TrimSpace_b_idem. Qed.

Lemma publish_Ok task id in_ found e n d r n' d' :
  valid_outcome (f_Outcome in_) = true ->
  (f_Outcome in_ = "completed"%string -> blank found = false /\ found <> ""%string) ->
  publish digest task id in_ found e n d = Ok (r, n', d') ->
  exists a, r = Some a /\ published in_ id task d d' a.
Proof.
  intros Hv Hc. unfold publish. cbv zeta.
  set (body := if String.eqb found "" then TrimSpace (f_EmptyBody in_) else found).
  set (notify := if String.eqb found "" then f_EmptyNotify in_ else f_Notify in_).
  set (outcome := if String.eqb found "" && _ then _ else _).
  assert (Hbc : outcome = "completed"%string -> blank body = false).
  { subst outcome body. destruct (String.eqb_spec found "") as [->|]; simpl.
    - destruct (String.eqb_spec (f_Outcome in_) "partial"); [done|].
      intros E. by destruct (Hc E).
    - intros E. by apply Hc. }
  destruct (String.eqb_spec body "") as [|Hne]; [by intros; tx_inv|].
  intros (art & n1 & d1 & (_ & -> & Ha)%stmt_Ok & H)%tx_bind_Ok.
  destruct (String.eqb_spec (btrim body) "") as [|Hbt]; [done|]. simplify_eq.
  apply tx_bind_Ok in H as (now0 & n2 & d2 & [= <- <- <-] & H).
  apply tx_bind_Ok in H as (u & n3 & d3 & (_ & -> & ->)%exec_Ok & H).
  apply tx_bind_Ok in H as (u' & n4 & d4 & Hq & (-> & -> & ->)%ret_Ok).
  eexists. split; [done|]. cbn [a_Version a_Outcome] in Hq.
  assert (Hdown : outcome = f_Outcome in_ \/
    (f_Outcome in_ = "partial"%string /\ outcome = "blocked"%string)).
  { subst outcome. destruct (_ && _) eqn:E; [right|by left]. bool_to_prop. done. }
  assert (Hval : valid_outcome outcome = true) by (destruct Hdown as [->|[_ ->]]; done).
  destruct (blank (if String.eqb outcome "completed" && blank notify then body else notify))
    eqn:Hb.
  - apply ret_Ok in Hq as (_ & _ & ->).
    split; try done; [by eexists|]. left. repeat split; try done. simpl.
    intros E. rewrite E in Hb. simpl in Hb. destruct (blank notify) eqn:Hn; [|congruence].
    rewrite (Hbc E) in Hb. done.
  - apply queue_result_Ok in Hq
      as (aid & refs0 & a & now1 & _ & -> & Hj & Ht & Hr & Hs & Har & Hrs & Hd).
    split; try first
      [ done | by simpl | by rewrite Har | by rewrite Hr, Hs, Hrs, Hd
      | exists (clk e 0%nat); by rewrite Ht ].
    + right. exists aid. do 2 eexists. split; [exact Hj|]. simpl.
      repeat split; try done. subst notify.
      rewrite !elem_of_cons. case_match; [left; reflexivity|].
      destruct (String.eqb found ""); auto.
Qed.

(** The fences a committed finalization passed. *)
Record admitted (e : env) (d : db) (id : uuid) (in_ : TaskFinalization)
    (task : AgentTask) : Prop := {
  adm_task : tasks d !! id = Some task;
  adm_live : task_live (Status task) = true;
  adm_run : ExecutorVersion task = 2 -> f_ExpiredAt in_ = None ->
    f_Outcome in_ <> "cancelled"%string -> run_live e d id;
  adm_claim : forall c, f_ClaimStartedAt in_ = Some c ->
    Status task = TRunning /\ LastRunAt task = Some c;
  adm_expired : forall x, f_ExpiredAt in_ = Some x ->
    exists dl, Deadline task = Some dl /\ dl <= x;
  adm_completed : f_Outcome in_ = "completed"%string ->
    cleanTaskDraft (f_Body in_) <> ""%string;
}.

Lemma guard_Proceed in_ task :
  finalize_guard in_ task = Proceed ->
  (forall c, f_ClaimStartedAt in_ = Some c -> Status task = TRunning /\ LastRunAt task = Some c)
  /\ (forall x, f_ExpiredAt in_ = Some x -> exists dl, Deadline task = Some dl /\ dl <= x).
Proof.
  unfold finalize_guard. intros H. split.
  - intros c Hc. rewrite Hc in H. destruct (_ || _) eqn:E in H; [done|].
    apply orb_false_iff in E as [Hs%bool_decide_eq_false Hl].
    destruct (LastRunAt task); [|done]. bool_to_prop. subst.
    split; [by apply dec_stable|done].
  - intros x Hx. rewrite Hx in H.
    assert (match Deadline task with
            | None => Ignore
            | Some dl => if Z.ltb x dl then Ignore else Proceed
            end = Proceed) as H'.
    { destruct (f_ClaimStartedAt in_); [destruct (_ || _) in H|]; done. }
    destruct (Deadline task) as [dl|]; [|done]. exists dl. split; [done|].
    destruct (Z.ltb x dl) eqn:E; [done|]. by bool_to_prop.
Qed.

Lemma orElse_nonempty body q e n d r n' d' :
  body <> ""%string -> orElse body q e n d = Ok (r, n', d') -> r = body.
Proof.
  unfold orElse. intros Hne. apply String.eqb_neq in Hne as ->. intros (-> & _)%ret_Ok. done.
Qed.

Lemma find_draft_given task id in_ e n d r n' d' :
  cleanTaskDraft (f_Body in_) <> ""%string ->
  find_draft collate task id in_ e n d = Ok (r, n', d') -> r = cleanTaskDraft (f_Body in_).
Proof.
  intros Hne. pose proof Hne as Hne'. apply String.eqb_neq in Hne'.
  unfold find_draft. cbv zeta. rewrite Hne'. simpl. rewrite Hne'. simpl.
  intros (b1 & n1 & d1 & (-> & _)%ret_Ok & H)%tx_bind_Ok.
  apply tx_bind_Ok in H as (b2 & n2 & d2 & H2 & H).
  apply orElse_nonempty in H2 as ->; [|done].
  apply tx_bind_Ok in H as (b3 & n3 & d3 & H3 & H).
  apply orElse_nonempty in H3 as ->; [|done].
  by apply orElse_nonempty in H.
Qed.

Lemma finalizeTaskTx_Ok id in_ e n d r n' d' :
  finalizeTaskTx collate digest id in_ e n d = Ok (r, n', d') ->
  (r = None /\ d' = d)
  \/ exists task a, r = Some a /\ admitted e d id in_ task /\ published in_ id task d d' a.
Proof.
  unfold finalizeTaskTx. destruct (valid_outcome (f_Outcome in_)) eqn:Hv; [simpl|by intros; tx_inv].
  intros (row & n1 & d1 & (_ & -> & -> & ->)%query_Ok & H)%tx_bind_Ok.
  destruct (tasks d !! id) as [task|] eqn:Ht; [|by tx_inv].
  destruct (task_live (Status task)) eqn:Hl; simpl in H; [|left; by tx_inv].
  apply tx_bind_Ok in H as (u & n2 & d2 & Hr & H).
  assert (d2 = d /\ (ExecutorVersion task = 2 -> f_ExpiredAt in_ = None ->
    f_Outcome in_ <> "cancelled"%string -> run_live e d id)) as [-> Hrun].
  { destruct (_ && _) eqn:E in Hr.
    - apply requireTaskRun_Ok in Hr as [-> ?]. done.
    - apply ret_Ok in Hr as (_ & _ & ->). split; [done|]. intros Hv2 Hx Ho.
      rewrite Hx, Hv2 in E. apply String.eqb_neq in Ho. by rewrite Ho in E. }
  destruct (finalize_guard in_ task) eqn:Hg; [by tx_inv|left; by tx_inv|].
  apply guard_Proceed in Hg as [Hcl Hex].
  apply tx_bind_Ok in H as (late & n3 & d3 & Hlate & H).
  assert (d3 = d) as ->.
  { destruct (Deadline task), (String.eqb (f_Outcome in_) "completed"); by tx_inv. }
  destruct late; [by tx_inv|].
  destruct (String.eqb_spec (cleanTaskDraft (f_Body in_)) "") as [He|He];
    destruct (String.eqb_spec (f_Outcome in_) "completed") as [Ho|Ho]; try by tx_inv.
  all: simpl in H; apply tx_bind_Ok in H as (found & n4 & d4 & Hf & H).
  all: pose proof (find_draft_Ok _ _ _ _ _ _ _ _ _ Hf) as ->.
  all: right; exists task.
  all: apply publish_Ok in H as (a & -> & Hp); [|done|].
  all: try (intros Ho'; by destruct (Ho Ho')).
  all: try (intros _; pose proof (find_draft_given _ _ _ _ _ _ _ _ _ He Hf) as ->;
    rewrite cleanTaskDraft_blank; split; [by apply String.eqb_neq|done]).
  all: exists a; split; [done|]; split; [|done]; by split.
Qed.

Lemma FinalizeTask_cases id in_ e d r d' :
  FinalizeTask collate digest id in_ e d = (r, d') ->
  d' = d \/ exists task a, r = Ok (Some a) /\ admitted e d id in_ task
    /\ published in_ id task d d' a.
Proof.
  intros [->|(x & n & Hb & ->)]%run_tx_cases; [by left|].
  apply tx_bind_Ok in Hb as (x' & n1 & d1 & Hf & Hb).
  apply ret_Ok in Hb as ([= ->] & _ & ->).
  apply finalizeTaskTx_Ok in Hf as [[-> ->]|(task & a & -> & Had & Hp)]; [by left|].
  right. eauto.
Qed.
End finalize_inv.
