(* ===== verification/JournalInv.v ===== *)
(** * JournalInv: at-most-once delivery

    The life of a notification attempt ([attempt_life]), the change an
    operation makes to the journal ([journal_change]) and the invariant
    [journal_inv]: a task occurrence is reserved by at most one attempt, the
    reservations of a sent attempt are in the delivery ledger, and every row
    satisfies the table's state-shape constraint. *)

From Stdlib Require Import Ascii String.
From S2P Require Import Prelude GoStrings Json Task TaskPlan AutonomousTurn Store StepStore StepInv.
From S2P Require Import Journal Finalize FinalizeInv.

Local Open Scope Z_scope.

Definition attempt_final (s : AttemptState) : bool :=
  match s with NSent | NUncertain | NRejected => true | _ => false end.

(** The columns no operation rewrites. *)
Definition same_intent (a a' : NotificationAttempt) : Prop :=
  n_TaskID a' = n_TaskID a /\ n_UserID a' = n_UserID a
  /\ n_OccurrenceKey a' = n_OccurrenceKey a /\ n_Text a' = n_Text a
  /\ n_CreatedAt a' = n_CreatedAt a.

Inductive attempt_life : NotificationAttempt -> NotificationAttempt -> Prop :=
| al_keep a : attempt_life a a
| al_resolve a a' : same_intent a a' -> n_State a = NDispatching ->
    n_State a' <> NDispatching -> n_AttemptCount a' = n_AttemptCount a ->
    attempt_life a a'
| al_redispatch a a' : same_intent a a' -> n_State a = NRetryable ->
    n_State a' = NDispatching -> n_AttemptCount a' = n_AttemptCount a + 1 ->
    attempt_life a a'.

Definition items_of (d : db) (id : uuid) : list AttemptItem :=
  List.filter (fun i => N.eqb (i_AttemptID i) id) (attempt_items d).
Definition ledger_key (i : AttemptItem) : uuid * TaskDeliveryRef := (i_TaskID i, i_Ref i).

Inductive journal_change (d d' : db) : Prop :=
| jc_none : notifications d' = notifications d -> attempt_items d' = attempt_items d ->
    deliveries d' = deliveries d -> journal_change d d'
| jc_new aid a refs : journaled d d' aid a refs -> state_shape a = true ->
    n_State a = NDispatching \/ n_State a = NRetryable -> 0 <= n_AttemptCount a ->
    journal_change d d'
| jc_life id a a' : notifications d !! id = Some a ->
    notifications d' = <[id := a']> (notifications d) -> attempt_life a a' ->
    (state_shape a = true -> state_shape a' = true) ->
    attempt_items d' = attempt_items d ->
    deliveries d' = (if bool_decide (n_State a' = NSent /\ n_State a = NDispatching)
                     then list_to_set (ledger_key <$> items_of d id) ∪ deliveries d
                     else deliveries d) ->
    journal_change d d'
| jc_mark s : notifications d' = notifications d -> attempt_items d' = attempt_items d ->
    deliveries d' = s ∪ deliveries d -> journal_change d d'.

Record journal_inv (d : db) : Prop := {
  ji_reserved : NoDup (ledger_key <$> attempt_items d);
  ji_owner : forall i, i ∈ attempt_items d -> exists a,
    notifications d !! i_AttemptID i = Some a /\ n_TaskID a = i_TaskID i;
  ji_sent : forall id a i, notifications d !! id = Some a -> n_State a = NSent ->
    i ∈ attempt_items d -> i_AttemptID i = id -> ledger_key i ∈ deliveries d;
  ji_shape : forall id a, notifications d !! id = Some a ->
    state_shape a = true /\ 0 <= n_AttemptCount a;
  ji_occurrence : forall i j a c, notifications d !! i = Some a ->
    notifications d !! j = Some c -> n_TaskID a = n_TaskID c ->
    n_OccurrenceKey a = n_OccurrenceKey c -> i = j;
}.

Lemma attempt_life_intent a a' : attempt_life a a' -> same_intent a a'.
Proof. intros []; [by repeat split|done..]. Qed.

Lemma attempt_life_final a a' :
  attempt_life a a' -> attempt_final (n_State a) = true -> a' = a.
Proof. intros [] Hf; try done; rewrite H0 in Hf; done. Qed.

(** ** The invariant is kept *)

Lemma reserved_by_false d task r :
  reserved_by d task r = false <-> (task, r) ∉ ledger_key <$> attempt_items d.
Proof.
  unfold reserved_by. rewrite existsb_false_Forall, Forall_forall. split.
  - intros H (i & Hk & Hi)%list_elem_of_fmap. specialize (H i Hi).
    injection Hk as -> ->. by rewrite N.eqb_refl, bool_decide_eq_true_2 in H.
  - intros H i Hi. apply andb_false_iff.
    destruct (N.eqb_spec (i_TaskID i) task) as [<-|]; [right|by left].
    apply bool_decide_eq_false. intros <-. apply H.
    apply list_elem_of_fmap. by exists i.
Qed.

Lemma find_attempt_None d task key :
  find_attempt d task key = None <->
  forall id a, notifications d !! id = Some a -> n_TaskID a = task ->
    n_OccurrenceKey a <> key.
Proof.
  unfold find_attempt. split.
  - intros H id a Hn Ht Hk. apply elem_of_map_to_list, list_elem_of_In in Hn.
    apply (List.find_none _ _ H) in Hn. simpl in Hn.
    by rewrite Ht, Hk, N.eqb_refl, String.eqb_refl in Hn.
  - intros H. destruct (List.find _ _) as [[id a]|] eqn:E; [|done]. exfalso.
    apply List.find_some in E as [Hin Hp]. apply list_elem_of_In, elem_of_map_to_list in Hin.
    simpl in Hp. apply andb_true_iff in Hp as [?%N.eqb_eq ?%String.eqb_eq].
    by apply (H id a).
Qed.

Lemma journaled_inv d d' aid a refs :
  journaled d d' aid a refs -> state_shape a = true ->
  n_State a = NDispatching \/ n_State a = NRetryable -> 0 <= n_AttemptCount a ->
  journal_inv d -> journal_inv d'.
Proof.
  intros (Hnew & Hocc & Hn & Hi & Hnd & Hfree & Hd) Hs Hst Hcnt [Hr Ho Hsent Hsh Hkey].
  rewrite find_attempt_None in Hocc.
  assert (Hne : forall i, i ∈ attempt_items d -> i_AttemptID i <> aid).
  { intros i Hin Heq. destruct (Ho i Hin) as (a0 & Ha & _). congruence. }
  split.
  - rewrite Hi, fmap_app. apply NoDup_app. split; [done|]. split.
    + intros k Hk (j & -> & (r & -> & Hr')%list_elem_of_fmap)%list_elem_of_fmap.
      by apply (proj1 (reserved_by_false d _ r) (Hfree r Hr')).
    + rewrite <- list_fmap_compose.
      apply NoDup_fmap_2; [|done]. by intros ? ? [= ->].
  - rewrite Hi, Hn. intros i [Hin|(r & -> & Hr')%list_elem_of_fmap]%elem_of_app.
    + rewrite lookup_insert_ne; [by apply Ho|]. intros E. by apply (Hne i).
    + exists a. by rewrite lookup_insert_eq.
  - rewrite Hi, Hn, Hd. intros id a0 i Ha Hsa [Hin|(r & -> & Hr')%list_elem_of_fmap]%elem_of_app Hid.
    + subst id. rewrite lookup_insert_ne in Ha; [by eapply Hsent|].
      intros E. by apply (Hne i).
    + simpl in Hid. subst id. rewrite lookup_insert_eq in Ha. simplify_eq.
      destruct Hst; congruence.
  - rewrite Hn. intros id a0 [[<- <-]|[_ Ha]]%lookup_insert_Some; [done|by eapply Hsh].
  - rewrite Hn. intros i j a1 a2 [[<- <-]|[? H1]]%lookup_insert_Some
      [[<- <-]|[? H2]]%lookup_insert_Some Ht Hk; [done| | |by eapply Hkey].
    + by destruct (Hocc j a2 H2 (eq_sym Ht)).
    + by destruct (Hocc i a1 H1 Ht).
Qed.

Lemma journal_life_inv d d' id a a' :
  notifications d !! id = Some a -> notifications d' = <[id := a']> (notifications d) ->
  attempt_life a a' -> (state_shape a = true -> state_shape a' = true) ->
  attempt_items d' = attempt_items d ->
  deliveries d' = (if bool_decide (n_State a' = NSent /\ n_State a = NDispatching)
                   then list_to_set (ledger_key <$> items_of d id) ∪ deliveries d
                   else deliveries d) ->
  journal_inv d -> journal_inv d'.
Proof.
  intros Ha Hn Hl Hsh Hi Hd [Hr Ho Hsent Hs Hkey].
  destruct (attempt_life_intent _ _ Hl) as (Ht & _ & Hk & _).
  assert (Hsub : deliveries d ⊆ deliveries d').
  { rewrite Hd. case_match; [apply union_subseteq_r|done]. }
  split; rewrite ?Hi, ?Hn; try done.
  - intros i Hin. destruct (Ho i Hin) as (a0 & Ha0 & Ht0).
    destruct (decide (id = i_AttemptID i)) as [E|E].
    + exists a'. rewrite <- E, lookup_insert_eq. split; [done|]. congruence.
    + exists a0. by rewrite lookup_insert_ne.
  - intros id0 a0 i [[<- <-]|[Hne Ha0]]%lookup_insert_Some Hst Hin Hid;
      [|apply Hsub; by eapply Hsent].
    destruct (decide (n_State a = NDispatching)) as [Hdisp|Hdisp].
    + rewrite Hd, bool_decide_eq_true_2 by done. apply elem_of_union_l.
      apply elem_of_list_to_set, list_elem_of_fmap. exists i. split; [done|].
      apply list_elem_of_In, filter_In. split; [by apply list_elem_of_In|by apply N.eqb_eq].
    + apply Hsub. apply (Hsent id a i); try done.
      destruct Hl as [a|? ? _ ? _ _|? ? _ _ Hx _]; congruence.
  - intros id0 a0 [[<- <-]|[_ Ha0]]%lookup_insert_Some; [|by eapply Hs].
    destruct (Hs id a Ha) as [Hsa Hc]. split; [by apply Hsh|].
    destruct Hl as [a|? ? _ _ _ ->|? ? _ _ _ ->]; lia.
  - intros i j a1 a2 [[<- <-]|[? H1]]%lookup_insert_Some
      [[<- <-]|[? H2]]%lookup_insert_Some Hta Hka; [done| | |by eapply Hkey].
    + apply (Hkey id j a a2); congruence.
    + apply (Hkey i id a1 a); congruence.
Qed.

Lemma journal_change_inv d d' : journal_change d d' -> journal_inv d -> journal_inv d'.
Proof.
  intros [Hn Hi Hd|aid a refs Hj Hs Hst Hc|id a a' Ha Hn Hl Hsh Hi Hd|s Hn Hi Hd].
  - intros [Hr Ho Hsent Hs Hk]. split; rewrite ?Hn, ?Hi, ?Hd; done.
  - by eapply journaled_inv.
  - by eapply journal_life_inv.
  - intros [Hr Ho Hsent Hs Hk]. split; rewrite ?Hn, ?Hi, ?Hd; try done.
    intros. apply elem_of_union_r. by eapply Hsent.
Qed.

(** ** The operations *)

Lemma alter_Some {A} (m : gmap uuid A) f id a :
  m !! id = Some a -> alter f id m = <[id := f a]> m.
Proof.
  intros H. apply map_eq. intros i. destruct (decide (id = i)) as [<-|].
  - by rewrite lookup_alter_eq, H, lookup_insert_eq.
  - by rewrite lookup_alter_ne, lookup_insert_ne.
Qed.

Lemma update_dispatching_eq id f d a :
  notifications d !! id = Some a -> n_State a = NDispatching ->
  notifications (update_dispatching id f d) = <[id := f a]> (notifications d).
Proof.
  intros Ha Hs. unfold update_dispatching. simpl. rewrite (alter_Some _ _ _ _ Ha).
  by rewrite bool_decide_eq_true_2.
Qed.

Lemma lock_attempt_Ok id e n d a n' d' :
  lock_attempt id e n d = Ok (a, n', d') -> d' = d /\ notifications d !! id = Some a.
Proof.
  unfold lock_attempt. intros (row & n1 & d1 & (_ & -> & -> & ->)%query_Ok & H)%tx_bind_Ok.
  destruct (notifications d !! id); by tx_inv.
Qed.

(** A resolution of a dispatching attempt, the deliveries untouched. *)
Lemma resolve_change id f d a :
  notifications d !! id = Some a -> n_State a = NDispatching ->
  attempt_life a (f a) -> (state_shape a = true -> state_shape (f a) = true) ->
  n_State (f a) <> NSent ->
  journal_change d (update_dispatching id f d).
Proof.
  intros Ha Hs Hl Hsh Hns.
  eapply (jc_life _ _ id a (f a)); try done; [by apply update_dispatching_eq|].
  simpl. by rewrite bool_decide_eq_false_2 by tauto.
Qed.

Lemma resolve_life a st rc er nx rs :
  n_State a = NDispatching -> st <> NDispatching ->
  attempt_life a (resolve st rc er nx rs a).
Proof. intros. by apply al_resolve. Qed.

(** References after normalisation: trimmed, bounded, distinct. *)
Definition ref_ok (r : TaskDeliveryRef) : Prop :=
  InputID r <> ""%string /\ ItemKey r <> ""%string
  /\ (String.length (InputID r) <= taskDeliveryInputIDMaxBytes)%nat
  /\ (String.length (ItemKey r) <= TaskDeliveryItemKeyMaxBytes)%nat.

Lemma normalize_from_Ok refs : forall seen out,
  normalize_from seen refs = Ok out ->
  NoDup out /\ (forall r, r ∈ out -> r ∉ seen /\ ref_ok r
    /\ exists r0, r0 ∈ refs /\ r = MkRef (TrimSpace (InputID r0)) (TrimSpace (ItemKey r0))).
Proof.
  induction refs as [|r refs IH]; intros seen out; cbn [normalize_from].
  { intros [= <-]. split; [constructor|set_solver]. }
  set (r' := MkRef (TrimSpace (InputID r)) (TrimSpace (ItemKey r))).
  assert (forall seen out, normalize_from seen refs = Ok out ->
    NoDup out /\ (forall x, x ∈ out -> x ∉ seen /\ ref_ok x
      /\ exists r0, r0 ∈ r :: refs /\ x = MkRef (TrimSpace (InputID r0)) (TrimSpace (ItemKey r0))))
    as IH'.
  { intros s o [Hnd Ho]%IH. split; [done|]. intros x Hx.
    destruct (Ho x Hx) as (? & ? & r0 & ? & ->). split; [done|]. split; [done|].
    exists r0. split; [by apply elem_of_cons; right|done]. }
  destruct (_ || _) eqn:He; [by apply IH'|]. apply orb_false_iff in He as [He1 He2].
  destruct (Nat.ltb _ _) eqn:Hl1; [done|]. destruct (Nat.ltb TaskDeliveryItemKeyMaxBytes _) eqn:Hl2; [done|].
  destruct (bool_decide (r' ∈ seen)) eqn:Hin; [by apply IH'|]. bool_to_prop.
  intros (out' & Hn & [= <-])%res_bind_Ok. apply IH' in Hn as [Hnd Ho].
  split.
  - constructor; [|done]. intros Hr'. apply Ho in Hr' as [Hr' _]. set_solver.
  - intros x [->|Hx]%elem_of_cons.
    + split; [done|]. split; [by repeat split|]. exists r. split; [by apply elem_of_cons; left|done].
    + destruct (Ho x Hx) as (Hs & Hok & Hex). split; [set_solver|done].
Qed.

Lemma insert_ref_perm r l : insert_ref r l ≡ₚ r :: l.
Proof.
  induction l as [|x l IH]; simpl; [done|]. destruct (ref_lt r x); [done|].
  rewrite IH. apply Permutation_swap.
Qed.

Lemma sort_perm l : sortTaskDeliveryRefs l ≡ₚ l.
Proof. induction l as [|x l IH]; simpl; [done|]. by rewrite insert_ref_perm, IH. Qed.

Lemma normalized_sorted refs out :
  normalizeTaskDeliveryRefs refs = Ok out ->
  NoDup (sortTaskDeliveryRefs out) /\ Forall ref_ok (sortTaskDeliveryRefs out).
Proof.
  intros [Hnd Ho]%normalize_from_Ok. split; [by rewrite sort_perm|].
  apply Forall_forall. intros r Hr. rewrite sort_perm in Hr. by apply Ho.
Qed.

Lemma filter_length_all {A} (p : A -> bool) l :
  length (List.filter p l) = length l -> List.filter p l = l /\ forall x, x ∈ l -> p x = true.
Proof.
  assert (forall l, (length (List.filter p l) <= length l)%nat) as Hle.
  { intros m. induction m as [|x m IH]; simpl; [done|]. destruct (p x); simpl; lia. }
  induction l as [|x l IH]; simpl; [by split; [|set_solver]|].
  destruct (p x) eqn:E; simpl.
  - intros [= H]. destruct (IH H) as [-> Ha]. split; [done|].
    intros y [->|?]%elem_of_cons; eauto.
  - intros H. specialize (Hle l). lia.
Qed.

Section journal.
Context (digest : bytes -> string).
Context (uuid_Parse : string -> option uuid).

(** The outcome of a confirmation. *)
Lemma Confirm_cases id transport receipt e d r d' :
  ConfirmNotificationAttempt uuid_Parse id transport receipt e d = (r, d') ->
  (d' = d /\ (r = Ok tt -> exists a, notifications d !! id = Some a /\ n_State a = NSent))
  \/ exists a now, r = Ok tt /\ notifications d !! id = Some a /\ n_State a = NDispatching
     /\ tasks d' = tasks d
     /\ notifications d' = <[id := resolve NSent (Some receipt) None None (Some now) a]>
                             (notifications d)
     /\ attempt_items d' = attempt_items d
     /\ deliveries d' = list_to_set (ledger_key <$> items_of d id) ∪ deliveries d.
Proof.
  unfold ConfirmNotificationAttempt.
  case_match; [intros [= <- <-]; by left|]. case_match; [intros [= <- <-]; by left|].
  intros H1. destruct r as [[]|x]; [|left; split; [by eapply run_tx_err|done]].
  apply run_tx_Ok in H1 as (_ & n & d1 & [[Hb ->]|[Hb ->]]);
    apply tx_bind_Ok in Hb as (a & n1 & d2 & [-> Ha]%lock_attempt_Ok & Hb);
    (destruct (ParseAutonomousTurnNotification uuid_Parse (n_Text a)) as [owner|x]; [|by tx_inv]);
    (destruct (match owner with Some c => negb (N.eqb (cm_UserID c) (n_UserID a)) | None => false end);
       [by tx_inv|]);
    (destruct (n_State a) eqn:Hs; try by tx_inv); [|left; split; [by tx_inv|eauto]|];
    apply tx_bind_Ok in Hb as (u & n2 & d3 & (_ & -> & ->)%exec_Ok & Hb);
    apply tx_bind_Ok in Hb as (now0 & n3 & d4 & [= <- <- <-] & Hb);
    apply tx_bind_Ok in Hb as (c & n4 & d5 & (_ & -> & [= -> ->])%exec_count_Ok & Hb);
    simpl in Hb; rewrite Ha, Hs in Hb; simpl in Hb; [|by tx_inv].
  tx_inv. right. exists a. eexists. split; [done|]. split; [done|]. split; [done|].
  split; [done|]. split; [|done].
  unfold update_dispatching. simpl. rewrite (alter_Some _ _ _ _ Ha).
  by rewrite Hs.
Qed.

Lemma Confirm_change id transport receipt e d r d' :
  ConfirmNotificationAttempt uuid_Parse id transport receipt e d = (r, d') ->
  journal_change d d' /\ tasks d' = tasks d.
Proof.
  intros [[-> _]|(a & now & _ & Ha & Hs & Ht & Hn & Hi & Hd)]%Confirm_cases;
    [split; [by apply jc_none|done]|].
  split; [|done]. eapply (jc_life _ _ id a); [done|exact Hn| | |done|].
  - by apply resolve_life.
  - intros Hsh. unfold state_shape in *. rewrite Hs in Hsh. simpl. by bool_to_prop.
  - rewrite Hd. simpl. by rewrite bool_decide_eq_true_2.
Qed.

Ltac attempt_op :=
  repeat (case_match; [intros [= <- <-]; by split; [apply jc_none|]|]);
  intros [->|([] & n & Hb & _)]%run_tx_cases; [by split; [apply jc_none|]|];
  apply tx_bind_Ok in Hb as (a & n1 & d1 & [-> Ha]%lock_attempt_Ok & Hb);
  destruct (n_State a) eqn:Hs; tx_inv; try (by split; [apply jc_none|]);
  (split; [|done]); eapply resolve_change; [exact Ha|exact Hs|..];
  [by apply resolve_life
  |unfold state_shape; rewrite Hs; simpl; intros; bool_to_prop; rewrite ?andb_true_iff; done
  |done].

Lemma Uncertain_change id reason e d r d' :
  MarkNotificationUncertain id reason e d = (r, d') ->
  journal_change d d' /\ tasks d' = tasks d.
Proof. unfold MarkNotificationUncertain. attempt_op. Qed.

Lemma Defer_change id reason at_ e d r d' :
  DeferNotificationAttempt id reason at_ e d = (r, d') ->
  journal_change d d' /\ tasks d' = tasks d.
Proof. unfold DeferNotificationAttempt. attempt_op. Qed.

Lemma Reject_change id reason e d r d' :
  RejectNotificationAttempt id reason e d = (r, d') ->
  journal_change d d' /\ tasks d' = tasks d.
Proof. unfold RejectNotificationAttempt. attempt_op. Qed.

(** A reservation is complete or there is none. *)
Lemma Begin_cases task user txt refs e d r d' :
  BeginNotificationAttempt digest task user txt refs e d = (r, d') ->
  (d' = d /\ forall id, r <> Ok (id, true))
  \/ exists id a out, r = Ok (id, true)
     /\ normalizeTaskDeliveryRefs refs = Ok out /\ out <> []
     /\ journaled d d' id a (sortTaskDeliveryRefs out)
     /\ n_TaskID a = task /\ n_UserID a = user /\ n_Text a = txt
     /\ n_State a = NDispatching /\ n_AttemptCount a = 1 /\ state_shape a = true
     /\ n_OccurrenceKey a = taskNotificationOccurrenceKey digest (sortTaskDeliveryRefs out)
     /\ tasks d' = tasks d.
Proof.
  unfold BeginNotificationAttempt.
  case_match; [intros [= <- <-]; by left|]. case_match; [intros [= <- <-]; by left|].
  destruct (normalizeTaskDeliveryRefs refs) as [[|x l]|x] eqn:Hnorm;
    [intros [= <- <-]; by left| |intros [= <- <-]; by left].
  cbv zeta. set (out := sortTaskDeliveryRefs (x :: l)).
  intros H1. destruct r as [[aid b']|y]; [|left; split; [by eapply run_tx_err|done]].
  apply run_tx_Ok in H1 as (_ & n & d1 & Hb).
  destruct Hb as [[Hb ->]|[Hb ->]];
    apply tx_bind_Ok in Hb as (id & n1 & d2 & [= <- <- <-] & Hb);
    apply tx_bind_Ok in Hb as (now0 & n2 & d3 & [= <- <- <-] & Hb);
    apply tx_bind_Ok in Hb as (ins & n3 & d4 & (_ & -> & Hs)%stmt_Ok & Hb).
  - destruct ins.
    + destruct (tasks d !! task) as [t|]; [|done].
      destruct (find_attempt d task _) eqn:Hf; [done|].
      destruct (N.eqb_spec (UserID t) user); [|done].
      destruct (notifications d !! _) eqn:Hn; [done|]. simplify_eq.
      apply tx_bind_Ok in Hb as (res & n4 & d5 & (_ & -> & [= -> ->])%exec_count_Ok & Hb).
      destruct (negb _) eqn:Hc in Hb; [by tx_inv|]. tx_inv.
      apply negb_false_iff, Z.eqb_eq, Nat2Z.inj in Hc.
      apply filter_length_all in Hc as [Hc Hfree].
      right. exists (fresh e 1%nat), (MkNotificationAttempt task (UserID t)
        (taskNotificationOccurrenceKey digest out) txt NDispatching None None 1 None
        (clk e 0%nat) (clk e 0%nat) None), (x :: l).
      split; [done|]. split; [done|]. split; [done|].
      split; [|by repeat split].
      unfold journaled. cbn [notifications attempt_items deliveries with_notifications
        with_attempt_items n_TaskID n_OccurrenceKey].
      split; [exact Hn|]. split; [exact Hf|]. split; [reflexivity|].
      split; [by rewrite Hc|].
      split; [by apply (normalized_sorted refs)|]. split; [|done].
      intros r Hr. by apply negb_true_iff, Hfree.
    + assert (d4 = d) as -> by (clear Hb; repeat case_match; by simplify_eq).
      apply tx_bind_Ok in Hb as (f & n4 & d5 & (_ & -> & Hf & ->)%query_Ok & Hb).
      destruct f; tx_inv. left. by split.
  - destruct ins.
    + apply tx_bind_Ok in Hb as (res & n4 & d5 & _ & Hb). destruct (negb _) in Hb; by tx_inv.
    + apply tx_bind_Ok in Hb as (f & n4 & d5 & _ & Hb). destruct f; by tx_inv.
Qed.

Lemma Begin_change task user txt refs e d r d' :
  BeginNotificationAttempt digest task user txt refs e d = (r, d') ->
  journal_change d d' /\ tasks d' = tasks d.
Proof.
  intros [[-> _]|(id & a & out & _ & _ & _ & Hj & _ & _ & _ & Hs & Hc & Hsh & _ & Ht)]%Begin_cases;
    [split; [by apply jc_none|done]|].
  split; [|done]. eapply jc_new; [exact Hj|done|by left|lia].
Qed.

Lemma earliest_in l x : earliest l = Some x -> x ∈ l.
Proof.
  revert x. induction l as [|y l IH]; intros x; simpl; [done|].
  destruct (earliest l) as [z|].
  - specialize (IH z eq_refl). destruct (before z y); intros ?; simplify_eq; rewrite elem_of_cons; auto.
  - intros ?; simplify_eq. by left.
Qed.

Lemma due_spec now locked p t c i :
  due now locked p = Some (t, c, i) -> n_State (snd p) = NRetryable /\ i = fst p.
Proof.
  unfold due. destruct (n_State (snd p)); try done.
  destruct (n_NextAttemptAt _); [|done]. destruct (_ && _); [|done]. by intros [= _ _ <-].
Qed.

Lemma ClaimRetryable_cases locked now e d r d' :
  ClaimRetryableNotification locked now e d = (r, d') ->
  (d' = d /\ forall x, r <> Ok (Some x))
  \/ exists id a, notifications d !! id = Some a /\ n_State a = NRetryable
     /\ tasks d' = tasks d
     /\ notifications d' = <[id := redispatch now a]> (notifications d)
     /\ attempt_items d' = attempt_items d /\ deliveries d' = deliveries d
     /\ r = Ok (Some (MkIntent id (n_TaskID a) (n_UserID a) (n_Text a)
                        (sortTaskDeliveryRefs (i_Ref <$> items_of d id)))).
Proof.
  unfold ClaimRetryableNotification. case_match; [intros [= <- <-]; by left|].
  intros H1. destruct r as [x|y]; [|left; split; [by eapply run_tx_err|done]].
  apply run_tx_Ok in H1 as (_ & n & d1 & Hb).
  destruct Hb as [[Hb ->]|[Hb ->]];
    apply tx_bind_Ok in Hb as (c & n1 & d2 & (_ & -> & Hs)%stmt_Ok & Hb);
    (destruct c as [[id a]|]; [|left; by tx_inv]);
    apply tx_bind_Ok in Hb as (rs & n2 & d3 & (_ & -> & -> & ->)%query_Ok & Hb);
    (destruct (sortTaskDeliveryRefs _) as [|r0 rs] eqn:Hrs in Hb; [by tx_inv|]); [|by tx_inv].
  destruct (earliest _) as [[[t c] i]|] eqn:He; [|done].
  apply earliest_in, list_elem_of_omap in He as (p & Hp & [Hst ->]%due_spec).
  destruct p as [i a0]. apply elem_of_map_to_list in Hp. simpl in *. rewrite Hp in Hs.
  simplify_eq. tx_inv. right. exists id, a. split; [done|]. split; [done|]. split; [done|].
  split; [by apply alter_Some|]. split; [done|]. split; [done|]. by rewrite <- Hrs.
Qed.

Lemma ClaimRetryable_change locked now e d r d' :
  ClaimRetryableNotification locked now e d = (r, d') ->
  (forall id a, notifications d !! id = Some a -> state_shape a = true) ->
  journal_change d d' /\ tasks d' = tasks d.
Proof.
  intros [[-> _]|(id & a & Ha & Hs & Ht & Hn & Hi & Hd & _)]%ClaimRetryable_cases Hsh;
    [split; [by apply jc_none|done]|].
  split; [|done]. eapply (jc_life _ _ id a); [done|exact Hn| | |done|].
  - by apply al_redispatch.
  - intros Hsa. unfold state_shape in *. rewrite Hs in Hsa. bool_to_prop.
    simpl. by rewrite !andb_true_r.
  - by rewrite Hd.
Qed.

Lemma MarkDelivered_change task refs e d r d' :
  MarkDelivered task refs e d = (r, d') -> journal_change d d' /\ tasks d' = tasks d.
Proof.
  unfold MarkDelivered.
  destruct (normalizeTaskDeliveryRefs refs) as [[|x l]|x];
    [intros [= _ ->]; by split; [apply jc_none|]| |intros [= _ ->]; by split; [apply jc_none|]].
  intros [->|(a & n & (_ & _ & ->)%exec_Ok & _)]%autocommit_cases; [by split; [apply jc_none|]|].
  split; [|done]. by eapply jc_mark.
Qed.

Lemma published_change in_ id task d d' a :
  published in_ id task d d' a -> journal_change d d'.
Proof.
  intros [_ _ _ _ _ _ _ _ [(Hn & Hi & Hd & _)|(aid & n & refs & Hj & _ & _ & Hs & Hc & Hsh & _)]].
  - by apply jc_none.
  - eapply jc_new; [exact Hj|exact Hsh|by right|lia].
Qed.
End journal.
