(* ===== verification/Occurrence.v ===== *)
(** * Occurrence: what a notification occurrence key identifies

    [taskNotificationOccurrenceKey] hashes [occurrence_input], a
    length-prefixed encoding of the sorted references.  The encoding is
    injective and insensitive to the order of the references, so two
    occurrence keys agree exactly when the reference sets do, up to a
    collision of the hash. *)

From stdpp Require Import sorting.
From Stdlib Require Import Ascii String OrdersEx.
From S2P Require Import Prelude GoStrings Json Task TaskPlan Store StepStore StepInv.
From S2P Require Import Journal Finalize FinalizeInv TaskRows TaskControl JournalInv.

Local Open Scope Z_scope.

(** ** The order of references *)

Lemma ltb_spec s t : String.ltb s t = true <-> String_as_OT.lt s t.
Proof.
  unfold String.ltb, String_as_OT.lt.
  change (String_as_OT.compare s t) with (String.compare s t).
  by destruct (String.compare s t).
Qed.

Lemma ltb_irrefl s : String.ltb s s = false.
Proof.
  apply not_true_is_false. rewrite ltb_spec.
  apply (@RelationClasses.StrictOrder_Irreflexive _ _ String_as_OT.lt_strorder).
Qed.

Lemma ltb_trans s t u : String.ltb s t = true -> String.ltb t u = true -> String.ltb s u = true.
Proof.
  rewrite !ltb_spec.
  apply (@RelationClasses.StrictOrder_Transitive _ _ String_as_OT.lt_strorder).
Qed.

Lemma ltb_total s t : s <> t -> String.ltb s t = false -> String.ltb t s = true.
Proof.
  unfold String.ltb. rewrite (String.compare_antisym t s). intros Hne.
  destruct (String.compare s t) eqn:E; simpl; try done.
  by apply String.compare_eq_iff in E.
Qed.

(** Component-wise reading of [ref_lt]. *)
Lemma ref_lt_spec x y :
  ref_lt x y = true <->
  String.ltb (InputID x) (InputID y) = true
  \/ (InputID x = InputID y /\ String.ltb (ItemKey x) (ItemKey y) = true).
Proof.
  unfold ref_lt. destruct (String.eqb_spec (InputID x) (InputID y)) as [->|Hne]; simpl.
  - rewrite ltb_irrefl. split; [auto|by intros [?|[_ ?]]].
  - split; [auto|by intros [?|[? _]]].
Qed.

Lemma ref_lt_irrefl x : ref_lt x x = false.
Proof.
  apply not_true_is_false. rewrite ref_lt_spec, !ltb_irrefl. by intros [?|[_ ?]].
Qed.

Lemma ref_lt_trans x y z : ref_lt x y = true -> ref_lt y z = true -> ref_lt x z = true.
Proof.
  rewrite !ref_lt_spec. intros [H1|[E1 H1]] [H2|[E2 H2]].
  - left. by eapply ltb_trans.
  - left. by rewrite <- E2.
  - left. by rewrite E1.
  - right. split; [congruence|by eapply ltb_trans].
Qed.

Lemma ref_lt_total x y : ref_lt x y = false -> x <> y -> ref_lt y x = true.
Proof.
  intros H Hne. rewrite ref_lt_spec. apply not_true_iff_false in H.
  rewrite ref_lt_spec in H.
  destruct (decide (InputID x = InputID y)) as [E|E].
  - right. split; [done|]. apply ltb_total.
    + intros E'. apply Hne. destruct x, y. simpl in *. congruence.
    + apply not_true_iff_false. tauto.
  - left. apply ltb_total; [done|]. apply not_true_iff_false. tauto.
Qed.

Definition ref_le (x y : TaskDeliveryRef) : Prop := x = y \/ ref_lt x y = true.

#[local] Instance ref_le_antisymm : AntiSymm (=) ref_le.
Proof.
  intros x y [|H1] [|H2]; try done. pose proof (ref_lt_trans _ _ _ H1 H2) as H.
  by rewrite ref_lt_irrefl in H.
Qed.
#[local] Instance ref_le_trans : Transitive ref_le.
Proof.
  intros x y z [->|H1] [->|H2]; [by left|by right|by right|right].
  by eapply ref_lt_trans.
Qed.

Lemma insert_ref_sorted r l : Sorted ref_le l -> Sorted ref_le (insert_ref r l).
Proof.
  induction 1 as [|x l Hs IH Hh]; simpl; [by repeat constructor|].
  destruct (ref_lt r x) eqn:E.
  - constructor; [by constructor|]. constructor. by right.
  - assert (ref_le x r) as Hxr.
    { destruct (decide (r = x)) as [->|]; [by left|]. right. by apply ref_lt_total. }
    constructor; [done|]. destruct Hh as [|y l Hy]; simpl in *; [by constructor|].
    destruct (ref_lt r y); by constructor.
Qed.

Lemma sort_sorted l : Sorted ref_le (sortTaskDeliveryRefs l).
Proof. induction l; simpl; [constructor|by apply insert_ref_sorted]. Qed.

Lemma sort_canonical l l' : l ≡ₚ l' -> sortTaskDeliveryRefs l = sortTaskDeliveryRefs l'.
Proof.
  intros H. apply (Sorted_unique ref_le); [apply sort_sorted..|]. by rewrite !sort_perm.
Qed.

(** ** The encoding *)

Lemma chr_inj m n : (m < 256)%nat -> (n < 256)%nat -> chr m = chr n -> m = n.
Proof.
  unfold chr. intros Hm Hn H.
  rewrite <- (nat_ascii_embedding m Hm), <- (nat_ascii_embedding n Hn). by rewrite H.
Qed.

Lemma be32_inj m n :
  Z.of_nat m < 65536 -> Z.of_nat n < 65536 -> be32 m = be32 n -> m = n.
Proof.
  unfold be32. intros Hm Hn. rewrite !Z.mod_small by lia.
  change 255 with (Z.ones 8). rewrite !Z.land_ones, !Z.shiftr_div_pow2 by lia.
  intros [= _ _ H1 H2].
  pose proof (Z.mod_pos_bound (Z.of_nat m / 2 ^ 8) (2 ^ 8) ltac:(lia)).
  pose proof (Z.mod_pos_bound (Z.of_nat n / 2 ^ 8) (2 ^ 8) ltac:(lia)).
  pose proof (Z.mod_pos_bound (Z.of_nat m) (2 ^ 8) ltac:(lia)).
  pose proof (Z.mod_pos_bound (Z.of_nat n) (2 ^ 8) ltac:(lia)).
  apply chr_inj in H1; [|lia..]. apply chr_inj in H2; [|lia..].
  apply Z2Nat.inj in H1; [|lia..]. apply Z2Nat.inj in H2; [|lia..].
  rewrite !Z.mod_small in H1 by (split; [apply Z.div_pos|apply Z.div_lt_upper_bound]; lia).
  pose proof (Z.div_mod (Z.of_nat m) (2 ^ 8) ltac:(lia)).
  pose proof (Z.div_mod (Z.of_nat n) (2 ^ 8) ltac:(lia)). lia.
Qed.

Lemma be32_length n : length (be32 n) = 4%nat.
Proof. done. Qed.

Lemma sized_app_inj s t l l' :
  Z.of_nat (String.length s) < 65536 -> Z.of_nat (String.length t) < 65536 ->
  sized s ++ l = sized t ++ l' -> s = t /\ l = l'.
Proof.
  unfold sized. intros Hs Ht. rewrite <- !app_assoc. intros H.
  apply app_inj_1 in H as [Hlen H]; [|done]. apply be32_inj in Hlen; [|done..].
  apply app_inj_1 in H as [He ->]; [|by rewrite !length_lit].
  split; [|done]. rewrite <- (str_lit s), <- (str_lit t). by rewrite He.
Qed.

Definition encode_ref (r : TaskDeliveryRef) : bytes := sized (InputID r) ++ sized (ItemKey r).

Lemma ref_ok_sizes r : ref_ok r ->
  Z.of_nat (String.length (InputID r)) < 65536
  /\ Z.of_nat (String.length (ItemKey r)) < 65536.
Proof.
  unfold ref_ok, taskDeliveryInputIDMaxBytes, TaskDeliveryItemKeyMaxBytes. lia.
Qed.

Lemma encode_refs_inj l : forall l',
  Forall ref_ok l -> Forall ref_ok l' ->
  (l ≫= encode_ref) = (l' ≫= encode_ref) -> l = l'.
Proof.
  induction l as [|x l IH]; intros [|y l'] Hl Hl' H; try done.
  apply Forall_cons in Hl as [Hx Hl]. apply Forall_cons in Hl' as [Hy Hl'].
  apply ref_ok_sizes in Hx as [Hx1 Hx2]. apply ref_ok_sizes in Hy as [Hy1 Hy2].
  rewrite !bind_cons in H. unfold encode_ref at 1 3 in H. rewrite <- !app_assoc in H.
  apply sized_app_inj in H as [E1 H]; [|done..].
  apply sized_app_inj in H as [E2 H]; [|done..].
  f_equal; [destruct x, y; simpl in *; congruence|by apply IH].
Qed.

Lemma occurrence_input_inj l l' :
  Forall ref_ok l -> Forall ref_ok l' ->
  occurrence_input l = occurrence_input l' -> l ≡ₚ l'.
Proof.
  intros Hl Hl' H. unfold occurrence_input in H.
  apply app_inj_1 in H as [_ H]; [|done]. apply app_inj_1 in H as [_ H]; [|done].
  apply encode_refs_inj in H.
  - by rewrite <- (sort_perm l), <- (sort_perm l'), H.
  - apply Forall_forall. intros r Hr. rewrite sort_perm in Hr.
    rewrite Forall_forall in Hl. by apply Hl.
  - apply Forall_forall. intros r Hr. rewrite sort_perm in Hr.
    rewrite Forall_forall in Hl'. by apply Hl'.
Qed.

(** What an occurrence key is computed from identifies the set of
    references: two normalised reference lists are encoded alike exactly when
    one is a reordering of the other. *)
Theorem occurrence_input_identifies refs refs' out out' :
  normalizeTaskDeliveryRefs refs = Ok out -> normalizeTaskDeliveryRefs refs' = Ok out' ->
  occurrence_input out = occurrence_input out' <-> out ≡ₚ out'.
Proof.
  intros [_ H1]%normalize_from_Ok [_ H2]%normalize_from_Ok. split.
  - apply occurrence_input_inj; apply Forall_forall; intros r Hr; [by apply H1|by apply H2].
  - intros Hp. unfold occurrence_input. by rewrite (sort_canonical _ _ Hp).
Qed.

Definition sample_refs : list TaskDeliveryRef :=
  [MkRef "mail" " b "; MkRef "mail" "a"; MkRef "mail" "b"; MkRef "" "x"].

Example sample_normalized :
  normalizeTaskDeliveryRefs sample_refs = Ok [MkRef "mail" "b"; MkRef "mail" "a"].
Proof. by vm_compute. Qed.

Lemma occurrence_input_identifies_witness :
  occurrence_input [MkRef "mail" "b"; MkRef "mail" "a"]
  = occurrence_input [MkRef "mail" "a"; MkRef "mail" "b"].
Proof.
  refine (proj2 (occurrence_input_identifies sample_refs
    [MkRef "mail" "a"; MkRef "mail" "b"] [MkRef "mail" "b"; MkRef "mail" "a"]
    [MkRef "mail" "a"; MkRef "mail" "b"] _ _) _).
  - by vm_compute.
  - by vm_compute.
  - apply Permutation_swap.
Defined.
