(* ===== verification/Delivery.v ===== *)
(** * Delivery: the journal over whole executions

    [journal_step] is one operation on the notification journal; the theorems
    hold in every state an execution reaches: an occurrence is reserved once
    and for all, a resolved attempt is final, its text immutable, and a
    reservation is complete or absent. *)

From Stdlib Require Import Ascii String.
From S2P Require Import Prelude GoStrings Json Task TaskPlan AutonomousTurn Store StepStore StepInv.
From S2P Require Import Journal Lifecycle Finalize FinalizeInv TaskRows TaskControl JournalInv.

Local Open Scope Z_scope.

Section delivery.
Context (collate : string -> string -> bool) (digest : bytes -> string).
Context (uuid_Parse : string -> option uuid).

Inductive journal_step (d d' : db) : Prop :=
| js_begin task user txt refs e r :
    BeginNotificationAttempt digest task user txt refs e d = (r, d') -> journal_step d d'
| js_confirm id transport receipt e r :
    ConfirmNotificationAttempt uuid_Parse id transport receipt e d = (r, d') ->
    journal_step d d'
| js_uncertain id reason e r :
    MarkNotificationUncertain id reason e d = (r, d') -> journal_step d d'
| js_defer id reason at_ e r :
    DeferNotificationAttempt id reason at_ e d = (r, d') -> journal_step d d'
| js_reject id reason e r :
    RejectNotificationAttempt id reason e d = (r, d') -> journal_step d d'
| js_drain locked now e r :
    ClaimRetryableNotification locked now e d = (r, d') -> journal_step d d'
| js_mark task refs e r : MarkDelivered task refs e d = (r, d') -> journal_step d d'
| js_finalize id in_ e r :
    FinalizeTask collate digest id in_ e d = (r, d') -> journal_step d d'
| js_cancel user soul id body e r :
    Cancel collate digest user soul id body e d = (r, d') -> journal_step d d'
| js_other : notifications d' = notifications d -> attempt_items d' = attempt_items d ->
    deliveries d' = deliveries d -> journal_step d d'.

Lemma Cancel_change user soul id body e d r d' :
  Cancel collate digest user soul id body e d = (r, d') -> journal_change d d'.
Proof.
  unfold Cancel. case_match; [intros [= _ ->]; by apply jc_none|].
  intros [->|(x & n & Hb & _)]%run_tx_cases; [by apply jc_none|].
  apply tx_bind_Ok in Hb as (task & n1 & d1 & Hl & Hb).
  assert (d1 = d) as ->.
  { unfold lock_owned in Hl. apply tx_bind_Ok in Hl as (row & n2 & d2 & (_ & -> & -> & ->)%query_Ok & Hl).
    repeat case_match; by tx_inv. }
  destruct (recurring task).
  - destruct (bool_decide _); tx_inv; by apply jc_none.
  - apply tx_bind_Ok in Hb as (art & n2 & d2 & Hf & Hb). tx_inv.
    apply finalizeTaskTx_Ok in Hf as [[_ ->]|(task' & a & _ & _ & Hp)];
      [by apply jc_none|by eapply published_change].
Qed.

Lemma journal_step_change d d' :
  journal_step d d' -> journal_inv d -> journal_change d d'.
Proof.
  intros [task user txt refs e r H|id tr rc e r H|id rs e r H|id rs at_ e r H|id rs e r H
         |locked now e r H|task refs e r H|id in_ e r H|user soul id body e r H|Hn Hi Hd] Hinv.
  - by eapply Begin_change.
  - by eapply Confirm_change.
  - by eapply Uncertain_change.
  - by eapply Defer_change.
  - by eapply Reject_change.
  - eapply ClaimRetryable_change; [exact H|]. intros id a Ha. by apply (ji_shape d Hinv id).
  - by eapply MarkDelivered_change.
  - apply FinalizeTask_cases in H as [->|(task & a & _ & _ & Hp)];
      [by apply jc_none|by eapply published_change].
  - by eapply Cancel_change.
  - by apply jc_none.
Qed.

Lemma journal_step_inv d d' : journal_step d d' -> journal_inv d -> journal_inv d'.
Proof. intros Hs Hi. eapply journal_change_inv; [by apply journal_step_change|done]. Qed.

Lemma journal_steps_inv d d' : rtc journal_step d d' -> journal_inv d -> journal_inv d'.
Proof. induction 1; eauto using journal_step_inv. Qed.

Lemma journal_empty_inv : journal_inv empty_db.
Proof.
  split; simpl; [constructor|..].
  - by intros i ?%elem_of_nil.
  - by intros id a i _ _ ?%elem_of_nil.
  - by intros id a ?%lookup_empty_Some.
  - by intros i j a c ?%lookup_empty_Some.
Qed.

(** ** Histories of one attempt *)

Lemma journal_change_attempt d d' id a :
  journal_change d d' -> notifications d !! id = Some a ->
  exists a', notifications d' !! id = Some a' /\ attempt_life a a'.
Proof.
  intros [Hn _ _|aid n refs (Hnew & _ & Hn & _) _ _ _|i b b' Hb Hn Hl _ _ _|s Hn _ _] Ha;
    rewrite Hn.
  - exists a. split; [done|constructor].
  - exists a. rewrite lookup_insert_ne by congruence. split; [done|constructor].
  - destruct (decide (i = id)) as [->|Hne].
    + exists b'. rewrite lookup_insert_eq. split; [done|congruence].
    + exists a. rewrite lookup_insert_ne by done. split; [done|constructor].
  - exists a. split; [done|constructor].
Qed.

Lemma journal_change_items d d' :
  journal_change d d' -> exists l, attempt_items d' = attempt_items d ++ l.
Proof.
  intros [_ Hi _|aid n refs (_ & _ & _ & Hi & _) _ _ _|i b b' _ _ _ _ Hi _|s _ Hi _];
    first [by exists []; rewrite app_nil_r|by eexists].
Qed.

(** Same intent, never fewer attempts; a resolved attempt is the same row. *)
Definition later_attempt (a a' : NotificationAttempt) : Prop :=
  same_intent a a' /\ n_AttemptCount a <= n_AttemptCount a'
  /\ (attempt_final (n_State a) = true -> a' = a).

Lemma attempt_life_later a a' : attempt_life a a' -> later_attempt a a'.
Proof.
  intros H. split; [by apply attempt_life_intent|]. split; [|by apply attempt_life_final].
  destruct H as [a|? ? _ _ _ ->|? ? _ _ _ ->]; lia.
Qed.

Lemma later_attempt_trans a1 a2 a3 :
  later_attempt a1 a2 -> later_attempt a2 a3 -> later_attempt a1 a3.
Proof.
  intros ((? & ? & ? & ? & ?) & ? & Hf1) ((? & ? & ? & ? & ?) & ? & Hf2).
  split; [repeat split; congruence|]. split; [lia|].
  intros Hf. rewrite (Hf2 ltac:(by rewrite (Hf1 Hf))). by apply Hf1.
Qed.

Lemma journal_steps_attempt d d' id a :
  rtc journal_step d d' -> journal_inv d -> notifications d !! id = Some a ->
  exists a', notifications d' !! id = Some a' /\ later_attempt a a'.
Proof.
  intros H. revert a. induction H as [|d d1 d' Hs _ IH]; intros a Hi Ha.
  { exists a. split; [done|]. apply attempt_life_later. constructor. }
  destruct (journal_change_attempt _ _ _ _ (journal_step_change _ _ Hs Hi) Ha)
    as (a1 & Ha1 & Hl).
  destruct (IH a1 (journal_step_inv _ _ Hs Hi) Ha1) as (a2 & Ha2 & Hl2).
  exists a2. split; [done|]. eapply later_attempt_trans; [by apply attempt_life_later|done].
Qed.

Lemma journal_steps_items d d' :
  rtc journal_step d d' -> journal_inv d ->
  forall i, i ∈ attempt_items d -> i ∈ attempt_items d'.
Proof.
  induction 1 as [|d d1 d' Hs _ IH]; [done|]. intros Hinv i Hi.
  apply IH; [by eapply journal_step_inv|].
  destruct (journal_change_items _ _ (journal_step_change _ _ Hs Hinv)) as [l ->].
  apply elem_of_app. by left.
Qed.

(** C18: a task's occurrence reference is reserved by at most one attempt for
    good, whichever operations interleave: in every reachable state two
    attempts never hold the same reference, no reservation is ever released,
    every reference of a sent attempt is in the delivery ledger, and every
    row satisfies the table's state-shape constraint. *)
Theorem occurrence_reserved_once d d' :
  rtc journal_step empty_db d -> rtc journal_step d d' ->
  NoDup (ledger_key <$> attempt_items d')
  /\ (forall i, i ∈ attempt_items d -> i ∈ attempt_items d')
  /\ (forall i a, i ∈ attempt_items d' ->
        notifications d' !! i_AttemptID i = Some a -> n_State a = NSent ->
        ledger_key i ∈ deliveries d')
  /\ (forall id a, notifications d' !! id = Some a -> state_shape a = true).
Proof.
  intros H H'. pose proof (journal_steps_inv _ _ H journal_empty_inv) as Hi.
  pose proof (journal_steps_inv _ _ H' Hi) as [Hr Ho Hs Hsh Hk].
  split; [done|]. split; [by apply journal_steps_items|]. split.
  - intros i a Hin Ha Hst. by eapply (Hs _ a).
  - intros id a Ha. by apply (Hsh id).
Qed.

(** An attempt's recipient, text and occurrence key never change, and
    once it is sent, uncertain or rejected no operation changes the row:
    an uncertain outcome is never sent again. *)
Theorem resolved_attempt_final d d' id a :
  journal_inv d -> rtc journal_step d d' -> notifications d !! id = Some a ->
  exists a', notifications d' !! id = Some a'
    /\ n_Text a' = n_Text a /\ n_UserID a' = n_UserID a /\ n_TaskID a' = n_TaskID a
    /\ n_OccurrenceKey a' = n_OccurrenceKey a
    /\ (attempt_final (n_State a) = true -> a' = a).
Proof.
  intros Hi Hs Ha. destruct (journal_steps_attempt _ _ _ _ Hs Hi Ha)
    as (a' & Ha' & (? & ? & ? & ? & _) & _ & Hf). by exists a'.
Qed.

(** Beginning an attempt reserves all of its references or none: it
    reports a new attempt exactly when no reference was reserved before and
    every one of them is now; on an overlap, an error or a repeated call the
    tables are unchanged. *)
Theorem reservation_all_or_nothing task user txt refs e d r d' :
  BeginNotificationAttempt digest task user txt refs e d = (r, d') ->
  (exists id a out, r = Ok (id, true) /\ normalizeTaskDeliveryRefs refs = Ok out
     /\ notifications d !! id = None /\ notifications d' !! id = Some a
     /\ n_Text a = txt /\ n_UserID a = user /\ n_State a = NDispatching
     /\ (forall x, x ∈ out -> reserved_by d task x = false /\ reserved_by d' task x = true))
  \/ (d' = d /\ forall id, r <> Ok (id, true)).
Proof.
  intros [[-> Hr]|(id & a & out & -> & Hn & _ & Hj & Ht & Hu & Htxt & Hs & _)]%Begin_cases;
    [by right|left].
  destruct Hj as (Hnew & _ & Hn' & Hi & _ & Hfree & _). exists id, a, out.
  split; [done|]. split; [done|]. split; [done|].
  split; [by rewrite Hn', lookup_insert_eq|]. split; [done|]. split; [done|]. split; [done|].
  intros x Hx. rewrite <- (sort_perm out) in Hx. subst task. split; [by apply Hfree|].
  apply not_false_iff_true. rewrite reserved_by_false, Hi, fmap_app, elem_of_app.
  intros Hno. apply Hno. right. rewrite <- list_fmap_compose.
  apply list_elem_of_fmap. by exists x.
Qed.
End delivery.

(** ** A sample history *)

Definition sample_digest (l : bytes) : string := str (take 8 (reverse l)).
Definition no_uuid (_ : string) : option uuid := None.
Definition sample_collate (x y : string) : bool := String.leb x y.
Definition sample_begun : db :=
  snd (BeginNotificationAttempt sample_digest 1 8 "hello"
    [MkRef "mail" "a"; MkRef "mail" "b"] (sample_env 0 10) sample_start).
Definition sample_uncertain : db :=
  snd (MarkNotificationUncertain 101 "timeout" (sample_env 0 11) sample_begun).
Definition sample_retried : db :=
  snd (ClaimRetryableNotification (fun _ => false) 12 (sample_env 0 12) sample_uncertain).

Lemma sample_begun_reachable :
  rtc (journal_step sample_collate sample_digest no_uuid) empty_db sample_begun.
Proof.
  apply (rtc_l _ _ sample_start); [by apply js_other|].
  apply rtc_once. exact (js_begin _ _ _ _ _ _ _ _ _ _ _ (surjective_pairing _)).
Qed.

Lemma sample_uncertain_step :
  rtc (journal_step sample_collate sample_digest no_uuid) sample_begun sample_uncertain.
Proof. apply rtc_once. exact (js_uncertain _ _ _ _ _ _ _ _ _ (surjective_pairing _)). Qed.

Lemma occurrence_reserved_once_witness :
  NoDup (ledger_key <$> attempt_items sample_uncertain)
  /\ length (attempt_items sample_uncertain) = 2%nat.
Proof.
  split; [|by vm_compute].
  exact (proj1 (occurrence_reserved_once sample_collate sample_digest no_uuid
    sample_begun sample_uncertain sample_begun_reachable sample_uncertain_step)).
Defined.

Lemma sample_uncertain_inv : journal_inv sample_uncertain.
Proof.
  eapply journal_steps_inv; [|apply journal_empty_inv].
  etransitivity; [exact sample_begun_reachable|exact sample_uncertain_step].
Qed.

Lemma sample_retried_step :
  rtc (journal_step sample_collate sample_digest no_uuid) sample_uncertain sample_retried.
Proof. apply rtc_once. exact (js_drain _ _ _ _ _ _ _ _ _ (surjective_pairing _)). Qed.

Lemma resolved_attempt_final_witness :
  exists a, notifications sample_uncertain !! 101%N = Some a /\ n_State a = NUncertain
    /\ notifications sample_retried !! 101%N = Some a.
Proof.
  destruct (notifications sample_uncertain !! 101%N) as [a|] eqn:Ha;
    [|exfalso; revert Ha; by vm_compute].
  assert (n_State a = NUncertain) as Hs.
  { revert Ha. vm_compute. by intros [= <-]. }
  exists a. split; [done|]. split; [done|].
  destruct (resolved_attempt_final sample_collate sample_digest no_uuid
    sample_uncertain sample_retried 101%N a sample_uncertain_inv sample_retried_step Ha)
    as (a' & Ha' & _ & _ & _ & _ & Hf).
  rewrite (Hf ltac:(by rewrite Hs)) in Ha'. exact Ha'.
Defined.

Lemma reservation_all_or_nothing_witness :
  snd (BeginNotificationAttempt sample_digest 1 8 "other" [MkRef "mail" "b"; MkRef "mail" "c"]
    (sample_env 0 13) sample_begun) = sample_begun.
Proof.
  set (r := BeginNotificationAttempt sample_digest 1 8 "other"
    [MkRef "mail" "b"; MkRef "mail" "c"] (sample_env 0 13) sample_begun).
  destruct (reservation_all_or_nothing sample_digest 1 8 "other"
    [MkRef "mail" "b"; MkRef "mail" "c"] (sample_env 0 13) sample_begun (fst r) (snd r)
    (surjective_pairing _)) as [(id & a & out & Hr & _)|[Hd _]]; [|exact Hd].
  exfalso. revert Hr. by vm_compute.
Defined.
