(* ===== verification/DeliverySpec.v ===== *)
(** * DeliverySpec: the journal implements at-most-once delivery

    An abstract delivery service, with nothing of the tables: a slot per
    message, the owner of every occurrence and the set of delivered ones.  A
    message is handed out again only after a conclusive refusal; an occurrence
    has one owner for good; what a delivered message owned is delivered.
    [journal_refines_delivery] is a forward simulation: every operation on the
    journal is a step of this service. *)

From Stdlib Require Import Ascii String.
From S2P Require Import Prelude GoStrings Json Task TaskPlan AutonomousTurn Store StepStore StepInv.
From S2P Require Import Journal Lifecycle Finalize FinalizeInv JournalInv Delivery.

Local Open Scope Z_scope.

Definition occurrence : Type := uuid * TaskDeliveryRef.

(** Handed out and unanswered, refused for now, or settled. *)
Inductive phase : Type := Handed | Refused | Settled (delivered : bool) (final : AttemptState).

Record slot := MkSlot {
  sl_phase : phase;
  sl_task : uuid;
  sl_user : uuid;
  sl_text : string;
  sl_handed : Z;                        (* how often it was handed out *)
}.

Record service := MkService {
  slots : gmap uuid slot;
  owner : gmap occurrence uuid;
  delivered : gset occurrence;
}.

Definition with_phase (p : phase) (n : Z) (s : slot) : slot :=
  MkSlot p (sl_task s) (sl_user s) (sl_text s) n.

(** What a message owns. *)
Definition owned_by (id : uuid) (sv : service) : gset occurrence :=
  dom (filter (fun p => snd p = id) (owner sv)).

Inductive service_step (s s' : service) : Prop :=
| sv_idle : s' = s -> service_step s s'
| sv_accept id m refs :                 (* a new message takes free occurrences *)
    slots s !! id = None -> sl_phase m = Handed \/ sl_phase m = Refused ->
    (forall o, o ∈ refs -> owner s !! o = None) ->
    s' = MkService (<[id := m]> (slots s)) (owner s ∪ gset_to_gmap id refs) (delivered s) ->
    service_step s s'
| sv_refuse id m :                      (* refused, to be tried again *)
    slots s !! id = Some m -> sl_phase m = Handed ->
    s' = MkService (<[id := with_phase Refused (sl_handed m) m]> (slots s)) (owner s) (delivered s) ->
    service_step s s'
| sv_settle id m b st :                 (* the outcome, final *)
    slots s !! id = Some m -> sl_phase m = Handed ->
    s' = MkService (<[id := with_phase (Settled b st) (sl_handed m) m]> (slots s)) (owner s)
           (if b then owned_by id s ∪ delivered s else delivered s) ->
    service_step s s'
| sv_retry id m :                       (* handed out again *)
    slots s !! id = Some m -> sl_phase m = Refused ->
    s' = MkService (<[id := with_phase Handed (sl_handed m + 1) m]> (slots s)) (owner s) (delivered s) ->
    service_step s s'
| sv_record os :                        (* delivered by other means *)
    s' = MkService (slots s) (owner s) (os ∪ delivered s) -> service_step s s'.

(** ** What the service guarantees *)

Lemma service_settled_final s s' id m b st :
  rtc service_step s s' -> slots s !! id = Some m -> sl_phase m = Settled b st ->
  slots s' !! id = Some m.
Proof.
  induction 1 as [|s s1 s' Hs _ IH]; [done|]. intros Hm Hp. apply IH; [|done].
  assert (forall i m' (X : gmap uuid slot) v, X !! i = Some m' -> X !! id = Some m ->
    sl_phase m' = Handed \/ sl_phase m' = Refused -> <[i := v]> X !! id = Some m) as Hother.
  { intros i m' X v Hi Hid Ho. rewrite lookup_insert_ne; [done|].
    intros ->. simplify_eq. destruct Ho; congruence. }
  destruct Hs as [->|i m' refs Hi Ho _ ->|i m' Hi Ho ->|i m' b' st' Hi Ho ->|i m' Hi Ho ->|os ->];
    simpl; try done; try by (eapply Hother; eauto).
  rewrite lookup_insert_ne; [done|congruence].
Qed.

Lemma service_owner_final s s' o id :
  rtc service_step s s' -> owner s !! o = Some id -> owner s' !! o = Some id.
Proof.
  induction 1 as [|s s1 s' Hs _ IH]; [done|]. intros Ho. apply IH.
  destruct Hs as [->|i m' refs _ _ _ ->|i m' _ _ ->|i m' b' st' _ _ ->|i m' _ _ ->|os ->];
    simpl; try done.
  by apply lookup_union_Some_l.
Qed.

(** ** The abstraction *)

Definition phase_of (st : AttemptState) : phase :=
  match st with
  | NDispatching => Handed
  | NRetryable => Refused
  | NSent => Settled true NSent
  | st => Settled false st
  end.
Definition slot_of (a : NotificationAttempt) : slot :=
  MkSlot (phase_of (n_State a)) (n_TaskID a) (n_UserID a) (n_Text a) (n_AttemptCount a).
Definition owners (items : list AttemptItem) : gmap occurrence uuid :=
  list_to_map ((fun i => (ledger_key i, i_AttemptID i)) <$> items).
Definition abstract (d : db) : service :=
  MkService (slot_of <$> notifications d) (owners (attempt_items d)) (deliveries d).

Lemma owners_lookup items o id :
  NoDup (ledger_key <$> items) ->
  owners items !! o = Some id <-> exists i, i ∈ items /\ ledger_key i = o /\ i_AttemptID i = id.
Proof.
  intros Hnd. unfold owners.
  assert (NoDup (((fun i => (ledger_key i, i_AttemptID i)) <$> items).*1)) as Hnd'.
  { rewrite <- list_fmap_compose. exact Hnd. }
  rewrite <- elem_of_list_to_map by done. rewrite list_elem_of_fmap. split.
  - intros (i & [= -> ->] & Hi). eauto.
  - intros (i & Hi & <- & <-). eauto.
Qed.

Lemma owned_by_items d id :
  NoDup (ledger_key <$> attempt_items d) ->
  owned_by id (abstract d) = list_to_set (ledger_key <$> items_of d id).
Proof.
  intros Hnd. apply set_eq. intros o. unfold owned_by. rewrite elem_of_dom.
  rewrite elem_of_list_to_set, list_elem_of_fmap. unfold items_of. split.
  - intros [i Hi]. apply map_lookup_filter_Some in Hi as [Hi Hid]. simpl in Hid. subst i.
    apply owners_lookup in Hi as (i & Hin & <- & Hid); [|done]. exists i. split; [done|].
    apply list_elem_of_In, filter_In. split; [by apply list_elem_of_In|by apply N.eqb_eq].
  - intros (i & -> & Hi). apply list_elem_of_In, filter_In in Hi as [Hi Hid].
    apply N.eqb_eq in Hid. exists id. apply map_lookup_filter_Some. split; [|done].
    apply owners_lookup; [done|]. exists i. split; [by apply list_elem_of_In|done].
Qed.

Lemma owners_none d t r :
  reserved_by d t r = false -> owners (attempt_items d) !! (t, r) = None.
Proof.
  intros H%reserved_by_false. unfold owners. apply not_elem_of_list_to_map_1.
  by rewrite <- list_fmap_compose.
Qed.

Lemma owners_new id task refs :
  owners ((fun r => MkItem id task r) <$> refs)
  = gset_to_gmap id (list_to_set ((fun r => (task, r)) <$> refs)).
Proof.
  induction refs as [|r refs IH]; [done|]. unfold owners in *. rewrite !fmap_cons. cbn.
  rewrite gset_to_gmap_union_singleton. by rewrite <- IH.
Qed.

Lemma owners_app l1 l2 : owners (l1 ++ l2) = owners l1 ∪ owners l2.
Proof. unfold owners. by rewrite fmap_app, list_to_map_app. Qed.

(** ** The simulation *)

Lemma journal_change_refines d d' :
  journal_inv d -> journal_change d d' -> service_step (abstract d) (abstract d').
Proof.
  intros Hinv [Hn Hi Hd|aid a refs (Hnew & _ & Hn & Hi & Hnd & Hfree & Hd) _ Hst _
              |id a a' Ha Hn Hl _ Hi Hd|s Hn Hi Hd].
  - apply sv_idle. unfold abstract. by rewrite Hn, Hi, Hd.
  - eapply (sv_accept _ _ aid (slot_of a) (list_to_set ((fun r => (n_TaskID a, r)) <$> refs))).
    + simpl. by rewrite lookup_fmap, Hnew.
    + destruct Hst as [E|E]; simpl; rewrite E; auto.
    + intros o Ho. apply elem_of_list_to_set, list_elem_of_fmap in Ho as (r & -> & Hr).
      by apply owners_none, Hfree.
    + unfold abstract. rewrite Hn, Hi, Hd, fmap_insert, owners_app, owners_new. done.
  - assert (slots (abstract d) !! id = Some (slot_of a)) as Hsl
      by (simpl; by rewrite lookup_fmap, Ha).
    assert (abstract d' = MkService (<[id := slot_of a']> (slots (abstract d)))
              (owner (abstract d)) (deliveries d')) as ->.
    { unfold abstract. simpl. by rewrite Hn, Hi, fmap_insert. }
    rewrite Hd. clear Hn Hi Hd. destruct Hl as [a|a a' Hsame Hs Hs' Hc|a a' Hsame Hs Hs' Hc].
    + apply sv_idle. rewrite bool_decide_eq_false_2 by (intros [? ?]; congruence).
      rewrite insert_id by done. by unfold abstract.
    + destruct Hsame as (Ht & Hu & _ & Htx & _).
      assert (slot_of a' = with_phase (phase_of (n_State a')) (sl_handed (slot_of a)) (slot_of a))
        as ->.
      { unfold slot_of, with_phase. simpl. by rewrite Ht, Hu, Htx, Hc. }
      assert (sl_phase (slot_of a) = Handed) as Hp by (simpl; by rewrite Hs).
      destruct (n_State a') eqn:E; [done|..].
      * eapply sv_refuse; [exact Hsl|done|].
        by rewrite bool_decide_eq_false_2 by (intros [? ?]; congruence).
      * eapply (sv_settle _ _ id _ true NSent); [exact Hsl|done|].
        rewrite bool_decide_eq_true_2 by done.
        by rewrite owned_by_items by apply Hinv.
      * eapply (sv_settle _ _ id _ false NUncertain); [exact Hsl|done|].
        by rewrite bool_decide_eq_false_2 by (intros [? ?]; congruence).
      * eapply (sv_settle _ _ id _ false NRejected); [exact Hsl|done|].
        by rewrite bool_decide_eq_false_2 by (intros [? ?]; congruence).
    + destruct Hsame as (Ht & Hu & _ & Htx & _).
      eapply sv_retry; [exact Hsl|simpl; by rewrite Hs|].
      rewrite bool_decide_eq_false_2 by (intros [? ?]; congruence).
      unfold slot_of at 1, with_phase. simpl. by rewrite Ht, Hu, Htx, Hc, Hs'.
  - apply (sv_record _ _ s). unfold abstract. by rewrite Hn, Hi, Hd.
Qed.

Section refinement.
Context (collate : string -> string -> bool) (digest : bytes -> string).
Context (uuid_Parse : string -> option uuid).

(** C19: refinement: every operation on the notification journal (beginning,
    confirming, deferring, rejecting or tombstoning an attempt, draining a
    retry, recording deliveries, a task's finalization or cancellation) is a
    step of the abstract at-most-once service or leaves it as it is, in every
    reachable state; hence so is every execution.  The service settles a
    message for good, never takes an occurrence from its owner and hands a
    message out again only after a refusal. *)
Theorem journal_refines_delivery d d' :
  rtc (journal_step collate digest uuid_Parse) empty_db d ->
  journal_step collate digest uuid_Parse d d' ->
  service_step (abstract d) (abstract d').
Proof.
  intros Hr Hs. assert (journal_inv d) as Hi
    by (eapply journal_steps_inv; [exact Hr|apply journal_empty_inv]).
  apply journal_change_refines; [done|]. by eapply journal_step_change.
Qed.
End refinement.

Lemma journal_refines_delivery_witness :
  sl_phase <$> (slots (abstract sample_uncertain) !! 101%N) = Some (Settled false NUncertain)
  /\ service_step (abstract sample_begun) (abstract sample_uncertain).
Proof.
  split; [by vm_compute|].
  apply (journal_refines_delivery sample_collate sample_digest no_uuid _ _ sample_begun_reachable).
  exact (js_uncertain _ _ _ _ _ _ _ _ _ (surjective_pairing _)).
Defined.
