(* ===== verification/HistoryInv.v ===== *)
(** * HistoryInv: an autonomous turn enters the history once

    What a projection changes ([turn_projected]), the session counters it
    keeps true to the rows ([session_sum]) and what holds over executions of
    projections and journal operations. *)

From Stdlib Require Import Ascii String.
From S2P Require Import Prelude GoStrings Json GoJson JsonText Task TaskPlan AutonomousTurn.
From S2P Require Import Conversation Projection Store StepStore StepInv Journal History.
From S2P Require Import Lifecycle JournalInv Delivery.

Local Open Scope Z_scope.

(** ** Sums over the messages of a session *)

Definition session_sum (f : ChatMessage -> Z) (sid : uuid) (M : gmap uuid ChatMessage) : Z :=
  map_fold (fun _ m n => (if N.eqb (m_SessionID m) sid then f m else 0) + n) 0 M.
Definition session_rows := session_sum (fun _ => 1).
Definition session_tokens := session_sum m_TokenEstimate.

Lemma session_sum_insert f sid M i m :
  M !! i = None ->
  session_sum f sid (<[i := m]> M)
  = (if N.eqb (m_SessionID m) sid then f m else 0) + session_sum f sid M.
Proof.
  intros H. unfold session_sum. rewrite map_fold_insert_L; [done|intros; lia|done].
Qed.

(** How far a session's counters are from its rows. *)
Definition drift (d : db) (sid : uuid) (s : ChatSession) : Z * Z :=
  (cs_MessageCount s - session_rows sid (chat_messages d),
   cs_TokenCount s - session_tokens sid (chat_messages d)).

Definition insert_new (i : uuid) (m : ChatMessage) (M : gmap uuid ChatMessage) :=
  match M !! i with Some _ => M | None => <[i := m]> M end.
Definition is_new (i : uuid) (M : gmap uuid ChatMessage) : Z :=
  match M !! i with Some _ => 0 | None => 1 end.

Lemma insert_new_sum f sid i m M :
  session_sum f sid (insert_new i m M)
  = session_sum f sid M + (if N.eqb (m_SessionID m) sid then f m else 0) * is_new i M.
Proof.
  unfold insert_new, is_new. destruct (M !! i) eqn:E; [lia|].
  rewrite session_sum_insert by done. lia.
Qed.

Lemma insert_new_keeps i m M j row : M !! j = Some row -> insert_new i m M !! j = Some row.
Proof.
  unfold insert_new. intros H. destruct (M !! i) eqn:E; [done|].
  rewrite lookup_insert_ne; [done|congruence].
Qed.

Lemma insert_new_in i m M : exists row, insert_new i m M !! i = Some row.
Proof.
  unfold insert_new. destruct (M !! i) eqn:E; [eauto|].
  rewrite lookup_insert_eq. eauto.
Qed.

Lemma insert_message_eq i m d k d' :
  insert_message i m d = (k, d') ->
  k = is_new i (chat_messages d) /\ d' = with_chat_messages (insert_new i m (chat_messages d)) d.
Proof.
  unfold insert_message, insert_new, is_new. destruct (chat_messages d !! i); intros [= <- <-].
  - split; [done|]. by destruct d.
  - done.
Qed.

Section history.
Context (uuid_Parse : string -> option uuid) (uuid_NewSHA1 : uuid -> bytes -> uuid).
#[local] Abbreviation project := (ProjectAutonomousHistoryAttempt uuid_Parse uuid_NewSHA1).
#[local] Abbreviation ids := (AutonomousTurnMessageIDs uuid_NewSHA1).

(** The messages and sessions after a turn is appended. *)
Definition turn_messages (id sid : uuid) (c : AutonomousTurnCommit) (at_ : time)
    (tg : option Z) (M : gmap uuid ChatMessage) : gmap uuid ChatMessage :=
  insert_new (ids id).2 (assistant_row c sid at_ tg)
    (insert_new (ids id).1 (boundary_row c sid at_) M).

Definition turn_rows (id sid : uuid) (c : AutonomousTurnCommit) (at_ : time)
    (M : gmap uuid ChatMessage) : Z * Z :=
  (is_new (ids id).1 M, is_new (ids id).2 (insert_new (ids id).1 (boundary_row c sid at_) M)).

(** A projection of attempt [id] that changes the tables: the attempt is sent
    and carries the turn [c] of the session [sid] of its own user. *)
Inductive turn_projected (id : uuid) (d d' : db) : Prop :=
| turn_projected_intro a c receipt sid s tg now :
    notifications d !! id = Some a -> n_State a = NSent -> history_projected d !! id = None ->
    ParseAutonomousTurnNotification uuid_Parse (n_Text a) = Ok (Some c) ->
    cm_UserID c = n_UserID a ->
    uuid_Parse (TrimSpace (cm_SessionID c)) = Some sid ->
    chat_sessions d !! sid = Some s -> owned_session s c = true ->
    telegram_id receipt = Ok tg ->
    d' = with_history_projected (<[id := now]> (history_projected d))
      (with_chat_sessions
         (let n := turn_rows id sid c (delivered_at receipt a) (chat_messages d) in
          if Z.eqb (n.1 + n.2) 0 then chat_sessions d
          else <[sid := bump now (m_TokenEstimate
                   (assistant_row c sid (delivered_at receipt a) tg) * n.2) (n.1 + n.2) s]>
                 (chat_sessions d))
         (with_chat_messages
            (turn_messages id sid c (delivered_at receipt a) tg (chat_messages d)) d)) ->
    turn_projected id d d'.

Lemma projectTurn_Ok id at_ c receipt e n d u n' d' :
  projectAutonomousTurn uuid_Parse uuid_NewSHA1 id at_ c receipt e n d = Ok (u, n', d') ->
  exists sid s tg, uuid_Parse (TrimSpace (cm_SessionID c)) = Some sid
    /\ chat_sessions d !! sid = Some s /\ owned_session s c = true
    /\ telegram_id receipt = Ok tg
    /\ d' = with_chat_sessions
         (let n := turn_rows id sid c at_ (chat_messages d) in
          if Z.eqb (n.1 + n.2) 0 then chat_sessions d
          else <[sid := bump (clk e 0%nat) (m_TokenEstimate (assistant_row c sid at_ tg) * n.2)
                          (n.1 + n.2) s]> (chat_sessions d))
         (with_chat_messages (turn_messages id sid c at_ tg (chat_messages d)) d).
Proof.
  unfold projectAutonomousTurn. destruct (uuid_Parse _) as [sid|]; [|done].
  intros (ok & n1 & d1 & (_ & -> & -> & ->)%query_Ok & H)%tx_bind_Ok.
  destruct (chat_sessions d !! sid) as [s|] eqn:Es; [|done].
  destruct (owned_session s c) eqn:Eo; [|done]. cbn [negb] in H.
  destruct (telegram_id receipt) as [tg|x] eqn:Et; [|done].
  unfold AutonomousTurnMessageIDs in H.
  apply tx_bind_Ok in H as (b & n2 & d2 & (_ & -> & Hb)%exec_count_Ok & H).
  symmetry in Hb. apply insert_message_eq in Hb as [-> ->].
  apply tx_bind_Ok in H as (k & n3 & d3 & (_ & -> & Hk)%exec_count_Ok & H).
  symmetry in Hk. apply insert_message_eq in Hk as [-> ->].
  exists sid, s, tg. do 4 (split; [done|]). unfold turn_rows, turn_messages. cbn [fst snd].
  cbn [chat_messages with_chat_messages] in H.
  destruct (Z.eqb _ 0) eqn:Ez.
  - apply ret_Ok in H as (_ & _ & ->). by destruct d.
  - tx_inv. cbn [chat_sessions with_chat_messages with_chat_sessions].
    by rewrite (alter_Some _ _ _ _ Es).
Qed.

Lemma project_cases id e d r d' :
  project id e d = (r, d') ->
  (d' = d /\ (r = Ok tt -> exists t, history_projected d !! id = Some t))
  \/ (r = Ok tt /\ turn_projected id d d').
Proof.
  unfold ProjectAutonomousHistoryAttempt. case_match; [intros [= <- <-]; by left|].
  intros Hr. destruct r as [[]|x]; [|left; split; [by eapply run_tx_err|done]].
  apply run_tx_Ok in Hr as (_ & n & dz & [[Hb ->]|[Hb ->]]).
  2: { exfalso. tx_inv. repeat (case_match; tx_inv). }
  apply tx_bind_Ok in Hb as (row & n1 & d1 & (_ & -> & -> & ->)%query_Ok & Hb).
  destruct (notifications d !! id) as [a|] eqn:Ha; [|done].
  destruct (history_projected d !! id) as [t|] eqn:Hh.
  { apply ret_Ok in Hb as (_ & _ & ->). left. eauto. }
  destruct (bool_decide (n_State a = NSent)) eqn:Es; [|done]. bool_to_prop. cbn [negb] in Hb.
  destruct (ParseAutonomousTurnNotification uuid_Parse (n_Text a)) as [[c|]|x] eqn:Hp;
    [|done..].
  destruct (N.eqb (cm_UserID c) (n_UserID a)) eqn:Eu; [|done]. apply N.eqb_eq in Eu.
  cbn [negb] in Hb. destruct (r ← n_Receipt a; unmarshal_receipt r) as [receipt|];
    [|done].
  apply tx_bind_Ok in Hb as (u & n2 & d2 & Hproj & Hb).
  apply projectTurn_Ok in Hproj as (sid & s & tg & Hsid & Hs & Ho & Ht & ->).
  tx_inv. right. split; [done|].
  eapply (turn_projected_intro _ _ _ a c receipt sid s tg (clk e 0%nat)); try done.
  cbn [notifications history_projected with_chat_sessions with_chat_messages].
  rewrite Ha, Hh. rewrite bool_decide_eq_true_2 by done. done.
Qed.

(** ** Counters and rows *)

Lemma turn_drift id d d' sid s :
  turn_projected id d d' -> chat_sessions d !! sid = Some s ->
  exists s', chat_sessions d' !! sid = Some s' /\ drift d' sid s' = drift d sid s.
Proof.
  intros [a c rc sid0 s0 tg now _ _ _ _ _ _ Hs0 _ _ ->] Hs. unfold drift, turn_rows.
  cbn [chat_sessions chat_messages with_history_projected with_chat_sessions
       with_chat_messages fst snd].
  set (M := chat_messages d). set (at_ := delivered_at rc a).
  set (b := boundary_row c sid0 at_). set (m := assistant_row c sid0 at_ tg).
  unfold turn_messages, session_rows, session_tokens. fold b m.
  rewrite !insert_new_sum. change (m_SessionID m) with sid0. change (m_SessionID b) with sid0.
  change (m_TokenEstimate b) with 0. set (k1 := is_new _ M). set (k2 := is_new _ (insert_new _ _ _)).
  destruct (Z.eqb_spec (k1 + k2) 0) as [Hz|Hz].
  - exists s. split; [done|].
    assert (k1 = 0 /\ k2 = 0) as [-> ->]
      by (unfold k1, k2, is_new in *; repeat case_match; lia).
    f_equal; lia.
  - destruct (decide (sid = sid0)) as [->|Hne].
    + rewrite Hs0 in Hs. injection Hs as <-. eexists. split; [apply lookup_insert_eq|].
      cbn [bump cs_MessageCount cs_TokenCount]. rewrite N.eqb_refl. f_equal; lia.
    + exists s. split; [by rewrite lookup_insert_ne|].
      rewrite (proj2 (N.eqb_neq sid0 sid)) by congruence. f_equal; lia.
Qed.

Lemma turn_keeps id d d' : turn_projected id d d' ->
  (forall i row, chat_messages d !! i = Some row -> chat_messages d' !! i = Some row)
  /\ (exists b, chat_messages d' !! (ids id).1 = Some b)
  /\ (exists m, chat_messages d' !! (ids id).2 = Some m)
  /\ (exists t, history_projected d' !! id = Some t)
  /\ notifications d' = notifications d
  /\ (forall i t, history_projected d !! i = Some t -> exists t', history_projected d' !! i = Some t').
Proof.
  intros [a c rc sid s tg now _ _ _ _ _ _ _ _ _ ->].
  cbn [chat_messages history_projected notifications with_history_projected
       with_chat_sessions with_chat_messages]. unfold turn_messages.
  split; [intros; by do 2 apply insert_new_keeps|].
  split.
  { destruct (insert_new_in (ids id).1 (boundary_row c sid (delivered_at rc a)) (chat_messages d))
      as [row Hrow]. exists row. by apply insert_new_keeps. }
  split; [apply insert_new_in|].
  split; [eexists; apply lookup_insert_eq|]. split; [done|].
  intros i t Ht. destruct (decide (i = id)) as [->|Hne].
  - eexists. apply lookup_insert_eq.
  - exists t. by rewrite lookup_insert_ne.
Qed.

(** ** Executions *)

Section executions.
Context (collate : string -> string -> bool) (digest : bytes -> string).
#[local] Abbreviation jstep := (journal_step collate digest uuid_Parse).

(** A projection, or any other operation: it takes the journal a step further
    and may append messages, but leaves the marks and the stored rows. *)
Inductive history_step (d d' : db) : Prop :=
| hs_project id e r : project id e d = (r, d') -> history_step d d'
| hs_other : jstep d d' -> history_projected d' = history_projected d ->
    (forall i row, chat_messages d !! i = Some row -> chat_messages d' !! i = Some row) ->
    history_step d d'.

(** A marked attempt has both of its messages. *)
Definition marked_shown (d : db) : Prop :=
  forall id t, history_projected d !! id = Some t ->
  (exists a, notifications d !! id = Some a)
  /\ (exists b, chat_messages d !! (ids id).1 = Some b)
  /\ (exists m, chat_messages d !! (ids id).2 = Some m).

Record grows (d d' : db) : Prop := {
  gr_rows : forall i row, chat_messages d !! i = Some row -> chat_messages d' !! i = Some row;
  gr_marks : forall i t, history_projected d !! i = Some t ->
    exists t', history_projected d' !! i = Some t';
  gr_attempts : forall i a, notifications d !! i = Some a ->
    exists a', notifications d' !! i = Some a';
}.

Lemma grows_refl d : grows d d.
Proof. split; eauto. Qed.
Lemma grows_trans d1 d2 d3 : grows d1 d2 -> grows d2 d3 -> grows d1 d3.
Proof.
  intros [r1 m1 a1] [r2 m2 a2]. split; [eauto|..].
  - intros i t Ht. destruct (m1 i t Ht). eauto.
  - intros i a Ha. destruct (a1 i a Ha). eauto.
Qed.

Lemma turn_marks id d d' i t :
  turn_projected id d d' -> history_projected d' !! i = Some t -> i <> id ->
  history_projected d !! i = Some t.
Proof.
  intros [a c rc sid s tg now _ _ _ _ _ _ _ _ _ ->] Hit Hne. revert Hit.
  cbn [history_projected with_history_projected with_chat_sessions with_chat_messages].
  by rewrite lookup_insert_ne.
Qed.

Lemma turn_jstep id d d' : turn_projected id d d' -> jstep d d'.
Proof. intros [? ? ? ? ? ? ? _ _ _ _ _ _ _ _ _ ->]. by apply js_other. Qed.

Lemma history_step_grows d d' :
  history_step d d' -> journal_inv d -> marked_shown d ->
  grows d d' /\ journal_inv d' /\ marked_shown d'.
Proof.
  intros [id e r H|Hj Hp Hr] Hi Hs.
  - apply project_cases in H as [[-> _]|[_ Ht]]; [by split; [apply grows_refl|]|].
    destruct (turn_keeps _ _ _ Ht) as (Hr & Hb & Hm & Hmk & Hn & Hms).
    split; [split; [done|done|by rewrite Hn; eauto]|].
    split; [by eapply journal_step_inv; [by eapply turn_jstep|]|].
    intros i t Hit. rewrite Hn. destruct (decide (i = id)) as [->|Hne].
    + split; [|done]. destruct Ht. eauto.
    + destruct (Hs i t (turn_marks _ _ _ _ _ Ht Hit Hne)) as (Ha & [b Hb'] & [m Hm']). eauto 10.
  - pose proof (journal_step_change _ _ _ _ _ Hj Hi) as Hc.
    assert (forall i a, notifications d !! i = Some a -> exists a', notifications d' !! i = Some a')
      as Ha.
    { intros i a Ha. destruct (journal_change_attempt _ _ _ _ Hc Ha) as (a' & ? & _). eauto. }
    split; [split; [done|by rewrite Hp; eauto|done]|]. split; [by eapply journal_step_inv|].
    intros i t Hit. rewrite Hp in Hit.
    destruct (Hs i t Hit) as ([a Ha'] & [b Hb] & [m Hm]). eauto 10.
Qed.

Lemma history_steps_grow d d' :
  rtc history_step d d' -> journal_inv d -> marked_shown d ->
  grows d d' /\ journal_inv d' /\ marked_shown d'.
Proof.
  induction 1 as [|d d1 d' Hs _ IH]; intros Hi Hm; [by split; [apply grows_refl|]|].
  destruct (history_step_grows _ _ Hs Hi Hm) as (Hg & Hi1 & Hm1).
  destruct (IH Hi1 Hm1) as (Hg' & ? & ?). split; [by eapply grows_trans|done].
Qed.

(** C20: a confirmed autonomous turn enters the chat history once.  In every
    reachable state, projecting an attempt rewrites no stored message and
    keeps every session's counters as far from its rows as they were; after a
    reported success both messages of the attempt are there; and once an
    attempt is projected, no later projection of it, whatever runs in between,
    changes anything. *)
Theorem turn_enters_history_once d id e r d' :
  rtc history_step empty_db d -> project id e d = (r, d') ->
  (forall i row, chat_messages d !! i = Some row -> chat_messages d' !! i = Some row)
  /\ (forall sid s, chat_sessions d !! sid = Some s ->
        exists s', chat_sessions d' !! sid = Some s' /\ drift d' sid s' = drift d sid s)
  /\ (r = Ok tt -> (exists b, chat_messages d' !! (ids id).1 = Some b)
                   /\ (exists m, chat_messages d' !! (ids id).2 = Some m))
  /\ (d' <> d \/ r = Ok tt -> forall d1 e1, rtc history_step d' d1 -> snd (project id e1 d1) = d1).
Proof.
  intros Hreach H.
  destruct (history_steps_grow _ _ Hreach journal_empty_inv) as (_ & Hi & Hm).
  { intros i t Hit. exfalso. revert Hit. simpl. by rewrite lookup_empty. }
  assert (history_step d d') as Hs by by eapply hs_project.
  destruct (history_step_grows _ _ Hs Hi Hm) as ([Hr _ _] & Hi' & Hm').
  assert (d' <> d \/ r = Ok tt -> exists t, history_projected d' !! id = Some t) as Hmark.
  { destruct (project_cases _ _ _ _ _ H) as [[-> Hk]|[_ Ht]]; [intros [?|?]; [done|by apply Hk]|].
    intros _. by apply turn_keeps in Ht as (_ & _ & _ & ? & _). }
  split; [done|]. split.
  - intros sid s Hsid. destruct (project_cases _ _ _ _ _ H) as [[-> _]|[_ Ht]]; [by exists s|].
    by eapply turn_drift.
  - split; [intros Hok; destruct (Hmark (or_intror Hok)) as [t Ht]; by apply (Hm' id t)|].
    intros Hor d1 e1 Hrtc. destruct (Hmark Hor) as [t Ht].
    destruct (history_steps_grow _ _ Hrtc Hi' Hm') as ([_ Hmk _] & _).
    destruct (Hmk id t Ht) as [t1 Ht1].
    destruct (project id e1 d1) as [r2 d2] eqn:H2.
    destruct (project_cases _ _ _ _ _ H2) as [[-> _]|[_ Hp]]; [done|].
    destruct Hp; congruence.
Qed.
End executions.
End history.

(** ** A sample history *)

Definition sample_sha1 (u : uuid) (l : bytes) : uuid := (u * 1000 + N.of_nat (length l))%N.
Definition sample_receipt : json :=
  JObj [("transport", JStr "telegram"); ("message_id", JStr "77")]%string.
Definition turn_text : string :=
  match FormatAutonomousTurnNotification bits_String (MkRequest 8 9 "m-1")
          (MkDraft "Good morning" "001" "m-7" "tok" false) with
  | Ok s => s
  | Err _ => ""
  end.
Definition with_chat : db :=
  with_chat_sessions {[ 4%N := MkChatSession 8 9 "chat" 100 2 5 ]} sample_start.
Definition turn_begun : db :=
  snd (BeginNotificationAttempt sample_digest 1 8 turn_text [MkRef "mail" "a"]
         (sample_env 0 10) with_chat).
Definition turn_sent : db :=
  snd (ConfirmNotificationAttempt bits_Parse 101 "telegram" sample_receipt
         (sample_env 0 11) turn_begun).
Definition sample_project :=
  ProjectAutonomousHistoryAttempt bits_Parse sample_sha1 101.
Definition turn_shown : db := snd (sample_project (sample_env 0 12) turn_sent).

Lemma turn_sent_reachable :
  rtc (history_step bits_Parse sample_sha1 sample_collate sample_digest)
    empty_db turn_sent.
Proof.
  apply (rtc_l _ _ with_chat); [by apply hs_other; [apply js_other|..]|].
  apply (rtc_l _ _ turn_begun).
  { apply hs_other; [exact (js_begin _ _ _ _ _ _ _ _ _ _ _ (surjective_pairing _))|..];
      by vm_compute. }
  apply rtc_once.
  apply hs_other; [exact (js_confirm _ _ _ _ _ _ _ _ _ _ (surjective_pairing _))|..];
    by vm_compute.
Qed.

Lemma turn_enters_history_once_witness :
  cs_MessageCount <$> (chat_sessions turn_shown !! 4%N : option ChatSession) = Some 4
  /\ snd (sample_project (sample_env 0 13) turn_shown) = turn_shown.
Proof.
  assert (fst (sample_project (sample_env 0 12) turn_sent) = Ok tt) as Hok by by vm_compute.
  split; [by vm_compute|].
  destruct (turn_enters_history_once bits_Parse sample_sha1 sample_collate
    sample_digest turn_sent 101%N (sample_env 0 12) _ _ turn_sent_reachable
    (surjective_pairing (sample_project (sample_env 0 12) turn_sent))) as (_ & _ & _ & H).
  apply H; [by right|constructor].
Defined.
