(* ===== verification/TaskInv.v ===== *)
(** * TaskInv: terminal states, results and restarts

    What the finalizer commits, that a finished one-shot task keeps its
    outcome whatever worker, coordinator or user acts afterwards, that a stale
    claim writes nothing, and that a restart is idempotent and never repeats
    an unconfirmed effect. *)

From stdpp Require Import pretty.
From Stdlib Require Import Ascii String.
From S2P Require Import Prelude GoStrings Json Task TaskPlan AutonomousTurn Store StepStore StepInv.
From S2P Require Import Journal Lifecycle Admission Finalize FinalizeInv TaskRows TaskControl.
From S2P Require Import JournalInv Delivery.

Local Open Scope Z_scope.

(** The columns that make up a task's outcome, and its lifecycle. *)
Definition outcome_of (t : AgentTask) :=
  (Status t, Result t, ErrorMessage t, CompletedAt t, (Schedule t, Cadence t, Strategy t)).

Definition finished (t : AgentTask) : Prop :=
  task_terminal (Status t) = true /\ one_shot_row t = true.

Definition frozen (d d' : db) : Prop :=
  forall id t, tasks d !! id = Some t -> finished t ->
    exists t', tasks d' !! id = Some t' /\ outcome_of t' = outcome_of t.

Lemma frozen_tasks d d' : tasks d' = tasks d -> frozen d d'.
Proof. intros H id t Ht _. rewrite H. eauto. Qed.

Lemma frozen_insert_new d d' id t :
  tasks d !! id = None -> tasks d' = <[id := t]> (tasks d) -> frozen d d'.
Proof.
  intros Hn Hd i t' Ht _. exists t'. split; [|done].
  rewrite Hd, lookup_insert_ne; [done|congruence].
Qed.

Lemma frozen_alter d d' id f :
  tasks d' = alter f id (tasks d) ->
  (forall t, tasks d !! id = Some t -> finished t -> outcome_of (f t) = outcome_of t) ->
  frozen d d'.
Proof.
  intros Hd Hf i t Ht Hfin. rewrite Hd. destruct (decide (id = i)) as [->|Hne].
  - exists (f t). rewrite lookup_alter_eq, Ht. split; [done|by apply Hf].
  - exists t. by rewrite lookup_alter_ne.
Qed.

Lemma frozen_update_row d id p f n d' :
  (n, d') = update_row id p f d ->
  (forall t, p t = true -> finished t -> outcome_of (f t) = outcome_of t) -> frozen d d'.
Proof.
  unfold update_row. intros H Hp.
  destruct (tasks d !! id) as [t|] eqn:Ht; [destruct (p t) eqn:Hpt|]; simplify_eq;
    [|by apply frozen_tasks..].
  intros i t' Ht' Hfin. simpl. destruct (decide (id = i)) as [->|Hne].
  - assert (t' = t) as -> by congruence. exists (f t). rewrite lookup_insert_eq.
    split; [done|by apply Hp].
  - exists t'. by rewrite lookup_insert_ne.
Qed.

Lemma frozen_update_rows d p f n d' :
  (n, d') = update_rows p f d ->
  (forall t, p t = true -> finished t -> False) -> frozen d d'.
Proof.
  unfold update_rows. intros [= _ ->] Hp i t Ht Hfin. simpl. exists t.
  rewrite lookup_fmap, Ht. simpl. split; [|done].
  destruct (p t) eqn:E; [by destruct (Hp t)|done].
Qed.

(** A row that is still live is not finished. *)
Lemma live_finished t l :
  has_status l t = true -> forallb (fun s => negb (task_terminal s)) l = true ->
  finished t -> False.
Proof.
  unfold has_status, finished, tstatus_in. intros Hs Hl [Ht _].
  apply existsb_exists in Hs as (s & Hin & Hs%bool_decide_eq_true).
  rewrite forallb_forall in Hl. apply Hl in Hin. by rewrite <- Hs, Ht in Hin.
Qed.

Lemma task_live_finished t : task_live (Status t) = true -> finished t -> False.
Proof. intros H. by apply (live_finished t [TPending; TRunning; TPaused]). Qed.

(** ** The operations *)

Section ops.
Context (collate : string -> string -> bool) (digest : bytes -> string).
Context (uuid_String : uuid -> string) (start_at : json -> option time).
Context (refs_json : list TaskDeliveryRef -> json) (timestamp_text : time -> string).
Context (uuid_Parse : string -> option uuid).

(** Every store operation but the four unguarded ones, [SetRunning], [Fail],
    [ResetForNextRun] and (recurring schedules only) [Resume]. *)
Inductive guarded_op : forall A, Op A -> Prop :=
| go_graph id A op : graph_write id A op -> guarded_op A op
| go_coordinator id lease : guarded_op _ (ClaimGraphTask start_at id lease)
| go_finalize id in_ : guarded_op _ (FinalizeTask collate digest id in_)
| go_cancel user soul id body : guarded_op _ (Cancel collate digest user soul id body)
| go_dismiss user soul id : guarded_op _ (Dismiss user soul id)
| go_dismiss_all user soul : guarded_op _ (DismissFinished user soul)
| go_restart user soul id budget : guarded_op _ (Restart uuid_String user soul id budget)
| go_create soul origin q : guarded_op _ (Create uuid_String start_at soul origin q)
| go_claim id : guarded_op _ (TrySetRunning id)
| go_progress id p urls : guarded_op _ (UpdateProgressWithRecheck id p urls)
| go_complete id result : guarded_op _ (Complete id result)
| go_exhausted : guarded_op _ CompleteExhausted
| go_shape id config n acc : guarded_op _ (UpdateShaping id config n acc)
| go_pending id : guarded_op _ (SetPending id)
| go_retry id : guarded_op _ (SetPendingForNotificationRetry id)
| go_store_cancel id : guarded_op _ (StoreCancel id)
| go_stale n : guarded_op _ (ResetStale n)
| go_wake n : guarded_op _ (WakeStalePaused n)
| go_peer p : guarded_op _ (WakePausedByPeerTask p)
| go_approve id : guarded_op _ (Approve id)
| go_pause id p : guarded_op _ (PauseTask id p)
| go_deadline id t : guarded_op _ (SetTaskDeadline id t)
| go_expire id t : guarded_op _ (ExpireTask id t)
| go_submit id claim o n p tc refs :
    guarded_op _ (SaveTaskSubmission refs_json id claim o n p tc refs)
| go_defer id claim r n : guarded_op _ (DeferTaskVerification id claim r n)
| go_reject id claim p urls : guarded_op _ (RejectTaskSubmission id claim p urls)
| go_checkpoint id claim cp : guarded_op _ (CheckpointTask id claim cp)
| go_begin task user txt refs : guarded_op _ (BeginNotificationAttempt digest task user txt refs)
| go_confirm id tr rc : guarded_op _ (ConfirmNotificationAttempt uuid_Parse id tr rc)
| go_uncertain id r : guarded_op _ (MarkNotificationUncertain id r)
| go_defer_attempt id r t : guarded_op _ (DeferNotificationAttempt id r t)
| go_reject_attempt id r : guarded_op _ (RejectNotificationAttempt id r)
| go_drain locked t : guarded_op _ (ClaimRetryableNotification locked t)
| go_mark task refs : guarded_op _ (MarkDelivered task refs).
End ops.

Lemma statement_frozen f e d r d' :
  (forall now n d1, (n, d1) = f now d -> frozen d d1) ->
  statement f e d = (r, d') -> frozen d d'.
Proof.
  intros Hf [->|(a & n & H & _)]%autocommit_cases; [by apply frozen_tasks|].
  apply tx_bind_Ok in H as (x & n1 & d1 & (_ & -> & Hx)%exec_count_Ok & (_ & _ & ->)%ret_Ok).
  eauto.
Qed.

Lemma executing_frozen e d d' id claim f :
  executing e d id claim -> tasks d' = alter f id (tasks d) -> frozen d d'.
Proof.
  intros (t & Ht & Hr & _) Hd. apply (frozen_alter d d' id f Hd).
  intros t' Ht' [Hfin _]. simplify_eq. by rewrite Hr in Hfin.
Qed.

Lemma run_tx_tasks {A} (body : Tx (ending A)) e d r d' :
  (forall a n, body e 1%nat d = Ok (Commit a, n, d') -> frozen d d') ->
  run_tx body e d = (r, d') -> frozen d d'.
Proof.
  intros Hb [->|(a & n & H & _)]%run_tx_cases; [by apply frozen_tasks|]. eauto.
Qed.

Lemma SaveTaskSteps_frozen order id claim l e d r d' :
  SaveTaskSteps order id claim l e d = (r, d') -> frozen d d'.
Proof.
  unfold SaveTaskSteps. destruct (ValidateTaskSteps order l);
    [|intros [= _ ->]; by apply frozen_tasks].
  apply run_tx_tasks. intros [] n Hb.
  apply tx_bind_Ok in Hb as (u & n1 & d1 & [-> _]%lock_Ok & Hb).
  apply tx_bind_Ok in Hb as (u' & n2 & d2 & Hi & Hb). tx_inv.
  apply insert_steps_Ok in Hi as (-> & _). by apply frozen_tasks.
Qed.

Lemma YieldGraphTask_frozen tt_text id next e d r d' :
  YieldGraphTask tt_text id next e d = (r, d') -> frozen d d'.
Proof.
  intros H. pose proof H as H0. unfold YieldGraphTask in H0.
  apply locked_run_tx in H0 as [(x & _ & ->)|Hex]; [by apply frozen_tasks|].
  destruct r as [[]|x]; [|rewrite (err_unchanged_yield _ _ _ _ _ _ _ H); [by apply frozen_tasks|done]].
  apply YieldGraphTask_Ok in H as (_ & k & f & _ & Ht & _). by eapply executing_frozen.
Qed.

Lemma SaveGraphProgress_frozen id p e d r d' :
  SaveGraphProgress id p e d = (r, d') -> frozen d d'.
Proof.
  apply run_tx_tasks. intros [] n Hb.
  apply tx_bind_Ok in Hb as (u & n1 & d1 & [-> _]%lock_Ok & Hb). tx_inv.
  by eapply frozen_alter.
Qed.

Lemma graph_write_frozen id A (op : Op A) e d r d' :
  graph_write id A op -> op e d = (r, d') -> frozen d d'.
Proof.
  intros Hg. revert r.
  destruct Hg as [order claim l|sid lease|sid run o Hw| | |lease|tt next|progress]; intros r H.
  - by eapply SaveTaskSteps_frozen.
  - apply ClaimTaskStep_cases in H as [->|(k & run & s & _ & _ & _ & _ & _ & ->)];
      by apply frozen_tasks.
  - destruct (worker_write_cases _ _ _ _ _ _ _ _ Hw H) as [[_ ->]|[_ (_ & k & s & f & _ & _ & _ & ->)]];
      by apply frozen_tasks.
  - revert H. apply run_tx_tasks. intros a n Hb.
    apply tx_bind_Ok in Hb as (u & n1 & d1 & [-> _]%lock_Ok & Hb). tx_inv.
    by apply frozen_tasks.
  - revert H. apply run_tx_tasks. intros a n Hb.
    apply tx_bind_Ok in Hb as (u & n1 & d1 & [-> _]%lock_Ok & Hb). tx_inv.
    by apply frozen_tasks.
  - destruct r as [[]|x]; [|rewrite (err_unchanged_renew _ _ _ _ _ _ H); [by apply frozen_tasks|done]].
    apply RenewGraphTask_Ok in H as (_ & k & ->). by apply frozen_tasks.
  - by eapply YieldGraphTask_frozen.
  - by eapply SaveGraphProgress_frozen.
Qed.

Lemma ClaimGraphTask_frozen start_at id lease e d r d' :
  ClaimGraphTask start_at id lease e d = (r, d') -> frozen d d'.
Proof.
  intros H. destruct r as [[x|]|x];
    [|rewrite (ClaimGraphTask_none _ _ _ _ _ _ _ H) by done; by apply frozen_tasks..].
  apply ClaimGraphTask_Ok in H
    as (t & k & m & new & Ht & Hc & _ & _ & _ & _ & Htasks & _).
  eapply frozen_alter; [exact Htasks|]. intros t' Ht' Hfin. simplify_eq. exfalso.
  unfold claimable_task in Hc. bool_to_prop. by eapply live_finished.
Qed.

Lemma published_frozen in_ id task d d' a :
  tasks d !! id = Some task -> task_live (Status task) = true ->
  published in_ id task d d' a -> frozen d d'.
Proof.
  intros Ht Hl [_ _ _ _ _ _ [now Htasks] _ _]. eapply frozen_alter; [exact Htasks|].
  intros t' Ht' Hfin. assert (t' = task) as -> by congruence. by destruct (task_live_finished task).
Qed.

Lemma FinalizeTask_frozen collate digest id in_ e d r d' :
  FinalizeTask collate digest id in_ e d = (r, d') -> frozen d d'.
Proof.
  intros [->|(task & a & _ & [Ht Hl _ _ _ _] & Hp)]%FinalizeTask_cases;
    [by apply frozen_tasks|by eapply published_frozen].
Qed.

Lemma lock_owned_Ok user soul id e n d t n' d' :
  lock_owned user soul id e n d = Ok (t, n', d') ->
  d' = d /\ tasks d !! id = Some t /\ UserID t = user /\ SoulID t = soul.
Proof.
  unfold lock_owned. intros (row & n1 & d1 & (_ & -> & -> & ->)%query_Ok & H)%tx_bind_Ok.
  destruct (tasks d !! id) as [t'|] eqn:Ht; [|by tx_inv].
  destruct (_ && _) eqn:E; [|by tx_inv]. apply ret_Ok in H as (-> & _ & ->).
  apply andb_true_iff in E as [?%N.eqb_eq ?%N.eqb_eq]. done.
Qed.

Lemma Cancel_frozen collate digest user soul id body e d r d' :
  Cancel collate digest user soul id body e d = (r, d') -> frozen d d'.
Proof.
  unfold Cancel. case_match; [intros [= _ ->]; by apply frozen_tasks|].
  apply run_tx_tasks. intros x n Hb.
  apply tx_bind_Ok in Hb as (task & n1 & d1 & (-> & Ht & _)%lock_owned_Ok & Hb).
  destruct (recurring task) eqn:Hrec.
  - destruct (bool_decide _); tx_inv; [|by apply frozen_tasks].
    eapply frozen_alter; [done|]. intros t Ht' [_ Hos]. simplify_eq.
    unfold recurring in Hrec. by rewrite Hos in Hrec.
  - apply tx_bind_Ok in Hb as (art & n2 & d2 & Hf & Hb). tx_inv.
    apply finalizeTaskTx_Ok in Hf as [[_ ->]|(task' & a & _ & [Ht' Hl _ _ _ _] & Hp)];
      [by apply frozen_tasks|by eapply published_frozen].
Qed.

Lemma Restart_frozen uuid_String user soul id budget e d r d' :
  Restart uuid_String user soul id budget e d = (r, d') -> frozen d d'.
Proof.
  unfold Restart. case_match; [intros [= _ ->]; by apply frozen_tasks|]. cbv zeta.
  apply run_tx_tasks. intros x n Hb.
  apply tx_bind_Ok in Hb as (task & n1 & d1 & (-> & Ht & _)%lock_owned_Ok & Hb).
  destruct (recurring task); [by tx_inv|]. destruct (negb _); [by tx_inv|].
  apply tx_bind_Ok in Hb as (prev & n2 & d2 & (_ & -> & -> & ->)%query_Ok & Hb).
  destruct (restarts d !! id); [by tx_inv|].
  apply tx_bind_Ok in Hb as (unc & n3 & d3 & Hu & Hb).
  assert (d3 = d) as -> by (destruct (Z.eqb _ _); by tx_inv).
  destruct unc; [by tx_inv|].
  apply tx_bind_Ok in Hb as (child & n4 & d4 & [= <- <- <-] & Hb).
  apply tx_bind_Ok in Hb as (now0 & n5 & d5 & [= <- <- <-] & Hb).
  apply tx_bind_Ok in Hb as (u & n6 & d6 & (_ & -> & H6)%stmt_Ok & Hb).
  rewrite Ht in H6. destruct (tasks d !! fresh e n3) eqn:Hc; [done|]. simplify_eq.
  apply tx_bind_Ok in Hb as (u' & n7 & d7 & (_ & -> & H7)%stmt_Ok & Hb).
  destruct (_ || _) in H7; [done|]. simplify_eq. tx_inv.
  eapply (frozen_insert_new d _ (fresh e n3)); [exact Hc|reflexivity].
Qed.

Lemma Create_frozen uuid_String start_at soul origin q e d r d' :
  Create uuid_String start_at soul origin q e d = (r, d') -> frozen d d'.
Proof.
  unfold Create. cbv zeta.
  case_match; [intros [= _ ->]; by apply frozen_tasks|].
  case_match; [intros [= _ ->]; by apply frozen_tasks|].
  destruct (captureTaskOrigin _ _ _) as [config|x];
    [|intros [= _ ->]; by apply frozen_tasks].
  destruct (autocommit _ e d) as [[id|x] d1] eqn:Hi; intros Hg.
  - assert (d' = d1) as ->.
    { apply autocommit_cases in Hg as [->|(a & n & Hg & _)]; [done|].
      apply tx_bind_Ok in Hg as (row & n1 & d2 & (_ & -> & -> & ->)%query_Ok & Hg).
      destruct (tasks d1 !! id); by tx_inv. }
    apply autocommit_cases in Hi as [->|(a & n & Hi & _)]; [by apply frozen_tasks|].
    apply tx_bind_Ok in Hi as (f & n1 & d2 & [= <- <- <-] & Hi).
    apply tx_bind_Ok in Hi as (now & n2 & d3 & [= <- <- <-] & Hi).
    apply stmt_Ok in Hi as (_ & _ & Hi).
    destruct (tasks d !! _) eqn:Hn; [done|]. simplify_eq.
    by eapply frozen_insert_new.
  - simplify_eq. apply autocommit_cases in Hi as [->|(a & n & _ & ?)]; [by apply frozen_tasks|done].
Qed.

Lemma CompleteExhausted_frozen e d r d' :
  CompleteExhausted e d = (r, d') -> frozen d d'.
Proof.
  intros [->|(a & n & (_ & _ & [= _ <-])%stmt_Ok & _)]%autocommit_cases; [by apply frozen_tasks|].
  intros id t Ht Hfin. exists t. simpl. rewrite map_lookup_imap, Ht. simpl.
  split; [|done]. destruct (exhausted t) eqn:E; [|done]. exfalso.
  unfold exhausted in E. bool_to_prop. by eapply live_finished.
Qed.


Lemma Dismiss_frozen user soul id e d r d' :
  Dismiss user soul id e d = (r, d') -> frozen d d'.
Proof.
  unfold Dismiss. case_match; [intros [= _ ->]; by apply frozen_tasks|].
  apply run_tx_tasks. intros x n Hb.
  apply tx_bind_Ok in Hb as (row & n1 & d1 & (_ & -> & _ & ->)%query_Ok & Hb).
  destruct row as [st|]; [|by tx_inv]. destruct (negb _); [by tx_inv|].
  apply tx_bind_Ok in Hb as (new & n2 & d2 & (_ & -> & [= _ <-])%stmt_Ok & Hb). tx_inv.
  by apply frozen_tasks.
Qed.

Lemma DismissFinished_frozen user soul e d r d' :
  DismissFinished user soul e d = (r, d') -> frozen d d'.
Proof.
  unfold DismissFinished. case_match; [intros [= _ ->]; by apply frozen_tasks|].
  apply run_tx_tasks. intros x n Hb.
  apply tx_bind_Ok in Hb as (k & n1 & d1 & (_ & -> & [= _ ->])%exec_count_Ok & Hb). tx_inv.
  by apply frozen_tasks.
Qed.

(** A counted update whose count is then only examined. *)
Lemma counted_frozen {A} (f : time -> db -> Z * db) (k : Z -> Tx A) e d r d' :
  (forall now n d1, (n, d1) = f now d -> frozen d d1) ->
  (forall n e m d1 a m' d2, k n e m d1 = Ok (a, m', d2) -> d2 = d1) ->
  autocommit (n ← exec_count f; k n) e d = (r, d') -> frozen d d'.
Proof.
  intros Hf Hk [->|(a & n & H & _)]%autocommit_cases; [by apply frozen_tasks|].
  apply tx_bind_Ok in H as (x & n1 & d1 & (_ & -> & Hx)%exec_count_Ok & H).
  rewrite (Hk _ _ _ _ _ _ _ H). eauto.
Qed.

(** Row updates of live rows only. *)
Lemma live_update_frozen l id p f (d : db) n d1 :
  (forall t, p t = true -> has_status l t = true) ->
  forallb (fun s => negb (task_terminal s)) l = true ->
  (n, d1) = update_row id p f d -> frozen d d1.
Proof.
  intros Hp Hl H. eapply frozen_update_row; [exact H|].
  intros t Ht Hfin. by destruct (live_finished t l (Hp t Ht) Hl Hfin).
Qed.

Lemma stale_frozen st limit d n d1 :
  negb (task_terminal st) = true ->
  (n, d1) = update_rows (stale st limit) (set_Status TPending) d ->
  frozen d d1.
Proof.
  intros Hst H. eapply frozen_update_rows; [exact H|]. intros t Ht Hfin.
  unfold stale in Ht. bool_to_prop. eapply (live_finished t [st]); try done. simpl. by rewrite Hst.
Qed.

Lemma reap_frozen st n e d r d' :
  negb (task_terminal st) = true ->
  autocommit (now ← time_Now;
    exec_count (fun _ => update_rows (stale st (now - n)) (set_Status TPending))) e d
    = (r, d') -> frozen d d'.
Proof.
  intros Hst [->|(a & m & H & _)]%autocommit_cases; [by apply frozen_tasks|].
  apply tx_bind_Ok in H as (now & n1 & d1 & [= <- <- <-] & (_ & _ & H)%exec_count_Ok).
  by eapply (stale_frozen st _ d).
Qed.

Lemma Wake_frozen p e d r d' : WakePausedByPeerTask p e d = (r, d') -> frozen d d'.
Proof.
  intros [->|(a & m & H & _)]%autocommit_cases; [by apply frozen_tasks|].
  apply tx_bind_Ok in H as (ids & n1 & d1 & (_ & _ & [= _ <-])%stmt_Ok & H).
  assert (frozen d (snd (update_rows (waits_for p) (set_Status TPending) d))) as Hf.
  { eapply frozen_update_rows; [symmetry; apply surjective_pairing|]. intros t Ht Hfin.
    unfold waits_for in Ht. bool_to_prop. by eapply live_finished. }
  destruct ids; by tx_inv.
Qed.

Lemma claimed_live claim t : claimed_at claim t = true -> has_status [TRunning] t = true.
Proof. unfold claimed_at. intros. by bool_to_prop. Qed.

Lemma claimed_update_frozen id claim f d n d1 :
  (n, d1) = update_row id (claimed_at claim) f d -> frozen d d1.
Proof.
  intros H. eapply frozen_update_row; [exact H|]. intros t Ht Hfin.
  by destruct (live_finished t [TRunning] (claimed_live _ _ Ht)).
Qed.

Lemma frozen_trans_tasks d d1 d2 : frozen d d1 -> tasks d2 = tasks d1 -> frozen d d2.
Proof. intros H E id t Ht Hf. rewrite E. by apply H. Qed.

Lemma SaveTaskSubmission_frozen refs_json id claim o n p tc refs e d r d' :
  SaveTaskSubmission refs_json id claim o n p tc refs e d = (r, d') -> frozen d d'.
Proof.
  intros [->|(a & m & H & _)]%autocommit_cases; [by apply frozen_tasks|].
  apply tx_bind_Ok in H as (k & n1 & d1 & (_ & _ & Hs)%stmt_Ok & H).
  assert (d' = d1) as -> by (destruct (Z.eqb k 0); by tx_inv).
  apply frozen_tasks. repeat case_match; by simplify_eq.
Qed.

Lemma DeferTaskVerification_frozen id claim reason next e d r d' :
  DeferTaskVerification id claim reason next e d = (r, d') -> frozen d d'.
Proof.
  apply run_tx_tasks. intros a m H.
  apply tx_bind_Ok in H as (k & n1 & d1 & (_ & -> & Hu)%exec_count_Ok & H).
  apply claimed_update_frozen in Hu. destruct (Z.eqb k 0); [by tx_inv|].
  apply tx_bind_Ok in H as (k' & n2 & d2 & (_ & -> & Hs)%exec_count_Ok & H).
  assert (tasks d2 = tasks d1) as Ht by (destruct (submissions d1 !! id); by simplify_eq).
  destruct (Z.eqb k' 0); tx_inv. by eapply frozen_trans_tasks.
Qed.

Lemma RejectTaskSubmission_frozen id claim p urls e d r d' :
  RejectTaskSubmission id claim p urls e d = (r, d') -> frozen d d'.
Proof.
  apply run_tx_tasks. intros a m H.
  apply tx_bind_Ok in H as (k & n1 & d1 & (_ & -> & Hu)%exec_count_Ok & H).
  apply claimed_update_frozen in Hu. destruct (Z.eqb k 0); [by tx_inv|]. tx_inv.
  by eapply frozen_trans_tasks.
Qed.

Lemma CheckpointTask_frozen id claim cp e d r d' :
  CheckpointTask id claim cp e d = (r, d') -> frozen d d'.
Proof.
  unfold CheckpointTask. case_match; [intros [= _ ->]; by apply frozen_tasks|].
  apply run_tx_tasks. intros a m Hb.
  apply tx_bind_Ok in Hb as (row & n1 & d1 & (_ & -> & -> & ->)%query_Ok & Hb).
  destruct (negb _); [by tx_inv|]. tx_inv. eapply frozen_alter; [done|]. by intros.
Qed.

Section claims.
Context (collate : string -> string -> bool) (digest : bytes -> string).
Context (uuid_String : uuid -> string) (start_at : json -> option time).
Context (refs_json : list TaskDeliveryRef -> json).
Context (uuid_Parse : string -> option uuid).

Let guarded := guarded_op collate digest uuid_String start_at refs_json uuid_Parse.

Lemma guarded_frozen A (op : Op A) e d r d' :
  guarded A op -> op e d = (r, d') -> frozen d d'.
Proof.
  intros Hg. revert r. destruct Hg; intros r0.
  - by eapply graph_write_frozen.
  - apply ClaimGraphTask_frozen.
  - apply FinalizeTask_frozen.
  - apply Cancel_frozen.
  - apply Dismiss_frozen.
  - apply DismissFinished_frozen.
  - apply Restart_frozen.
  - apply Create_frozen.
  - apply counted_frozen; [|by intros; tx_inv].
    intros. eapply (live_update_frozen [TPending]); [|done|eassumption].
    intros t Hp; cbv beta in Hp; by bool_to_prop.
  - apply statement_frozen. intros.
    eapply (live_update_frozen [TRunning]); [|done|eassumption]. done.
  - apply counted_frozen.
    + intros. eapply (live_update_frozen [TRunning]); [|done|eassumption].
      intros t Hp; cbv beta in Hp; by bool_to_prop.
    + intros n e0 m d1 a m' d2 H. destruct (Z.eqb n 0); by tx_inv.
  - apply CompleteExhausted_frozen.
  - apply statement_frozen. intros. eapply frozen_update_row; [eassumption|].
    by intros t _ _.
  - apply statement_frozen. intros.
    eapply (live_update_frozen [TRunning]); [|done|eassumption]. done.
  - apply statement_frozen. intros.
    eapply (live_update_frozen [TRunning]); [|done|eassumption]. done.
  - apply statement_frozen. intros.
    eapply (live_update_frozen [TPending; TRunning]); [|done|eassumption]. done.
  - by apply reap_frozen.
  - by apply reap_frozen.
  - apply Wake_frozen.
  - apply statement_frozen. intros.
    eapply (live_update_frozen [TPaused]); [|done|eassumption]. done.
  - apply statement_frozen. intros.
    eapply (live_update_frozen [TRunning]); [|done|eassumption]. done.
  - apply statement_frozen. intros. eapply frozen_update_row; [eassumption|].
    by intros t' _ _.
  - apply counted_frozen; [|by intros; tx_inv].
    intros. eapply (live_update_frozen [TPending; TRunning; TPaused]); [|done|eassumption].
    intros t' Hp; cbv beta in Hp; by bool_to_prop.
  - apply SaveTaskSubmission_frozen.
  - apply DeferTaskVerification_frozen.
  - apply RejectTaskSubmission_frozen.
  - apply CheckpointTask_frozen.
  - by intros [_ H%frozen_tasks]%Begin_change.
  - by intros [_ H%frozen_tasks]%Confirm_change.
  - by intros [_ H%frozen_tasks]%Uncertain_change.
  - by intros [_ H%frozen_tasks]%Defer_change.
  - by intros [_ H%frozen_tasks]%Reject_change.
  - intros [[-> _]|(id & a & _ & _ & Ht & _)]%ClaimRetryable_cases; by apply frozen_tasks.
  - by intros [_ H%frozen_tasks]%MarkDelivered_change.
Qed.

Inductive guarded_step (d d' : db) : Prop :=
| gs A (op : Op A) e r : guarded A op -> op e d = (r, d') -> guarded_step d d'.

Lemma frozen_trans d d1 d2 : frozen d d1 -> frozen d1 d2 -> frozen d d2.
Proof.
  intros H1 H2 id t Ht Hf. destruct (H1 id t Ht Hf) as (t1 & Ht1 & E1).
  assert (finished t1) as Hf1.
  { unfold finished, one_shot_row in *. unfold outcome_of in E1. by simplify_eq/=;
      destruct Hf; split; congruence. }
  destruct (H2 id t1 Ht1 Hf1) as (t2 & ? & ?). exists t2. split; [done|congruence].
Qed.

Lemma guarded_steps_frozen d d' : rtc guarded_step d d' -> frozen d d'.
Proof.
  induction 1 as [|d d1 d' [A op e r Hg H] _ IH]; [by apply frozen_tasks|].
  eapply frozen_trans; [by eapply guarded_frozen|done].
Qed.

(** C3: the outcome of a finished one-shot task is final.  Whatever workers,
    coordinators, schedulers, reviewers and users do afterwards, in any
    interleaving, its status, result, error and completion time stay. *)
Theorem finished_outcome_final d d' id t :
  rtc guarded_step d d' -> tasks d !! id = Some t ->
  task_terminal (Status t) = true -> one_shot_row t = true ->
  exists t', tasks d' !! id = Some t' /\ Status t' = Status t /\ Result t' = Result t
    /\ ErrorMessage t' = ErrorMessage t /\ CompletedAt t' = CompletedAt t.
Proof.
  intros Hs Ht Hf Ho. destruct (guarded_steps_frozen _ _ Hs id t Ht (conj Hf Ho))
    as (t' & Ht' & E). unfold outcome_of in E. simplify_eq. by exists t'.
Qed.

(** C4: a finalization is atomic and fenced.  It either reports no artifact
    and changes nothing, or it moves a live task the caller is entitled to end
    (a current coordinator run unless expiring or cancelling, the claimed
    start time, an elapsed deadline) to its terminal status with a non-blank
    report, files exactly that report as the task's next artifact version,
    and, for a completed task, queues a non-blank notification. *)
Theorem FinalizeTask_atomic id in_ e d r d' :
  FinalizeTask collate digest id in_ e d = (r, d') ->
  ((forall a, r <> Ok (Some a)) /\ d' = d)
  \/ exists task a t', r = Ok (Some a) /\ admitted e d id in_ task
     /\ tasks d' !! id = Some t'
     /\ Status t' = TaskTerminalStatus task (a_Outcome a) /\ task_terminal (Status t') = true
     /\ Result t' = Some (a_Body a) /\ btrim (a_Body a) <> ""%string
     /\ artifacts d' = artifacts d ++ [a] /\ a_Version a = max_version id d + 1
     /\ (a_Outcome a = "completed"%string -> exists aid n,
           notifications d' !! aid = Some n /\ notifications d !! aid = None
           /\ n_TaskID n = id /\ n_UserID n = UserID task /\ n_State n = NRetryable
           /\ blank (n_Text n) = false).
Proof.
  intros H. destruct r as [[a|]|x].
  - right. unfold FinalizeTask in H.
    apply run_tx_Ok in H as (_ & n & d1 & Hb). destruct Hb as [[Hb ->]|[Hb _]];
      apply tx_bind_Ok in Hb as (x' & n1 & d2 & Hf & Hb); [|by tx_inv].
    apply ret_Ok in Hb as ([= <-] & _ & ->).
    apply finalizeTaskTx_Ok in Hf as [[? _]|(task & a' & [= <-] & Had & Hp)]; [done|].
    destruct Had as [Ht Hl Hrun Hcl Hex Hco] eqn:Ead. clear Ead.
    destruct Hp as [Hid Hv Hout Hdown [_ Hb] Har [now Htasks] _ Hint].
    exists task, a. eexists. split; [done|]. split; [by split|].
    split; [by rewrite Htasks, lookup_alter_eq, Ht|]. simpl.
    split; [done|]. split; [apply TaskTerminalStatus_terminal|].
    do 4 (split; [done|]). intros Hc.
    destruct Hint as [(_ & _ & _ & ?)|(aid & m & refs & Hj & ? & ? & ? & _ & _ & ? & _)]; [done|].
    destruct Hj as (Hn & _ & Hn' & _). exists aid, m.
    by rewrite Hn', lookup_insert_eq.
  - left. split; [done|]. apply FinalizeTask_cases in H as [->|(? & ? & ? & _)]; done.
  - left. split; [done|]. by eapply run_tx_err.
Qed.

(** The writes of an iteration worker, fenced by the claim time. *)
Inductive claim_write (id : uuid) (claim : time) : Op unit -> Prop :=
| cw_submit o n p tc refs :
    claim_write id claim (SaveTaskSubmission refs_json id claim o n p tc refs)
| cw_defer reason next : claim_write id claim (DeferTaskVerification id claim reason next)
| cw_reject p urls : claim_write id claim (RejectTaskSubmission id claim p urls)
| cw_checkpoint cp : claim_write id claim (CheckpointTask id claim cp)
| cw_steps order l : claim_write id claim (SaveTaskSteps order id claim l).

Lemma claim_write_err id claim op e d r d' :
  claim_write id claim op -> op e d = (r, d') -> r <> Ok tt -> d' = d.
Proof.
  intros Hw H Hr. destruct r as [[]|x]; [done|].
  destruct Hw; unfold SaveTaskSubmission, CheckpointTask, SaveTaskSteps in H.
  - by apply autocommit_cases in H as [->|(? & ? & _ & ?)].
  - by eapply run_tx_err.
  - by eapply run_tx_err.
  - case_match; [by simplify_eq|by eapply run_tx_err].
  - case_match; [by eapply run_tx_err|by simplify_eq].
Qed.

Lemma counted_row id claim f d n d1 :
  (n, d1) = update_row id (claimed_at claim) f d -> n <> 0 ->
  exists t, tasks d !! id = Some t /\ claimed_at claim t = true.
Proof.
  unfold update_row. intros H Hn. destruct (tasks d !! id) as [t|]; [|by simplify_eq].
  destruct (claimed_at claim t) eqn:E; [by exists t|by simplify_eq].
Qed.

Lemma claim_write_Ok id claim op e d d' :
  claim_write id claim op -> op e d = (Ok tt, d') ->
  exists t, tasks d !! id = Some t /\ claimed_at claim t = true.
Proof.
  intros Hw H. destruct Hw as [o n p tc refs|reason next|p urls|cp|order l].
  - apply autocommit_Ok in H as [m Hb].
    apply tx_bind_Ok in Hb as (k & n1 & d2 & (_ & _ & Hs)%stmt_Ok & Hb).
    destruct (tasks d !! id) as [t|]; [|by simplify_eq; tx_inv].
    destruct (claimed_at claim t) eqn:E; [by exists t|by simplify_eq; tx_inv].
  - apply run_tx_Ok in H as (_ & m & d1 & [[Hb _]|[Hb _]]);
      apply tx_bind_Ok in Hb as (k & n1 & d2 & (_ & -> & Hu)%exec_count_Ok & Hb);
      (destruct (Z.eqb_spec k 0); [by tx_inv|by eapply counted_row]).
  - apply run_tx_Ok in H as (_ & m & d1 & [[Hb _]|[Hb _]]);
      apply tx_bind_Ok in Hb as (k & n1 & d2 & (_ & -> & Hu)%exec_count_Ok & Hb);
      (destruct (Z.eqb_spec k 0); [by tx_inv|by eapply counted_row]).
  - unfold CheckpointTask in H. case_match; [done|].
    apply run_tx_Ok in H as (_ & m & d1 & [[Hb _]|[Hb _]]);
      apply tx_bind_Ok in Hb as (k & n1 & d2 & (_ & -> & -> & ->)%query_Ok & Hb);
      (destruct (tasks d !! id) as [t|]; [|by tx_inv]);
      (destruct (claimed_at claim t) eqn:E; [by exists t|by tx_inv]).
  - unfold SaveTaskSteps in H. destruct (ValidateTaskSteps order l); [|done].
    apply locked_run_tx in H as [(x & ? & _)|(t & Ht & Hs & Hc & _)]; [done|].
    exists t. split; [done|]. unfold claimed_at, has_status. by rewrite Hs.
Qed.

(** A worker whose claim is no longer current writes nothing.  Unless
    the task is running and was last claimed at exactly the worker's claim
    time, saving, deferring or rejecting a submission, checkpointing and
    planning report an error and leave the tables unchanged. *)
Theorem stale_claim_writes_nothing id claim op e d r d' :
  claim_write id claim op -> op e d = (r, d') ->
  (forall t, tasks d !! id = Some t -> claimed_at claim t = false) ->
  r <> Ok tt /\ d' = d.
Proof.
  intros Hw H Hn.
  assert (r <> Ok tt) as Hr; [|split; [done|]; by eapply claim_write_err].
  intros ->. destruct (claim_write_Ok _ _ _ _ _ _ Hw H) as (t & Ht & Hc).
  by rewrite (Hn t Ht) in Hc.
Qed.

Lemma Restart_Ok user soul id budget e d child d' :
  Restart uuid_String user soul id budget e d = (Ok child, d') ->
  exists task, tasks d !! id = Some task /\ UserID task = user /\ SoulID task = soul
    /\ finished task
    /\ ((restarts d !! id = Some child /\ d' = d)
        \/ (restarts d !! id = None /\ tasks d !! child = None /\ id <> child
            /\ (ExecutorVersion task = 2 -> existsb (uncertain_effect id) (steps d) = false)
            /\ exists b now now0,
                 tasks d' = <[child := restarted uuid_String child b now now0 task]> (tasks d)
                 /\ restarts d' = <[id := child]> (restarts d) /\ steps d' = steps d)).
Proof.
  unfold Restart. case_match; [done|]. cbv zeta.
  intros (_ & n & d1 & Hb)%run_tx_Ok.
  destruct Hb as [[Hb ->]|[Hb ->]];
    apply tx_bind_Ok in Hb as (task & n1 & d2 & (-> & Ht & Hu & Hso)%lock_owned_Ok & Hb);
    unfold recurring in Hb;
    (destruct (one_shot_row task) eqn:Ho; [simpl in Hb|by tx_inv]);
    (destruct (task_terminal (Status task)) eqn:Hter; [simpl in Hb|by tx_inv]);
    apply tx_bind_Ok in Hb as (prev & n2 & d3 & (_ & -> & -> & ->)%query_Ok & Hb);
    (destruct (restarts d !! id) as [p|] eqn:Hr; [try (by tx_inv)|]).
  - apply tx_bind_Ok in Hb as (unc & n3 & d4 & Hunc & Hb).
    assert (d4 = d /\ (ExecutorVersion task = 2 ->
      existsb (uncertain_effect id) (steps d) = unc)) as [-> Hv].
    { destruct (Z.eqb_spec (ExecutorVersion task) 2); by tx_inv. }
    destruct unc; [by tx_inv|].
    apply tx_bind_Ok in Hb as (ch & n4 & d5 & [= <- <- <-] & Hb).
    apply tx_bind_Ok in Hb as (now0 & n5 & d6 & [= <- <- <-] & Hb).
    apply tx_bind_Ok in Hb as (u & n6 & d7 & (_ & -> & H6)%stmt_Ok & Hb).
    rewrite Ht in H6. destruct (tasks d !! fresh e n3) eqn:Hc; [done|]. simplify_eq.
    apply tx_bind_Ok in Hb as (u' & n7 & d8 & (_ & -> & H7)%stmt_Ok & Hb).
    destruct (_ || _) eqn:E in H7; [done|]. simplify_eq. tx_inv.
    apply orb_false_iff in E as [_ E%N.eqb_neq].
    exists task. do 4 (split; [done|]). right. do 4 (split; [done|]).
    do 3 eexists. done.
  - tx_inv. exists task. do 4 (split; [done|]). by left.
  - apply tx_bind_Ok in Hb as (unc & n3 & d4 & Hunc & Hb). destruct unc; by tx_inv.
Qed.

(** Restarting is idempotent and never repeats an unconfirmed effect.  A
    restart that succeeds leaves the finished source row as it was and
    records one pending child with a fresh identity; the task had no attempted
    effect without a confirmed result; and any later restart of the same
    source, whatever its budget, creates nothing and can only return that
    child. *)
Theorem Restart_once user soul id budget e d child d' :
  Restart uuid_String user soul id budget e d = (Ok child, d') ->
  restarts d' !! id = Some child /\ tasks d' !! id = tasks d !! id
  /\ (restarts d !! id = None ->
       tasks d !! child = None
       /\ (exists c, tasks d' !! child = Some c /\ Status c = TPending /\ Iteration c = 0
            /\ Progress c = JObj [] /\ UserID c = user /\ SoulID c = soul)
       /\ forall task, tasks d !! id = Some task -> ExecutorVersion task = 2 ->
            forall s, s ∈ steps d -> uncertain_effect id s = false)
  /\ forall budget2 e2 r2 d2,
       Restart uuid_String user soul id budget2 e2 d' = (r2, d2) ->
       d2 = d' /\ forall c, r2 = Ok c -> c = child.
Proof.
  intros (task & Ht & Hu & Hso & [Hter Ho] & Hcase)%Restart_Ok.
  assert (restarts d' !! id = Some child /\ tasks d' !! id = Some task) as [Hr Ht'].
  { destruct Hcase as [[? ->]|(_ & _ & Hne & _ & b0 & now & now0 & -> & -> & _)]; [done|].
    by rewrite lookup_insert_eq, lookup_insert_ne. }
  split; [done|]. split; [by rewrite Ht|]. split.
  - intros Hn. destruct Hcase as [[? _]|(_ & Hc & Hne & Hv & b0 & now & now0 & Htk & _ & _)];
      [congruence|].
    split; [done|]. split.
    + eexists. rewrite Htk, lookup_insert_eq. by split.
    + intros task' Ht2 Hv2 s Hs. simplify_eq. specialize (Hv Hv2).
      apply existsb_false_Forall in Hv. rewrite Forall_forall in Hv. by apply Hv.
  - intros budget2 e2 r2 d2 H2. destruct r2 as [c|x].
    + apply Restart_Ok in H2 as (t2 & _ & _ & _ & _ & [[? ->]|(? & _)]); [|congruence].
      split; [done|]. intros c' [= <-]. congruence.
    + split; [|done]. unfold Restart in H2. case_match; [by simplify_eq|].
      by eapply run_tx_err.
Qed.
End claims.

(** ** Samples *)

Definition no_refs (_ : list TaskDeliveryRef) : json := JArr [].
Definition sample_uuid (_ : uuid) : string := "id".
Definition sample_final : TaskFinalization :=
  MkFinalization "completed" "The <scratchpad>plan</scratchpad>report" "" (fun _ d _ => d)
    "nothing" "" "" None [] None None.
Definition sample_finished : db :=
  snd (FinalizeTask sample_collate sample_digest 1 sample_final (sample_env 50 40)
    sample_confirmed).

Example sample_report :
  a_Body <$> artifacts sample_finished = ["The report"%string].
Proof. by vm_compute. Qed.

Lemma FinalizeTask_atomic_witness :
  exists a, artifacts sample_finished = artifacts sample_confirmed ++ [a]
    /\ a_Body a = "The report"%string.
Proof.
  destruct (FinalizeTask_atomic sample_collate sample_digest 1 sample_final
    (sample_env 50 40) sample_confirmed
    (fst (FinalizeTask sample_collate sample_digest 1 sample_final (sample_env 50 40)
       sample_confirmed)) sample_finished (surjective_pairing _))
    as [[Hn _]|(task & a & t' & Hr & _ & _ & _ & _ & _ & _ & Ha & _)].
  - exfalso. eapply Hn. by vm_compute.
  - exists a. split; [exact Ha|]. revert Hr. vm_compute. by intros [= <-].
Defined.

Definition sample_late : db :=
  snd (StoreCancel 1 (sample_env 0 50) (snd (Cancel sample_collate sample_digest 8 7 1 "none"
    (sample_env 0 45) sample_finished))).

Lemma sample_late_steps :
  rtc (guarded_step sample_collate sample_digest sample_uuid no_start no_refs no_uuid)
    sample_finished sample_late.
Proof.
  eapply rtc_l; [exact (gs _ _ _ _ _ _ _ _ _ _ _ _ (go_cancel _ _ _ _ _ _ 8%N 7%N 1%N "none")
    (surjective_pairing (_ (sample_env 0 45) sample_finished)))|].
  apply rtc_once. exact (gs _ _ _ _ _ _ _ _ _ _ _ _ (go_store_cancel _ _ _ _ _ _ 1%N)
    (surjective_pairing (_ (sample_env 0 50) _))).
Qed.

Lemma finished_outcome_final_witness :
  exists t', tasks sample_late !! 1%N = Some t' /\ Status t' = TDone.
Proof.
  destruct (tasks sample_finished !! 1%N) as [t|] eqn:Ht; [|exfalso; revert Ht; by vm_compute].
  assert (Status t = TDone /\ one_shot_row t = true) as [Hs Ho].
  { revert Ht. vm_compute. by intros [= <-]. }
  destruct (finished_outcome_final sample_collate sample_digest sample_uuid no_start no_refs
    no_uuid sample_finished sample_late 1%N t sample_late_steps Ht
    ltac:(by rewrite Hs) Ho) as (t' & Ht' & Hst & _).
  exists t'. split; [exact Ht'|congruence].
Defined.

Lemma stale_claim_writes_nothing_witness :
  snd (RejectTaskSubmission 1 4 None [] (sample_env 0 60) sample_start) = sample_start.
Proof.
  refine (proj2 (stale_claim_writes_nothing no_refs 1 4 (RejectTaskSubmission 1 4 None [])
    (sample_env 0 60) sample_start _ _ _ (surjective_pairing _) _)).
  - apply cw_reject.
  - intros t Ht. revert Ht. vm_compute. by intros [= <-].
Defined.

Definition sample_restarted :=
  Restart sample_uuid 8 7 1 0 (sample_env 0 70) sample_finished.

Lemma Restart_once_witness :
  restarts (snd sample_restarted) !! 1%N = Some 104%N
  /\ snd (Restart sample_uuid 8 7 1 Minute (sample_env 0 90) (snd sample_restarted))
     = snd sample_restarted.
Proof.
  assert (sample_restarted = (Ok 104%N, snd sample_restarted)) as E.
  { assert (fst sample_restarted = Ok 104%N) as <- by (by vm_compute).
    apply surjective_pairing. }
  destruct (Restart_once sample_uuid 8 7 1 0 (sample_env 0 70) sample_finished 104%N
    (snd sample_restarted) E) as (Hr & _ & _ & Hi).
  split; [exact Hr|].
  exact (proj1 (Hi Minute (sample_env 0 90) _ _ (surjective_pairing _))).
Defined.

(** ** The unguarded operations

    [Fail] has no status guard: a failure recorded after a concurrent
    cancellation or completion replaces the finished outcome. *)
Lemma Fail_overwrites_finished :
  exists t t', tasks sample_finished !! 1%N = Some t /\ finished t /\ Status t = TDone
    /\ tasks (snd (Fail 1 "no dispatcher" (sample_env 0 80) sample_finished)) !! 1%N = Some t'
    /\ Status t' = TFailed /\ ErrorMessage t' = Some "no dispatcher"%string.
Proof. do 2 eexists. split; [by vm_compute|]. by vm_compute. Qed.

(** [ResetForNextRun] has none either: a cancellation of a recurring task that
    arrives before the reset is undone by it. *)
Definition sample_recurring : db :=
  update_task 1 (fun t => set_Schedule (Some "1h"%string) (set_Status TDone t)) sample_start.
Definition sample_canceled : db :=
  snd (Cancel sample_collate sample_digest 8 7 1 "none" (sample_env 0 45) sample_recurring).

Lemma ResetForNextRun_undoes_Cancel :
  Status <$> tasks sample_canceled !! 1%N = Some TCanceled
  /\ Status <$> tasks (snd (ResetForNextRun 1 (sample_env 0 50) sample_canceled)) !! 1%N
     = Some TPending.
Proof. split; by vm_compute. Qed.

(** The markers are removed one after another, so a removal can join the text
    around it into a marker of an earlier kind. *)
Lemma cleanTaskDraft_rejoins : cleanTaskDraft "[DO[NOTIFY]NE]" = "[DONE]"%string.
Proof. by vm_compute. Qed.
