(* ===== verification/Dispatch.v ===== *)
(** * Dispatch: what the coordinator's queue offers

    [RunnableGraphTasks] ranks the eligible tasks of each owner and offers
    only those that fit beside the owner's live coordinators. *)

From Stdlib Require Import Ascii String.
From S2P Require Import Prelude GoStrings Json Task TaskPlan Store StepStore StepInv.
From S2P Require Import Journal Lifecycle Admission Finalize TaskRows TaskControl.

Local Open Scope Z_scope.

Lemma order_insert_perm {A} (le : A -> A -> bool) x l : order_insert le x l ≡ₚ x :: l.
Proof.
  induction l as [|y l IH]; simpl; [done|]. destruct (le x y); [done|].
  rewrite IH. apply Permutation_swap.
Qed.
Lemma order_by_perm {A} (le : A -> A -> bool) l : order_by le l ≡ₚ l.
Proof. induction l as [|x l IH]; simpl; [done|]. by rewrite order_insert_perm, IH. Qed.

(** [active_of] is the number of live leases of [Admission]. *)
Lemma active_of_live d user now : active_of d user now = live_leases d user now.
Proof. done. Qed.

Definition of_user (user : uuid) (p : uuid * AgentTask) : bool := N.eqb (UserID (snd p)) user.

(** Ranks of one owner's rows count up from the number already seen. *)
Lemma owner_ranks_count user m : forall l seen,
  0 <= default 0 (seen !! user) ->
  affected (fun x => of_user user (snd x) && Z.leb (fst x) m) (owner_ranks seen l)
  <= Z.max 0 (m - default 0 (seen !! user)).
Proof.
  induction l as [|p l IH]; intros seen Hs; [unfold affected; simpl; lia|].
  cbn [owner_ranks]. unfold affected. cbn [List.filter]. unfold of_user at 1. cbn [fst snd].
  destruct (N.eqb_spec (UserID (snd p)) user) as [<-|Hne]; cbn [andb].
  - set (k := default 0 (seen !! UserID (snd p))) in *.
    specialize (IH (<[UserID (snd p) := k + 1]> seen)). rewrite lookup_insert_eq in IH.
    cbn [default from_option] in IH. unfold affected in IH.
    destruct (Z.leb_spec (k + 1) m); [|specialize (IH ltac:(simpl; lia)); simpl in IH; lia].
    cbn [length]. specialize (IH ltac:(simpl; lia)). simpl in IH. lia.
  - specialize (IH (<[UserID (snd p) := default 0 (seen !! UserID (snd p)) + 1]> seen)).
    rewrite lookup_insert_ne in IH by done. by apply IH.
Qed.

Lemma affected_filter_le {A} (p q : A -> bool) l :
  affected p (List.filter q l) = affected (fun x => q x && p x) l.
Proof.
  unfold affected. induction l as [|x l IH]; simpl; [done|].
  destruct (q x); simpl; [|done]. destruct (p x); simpl; [lia|done].
Qed.

Lemma affected_fmap {A B} (f : A -> B) (p : B -> bool) l :
  affected p (f <$> l) = affected (fun x => p (f x)) l.
Proof.
  unfold affected. induction l as [|x l IH]; [done|]. rewrite fmap_cons. simpl.
  destruct (p (f x)); simpl; [|exact IH]. apply Nat2Z.inj in IH. by rewrite IH.
Qed.

Lemma affected_take {A} (p : A -> bool) k l : affected p (take k l) <= affected p l.
Proof.
  revert k. induction l as [|x l IH]; intros [|k]; [done|done|apply Nat2Z.is_nonneg|].
  specialize (IH k). unfold affected in *. simpl. destruct (p x); simpl; lia.
Qed.

Lemma owner_ranks_elem l : forall seen x, x ∈ owner_ranks seen l -> snd x ∈ l.
Proof.
  induction l as [|p l IH]; intros seen x; cbn [owner_ranks]; [by intros ?%elem_of_nil|].
  rewrite !elem_of_cons. intros [->|H]; [by left|right]. by eapply IH.
Qed.

Lemma RunnableGraphTasks_Ok start_at limit e d rows d' :
  RunnableGraphTasks start_at limit e d = (Ok rows, d') ->
  d' = d /\ 1 <= limit <= 100 /\ rows = take (Z.to_nat limit)
    ((order_by (fun x y => Z.ltb (fst x) (fst y)
        || (Z.eqb (fst x) (fst y) && dispatch_order (snd x) (snd y)))
      (ranked start_at d (clk e 0%nat))).*2).
Proof.
  unfold RunnableGraphTasks. destruct (_ || _) eqn:E; [done|]. apply orb_false_iff in E.
  intros [n (_ & _ & -> & ->)%query_Ok]%autocommit_Ok. bool_to_prop.
  destruct E. bool_to_prop. done.
Qed.

(** The queue never over-admits.  Every offered task is claimable at that
    instant, at most [limit] are offered, and for each owner the offered tasks
    and the coordinators already live together stay within the cap of two. *)
Theorem RunnableGraphTasks_capacity start_at limit e d rows d' user :
  RunnableGraphTasks start_at limit e d = (Ok rows, d') ->
  (forall p, p ∈ rows -> tasks d !! fst p = Some (snd p)
     /\ eligible start_at d (clk e 0%nat) p = true)
  /\ Z.of_nat (length rows) <= limit
  /\ affected (of_user user) rows
     <= Z.max 0 (MaxConcurrentGraphTasksPerUser - live_leases d user (clk e 0%nat)).
Proof.
  intros (-> & Hlim & ->)%RunnableGraphTasks_Ok. split; [|split].
  - intros p Hp. apply (subseteq_take _ _), list_elem_of_fmap in Hp as (x & -> & Hx).
    rewrite order_by_perm in Hx. unfold ranked in Hx.
    apply list_elem_of_In, filter_In in Hx as [Hx _].
    apply list_elem_of_In, list_elem_of_fmap in Hx as (y & -> & Hy).
    apply owner_ranks_elem in Hy. rewrite order_by_perm in Hy. simpl.
    apply list_elem_of_In, filter_In in Hy as [Hy He].
    destruct (snd y) as [k t]. apply list_elem_of_In, elem_of_map_to_list in Hy. done.
  - rewrite length_take. lia.
  - etransitivity; [apply affected_take|]. rewrite affected_fmap.
    rewrite (affected_perm _ _ _ (order_by_perm _ _)). unfold ranked.
    rewrite affected_filter_le, affected_fmap. rewrite <- active_of_live.
    set (now := clk e 0%nat).
    pose proof (fun l => owner_ranks_count user
      (MaxConcurrentGraphTasksPerUser - active_of d user now) l ∅) as Hc.
    rewrite lookup_empty in Hc. cbn [default from_option] in Hc. rewrite Z.sub_0_r in Hc.
    etransitivity; [|apply Hc; done].
    apply affected_mono. intros [k [i t]] _. unfold of_user. simpl.
    rewrite !andb_true_iff, N.eqb_eq, !Z.leb_le. intros [Hk <-]. split; [done|lia].
Qed.

Lemma RunnableGraphTasks_capacity_witness :
  affected (of_user 8) (match fst (RunnableGraphTasks no_start 10 (sample_env 0 10) sample_three)
                        with Ok l => l | Err _ => [] end) <= 2.
Proof.
  destruct (RunnableGraphTasks no_start 10 (sample_env 0 10) sample_three) as [[l|x] d'] eqn:E;
    [|done].
  exact (proj2 (proj2 (RunnableGraphTasks_capacity no_start 10 (sample_env 0 10)
    sample_three l d' 8%N E))).
Defined.
