(* ===== verification/GraphExec.v ===== *)
(** * GraphExec: the step executor and the task coordinator

    [GraphExecutor] of internal/agenttask/graph.go: [Run] as a transition
    system between scheduling passes and worker completions, [runStep] as the
    sequence of store calls that settles one step; and the outcome of
    [GraphCoordinator.Run] (graph_coordinator.go).

    A Go error is the list of causes [errors.Is] finds in it; [errors.Join]
    appends.  [load] and [claim] are the answers of the store during a pass,
    [ready_at] and [budget_at] the instants [time.Now()] returns for the two
    time tests of a step. *)

From Stdlib Require Import Ascii String.
From S2P Require Import Prelude GoStrings Json Task TaskPlan Store StepStore StepInv Lifecycle.

Local Open Scope Z_scope.

(** ** Errors *)

Inductive cause : Type :=
| CWaiting | CResearchBudget | CDeadlineExceeded | CCanceled | CClaimLost
| CRetryable (delay : duration) | CStore (e : StoreError) | COther (msg : string).
#[global] Instance cause_eq_dec : EqDecision cause.
Proof. solve_decision. Defined.

Definition gerr : Type := list cause.
Definition Is (e : gerr) (c : cause) : bool := bool_decide (c ∈ e).
Definition Is_opt (e : option gerr) (c : cause) : bool :=
  match e with Some e => Is e c | None => false end.
(** [errors.Join]: nil operands are dropped. *)
Definition Join (x : gerr) (y : option gerr) : gerr := x ++ default [] y.
(** [errors.As(err, &retryable)]. *)
Fixpoint as_retryable (e : gerr) : option duration :=
  match e with
  | CRetryable d :: _ => Some d
  | _ :: e => as_retryable e
  | [] => None
  end.
Definition store_err {A} (r : res StoreError A) : option gerr :=
  match r with
  | Ok _ => None
  | Err ETaskClaimLost => Some [CClaimLost]
  | Err e => Some [CStore e]
  end.

(** ** The executor *)

Record GraphExecutor := MkGraphExecutor {
  ResearchDeadline : option time;
  SeparateReadBudget : bool;
  ParallelReads : Z;
  Lease : duration;
}.

Definition executor_ok (g : GraphExecutor) : bool :=
  Z.leb 1 (ParallelReads g) && Z.leb (ParallelReads g) 8
  && Z.leb Second (Lease g) && Z.leb (Lease g) (10 * Minute).

(** [!time.Now().Before(deadline)] of a deadline that exists. *)
Definition past (deadline : option time) (now : time) : bool :=
  match deadline with Some dl => Z.leb dl now | None => false end.

Record executor := MkExecutor {
  x_running : gmap string string;  (* step ID to its kind *)
  x_exclusive : bool;
  x_stopped : option gerr;
}.
Definition x_init : executor := MkExecutor ∅ false None.

(** A step handed to a worker, with its inputs. *)
Record started := MkStarted { st_step : TaskStep; st_inputs : gmap string string }.

Record pass := MkPass {
  p_exec : executor;
  p_wake : option time;
  p_started : list started;
}.

Definition by_id (l : list TaskStep) : gmap string TaskStep :=
  list_to_map ((fun s => (s_ID s, s)) <$> reverse l).

(** The confirmed results of the dependencies, or [None] if one is missing. *)
Fixpoint dep_inputs (m : gmap string TaskStep) (deps : list string)
    (acc : gmap string string) : option (gmap string string) :=
  match deps with
  | [] => Some acc
  | dep :: rest =>
      match m !! dep with
      | Some p => if bool_decide (s_Status p = SDone)
                  then dep_inputs m rest (<[dep := s_Result p]> acc) else None
      | None => None
      end
  end.

Definition observed (s : TaskStep) : bool :=
  String.eqb (s_Kind s) "read" && bool_decide (s_Status s = SDone).
Definition add_observed (l : list TaskStep) (inputs : gmap string string) : gmap string string :=
  fold_left (fun m s => <[s_ID s := s_Result s]> m) (List.filter observed l) inputs.

Definition earlier_wake (w : option time) (t : time) : option time :=
  match w with
  | None => Some t
  | Some w' => if Z.ltb t w' then Some t else Some w'
  end.

Section pass.
Context (g : GraphExecutor) (all : list TaskStep).
Context (ready_at budget_at : string -> time).
Context (claim : string -> res StoreError (option TaskStep)).

Definition research_stop (s : TaskStep) : bool :=
  negb (String.eqb (s_Kind s) "finalize")
  && negb (SeparateReadBudget g && TaskStepHasCandidate s)
  && past (ResearchDeadline g) (budget_at (s_ID s)).

Definition stop (e : gerr) (p : pass) : pass :=
  MkPass (MkExecutor (x_running (p_exec p)) (x_exclusive (p_exec p)) (Some e))
    (p_wake p) (p_started p).

Definition start (s c : TaskStep) (inputs : gmap string string) (p : pass) : pass :=
  MkPass (MkExecutor (<[s_ID s := s_Kind s]> (x_running (p_exec p)))
            (negb (String.eqb (s_Kind s) "read")) (x_stopped (p_exec p)))
    (p_wake p) (p_started p ++ [MkStarted c inputs]).

(** One step of a pass; [true] ends the pass. *)
Definition consider (s : TaskStep) (p : pass) : bool * pass :=
  let running := x_running (p_exec p) in
  if bool_decide (s_Status s <> SPending) || is_some (running !! s_ID s) then (false, p)
  else if negb (String.eqb (s_Kind s) "read") && negb (bool_decide (running = ∅))
  then (false, p)
  else match dep_inputs (by_id all) (s_Dependencies s) ∅ with
  | None => (false, p)
  | Some inputs =>
      let inputs := if String.eqb (s_Kind s) "read" || String.eqb (s_Kind s) "finalize"
                    then add_observed all inputs else inputs in
      if Z.ltb (ready_at (s_ID s)) (s_NextAttemptAt s)
      then (false, MkPass (p_exec p) (earlier_wake (p_wake p) (s_NextAttemptAt s)) (p_started p))
      else if research_stop s then (true, stop [CResearchBudget] p)
      else match claim (s_ID s) with
      | Err e => (true, stop (default [] (store_err (Err e : res StoreError unit))) p)
      | Ok None => (false, p)
      | Ok (Some c) => (false, start s c inputs p)
      end
  end.

Fixpoint scan (l : list TaskStep) (p : pass) : pass :=
  match l with
  | [] => p
  | s :: rest =>
      if x_exclusive (p_exec p)
         || Z.leb (ParallelReads g) (Z.of_nat (size (x_running (p_exec p))))
      then p
      else match consider s p with
           | (true, p') => p'
           | (false, p') => scan rest p'
           end
  end.
End pass.

(** The end of a scheduling pass: [Run] returns, or waits for an event. *)
Inductive decision : Type :=
| Return (r : option gerr)
| Await (p : pass).

Definition settle (p : pass) : decision :=
  if bool_decide (x_running (p_exec p) = ∅)
  then Return (Some (default [CWaiting] (x_stopped (p_exec p))))
  else Await p.

Definition with_stop (x : executor) (e : option gerr) : executor :=
  match x_stopped x with
  | Some _ => x
  | None => MkExecutor (x_running x) (x_exclusive x) e
  end.

Definition schedule (g : GraphExecutor) (ctx_err : option gerr)
    (load : res StoreError (list TaskStep)) (ready_at budget_at : string -> time)
    (claim : string -> res StoreError (option TaskStep)) (x : executor) : decision :=
  let x := with_stop x ctx_err in
  match x_stopped x with
  | Some _ => settle (MkPass x None [])
  | None =>
      match load with
      | Err e => settle (MkPass (with_stop x (store_err (Err e : res StoreError unit))) None [])
      | Ok [] => settle (MkPass (with_stop x (Some [COther "task has no persisted plan"])) None [])
      | Ok l =>
          if forallb (fun s => bool_decide (s_Status s = SDone)) l
             && bool_decide (x_running x = ∅)
          then Return None
          else settle (scan g l ready_at budget_at claim l (MkPass x None []))
      end
  end.

(** A worker's completion; [ctx_err] is the context's error at that moment. *)
Record completion := MkCompletion { e_kind : string; e_id : string; e_err : option gerr }.

Definition absorb (g : GraphExecutor) (now : time) (ctx_err : option gerr)
    (ev : completion) (x : executor) : executor :=
  let running := delete (e_id ev) (x_running x) in
  let researchBound := negb (String.eqb (e_kind ev) "finalize")
    && negb (SeparateReadBudget g && String.eqb (e_kind ev) "read") in
  let researchExpired := researchBound && past (ResearchDeadline g) now in
  if Is_opt (e_err ev) CWaiting && is_none ctx_err
     && negb (researchExpired && Is_opt (e_err ev) CDeadlineExceeded)
  then MkExecutor running false (x_stopped x)
  else match e_err ev, x_stopped x with
  | Some err, None =>
      MkExecutor running false
        (Some (if researchExpired && is_none ctx_err && Is err CDeadlineExceeded
               then [CResearchBudget] else err))
  | _, st => MkExecutor running false st
  end.

(** ** The executor's transitions *)

Inductive exec_state : Type :=
| Scheduling (x : executor)
| Waiting (x : executor)
| Returned (x : executor) (r : option gerr).

Inductive exec_step (g : GraphExecutor) : exec_state -> exec_state -> Prop :=
| es_await ctx_err load ready_at budget_at claim x p :
    schedule g ctx_err load ready_at budget_at claim x = Await p ->
    exec_step g (Scheduling x) (Waiting (p_exec p))
| es_return ctx_err load ready_at budget_at claim x r :
    schedule g ctx_err load ready_at budget_at claim x = Return r ->
    exec_step g (Scheduling x) (Returned x r)
| es_complete now ctx_err ev x :
    x_running x !! e_id ev = Some (e_kind ev) ->
    exec_step g (Waiting x) (Scheduling (absorb g now ctx_err ev x))
| es_wake x : x_stopped x = None -> exec_step g (Waiting x) (Scheduling x).

(** ** One step *)

Record StepResult := MkStepResult { Output : string; Accepted : bool }.

Section run_step.
Context (g : GraphExecutor) (Error : gerr -> string).

(** [now] is the instant of the deadline test after a failed heartbeat,
    [parent] the error of the executor's own context. *)
Definition runStep (step : TaskStep) (run : uuid) (heartbeatErr : option gerr)
    (parent : option gerr) (now : time) (result : res gerr StepResult) (e : env) (d : db)
    : option gerr * db :=
  let id := s_TaskID step in
  let sid := s_ID step in
  match heartbeatErr with
  | Some h =>
      if Is h CClaimLost then (Some h, d)
      else
        let (r, d') := FailTaskStep id sid run (Error h) true e d in
        let persistErr := store_err r in
        if past (ResearchDeadline g) now && is_none parent
           && negb (Is_opt persistErr CClaimLost)
        then (Some (Join [CResearchBudget] persistErr), d')
        else (Some (Join h persistErr), d')
  | None =>
      let err := match result with
                 | Ok r => if negb (Accepted r) || blank (Output r)
                           then Err [COther ("step " ++ sid ++ " did not pass acceptance")]
                           else Ok (Output r)
                 | Err x => Err x
                 end in
      match err with
      | Ok output =>
          let (r, d') := CompleteTaskStep id sid run output e d in (store_err r, d')
      | Err x =>
          let canRetry := is_some (as_retryable x) in
          let delay := default 0 (as_retryable x) in
          let (r, d') := FailTaskStepAfter id sid run (Error x) canRetry delay e d in
          match store_err r with
          | Some p => (Some (Join x (Some p)), d')
          | None => if canRetry && Z.ltb (s_Attempts step) (s_MaxAttempts step)
                    then (Some (Join [CWaiting] (Some x)), d') else (Some x, d')
          end
      end
  end.
End run_step.

(** ** The coordinator *)

(** The tail of [GraphCoordinator.Run]: [work] returned [err], the renewal
    loop [renewalErr], and the task was read back. *)
Definition coordinator_outcome (err renewalErr : option gerr)
    (current : res StoreError AgentTask) : option gerr :=
  let join l := match List.concat (omap id l) with [] => None | e => Some e end in
  match current with
  | Err x => join [err; renewalErr; store_err (Err x : res StoreError unit)]
  | Ok t =>
      if tstatus_in (Status t) [TDone; TFailed; TCanceled; TPending; TPaused] then err
      else
        let err := match err, renewalErr with
                   | None, None =>
                       Some [COther "graph runner returned without yielding or finalizing"]
                   | _, _ => err
                   end in
        join [err; renewalErr]
  end.

(** ** Invariant *)

Definition exec_inv (g : GraphExecutor) (x : executor) : Prop :=
  Z.of_nat (size (x_running x)) <= ParallelReads g
  /\ (if x_exclusive x
      then exists id k, x_running x = {[id := k]} /\ k <> "read"%string
      else forall id k, x_running x !! id = Some k -> k = "read"%string).

Definition state_exec (s : exec_state) : executor :=
  match s with Scheduling x | Waiting x | Returned x _ => x end.

Lemma with_stop_inv g x e : exec_inv g x -> exec_inv g (with_stop x e).
Proof. unfold with_stop. by destruct (x_stopped x). Qed.

Lemma consider_inv g all ready_at budget_at claim s p b' p' :
  x_exclusive (p_exec p) = false ->
  Z.of_nat (size (x_running (p_exec p))) < ParallelReads g ->
  exec_inv g (p_exec p) -> consider g all ready_at budget_at claim s p = (b', p') ->
  exec_inv g (p_exec p').
Proof.
  intros Hex Hsz [Hle Hinv] H. unfold consider in H.
  destruct (_ || _) eqn:E1 in H; [by simplify_eq|].
  destruct (_ && _) eqn:E2 in H; [by simplify_eq|].
  destruct (dep_inputs _ _ _) as [inputs|]; [|by simplify_eq].
  destruct (Z.ltb _ _); [by simplify_eq|].
  destruct (research_stop _ _ _); [by simplify_eq|].
  destruct (claim (s_ID s)) as [[c|]|x]; [|by simplify_eq|by simplify_eq]. simplify_eq.
  apply orb_false_iff in E1 as [_ E1]. rewrite Hex in Hinv. simpl.
  destruct (x_running (p_exec p) !! s_ID s) eqn:Hr; [done|].
  split; [simpl; rewrite map_size_insert_None by done; lia|].
  simpl. destruct (String.eqb_spec (s_Kind s) "read") as [Hk|Hk]; simpl in *.
  - intros id k. rewrite lookup_insert_Some. intros [[_ <-]|[_ ?]]; [done|eauto].
  - apply negb_false_iff, bool_decide_eq_true in E2. exists (s_ID s), (s_Kind s).
    by rewrite E2.
Qed.

Lemma scan_inv g all ready_at budget_at claim l : forall p,
  exec_inv g (p_exec p) -> exec_inv g (p_exec (scan g all ready_at budget_at claim l p)).
Proof.
  induction l as [|s l IH]; intros p Hp; cbn [scan]; [done|].
  destruct (_ || _) eqn:E; [done|]. apply orb_false_iff in E as [E1 E2]. bool_to_prop.
  destruct (consider g all ready_at budget_at claim s p) as [[] p'] eqn:Hc;
    [by eapply consider_inv|]. apply IH. by eapply consider_inv.
Qed.

Lemma schedule_inv g ctx_err load ready_at budget_at claim x p :
  exec_inv g x -> schedule g ctx_err load ready_at budget_at claim x = Await p ->
  exec_inv g (p_exec p).
Proof.
  intros Hx H. apply (with_stop_inv g x ctx_err) in Hx. unfold schedule in H.
  set (x1 := with_stop x ctx_err) in *.
  assert (forall q, settle q = Await p -> q = p) as Hset.
  { unfold settle. intros q. intros Hq. case_match; congruence. }
  destruct (x_stopped x1); [by apply Hset in H as <-|].
  destruct load as [[|s l]|e]; [apply Hset in H as <-; by apply with_stop_inv| |
    apply Hset in H as <-; by apply with_stop_inv].
  destruct (_ && _); [done|]. apply Hset in H as <-. by apply scan_inv.
Qed.

Lemma absorb_inv g now ctx_err ev x :
  x_running x !! e_id ev = Some (e_kind ev) -> exec_inv g x -> exec_inv g (absorb g now ctx_err ev x).
Proof.
  intros Hr [Hs Hx].
  assert (forall st, exec_inv g (MkExecutor (delete (e_id ev) (x_running x)) false st)) as H.
  { intros st. split; simpl.
    - rewrite map_size_delete, Hr. lia.
    - destruct (x_exclusive x).
      + destruct Hx as (id & k & Hx & _). rewrite Hx in *.
        apply lookup_singleton_Some in Hr as [-> _]. intros id' k'.
        by rewrite delete_singleton_eq, lookup_empty.
      + intros id k [_ ?]%lookup_delete_Some. eauto. }
  unfold absorb. repeat case_match; done.
Qed.

Lemma exec_step_inv g s s' :
  exec_step g s s' -> exec_inv g (state_exec s) -> exec_inv g (state_exec s').
Proof.
  intros [ctx_err load ra ba claim x p H|ctx_err load ra ba claim x r H|now ctx_err ev x H|x H] Hi;
    simpl in *; [by eapply schedule_inv|done|by apply absorb_inv|done].
Qed.

Lemma exec_steps_inv g s s' :
  rtc (exec_step g) s s' -> exec_inv g (state_exec s) -> exec_inv g (state_exec s').
Proof. induction 1; eauto using exec_step_inv. Qed.

Lemma settle_Return p r : settle p = Return r -> x_running (p_exec p) = ∅ /\ r <> None.
Proof. unfold settle. intros Hq. case_match; simplify_eq. bool_to_prop. done. Qed.

(** What a pass that starts workers hands them. *)
Definition fair_start (all : list TaskStep) (claim : string -> res StoreError (option TaskStep))
    (w : started) : Prop :=
  exists s, s ∈ all /\ s_Status s = SPending /\ claim (s_ID s) = Ok (Some (st_step w))
    /\ (forall dep, dep ∈ s_Dependencies s -> exists p,
          by_id all !! dep = Some p /\ s_Status p = SDone)
    /\ (s_Kind s = "action"%string -> forall id r, st_inputs w !! id = Some r ->
          id ∈ s_Dependencies s
          /\ exists p, by_id all !! id = Some p /\ s_Result p = r).

Lemma dep_inputs_Some m deps : forall acc inputs,
  dep_inputs m deps acc = Some inputs ->
  (forall dep, dep ∈ deps -> exists p, m !! dep = Some p /\ s_Status p = SDone)
  /\ (forall id r, inputs !! id = Some r -> acc !! id = Some r
        \/ (id ∈ deps /\ exists p, m !! id = Some p /\ s_Result p = r)).
Proof.
  induction deps as [|dep deps IH]; intros acc inputs; cbn [dep_inputs].
  - intros [= <-]. split; [by intros dep ?%elem_of_nil|auto].
  - destruct (m !! dep) as [p|] eqn:Hp; [|done]. case_bool_decide as Hd; [|done].
    intros [H1 H2]%IH. split.
    + intros dep' [->|?]%elem_of_cons; [eauto|by apply H1].
    + intros id r Hid. destruct (H2 id r Hid) as [Hacc|[Hin Hex]].
      * apply lookup_insert_Some in Hacc as [[<- <-]|[_ ?]]; [right|by left].
        split; [by apply elem_of_cons; left|eauto].
      * right. split; [by apply elem_of_cons; right|done].
Qed.

Lemma consider_started g all ready_at budget_at claim s p b' p' w :
  s ∈ all -> consider g all ready_at budget_at claim s p = (b', p') ->
  w ∈ p_started p' -> w ∈ p_started p \/ fair_start all claim w.
Proof.
  intros Hs H Hw. unfold consider in H.
  destruct (_ || _) eqn:E1 in H; [simplify_eq; by left|].
  destruct (_ && _) in H; [simplify_eq; by left|].
  destruct (dep_inputs _ _ _) as [inputs|] eqn:Hd; [|simplify_eq; by left].
  destruct (Z.ltb _ _); [simplify_eq; by left|].
  destruct (research_stop _ _ _); [simplify_eq; by left|].
  destruct (claim (s_ID s)) as [[c|]|x] eqn:Hc; [|simplify_eq; by left..]. simplify_eq.
  simpl in Hw. apply elem_of_app in Hw as [Hw|Hw]; [by left|].
  apply list_elem_of_singleton in Hw as ->. right. exists s.
  apply orb_false_iff in E1 as [E1%bool_decide_eq_false _].
  apply dep_inputs_Some in Hd as [Hd1 Hd2].
  split; [done|]. split; [by apply dec_stable|]. split; [done|]. split; [done|].
  intros Hk id r. simpl. rewrite Hk. simpl. intros [H|[H1 H2]]%Hd2; [|done].
  by rewrite lookup_empty in H.
Qed.

Lemma scan_started g all ready_at budget_at claim w l : forall p,
  (forall s, s ∈ l -> s ∈ all) ->
  w ∈ p_started (scan g all ready_at budget_at claim l p) ->
  w ∈ p_started p \/ fair_start all claim w.
Proof.
  induction l as [|s l IH]; intros p Hl; cbn [scan]; [by left|].
  destruct (_ || _); [by left|].
  assert (s ∈ all) as Hs by (apply Hl; by left).
  destruct (consider g all ready_at budget_at claim s p) as [[] p'] eqn:Hc; intros Hw.
  - by eapply consider_started.
  - apply IH in Hw as [Hw|?]; [by eapply consider_started|by right|].
    intros s' Hs'. apply Hl. by right.
Qed.

(** ** Properties *)

Lemma x_init_inv g : executor_ok g = true -> exec_inv g x_init.
Proof.
  unfold executor_ok. intros H. bool_to_prop. split.
  - simpl. rewrite map_size_empty. lia.
  - simpl. intros id k. by rewrite lookup_empty.
Qed.

(** A pass only adds workers. *)
Lemma consider_running g all ready_at budget_at claim s p b' p' id k :
  consider g all ready_at budget_at claim s p = (b', p') ->
  x_running (p_exec p) !! id = Some k -> is_Some (x_running (p_exec p') !! id).
Proof.
  intros H Hid. unfold consider in H.
  repeat (case_match; simplify_eq/=; eauto).
  destruct (decide (s_ID s = id)) as [<-|]; [by rewrite lookup_insert_eq|].
  rewrite lookup_insert_ne by done. eauto.
Qed.

Lemma scan_running g all ready_at budget_at claim l : forall p id k,
  x_running (p_exec p) !! id = Some k ->
  is_Some (x_running (p_exec (scan g all ready_at budget_at claim l p)) !! id).
Proof.
  induction l as [|s l IH]; intros p id k Hid; cbn [scan]; [eauto|].
  destruct (_ || _); [eauto|].
  destruct (consider g all ready_at budget_at claim s p) as [c p'] eqn:Hc.
  destruct (consider_running _ _ _ _ _ _ _ _ _ _ _ Hc Hid) as [k' Hk'].
  destruct c; eauto.
Qed.

Lemma with_stop_running x e : x_running (with_stop x e) = x_running x.
Proof. unfold with_stop. by destruct (x_stopped x). Qed.

Lemma schedule_Return g ctx_err load ready_at budget_at claim x r :
  schedule g ctx_err load ready_at budget_at claim x = Return r ->
  x_running x = ∅
  /\ (r = None -> exists l, load = Ok l /\ l <> [] /\ forall s, s ∈ l -> s_Status s = SDone).
Proof.
  unfold schedule. intros H.
  destruct (x_stopped (with_stop x ctx_err)) eqn:Hst.
  { apply settle_Return in H as [H Hr]. simpl in H. rewrite with_stop_running in H. done. }
  destruct load as [[|s l]|err];
    [apply settle_Return in H as [H Hr]; simpl in H; rewrite !with_stop_running in H; done| |
     apply settle_Return in H as [H Hr]; simpl in H; rewrite !with_stop_running in H; done].
  destruct (_ && _) eqn:E in H.
  - apply andb_true_iff in E as [Ha He%bool_decide_eq_true].
    rewrite with_stop_running in He. split; [done|]. intros _. exists (s :: l).
    split; [done|]. split; [done|]. rewrite forallb_Forall, Forall_forall in Ha.
    intros s' Hs'. apply Ha in Hs'. by apply bool_decide_eq_true in Hs'.
  - apply settle_Return in H as [H Hr]. split; [|done].
    apply map_empty. intros id. destruct (x_running x !! id) as [k|] eqn:Hid; [|done].
    rewrite <- (with_stop_running x ctx_err) in Hid.
    destruct (scan_running g (s :: l) ready_at budget_at claim (s :: l)
      (MkPass (with_stop x ctx_err) None []) id k Hid) as [k' Hk'].
    by rewrite H, lookup_empty in Hk'.
Qed.

Lemma schedule_Await_running g ctx_err load ready_at budget_at claim x p :
  schedule g ctx_err load ready_at budget_at claim x = Await p -> x_running (p_exec p) <> ∅.
Proof.
  assert (forall q, settle q = Await p -> x_running (p_exec p) <> ∅) as Hset.
  { unfold settle. intros q Hq. case_match; simplify_eq. by bool_to_prop. }
  unfold schedule. intros H. destruct (x_stopped _); [by eapply Hset|].
  destruct load as [[|s l]|err]; [by eapply Hset| |by eapply Hset].
  destruct (_ && _) in H; [done|by eapply Hset].
Qed.

(** C31: the executor runs reads concurrently, at most [ParallelReads] of
    them, and every other step alone; it waits only while a worker runs, and
    returns only when none does, so no worker outlives it. *)
Theorem executor_exclusive g s :
  executor_ok g = true -> rtc (exec_step g) (Scheduling x_init) s ->
  let x := state_exec s in
  Z.of_nat (size (x_running x)) <= ParallelReads g
  /\ (forall i k, x_running x !! i = Some k -> k <> "read"%string -> x_running x = {[i := k]})
  /\ (forall y, s = Waiting y -> x_running y <> ∅)
  /\ (forall y r, s = Returned y r -> x_running y = ∅).
Proof.
  intros Hok Hs x. pose proof (exec_steps_inv _ _ _ Hs (x_init_inv g Hok)) as [Hsz Hinv].
  split; [done|]. split; [|split].
  - intros i k Hi Hk. subst x. destruct (x_exclusive (state_exec s)).
    + destruct Hinv as (i' & k' & Hx & _). rewrite Hx in *.
      by apply lookup_singleton_Some in Hi as [-> ->].
    + by destruct (Hk (Hinv i k Hi)).
  - intros y ->. apply rtc_inv_r in Hs as [?|(s0 & _ & Hs)]; [done|].
    inversion Hs; subst. by eapply schedule_Await_running.
  - intros y r ->. apply rtc_inv_r in Hs as [?|(s0 & _ & Hs)]; [done|].
    inversion Hs; subst. by eapply schedule_Return.
Qed.

(** A pass reports the graph finished only when it loaded a non-empty
    plan with every step confirmed, and hands a worker only a pending step
    that the store let it claim, whose dependencies are all confirmed; an
    action receives nothing but the results of its own dependencies. *)
Theorem schedule_ready g ctx_err load ready_at budget_at claim x :
  (schedule g ctx_err load ready_at budget_at claim x = Return None ->
     exists l, load = Ok l /\ l <> [] /\ forall s, s ∈ l -> s_Status s = SDone)
  /\ (forall p w, schedule g ctx_err load ready_at budget_at claim x = Await p ->
        w ∈ p_started p -> exists l, load = Ok l /\ fair_start l claim w).
Proof.
  split.
  - intros H. by apply schedule_Return in H as [_ H]; apply H.
  - intros p w H Hw.
    assert (forall q, settle q = Await p -> q = p) as Hset.
    { unfold settle. intros q Hq. case_match; congruence. }
    unfold schedule in H. destruct (x_stopped _).
    { apply Hset in H as <-. by apply elem_of_nil in Hw. }
    destruct load as [[|s l]|err]; [apply Hset in H as <-; by apply elem_of_nil in Hw| |
      apply Hset in H as <-; by apply elem_of_nil in Hw].
    destruct (_ && _) in H; [done|]. apply Hset in H as <-.
    exists (s :: l). split; [done|].
    by apply scan_started in Hw as [?%elem_of_nil|?]; [|done|].
Qed.

Lemma FailTaskStepAfter_done id sid run reason retryable delay e d r d' s :
  FailTaskStepAfter id sid run reason retryable delay e d = (r, d') ->
  s ∈ steps d' -> s_Status s = SDone -> s ∈ steps d.
Proof.
  intros [->|([] & n & Hb & _)]%run_tx_cases; [done|].
  apply tx_bind_Ok in Hb as (u & n1 & d1 & [-> _]%lock_Ok & Hb).
  apply tx_bind_Ok in Hb as (k & n2 & d2 & (_ & -> & [= _ ->])%exec_count_Ok & Hb).
  destruct (Z.eqb k 0); [by tx_inv|]. tx_inv. simpl.
  intros (r0 & Hr0 & ->)%update_where_elem Hs.
  destruct (owns _ _ _ _ r0) eqn:Ho; [|done]. exfalso.
  simpl in Hs. unfold failed_status in Hs. by repeat case_match.
Qed.

(** A step is confirmed only by an accepted, non-blank output.  [runStep]
    reports success only after the store accepted the completion of the
    worker's own lease; in every other case (heartbeat lost, handler error,
    output rejected or blank) no row becomes confirmed. *)
Theorem runStep_confirms_accepted g Error step run heartbeatErr parent now result e d r d' :
  runStep g Error step run heartbeatErr parent now result e d = (r, d') ->
  (r = None -> exists out, result = Ok out /\ Accepted out = true /\ blank (Output out) = false
     /\ authorised e d d' (s_TaskID step) (s_ID step) run)
  /\ (forall s, s ∈ steps d' -> s_Status s = SDone -> s ∉ steps d ->
        heartbeatErr = None /\ exists out, result = Ok out /\ Accepted out = true
          /\ blank (Output out) = false).
Proof.
  intros H. unfold runStep in H. destruct heartbeatErr as [h|].
  - destruct (Is h CClaimLost); [simplify_eq; by split|].
    destruct (FailTaskStep _ _ _ _ _ e d) as [r1 d1] eqn:Hf. split.
    + intros ->. destruct (_ && _) in H; by simplify_eq.
    + intros s Hs Hd Hn. destruct Hn.
      assert (d' = d1) as -> by (destruct (_ && _) in H; by simplify_eq).
      unfold FailTaskStep in Hf. by eapply FailTaskStepAfter_done.
  - assert (forall x, (let (r0, d1) := FailTaskStepAfter (s_TaskID step) (s_ID step) run (Error x)
        (is_some (as_retryable x)) (default 0 (as_retryable x)) e d in
      match store_err r0 with
      | Some p => (Some (Join x (Some p)), d1)
      | None => if is_some (as_retryable x) && Z.ltb (s_Attempts step) (s_MaxAttempts step)
                then (Some (Join [CWaiting] (Some x)), d1) else (Some x, d1)
      end) = (r, d') -> r <> None /\ forall s, s ∈ steps d' -> s_Status s = SDone -> s ∈ steps d)
      as Hfail.
    { intros x Hx. destruct (FailTaskStepAfter _ _ _ _ _ _ e d) as [r1 d1] eqn:Hf.
      assert (d' = d1 /\ r <> None) as [-> Hr].
      { destruct (store_err r1); [by simplify_eq|]. destruct (_ && _) in Hx; by simplify_eq. }
      split; [done|]. intros s. by eapply FailTaskStepAfter_done. }
    destruct result as [[out acc]|x]; cbn [Accepted Output] in H.
    + destruct (negb acc || blank out) eqn:E in H.
      * apply Hfail in H as [Hr Hd]. split; [done|]. intros s Hs Hst Hn. by destruct Hn; apply Hd.
      * apply orb_false_iff in E as [E1%negb_false_iff E2]. subst acc.
        destruct (CompleteTaskStep _ _ _ _ e d) as [r1 d1] eqn:Hc. simplify_eq. split.
        -- intros Hr. exists (MkStepResult out true). do 3 (split; [done|]).
           eapply worker_write_cases in Hc as [[Hne _]|[_ Ha]]; [|exact Ha|apply ww_complete].
           destruct r1 as [[]|x]; [done|]. by destruct x.
        -- intros s _ _ _. split; [done|]. by exists (MkStepResult out true).
    + apply Hfail in H as [Hr Hd]. split; [done|]. intros s Hs Hst Hn. by destruct Hn; apply Hd.
Qed.

(** ** Samples *)

Definition sample_executor : GraphExecutor := MkGraphExecutor None false 3 Minute.
Definition read_step (id : string) : TaskStep := sample_step id "read" [] [].
Definition sample_graph : list TaskStep :=
  [read_step "a"; read_step "b"; sample_step "act" "action" [] ["send"%string];
   sample_step "report" "finalize" ["a"%string; "b"%string; "act"%string] []].
Definition grant (l : list TaskStep) (id : string) : res StoreError (option TaskStep) :=
  Ok (by_id l !! id).
Definition sample_pass : decision :=
  schedule sample_executor None (Ok sample_graph) (fun _ => 0) (fun _ => 0)
    (grant sample_graph) x_init.

(** Both reads start; the action waits for them. *)
Example sample_pass_starts :
  match sample_pass with
  | Await p => s_ID <$> (st_step <$> p_started p)
  | Return _ => []
  end = ["a"; "b"]%string.
Proof. by vm_compute. Qed.

Definition sample_awaiting : executor :=
  match sample_pass with Await p => p_exec p | Return _ => x_init end.

Lemma sample_awaits : rtc (exec_step sample_executor) (Scheduling x_init) (Waiting sample_awaiting).
Proof.
  apply rtc_once.
  assert (exists p, sample_pass = Await p /\ sample_awaiting = p_exec p) as (p & Hp & ->).
  { unfold sample_awaiting. destruct sample_pass as [r|p] eqn:E; [by vm_compute in E|]. eauto. }
  exact (es_await _ _ _ _ _ _ _ _ Hp).
Qed.

Lemma executor_exclusive_witness :
  Z.of_nat (size (x_running sample_awaiting)) <= 3 /\ x_running sample_awaiting <> ∅.
Proof.
  assert (executor_ok sample_executor = true) as Hok by (by vm_compute).
  destruct (executor_exclusive sample_executor (Waiting sample_awaiting) Hok sample_awaits)
    as (Hsz & _ & Hw & _).
  split; [exact Hsz|]. by apply Hw.
Defined.

Definition no_text (_ : gerr) : string := "error".
Definition sample_rejected :=
  runStep sample_executor no_text (sample_first sample_claimed) 103 None None 30
    (Ok (MkStepResult "draft" false)) (sample_env 50 30) sample_claimed.

Lemma runStep_confirms_accepted_witness :
  fst sample_rejected <> None
  /\ forall s, s ∈ steps (snd sample_rejected) -> s_Status s = SDone ->
     s ∉ steps sample_claimed -> False.
Proof.
  destruct (runStep_confirms_accepted sample_executor no_text (sample_first sample_claimed) 103
    None None 30 (Ok (MkStepResult "draft" false)) (sample_env 50 30) sample_claimed
    (fst sample_rejected) (snd sample_rejected) (surjective_pairing _)) as [Hn Hd].
  split.
  - intros E. destruct (Hn E) as (out & [= <-] & ? & _). done.
  - intros s Hs Hst Hno.
    destruct (Hd s Hs Hst Hno) as (_ & out & [= <-] & ? & _). done.
Defined.
