(* ===== verification/TaskProgram.v ===== *)
(** * TaskProgram: the typed execution contract of a background task

    internal/core/task_program.go: [TaskProgram.Validate] with every guard of
    its loops, and [RequestedTools].  The Go maps [inputIDs], [activationIDs],
    [decisionTools] and [seen] are finite maps and sets.  An input's
    [json.RawMessage] is its bytes.

    [Validate_iff] gives the declarative contract the guards decide;
    [RequestedTools_spec] says the tool list is exactly what the program can
    run, without repetition and in declaration order. *)

From Stdlib Require Import Ascii String.
From S2P Require Import Prelude GoStrings Json GoJson JsonText.

Local Open Scope blueship_scope.

(** ** Constants *)

Definition TaskProgramSchemaV1 : string := "blueship.task-program/v1".
Definition TaskProgramMaxInputs : nat := 32.
Definition TaskProgramMaxDecisionTools : nat := 32.
Definition TaskProgramMaxInputBytes : Z := 65536.
Definition TaskProgramMaxDecisionInstructionBytes : Z := 4000.
Definition OnErrorFail : string := "fail".
Definition OnErrorContinue : string := "continue".
Definition ActivationAlways : string := "always".
Definition ActivationAnyNonEmpty : string := "any_non_empty".
Definition ActivationAllNonEmpty : string := "all_non_empty".
Definition DecisionSelected : string := "selected".
Definition DecisionNone : string := "none".

(** ** Data *)

Record TaskProgramInput := MkInput {
  i_ID : string;
  i_Tool : string;
  i_Input : bytes;
  i_Enabled : bool;
  i_OnError : string;
}.

Record TaskProgramActivation := MkActivation {
  act_Mode : string;
  act_InputIDs : list string;
}.

Record TaskProgramDecision := MkDecision {
  dec_Mode : string;
  dec_Tools : list string;
  dec_Instruction : bytes;
}.

Record TaskProgramQuietHours := MkQuiet { FromHour : Z; ToHour : Z }.

Record TaskProgram := MkProgram {
  tp_Schema : string;
  tp_Inputs : list TaskProgramInput;
  tp_Activation : TaskProgramActivation;
  tp_Decision : TaskProgramDecision;
  tp_QuietHours : option TaskProgramQuietHours;
}.

Inductive ProgramError : Type :=
| PSchema
| PTooManyInputs
| PInputID (i : nat)
| PInputTool (i : nat)
| PInputToolSpace (id : string)
| PDuplicateInput (id : string)
| PNotification (id : string)
| PMcpInput (id : string)
| PInputMissing (id : string)
| PInputSize (id : string)
| PInputJson (id : string)
| PInputObject (id : string)
| POnError (id : string)
| PActivationIDs
| PActivationMode
| PActivationEmptyID
| PActivationIDSpace (id : string)
| PActivationDuplicate (id : string)
| PActivationUnknown (id : string)
| PActivationDisabled (id : string)
| PTooManyTools
| PInstructionUtf8
| PInstructionSize
| PDecisionTools
| PDecisionInstruction
| PDecisionMode
| PToolEmpty (i : nat)
| PToolSpace (i : nat)
| PToolDuplicate (tool : string)
| PToolNotification (tool : string)
| PQuietFrom
| PQuietTo
| PQuietEqual.

(** ** Validate *)

Definition alnum (c : ascii) : bool :=
  in_range 48 57 c || in_range 65 90 c || in_range 97 122 c.

(** [taskProgramInputIDPattern]. *)
Definition id_matches (id : string) : bool :=
  match lit id with
  | [] => false
  | c :: rest =>
      alnum c && Nat.leb (length rest) 63
      && forallb (fun c => alnum c || Ascii.eqb c "_"%char || Ascii.eqb c "-"%char) rest
  end.

Definition trimmed (s : string) : bool := String.eqb s (TrimSpace s).

Definition starts_object (raw : bytes) : bool :=
  match TrimSpace_b raw with
  | c :: _ => Ascii.eqb c "{"%char
  | [] => false
  end.

Definition on_error_ok (s : string) : bool :=
  String.eqb s OnErrorFail || String.eqb s OnErrorContinue.

Definition validate_input (i : nat) (ids : gmap string bool)
    (input : TaskProgramInput) : res ProgramError (gmap string bool) :=
  let id := i_ID input in
  let tool := i_Tool input in
  check! id_matches id else PInputID i in
  check! negb (String.eqb tool "") else PInputTool i in
  check! trimmed tool else PInputToolSpace id in
  match ids !! id with
  | Some _ => Err (PDuplicateInput id)
  | None =>
      let ids := <[id := i_Enabled input]> ids in
      check! negb (String.eqb tool "message_send") else PNotification id in
      check! negb (HasPrefix (lit tool) (lit "mcp__")) else PMcpInput id in
      check! negb (Nat.eqb (length (i_Input input)) 0) else PInputMissing id in
      check! Z.leb (Z.of_nat (length (i_Input input))) TaskProgramMaxInputBytes
        else PInputSize id in
      check! Valid (i_Input input) else PInputJson id in
      check! starts_object (i_Input input) else PInputObject id in
      check! on_error_ok (i_OnError input) else POnError id in
      Ok ids
  end.

Fixpoint validate_inputs (i : nat) (ids : gmap string bool)
    (inputs : list TaskProgramInput) : res ProgramError (gmap string bool) :=
  match inputs with
  | [] => Ok ids
  | input :: rest =>
      ids' ← validate_input i ids input; validate_inputs (S i) ids' rest
  end.

Definition validate_mode (a : TaskProgramActivation) : res ProgramError unit :=
  if String.eqb (act_Mode a) ActivationAlways then
    check! Nat.eqb (length (act_InputIDs a)) 0 else PActivationIDs in Ok tt
  else if String.eqb (act_Mode a) ActivationAnyNonEmpty
          || String.eqb (act_Mode a) ActivationAllNonEmpty then
    check! negb (Nat.eqb (length (act_InputIDs a)) 0) else PActivationIDs in Ok tt
  else Err PActivationMode.

Fixpoint validate_activation (inputIDs : gmap string bool) (seen : gset string)
    (ids : list string) : res ProgramError unit :=
  match ids with
  | [] => Ok tt
  | id :: rest =>
      check! negb (String.eqb id "") else PActivationEmptyID in
      check! trimmed id else PActivationIDSpace id in
      check! negb (bool_decide (id ∈ seen)) else PActivationDuplicate id in
      match (inputIDs !! id : option bool) with
      | None => Err (PActivationUnknown id)
      | Some enabled =>
          check! enabled else PActivationDisabled id in
          validate_activation inputIDs ({[id]} ∪ seen) rest
      end
  end.

Definition validate_decision (dec : TaskProgramDecision) : res ProgramError unit :=
  check! Nat.leb (length (dec_Tools dec)) TaskProgramMaxDecisionTools
    else PTooManyTools in
  check! ValidString (dec_Instruction dec) else PInstructionUtf8 in
  check! Z.leb (Z.of_nat (length (dec_Instruction dec)))
           TaskProgramMaxDecisionInstructionBytes else PInstructionSize in
  if String.eqb (dec_Mode dec) DecisionSelected then Ok tt
  else if String.eqb (dec_Mode dec) DecisionNone then
    check! Nat.eqb (length (dec_Tools dec)) 0 else PDecisionTools in
    check! Nat.eqb (length (dec_Instruction dec)) 0 else PDecisionInstruction in
    Ok tt
  else Err PDecisionMode.

Fixpoint validate_tools (i : nat) (seen : gset string) (tools : list string)
    : res ProgramError unit :=
  match tools with
  | [] => Ok tt
  | tool :: rest =>
      check! negb (String.eqb tool "") else PToolEmpty i in
      check! trimmed tool else PToolSpace i in
      check! negb (bool_decide (tool ∈ seen)) else PToolDuplicate tool in
      check! negb (String.eqb tool "message_send") else PToolNotification tool in
      validate_tools (S i) ({[tool]} ∪ seen) rest
  end.

Definition hour_ok (h : Z) : bool := Z.leb 0 h && Z.leb h 23.

Definition validate_quiet (q : option TaskProgramQuietHours)
    : res ProgramError unit :=
  match q with
  | None => Ok tt
  | Some q =>
      check! hour_ok (FromHour q) else PQuietFrom in
      check! hour_ok (ToHour q) else PQuietTo in
      check! negb (Z.eqb (FromHour q) (ToHour q)) else PQuietEqual in
      Ok tt
  end.

Definition Validate (p : TaskProgram) : res ProgramError unit :=
  check! String.eqb (tp_Schema p) TaskProgramSchemaV1 else PSchema in
  check! Nat.leb (length (tp_Inputs p)) TaskProgramMaxInputs else PTooManyInputs in
  inputIDs ← validate_inputs 0 ∅ (tp_Inputs p);
  _ ← validate_mode (tp_Activation p);
  _ ← validate_activation inputIDs ∅ (act_InputIDs (tp_Activation p));
  _ ← validate_decision (tp_Decision p);
  _ ← validate_tools 0 ∅ (dec_Tools (tp_Decision p));
  validate_quiet (tp_QuietHours p).

(** ** RequestedTools *)

Definition appendTool (acc : gset string * list string) (tool : string) :=
  if String.eqb tool "" then acc
  else if bool_decide (tool ∈ acc.1) then acc
  else ({[tool]} ∪ acc.1, acc.2 ++ [tool]).

Definition enabled_tools (inputs : list TaskProgramInput) : list string :=
  i_Tool <$> List.filter i_Enabled inputs.

Definition RequestedTools (p : TaskProgram) : list string :=
  let acc := fold_left appendTool (enabled_tools (tp_Inputs p)) (∅, []) in
  let acc := if String.eqb (dec_Mode (tp_Decision p)) DecisionSelected
             then fold_left appendTool (dec_Tools (tp_Decision p)) acc
             else acc in
  acc.2.

(** * Properties *)

(** ** The contract the guards decide *)

Definition input_ok (input : TaskProgramInput) : Prop :=
  id_matches (i_ID input) = true
  /\ i_Tool input <> ""%string /\ TrimSpace (i_Tool input) = i_Tool input
  /\ i_Tool input <> "message_send"%string
  /\ HasPrefix (lit (i_Tool input)) (lit "mcp__") = false
  /\ i_Input input <> []
  /\ (Z.of_nat (length (i_Input input)) <= 65536)%Z
  /\ Valid (i_Input input) = true /\ starts_object (i_Input input) = true
  /\ (i_OnError input = OnErrorFail \/ i_OnError input = OnErrorContinue).

Definition activation_ok (p : TaskProgram) : Prop :=
  let a := tp_Activation p in
  (act_Mode a = ActivationAlways /\ act_InputIDs a = []
   \/ (act_Mode a = ActivationAnyNonEmpty \/ act_Mode a = ActivationAllNonEmpty)
      /\ act_InputIDs a <> [])
  /\ NoDup (act_InputIDs a)
  /\ forall id, id ∈ act_InputIDs a ->
       exists input, input ∈ tp_Inputs p /\ i_ID input = id /\ i_Enabled input = true.

Definition decision_ok (dec : TaskProgramDecision) : Prop :=
  (length (dec_Tools dec) <= 32)%nat
  /\ ValidString (dec_Instruction dec) = true
  /\ (Z.of_nat (length (dec_Instruction dec)) <= 4000)%Z
  /\ (dec_Mode dec = DecisionSelected
      \/ dec_Mode dec = DecisionNone /\ dec_Tools dec = [] /\ dec_Instruction dec = [])
  /\ NoDup (dec_Tools dec)
  /\ forall tool, tool ∈ dec_Tools dec ->
       tool <> ""%string /\ TrimSpace tool = tool /\ tool <> "message_send"%string.

Definition quiet_ok (q : option TaskProgramQuietHours) : Prop :=
  match q with
  | None => True
  | Some q => (0 <= FromHour q <= 23)%Z /\ (0 <= ToHour q <= 23)%Z
              /\ FromHour q <> ToHour q
  end.

Definition program_ok (p : TaskProgram) : Prop :=
  tp_Schema p = TaskProgramSchemaV1
  /\ (length (tp_Inputs p) <= 32)%nat
  /\ Forall input_ok (tp_Inputs p) /\ NoDup (i_ID <$> tp_Inputs p)
  /\ activation_ok p /\ decision_ok (tp_Decision p) /\ quiet_ok (tp_QuietHours p).

(** ** Each loop against its contract *)

Lemma trimmed_iff s : trimmed s = true <-> TrimSpace s = s.
Proof. unfold trimmed. rewrite String.eqb_eq. split; congruence. Qed.

Lemma neq_iff (s t : string) : negb (String.eqb s t) = true <-> s <> t.
Proof. by rewrite negb_true_iff, String.eqb_neq. Qed.

Lemma nonempty_iff {A} (l : list A) : negb (Nat.eqb (length l) 0) = true <-> l <> [].
Proof. by destruct l. Qed.

Lemma empty_iff {A} (l : list A) : Nat.eqb (length l) 0 = true <-> l = [].
Proof. by destruct l. Qed.

Lemma fresh_iff (x : string) (X : gset string) :
  negb (bool_decide (x ∈ X)) = true <-> x ∉ X.
Proof. by rewrite negb_true_iff, bool_decide_eq_false. Qed.

Lemma on_error_iff s : on_error_ok s = true <-> s = OnErrorFail \/ s = OnErrorContinue.
Proof. unfold on_error_ok. by rewrite orb_true_iff, !String.eqb_eq. Qed.

Lemma validate_input_Ok i ids input ids' :
  validate_input i ids input = Ok ids' <->
  input_ok input /\ ids !! i_ID input = None
  /\ ids' = <[i_ID input := i_Enabled input]> ids.
Proof.
  unfold validate_input, input_ok. rewrite !guard_Ok, neq_iff, trimmed_iff.
  destruct (ids !! i_ID input) as [b|] eqn:E; [naive_solver|].
  rewrite !guard_Ok, neq_iff, nonempty_iff, negb_true_iff, Z.leb_le, on_error_iff.
  unfold TaskProgramMaxInputBytes. split.
  - intros (? & ? & ? & ? & ? & ? & ? & ? & ? & ? & [= <-]). by repeat split.
  - intros ((? & ? & ? & ? & ? & ? & ? & ? & ? & ?) & _ & ->). by repeat split.
Qed.

Lemma validate_inputs_Ok inputs : forall i ids ids',
  validate_inputs i ids inputs = Ok ids' <->
  Forall input_ok inputs /\ NoDup (i_ID <$> inputs)
  /\ (forall input, input ∈ inputs -> ids !! i_ID input = None)
  /\ ids' = fold_left (fun m x => <[i_ID x := i_Enabled x]> m) inputs ids.
Proof.
  induction inputs as [|x inputs IH]; intros i ids ids'; simpl.
  { split; [|naive_solver]. intros [= ->]. repeat split; try constructor.
    intros ? []%elem_of_nil. }
  rewrite res_bind_Ok, Forall_cons, NoDup_cons. setoid_rewrite validate_input_Ok.
  setoid_rewrite IH. split.
  - intros (m & (Hx & Hn & ->) & Hok & Hnd & Hfresh & ->).
    assert (i_ID x ∉ i_ID <$> inputs) as Hnin.
    { intros (y & Hy & Hin)%list_elem_of_fmap. specialize (Hfresh y Hin).
      by rewrite <- Hy, lookup_insert_eq in Hfresh. }
    split_and!; try done. intros y [->|Hy]%elem_of_cons; [done|].
    specialize (Hfresh y Hy). by apply lookup_insert_None in Hfresh as [? _].
  - intros ([Hx Hok] & [Hnin Hnd] & Hfresh & ->). eexists. split; [split; [done|]|].
    + split; [apply Hfresh; set_solver|done].
    + split_and!; try done. intros y Hy. apply lookup_insert_None.
      split; [apply Hfresh; set_solver|]. intros E. apply Hnin. rewrite E.
      by apply list_elem_of_fmap_2.
Qed.

Lemma enabled_index inputs : forall (m : gmap string bool) id b,
  NoDup (i_ID <$> inputs) -> (forall x, x ∈ inputs -> m !! i_ID x = None) ->
  fold_left (fun m x => <[i_ID x := i_Enabled x]> m) inputs m !! id = Some b <->
  m !! id = Some b \/ exists x, x ∈ inputs /\ i_ID x = id /\ i_Enabled x = b.
Proof.
  induction inputs as [|x inputs IH]; intros m id b Hnd Hf; simpl.
  { split; [by left|]. by intros [?|(? & []%elem_of_nil & _)]. }
  rewrite fmap_cons in Hnd. apply NoDup_cons in Hnd as [Hnin Hnd].
  pose proof (Hf x (list_elem_of_here _ _)) as Hx. rewrite IH; [|done|].
  - rewrite lookup_insert_Some. setoid_rewrite elem_of_cons. split.
    + intros [[[? ?]|[_ ?]]|(y & ? & ? & ?)]; [|by left|]; right;
        [by exists x; eauto|by exists y; eauto].
    + intros [Hm|(y & [->|Hy] & ? & ?)]; [|by left; left|by right; exists y].
      left. right. split; [|done]. intros <-. congruence.
  - intros y Hy. apply lookup_insert_None. split; [apply Hf; by right|].
    intros E. apply Hnin. rewrite E. by apply list_elem_of_fmap_2.
Qed.

Lemma validate_mode_Ok a :
  validate_mode a = Ok tt <->
  act_Mode a = ActivationAlways /\ act_InputIDs a = []
  \/ (act_Mode a = ActivationAnyNonEmpty \/ act_Mode a = ActivationAllNonEmpty)
     /\ act_InputIDs a <> [].
Proof.
  unfold validate_mode. destruct (String.eqb (act_Mode a) ActivationAlways) eqn:E.
  - apply String.eqb_eq in E. rewrite guard_Ok, empty_iff, E. split.
    + intros [? _]. by left.
    + by intros [[_ ?]|[[?|?] _]].
  - apply String.eqb_neq in E. destruct (_ || _) eqn:E'.
    + apply orb_true_iff in E' as E'. rewrite !String.eqb_eq in E'.
      rewrite guard_Ok, nonempty_iff. naive_solver.
    + apply orb_false_iff in E' as [E1%String.eqb_neq E2%String.eqb_neq]. naive_solver.
Qed.

(** A loop that rejects what it has seen before accepts lists without
    repetition. *)
Lemma fresh_scan (P : string -> Prop) x l (seen : gset string) :
  x ∉ seen /\ P x /\ NoDup l /\ (forall y, y ∈ l -> y ∉ {[x]} ∪ seen /\ P y) <->
  NoDup (x :: l) /\ (forall y, y ∈ x :: l -> y ∉ seen /\ P y).
Proof.
  rewrite NoDup_cons. setoid_rewrite elem_of_cons. split.
  - intros (? & ? & ? & Hl). split; [split; [|done]|].
    + intros [Hx _]%Hl. apply Hx. set_solver +.
    + intros y [->|Hy]; [done|]. destruct (Hl y Hy) as [Hs ?]. split; [|done].
      intros ?. apply Hs. by apply elem_of_union_r.
  - intros [[Hnin ?] Hl]. destruct (Hl x) as [? ?]; [by left|]. split_and!; try done.
    intros y Hy. destruct (Hl y) as [? ?]; [by right|]. split; [|done].
    intros [->%elem_of_singleton|?]%elem_of_union; done.
Qed.

Lemma validate_activation_Ok (m : gmap string bool) ids : forall seen,
  validate_activation m seen ids = Ok tt <->
  NoDup ids /\ (forall id, id ∈ ids -> id ∉ seen /\ (id <> ""%string
    /\ TrimSpace id = id /\ m !! id = Some true)).
Proof.
  induction ids as [|id ids IH]; intros seen; simpl.
  { split; [|done]. intros _. split; [constructor|by intros ? ?%elem_of_nil]. }
  rewrite <- fresh_scan, !guard_Ok, neq_iff, trimmed_iff, fresh_iff.
  destruct (m !! id) as [[]|] eqn:E; [rewrite IH; tauto| |];
    (split; [rewrite ?guard_Ok; by intros (? & ? & ? & ?)|]);
    intros (_ & (_ & _ & ?) & _); congruence.
Qed.

Lemma validate_decision_Ok dec :
  validate_decision dec = Ok tt <->
  (length (dec_Tools dec) <= 32)%nat
  /\ ValidString (dec_Instruction dec) = true
  /\ (Z.of_nat (length (dec_Instruction dec)) <= 4000)%Z
  /\ (dec_Mode dec = DecisionSelected
      \/ dec_Mode dec = DecisionNone /\ dec_Tools dec = [] /\ dec_Instruction dec = []).
Proof.
  unfold validate_decision. rewrite !guard_Ok, Nat.leb_le, Z.leb_le.
  unfold TaskProgramMaxDecisionTools, TaskProgramMaxDecisionInstructionBytes.
  assert (forall A B C D D', (D <-> D') -> (A /\ B /\ C /\ D <-> A /\ B /\ C /\ D')) as Hi
    by tauto.
  apply Hi. destruct (String.eqb (dec_Mode dec) DecisionSelected) eqn:E.
  - apply String.eqb_eq in E. naive_solver.
  - apply String.eqb_neq in E.
    destruct (String.eqb (dec_Mode dec) DecisionNone) eqn:E'.
    + apply String.eqb_eq in E'. rewrite !guard_Ok, !empty_iff. naive_solver.
    + apply String.eqb_neq in E'. naive_solver.
Qed.

Lemma validate_tools_Ok tools : forall i seen,
  validate_tools i seen tools = Ok tt <->
  NoDup tools /\ (forall tool, tool ∈ tools -> tool ∉ seen /\ (tool <> ""%string
    /\ TrimSpace tool = tool /\ tool <> "message_send"%string)).
Proof.
  induction tools as [|tool tools IH]; intros i seen; simpl.
  { split; [|done]. intros _. split; [constructor|by intros ? ?%elem_of_nil]. }
  rewrite <- fresh_scan, !guard_Ok, !neq_iff, trimmed_iff, fresh_iff, IH. tauto.
Qed.

Lemma validate_quiet_Ok q : validate_quiet q = Ok tt <-> quiet_ok q.
Proof.
  destruct q as [[f t]|]; simpl; [|done].
  rewrite !guard_Ok, negb_true_iff, Z.eqb_neq. unfold hour_ok.
  rewrite !andb_true_iff, !Z.leb_le. naive_solver.
Qed.

(** An identifier the pattern accepts is not empty and has no white space. *)
Lemma id_char_graphic c :
  alnum c || Ascii.eqb c "_"%char || Ascii.eqb c "-"%char = true -> graphic c.
Proof. by destruct c as [[] [] [] [] [] [] [] []]. Qed.

Lemma id_matches_chars id :
  id_matches id = true ->
  id <> ""%string
  /\ Forall (fun c => alnum c || Ascii.eqb c "_"%char || Ascii.eqb c "-"%char = true) (lit id).
Proof.
  unfold id_matches. destruct (lit id) as [|c l] eqn:E; [done|].
  intros [[Hc _]%andb_true_iff Hl]%andb_true_iff. split; [by intros ->|].
  constructor; [by rewrite Hc|]. by apply forallb_Forall.
Qed.

Lemma id_trimmed id : id_matches id = true -> TrimSpace id = id.
Proof.
  intros [_ H]%id_matches_chars. apply (Forall_impl _ graphic) in H; [|exact id_char_graphic].
  apply Forall_graphic_ends in H as [Hl Hr].
  unfold TrimSpace. rewrite TrimSpace_b_graphic by done. apply str_lit.
Qed.

Lemma index_enabled inputs id :
  NoDup (i_ID <$> inputs) ->
  fold_left (fun (m : gmap string bool) x => <[i_ID x := i_Enabled x]> m) inputs ∅ !! id
    = Some true <->
  exists input, input ∈ inputs /\ i_ID input = id /\ i_Enabled input = true.
Proof.
  intros Hnd. rewrite enabled_index, lookup_empty by done. split; [|by right].
  by intros [?|?].
Qed.

Lemma activation_Ok p ids :
  Forall input_ok (tp_Inputs p) -> NoDup (i_ID <$> tp_Inputs p) ->
  ids = fold_left (fun (m : gmap string bool) x => <[i_ID x := i_Enabled x]> m) (tp_Inputs p) ∅ ->
  validate_mode (tp_Activation p) = Ok tt
  /\ validate_activation ids ∅ (act_InputIDs (tp_Activation p)) = Ok tt
  <-> activation_ok p.
Proof.
  intros Hok Hnd ->. unfold activation_ok.
  rewrite validate_mode_Ok, validate_activation_Ok.
  split; intros (Hm & Hn & Hids); split_and!; try done; intros id Hid.
  - destruct (Hids id Hid) as (_ & _ & _ & He). by apply index_enabled.
  - destruct (Hids id Hid) as (input & Hin & <- & He).
    rewrite Forall_forall in Hok. destruct (Hok input Hin) as [Hmatch _].
    split_and!; [by apply not_elem_of_empty|by apply id_matches_chars|
      by apply id_trimmed|].
    apply index_enabled; [done|]. by exists input.
Qed.

Lemma decision_Ok dec :
  validate_decision dec = Ok tt /\ validate_tools 0 ∅ (dec_Tools dec) = Ok tt
  <-> decision_ok dec.
Proof.
  unfold decision_ok. rewrite validate_decision_Ok, validate_tools_Ok.
  assert (forall (x : string) (A : Prop), x ∉ (∅ : gset string) /\ A <-> A) as Hd.
  { intros x A. split; [by intros [_ ?]|]. split; [apply not_elem_of_empty|done]. }
  setoid_rewrite Hd. tauto.
Qed.

(** C33: [Validate] accepts a task program exactly when it satisfies the
    declarative contract: the v1 schema, at most 32 inputs with distinct
    well-formed identifiers, trimmed non-notification non-MCP tools, object
    arguments of at most 64 KiB and a known error policy, an activation that
    names distinct enabled inputs when its mode needs them, at most 32
    distinct decision tools (none for mode none), a UTF-8 instruction of at
    most 4000 bytes and a proper quiet window. *)
Theorem Validate_iff (p : TaskProgram) : Validate p = Ok tt <-> program_ok p.
Proof.
  unfold Validate, program_ok.
  rewrite !guard_Ok, String.eqb_eq, Nat.leb_le, res_bind_Ok.
  setoid_rewrite validate_inputs_Ok. setoid_rewrite res_bind_Ok.
  setoid_rewrite res_bind_Ok. setoid_rewrite res_bind_Ok. setoid_rewrite res_bind_Ok.
  setoid_rewrite validate_quiet_Ok. unfold TaskProgramMaxInputs. split.
  - intros (? & ? & m & (Hok & Hnd & _ & Hm) & [] & ? & [] & ? & [] & ? & [] & ? & ?).
    split_and!; try done; [by apply (activation_Ok p m)|by apply decision_Ok].
  - intros (? & ? & Hok & Hnd & Ha & Hd & ?).
    eapply (activation_Ok p _ Hok Hnd eq_refl) in Ha as [? ?].
    apply decision_Ok in Hd as [? ?]. split_and!; [done..|].
    eexists. split.
    + split_and!; [done|done| |reflexivity]. intros. apply lookup_empty.
    + repeat (exists tt; split; [done|]). done.
Qed.

(** ** RequestedTools *)

Definition declared_tools (p : TaskProgram) : list string :=
  enabled_tools (tp_Inputs p)
  ++ if String.eqb (dec_Mode (tp_Decision p)) DecisionSelected
     then dec_Tools (tp_Decision p) else [].

Lemma fold_appendTool tools : forall acc,
  acc.1 = list_to_set acc.2 -> NoDup acc.2 ->
  exists new, (fold_left appendTool tools acc).2 = acc.2 ++ new
    /\ (fold_left appendTool tools acc).1 = list_to_set (acc.2 ++ new)
    /\ new `sublist_of` tools /\ NoDup (acc.2 ++ new)
    /\ (forall t, t ∈ new <-> t ∈ tools /\ t <> ""%string /\ t ∉ acc.2).
Proof.
  induction tools as [|t tools IH]; intros [seen out] Hs Hnd; simpl in *.
  { exists []. rewrite app_nil_r. split_and!; try done.
    intros t. rewrite elem_of_nil. tauto. }
  unfold appendTool at 2 4. simpl. destruct (String.eqb t "") eqn:Et; simpl.
  { destruct (IH (seen, out) Hs Hnd) as (new & ? & ? & ? & ? & H).
    exists new. split_and!; try done; [by constructor|].
    intros t'. rewrite H, elem_of_cons. apply String.eqb_eq in Et as ->. simpl.
    naive_solver. }
  apply String.eqb_neq in Et. case_bool_decide as Hin; simpl.
  { destruct (IH (seen, out) Hs Hnd) as (new & ? & ? & ? & ? & H).
    exists new. split_and!; try done; [by constructor|].
    intros t'. rewrite H, elem_of_cons. rewrite Hs in Hin.
    apply elem_of_list_to_set in Hin. simpl. naive_solver. }
  rewrite Hs in Hin. rewrite elem_of_list_to_set in Hin.
  destruct (IH ({[t]} ∪ seen, out ++ [t])) as (new & E & E' & ? & ? & H); simpl in *.
  - subst seen. rewrite list_to_set_app_L. simpl. rewrite union_empty_r_L. by rewrite union_comm_L.
  - apply NoDup_app. split_and!; [done| |apply NoDup_singleton].
    intros x Hx ->%list_elem_of_singleton. done.
  - exists (t :: new). rewrite E, E', <- !app_assoc in *. simpl in *.
    split_and!; try done; [by constructor|].
    intros t'. rewrite !elem_of_cons, H, elem_of_app, list_elem_of_singleton.
    destruct (decide (t' = t)) as [->|]; naive_solver.
Qed.

(** [RequestedTools] lists exactly the tools the program can run (the
    tools of its enabled inputs and, in mode selected, its decision tools),
    each once and in declaration order. *)
Theorem RequestedTools_spec (p : TaskProgram) :
  NoDup (RequestedTools p)
  /\ RequestedTools p `sublist_of` declared_tools p
  /\ forall t, t ∈ RequestedTools p <-> t <> ""%string /\
       ((exists input, input ∈ tp_Inputs p /\ i_Enabled input = true /\ i_Tool input = t)
        \/ dec_Mode (tp_Decision p) = DecisionSelected /\ t ∈ dec_Tools (tp_Decision p)).
Proof.
  assert (RequestedTools p = (fold_left appendTool (declared_tools p) (∅, [])).2) as ->.
  { unfold RequestedTools, declared_tools. rewrite fold_left_app.
    by destruct (String.eqb _ _). }
  pose proof (fold_appendTool (declared_tools p) (∅, [])) as H.
  destruct H as (new & Enew & _ & Hsub & Hnd & Hin); [done|constructor|].
  rewrite Enew.
  simpl in *. split_and!; [done|done|]. intros t. rewrite Hin. unfold declared_tools, enabled_tools.
  rewrite elem_of_app, list_elem_of_fmap, elem_of_nil.
  assert (t ∈ (if String.eqb (dec_Mode (tp_Decision p)) DecisionSelected
               then dec_Tools (tp_Decision p) else [])
          <-> dec_Mode (tp_Decision p) = DecisionSelected /\ t ∈ dec_Tools (tp_Decision p)) as ->.
  { destruct (String.eqb _ _) eqn:E.
    - apply String.eqb_eq in E. tauto.
    - apply String.eqb_neq in E. rewrite elem_of_nil. tauto. }
  setoid_rewrite list_elem_of_In. setoid_rewrite List.filter_In. naive_solver.
Qed.

(** ** Witness *)

Definition demo_object : bytes := [chr 123; chr 125].

Definition demo_program : TaskProgram :=
  MkProgram TaskProgramSchemaV1
    [MkInput "mail" "mail_list" demo_object true OnErrorContinue;
     MkInput "notes" "note_list" demo_object false OnErrorFail]
    (MkActivation ActivationAnyNonEmpty ["mail"])
    (MkDecision DecisionSelected ["mail_read"; "mail_list"] [])
    (Some (MkQuiet 23 7)).

Example demo_program_valid : Validate demo_program = Ok tt.
Proof. vm_compute. reflexivity. Qed.

Example demo_program_tools :
  RequestedTools demo_program = ["mail_list"; "mail_read"]%string.
Proof. reflexivity. Qed.
