(* ===== verification/ProgramFilter.v ===== *)
(** * ProgramFilter: correctness of the delivery filter

    The filter of TaskProgramRun against the values the provider returned:
    [collect k v] is the list of all values of a field named [k] anywhere in
    [v].  The lemmas follow the filter: what [delivery_shape] accepts and what
    it offers, what [withhold] keeps, and that a decoded document has no
    repeated key. *)

From Stdlib Require Import Ascii String.
From S2P Require Import Prelude GoStrings Json GoJson Task Store Journal TaskProgram TaskProgramRun.

(** ** All values of a field *)

Fixpoint collect (k : string) (v : json) : list json :=
  match v with
  | JObj fs =>
      flat_map (fun p => (if String.eqb k (fst p) then [snd p] else [])
                         ++ collect k (snd p)) fs
  | JArr l => flat_map (collect k) l
  | _ => []
  end.

(** Decoded objects have distinct keys. *)
Fixpoint distinct_keys (v : json) : Prop :=
  match v with
  | JObj fs => NoDup fs.*1 /\ fold_right (fun p P => distinct_keys (snd p) /\ P) True fs
  | JArr l => fold_right (fun x P => distinct_keys x /\ P) True l
  | _ => True
  end.

Definition json_nested_ind (P : json -> Prop)
    (Hnull : P JNull) (Hbool : forall v, P (JBool v)) (Hnum : forall s, P (JNum s))
    (Hstr : forall s, P (JStr s))
    (Harr : forall l, Forall P l -> P (JArr l))
    (Hobj : forall fs, Forall (fun p => P (snd p)) fs -> P (JObj fs)) :
    forall v, P v :=
  fix go v :=
    match v with
    | JNull => Hnull
    | JBool x => Hbool x
    | JNum s => Hnum s
    | JStr s => Hstr s
    | JArr l => Harr l (list_ind (Forall P) (Forall_nil_2 P)
        (fun x l H => Forall_cons_2 P x l (go x) H) l)
    | JObj fs => Hobj fs (list_ind (Forall (fun p => P (snd p))) (Forall_nil_2 _)
        (fun p fs H => Forall_cons_2 (fun p => P (snd p)) p fs (go (snd p)) H) fs)
    end.

Lemma flat_map_nil {A B} (f : A -> list B) l :
  flat_map f l = [] <-> Forall (fun x => f x = []) l.
Proof.
  induction l as [|x l IH]; simpl; [by split|].
  rewrite Forall_cons, <- IH. apply app_nil.
Qed.

Lemma mentions_collect k v : mentions k v = false <-> collect k v = [].
Proof.
  induction v as [| | | |l IH|fs IH] using json_nested_ind; simpl; try done.
  - rewrite existsb_false_Forall, flat_map_nil.
    induction IH as [|x l Hx _ IHl]; [done|]. rewrite !Forall_cons. tauto.
  - rewrite orb_false_iff, flat_map_nil. unfold has_key.
    rewrite !existsb_false_Forall.
    induction IH as [|[k' x] fs Hx _ IHl]; [done|]. rewrite !Forall_cons, app_nil.
    simpl in *. destruct (String.eqb k k'); [|tauto].
    split; [by intros [[? _] _]|by intros [[? _] _]].
Qed.

Lemma contains_collect v :
  taskProgramContainsItemKey v = false <-> collect "item_key" v = [].
Proof. apply mentions_collect. Qed.

Lemma has_key_assoc k fs : has_key k fs = false <-> assoc k fs = None.
Proof.
  unfold has_key, assoc. induction fs as [|[k' x] fs IH]; simpl; [done|].
  destruct (String.eqb k k'); simpl; [done|exact IH].
Qed.

(** ** Objects whose other fields do not mention the key *)

Definition others_free (k w : string) (fs : list (string * json)) : Prop :=
  Forall (fun p => fst p <> w -> collect k (snd p) = []) fs.

Lemma collect_absent k fs :
  assoc k fs = None -> Forall (fun p => collect k (snd p) = []) fs ->
  collect k (JObj fs) = [].
Proof.
  intros Ha Hf. simpl. apply flat_map_nil. induction Hf as [|[k' x] fs Hx _ IH]; [done|].
  rewrite assoc_cons in Ha. constructor; simpl in *; destruct (String.eqb k k'); try done.
  by apply IH.
Qed.

Lemma collect_own k fs :
  NoDup fs.*1 -> others_free k k fs ->
  collect k (JObj fs) = match assoc k fs with
                        | Some x => x :: collect k x
                        | None => []
                        end.
Proof.
  intros Hnd Hf. unfold others_free in Hf. induction Hf as [|[k' x] fs Hx Hf IH]; [done|].
  rewrite fmap_cons in Hnd. apply NoDup_cons in Hnd as [Hnin Hnd]. simpl in *.
  rewrite assoc_cons. destruct (String.eqb k k') eqn:E.
  - apply String.eqb_eq in E as <-. simpl. f_equal.
    assert (collect k (JObj fs) = []) as Hc.
    { apply collect_absent; [by apply assoc_None|].
      rewrite Forall_forall in Hf |- *. intros p Hp. apply (Hf p Hp).
      intros <-. apply Hnin. by apply list_elem_of_fmap_2. }
    simpl in Hc. by rewrite Hc, app_nil_r.
  - apply String.eqb_neq in E. rewrite Hx by congruence. by apply IH.
Qed.

Lemma collect_wrapped k w fs :
  NoDup fs.*1 -> assoc k fs = None -> others_free k w fs ->
  collect k (JObj fs) = match assoc w fs with Some x => collect k x | None => [] end.
Proof.
  intros Hnd Ha Hf. unfold others_free in Hf. induction Hf as [|[k' x] fs Hx Hf IH]; [done|].
  rewrite fmap_cons in Hnd. apply NoDup_cons in Hnd as [Hnin Hnd]. simpl in *.
  rewrite !assoc_cons in *. destruct (String.eqb k k') eqn:Ek; [done|]. simpl.
  destruct (String.eqb w k') eqn:E.
  - apply String.eqb_eq in E as <-.
    assert (collect k (JObj fs) = []) as Hc.
    { apply collect_absent; [done|].
      rewrite Forall_forall in Hf |- *. intros p Hp. apply (Hf p Hp).
      intros <-. apply Hnin. by apply list_elem_of_fmap_2. }
    simpl in Hc. by rewrite Hc, app_nil_r.
  - apply String.eqb_neq in E. rewrite Hx by congruence. by apply IH.
Qed.

Lemma collect_app_fields k (a b : list (string * json)) :
  collect k (JObj (a ++ b)) = collect k (JObj a) ++ collect k (JObj b).
Proof. simpl. apply flat_map_app. Qed.

Lemma collect_remove_incl k w fs : collect k (JObj fs) = [] -> collect k (JObj (remove_key w fs)) = [].
Proof.
  simpl. rewrite !flat_map_nil, !Forall_forall. intros H p Hp. apply H.
  apply list_elem_of_In in Hp. unfold remove_key in Hp. apply List.filter_In in Hp as [Hp _].
  by apply list_elem_of_In.
Qed.

Lemma remove_key_elem k (fs : list (string * json)) p :
  p ∈ remove_key k fs <-> p ∈ fs /\ fst p <> k.
Proof.
  unfold remove_key. rewrite !list_elem_of_In, List.filter_In, negb_true_iff, String.eqb_neq.
  split; intros [? ?]; (split; [done|congruence]).
Qed.

Lemma collect_remove_own k fs : others_free k k fs -> collect k (JObj (remove_key k fs)) = [].
Proof.
  intros Hf. apply collect_absent; [apply assoc_remove_eq|].
  unfold others_free in Hf. rewrite Forall_forall in *.
  intros p [Hp Hne]%remove_key_elem. by apply Hf.
Qed.

Lemma collect_attach k t fs :
  collect k (JObj fs) = [] ->
  collect k (attach_ref t (JObj fs))
  = if String.eqb k "_delivery_ref" then [JStr t] else [].
Proof.
  intros H. unfold attach_ref, set_key.
  rewrite collect_app_fields, (collect_remove_incl _ _ _ H). simpl.
  by rewrite !app_nil_r.
Qed.

(** ** Candidates *)

Definition NoDupKeys (v : json) : Prop :=
  match v with JObj fs => NoDup fs.*1 | _ => True end.

(** The key [k] is that of an item of the value. *)
Definition offers (found : list json) (k : string) : Prop :=
  exists s, JStr s ∈ found /\ TrimSpace s = k.

Lemma offers_app a b k : offers (a ++ b) k <-> offers a k \/ offers b k.
Proof. unfold offers. setoid_rewrite elem_of_app. naive_solver. Qed.

(** An item of a delivery array: identities only at its top. *)
Definition item_shape (v : json) : Prop :=
  NoDupKeys v /\ collect "_delivery_ref" v = [] /\
  match v with
  | JObj fs => others_free "item_key" "item_key" fs
  | _ => collect "item_key" v = []
  end.

Lemma free_fields (k w : string) (g : string -> bool) fs :
  (forall x, x <> w -> g x = true) ->
  existsb (fun p => g (fst p) && taskProgramContainsItemKey (snd p)) fs = false ->
  others_free "item_key" w fs.
Proof.
  intros Hg H. unfold others_free. apply existsb_false_Forall in H.
  eapply Forall_impl; [exact H|]. intros p Hp Hne.
  cbv beta in Hp. rewrite (Hg _ Hne) in Hp. by apply contains_collect.
Qed.

Lemma own_fields fs :
  existsb (fun p => negb (String.eqb (fst p) "item_key")
                    && taskProgramContainsItemKey (snd p)) fs = false ->
  others_free "item_key" "item_key" fs.
Proof.
  apply (free_fields "item_key" _ (fun x => negb (String.eqb x "item_key"))).
  intros x Hx. by apply negb_true_iff, String.eqb_neq.
Qed.

Lemma taskProgramItemKey_Some fs k :
  taskProgramItemKey fs = Ok (Some k) ->
  exists s, assoc "item_key" fs = Some (JStr s) /\ k = TrimSpace s /\ k <> ""%string
    /\ (String.length k <= 512)%nat.
Proof.
  unfold taskProgramItemKey. destruct (assoc _ fs) as [[]|] eqn:E; try done.
  rewrite !guard_Ok, negb_true_iff, String.eqb_neq, Nat.leb_le.
  intros (Hne & Hlen & [= <-]). by exists s.
Qed.

Lemma taskProgramItemKey_None fs :
  taskProgramItemKey fs = Ok None -> assoc "item_key" fs = None.
Proof.
  unfold taskProgramItemKey. destruct (assoc _ fs) as [[]|]; try done.
  rewrite !guard_Ok. by intros (_ & _ & ?).
Qed.

Lemma array_has_shape items : forall b b',
  array_has_key b items = Ok b' ->
  Forall NoDupKeys items -> Forall (fun v => collect "_delivery_ref" v = []) items ->
  Forall item_shape items
  /\ (b' = false -> b = false /\ Forall (fun v => collect "item_key" v = []) items).
Proof.
  induction items as [|v items IH]; intros b b' H Hnd Hr; simpl in H.
  { injection H as <-. by split. }
  apply Forall_cons in Hnd as [Hn Hnd]. apply Forall_cons in Hr as [Hv Hr].
  assert ((exists fs, v = JObj fs /\ others_free "item_key" "item_key" fs /\
             array_has_key (b || has_key "item_key" fs) items = Ok b')
          \/ (match v with JObj _ => False | _ => True end) /\
             collect "item_key" v = [] /\ array_has_key b items = Ok b') as Hcase.
  { destruct v as [| | | | |fs]; try (right; apply guard_Ok in H as [Hc H];
      apply negb_true_iff, contains_collect in Hc; by split_and!).
    left. apply guard_Ok in H as [Hc H]. apply negb_true_iff, own_fields in Hc. by exists fs. }
  destruct Hcase as [(fs & -> & Ho & H')|(Hne & Hc & H')].
  - destruct (IH _ _ H' Hnd Hr) as [Hs Hb]. split; [by constructor|].
    intros [[-> Hk]%orb_false_iff Hf]%Hb. split; [done|]. constructor; [|done].
    apply has_key_assoc in Hk. by rewrite collect_own, Hk by done.
  - destruct (IH _ _ H' Hnd Hr) as [Hs Hb]. split.
    + constructor; [|done]. split_and!; [done..|]. by destruct v.
    + intros [-> Hf]%Hb. split; [done|by constructor].
Qed.

(** What the filter knows of a candidate: its value carries no identity, and
    a keyed one is an object. *)
Definition candidate_clean (c : taskProgramDeliveryCandidate) : Prop :=
  collect "item_key" (dc_value c) = [] /\ collect "_delivery_ref" (dc_value c) = []
  /\ match dc_ref c with
     | Some r => (exists fs, dc_value c = JObj fs) /\ ItemKey r <> ""%string
                 /\ TrimSpace (ItemKey r) = ItemKey r /\ (String.length (ItemKey r) <= 512)%nat
     | None => True
     end.

Lemma keyed_clean id fs k s :
  others_free "item_key" "item_key" fs -> collect "_delivery_ref" (JObj fs) = [] ->
  k = TrimSpace s -> k <> ""%string -> (String.length k <= 512)%nat ->
  candidate_clean (MkCandidate (taskProgramVisibleItem fs) (Some (MkRef id k))).
Proof.
  intros Ho Hr -> Hne Hlen. unfold candidate_clean, taskProgramVisibleItem. simpl dc_value. simpl dc_ref. cbn [ItemKey].
  split_and!; [by apply collect_remove_own|by apply collect_remove_incl|by eexists|done|
    by rewrite TrimSpace_idem|done].
Qed.

Lemma offers_own fs k s :
  NoDup fs.*1 -> others_free "item_key" "item_key" fs ->
  assoc "item_key" fs = Some (JStr s) ->
  offers (collect "item_key" (JObj fs)) k <-> k = TrimSpace s.
Proof.
  intros Hnd Ho Ha. rewrite collect_own, Ha by done. simpl. unfold offers.
  setoid_rewrite list_elem_of_singleton. split.
  - by intros (? & [= ->] & <-).
  - intros ->. by exists s.
Qed.

Definition candidates_spec (id : string) (seen : gset string) (found : list json)
    (cs : list taskProgramDeliveryCandidate) : Prop :=
  Forall candidate_clean cs /\ NoDup (omap dc_ref cs)
  /\ Forall (fun x => exists s, x = JStr s) found
  /\ forall r, r ∈ omap dc_ref cs <->
       InputID r = id /\ offers found (ItemKey r) /\ ItemKey r ∉ seen.

Lemma candidates_unkeyed id seen v items cs :
  collect "item_key" v = [] -> collect "_delivery_ref" v = [] ->
  candidates_spec id seen (flat_map (collect "item_key") items) cs ->
  candidates_spec id seen (flat_map (collect "item_key") (v :: items))
    (MkCandidate v None :: cs).
Proof.
  intros Hk Hd (Hc & Hn & Hstr & H). simpl. rewrite Hk.
  split_and!; [by constructor|done|done|]. apply H.
Qed.

Lemma strings_own fs s :
  NoDup fs.*1 -> others_free "item_key" "item_key" fs ->
  assoc "item_key" fs = Some (JStr s) ->
  collect "item_key" (JObj fs) = [JStr s].
Proof. intros Hnd Ho Ha. by rewrite collect_own, Ha. Qed.

Lemma delivery_candidates_spec id items : forall seen cs,
  Forall item_shape items -> delivery_candidates id seen items = Ok cs ->
  candidates_spec id seen (flat_map (collect "item_key") items) cs.
Proof.
  induction items as [|v items IH]; intros seen cs Hs H; simpl in H.
  { injection H as <-. split_and!; [constructor|constructor|constructor|].
    intros r. simpl. rewrite elem_of_nil. split; [done|].
    by intros (_ & (? & ?%elem_of_nil & _) & _). }
  apply Forall_cons in Hs as [(Hnd & Hr & Hv) Hs].
  destruct v as [| | | | |fs];
    try (apply res_bind_Ok in H as (l & Hl & [= <-]);
         by apply candidates_unkeyed, IH).
  apply res_bind_Ok in H as ([k|] & Hk & H).
  - apply taskProgramItemKey_Some in Hk as (s & Ha & Hks & Hne & Hlen).
    pose proof (fun x => offers_own fs x s Hnd Hv Ha) as Hown.
    case_bool_decide as Hin.
    + destruct (IH _ _ Hs H) as (Hc & Hn & Hstr & Hr'). split_and!; [done|done| |].
      { cbn [flat_map]. rewrite (strings_own fs s) by done. constructor; [by exists s|done]. }
      intros r. rewrite Hr'. cbn [flat_map]. rewrite offers_app, Hown.
      clear -Hin Hks. subst k. split; [tauto|].
      intros (? & [E|?] & Hn); [by rewrite E in Hn|done].
    + apply res_bind_Ok in H as (l & Hl & [= <-]).
      destruct (IH _ _ Hs Hl) as (Hc & Hn & Hstr & Hr'). split_and!.
      * constructor; [by eapply keyed_clean|done].
      * simpl. constructor; [|done]. rewrite Hr'. simpl. set_solver +.
      * cbn [flat_map]. rewrite (strings_own fs s) by done. constructor; [by exists s|done].
      * intros r. simpl omap. rewrite elem_of_cons, Hr'. cbn [flat_map].
        rewrite offers_app, Hown, elem_of_union, elem_of_singleton.
        destruct r as [i kk]. cbn [InputID ItemKey]. clear -Hin Hks. subst k.
        set (t := TrimSpace s) in *. clearbody t. split.
        -- intros [[= -> ->]|(? & ? & ?)]; [by split_and!; [|left|]|].
           split_and!; [done|by right|tauto].
        -- intros (-> & Ho & Hn). destruct (decide (kk = t)) as [->|]; [by left|].
           right. split_and!; [done|tauto|tauto].
  - apply taskProgramItemKey_None in Hk. apply res_bind_Ok in H as (l & Hl & [= <-]).
    apply candidates_unkeyed; [|done|by apply IH].
    by rewrite collect_own, Hk.
Qed.

(** ** Shapes *)

Definition shape_spec (id : string) (v : json) (sh : shape) : Prop :=
  candidates_spec id ∅ (collect "item_key" v) (candidates_of sh)
  /\ forall remaining, length remaining <= length (candidates_of sh) ->
       flat_map (collect "item_key") remaining = [] ->
       collect "item_key" (rebuild sh remaining) = []
       /\ collect "_delivery_ref" (rebuild sh remaining)
          = flat_map (collect "_delivery_ref") remaining.

Lemma plain_spec id v : collect "item_key" v = [] -> shape_spec id v Plain.
Proof.
  intros H. split.
  - split_and!; [constructor|constructor|by rewrite H|]. intros r. simpl. rewrite elem_of_nil, H.
    split; [done|]. by intros (_ & (? & ?%elem_of_nil & _) & _).
  - intros [|]; [done|simpl; lia].
Qed.

Lemma distinct_items l : distinct_keys (JArr l) -> Forall NoDupKeys l.
Proof.
  simpl. induction l as [|v l IH]; simpl; [constructor|]. intros [Hv Hl].
  constructor; [|by apply IH]. by destruct v as [| | | | |fs]; [..|destruct Hv].
Qed.

Lemma distinct_child fs k v : distinct_keys (JObj fs) -> assoc k fs = Some v -> distinct_keys v.
Proof.
  simpl. intros [_ H] Ha. induction fs as [|[k' x] fs IH]; [done|]. simpl in H.
  rewrite assoc_cons in Ha. destruct H as [Hx H].
  destruct (String.eqb k k'); [by simplify_eq|by apply IH].
Qed.

Lemma assoc_elem {A} k (fs : list (string * A)) v : assoc k fs = Some v -> (k, v) ∈ fs.
Proof.
  induction fs as [|[k' x] fs IH]; [done|]. rewrite assoc_cons.
  destruct (String.eqb k k') eqn:E.
  - apply String.eqb_eq in E as <-. intros [= <-]. by left.
  - intros H. right. by apply IH.
Qed.

Lemma elem_assoc {A} k (fs : list (string * A)) v :
  NoDup fs.*1 -> (k, v) ∈ fs -> assoc k fs = Some v.
Proof.
  induction fs as [|[k' x] fs IH]; intros Hnd Hin; [by apply elem_of_nil in Hin|].
  rewrite fmap_cons in Hnd. apply NoDup_cons in Hnd as [Hnin Hnd].
  rewrite assoc_cons. apply elem_of_cons in Hin as [[= -> ->]|Hin]; [by rewrite String.eqb_refl|].
  destruct (String.eqb k k') eqn:E; [|by apply IH].
  apply String.eqb_eq in E as ->. destruct Hnin. by apply (list_elem_of_fmap_2 fst _ (k', v)).
Qed.

Lemma child_free k fs x v :
  collect k (JObj fs) = [] -> assoc x fs = Some v -> collect k v = [].
Proof.
  simpl. rewrite flat_map_nil, Forall_forall. intros H Ha%assoc_elem.
  specialize (H _ Ha). simpl in H. by apply app_nil in H as [_ ?].
Qed.

Lemma items_free k l : collect k (JArr l) = [] -> Forall (fun v => collect k v = []) l.
Proof. simpl. by rewrite flat_map_nil. Qed.

(** The envelopes scan: all listed fields but the keyed ones are free, and
    the items of a keyed one are well placed. *)
Lemma keyed_envelopes_spec fs fields : forall keyed,
  distinct_keys (JObj fs) -> collect "_delivery_ref" (JObj fs) = [] ->
  keyed_envelopes fs fields = Ok keyed ->
  (forall k items, (k, items) ∈ keyed -> assoc k fs = Some (JArr items)
     /\ Forall item_shape items)
  /\ forall k v, k ∈ fields -> assoc k fs = Some v -> k ∉ keyed.*1 -> collect "item_key" v = [].
Proof.
  induction fields as [|f fields IH]; intros keyed Hd Hr H; simpl in H.
  { injection H as <-. split; [by intros ? ? ?%elem_of_nil|by intros ? ? ?%elem_of_nil]. }
  destruct (assoc f fs) as [v|] eqn:Ha.
  - assert ((exists items direct l, v = JArr items /\ array_has_key false items = Ok direct
               /\ keyed_envelopes fs fields = Ok l
               /\ keyed = if (direct : bool) then (f, items) :: l else l)
            \/ collect "item_key" v = [] /\ keyed_envelopes fs fields = Ok keyed) as Hcase.
    { destruct v; try (right; apply guard_Ok in H as [Hc H];
        by apply negb_true_iff, contains_collect in Hc).
      left. apply res_bind_Ok in H as (direct & Hdir & H).
      apply res_bind_Ok in H as (l & Hl & [= <-]). by exists items, direct, l. }
    destruct Hcase as [(items & direct & l & -> & Hdir & Hl & ->)|[Hfree Hl]].
    + destruct (IH _ Hd Hr Hl) as [Hk Hf].
      apply array_has_shape in Hdir as [Hs Hb];
        [|by eapply distinct_items, distinct_child|by eapply items_free, child_free].
      split.
      * intros k its. destruct direct; [|by apply Hk].
        intros [[= -> ->]|Hin]%elem_of_cons; [done|by apply Hk].
      * intros k v Hin Hv Hnk. apply elem_of_cons in Hin as [->|Hin].
        -- rewrite Ha in Hv. injection Hv as <-. destruct direct.
           { destruct Hnk. rewrite fmap_cons. by left. }
           simpl. apply flat_map_nil. by apply Hb.
        -- apply (Hf k); [done|done|]. destruct direct; [|done].
           rewrite fmap_cons, not_elem_of_cons in Hnk. by destruct Hnk.
    + destruct (IH _ Hd Hr Hl) as [Hk Hf]. split; [done|].
      intros k v' [->|Hin]%elem_of_cons Hv Hnk; [congruence|by eapply Hf].
  - destruct (IH _ Hd Hr H) as [Hk Hf]. split; [done|].
    intros k v' [->|Hin]%elem_of_cons Hv Hnk; [congruence|by eapply Hf].
Qed.

Lemma free_no_key k fs : collect k (JObj fs) = [] -> assoc k fs = None.
Proof.
  intros H%mentions_collect. simpl in H. apply orb_false_iff in H as [H _].
  by apply has_key_assoc.
Qed.

Lemma free_remove k w fs :
  assoc k fs = None -> others_free k w fs -> collect k (JObj (remove_key w fs)) = [].
Proof.
  intros Ha Hf. apply collect_absent.
  - apply assoc_None. apply assoc_None in Ha. intros (p & Hp & Hin)%list_elem_of_fmap.
    apply remove_key_elem in Hin as [Hin _]. apply Ha. subst k. by apply list_elem_of_fmap_2.
  - unfold others_free in Hf. rewrite Forall_forall in *.
    intros p [Hp Hne]%remove_key_elem. by apply Hf.
Qed.

Lemma collect_set k w fs l :
  k <> w -> collect k (JObj (remove_key w fs)) = [] ->
  collect k (JObj (set_key w (JArr l) fs)) = flat_map (collect k) l.
Proof.
  intros Hne H. unfold set_key. rewrite collect_app_fields, H. simpl.
  apply String.eqb_neq in Hne. by rewrite Hne, app_nil_r.
Qed.

Lemma single_spec id typed k :
  distinct_keys (JObj typed) -> collect "_delivery_ref" (JObj typed) = [] ->
  others_free "item_key" "item_key" typed -> taskProgramItemKey typed = Ok (Some k) ->
  shape_spec id (JObj typed)
    (Single (MkCandidate (taskProgramVisibleItem typed) (Some (MkRef id k)))).
Proof.
  intros [Hnd _] Hr Ho (s & Ha & -> & Hne & Hlen)%taskProgramItemKey_Some. split.
  - rewrite (strings_own typed s) by done. split_and!.
    + constructor; [by eapply keyed_clean|constructor].
    + apply NoDup_singleton.
    + constructor; [by exists s|constructor].
    + intros [i kk]. simpl. rewrite list_elem_of_singleton. unfold offers.
      setoid_rewrite list_elem_of_singleton. split.
      * intros [= -> ->]. split_and!; [done|by exists s|apply not_elem_of_empty].
      * by intros (-> & (? & [= ->] & <-) & _).
  - intros [|v [|]] Hlen' Hf; [done| |simpl in Hlen'; lia].
    simpl in *. by rewrite !app_nil_r in *.
Qed.

Lemma wrapped_spec id typed w items cs :
  distinct_keys (JObj typed) -> collect "_delivery_ref" (JObj typed) = [] ->
  assoc "item_key" typed = None -> assoc w typed = Some (JArr items) ->
  others_free "item_key" w typed -> Forall item_shape items ->
  taskProgramDeliveryCandidates id items = Ok cs ->
  shape_spec id (JObj typed) (Wrapped typed w cs).
Proof.
  intros [Hnd _] Hr Hk Hw Ho Hs Hc. split.
  - rewrite (collect_wrapped _ w), Hw by done. by apply delivery_candidates_spec.
  - intros remaining _ Hf. simpl rebuild. rewrite !collect_set; [done|..].
    + intros <-. by rewrite (free_no_key _ _ Hr) in Hw.
    + by apply collect_remove_incl.
    + congruence.
    + by apply free_remove.
Qed.

Lemma delivery_shape_spec id v sh :
  distinct_keys v -> collect "_delivery_ref" v = [] ->
  delivery_shape id v = Ok sh -> shape_spec id v sh.
Proof.
  intros Hd Hr H. destruct v as [| | | |items|typed]; cbn [delivery_shape] in H;
    try (injection H as <-; by apply plain_spec).
  - apply res_bind_Ok in H as (b & Hb & H). apply res_bind_Ok in H as (cs & Hc & [= <-]).
    apply array_has_shape in Hb as [Hs _]; [|by apply distinct_items|by apply items_free].
    split; [by apply delivery_candidates_spec|]. intros remaining _ Hf. by simpl.
  - destruct (has_key "item_key" typed) eqn:Hk.
    + apply guard_Ok in H as [Ho%negb_true_iff%own_fields H].
      apply res_bind_Ok in H as ([k|] & Hkey & [= <-]); [by apply single_spec|].
      apply taskProgramItemKey_None, has_key_assoc in Hkey. congruence.
    + apply has_key_assoc in Hk. apply guard_Ok in H as [Ho%negb_true_iff H].
      apply res_bind_Ok in H as (keyed & Hkeyed & H).
      destruct (keyed_envelopes_spec _ _ _ Hd Hr Hkeyed) as [Hin Hfree].
      assert (forall w, (forall k, k ∈ keyed.*1 -> k = w) -> others_free "item_key" w typed) as Hall.
      { intros w Hw. unfold others_free. apply Forall_forall. intros [k x] Hp Hne. cbn [fst snd] in *.
        destruct (decide (k ∈ envelopeFields)) as [He|He].
        - apply (Hfree k); [done| |by intros ?%Hw]. by apply elem_assoc; [apply Hd|].
        - apply existsb_false_Forall in Ho. rewrite Forall_forall in Ho.
          specialize (Ho _ Hp). cbn [fst snd] in Ho.
          apply contains_collect. apply andb_false_iff in Ho as [Ho|Ho]; [|done].
          apply negb_false_iff, existsb_exists in Ho as (x' & Hx' & ->%String.eqb_eq).
          by apply list_elem_of_In in Hx'. }
      destruct keyed as [|[w items] [|]]; [| |done].
      * injection H as <-. apply plain_spec.
        assert (others_free "item_key" "item_key" typed) as Ho'.
        { apply Hall. by intros ? ?%elem_of_nil. }
        by rewrite collect_own, Hk by (done || apply Hd).
      * apply res_bind_Ok in H as (cs & Hc & [= <-]).
        destruct (Hin w items) as [Hw Hs]; [by left|].
        eapply wrapped_spec; try done. apply Hall. by intros k ->%list_elem_of_singleton.
Qed.

(** ** Tokens and withholding *)

Lemma token_attempts_fresh rand n : forall s t s',
  token_attempts rand n s = Ok (t, s') -> t ∉ used s /\ used s' = {[t]} ∪ used s.
Proof.
  induction n as [|n IH]; intros s t s'; simpl; [done|].
  destruct (rand _ _) as [entropy|]; [|done].
  case_bool_decide as Hin; [by intros [? ?]%IH|]. by intros [= <- <-].
Qed.

Lemma withhold_spec rand delivered cs : forall s rem pend s',
  Forall candidate_clean cs -> withhold rand delivered cs s = Ok (rem, pend, s') ->
  length rem <= length cs
  /\ flat_map (collect "item_key") rem = []
  /\ flat_map (collect "_delivery_ref") rem = (fun d => JStr (td_Token d)) <$> pend
  /\ td_Ref <$> pend = List.filter (fun r => negb (bool_decide (r ∈ delivered))) (omap dc_ref cs)
  /\ NoDup (td_Token <$> pend)
  /\ Forall (fun d => td_Token d ∉ used s) pend
  /\ used s' = list_to_set (td_Token <$> pend) ∪ used s.
Proof.
  induction cs as [|[v [ref|]] cs IH]; intros s rem pend s' Hc H; simpl in H.
  { injection H as <- <- <-. simpl. split_and!; [lia|done..|constructor|constructor|set_solver +]. }
  - apply Forall_cons in Hc as [(Hk & Hd & [fs Hv] & _) Hc]. simpl in Hv, Hk, Hd. subst v.
    case_bool_decide as Hin.
    + destruct (IH _ _ _ _ Hc H) as (? & ? & ? & ? & ? & ? & ?).
      split_and!; try done; [simpl; lia|]. simpl. by rewrite bool_decide_eq_true_2.
    + apply res_bind_Ok in H as ([t s1] & Ht & H). apply token_attempts_fresh in Ht as [Hfresh Hs1].
      apply res_bind_Ok in H as ([[rem1 pend1] s2] & Hw & [= <- <- <-]). simpl in *.
      destruct (IH _ _ _ _ Hc Hw) as (? & Hk1 & Hd1 & Hr1 & Hn1 & Hf1 & Hu1).
      rewrite Hs1 in Hf1, Hu1. split_and!.
      * lia.
      * change (collect "item_key" (attach_ref t (JObj fs))
                ++ flat_map (collect "item_key") rem1 = []).
        by rewrite collect_attach, Hk1.
      * change (collect "_delivery_ref" (attach_ref t (JObj fs))
                ++ flat_map (collect "_delivery_ref") rem1
                = JStr t :: ((fun d => JStr (td_Token d)) <$> pend1)).
        by rewrite collect_attach, Hd1.
      * rewrite bool_decide_eq_false_2 by done. simpl. by f_equal.
      * constructor; [|done]. intros (d & Hdt & Hd')%list_elem_of_fmap.
        rewrite Forall_forall in Hf1. apply (Hf1 d Hd'). set_solver +Hdt.
      * constructor; [done|]. eapply Forall_impl; [exact Hf1|]. simpl. set_solver +.
      * rewrite Hu1. simpl. set_solver +.
  - apply Forall_cons in Hc as [(Hk & Hd & _) Hc]. simpl in Hk, Hd.
    apply res_bind_Ok in H as ([[rem1 pend1] s2] & Hw & [= <- <- <-]).
    destruct (IH _ _ _ _ Hc Hw) as (? & Hk1 & Hd1 & ? & ? & ? & ?).
    split_and!; try done; simpl in *; [lia|by rewrite Hk|by rewrite Hd].
Qed.

(** ** Decoded values have distinct keys *)

Lemma distinct_arr l : distinct_keys (JArr l) <-> Forall distinct_keys l.
Proof.
  simpl. induction l as [|v l IH]; simpl; [by split|]. rewrite Forall_cons. tauto.
Qed.

Lemma distinct_obj fs :
  distinct_keys (JObj fs) <-> NoDup fs.*1 /\ Forall (fun p => distinct_keys (snd p)) fs.
Proof.
  simpl. assert (forall P Q R : Prop, (Q <-> R) -> (P /\ Q <-> P /\ R)) as Hi by tauto.
  apply Hi. induction fs as [|p fs IH]; simpl; [by split|]. rewrite Forall_cons. tauto.
Qed.

Lemma set_key_distinct k v fs :
  distinct_keys (JObj fs) -> distinct_keys v -> distinct_keys (JObj (set_key k v fs)).
Proof.
  rewrite !distinct_obj. intros [Hnd Hf] Hv. unfold set_key. split.
  - rewrite fmap_app, NoDup_app. split_and!.
    + unfold remove_key. induction fs as [|[k' x] fs IH]; simpl; [constructor|].
      rewrite fmap_cons in Hnd. apply NoDup_cons in Hnd as [Hnin Hnd].
      apply Forall_cons in Hf as [_ Hf]. destruct (String.eqb k k'); simpl; [by apply IH|].
      constructor; [|by apply IH].
      intros (p & Hp & Hin)%list_elem_of_fmap. apply (remove_key_elem k) in Hin as [Hin _].
      apply Hnin. cbn [fst] in *. rewrite Hp. by apply (list_elem_of_fmap_2 fst).
    + intros k' Hk' ->%list_elem_of_singleton.
      pose proof (assoc_remove_eq k fs) as Hr. by apply assoc_None in Hr.
    + apply NoDup_singleton.
  - apply Forall_app. split; [|by constructor].
    rewrite Forall_forall in *. intros p [Hp _]%remove_key_elem. by apply Hf.
Qed.

Definition frame_ok (f : frame) : Prop :=
  match f with
  | InArr items => distinct_keys (JArr items)
  | InObj fs _ => distinct_keys (JObj fs)
  end.
Definition mode_ok (m : mode) : Prop :=
  match m with MLit _ v | MTop v => distinct_keys v | _ => True end.
Definition scan_ok (s : scan) : Prop := mode_ok (sc_mode s) /\ Forall frame_ok (sc_stack s).

Lemma deliver_ok v st : distinct_keys v -> Forall frame_ok st -> scan_ok (deliver set_key v st).
Proof.
  intros Hv Hst. destruct st as [|[items|fs k] st]; simpl; [by split|..];
    apply Forall_cons in Hst as [Hf Hst]; split; try done; constructor; try done.
  - cbn [frame_ok] in *. rewrite distinct_arr in *. apply Forall_app.
    split; [done|by constructor].
  - by apply set_key_distinct.
Qed.

Lemma begin_value_ok c st s : Forall frame_ok st -> begin_value c st = Some s -> scan_ok s.
Proof.
  intros Hst. unfold begin_value, push.
  repeat case_match; intros ?; simplify_eq; split; try done;
    simpl; constructor; try done; repeat constructor.
Qed.

Lemma end_value_ok c s s' : scan_ok s -> end_value set_key c s = Some s' -> scan_ok s'.
Proof.
  intros [Hm Hst]. unfold end_value. destruct (is_space c); [by intros [= <-]|].
  destruct (sc_stack s) as [|[items|fs k] st]; [done|..];
    pose proof Hst as [Hf Hst']%Forall_cons;
    repeat case_match; intros ?; simplify_eq; by apply deliver_ok || by split.
Qed.

Lemma set_top_key_ok k st : Forall frame_ok st -> Forall frame_ok (set_top_key k st).
Proof.
  destruct st as [|[|fs k'] st]; try done. intros [Hf Hst]%Forall_cons. by constructor.
Qed.

Lemma scan_step_ok s c s' : scan_ok s -> scan_step set_key s c = Some s' -> scan_ok s'.
Proof.
  intros [Hm Hst]. destruct s as [m st]. simpl in Hm, Hst. unfold scan_step.
  cbn [sc_mode sc_stack].
  destruct m; repeat case_match; intros ?; simplify_eq; try done;
    try (by eapply begin_value_ok); try (by (split; [|apply set_top_key_ok]));
    try (by split); try (by (eapply end_value_ok; [|done]; split));
    try (by (eapply end_value_ok; [|done]; apply deliver_ok));
    try (by apply Forall_cons in Hst as [??]; apply deliver_ok);
    try (by apply deliver_ok); try (unfold end_string; case_match; [by split|by apply deliver_ok]).
Qed.

Lemma scan_all_ok input : forall s s', scan_ok s -> scan_all set_key s input = Some s' -> scan_ok s'.
Proof.
  induction input as [|c input IH]; intros s s' Hs; cbn [scan_all]; [by intros [= <-]|].
  intros (s1 & H1 & H2)%bind_Some. eapply IH; [|exact H2]. by eapply scan_step_ok.
Qed.

Lemma Parse_distinct raw v : Parse raw = Some v -> distinct_keys v.
Proof.
  unfold Parse, Decode. intros (s & Hs & He)%bind_Some.
  apply scan_all_ok in Hs as [Hm _]; [|by split]. unfold scan_end in He.
  destruct (sc_mode s); try done; repeat case_match; by simplify_eq.
Qed.
