(* ===== verification/ProgramDelivery.v ===== *)
(** * ProgramDelivery: what the delivery filter guarantees

    The filter uses the ledger through the interface [DeliveryLedger]: asked
    for well-formed references, it answers those that are recorded.  The
    database operation [Journal.LookupDelivered] implements the interface
    ([journal_DeliveryLedger]).  Against it: no item identity and no forged
    delivery reference leaves the filter ([filter_hides_identity]), and an
    item is offered exactly when it is not recorded, under a fresh token
    ([filter_offers_unrecorded]). *)

From Stdlib Require Import Ascii String.
From S2P Require Import Prelude GoStrings Json GoJson Task Store Journal JournalInv TaskProgram TaskProgramRun ProgramFilter.

(** ** The ledger's contract *)

Definition wf_ref (r : TaskDeliveryRef) : Prop :=
  ref_ok r /\ TrimSpace (InputID r) = InputID r /\ TrimSpace (ItemKey r) = ItemKey r.

Class DeliveryLedger (L : ledger) (recorded : uuid -> TaskDeliveryRef -> Prop) : Prop :=
  ledger_law : forall t refs out,
    Forall wf_ref refs -> L t refs = Ok out ->
    forall r, r ∈ refs -> r ∈ out <-> recorded t r.

(** ** The database implements it *)

Definition journal_ledger (message : StoreError -> bytes) (e : env) (d : db) : ledger :=
  fun t refs =>
  match fst (LookupDelivered t refs e d) with
  | Ok out => Ok out
  | Err x => Err (message x)
  end.

Definition journal_recorded (d : db) (t : uuid) (r : TaskDeliveryRef) : Prop :=
  (t, r) ∈ deliveries d \/ reserved_by d t r = true.

Lemma normalize_wf refs : forall seen,
  Forall wf_ref refs ->
  exists out, normalize_from seen refs = Ok out
    /\ forall r, r ∈ out <-> r ∈ refs /\ r ∉ seen.
Proof.
  induction refs as [|r refs IH]; intros seen Hf; cbn [normalize_from].
  { exists []. split; [done|]. intros r. rewrite elem_of_nil. tauto. }
  apply Forall_cons in Hf as [((Hi & Hk & Hli & Hlk) & Hti & Htk) Hf].
  rewrite Hti, Htk. destruct r as [i k]. cbn [InputID ItemKey] in *.
  rewrite (proj2 (String.eqb_neq i "") Hi), (proj2 (String.eqb_neq k "") Hk). cbn [orb].
  rewrite (proj2 (Nat.ltb_ge _ _) Hli), (proj2 (Nat.ltb_ge _ _) Hlk).
  destruct (decide (MkRef i k ∈ seen)) as [Hin|Hin].
  - rewrite bool_decide_eq_true_2 by done. destruct (IH seen Hf) as (out & -> & Ho).
    exists out. split; [done|]. intros r. rewrite Ho, elem_of_cons. clear -Hin.
    split; [tauto|]. intros [[->|?] ?]; [done|tauto].
  - rewrite bool_decide_eq_false_2 by done.
    destruct (IH ({[MkRef i k]} ∪ seen) Hf) as (out & -> & Ho).
    exists (MkRef i k :: out). split; [done|]. intros r.
    rewrite !elem_of_cons, Ho, elem_of_union, elem_of_singleton. clear -Hin.
    destruct (decide (r = MkRef i k)) as [->|]; [split; [by split; [left|]|by left]|tauto].
Qed.

#[export] Instance journal_DeliveryLedger message e d :
  DeliveryLedger (journal_ledger message e d) (journal_recorded d).
Proof.
  intros t refs out Hf H r Hr. unfold journal_ledger, LookupDelivered in H.
  destruct (normalize_wf refs ∅ Hf) as (ref1 & Hn & Ho).
  unfold normalizeTaskDeliveryRefs in H. rewrite Hn in H.
  assert (r ∈ ref1) as Hr1 by (apply Ho; split; [done|apply not_elem_of_empty]).
  destruct ref1 as [|x l]; [by apply elem_of_nil in Hr1|].
  destruct (autocommit _ e d) as [res0 d'] eqn:Ha. simpl in H.
  destruct res0 as [a|]; [|done]. injection H as ->.
  apply autocommit_Ok in Ha as (n & Ha). tx_inv.
  rewrite list_elem_of_In, List.filter_In, <- list_elem_of_In.
  unfold journal_recorded. rewrite orb_true_iff, bool_decide_eq_true. tauto.
Qed.

(** ** Well-formed references *)

Lemma wf_program_ref id r :
  id_matches id = true -> InputID r = id -> ItemKey r <> ""%string ->
  TrimSpace (ItemKey r) = ItemKey r -> (String.length (ItemKey r) <= 512)%nat ->
  wf_ref r.
Proof.
  intros Hid <- Hk Ht Hl. split_and!; [|by apply id_trimmed|done]. split_and!; [|done| |done].
  - by apply id_matches_chars in Hid as [? _].
  - rewrite <- length_lit. unfold id_matches in Hid. destruct (lit (InputID r)) as [|c l]; [done|].
    apply andb_true_iff in Hid as [[_ Hl']%andb_true_iff _]. apply Nat.leb_le in Hl'.
    unfold taskDeliveryInputIDMaxBytes. simpl length. lia.
Qed.

Lemma candidates_wf id cs :
  id_matches id = true -> Forall candidate_clean cs ->
  (forall r, r ∈ omap dc_ref cs -> InputID r = id) -> Forall wf_ref (omap dc_ref cs).
Proof.
  intros Hid Hc Hi. apply Forall_forall. intros r Hr.
  pose proof (Hi r Hr) as Hri. apply list_elem_of_omap in Hr as (c & Hin & Hcr).
  rewrite Forall_forall in Hc. destruct (Hc c Hin) as (_ & _ & H). rewrite Hcr in H.
  destruct H as (_ & ? & ? & ?). by eapply wf_program_ref.
Qed.

Lemma no_offers found :
  Forall (fun x => exists s, x = JStr s) found -> (forall k, ~ offers found k) -> found = [].
Proof.
  intros Hf Hn. destruct Hf as [|x found [s ->] _]; [done|].
  destruct (Hn (TrimSpace s)). exists s. by split; [left|].
Qed.

(** A successful run of the filter, step by step. *)
Lemma filter_Ok env id raw s out pending s' :
  filterTaskProgramDeliveriesWithTokens env id raw s = Ok (out, pending, s') ->
  (Parse raw = None /\ out = raw /\ pending = [] /\ s' = s)
  \/ exists v sh, Parse raw = Some v /\ collect "_delivery_ref" v = []
     /\ shape_spec id v sh
     /\ ((omap dc_ref (candidates_of sh) = [] /\ out = raw /\ pending = [] /\ s' = s)
         \/ exists L t delivered rem, de_Ledger env = Some L /\ de_TaskID env = Some t
            /\ L t (omap dc_ref (candidates_of sh)) = Ok delivered
            /\ withhold (de_Rand env) delivered (candidates_of sh) s = Ok (rem, pending, s')
            /\ out = Marshal (rebuild sh rem)).
Proof.
  unfold filterTaskProgramDeliveriesWithTokens.
  destruct (Parse raw) as [v|] eqn:Hp; [|intros [= <- <- <-]; by left].
  intros ([] & Hr & H)%res_bind_Ok. apply guard_Ok in Hr as [Hr%negb_true_iff%mentions_collect _].
  apply res_bind_Ok in H as (sh & Hsh & H). right. exists v, sh.
  apply delivery_shape_spec in Hsh; [|by eapply Parse_distinct|done].
  split_and!; [done..|]. case_bool_decide as He.
  { injection H as <- <- <-. by left. }
  right. destruct (de_Ledger env) as [L|]; [|done]. destruct (de_TaskID env) as [t|]; [|done].
  destruct (L t _) as [delivered|] eqn:HL; [|done].
  apply res_bind_Ok in H as ([[rem pend] s1] & Hw & [= <- <- <-]).
  by exists L, t, delivered, rem.
Qed.

(** Whatever a tool returned, the text the filter lets through to the
    activation test and the model holds no [item_key] anywhere, and its
    [_delivery_ref] fields are exactly the runtime's own tokens of the pending
    deliveries, in order: either the text is the tool's own and neither field
    occurs in it, or it is the encoding of such a value. *)
Theorem filter_hides_identity env id raw s out pending s' :
  filterTaskProgramDeliveriesWithTokens env id raw s = Ok (out, pending, s') ->
  (out = raw /\ pending = [] /\ forall v, Parse raw = Some v ->
     collect "item_key" v = [] /\ collect "_delivery_ref" v = [])
  \/ exists v, out = Marshal v /\ collect "item_key" v = []
     /\ collect "_delivery_ref" v = (fun d => JStr (td_Token d)) <$> pending.
Proof.
  intros [(Hp & -> & -> & _)|(v & sh & Hp & Hr & [Hsh Hb] & [(He & -> & -> & _)|H])]%filter_Ok.
  - left. split_and!; [done..|]. congruence.
  - left. split_and!; [done..|]. intros v' Hv. rewrite Hp in Hv. injection Hv as <-.
    split; [|done]. destruct Hsh as (_ & _ & Hstr & Hin). apply no_offers; [done|].
    intros k Ho. assert (MkRef id k ∈ omap dc_ref (candidates_of sh)) as Hx.
    { apply Hin. simpl. by split_and!; [| |apply not_elem_of_empty]. }
    rewrite He in Hx. by apply elem_of_nil in Hx.
  - destruct H as (L & t & delivered & rem & _ & _ & _ & Hw & ->).
    apply withhold_spec in Hw as (Hlen & Hk & Hd & _); [|by destruct Hsh].
    right. exists (rebuild sh rem). destruct (Hb rem Hlen Hk) as [? Hd']. by rewrite Hd', Hd.
Qed.

(** C22: Against a ledger that keeps its contract, the filter offers exactly
    the items of the tool's answer that are not recorded as delivered or
    reserved: the references of its pending deliveries are those of the keys
    found anywhere in the answer, each once and under this input's id, less
    the recorded ones.  Each has a token that no earlier delivery of the run
    used, all distinct, and those tokens are now used. *)
Theorem filter_offers_unrecorded L recorded (law : DeliveryLedger L recorded)
    env id t raw v s out pending s' :
  id_matches id = true ->
  de_Ledger env = Some L -> de_TaskID env = Some t ->
  Parse raw = Some v ->
  filterTaskProgramDeliveriesWithTokens env id raw s = Ok (out, pending, s') ->
  NoDup (td_Ref <$> pending)
  /\ (forall r, r ∈ td_Ref <$> pending <->
        InputID r = id /\ offers (collect "item_key" v) (ItemKey r) /\ ~ recorded t r)
  /\ NoDup (td_Token <$> pending)
  /\ Forall (fun d => td_Token d ∉ used s) pending
  /\ used s' = list_to_set (td_Token <$> pending) ∪ used s.
Proof.
  intros Hid HL Ht Hv
    [(Hp & _)|(v' & sh & Hp & Hr & [Hsh Hb] & [(He & -> & -> & ->)|H])]%filter_Ok;
    [congruence|rewrite Hv in Hp; injection Hp as <-..];
    destruct Hsh as (Hc & Hnd & Hstr & Hin).
  - split_and!; [constructor| |constructor|constructor|simpl; by rewrite union_empty_l_L].
    intros r. simpl. rewrite elem_of_nil. split; [done|]. intros (Hi & Ho & _).
    assert (r ∈ omap dc_ref (candidates_of sh)) as Hx.
    { apply Hin. by split_and!; [| |apply not_elem_of_empty]. }
    rewrite He in Hx. by apply elem_of_nil in Hx.
  - destruct H as (L' & t' & delivered & rem & HL' & Ht' & Hl & Hw & _).
    rewrite HL in HL'. rewrite Ht in Ht'. injection HL' as <-. injection Ht' as <-.
    apply withhold_spec in Hw as (_ & _ & _ & Href & Htok & Hfresh & Hused); [|done].
    rewrite Href. split_and!; [by apply NoDup_ListNoDup, List.NoDup_filter, NoDup_ListNoDup| |done..].
    intros r. rewrite list_elem_of_In, List.filter_In, <- list_elem_of_In.
    rewrite negb_true_iff, bool_decide_eq_false.
    assert (Forall wf_ref (omap dc_ref (candidates_of sh))) as Hwf.
    { eapply candidates_wf; [done|done|]. by intros x [? _]%Hin. }
    pose proof (ledger_law _ _ _ Hwf Hl r) as Hlaw. rewrite Hin in Hlaw |- *.
    pose proof (not_elem_of_empty (C := gset string) (ItemKey r)). tauto.
Qed.

(** ** Witnesses *)

Definition demo_raw : bytes :=
  (fun c => if Ascii.eqb c "'"%char then dquote else c) <$>
  lit "{'items': [{'item_key': 'a'}, {'item_key': ' b ', 'n': 1}, 7], 'next': null}".

Definition demo_entropy (n m : nat) : res bytes bytes := Ok (repeat (chr n) m).

Definition demo_db : db :=
  with_deliveries {[(1%N, MkRef "mail" "a")]}
    empty_db.
Definition demo_ledger : ledger :=
  journal_ledger (fun _ => []) (MkEnv (fun _ => 5%Z) (fun _ => 5%Z) N.of_nat (fun _ => false) 1%N) demo_db.
Definition demo_env : delivery_env := MkDeliveryEnv (Some demo_ledger) (Some 1%N) demo_entropy.
Definition demo_source : token_source := MkSource 0 ∅.
Definition demo_run :=
  filterTaskProgramDeliveriesWithTokens demo_env "mail" demo_raw demo_source.

Definition outcome {A} (d : A) (r : res bytes A) : A :=
  match r with Ok a => a | Err _ => d end.
Lemma outcome_Ok {A} (d : A) r : is_ok r = true -> r = Ok (outcome d r).
Proof. by destruct r. Qed.

Definition demo_out : bytes := (outcome ([], [], demo_source) demo_run).1.1.
Definition demo_pending : list taskProgramDelivery :=
  (outcome ([], [], demo_source) demo_run).1.2.
Definition demo_after : token_source := (outcome ([], [], demo_source) demo_run).2.
Definition demo_value : json := default JNull (Parse demo_raw).

Lemma demo_run_Ok : demo_run = Ok (demo_out, demo_pending, demo_after).
Proof.
  rewrite (outcome_Ok ([], [], demo_source) demo_run) by (vm_compute; reflexivity).
  unfold demo_out, demo_pending, demo_after.
  by destruct (outcome ([], [], demo_source) demo_run) as [[? ?] ?].
Qed.

(** The delivered item [a] is withheld, [b] is offered. *)
Example demo_pending_refs : td_Ref <$> demo_pending = [MkRef "mail" "b"].
Proof. vm_compute. reflexivity. Qed.

Lemma filter_hides_identity_witness :
  demo_run = Ok (demo_out, demo_pending, demo_after)
  /\ ((demo_out = demo_raw /\ demo_pending = [] /\ forall v, Parse demo_raw = Some v ->
         collect "item_key" v = [] /\ collect "_delivery_ref" v = [])
      \/ exists v, demo_out = Marshal v /\ collect "item_key" v = []
         /\ collect "_delivery_ref" v = (fun d => JStr (td_Token d)) <$> demo_pending).
Proof.
  split; [apply demo_run_Ok|].
  apply (filter_hides_identity demo_env "mail" demo_raw demo_source demo_out demo_pending
           demo_after). apply demo_run_Ok.
Defined.

Lemma filter_offers_unrecorded_witness :
  Parse demo_raw = Some demo_value
  /\ forall r, r ∈ td_Ref <$> demo_pending <->
       InputID r = "mail"%string /\ offers (collect "item_key" demo_value) (ItemKey r)
       /\ ~ journal_recorded demo_db 1%N r.
Proof.
  assert (Parse demo_raw = Some demo_value) as Hv by (vm_compute; reflexivity).
  split; [exact Hv|].
  refine (proj1 (proj2 (filter_offers_unrecorded demo_ledger (journal_recorded demo_db) _
    demo_env "mail" 1%N demo_raw demo_value demo_source demo_out demo_pending demo_after
    _ _ _ Hv demo_run_Ok))); reflexivity.
Defined.
