(* ===== verification/ProgramRunInv.v ===== *)
(** * ProgramRunInv: what a run of a task program does

    [runTaskProgram] from its first check to its result: which tools it calls
    and in which order ([run_calls_declared]), what it records of them and how
    much text it hands on ([run_traces_bounded]), and that a delivery token
    names one item ([run_tokens_identify]); and the window of the quiet hours
    ([hourInRange_window]). *)

From Stdlib Require Import Ascii String.
From S2P Require Import Prelude GoStrings Json GoJson Task Store Journal JournalInv TaskProgram TaskProgramRun ProgramFilter ProgramDelivery.

(** ** Quiet hours *)

(** For the hours a valid program can hold, the quiet window is the
    cyclic interval from [from_hour] up to, not including, [to_hour]: windows
    past midnight included. *)
Theorem hourInRange_window (hour from to : Z) :
  (0 <= hour <= 23)%Z -> (0 <= from <= 23)%Z -> (0 <= to <= 23)%Z ->
  hourInRange hour from to = true <-> ((hour - from) mod 24 < (to - from) mod 24)%Z.
Proof.
  intros Hh Hf Ht. unfold hourInRange.
  rewrite (proj2 (Z.ltb_ge from 0)), (proj2 (Z.ltb_ge 23 from)),
    (proj2 (Z.ltb_ge to 0)), (proj2 (Z.ltb_ge 24 to)) by lia.
  assert (forall z, (-23 <= z <= 23)%Z -> z mod 24 = if Z.ltb z 0 then z + 24 else z)%Z as Hm.
  { intros z Hz. destruct (Z.ltb z 0) eqn:E; bool_to_prop; [|apply Z.mod_small; lia].
    rewrite <- (Z.mod_add z 1 24) by lia. apply Z.mod_small. lia. }
  rewrite !Hm by lia. destruct (Z.eqb from to) eqn:E1; bool_to_prop.
  { subst. rewrite Z.sub_diag. simpl. destruct (Z.ltb (hour - to) 0) eqn:E; bool_to_prop; lia. }
  destruct (Z.ltb from to) eqn:E2; bool_to_prop;
    rewrite ?andb_true_iff, ?orb_true_iff, Z.leb_le, Z.ltb_lt;
    destruct (Z.ltb (hour - from) 0) eqn:E3; destruct (Z.ltb (to - from) 0) eqn:E4;
    bool_to_prop; lia.
Qed.

Lemma hourInRange_window_witness :
  (0 <= 2 <= 23)%Z /\ (hourInRange 2 23 7 = true <-> ((2 - 23) mod 24 < (7 - 23) mod 24)%Z).
Proof. split; [lia|]. apply (hourInRange_window 2 23 7); lia. Defined.

(** ** What one run of the filter adds *)

Lemma filter_pending env id raw s out pending s' :
  filterTaskProgramDeliveriesWithTokens env id raw s = Ok (out, pending, s') ->
  NoDup (td_Ref <$> pending) /\ Forall (fun d => InputID (td_Ref d) = id) pending
  /\ NoDup (td_Token <$> pending) /\ Forall (fun d => td_Token d ∉ used s) pending
  /\ used s' = list_to_set (td_Token <$> pending) ∪ used s.
Proof.
  intros [(_ & _ & -> & ->)|(v & sh & _ & _ & [(Hc & Hnd & _ & Hin) _] &
    [(_ & _ & -> & ->)|(L & t & delivered & rem & _ & _ & _ & Hw & _)])]%filter_Ok;
    [split_and!; try constructor; simpl; by rewrite union_empty_l_L..|].
  apply withhold_spec in Hw as (_ & _ & _ & Href & Htok & Hfresh & Hused); [|done].
  split_and!; try done.
  - rewrite Href. by apply NoDup_ListNoDup, List.NoDup_filter, NoDup_ListNoDup.
  - apply Forall_forall. intros d Hd. apply (list_elem_of_fmap_2 td_Ref) in Hd.
    rewrite Href, list_elem_of_In, List.filter_In, <- list_elem_of_In in Hd.
    destruct Hd as [Hd _]. by apply Hin in Hd as [? _].
Qed.

Definition insert_pending (pending : list taskProgramDelivery)
    (m : gmap string TaskDeliveryRef) :=
  fold_left (fun m d => <[td_Token d := td_Ref d]> m) pending m.

Lemma insert_pending_lookup pending : forall m tok r,
  NoDup (td_Token <$> pending) ->
  Forall (fun d => m !! td_Token d = None) pending ->
  insert_pending pending m !! tok = Some r <->
  m !! tok = Some r \/ exists d, d ∈ pending /\ td_Token d = tok /\ td_Ref d = r.
Proof.
  induction pending as [|d pending IH]; intros m tok r Hnd Hf; unfold insert_pending; simpl.
  { setoid_rewrite elem_of_nil. naive_solver. }
  rewrite fmap_cons in Hnd. apply NoDup_cons in Hnd as [Hnin Hnd].
  apply Forall_cons in Hf as [Hd Hf].
  change (insert_pending pending (<[td_Token d := td_Ref d]> m) !! tok = Some r <->
    m !! tok = Some r \/ exists d0, d0 ∈ d :: pending /\ td_Token d0 = tok /\ td_Ref d0 = r).
  rewrite IH; [|done|].
  - rewrite lookup_insert_Some. setoid_rewrite elem_of_cons. split.
    + intros [[[? ?]|[_ ?]]|(y & ? & ? & ?)]; [|by left|]; right;
        [by exists d; eauto|by exists y; eauto].
    + intros [Hm|(y & [->|Hy] & ? & ?)]; [|by left; left|by right; exists y].
      left. right. split; [|done]. intros <-. congruence.
  - rewrite Forall_forall in *. intros y Hy. apply lookup_insert_None.
    split; [by apply Hf|]. intros E. apply Hnin. rewrite E. by apply list_elem_of_fmap_2.
Qed.

(** ** The loop invariant *)

Section run_inv.
Context (deps : ProgramDeps) (unavailable : gmap string bytes).

Definition callable (x : TaskProgramInput) : bool :=
  i_Enabled x && match unavailable !! i_ID x with None => true | Some _ => false end.
Definition calls_of (xs : list TaskProgramInput) : list (string * bytes) :=
  (fun x => (i_Tool x, i_Input x)) <$> List.filter callable xs.
Definition output_size (l : list ToolTrace) : Z :=
  fold_right (fun t n => (Z.of_nat (length (tr_Output t)) + n)%Z) 0%Z l.

(** The token map: its tokens are used, its references belong to inputs
    already visited and no two tokens name the same one. *)
Definition refs_inv (ids : list string) (s : loop_state) : Prop :=
  (forall tok r, ls_DeliveryRefs s !! tok = Some r ->
     tok ∈ used (ls_Tokens s) /\ InputID r ∈ ids)
  /\ forall t1 t2 r, ls_DeliveryRefs s !! t1 = Some r ->
       ls_DeliveryRefs s !! t2 = Some r -> t1 = t2.

Definition loop_inv (xs : list TaskProgramInput) (s : loop_state) : Prop :=
  ls_Calls s = calls_of xs
  /\ tr_BlockID <$> ls_Traces s = i_ID <$> List.filter i_Enabled xs
  /\ output_size (ls_Traces s) = ls_Aggregate s
  /\ (ls_Aggregate s <= taskProgramMaxAggregateOutputBytes)%Z
  /\ refs_inv (i_ID <$> xs) s.

(** What holds when the loop stops at an error of the input [x]. *)
Definition stopped_inv (xs : list TaskProgramInput) (x : TaskProgramInput)
    (s : loop_state) : Prop :=
  ls_Calls s `prefix_of` calls_of (xs ++ [x]) /\ refs_inv (i_ID <$> (xs ++ [x])) s.

Lemma calls_of_app xs ys : calls_of (xs ++ ys) = calls_of xs ++ calls_of ys.
Proof. unfold calls_of. by rewrite List.filter_app, fmap_app. Qed.

Lemma output_size_app a b : output_size (a ++ b) = (output_size a + output_size b)%Z.
Proof. induction a as [|t a IH]; cbn [app output_size fold_right]; [done|].
  unfold output_size in *. cbn [fold_right]. lia. Qed.

Lemma refs_inv_more ids ids' s s' :
  ls_DeliveryRefs s' = ls_DeliveryRefs s -> used (ls_Tokens s') = used (ls_Tokens s) ->
  refs_inv ids s -> refs_inv (ids ++ ids') s'.
Proof.
  unfold refs_inv. intros -> -> [Hu Hi]. split; [|done].
  intros tok r H%Hu. destruct H. split; [done|]. apply elem_of_app. by left.
Qed.

Lemma refs_inv_pending ids id pending src s :
  refs_inv ids s -> id ∉ ids ->
  NoDup (td_Ref <$> pending) -> Forall (fun d => InputID (td_Ref d) = id) pending ->
  NoDup (td_Token <$> pending) -> Forall (fun d => td_Token d ∉ used (ls_Tokens s)) pending ->
  used src = list_to_set (td_Token <$> pending) ∪ used (ls_Tokens s) ->
  refs_inv (ids ++ [id]) (add_pending id pending src s).
Proof.
  intros [Hu Hi] Hid Hnr Hin Hnt Hfresh Hused. unfold refs_inv. cbn [add_pending ls_DeliveryRefs ls_Tokens].
  fold (insert_pending pending (ls_DeliveryRefs s)).
  assert (Forall (fun d => ls_DeliveryRefs s !! td_Token d = None) pending) as Hf.
  { rewrite Forall_forall in Hfresh |- *. intros d Hd.
    destruct (ls_DeliveryRefs s !! td_Token d) eqn:E; [|done].
    apply Hu in E as [E _]. by apply Hfresh in Hd. }
  rewrite Forall_forall in Hin, Hfresh. split.
  - intros tok r. rewrite insert_pending_lookup by done. rewrite Hused, elem_of_union, elem_of_app.
    intros [[? ?]%Hu|(d & Hd & <- & <-)]; [by split; [right|left]|]. split.
    + left. apply elem_of_list_to_set. by apply list_elem_of_fmap_2.
    + right. rewrite (Hin d Hd). by apply list_elem_of_singleton.
  - intros t1 t2 r. rewrite !insert_pending_lookup by done.
    intros [H1|(d1 & Hd1 & <- & Hr1)] [H2|(d2 & Hd2 & <- & Hr2)].
    + by eapply Hi.
    + apply Hu in H1 as [_ H1]. rewrite <- Hr2, (Hin d2 Hd2) in H1. done.
    + apply Hu in H2 as [_ H2]. rewrite <- Hr1, (Hin d1 Hd1) in H2. done.
    + clear -Hd1 Hd2 Hr1 Hr2 Hnr. rewrite <- Hr2 in Hr1. f_equal.
      apply list_elem_of_lookup in Hd1 as [j1 E1], Hd2 as [j2 E2].
      assert (j1 = j2) as ->; [|congruence].
      eapply (NoDup_lookup _ _ _ (td_Ref d1) Hnr);
        rewrite list_lookup_fmap; [by rewrite E1|rewrite E2; simpl; by f_equal].
Qed.

Lemma record_output_same x output err rc s s' r :
  record_output deps x output err rc s = (s', r) ->
  ls_Calls s' = ls_Calls s /\ ls_DeliveryRefs s' = ls_DeliveryRefs s
  /\ ls_Tokens s' = ls_Tokens s.
Proof. unfold record_output. case_match; by intros [= <- <-]. Qed.

Lemma record_output_None x output err rc s s' :
  record_output deps x output err rc s = (s', None) ->
  tr_BlockID <$> ls_Traces s' = (tr_BlockID <$> ls_Traces s) ++ [i_ID x]
  /\ output_size (ls_Traces s') = (output_size (ls_Traces s) + Z.of_nat (length output))%Z
  /\ ls_Aggregate s' = (ls_Aggregate s + Z.of_nat (length output))%Z
  /\ (ls_Aggregate s' <= taskProgramMaxAggregateOutputBytes)%Z.
Proof.
  unfold record_output. case_match eqn:E; [done|]. intros [= <-].
  apply Z.ltb_ge in E.
  cbn [add_result add_trace add_output ls_Traces ls_Aggregate] in *.
  rewrite fmap_app, output_size_app. unfold output_size at 2. cbn [fold_right tr_Output].
  split_and!; [done|lia|done|lia].
Qed.

(** The answer of a callable input, and what the filter makes of it: the
    state to record the output in, or the stop. *)
Lemma call_input_cases x s s' r :
  call_input deps x s = (s', r) ->
  (exists output err rc src pending s1,
     s1 = (if (err : bool) then add_call (i_Tool x) (i_Input x) s
           else add_pending (i_ID x) pending src (add_call (i_Tool x) (i_Input x) s))
     /\ (err = false -> exists raw, filterTaskProgramDeliveriesWithTokens
           (d_Delivery deps (ls_Calls s)) (i_ID x) raw (ls_Tokens s) = Ok (output, pending, src))
     /\ ((exists e, record_output deps x output err (Some rc) s1 = (s', Some e) /\ r = Some e)
         \/ record_output deps x output err (Some rc) s1 = (s', None)
            /\ r = if err && String.eqb (i_OnError x) OnErrorFail
                   then Some (input_error deps x output) else None))
  \/ (exists message e, s' = add_trace x message true None (add_call (i_Tool x) (i_Input x) s)
        /\ r = Some e).
Proof.
  unfold call_input. set (answer := tool_answer _ _ _ _).
  set (rc := MkReceipt _ _ _ _). destruct answer.2 eqn:Herr.
  - intros H. left. exists answer.1, true, rc, (ls_Tokens s), [], (add_call (i_Tool x) (i_Input x) s).
    split_and!; [done..|]. destruct (record_output _ _ _ _ _ _) as [s1 [e|]].
    + injection H as <- <-. left. by exists e.
    + right. by injection H as <- <-.
  - cbn [add_call ls_Tokens].
    destruct (filterTaskProgramDeliveriesWithTokens _ _ _ _) as [[[out pending] src]|e] eqn:Hf.
    + intros H. left. exists out, false, rc, src, pending,
        (add_pending (i_ID x) pending src (add_call (i_Tool x) (i_Input x) s)).
      split_and!; [reflexivity|by exists answer.1|].
      destruct (record_output _ _ _ _ _ _) as [s1 [e|]].
      * injection H as <- <-. left. by exists e.
      * right. by injection H as <- <-.
    + intros [= <- <-]. right. by eexists _, _.
Qed.

Lemma filter_one (p : TaskProgramInput -> bool) x :
  List.filter p [x] = if p x then [x] else [].
Proof. done. Qed.

Lemma refs_inv_record ids s s' :
  ls_DeliveryRefs s' = ls_DeliveryRefs s /\ ls_Tokens s' = ls_Tokens s ->
  refs_inv ids s -> refs_inv ids s'.
Proof. unfold refs_inv. by intros [-> ->]. Qed.

Lemma call_input_inv xs x s s' r :
  loop_inv xs s -> callable x = true -> i_ID x ∉ i_ID <$> xs ->
  call_input deps x s = (s', r) ->
  stopped_inv xs x s' /\ (r = None -> loop_inv (xs ++ [x]) s').
Proof.
  intros (Hcalls & Hids & Hsize & Hmax & Hrefs) Hx Hnew H.
  assert (calls_of (xs ++ [x]) = ls_Calls s ++ [(i_Tool x, i_Input x)]) as Hc.
  { rewrite calls_of_app, Hcalls. f_equal. unfold calls_of. by rewrite filter_one, Hx. }
  assert (i_Enabled x = true) as Hen by (by apply andb_true_iff in Hx as [? _]).
  unfold stopped_inv, loop_inv. rewrite Hc, !fmap_app.
  apply call_input_cases in H as [(output & err & rc & src & pending & s1 & -> & Hf & Hr)|
    (message & e & -> & ->)].
  2: { split; [|done]. split; [done|]. by eapply refs_inv_more. }
  set (s1 := if err then _ else _) in Hr.
  assert (ls_Calls s1 = ls_Calls s ++ [(i_Tool x, i_Input x)]
          /\ ls_Traces s1 = ls_Traces s /\ ls_Aggregate s1 = ls_Aggregate s
          /\ refs_inv ((i_ID <$> xs) ++ [i_ID x]) s1) as (Hc1 & Ht1 & Ha1 & Hr1).
  { subst s1. destruct err; [split_and!; try done; by eapply refs_inv_more|].
    split_and!; [done..|]. destruct (Hf eq_refl) as [raw Hraw].
    apply filter_pending in Hraw as (? & ? & ? & ? & ?).
    by apply refs_inv_pending. }
  assert (forall r', record_output deps x output err (Some rc) s1 = (s', r') ->
    ls_Calls s' `prefix_of` ls_Calls s ++ [(i_Tool x, i_Input x)]
    /\ refs_inv ((i_ID <$> xs) ++ [i_ID x]) s') as Hstop.
  { intros r' (Hcs & Hsame)%record_output_same. rewrite Hcs, Hc1. split; [done|].
    by eapply refs_inv_record. }
  destruct Hr as [(e & Hrec & ->)|[Hrec ->]]; split; try (by eapply Hstop); [done|].
  intros _. pose proof (record_output_same _ _ _ _ _ _ _ Hrec) as (Hcs & Hsame).
  apply record_output_None in Hrec as (Hb & Ho & Ha & Hle).
  rewrite Hcs, Hc1, Hb, Ho, Ha, Ht1, Ha1, Hids, Hsize, List.filter_app, fmap_app, filter_one, Hen.
  split_and!; [done..|by rewrite <- Ha1, <- Ha|]. by eapply refs_inv_record.
Qed.

Lemma run_input_inv xs x s s' r :
  loop_inv xs s -> i_ID x ∉ i_ID <$> xs -> run_input deps unavailable x s = (s', r) ->
  stopped_inv xs x s' /\ (r = None -> loop_inv (xs ++ [x]) s').
Proof.
  intros Hinv Hnew H. unfold run_input in H.
  destruct (i_Enabled x) eqn:Hen; simpl in H.
  - destruct (unavailable !! i_ID x) as [message|] eqn:Hu.
    + destruct Hinv as (Hcalls & Hids & Hsize & Hmax & Hrefs).
      assert (callable x = false) as Hx by (unfold callable; by rewrite Hen, Hu).
      assert (calls_of (xs ++ [x]) = ls_Calls s) as Hc.
      { rewrite calls_of_app, Hcalls. unfold calls_of. by rewrite filter_one, Hx, app_nil_r. }
      pose proof (record_output_same _ _ _ _ _ _ _ H) as (Hcs & Hd & Ht).
      unfold stopped_inv, loop_inv. rewrite Hc, Hcs, !fmap_app.
      assert (refs_inv ((i_ID <$> xs) ++ [i_ID x]) s') as Hr'.
      { eapply refs_inv_more; [exact Hd|by rewrite Ht|done]. }
      split; [done|]. intros ->. apply record_output_None in H as (Hb & Ho & Ha & Hle).
      rewrite Hb, Ho, Ha, Hids, Hsize, List.filter_app, fmap_app, filter_one, Hen.
      split_and!; [done..|by rewrite <- Ha|done].
    + eapply call_input_inv; [done| |done|done]. unfold callable. by rewrite Hen, Hu.
  - injection H as <- <-. destruct Hinv as (Hcalls & Hids & Hsize & Hmax & Hrefs).
    assert (callable x = false) as Hx by (unfold callable; by rewrite Hen).
    assert (calls_of (xs ++ [x]) = ls_Calls s) as Hc.
    { rewrite calls_of_app, Hcalls. unfold calls_of. by rewrite filter_one, Hx, app_nil_r. }
    unfold stopped_inv, loop_inv.
    rewrite Hc, List.filter_app, !fmap_app, filter_one, Hen, app_nil_r.
    assert (refs_inv ((i_ID <$> xs) ++ (i_ID <$> [x])) s) by (by eapply refs_inv_more).
    by split_and!.
Qed.

Lemma run_inputs_inv ys : forall xs s s' r,
  loop_inv xs s -> NoDup (i_ID <$> (xs ++ ys)) ->
  run_inputs deps unavailable ys s = (s', r) ->
  ls_Calls s' `prefix_of` calls_of (xs ++ ys)
  /\ (exists ids, ids ⊆ i_ID <$> (xs ++ ys) /\ refs_inv ids s')
  /\ (r = None -> loop_inv (xs ++ ys) s').
Proof.
  induction ys as [|x ys IH]; intros xs s s' r Hinv Hnd H; cbn [run_inputs] in H.
  - injection H as <- <-. rewrite app_nil_r. split_and!; [by destruct Hinv as [-> _]| |done].
    exists (i_ID <$> xs). by destruct Hinv as (_ & _ & _ & _ & ?).
  - destruct (run_input deps unavailable x s) as [s1 r1] eqn:Hx.
    assert (i_ID x ∉ i_ID <$> xs) as Hnew.
    { rewrite fmap_app, NoDup_app in Hnd. destruct Hnd as (_ & Hd & _).
      intros Hin. apply (Hd _ Hin). rewrite fmap_cons. by left. }
    destruct (run_input_inv _ _ _ _ _ Hinv Hnew Hx) as [[Hp Hr] Hnext].
    replace (xs ++ x :: ys) with ((xs ++ [x]) ++ ys) in * by (by rewrite <- app_assoc).
    destruct r1 as [e|].
    + injection H as <- <-. split_and!; [|exists (i_ID <$> (xs ++ [x]))|done].
      * rewrite calls_of_app. by apply prefix_app_r.
      * split; [|done]. rewrite fmap_app. set_solver +.
    + by eapply IH; [apply Hnext|..].
Qed.

Lemma loop_start_inv : loop_inv [] loop_start.
Proof.
  split_and!; [done..|]. split; cbn [ls_DeliveryRefs loop_start].
  - intros tok r. by rewrite lookup_empty.
  - intros t1 t2 r. by rewrite lookup_empty.
Qed.
End run_inv.

(** ** The run *)

(** The calls of a program whose tools in scope are [has]: its enabled inputs
    whose tool is there, in declaration order. *)
Definition available_calls (has : string -> bool) (p : TaskProgram) : list (string * bytes) :=
  (fun x => (i_Tool x, i_Input x))
  <$> List.filter (fun x => i_Enabled x && has (i_Tool x)) (tp_Inputs p).

Lemma Validate_distinct p : Validate p = Ok tt -> NoDup (i_ID <$> tp_Inputs p).
Proof.
  unfold Validate. rewrite !guard_Ok, res_bind_Ok. intros (_ & _ & m & H & _).
  by apply validate_inputs_Ok in H as (_ & ? & _).
Qed.

Lemma preflight_inputs_Ok deps xs : forall m m',
  preflight_inputs deps xs m = Ok m' -> NoDup (i_ID <$> xs) ->
  Forall (fun x => i_Enabled x = true -> i_OnError x = OnErrorFail -> d_Has deps (i_Tool x) = true) xs
  /\ (forall id, id ∉ i_ID <$> xs -> m' !! id = m !! id)
  /\ Forall (fun x => i_Enabled x = true -> m !! i_ID x = None ->
       (m' !! i_ID x = None <-> d_Has deps (i_Tool x) = true)) xs.
Proof.
  induction xs as [|x xs IH]; intros m m' H Hnd; cbn [preflight_inputs] in H.
  { injection H as <-. by split_and!. }
  rewrite fmap_cons in Hnd. apply NoDup_cons in Hnd as [Hnin Hnd].
  destruct (i_Enabled x) eqn:Hen; simpl in H; [destruct (d_Has deps (i_Tool x)) eqn:Hhas|].
  - destruct (IH _ _ H Hnd) as (Hf & Ho & Hi). split_and!; [by constructor| |].
    + intros id [_ Hid]%not_elem_of_cons. by apply Ho.
    + constructor; [|done]. intros _ Hm. by rewrite Ho, Hhas.
  - destruct (String.eqb _ _) eqn:Hoe; [done|]. apply String.eqb_neq in Hoe.
    destruct (IH _ _ H Hnd) as (Hf & Ho & Hi). split_and!; [by constructor| |].
    + intros id [Hne Hid]%not_elem_of_cons. rewrite Ho by done. by rewrite lookup_insert_ne.
    + constructor.
      * intros _ Hm. by rewrite Ho, lookup_insert_eq, Hhas.
      * rewrite Forall_forall in Hi |- *. intros y Hy He Hm. apply Hi; [done|done|].
        rewrite lookup_insert_ne; [done|]. intros E. apply Hnin. rewrite E.
        by apply list_elem_of_fmap_2.
  - destruct (IH _ _ H Hnd) as (Hf & Ho & Hi). split_and!; [constructor; [congruence|done]| |].
    + intros id [_ Hid]%not_elem_of_cons. by apply Ho.
    + constructor; [congruence|done].
Qed.

Lemma calls_of_available deps p unavailable :
  preflight_inputs deps (tp_Inputs p) ∅ = Ok unavailable -> NoDup (i_ID <$> tp_Inputs p) ->
  calls_of unavailable (tp_Inputs p) = available_calls (d_Has deps) p.
Proof.
  intros H Hnd. apply preflight_inputs_Ok in H as (_ & _ & H); [|done].
  unfold calls_of, available_calls. f_equal. clear Hnd.
  induction H as [|x xs Hx _ IH]; [done|]. cbn [List.filter]. rewrite IH.
  unfold callable at 1. destruct (i_Enabled x) eqn:He; [|done].
  specialize (Hx eq_refl (lookup_empty _)). simpl.
  destruct (unavailable !! i_ID x), (d_Has deps (i_Tool x)); naive_solver.
Qed.

(** The three ways a run goes: it stops before any call, the loop stops at an
    error, or it concludes. *)
Lemma run_cases deps msg p hour o :
  runTaskProgram deps msg p hour = o ->
  (ro_Calls o = [] /\ x_DeliveryRefs (ro_Execution o) = ∅ /\ x_ToolOverride (ro_Execution o) = None
   /\ (ro_Err o = None -> in_quiet_hours p hour = true /\ x_Traces (ro_Execution o) = []))
  \/ exists unavailable s r, Validate p = Ok tt /\ in_quiet_hours p hour = false
     /\ preflightTaskProgramTools deps p = Ok unavailable
     /\ preflight_inputs deps (tp_Inputs p) ∅ = Ok unavailable
     /\ run_inputs deps unavailable (tp_Inputs p) loop_start = (s, r)
     /\ ro_Calls o = ls_Calls s /\ ro_Err o = r
     /\ x_Traces (ro_Execution o) = ls_Traces s
     /\ x_DeliveryRefs (ro_Execution o) = ls_DeliveryRefs s
     /\ forall ts, x_ToolOverride (ro_Execution o) = Some ts ->
          ts = dec_Tools (tp_Decision p) /\ dec_Mode (tp_Decision p) <> DecisionNone.
Proof.
  intros <-. unfold runTaskProgram. destruct (Validate p) as [[]|e] eqn:Hv; [|by left].
  destruct (in_quiet_hours p hour) eqn:Hq; [by left|].
  destruct (preflightTaskProgramTools deps p) as [unavailable|e] eqn:Hp; [|by left].
  assert (preflight_inputs deps (tp_Inputs p) ∅ = Ok unavailable) as Hpi.
  { unfold preflightTaskProgramTools in Hp. by case_match. }
  right. destruct (run_inputs deps unavailable (tp_Inputs p) loop_start) as [s r] eqn:Hr.
  exists unavailable, s, r. destruct r as [e|]; [by split_and!|].
  split_and!; try done; try (unfold conclude; repeat case_match; done).
  intros ts. cbn [ro_Execution]. unfold conclude.
  destruct (String.eqb (dec_Mode _) DecisionNone) eqn:Hd; [done|]. apply String.eqb_neq in Hd.
  case_match; [done|]. by intros [= <-].
Qed.

(** C23: A run calls only tools of the program's enabled inputs that are in
    scope, each with its declared arguments, in declaration order and at most
    once; a run that ends without an error outside the quiet hours has made
    all of those calls.  No call is made inside the quiet hours, for a
    program [Validate] rejects, or when a decision tool, or the tool of an
    enabled input with on_error fail, is missing. *)
Theorem run_calls_declared deps msg p hour :
  let o := runTaskProgram deps msg p hour in
  ro_Calls o `prefix_of` available_calls (d_Has deps) p
  /\ (ro_Err o = None -> in_quiet_hours p hour = false ->
       ro_Calls o = available_calls (d_Has deps) p)
  /\ (ro_Calls o <> [] -> Validate p = Ok tt /\ in_quiet_hours p hour = false
       /\ (dec_Mode (tp_Decision p) = DecisionSelected ->
            Forall (fun t => d_Has deps t = true) (dec_Tools (tp_Decision p)))
       /\ Forall (fun x => i_Enabled x = true -> i_OnError x = OnErrorFail ->
                   d_Has deps (i_Tool x) = true) (tp_Inputs p)).
Proof.
  intros o. destruct (run_cases deps msg p hour o eq_refl)
    as [(Hc & _ & _ & He)|(unavailable & s & r & Hv & Hq & Hp & Hpi & Hr & Hc & Her & _)].
  - rewrite Hc. split_and!; [apply prefix_nil| |done].
    intros [Hq _]%He. congruence.
  - pose proof (Validate_distinct p Hv) as Hnd.
    apply (run_inputs_inv _ _ _ []) in Hr as (Hpre & _ & Hinv); [|apply loop_start_inv|done].
    rewrite <- (calls_of_available _ _ _ Hpi Hnd), Hc, Her. split_and!; [done| |].
    + intros [H _]%Hinv _. done.
    + intros _. split_and!; [done..| |by apply preflight_inputs_Ok in Hpi as [? _]].
      intros Hm. unfold preflightTaskProgramTools in Hp. rewrite Hm, String.eqb_refl in Hp.
      destruct (List.find _ _) as [t|] eqn:E; [done|].
      apply Forall_forall. intros t Ht. apply list_elem_of_In in Ht.
      apply (List.find_none _ _ E) in Ht. by apply negb_false_iff.
Qed.

(** A run that ends without an error outside the quiet hours leaves one
    trace for each enabled input, in declaration order, and the outputs it
    hands to the model total at most 256 KiB. *)
Theorem run_traces_bounded deps msg p hour :
  let o := runTaskProgram deps msg p hour in
  ro_Err o = None -> in_quiet_hours p hour = false ->
  tr_BlockID <$> x_Traces (ro_Execution o) = i_ID <$> List.filter i_Enabled (tp_Inputs p)
  /\ (output_size (x_Traces (ro_Execution o)) <= 262144)%Z.
Proof.
  intros o Herr Hq. destruct (run_cases deps msg p hour o eq_refl)
    as [(_ & _ & _ & He)|(unavailable & s & r & Hv & _ & _ & _ & Hr & _ & Her & Ht & _)].
  { destruct (He Herr). congruence. }
  pose proof (Validate_distinct p Hv) as Hnd.
  apply (run_inputs_inv _ _ _ []) in Hr as (_ & _ & Hinv); [|apply loop_start_inv|done].
  rewrite Her in Herr. destruct (Hinv Herr) as (_ & Hids & Hsize & Hmax & _).
  by rewrite Ht, Hids, Hsize.
Qed.

(** However a run ends, a delivery token it hands out stands for one
    item: distinct tokens of its map name distinct references, each of an
    input of the program; and the tools it leaves to the model are the
    decision's, for a program whose mode selects some. *)
Theorem run_tokens_identify deps msg p hour :
  let o := runTaskProgram deps msg p hour in
  (forall t1 t2 r, x_DeliveryRefs (ro_Execution o) !! t1 = Some r ->
     x_DeliveryRefs (ro_Execution o) !! t2 = Some r -> t1 = t2)
  /\ (forall t r, x_DeliveryRefs (ro_Execution o) !! t = Some r ->
       exists x, x ∈ tp_Inputs p /\ i_ID x = InputID r)
  /\ (forall ts, x_ToolOverride (ro_Execution o) = Some ts ->
       ts = dec_Tools (tp_Decision p) /\ dec_Mode (tp_Decision p) <> DecisionNone).
Proof.
  intros o. destruct (run_cases deps msg p hour o eq_refl)
    as [(_ & Hd & Ht & _)|(unavailable & s & r & Hv & _ & _ & _ & Hr & _ & _ & _ & Hd & Ht)];
    rewrite Hd.
  - rewrite Ht. split_and!; [| |done]; intros *; by rewrite lookup_empty.
  - pose proof (Validate_distinct p Hv) as Hnd.
    apply (run_inputs_inv _ _ _ []) in Hr as (_ & (ids & Hsub & Hu & Hi) & _);
      [|apply loop_start_inv|done].
    split_and!; [done| |done].
    intros t ref [_ Hin]%Hu. apply Hsub, list_elem_of_fmap in Hin as (x & Hx & Hin).
    by exists x.
Qed.

(** ** Witness *)

Definition demo_host : ProgramDeps :=
  MkDeps (fun t => String.eqb t "mail_list" || String.eqb t "mail_read")
    (fun calls tool input => (demo_raw, false)) (fun _ => None) (fun _ => demo_env)
    (fun _ => true).

Lemma run_traces_bounded_witness :
  let o := runTaskProgram demo_host (fun _ => []) demo_program 12 in
  ro_Err o = None /\ tr_BlockID <$> x_Traces (ro_Execution o) = ["mail"%string]
  /\ (output_size (x_Traces (ro_Execution o)) <= 262144)%Z.
Proof.
  intros o. assert (ro_Err o = None) as He by (vm_compute; reflexivity).
  split; [exact He|].
  apply (run_traces_bounded demo_host (fun _ => []) demo_program 12); [exact He|].
  vm_compute. reflexivity.
Defined.
