(* ===== verification/TaskConfig.v ===== *)
(** * TaskConfig: what a task's configuration holds

    The decoders of [AgentTask.Config] and [AgentTask.Progress]: the typed
    task program ([ParseTaskProgram], internal/core/task_program.go), the
    delivery origin ([TaskOriginFromConfig], task_origin.go), and in
    internal/agenttask/scheduler.go the [daily_at] and [start_at] gates, the
    tools a task asks for, and the session and peer ids of its progress.

    A configuration is a jsonb value: a [json.RawMessage] member is its jsonb
    text, and a decoder that fails leaves the later fields as they are.  Keys
    that differ by case only are taken to name a list at most once. *)

From Stdlib Require Import Ascii String.
From S2P Require Import Prelude GoStrings Json GoJson Task GoTime TaskPlan Store StepStore Journal.
From S2P Require Import TaskRows TaskProgram AutonomousTurn.

(** ** Decoding into a value that is already there

    Go decodes a repeated member into the value of the first one: a struct is
    merged, and [null] changes nothing but pointers, maps and slices. *)

Definition decode_into {A} (zero : A) (conv : A -> json -> option A) (k : string) (j : json)
    : option A :=
  match j with
  | JObj fs => fold_left (fun acc p =>
      if same_name k (fst p) then v ← acc; conv v (snd p) else acc) fs (Some zero)
  | _ => Some zero
  end.
(** A decoding whose error is dropped keeps what was there. *)
Definition lenient {A} (zero : A) (conv : json -> option A) (k : string) (j : json) : A :=
  match j with
  | JObj fs => fold_left (fun acc p =>
      if same_name k (fst p)
      then match snd p with JNull => acc | v => default acc (conv v) end
      else acc) fs zero
  | _ => zero
  end.
Definition raw_member (k : string) (j : json) : bytes :=
  default [] (decode_into [] (fun _ v => Some (jsonb_out v)) k j).

Definition as_list {A} (elem : json -> option A) (_ : list A) (j : json) : option (list A) :=
  match j with JArr l => mapM elem l | JNull => Some [] | _ => None end.
Definition as_text (j : json) : option string :=
  match j with JStr s => Some s | JNull => Some ""%string | _ => None end.

(** ** Task programs *)

Definition as_input (j : json) : option TaskProgramInput :=
  if is_object j || is_null j then
    id ← decode_string "id" j; tool ← decode_string "tool" j;
    enabled ← decode_bool "enabled" j; on_error ← decode_string "on_error" j;
    Some (MkInput id tool (raw_member "input" j) enabled on_error)
  else None.
Definition merge_activation (a : TaskProgramActivation) (j : json) : option TaskProgramActivation :=
  if is_object j || is_null j then
    mode ← decode_field (act_Mode a) as_string "mode" j;
    ids ← decode_into (act_InputIDs a) (as_list as_text) "input_ids" j;
    Some (MkActivation mode ids)
  else None.
Definition merge_decision (d : TaskProgramDecision) (j : json) : option TaskProgramDecision :=
  if is_object j || is_null j then
    mode ← decode_field (dec_Mode d) as_string "mode" j;
    tools ← decode_into (dec_Tools d) (as_list as_text) "tools" j;
    instruction ← decode_field (str (dec_Instruction d)) as_string "instruction" j;
    Some (MkDecision mode tools (lit instruction))
  else None.
Definition merge_quiet (q : option TaskProgramQuietHours) (j : json)
    : option (option TaskProgramQuietHours) :=
  if is_null j then Some None
  else if is_object j then
    let q := default (MkQuiet 0 0) q in
    f ← decode_field (FromHour q) as_int "from_hour" j;
    t ← decode_field (ToHour q) as_int "to_hour" j;
    Some (Some (MkQuiet f t))
  else None.
Definition unmarshal_program (j : json) : option TaskProgram :=
  if is_object j then
    schema ← decode_string "schema" j;
    inputs ← decode_into [] (as_list as_input) "inputs" j;
    activation ← decode_into (MkActivation "" []) merge_activation "activation" j;
    decision ← decode_into (MkDecision "" [] []) merge_decision "decision" j;
    quiet ← decode_into None merge_quiet "quiet_hours" j;
    Some (MkProgram schema inputs activation decision quiet)
  else None.

Inductive ParseError : Type := EDecode | EValidate (e : ProgramError).

(** [None] when no program is present. *)
Definition ParseTaskProgram (config : json) : option (res ParseError TaskProgram) :=
  match config with
  | JObj fs =>
      match assoc "task_program"%string fs with
      | None | Some JNull => None
      | Some raw => Some
          match unmarshal_program raw with
          | None => Err EDecode
          | Some p => match Validate p with Ok _ => Ok p | Err e => Err (EValidate e) end
          end
      end
  | _ => None
  end.

(** The tools a task asks for and whether it narrows them at all. *)
Definition taskRequestedTools (task : AgentTask) : res ParseError (list string * bool) :=
  match ParseTaskProgram (Config task) with
  | Some (Err e) => Err e
  | Some (Ok p) => Ok (RequestedTools p, true)
  | None => match Tools task with
            | [] => Ok ([], false)
            | tools => Ok (tools, true)
            end
  end.

(** ** Delivery origin *)

Inductive OriginError : Type := EOriginDecode | EOriginInvalid.

Section origin.
Context (uuid_Parse : string -> option uuid).

Definition unmarshal_origin (j : json) : option TaskOrigin :=
  if is_object j || is_null j then
    tr ← decode_string "transport" j;
    bot ← decode_field uuid_Nil (fun v => match v with JStr s => uuid_Parse s | _ => None end)
            "bot_id" j;
    chat ← decode_string "chat_id" j;
    Some (MkTaskOrigin tr bot chat)
  else None.
Definition TaskOriginFromConfig (config : json) : res OriginError (option TaskOrigin) :=
  match config with
  | JNull => Ok None
  | JObj fs =>
      match assoc "delivery_origin"%string fs with
      | None => Ok None
      | Some raw =>
          match unmarshal_origin raw with
          | None => Err EOriginDecode
          | Some o => if String.eqb (o_Transport o) "" || String.eqb (o_ChatID o) ""
                      then Err EOriginInvalid else Ok (Some o)
          end
      end
  | _ => Err EOriginDecode
  end.
End origin.

(** ** Gates *)

(** The moment of [start_at]; [None] when there is no readable one. *)
Definition start_at (config : json) : option time :=
  if is_object config then
    s ← decode_string "start_at" config;
    if blank s then None else ParseRFC3339 (TrimSpace_b (lit s))
  else None.

Definition merge_daily (h : option (option Z)) (j : json) : option (option (option Z)) :=
  if is_null j then Some None
  else if is_object j then
    hour ← decode_into (mjoin h) (fun _ v => if is_null v then Some None
                                             else n ← as_int v; Some (Some n)) "hour" j;
    Some (Some hour)
  else None.
Definition dailyAtHour (task : AgentTask) : option Z :=
  if is_object (Config task) then
    daily ← decode_into None merge_daily "daily_at" (Config task);
    hour ← daily; h ← hour;
    if Z.leb 0 h && Z.leb h 23 then Some h else None
  else None.

(** ** Progress *)

Definition extractPeerTaskID (progress : json) : string :=
  lenient ""%string as_string "peer_task_id" progress.
Definition sessionIDFromProgress (progress : json) : string :=
  lenient ""%string as_string "session_id" progress.

(** * Properties *)

Lemma unmarshal_origin_marshal uuid_Parse uuid_String o :
  uuid_Parse (uuid_String (o_BotID o)) = Some (o_BotID o) ->
  unmarshal_origin uuid_Parse
    (JObj [("transport", JStr (o_Transport o)); ("bot_id", JStr (uuid_String (o_BotID o)));
           ("chat_id", JStr (o_ChatID o))]%string) = Some o.
Proof.
  intros H. unfold unmarshal_origin.
  set (u := uuid_String (o_BotID o)) in *. destruct o as [tr bot chat]; simpl in *.
  change (uuid_Parse u ≫= (fun b => Some (MkTaskOrigin tr b chat)) = Some (MkTaskOrigin tr bot chat)).
  by rewrite H.
Qed.

(** A task delivers where its creator was: whatever routing the requested
    configuration carries, the stored one gives back exactly the origin of the
    context it was created in, or none. *)
Theorem origin_is_trusted uuid_Parse uuid_String origin config stored
  (Huuid : forall u, uuid_Parse (uuid_String u) = Some u)
  (Hcap : captureTaskOrigin uuid_String origin config = Ok stored) :
  TaskOriginFromConfig uuid_Parse stored = Ok origin.
Proof.
  unfold captureTaskOrigin in Hcap. apply res_bind_Ok in Hcap as (fs & _ & Hcap).
  destruct origin as [o|].
  - destruct (String.eqb (o_Transport o) "" || String.eqb (o_ChatID o) "") eqn:Hbad; [done|].
    apply Ok_inj' in Hcap as <-. unfold TaskOriginFromConfig.
    rewrite assoc_set_eq, unmarshal_origin_marshal by apply Huuid. by rewrite Hbad.
  - apply Ok_inj' in Hcap as <-. unfold TaskOriginFromConfig. by rewrite assoc_remove_eq.
Qed.

(** A caller's routing is replaced by the origin of the conversation. *)
Definition forged_config : json :=
  JObj [("delivery_origin", JObj [("transport", JStr "telegram"); ("chat_id", JStr "666")]);
        ("skills", JArr [])]%string.
Definition chat_origin : TaskOrigin := MkTaskOrigin "telegram" 5 "42".

Lemma origin_is_trusted_witness :
  exists stored, captureTaskOrigin bits_String (Some chat_origin) forged_config = Ok stored
    /\ TaskOriginFromConfig bits_Parse stored = Ok (Some chat_origin).
Proof.
  eexists. split; [vm_compute; reflexivity|].
  refine (origin_is_trusted bits_Parse bits_String (Some chat_origin) forged_config _ _ _);
    [|vm_compute; reflexivity].
  intros u. apply bits_codec.
Defined.

(** A stored program and what the scheduler reads of it. *)
Definition program_config : json :=
  JObj [("task_program", JObj
    [("schema", JStr "blueship.task-program/v1");
     ("inputs", JArr [JObj [("id", JStr "mail"); ("tool", JStr "mail_list"); ("input", JObj []);
                            ("enabled", JBool true); ("on_error", JStr "fail")]]);
     ("activation", JObj [("mode", JStr "any_non_empty"); ("input_ids", JArr [JStr "mail"])]);
     ("decision", JObj [("mode", JStr "selected"); ("tools", JArr [JStr "mail_reply"]);
                        ("instruction", JStr "answer")]);
     ("quiet_hours", JObj [("from_hour", JNum "22"); ("to_hour", JNum "7")])])]%string.

Example program_config_parsed :
  match ParseTaskProgram program_config with
  | Some (Ok p) => RequestedTools p = ["mail_list"; "mail_reply"]%string
                   /\ tp_QuietHours p = Some (MkQuiet 22 7)
  | _ => False
  end.
Proof. vm_compute. by split. Qed.
