(* ===== verification/Gates.v ===== *)
(** * Gates: when a task is due

    The dispatch decision of internal/agenttask/scheduler.go: the executor of
    a task ([resolveHandler]), its schedule and cadence ([shouldRunNow],
    [cadenceElapsed], [durationDue]), the quiet hours of its program
    ([taskProgramInQuietHours]), the moment and the hour it is held back for
    ([startAtGateOpen], [dailyGateOpen]), the loop of [Run] over the pending
    tasks and [recurringDueEarly] of wakeup.go.

    Locations come from the host: [LoadLocation] reads the time zone database
    and [ResolveTimezone] the zone a soul has chosen.  The warnings about
    malformed settings are not modelled. *)

From Stdlib Require Import Ascii String.
From S2P Require Import Prelude GoStrings Json GoJson Task GoTime TaskPlan Store StepStore Journal.
From S2P Require Import TaskRows TaskProgram TaskProgramRun TaskConfig.

Local Open Scope Z_scope.

(** [t.Sub(u)]: a difference that does not fit saturates. *)
Definition Sub (t u : time) : duration := Z.max (- 2 ^ 63) (Z.min (2 ^ 63 - 1) (t - u)).

(** ** Due durations *)

Definition scheduleDueTolerance : duration := Second.

Definition durationDue (elapsed interval : duration) : bool :=
  if Z.leb interval 0 then Z.leb interval elapsed
  else
    let tolerance := if Z.leb interval scheduleDueTolerance then Z.quot interval 2
                     else scheduleDueTolerance in
    Z.leb (interval - tolerance) elapsed.

Definition shouldRunNow (now : time) (task : AgentTask) : bool :=
  match Schedule task with
  | None => true
  | Some s =>
      match ParseDuration (lit s) with
      | None => false
      | Some d => match LastRunAt task with
                  | None => true
                  | Some l => durationDue (Sub now l) d
                  end
      end
  end.

Definition cadenceElapsed (now : time) (task : AgentTask) : bool :=
  match Cadence task with
  | None => true
  | Some s =>
      if String.eqb s "" then true
      else match ParseDuration (lit s) with
           | None => true
           | Some d => match LastRunAt task with
                       | None => true
                       | Some l => durationDue (Sub now l) d
                       end
           end
  end.

Definition call_name_error (j : json) : string * bool :=
  (lenient ""%string as_string "name" j, lenient false as_bool "error" j).
Definition trace_calls (toolCalls : option json) : list (string * bool) :=
  match toolCalls with
  | Some (JArr l) => call_name_error <$> l
  | _ => []
  end.
Definition cadenceRunEnded (task : AgentTask) (done : bool) (toolCalls : option json) : bool :=
  match Cadence task with
  | None => false
  | Some c =>
      if blank c then false
      else done || existsb (fun p => String.eqb (fst p) "message_send" && negb (snd p))
                     (trace_calls toolCalls)
  end.

(** ** Clock gates *)

Definition startAtGateOpen (task : AgentTask) (now : time) : bool :=
  match start_at (Config task) with
  | None => true
  | Some at_ => Z.leb at_ now
  end.

Record timezones := MkZones {
  tz_config : option string;               (* deps.Config.Timezone *)
  tz_resolve : option (uuid -> string);    (* Gateway.ResolveTimezone *)
  LoadLocation : string -> option location;
}.

Definition TimezoneFor (z : timezones) (soul : uuid) (def : location) : location :=
  match tz_resolve z with
  | None => def
  | Some resolve =>
      let name := resolve soul in
      if String.eqb name "" then def else default def (LoadLocation z name)
  end.
Definition task_location (z : timezones) (task : AgentTask) : location :=
  match tz_config z with
  | None => UTC
  | Some name => TimezoneFor z (SoulID task) (default UTC (LoadLocation z name))
  end.

Definition taskProgramInQuietHours (z : timezones) (task : AgentTask) (now : time) : bool :=
  match ParseTaskProgram (Config task) with
  | Some (Ok p) =>
      match tp_QuietHours p with
      | Some q =>
          let hour := local_hour (task_location z task) now in
          if Z.ltb (FromHour q) (ToHour q)
          then Z.leb (FromHour q) hour && Z.ltb hour (ToHour q)
          else Z.leb (FromHour q) hour || Z.ltb hour (ToHour q)
      | None => false
      end
  | _ => false
  end.

Definition dailyGateOpen (z : timezones) (task : AgentTask) (now : time) : bool :=
  match dailyAtHour task with
  | None => true
  | Some hour =>
      let loc := task_location z task in
      if negb (Z.eqb (local_hour loc now) hour) then false
      else match LastRunAt task with
           | None => true
           | Some l => negb (Z.eqb (local_day loc l) (local_day loc now))
           end
  end.

(** ** The dispatch loop *)

Section dispatch.
Context {H : Type} (handlers strategyHandlers : gmap string H).

Definition resolveHandler (task : AgentTask) : option (H * string) :=
  if negb (String.eqb (Handler task) "") then
    h ← handlers !! Handler task; Some (h, ("handler:" ++ Handler task)%string)
  else if negb (String.eqb (Strategy task) "") && negb (String.eqb (Strategy task) StrategyRecurring)
  then h ← strategyHandlers !! Strategy task; Some (h, ("strategy:" ++ Strategy task)%string)
  else None.

(** The recurring tasks offered to the host for an early run. *)
Definition waiting (now : time) (task : AgentTask) : bool :=
  match Schedule task, LastRunAt task with
  | Some s, Some l => match ParseDuration (lit s) with
                      | Some d => negb (durationDue (Sub now l) d)
                      | None => false
                      end
  | _, _ => false
  end.
(** [DueEarly]: the host's answer, [None] on an error. *)
Definition recurringDueEarly (DueEarly : option (time -> list AgentTask -> option (gset uuid)))
    (tasks : list AgentTask) (now : time) : gset uuid :=
  match DueEarly, List.filter (waiting now) tasks with
  | None, _ | _, [] => ∅
  | Some due, l => default ∅ (due now l)
  end.

(** What the loop decides about one task.  [authorized] is the host's verdict
    at this moment. *)
Inductive decision : Type :=
| NoDispatcher (reason : string)
| Skip
| Dispatch (h : H) (tag : string).

Definition dispatch_gates (z : timezones) (early busy authorized : bool) (now : time)
    (task : AgentTask) : bool :=
  negb busy
  && (is_none (Schedule task) || shouldRunNow now task || early)
  && negb (taskProgramInQuietHours z task now)
  && startAtGateOpen task now
  && dailyGateOpen z task now
  && cadenceElapsed now task
  && authorized.
Definition decide_task (z : timezones) (early busy authorized : bool) (now : time)
    (task : AgentTask) : decision :=
  match resolveHandler task with
  | None => NoDispatcher ("no dispatcher: handler=" ++ Handler task
                          ++ " strategy=" ++ Strategy task)%string
  | Some (h, tag) =>
      if dispatch_gates z early busy authorized now task then Dispatch h tag else Skip
  end.
End dispatch.

(** * Properties *)

(** A positive interval is due at its end at the latest, at most a second
    early, and never at once. *)
Lemma durationDue_bounds elapsed interval :
  0 < interval ->
  (interval <= elapsed -> durationDue elapsed interval = true)
  /\ (durationDue elapsed interval = true ->
      interval - Second <= elapsed /\ 0 < elapsed).
Proof.
  intros Hi. unfold durationDue, scheduleDueTolerance, Second.
  rewrite (proj2 (Z.leb_gt interval 0)) by lia.
  destruct (Z.leb_spec interval 1000000000) as [Hs|Hs];
    rewrite Z.leb_le; Z.to_euclidean_division_equations; lia.
Qed.

Lemma Sub_exact t u : - 2 ^ 63 <= t - u < 2 ^ 63 -> Sub t u = t - u.
Proof. unfold Sub. lia. Qed.

(** What being due says about the time since the last run. *)
Definition paced (text : option string) (last : option time) (now : time) : Prop :=
  forall s d l, text = Some s -> ParseDuration (lit s) = Some d -> 0 < d ->
    last = Some l -> - 2 ^ 63 <= now - l < 2 ^ 63 ->
    d - Second <= now - l /\ 0 < now - l.

Lemma shouldRunNow_paced now task :
  shouldRunNow now task = true -> paced (Schedule task) (LastRunAt task) now.
Proof.
  intros H s d l Hs Hd Hpos Hl Hr. unfold shouldRunNow in H. rewrite Hs, Hd, Hl, Sub_exact in H by done.
  apply durationDue_bounds in H as (? & ?); done.
Qed.

Lemma ParseDuration_empty : ParseDuration (lit "") = None.
Proof. reflexivity. Qed.

Lemma cadenceElapsed_paced now task :
  cadenceElapsed now task = true -> paced (Cadence task) (LastRunAt task) now.
Proof.
  intros H s d l Hs Hd Hpos Hl Hr. unfold cadenceElapsed in H. rewrite Hs in H.
  destruct (String.eqb_spec s ""); [by subst; rewrite ParseDuration_empty in Hd|].
  rewrite Hd, Hl, Sub_exact in H by done.
  apply durationDue_bounds in H as (? & ?); done.
Qed.

Lemma ParseTaskProgram_valid config p :
  ParseTaskProgram config = Some (Ok p) -> Validate p = Ok tt.
Proof.
  intros Hp. unfold ParseTaskProgram in Hp. crush_match.
  by match goal with u : unit |- _ => destruct u end.
Qed.

Lemma Validate_quiet p : Validate p = Ok tt -> quiet_ok (tp_QuietHours p).
Proof.
  unfold Validate. rewrite !guard_Ok. intros (_ & _ & H).
  repeat (apply res_bind_Ok in H as (? & _ & H)).
  unfold validate_quiet in H. destruct (tp_QuietHours p) as [q|]; [|done].
  rewrite !guard_Ok in H. destruct H as (Hf & Ht & Hne & _). simpl. unfold hour_ok in *.
  bool_to_prop. lia.
Qed.

Lemma quiet_gate_parsed z task now :
  taskProgramInQuietHours z task now
  = match ParseTaskProgram (Config task) with
    | Some (Ok p) => in_quiet_hours p (local_hour (task_location z task) now)
    | _ => false
    end.
Proof.
  unfold taskProgramInQuietHours, in_quiet_hours.
  destruct (ParseTaskProgram (Config task)) as [[p|]|] eqn:Hp; try done.
  apply ParseTaskProgram_valid, Validate_quiet in Hp.
  destruct (tp_QuietHours p) as [q|]; [|done]. destruct Hp as (Hf & Ht & Hne).
  unfold hourInRange.
  rewrite (proj2 (Z.ltb_ge (FromHour q) 0)), (proj2 (Z.ltb_ge 23 (FromHour q))),
    (proj2 (Z.ltb_ge (ToHour q) 0)), (proj2 (Z.ltb_ge 24 (ToHour q))),
    (proj2 (Z.eqb_neq _ _) Hne) by lia. done.
Qed.

(** A dispatched task was due: it was not running already, the host
    allowed it, and none of its settings held it back.  Its schedule (unless the
    host brought it forward) and its cadence had run down to within a second, its
    [start_at] had come, its local hour was the [daily_at]
    hour of a day it had not run on, and its program was not in quiet hours. *)
Theorem dispatched_when_due {H} (handlers strategyHandlers : gmap string H) z early busy authorized
    now task h tag
  (Hd : decide_task handlers strategyHandlers z early busy authorized now task = Dispatch h tag) :
  busy = false /\ authorized = true
  /\ resolveHandler handlers strategyHandlers task = Some (h, tag)
  /\ (early = false -> paced (Schedule task) (LastRunAt task) now)
  /\ paced (Cadence task) (LastRunAt task) now
  /\ (forall t, start_at (Config task) = Some t -> t <= now)
  /\ (forall hour, dailyAtHour task = Some hour ->
        local_hour (task_location z task) now = hour
        /\ forall l, LastRunAt task = Some l ->
             local_day (task_location z task) l <> local_day (task_location z task) now)
  /\ (forall p, ParseTaskProgram (Config task) = Some (Ok p) ->
        in_quiet_hours p (local_hour (task_location z task) now) = false).
Proof.
  unfold decide_task in Hd. destruct (resolveHandler _ _ task) as [[h' tag']|]; [|done].
  destruct (dispatch_gates z early busy authorized now task) eqn:Hg; [|done].
  injection Hd as -> ->. unfold dispatch_gates in Hg. bool_to_prop.
  split_and!; try done.
  - intros ->. destruct (Schedule task) eqn:Hs; [|by intros ?? ??].
    rewrite <- Hs. apply shouldRunNow_paced.
    match goal with H : _ || false = true |- _ => rewrite orb_false_r in H; simpl in H end.
    unfold is_none in *. by destruct (shouldRunNow now task).
  - by apply cadenceElapsed_paced.
  - intros t Ht. unfold startAtGateOpen in *. rewrite Ht in *. by apply Z.leb_le.
  - intros hour Hh. unfold dailyGateOpen in *. rewrite Hh in *.
    destruct (Z.eqb_spec (local_hour (task_location z task) now) hour); [|done].
    split; [done|]. intros l Hl. rewrite Hl in *. simpl in *.
    match goal with H : negb (Z.eqb _ _) = true |- _ => apply negb_true_iff, Z.eqb_neq in H end. done.
  - intros p Hp. rewrite quiet_gate_parsed, Hp in *. done.
Qed.

(** The free gate of the scheduler and the barrier inside the handler
    decide the quiet hours of a task program alike, at every moment and for
    every zone: the tick skips exactly the runs the handler would refuse. *)
Theorem quiet_gates_agree z task now :
  taskProgramInQuietHours z task now
  = match ParseTaskProgram (Config task) with
    | Some (Ok p) => in_quiet_hours p (local_hour (task_location z task) now)
    | _ => false
    end.
Proof. apply quiet_gate_parsed. Qed.

(** ** Once a day *)

(** A task dispatched at each of the moments [ts], every dispatch having been
    stamped as its last run. *)
Inductive daily_runs (z : timezones) (task : AgentTask) : list time -> Prop :=
| dr_none : LastRunAt task = None -> daily_runs z task []
| dr_first t : LastRunAt task = None -> dailyGateOpen z task t = true -> daily_runs z task [t]
| dr_next t l ts :
    daily_runs z task (l :: ts) -> l <= t ->
    dailyGateOpen z (set_LastRunAt (Some l) task) t = true ->
    daily_runs z task (t :: l :: ts).

(** A task with a [daily_at] hour runs at most once on a local day, and
    only within the hour: as long as the local date does not go backwards, its
    dispatches fall on distinct local days, each in the window of its hour. *)
Theorem daily_at_most_once z task hour ts
  (Hhour : dailyAtHour task = Some hour)
  (Hdates : forall t u, t <= u -> local_day (task_location z task) t <= local_day (task_location z task) u)
  (Hruns : daily_runs z task ts) :
  NoDup (local_day (task_location z task) <$> ts)
  /\ Forall (fun t => let loc := task_location z task in
       local_day loc t * 86400 + hour * 3600 <= local_seconds loc t
         < local_day loc t * 86400 + (hour + 1) * 3600) ts.
Proof.
  assert (forall l, dailyAtHour (set_LastRunAt l task) = Some hour) as Hh by (intros; exact Hhour).
  assert (forall l, task_location z (set_LastRunAt l task) = task_location z task) as Hloc
    by (intros; reflexivity).
  assert (forall l t, dailyGateOpen z (set_LastRunAt l task) t = true ->
    local_hour (task_location z task) t = hour
    /\ forall l', l = Some l' -> local_day (task_location z task) l' <> local_day (task_location z task) t)
    as Hgate.
  { intros l t Hg. unfold dailyGateOpen in Hg. rewrite Hh, Hloc in Hg.
    destruct (Z.eqb_spec (local_hour (task_location z task) t) hour); [|done].
    split; [done|]. intros l' ->. simpl in Hg. by apply negb_true_iff, Z.eqb_neq in Hg. }
  assert (forall x xs, daily_runs z task (x :: xs) -> Forall (fun y => y <= x) xs) as Hsorted.
  { intros x xs Hr. remember (x :: xs) as l eqn:El. revert x xs El.
    induction Hr; intros x xs [= -> <-]; [constructor|].
    specialize (IHHr _ _ eq_refl). constructor; [done|].
    eapply Forall_impl; [exact IHHr|]. simpl. lia. }
  induction Hruns as [|t Hn Hg|t l ts Hr IH Hle Hg]; [split; constructor|..].
  - assert (set_LastRunAt None task = task) as E by (unfold set_LastRunAt; rewrite <- Hn; by destruct task).
    rewrite <- E in Hg. apply Hgate in Hg as [Hg _].
    split; [by repeat constructor; apply not_elem_of_nil|].
    constructor; [|constructor]. by apply local_hour_window.
  - destruct IH as [Hnd Hw]. apply Hgate in Hg as [Hg Hne]. specialize (Hne _ eq_refl).
    split; [|constructor; [by apply local_hour_window|done]].
    change (NoDup (local_day (task_location z task) t :: (local_day (task_location z task) <$> (l :: ts)))).
    constructor; [|done]. rewrite list_elem_of_fmap. intros (u & Hu & Hin).
    pose proof (Hdates _ _ Hle).
    apply elem_of_cons in Hin as [->|Hin]; [by apply Hne|].
    apply Hsorted, Forall_forall with (x := u) in Hr; [|done].
    pose proof (Hdates _ _ Hr). lia.
Qed.

(** ** Witnesses *)

(** A digest every half hour, due at nine: 2026-09-24 09:10:00Z, last run the
    day before. *)
Definition digest_task : AgentTask :=
  MkAgentTask 1 7 4 8 "digest" None None StrategyRecurring "background" None
    (JObj [("daily_at", JObj [("hour", JNum "9")]);
           ("start_at", JStr "2026-07-15T21:14:00+02:00")]%string)
    JNull [] [] (Some "30m"%string) None None TPending (JObj []) None None 0 10
    (Some ((day_number 2026 9 23 * 86400 + 9 * 3600) * Second)) None 0 None [].
Definition digest_now : time := (day_number 2026 9 24 * 86400 + 9 * 3600 + 600) * Second.
Definition utc_zones : timezones := MkZones None None (fun _ => None).

Lemma dispatched_when_due_witness :
  paced (Schedule digest_task) (LastRunAt digest_task) digest_now
  /\ local_hour UTC digest_now = 9.
Proof.
  destruct (dispatched_when_due (H := nat) {["background"%string := 1%nat]} ∅ utc_zones false false
    true digest_now digest_task 1%nat "handler:background") as (_ & _ & _ & Hs & _ & _ & Hd & _);
    [vm_compute; reflexivity|].
  split; [by apply Hs|]. by apply (Hd 9).
Defined.

Definition fresh_digest : AgentTask := set_LastRunAt None digest_task.

Lemma daily_at_most_once_witness :
  NoDup (local_day UTC <$> [digest_now + 86400 * Second; digest_now]).
Proof.
  refine (proj1 (daily_at_most_once utc_zones fresh_digest 9 [digest_now + 86400 * Second; digest_now]
    _ _ _)).
  - vm_compute. reflexivity.
  - intros t u Hle. change (local_day UTC t <= local_day UTC u). unfold local_day, local_seconds, UTC.
    apply Z.div_le_mono; [lia|]. apply Z.add_le_mono_r, Z.div_le_mono; [unfold Second; lia|done].
  - apply dr_next; [apply dr_first; vm_compute; reflexivity|unfold Second; lia|vm_compute; reflexivity].
Defined.
