(* ===== verification/World.v ===== *)
(** * World: what the scheduler acts on

    A goroutine of the scheduler reads clocks, runs store operations and calls
    out to the host.  An action is a function of the state it runs in: the
    tables, the number of observations made so far and the trace of what left
    the process.  Between two of its steps every other worker and process may
    change the tables: [others] is their doing, as arbitrary as the theorems
    allow. *)

From Stdlib Require Import Ascii String.
From S2P Require Import Prelude GoStrings Json Task TaskPlan Store.

(** What leaves the process: messages handed to the transport, runs of a task's
    handler, calls of the host's hooks, archived chat sessions, audit records,
    and the kicks of the scheduler's own timer and outbox worker.  A graph run
    also reports the verdicts on its report, the repairs it asks for, what it
    saves as accepted, and its requests to end the task or to hand it back,
    each with whether the store carried it out. *)
Inductive event : Type :=
| EvSend (attempt : option uuid) (user : uuid) (text : string)
| EvRun (task : uuid) (iteration : Z)
| EvIterationHook (task : uuid) (output : string) (final partial notified : bool)
| EvStatusHook (task : uuid) (status : TaskStatus) (output : string)
| EvArchive (session : string)
| EvRecord (task : uuid) (iteration : Z) (outcome : string) (final : bool)
| EvWakeAt (at_ : time)
| EvDrain
| EvReview (task : uuid) (body : string) (met : bool)
| EvRepair (task : uuid)
| EvAccept (task : uuid) (body : string)
| EvFinalize (task : uuid) (outcome body : string) (ok : bool)
| EvYield (task : uuid) (next : time) (ok : bool).

Record host := MkHost {
  op_env : nat -> env;                     (* what the store operation at a step observes *)
  others : nat -> db -> db;                (* what happens to the tables before the step *)
  wall_clock : nat -> time;                (* [time.Now()] *)
}.

Record sys := MkSys { steps_done : nat; tables : db; trace : list event }.

Definition Act (A : Type) : Type := host -> sys -> A * sys.
#[global] Instance act_ret : MRet Act := fun A a h s => (a, s).
#[global] Instance act_bind : MBind Act := fun A B k m h s => let '(a, s') := m h s in k a h s'.

(** A store operation. *)
Definition call {A} (op : Op A) : Act (res StoreError A) := fun h s =>
  let '(r, d) := op (op_env h (steps_done s)) (others h (steps_done s) (tables s)) in
  (r, MkSys (S (steps_done s)) d (trace s)).
Definition Now : Act time := fun h s =>
  (wall_clock h (steps_done s), MkSys (S (steps_done s)) (tables s) (trace s)).
(** Asking the host, which may answer differently at every step. *)
Definition ask {A} (f : nat -> A) : Act A := fun h s =>
  (f (steps_done s), MkSys (S (steps_done s)) (tables s) (trace s)).
Definition emit (e : event) : Act unit := fun h s =>
  (tt, MkSys (steps_done s) (tables s) (trace s ++ [e])).

(** ** What an action can do *)

(** [reach P m]: from every state satisfying [P], under [h], every outcome of
    [m] satisfies [Q]. *)
Definition triple {A} (h : host) (P : sys -> Prop) (m : Act A) (Q : A -> sys -> Prop) : Prop :=
  forall s a s', P s -> m h s = (a, s') -> Q a s'.

Lemma triple_ret {A} h (P : sys -> Prop) (x : A) (Q : A -> sys -> Prop) :
  (forall s, P s -> Q x s) -> triple h P (mret x) Q.
Proof. intros H s a s' Hs [= <- <-]. by apply H. Qed.

Lemma triple_bind {A B} h (P : sys -> Prop) (m : Act A) (k : A -> Act B) R Q :
  triple h P m R -> (forall a, triple h (R a) (k a) Q) -> triple h P (m ≫= k) Q.
Proof.
  intros Hm Hk s b s' Hs. unfold mbind, act_bind. destruct (m h s) as [a s1] eqn:E.
  intros Hb. eapply Hk; [|exact Hb]. by eapply Hm.
Qed.

Lemma triple_pre {A} h (P P' : sys -> Prop) (m : Act A) Q :
  (forall s, P' s -> P s) -> triple h P m Q -> triple h P' m Q.
Proof. intros Hp Hm s a s' Hs. apply Hm. by apply Hp. Qed.

Lemma triple_post {A} h P (m : Act A) (Q Q' : A -> sys -> Prop) :
  triple h P m Q -> (forall a s, Q a s -> Q' a s) -> triple h P m Q'.
Proof. intros Hm Hq s a s' Hs E. apply Hq. by eapply Hm. Qed.

Lemma triple_call {A} h (P : sys -> Prop) (op : Op A) (Q : res StoreError A -> sys -> Prop) :
  (forall n d l r d', P (MkSys n d l) -> op (op_env h n) (others h n d) = (r, d') ->
     Q r (MkSys (S n) d' l)) ->
  triple h P (call op) Q.
Proof.
  intros H [n d l] a s' Hs. unfold call. simpl.
  destruct (op (op_env h n) (others h n d)) as [r d'] eqn:E. intros [= <- <-]. by eapply H.
Qed.

Lemma triple_ask {A} h (P : sys -> Prop) (f : nat -> A) (Q : A -> sys -> Prop) :
  (forall n d l, P (MkSys n d l) -> Q (f n) (MkSys (S n) d l)) -> triple h P (ask f) Q.
Proof. intros H [n d l] a s' Hs [= <- <-]. by apply H. Qed.

Lemma triple_Now h (P : sys -> Prop) (Q : time -> sys -> Prop) :
  (forall n d l, P (MkSys n d l) -> Q (wall_clock h n) (MkSys (S n) d l)) -> triple h P Now Q.
Proof. intros H [n d l] a s' Hs [= <- <-]. by apply H. Qed.

Lemma triple_emit h (P : sys -> Prop) e (Q : unit -> sys -> Prop) :
  (forall n d l, P (MkSys n d l) -> Q tt (MkSys n d (l ++ [e]))) -> triple h P (emit e) Q.
Proof. intros H [n d l] a s' Hs [= <- <-]. by apply H. Qed.

(** An invariant every step keeps. *)
Definition keeps {A} (h : host) (I : sys -> Prop) (m : Act A) : Prop :=
  triple h I m (fun _ => I).

Lemma keeps_ret {A} h I (x : A) : keeps h I (mret x).
Proof. by apply triple_ret. Qed.

Lemma keeps_bind {A B} h I (m : Act A) (k : A -> Act B) :
  keeps h I m -> (forall a, keeps h I (k a)) -> keeps h I (m ≫= k).
Proof. intros Hm Hk. eapply triple_bind; [exact Hm|]. intros a. apply Hk. Qed.

#[export] Hint Resolve keeps_ret : blueship.

(** ** The trace *)

(** [emits h m P]: what [m] adds to the trace, with its result, satisfies [P]. *)
Definition emits {A} (h : host) (m : Act A) (P : A -> list event -> Prop) : Prop :=
  forall s a s', m h s = (a, s') -> exists l, trace s' = trace s ++ l /\ P a l.

Lemma emits_ret {A} h (x : A) (P : A -> list event -> Prop) : P x [] -> emits h (mret x) P.
Proof. intros Hx s a s' [= <- <-]. exists []. by rewrite app_nil_r. Qed.

Lemma emits_bind {A B} h (m : Act A) (k : A -> Act B) P Q :
  emits h m P ->
  (forall a l1, P a l1 -> emits h (k a) (fun b l2 => Q b (l1 ++ l2))) -> emits h (m ≫= k) Q.
Proof.
  intros Hm Hk s b s' E. unfold mbind, act_bind in E. destruct (m h s) as [a s1] eqn:E1.
  destruct (Hm _ _ _ E1) as (l1 & H1 & Hp). destruct (Hk a l1 Hp _ _ _ E) as (l2 & H2 & Hq).
  exists (l1 ++ l2). by rewrite H2, H1, (assoc_L (++)).
Qed.

Lemma emits_weaken {A} h (m : Act A) (P Q : A -> list event -> Prop) :
  emits h m P -> (forall a l, P a l -> Q a l) -> emits h m Q.
Proof. intros Hm Hpq s a s' E. destruct (Hm _ _ _ E) as (l & ? & ?). exists l. eauto. Qed.

(** Every event [m] emits satisfies [p]. *)
Definition only {A} (h : host) (p : event -> bool) (m : Act A) : Prop :=
  emits h m (fun _ l => forallb p l = true).

Lemma only_ret {A} h p (x : A) : only h p (mret x).
Proof. by apply emits_ret. Qed.

Lemma only_bind {A B} h p (m : Act A) (k : A -> Act B) :
  only h p m -> (forall a, only h p (k a)) -> only h p (m ≫= k).
Proof.
  intros Hm Hk. eapply emits_bind; [exact Hm|]. intros a l1 H1.
  eapply emits_weaken; [apply Hk|]. intros b l2 H2. simpl in *. by rewrite forallb_app, H1, H2.
Qed.

Lemma only_call {A} h p (op : Op A) : only h p (call op).
Proof.
  intros s a s' E. unfold call in E. destruct (op _ _) as [r d]. injection E as <- <-.
  exists []. by rewrite app_nil_r.
Qed.

Lemma only_ask {A} h p (f : nat -> A) : only h p (ask f).
Proof. intros s a s' [= <- <-]. exists []. by rewrite app_nil_r. Qed.

Lemma only_Now h p : only h p Now.
Proof. intros s a s' [= <- <-]. exists []. by rewrite app_nil_r. Qed.

Lemma only_emit h (p : event -> bool) e : p e = true -> only h p (emit e).
Proof. intros He s a s' [= <- <-]. exists [e]. simpl. by rewrite He. Qed.

Lemma only_weaken {A} h (p q : event -> bool) (m : Act A) :
  only h p m -> (forall e, p e = true -> q e = true) -> only h q m.
Proof.
  intros Hm Hpq. eapply emits_weaken; [exact Hm|]. simpl. intros _ l Hl.
  apply forallb_Forall in Hl. apply forallb_Forall. eapply Forall_impl; [exact Hl|]. exact Hpq.
Qed.

#[export] Hint Resolve only_ret only_call only_ask only_Now : blueship.

(** [only_steps] walks through an action whose events are all allowed. *)
Ltac only_steps :=
  repeat first
    [ apply only_ret | apply only_call | apply only_ask | apply only_Now
    | apply only_emit; reflexivity
    | apply only_bind; [|intros ?]
    | match goal with |- only _ _ (match ?x with _ => _ end) => destruct x end
    | match goal with |- only _ _ (let '_ := ?x in _) => destruct x end ].

Lemma emits_call {A} h (op : Op A) :
  emits h (call op) (fun r l => l = [] /\ exists n d d', op (op_env h n) d = (r, d')).
Proof.
  intros s a s' E. unfold call in E. destruct (op _ _) as [r d] eqn:Eo. injection E as <- <-.
  exists []. rewrite app_nil_r. eauto 7.
Qed.

Lemma emits_ask {A} h (f : nat -> A) : emits h (ask f) (fun a l => l = [] /\ exists n, a = f n).
Proof. intros s a s' [= <- <-]. exists []. rewrite app_nil_r. eauto. Qed.

Lemma emits_Now h : emits h Now (fun t l => l = [] /\ exists n, t = wall_clock h n).
Proof. intros s a s' [= <- <-]. exists []. rewrite app_nil_r. eauto. Qed.
