(* ===== verification/Notify.v ===== *)
(** * Notify: carrying notifications to the transport

    internal/agenttask/scheduler.go and delivery_validation.go: the boundary
    between the notification journal and the transport.  A keyed message is
    admitted to the journal, handed to the transport once and its outcome
    recorded ([deliverTaskNotification], [resolveTaskNotificationAttempt]);
    refused ones are taken up again ([drainRetryableNotifications],
    [retryTaskNotification]).  The error markers ([DefinitelyNotSent],
    [PermanentlyNotSent] and the retry delay) are those of
    internal/core/agent.go.

    The transport, the validator of deliveries and the texts of other
    packages' errors are the host's. *)

From Stdlib Require Import Ascii String.
From S2P Require Import Prelude GoStrings Json Task TaskPlan AutonomousTurn Store Journal TaskRows.
From S2P Require Import TaskProgram TaskConfig World.

Local Open Scope Z_scope.

(** ** Markers of an error *)

(** A Go error as [errors.As] sees it: its text and the markers in its chain;
    of several delays the outermost one counts. *)
Record go_error := MkError {
  e_text : string;
  e_definite : bool;
  e_permanent : bool;
  e_delay : option duration;
}.
Definition Errorf (text : string) : go_error := MkError text false false None.

Definition IsDefinitelyNotSent := e_definite.
Definition IsPermanentlyNotSent := e_permanent.
Definition DefinitelyNotSent (e : go_error) : go_error :=
  MkError (e_text e) true (e_permanent e) (e_delay e).
Definition DefinitelyNotSentAfter (e : go_error) (delay : duration) : go_error :=
  if IsPermanentlyNotSent e then e
  else DefinitelyNotSent (MkError (e_text e) (e_definite e) (e_permanent e) (Some delay)).
Definition NotificationRetryDelay (e : go_error) : option duration :=
  if IsPermanentlyNotSent e then None else e_delay e.
Definition PermanentlyNotSent (e : go_error) : go_error :=
  if IsPermanentlyNotSent e then e else MkError (e_text e) true true (e_delay e).

Definition maxNotificationRetriesPerTick : nat := 20.
Definition maxNotificationConfirmAttempts : nat := 3.
Definition defaultNotificationRetryDelay : duration := Minute.
Definition minNotificationRetryDelay : duration := Second.

(** ** The host's side *)

(** A receipt: its transport and its JSON form. *)
Definition receipt : Type := string * json.

Record notifier := MkNotifier {
  nt_send : option (nat -> option TaskOrigin -> uuid -> string -> res go_error receipt);
  nt_validate : option (nat -> AgentTask -> list TaskDeliveryRef -> res go_error bool);
  nt_journal : bool;                       (* the store is a journal *)
  nt_expired : nat -> bool;                (* the finalizing context has ended *)
  nt_locked : nat -> uuid -> bool;         (* rows another drainer holds *)
  nt_digest : bytes -> string;
  nt_uuid_Parse : string -> option uuid;
  nt_store_text : StoreError -> string;
  nt_origin_text : OriginError -> string;
  nt_hook : bool;                          (* AgentIterationCompletedHook is set *)
}.

Section notify.
Context (nt : notifier).

(** The one provider call, with the attempt its context carries. *)
Definition transport (attempt : option uuid) (origin : option TaskOrigin) (user : uuid)
    (text : string) : Act (res go_error receipt) :=
  match nt_send nt with
  | None => mret (Err (Errorf "sender unavailable"))
  | Some send => _ ← emit (EvSend attempt user text); ask (fun n => send n origin user text)
  end.

(** [validatedTaskNotifier] applied to its arguments, once a sender is there. *)
Definition validatedTaskNotifier (task : AgentTask) (refs : list TaskDeliveryRef)
    (attempt : option uuid) (user : uuid) (text : string) : Act (res go_error receipt) :=
  if negb (N.eqb user (UserID task))
  then mret (Err (PermanentlyNotSent (Errorf "delivery user does not match task user")))
  else match TaskOriginFromConfig (nt_uuid_Parse nt) (Config task) with
  | Err e => mret (Err (PermanentlyNotSent
                          (Errorf ("task delivery origin: " ++ nt_origin_text nt e))))
  | Ok origin =>
      match refs, nt_validate nt with
      | [], _ | _, None => transport attempt origin user text
      | _, Some validate =>
          current ← ask (fun n => validate n task refs);
          match current : res go_error bool with
          | Err e => mret (Err (DefinitelyNotSent
              (MkError ("validate notification occurrences: " ++ e_text e)
                 (e_definite e) (e_permanent e) (e_delay e))))
          | Ok false => mret (Err (PermanentlyNotSent
              (Errorf "notification occurrences are no longer current")))
          | Ok true => transport attempt origin user text
          end
      end
  end.

(** ** Recording the outcome *)

Inductive delivery_error : Type :=
| NoDeliverableText
| SenderUnavailable
| SendFailed (e : go_error)
| JournalUnavailable
| BeginFailed (e : StoreError)
| ConfirmFailed (e : StoreError)
| RejectedPermanently (e : go_error) (journal : option StoreError)
| NotDeferred (e : go_error) (journal : StoreError)
| Deferred (e : go_error) (retryAt : time)
| Uncertain (e : go_error) (journal : option StoreError).

(** The tries of a confirmation, [tries] at most. *)
Fixpoint confirm (tries : nat) (id : uuid) (r : receipt) (last : StoreError)
    : Act (res StoreError unit) :=
  match tries with
  | O => mret (Err last)
  | S tries =>
      c ← call (ConfirmNotificationAttempt (nt_uuid_Parse nt) id (fst r) (snd r));
      match c : res StoreError unit with
      | Ok _ => mret (Ok tt)
      | Err e =>
          expired ← ask (nt_expired nt);
          if expired : bool then mret (Err e) else confirm tries id r e
      end
  end.

Definition retry_delay (e : go_error) : duration :=
  match NotificationRetryDelay e with
  | None => defaultNotificationRetryDelay
  | Some d => if Z.ltb d minNotificationRetryDelay then minNotificationRetryDelay else d
  end.

Definition resolveTaskNotificationAttempt (id : uuid) (outcome : res go_error receipt)
    : Act (bool * option delivery_error) :=
  match outcome with
  | Ok r =>
      c ← confirm maxNotificationConfirmAttempts id r EDatabase;
      mret (true, match c : res StoreError unit with Ok _ => None | Err e => Some (ConfirmFailed e) end)
  | Err e =>
      if IsPermanentlyNotSent e then
        r ← call (RejectNotificationAttempt id (e_text e));
        mret (false, Some (RejectedPermanently e
                match r : res StoreError unit with Ok _ => None | Err x => Some x end))
      else if IsDefinitelyNotSent e then
        now ← Now;
        let retryAt := (now : time) + retry_delay e in
        r ← call (DeferNotificationAttempt id (e_text e) retryAt);
        mret (false, Some match r : res StoreError unit with
                          | Ok _ => Deferred e retryAt
                          | Err x => NotDeferred e x
                          end)
      else
        r ← call (MarkNotificationUncertain id (e_text e));
        mret (false, Some (Uncertain e
                match r : res StoreError unit with Ok _ => None | Err x => Some x end))
  end.

(** ** Delivering *)

Record taskNotificationOutcome := MkOutcome { Handled : bool; Delivered : bool }.

Definition empty_text (text : string) : bool :=
  blank text || String.eqb (TrimSpace text) "[no-op]".

(** [task] is the task the notifier validates for; [taskID] and [userID] are
    the ones journaled. *)
Definition deliverTaskNotification (task : AgentTask) (vrefs : list TaskDeliveryRef)
    (taskID userID : uuid) (text : string) (refs : list TaskDeliveryRef)
    : Act (taskNotificationOutcome * option delivery_error) :=
  if empty_text text
  then mret (MkOutcome true false, match refs with [] => None | _ => Some NoDeliverableText end)
  else match refs with
  | [] =>
      if is_none (nt_send nt) then mret (MkOutcome false false, Some SenderUnavailable)
      else
        r ← validatedTaskNotifier task vrefs None userID text;
        mret match r : res go_error receipt with
             | Ok _ => (MkOutcome true true, None)
             | Err e => (MkOutcome false false, Some (SendFailed e))
             end
  | _ =>
      if negb (nt_journal nt) then mret (MkOutcome true false, Some JournalUnavailable)
      else
        b ← call (BeginNotificationAttempt (nt_digest nt) taskID userID text refs);
        match b : res StoreError (uuid * bool) with
        | Err e => mret (MkOutcome true false, Some (BeginFailed e))
        | Ok (_, false) => mret (MkOutcome true false, None)
        | Ok (id, true) =>
            sent ← (if is_none (nt_send nt)
                    then mret (Err (DefinitelyNotSent (Errorf "sender unavailable")))
                    else validatedTaskNotifier task vrefs (Some id) userID text);
            p ← resolveTaskNotificationAttempt id sent;
            let '(delivered, err) := p : bool * option delivery_error in
            mret (MkOutcome true delivered, err)
        end
  end.

(** ** Retrying *)

Definition progress_stage (r : TaskDeliveryRef) : bool :=
  String.eqb (InputID r) "task_lifecycle" && String.eqb (ItemKey r) "progress".

Definition retryTaskNotification (uuid_String : uuid -> string) (intent : TaskNotificationIntent)
    : Act (option delivery_error) :=
  found ← call (Get (ni_TaskID intent));
  match found : res StoreError AgentTask with
  | Err e =>
      p ← resolveTaskNotificationAttempt (ni_ID intent) (Err (DefinitelyNotSent
            (Errorf ("lookup task " ++ uuid_String (ni_TaskID intent) ++ ": " ++ nt_store_text nt e))));
      mret (snd (p : bool * option delivery_error))
  | Ok task =>
      if negb (N.eqb (UserID task) (ni_UserID intent)) then
        p ← resolveTaskNotificationAttempt (ni_ID intent) (Err (PermanentlyNotSent
              (Errorf ("notification user " ++ uuid_String (ni_UserID intent)
                       ++ " does not match task user " ++ uuid_String (UserID task)))));
        mret (snd (p : bool * option delivery_error))
      else if existsb progress_stage (ni_Refs intent) && negb (task_live (Status task)) then
        p ← resolveTaskNotificationAttempt (ni_ID intent)
              (Err (PermanentlyNotSent (Errorf "task is already terminal")));
        mret (snd (p : bool * option delivery_error))
      else if is_none (nt_send nt) then
        p ← resolveTaskNotificationAttempt (ni_ID intent)
              (Err (DefinitelyNotSent (Errorf "sender unavailable")));
        mret (snd (p : bool * option delivery_error))
      else
        sent ← validatedTaskNotifier task (ni_Refs intent) (Some (ni_ID intent))
                 (ni_UserID intent) (ni_Text intent);
        p ← resolveTaskNotificationAttempt (ni_ID intent) sent;
        let '(delivered, err) := p : bool * option delivery_error in
        _ ← (if delivered && is_none err && nt_hook nt
             then emit (EvIterationHook (ID task) "" false false true) else mret tt);
        mret err
  end.

Definition wakeForNotificationRetry (e : option delivery_error) : Act unit :=
  match e with Some (Deferred _ t) => emit (EvWakeAt t) | _ => mret tt end.

Fixpoint drain (uuid_String : uuid -> string) (claimBefore : time) (rounds : nat) : Act unit :=
  match rounds with
  | O => mret tt
  | S rounds =>
      locked ← ask (nt_locked nt);
      c ← call (ClaimRetryableNotification locked claimBefore);
      match c : res StoreError (option TaskNotificationIntent) with
      | Err _ | Ok None => mret tt
      | Ok (Some intent) =>
          e ← retryTaskNotification uuid_String intent;
          _ ← wakeForNotificationRetry e;
          drain uuid_String claimBefore rounds
      end
  end.
Definition drainRetryableNotifications (uuid_String : uuid -> string) : Act unit :=
  if negb (nt_journal nt) then mret tt
  else now ← Now; drain uuid_String now maxNotificationRetriesPerTick.
End notify.
