(* ===== verification/NotifyInv.v ===== *)
(** * NotifyInv: every send was admitted

    The two halves of at-most-once meet here: the journal admits an attempt,
    the scheduler sends it.  [credited] counts the messages handed to the
    transport against the attempts the journal counted; every action keeps it,
    whatever the other workers do to the journal in between
    ([sends_were_admitted]), and the outcome of a send is recorded in the row
    ([outcome_recorded]). *)

From Stdlib Require Import Ascii String.
From S2P Require Import Prelude GoStrings Json Task TaskPlan AutonomousTurn Store StepStore StepInv.
From S2P Require Import Journal Lifecycle Finalize FinalizeInv TaskRows JournalInv Delivery.
From S2P Require Import TaskConfig World Notify.

Local Open Scope Z_scope.

Definition is_send (id : uuid) (e : event) : bool :=
  match e with EvSend (Some i) _ _ => N.eqb i id | _ => false end.
Definition sends (id : uuid) (l : list event) : Z := affected (is_send id) l.
Definition attempts (d : db) (id : uuid) : Z :=
  match notifications d !! id with Some a => n_AttemptCount a | None => 0 end.

(** The journal is well-formed and has counted every send; with a credit, it has
    counted one more of that attempt. *)
Definition credited (credit : option uuid) (s : sys) : Prop :=
  journal_inv (tables s)
  /\ forall id, sends id (trace s) + (if bool_decide (credit = Some id) then 1 else 0)
                <= attempts (tables s) id.

Lemma credited_weaken c s : credited c s -> credited None s.
Proof.
  intros [Hi Hc]. split; [done|]. intros id. specialize (Hc id).
  rewrite (bool_decide_eq_false_2 (None = Some id)) by done. case_bool_decide; simpl in *; lia.
Qed.

Lemma sends_emit id e l : sends id (l ++ [e]) = sends id l + (if is_send id e then 1 else 0).
Proof.
  unfold sends, affected. rewrite List.filter_app, length_app. simpl.
  destruct (is_send id e); simpl; lia.
Qed.

Section inv.
Context (nt : notifier) (collate : string -> string -> bool).
#[local] Abbreviation jstep := (journal_step collate (nt_digest nt) (nt_uuid_Parse nt)).

(** What the others do is made of journal operations and of changes that leave
    the journal alone. *)
Definition journal_world (h : host) : Prop := forall n d, rtc jstep d (others h n d).

Lemma jsteps_attempts d d' id :
  rtc jstep d d' -> journal_inv d -> attempts d id <= attempts d' id.
Proof.
  intros Hs Hi. unfold attempts at 1. destruct (notifications d !! id) as [a|] eqn:Ha.
  - destruct (journal_steps_attempt _ _ _ _ _ _ _ Hs Hi Ha) as (a' & Ha' & _ & Hc & _).
    unfold attempts. by rewrite Ha'.
  - pose proof (journal_steps_inv _ _ _ _ _ Hs Hi) as Hi'. unfold attempts.
    destruct (notifications d' !! id) as [a'|] eqn:Ha'; [|lia].
    by destruct (ji_shape _ Hi' _ _ Ha').
Qed.

Lemma credited_steps c n n' d d' l :
  rtc jstep d d' -> credited c (MkSys n d l) -> credited c (MkSys n' d' l).
Proof.
  intros Hs [Hi Hc]. split; [by eapply journal_steps_inv|]. simpl in *. intros id.
  specialize (Hc id). pose proof (jsteps_attempts d d' id Hs Hi). lia.
Qed.

Context (h : host) (Hworld : journal_world h).

(** A store operation that is a journal step keeps the count. *)
Lemma keeps_call {A} c (op : Op A) :
  (forall e d r d', op e d = (r, d') -> jstep d d') -> keeps h (credited c) (call op).
Proof.
  intros Hop. apply triple_call. intros n d l r d' Hs Hr.
  eapply credited_steps; [|exact Hs]. eapply rtc_r; [apply Hworld|]. by eapply Hop.
Qed.

Lemma keeps_ask {A} c (f : nat -> A) : keeps h (credited c) (ask f).
Proof. apply triple_ask. intros n d l Hs. eapply credited_steps; [apply rtc_refl|exact Hs]. Qed.

Lemma keeps_Now c : keeps h (credited c) Now.
Proof. apply triple_Now. intros n d l Hs. eapply credited_steps; [apply rtc_refl|exact Hs]. Qed.

Lemma keeps_emit c e : (forall id, is_send id e = false) -> keeps h (credited c) (emit e).
Proof.
  intros He. apply triple_emit. intros n d l [Hi Hc]. split; [done|]. intros id. simpl in *.
  rewrite sends_emit, He. specialize (Hc id). lia.
Qed.

(** Spending the credit. *)
Lemma spend id user text : triple h (credited (Some id)) (emit (EvSend (Some id) user text)) (fun _ => credited None).
Proof.
  apply triple_emit. intros n d l [Hi Hc]. split; [done|]. intros i. simpl in *.
  rewrite sends_emit. specialize (Hc i). simpl in *.
  destruct (N.eqb_spec id i) as [->|Hne].
  - rewrite bool_decide_eq_true_2 in Hc by done. lia.
  - rewrite bool_decide_eq_false_2 in Hc by congruence. lia.
Qed.

Lemma drop_credit {A} credit (m : Act A) :
  keeps h (credited None) m -> triple h (credited credit) m (fun _ => credited None).
Proof. intros Hm. eapply triple_pre; [|exact Hm]. intros s. apply credited_weaken. Qed.

Lemma transport_spends id origin user text :
  triple h (credited (Some id)) (transport nt (Some id) origin user text) (fun _ => credited None).
Proof.
  unfold transport. destruct (nt_send nt) as [send|].
  - eapply triple_bind; [apply spend|]. intros u. apply keeps_ask.
  - apply triple_ret. intros s. apply credited_weaken.
Qed.

Lemma transport_unkeyed origin user text :
  keeps h (credited None) (transport nt None origin user text).
Proof.
  unfold transport. destruct (nt_send nt) as [send|]; [|apply keeps_ret].
  apply keeps_bind; [by apply keeps_emit|]. intros _. apply keeps_ask.
Qed.

Lemma notifier_spends task refs attempt user text :
  triple h (credited attempt) (validatedTaskNotifier nt task refs attempt user text)
    (fun _ => credited None).
Proof.
  assert (forall x : res go_error receipt,
    triple h (credited attempt) (mret x) (fun _ => credited None)) as Hret
    by (intros x; apply triple_ret; intros s; apply credited_weaken).
  assert (forall origin, triple h (credited attempt) (transport nt attempt origin user text)
    (fun _ => credited None)) as Htr
    by (intros origin; destruct attempt; [apply transport_spends|apply transport_unkeyed]).
  unfold validatedTaskNotifier. destruct (negb _); [apply Hret|].
  destruct (TaskOriginFromConfig _ _) as [origin|e]; [|apply Hret].
  destruct refs as [|r refs]; [apply Htr|]. destruct (nt_validate nt) as [validate|]; [|apply Htr].
  eapply triple_bind; [apply keeps_ask|]. intros [[]|e]; [apply Htr|apply Hret|apply Hret].
Qed.

Lemma confirm_keeps tries id r last : keeps h (credited None) (confirm nt tries id r last).
Proof.
  revert last. induction tries as [|tries IH]; intros last; [apply keeps_ret|].
  apply keeps_bind; [apply keeps_call; intros; by eapply js_confirm|].
  intros [?|e]; [apply keeps_ret|]. apply keeps_bind; [apply keeps_ask|].
  intros []; [apply keeps_ret|apply IH].
Qed.

Lemma resolve_keeps id outcome : keeps h (credited None) (resolveTaskNotificationAttempt nt id outcome).
Proof.
  unfold resolveTaskNotificationAttempt. destruct outcome as [r|e].
  - apply keeps_bind; [apply confirm_keeps|]. intros c. apply keeps_ret.
  - destruct (IsPermanentlyNotSent e).
    { apply keeps_bind; [apply keeps_call; intros; by eapply js_reject|]. intros ?. apply keeps_ret. }
    destruct (IsDefinitelyNotSent e).
    + apply keeps_bind; [apply keeps_Now|]. intros now.
      apply keeps_bind; [apply keeps_call; intros; by eapply js_defer|]. intros ?. apply keeps_ret.
    + apply keeps_bind; [apply keeps_call; intros; by eapply js_uncertain|]. intros ?. apply keeps_ret.
Qed.

(** Admission earns the credit. *)
Lemma begin_credits task user text refs :
  triple h (credited None) (call (BeginNotificationAttempt (nt_digest nt) task user text refs))
    (fun r => credited match r with Ok (id, true) => Some id | _ => None end).
Proof.
  apply triple_call. intros n d l r d' Hs Hr.
  assert (credited None (MkSys n (others h n d) l)) as [Hi Hc]
    by (eapply credited_steps; [apply Hworld|exact Hs]).
  assert (credited None (MkSys (S n) d' l)) as [Hi' Hc'].
  { eapply credited_steps; [apply rtc_once; by eapply js_begin|by split]. }
  apply Begin_cases in Hr as [[-> Hr]|(id & a & out & -> & _ & _ & Hj & _ & _ & _ & _ & Hcount & _)].
  - destruct r as [[id []]|]; [by destruct (Hr id)|done..].
  - split; [done|]. destruct Hj as (Hnew & _ & Hn & _). simpl in *. intros i.
    specialize (Hc i). specialize (Hc' i). simpl in Hc, Hc'.
    case_bool_decide as Hid; [|lia]. injection Hid as ->.
    unfold attempts in *. rewrite Hnew in Hc. rewrite Hn, lookup_insert_eq in *. lia.
Qed.

Lemma claim_credits locked now :
  triple h (credited None) (call (ClaimRetryableNotification locked now))
    (fun r => credited match r with Ok (Some intent) => Some (ni_ID intent) | _ => None end).
Proof.
  apply triple_call. intros n d l r d' Hs Hr.
  assert (credited None (MkSys n (others h n d) l)) as [Hi Hc]
    by (eapply credited_steps; [apply Hworld|exact Hs]).
  assert (credited None (MkSys (S n) d' l)) as [Hi' Hc'].
  { eapply credited_steps; [apply rtc_once; by eapply js_drain|by split]. }
  apply ClaimRetryable_cases in Hr as [[-> Hr]|(id & a & Ha & _ & _ & Hn & _ & _ & ->)].
  - destruct r as [[intent|]|]; [by destruct (Hr intent)|done..].
  - split; [done|]. simpl in *. intros i.
    specialize (Hc i). specialize (Hc' i). simpl in Hc, Hc'.
    case_bool_decide as Hid; [|lia]. injection Hid as ->.
    unfold attempts in *. rewrite Ha in Hc. rewrite Hn, lookup_insert_eq in *. simpl in *. lia.
Qed.

Lemma deliver_keeps task vrefs taskID userID text refs :
  keeps h (credited None) (deliverTaskNotification nt task vrefs taskID userID text refs).
Proof.
  unfold deliverTaskNotification. destruct (empty_text text); [apply keeps_ret|].
  destruct refs as [|r refs].
  - destruct (is_none _); [apply keeps_ret|].
    apply keeps_bind; [apply notifier_spends|]. intros ?. apply keeps_ret.
  - destruct (negb _); [apply keeps_ret|]. eapply triple_bind; [apply begin_credits|].
    intros [[id []]|e]; [|apply keeps_ret|apply keeps_ret].
    eapply triple_bind with (R := fun _ => credited None).
    { destruct (is_none _); [apply triple_ret; intros s; apply credited_weaken|apply notifier_spends]. }
    intros sent. apply keeps_bind; [apply resolve_keeps|]. intros []. apply keeps_ret.
Qed.

Lemma keeps_Get c id : keeps h (credited c) (call (Get id)).
Proof.
  apply keeps_call. intros e d r d' Hr.
  assert (d' = d) as ->; [|by apply js_other].
  apply autocommit_cases in Hr as [?|(a & n & Ha & _)]; [done|].
  tx_inv. case_match; by tx_inv.
Qed.

Lemma retry_keeps uuid_String intent :
  triple h (credited (Some (ni_ID intent))) (retryTaskNotification nt uuid_String intent)
    (fun _ => credited None).
Proof.
  assert (forall c outcome, triple h (credited c)
    (p ← resolveTaskNotificationAttempt nt (ni_ID intent) outcome; mret (snd (p : bool * option delivery_error)))
    (fun _ => credited None)) as Hres.
  { intros c outcome. apply drop_credit, keeps_bind; [apply resolve_keeps|]. intros p. apply keeps_ret. }
  unfold retryTaskNotification. eapply triple_bind; [apply keeps_Get|].
  intros [task|e]; [|apply Hres]. destruct (negb _); [apply Hres|].
  destruct (_ && _); [apply Hres|]. destruct (is_none _); [apply Hres|].
  eapply triple_bind; [apply notifier_spends|]. intros sent.
  apply keeps_bind; [apply resolve_keeps|]. intros [delivered err].
  apply keeps_bind; [destruct (_ && _ && _); [by apply keeps_emit|apply keeps_ret]|].
  intros _. apply keeps_ret.
Qed.

Lemma drain_keeps uuid_String before rounds :
  keeps h (credited None) (drain nt uuid_String before rounds).
Proof.
  induction rounds as [|rounds IH]; [apply keeps_ret|]. simpl.
  apply keeps_bind; [apply keeps_ask|]. intros locked.
  eapply triple_bind; [apply claim_credits|].
  intros [[intent|]|e]; [|apply keeps_ret|apply keeps_ret].
  eapply triple_bind; [apply retry_keeps|]. intros err.
  apply keeps_bind; [destruct err as [[]|]; first [by apply keeps_emit|apply keeps_ret]|].
  intros u. apply IH.
Qed.

Lemma drainRetryable_keeps uuid_String :
  keeps h (credited None) (drainRetryableNotifications nt uuid_String).
Proof.
  unfold drainRetryableNotifications. destruct (negb _); [apply keeps_ret|].
  apply keeps_bind; [apply keeps_Now|]. intros now. apply drain_keeps.
Qed.
End inv.

(** ** Histories *)

Inductive notify_action : Type :=
| AcDeliver (task : AgentTask) (vrefs : list TaskDeliveryRef) (taskID userID : uuid)
    (text : string) (refs : list TaskDeliveryRef)
| AcDrain.

Definition run_action (nt : notifier) (uuid_String : uuid -> string) (a : notify_action) : Act unit :=
  match a with
  | AcDeliver task vrefs taskID userID text refs =>
      _ ← deliverTaskNotification nt task vrefs taskID userID text refs; mret tt
  | AcDrain => drainRetryableNotifications nt uuid_String
  end.
Fixpoint run_actions (nt : notifier) (uuid_String : uuid -> string) (l : list notify_action) : Act unit :=
  match l with
  | [] => mret tt
  | a :: l => _ ← run_action nt uuid_String a; run_actions nt uuid_String l
  end.

Lemma run_actions_keep nt collate h uuid_String l :
  journal_world nt collate h -> keeps h (credited None) (run_actions nt uuid_String l).
Proof.
  intros Hw. induction l as [|a l IH]; [apply keeps_ret|].
  apply keeps_bind; [|intros u; apply IH].
  destruct a; [apply keeps_bind; [by eapply deliver_keeps|intros u; apply keeps_ret]|].
  by eapply drainRetryable_keeps.
Qed.

(** C17: at most once, end to end.  However deliveries and retries interleave
    with each other and with the other workers of the journal, the transport is
    never handed a keyed message that the journal did not admit: an attempt is
    sent at most as often as it was begun or claimed, and one that is sent,
    rejected or uncertain is final (a second send needs a recorded refusal). *)
Theorem sends_were_admitted nt collate h uuid_String l n d s'
  (Hworld : journal_world nt collate h)
  (Hinv : journal_inv d)
  (Hrun : run_actions nt uuid_String l h (MkSys n d []) = (tt, s')) :
  journal_inv (tables s')
  /\ forall id, sends id (trace s') <= attempts (tables s') id
     /\ (sends id (trace s') <> 0 -> is_Some (notifications (tables s') !! id)).
Proof.
  assert (credited None (MkSys n d [])) as H0.
  { split; [done|]. intros id. unfold attempts, sends, affected. simpl.
    destruct (notifications d !! id) as [a|] eqn:Ha; [|lia].
    by destruct (ji_shape _ Hinv _ _ Ha). }
  destruct (run_actions_keep nt collate h uuid_String l Hworld _ _ _ H0 Hrun) as [Hi Hc].
  split; [done|]. intros id. specialize (Hc id). simpl in Hc. split; [lia|].
  intros Hs. unfold attempts in Hc. destruct (notifications (tables s') !! id); [done|].
  unfold sends, affected in *. lia.
Qed.

(** ** Outcomes *)

(** What the row of a dispatching attempt becomes. *)
Definition records (nt : notifier) (id : uuid) (outcome : res go_error receipt) (t : time)
    (a a' : NotificationAttempt) : Prop :=
  same_intent a a' /\
  match outcome with
  | Ok r => n_State a' = NSent /\ n_Receipt a' = Some (snd r)
  | Err e =>
      n_Error a' = Some (TrimSpace (e_text e)) /\
      if IsPermanentlyNotSent e then n_State a' = NRejected
      else if IsDefinitelyNotSent e
      then n_State a' = NRetryable /\ n_NextAttemptAt a' = Some (t + retry_delay e)
      else n_State a' = NUncertain
  end.

(** A receipt the journal can confirm. *)
Definition confirmable (nt : notifier) (r : receipt) (a : NotificationAttempt) : Prop :=
  blank (fst r) = false
  /\ exists turn, ParseAutonomousTurnNotification (nt_uuid_Parse nt) (n_Text a) = Ok turn
     /\ match turn with Some c => cm_UserID c = n_UserID a | None => True end.

Lemma update_dispatching_lookup id f d a :
  notifications d !! id = Some a -> n_State a = NDispatching ->
  notifications (update_dispatching id f d) !! id = Some (f a).
Proof.
  intros Ha Hs. unfold update_dispatching. simpl. rewrite lookup_alter_eq, Ha. simpl.
  by rewrite bool_decide_eq_true_2.
Qed.

Lemma update_dispatching_alter id f d a :
  notifications d !! id = Some a -> n_State a = NDispatching ->
  alter (fun a => if bool_decide (n_State a = NDispatching) then f a else a) id (notifications d) !! id
  = Some (f a).
Proof. intros Ha Hs. exact (update_dispatching_lookup id f d a Ha Hs). Qed.

Ltac run_statements Hf Ha Hs := repeat first [rewrite Hf | rewrite Ha | rewrite Hs
  | progress unfold lock_attempt, exec, exec_count, query, tx_now, stmt, mbind, tx_bind, mret, tx_ret
  | progress cbn].

(** With the database up, each journal operation on a dispatching attempt
    applies. *)
Lemma Confirm_applies uuid_Parse id tr rc e d a turn :
  (forall k, fault e k = false) -> id <> uuid_Nil -> blank tr = false ->
  notifications d !! id = Some a -> n_State a = NDispatching ->
  ParseAutonomousTurnNotification uuid_Parse (n_Text a) = Ok turn ->
  match turn with Some c => cm_UserID c = n_UserID a | None => True end ->
  exists d', ConfirmNotificationAttempt uuid_Parse id tr rc e d = (Ok tt, d')
    /\ notifications d' !! id = Some (resolve NSent (Some rc) None None (Some (clk e 0%nat)) a).
Proof.
  intros Hf Hid Htr Ha Hs Hp Hu. unfold ConfirmNotificationAttempt.
  rewrite (proj2 (N.eqb_neq _ _) Hid), Htr. unfold run_tx. rewrite Hf.
  run_statements Hf Ha Hs.
  rewrite Hp. replace (match turn with Some c => negb (cm_UserID c =? n_UserID a)%N | None => false end)
    with false by (destruct turn; [by rewrite Hu, N.eqb_refl|done]).
  run_statements Hf Ha Hs. rewrite (bool_decide_eq_true_2 (NDispatching = NDispatching)) by done.
  run_statements Hf Ha Hs. eexists. split; [reflexivity|]. simpl. by apply update_dispatching_alter.
Qed.

Lemma Uncertain_applies id reason e d a :
  (forall k, fault e k = false) -> id <> uuid_Nil -> blank reason = false ->
  notifications d !! id = Some a -> n_State a = NDispatching ->
  exists d', MarkNotificationUncertain id reason e d = (Ok tt, d')
    /\ notifications d' !! id
       = Some (resolve NUncertain None (Some (TrimSpace reason)) None (Some (clk e 0%nat)) a).
Proof.
  intros Hf Hid Hr Ha Hs. unfold MarkNotificationUncertain.
  rewrite (proj2 (N.eqb_neq _ _) Hid). unfold blank in Hr. rewrite Hr. unfold run_tx. rewrite Hf.
  run_statements Hf Ha Hs. eexists. split; [reflexivity|]. by apply update_dispatching_alter.
Qed.

Lemma Defer_applies id reason at_ e d a :
  (forall k, fault e k = false) -> id <> uuid_Nil -> blank reason = false -> IsZero at_ = false ->
  notifications d !! id = Some a -> n_State a = NDispatching ->
  exists d', DeferNotificationAttempt id reason at_ e d = (Ok tt, d')
    /\ notifications d' !! id
       = Some (resolve NRetryable (n_Receipt a) (Some (TrimSpace reason)) (Some at_) None a).
Proof.
  intros Hf Hid Hr Hz Ha Hs. unfold DeferNotificationAttempt.
  rewrite (proj2 (N.eqb_neq _ _) Hid), Hr, Hz. unfold run_tx. rewrite Hf.
  run_statements Hf Ha Hs. eexists. split; [reflexivity|].
  exact (update_dispatching_lookup id _ d a Ha Hs).
Qed.

Lemma Reject_applies id reason e d a :
  (forall k, fault e k = false) -> id <> uuid_Nil -> blank reason = false ->
  notifications d !! id = Some a -> n_State a = NDispatching ->
  exists d', RejectNotificationAttempt id reason e d = (Ok tt, d')
    /\ notifications d' !! id
       = Some (resolve NRejected (n_Receipt a) (Some (TrimSpace reason)) None (Some (clk e 0%nat)) a).
Proof.
  intros Hf Hid Hr Ha Hs. unfold RejectNotificationAttempt.
  rewrite (proj2 (N.eqb_neq _ _) Hid), Hr. unfold run_tx. rewrite Hf.
  run_statements Hf Ha Hs. eexists. split; [reflexivity|].
  exact (update_dispatching_lookup id _ d a Ha Hs).
Qed.

Lemma quiet_call {A} (op : Op A) h n d l :
  (forall n d, others h n d = d) ->
  call op h (MkSys n d l) = let '(r, d') := op (op_env h n) d in (r, MkSys (S n) d' l).
Proof. intros Ho. unfold call. simpl. by rewrite Ho. Qed.

(** Every outcome is recorded.  With the database up and nobody else at the
    attempt, resolving a dispatching attempt leaves its row in the state of the
    outcome: sent with its receipt, rejected for good, to be retried no sooner
    than the asked delay and never within a second, or uncertain; the intent is
    untouched, and success is reported for a sent message alone. *)
Theorem outcome_recorded nt h id outcome n d l a
  (Hquiet : forall n d, others h n d = d)
  (Hup : forall n k, fault (op_env h n) k = false)
  (Hid : id <> uuid_Nil)
  (Ha : notifications d !! id = Some a) (Hs : n_State a = NDispatching)
  (Hout : match outcome with
          | Ok r => confirmable nt r a
          | Err e => blank (e_text e) = false /\ IsZero (wall_clock h n + retry_delay e) = false
          end) :
  exists delivered err n' d' a',
    resolveTaskNotificationAttempt nt id outcome h (MkSys n d l) = ((delivered, err), MkSys n' d' l)
    /\ notifications d' !! id = Some a' /\ records nt id outcome (wall_clock h n) a a'
    /\ delivered = is_ok outcome /\ (err = None <-> is_ok outcome = true)
    /\ (forall e, outcome = Err e -> minNotificationRetryDelay <= retry_delay e).
Proof.
  assert (forall e, minNotificationRetryDelay <= retry_delay e) as Hmin.
  { intros e. unfold retry_delay, minNotificationRetryDelay, defaultNotificationRetryDelay, Minute, Second.
    destruct (NotificationRetryDelay e) as [dl|]; [|lia]. destruct (Z.ltb_spec dl 1000000000); lia. }
  unfold resolveTaskNotificationAttempt, records. destruct outcome as [r|e].
  - destruct Hout as (Hb & turn & Hp & Hu).
    destruct (Confirm_applies (nt_uuid_Parse nt) id (fst r) (snd r) (op_env h n) d a turn) as (d' & Hc & Hl);
      [done..|].
    do 5 eexists. unfold maxNotificationConfirmAttempts. simpl.
    unfold mbind, act_bind. rewrite quiet_call by done. rewrite Hc.
    split; [reflexivity|]. split; [exact Hl|]. by repeat split.
  - destruct Hout as [Hb Hz]. destruct (IsPermanentlyNotSent e) eqn:Hperm.
    { destruct (Reject_applies id (e_text e) (op_env h n) d a) as (d' & Hc & Hl); [done..|].
      do 5 eexists. unfold mbind, act_bind. rewrite quiet_call by done. rewrite Hc.
      split; [reflexivity|]. split; [exact Hl|]. by repeat split. }
    destruct (IsDefinitelyNotSent e) eqn:Hdef.
    + destruct (Defer_applies id (e_text e) (wall_clock h n + retry_delay e) (op_env h (S n)) d a)
        as (d' & Hc & Hl); [done..|].
      do 5 eexists. unfold mbind, act_bind, Now. simpl. rewrite quiet_call by done. rewrite Hc.
      split; [reflexivity|]. split; [exact Hl|]. by repeat split.
    + destruct (Uncertain_applies id (e_text e) (op_env h n) d a) as (d' & Hc & Hl); [done..|].
      do 5 eexists. unfold mbind, act_bind. rewrite quiet_call by done. rewrite Hc.
      split; [reflexivity|]. split; [exact Hl|]. by repeat split.
Qed.

(** ** Witnesses *)

(** A transport that is busy the first time and accepts the second. *)
Definition busy_once (n : nat) (_ : option TaskOrigin) (_ : uuid) (_ : string) : res go_error receipt :=
  if Nat.leb n 3 then Err (DefinitelyNotSentAfter (Errorf "busy") 0)
  else Ok ("telegram"%string, JObj []).
Definition busy_notifier : notifier :=
  MkNotifier (Some busy_once) None true (fun _ => false) (fun _ _ => false) sample_digest no_uuid
    (fun _ => "db"%string) (fun _ => "origin"%string) true.
Definition quiet_host : host :=
  MkHost (fun n => sample_env 0 (Z.of_nat n * Minute)) (fun _ d => d) (fun n => Z.of_nat n * Minute).
Definition hello_actions : list notify_action :=
  [AcDeliver sample_task [MkRef "mail" "a"] 1 8 "hello" [MkRef "mail" "a"]; AcDrain].
Definition hello_run := run_actions busy_notifier bits_String hello_actions quiet_host
  (MkSys 0 sample_start []).

Lemma quiet_journal_world nt collate : journal_world nt collate quiet_host.
Proof. intros n d. apply rtc_refl. Qed.

Lemma sample_start_inv : journal_inv sample_start.
Proof.
  eapply (journal_steps_inv sample_collate sample_digest no_uuid); [|apply journal_empty_inv].
  apply rtc_once. by apply js_other.
Qed.

Lemma sends_were_admitted_witness :
  sends 101 (trace (snd hello_run)) = 2
  /\ n_State <$> (notifications (tables (snd hello_run)) !! 101%N) = Some NSent
  /\ 2 <= attempts (tables (snd hello_run)) 101.
Proof.
  assert (sends 101 (trace (snd hello_run)) = 2) as E by by vm_compute.
  split; [exact E|]. split; [by vm_compute|]. rewrite <- E.
  refine (proj1 (proj2 (sends_were_admitted busy_notifier sample_collate quiet_host bits_String
    hello_actions 0 sample_start (snd hello_run) (quiet_journal_world _ _) sample_start_inv _) 101%N)).
  unfold hello_run. by destruct (run_actions _ _ _ _ _) as [[] ?].
Defined.

Lemma outcome_recorded_witness :
  exists err n' d' a', resolveTaskNotificationAttempt busy_notifier 101 (Err (Errorf "timeout")) quiet_host
      (MkSys 2 sample_begun []) = ((false, err), MkSys n' d' [])
    /\ err <> None /\ notifications d' !! 101%N = Some a' /\ n_State a' = NUncertain.
Proof.
  destruct (notifications sample_begun !! 101%N) as [a|] eqn:Ha; [|exfalso; revert Ha; by vm_compute].
  destruct (outcome_recorded busy_notifier quiet_host 101 (Err (Errorf "timeout")) 2 sample_begun [] a)
    as (dl & er & n' & d' & a' & E & Hl & (_ & _ & Hs) & -> & Hn & _);
    [intros; reflexivity|intros; reflexivity|discriminate|exact Ha| |split; reflexivity|].
  { clear -Ha. revert Ha. vm_compute. by intros [= <-]. }
  exists er, n', d', a'. split; [exact E|]. split; [|by split]. by intros Her%Hn.
Defined.
