(* ===== verification/Registry.v ===== *)
(** * Registry: the tool registry

    internal/core/registry.go: local and peer registrations, lookup by name
    and by peer, the subset a turn runs with and the definitions the model is
    shown, read-only and evidence-only tools, and [Execute].

    A tool's handler is an opaque value of the type [Handler]; what it
    answers is the argument [invoke] of [Execute].  Go's maps are [gmap]s; the
    lists the code sorts by name are sorted here by insertion. *)

From Stdlib Require Import Ascii String.
From S2P Require Import Prelude GoStrings GoJson Store.

Local Open Scope blueship_scope.

Section registry.
Context {Handler : Type}.

(** ** Data *)

Record ToolDefinition := MkDefinition {
  Name : string;
  Description : string;
  InputSchema : bytes;
}.

Record registeredTool := MkTool {
  ReadOnly : bool;
  Definition_ : ToolDefinition;
  Handler_ : Handler;
  EvidenceReader : option Handler;
  Mode : string;
  Exposed : bool;
  Remote : bool;
  PeerTag : string;
}.

Record ToolRegistry := MkRegistry {
  tools : gmap string registeredTool;
  remoteByPeer : gmap string registeredTool;
}.

Definition ToolModeSync : string := "sync".
Definition ToolModeAsync : string := "async".
Definition peerPrefix : bytes := lit "peer:".

Definition NUL : ascii := chr 0.
Definition remoteKey (peer name : string) : string :=
  str (lit peer ++ [NUL] ++ lit name).

(** ** Registration *)

Definition NewToolRegistry : ToolRegistry := MkRegistry ∅ ∅.

Definition set_tool (name : string) (t : registeredTool) (r : ToolRegistry) : ToolRegistry :=
  MkRegistry (<[name := t]> (tools r)) (remoteByPeer r).

Definition Register (name description : string) (schema : bytes) (handler : Handler)
    (r : ToolRegistry) : ToolRegistry :=
  set_tool name
    (MkTool false (MkDefinition name description schema) handler None ToolModeSync
       false false "") r.

Definition Expose (name mode : string) (r : ToolRegistry) : bool * ToolRegistry :=
  match tools r !! name with
  | None => (false, r)
  | Some t =>
      (true, set_tool name
         (MkTool (ReadOnly t) (Definition_ t) (Handler_ t) (EvidenceReader t) mode true
            (Remote t) (PeerTag t)) r)
  end.

Definition RegisterRemote (name description : string) (schema : bytes) (mode peerName : string)
    (handler : Handler) (r : ToolRegistry) : ToolRegistry :=
  let rt := MkTool false (MkDefinition name description schema) handler None mode false
              true peerName in
  let r := MkRegistry (tools r) (<[remoteKey peerName name := rt]> (remoteByPeer r)) in
  match tools r !! name with
  | Some existing => if negb (Remote existing) then r else set_tool name rt r
  | None => set_tool name rt r
  end.

Definition HasSuffix (s p : bytes) : bool := HasPrefix (reverse s) (reverse p).

Definition RemoteHandlerForPeer (peer name : string) (r : ToolRegistry) : option Handler :=
  match remoteByPeer r !! remoteKey peer name with
  | Some t => Some (Handler_ t)
  | None =>
      match List.filter (fun p => HasSuffix (lit (fst p)) (NUL :: lit name))
              (map_to_list (remoteByPeer r)) with
      | [p] => Some (Handler_ (snd p))
      | _ => None
      end
  end.

(** ** Lookup *)

Definition ToolMetadata (name : string) (r : ToolRegistry)
    : option (string * bool * bool) :=
  (fun t => (Mode t, Exposed t, Remote t)) <$> tools r !! name.

Definition HandlerByName (name : string) (r : ToolRegistry) : option Handler :=
  Handler_ <$> tools r !! name.

Definition Has (name : string) (r : option ToolRegistry) : bool :=
  match r with
  | None => false
  | Some r => match tools r !! name with Some _ => true | None => false end
  end.

Definition PeerForTool (name : string) (r : ToolRegistry) : string :=
  match tools r !! name with Some t => PeerTag t | None => "" end.

Definition all_tools (r : ToolRegistry) : list registeredTool := (map_to_list (tools r)).*2.

Definition by_name (x y : registeredTool) : bool :=
  String.leb (Name (Definition_ x)) (Name (Definition_ y)).

Definition ExposedTools (r : ToolRegistry) : list registeredTool :=
  order_by by_name (List.filter Exposed (all_tools r)).

Definition Definitions (r : ToolRegistry) : list ToolDefinition :=
  Definition_ <$> order_by by_name (all_tools r).

Definition toolsForPeer (peer : string) (r : ToolRegistry) : list registeredTool :=
  order_by by_name (List.filter (fun t => String.eqb (PeerTag t) peer) (all_tools r)).

(** ** The tools a list of names selects

    The loop the two selections share: an unseen tool is added once; a
    [peer:] name stands for every tool of that peer. *)

Record selection := MkSelection { seen : gset string; chosen : list registeredTool }.

Definition choose_peer (acc : selection) (t : registeredTool) : selection :=
  let name := Name (Definition_ t) in
  if bool_decide (name ∈ seen acc) then acc
  else MkSelection ({[name]} ∪ seen acc) (chosen acc ++ [t]).

Definition choose_name (r : ToolRegistry) (acc : selection) (name : string) : selection :=
  if HasPrefix (lit name) peerPrefix then
    fold_left choose_peer (toolsForPeer (str (drop (length peerPrefix) (lit name))) r) acc
  else if bool_decide (name ∈ seen acc) then acc
  else
    let acc := MkSelection ({[name]} ∪ seen acc) (chosen acc) in
    match tools r !! name with
    | Some t => MkSelection (seen acc) (chosen acc ++ [t])
    | None => acc
    end.

Definition select (r : ToolRegistry) (names : list string) : list registeredTool :=
  chosen (fold_left (choose_name r) names (MkSelection ∅ [])).

Definition DefinitionsForNames (names : list string) (r : ToolRegistry) : list ToolDefinition :=
  Definition_ <$> select r names.

(** [SubsetForNames] stores a tool under its definition's name when it comes
    from a peer expansion and under the requested name otherwise. *)
Definition sub_peer (acc : gset string * gmap string registeredTool) (t : registeredTool) :=
  let name := Name (Definition_ t) in
  if bool_decide (name ∈ acc.1) then acc
  else ({[name]} ∪ acc.1, <[name := t]> acc.2).
Definition sub_name (r : ToolRegistry) (acc : gset string * gmap string registeredTool)
    (name : string) :=
  if HasPrefix (lit name) peerPrefix then
    fold_left sub_peer (toolsForPeer (str (drop (length peerPrefix) (lit name))) r) acc
  else if bool_decide (name ∈ acc.1) then acc
  else
    match tools r !! name with
    | Some t => ({[name]} ∪ acc.1, <[name := t]> acc.2)
    | None => ({[name]} ∪ acc.1, acc.2)
    end.
Definition SubsetForNames (names : list string) (r : ToolRegistry) : ToolRegistry :=
  MkRegistry (fold_left (sub_name r) names (∅, ∅)).2 (remoteByPeer r).

(** ** The rest *)

(** What a handler's call comes to: an error, or a result with the outcome of
    encoding it. *)
Inductive answer : Type :=
| Failed (err : bytes)
| Returned (encoded : res bytes bytes).

Definition Execute (denied : bool) (invoke : Handler -> bytes -> answer)
    (name : string) (input : bytes) (r : ToolRegistry) : bytes * bool :=
  if denied then (lit "tool denied for this turn: " ++ lit name, true)
  else match tools r !! name with
       | None => (lit "unknown tool: " ++ lit name, true)
       | Some tool =>
           match invoke (Handler_ tool) input with
           | Failed e => (e, true)
           | Returned (Err e) => (lit "marshal result: " ++ e, true)
           | Returned (Ok data) => (data, false)
           end
       end.

Definition Count (r : ToolRegistry) : nat := size (tools r).
Definition Clone (r : ToolRegistry) : ToolRegistry := MkRegistry (tools r) (remoteByPeer r).

Definition mark_read_only (r : ToolRegistry) (name : string) : ToolRegistry :=
  match tools r !! name with
  | Some t =>
      set_tool name (MkTool true (Definition_ t) (Handler_ t) (EvidenceReader t) (Mode t)
                       (Exposed t) (Remote t) (PeerTag t)) r
  | None => r
  end.
Definition MarkReadOnly (names : list string) (r : ToolRegistry)
    : res string ToolRegistry :=
  match List.find (fun name => negb (Has name (Some r))) names with
  | Some name => Err name
  | None => Ok (fold_left mark_read_only names r)
  end.

Definition IsReadOnly (name : string) (r : ToolRegistry) : bool :=
  match tools r !! name with Some t => ReadOnly t | None => false end.

Definition RegisterEvidenceReader (name : string) (handler : option Handler)
    (r : ToolRegistry) : res string ToolRegistry :=
  match tools r !! name, handler with
  | Some t, Some h =>
      check! ReadOnly t && negb (Remote t) else name in
      Ok (set_tool name (MkTool (ReadOnly t) (Definition_ t) (Handler_ t) (Some h) (Mode t)
                           (Exposed t) (Remote t) (PeerTag t)) r)
  | _, _ => Err name
  end.

Definition evidence_tool (t : registeredTool) : option registeredTool :=
  match EvidenceReader t with
  | Some h =>
      if ReadOnly t && negb (Remote t)
      then Some (MkTool (ReadOnly t) (Definition_ t) h (EvidenceReader t) (Mode t)
                   (Exposed t) (Remote t) (PeerTag t))
      else None
  | None => None
  end.
Definition EvidenceOnlySubset (r : ToolRegistry) : ToolRegistry :=
  MkRegistry (omap evidence_tool (tools r)) ∅.
End registry.

(** * Properties *)

Section registry_properties.
Context {Handler : Type}.
Implicit Types (r : ToolRegistry (Handler := Handler)) (t : registeredTool (Handler := Handler)).

(** Every tool is stored under its definition's name. *)
Definition registry_ok r : Prop :=
  forall k t, tools r !! k = Some t -> Name (Definition_ t) = k.

(** ** Changes of a registry *)

Inductive reg_op : Type :=
| OpRegister (name description : string) (schema : bytes) (handler : Handler)
| OpExpose (name mode : string)
| OpRemote (name description : string) (schema : bytes) (mode peer : string) (handler : Handler)
| OpMarkReadOnly (names : list string)
| OpEvidence (name : string) (handler : option Handler).

Definition apply_op r (op : reg_op) : ToolRegistry :=
  match op with
  | OpRegister n d s h => Register n d s h r
  | OpExpose n mode => (Expose n mode r).2
  | OpRemote n d s mode p h => RegisterRemote n d s mode p h r
  | OpMarkReadOnly ns => match MarkReadOnly ns r with Ok r' => r' | Err _ => r end
  | OpEvidence n h => match RegisterEvidenceReader n h r with Ok r' => r' | Err _ => r end
  end.
Definition apply_ops (ops : list reg_op) r : ToolRegistry := fold_left apply_op ops r.

(** The operation re-registers the local tool [name]. *)
Definition registers (name : string) (op : reg_op) : bool :=
  match op with OpRegister n _ _ _ => String.eqb n name | _ => false end.
(** The operation replaces the peer's copy stored under [key]. *)
Definition replaces_remote (key : string) (op : reg_op) : bool :=
  match op with OpRemote n _ _ _ p _ => String.eqb (remoteKey p n) key | _ => false end.

(** What all changes keep of a tool but the registration of its name: its
    definition, its handler and where it comes from. *)
Definition same_tool t t' : Prop :=
  Definition_ t' = Definition_ t /\ Handler_ t' = Handler_ t
  /\ Remote t' = Remote t /\ PeerTag t' = PeerTag t.

Definition keeps r r' : Prop :=
  remoteByPeer r' = remoteByPeer r
  /\ forall k, match tools r !! k, tools r' !! k with
               | Some t, Some t' => same_tool t t'
               | None, None => True
               | _, _ => False
               end.

Lemma same_refl t : same_tool t t.
Proof. done. Qed.
Lemma keeps_refl r : keeps r r.
Proof. split; [done|]. intros k. by destruct (tools r !! k). Qed.

Lemma keeps_trans r1 r2 r3 : keeps r1 r2 -> keeps r2 r3 -> keeps r1 r3.
Proof.
  intros [H1 K1] [H2 K2]. split; [congruence|]. intros k. specialize (K1 k). specialize (K2 k).
  destruct (tools r1 !! k), (tools r2 !! k), (tools r3 !! k); try done.
  destruct K1 as (? & ? & ? & ?), K2 as (? & ? & ? & ?). split_and!; congruence.
Qed.

Lemma keeps_set name t t' r :
  tools r !! name = Some t -> same_tool t t' -> keeps r (set_tool name t' r).
Proof.
  intros Ht Hs. split; [done|]. intros k. simpl. destruct (decide (name = k)) as [->|Hne].
  - by rewrite Ht, lookup_insert_eq.
  - rewrite lookup_insert_ne by done. by destruct (tools r !! k).
Qed.

Lemma mark_read_only_keeps names : forall r, keeps r (fold_left mark_read_only names r).
Proof.
  induction names as [|n names IH]; intros r; [apply keeps_refl|]. simpl.
  eapply keeps_trans; [|apply IH]. unfold mark_read_only.
  destruct (tools r !! n) as [t|] eqn:E; [|apply keeps_refl].
  by eapply keeps_set.
Qed.

(** Every change but a registration keeps the tools it finds. *)
Lemma apply_op_keeps r op :
  match op with OpRegister _ _ _ _ | OpRemote _ _ _ _ _ _ => False | _ => True end ->
  keeps r (apply_op r op).
Proof.
  destruct op as [|n mode| |ns|n [h|]]; try done; intros _; simpl.
  - unfold Expose. destruct (tools r !! n) as [t|] eqn:E; [|apply keeps_refl].
    by eapply keeps_set.
  - unfold MarkReadOnly. destruct (List.find _ ns); [apply keeps_refl|].
    apply mark_read_only_keeps.
  - unfold RegisterEvidenceReader. destruct (tools r !! n) as [t|] eqn:E; [|apply keeps_refl].
    destruct (_ && _); [|apply keeps_refl]. by eapply keeps_set.
  - unfold RegisterEvidenceReader. destruct (tools r !! n); apply keeps_refl.
Qed.

Lemma keeps_lookup r r' k t :
  keeps r r' -> tools r !! k = Some t -> exists t', tools r' !! k = Some t' /\ same_tool t t'.
Proof.
  intros [_ K] Ht. specialize (K k). rewrite Ht in K.
  destruct (tools r' !! k) as [t'|]; [|done]. by exists t'.
Qed.

Lemma remote_lookup n d s mode p h r k :
  tools (RegisterRemote n d s mode p h r) !! k =
  if String.eqb n k && match tools r !! n with Some t => Remote t | None => true end
  then Some (MkTool false (MkDefinition n d s) h None mode false true p)
  else tools r !! k.
Proof.
  unfold RegisterRemote. destruct (String.eqb n k) eqn:E; simpl.
  - apply String.eqb_eq in E as ->. destruct (tools r !! k) as [t|] eqn:Ht; simpl.
    + destruct (Remote t); simpl; [by rewrite lookup_insert_eq|by rewrite ?Ht].
    + by rewrite lookup_insert_eq.
  - apply String.eqb_neq in E. simpl.
    destruct (tools r !! n) as [t|]; [destruct (negb (Remote t))|]; simpl; [done|..];
      by rewrite lookup_insert_ne.
Qed.

Lemma remote_copies n d s mode p h r :
  remoteByPeer (RegisterRemote n d s mode p h r) =
  <[remoteKey p n := MkTool false (MkDefinition n d s) h None mode false true p]> (remoteByPeer r).
Proof.
  unfold RegisterRemote. simpl.
  by destruct (tools r !! n) as [t|]; [destruct (negb (Remote t))|].
Qed.

Lemma apply_op_local r op name t :
  tools r !! name = Some t -> Remote t = false -> registers name op = false ->
  exists t', tools (apply_op r op) !! name = Some t' /\ same_tool t t'.
Proof.
  intros Ht Hl Hr. destruct op as [n d s h|n mode|n d s mode p h|ns|n h];
    try (by (eapply keeps_lookup; [apply apply_op_keeps|])).
  - simpl in Hr. apply String.eqb_neq in Hr. exists t. simpl.
    by rewrite lookup_insert_ne by done.
  - exists t. simpl. rewrite remote_lookup. split; [|done].
    destruct (String.eqb n name) eqn:E; [|done]. apply String.eqb_eq in E as ->.
    by rewrite Ht, Hl.
Qed.

Lemma apply_op_remote r op key :
  replaces_remote key op = false -> remoteByPeer (apply_op r op) !! key = remoteByPeer r !! key.
Proof.
  intros Hr. destruct op as [n d s h|n mode|n d s mode p h|ns|n h];
    try (match goal with |- context [apply_op r ?op] =>
      destruct (apply_op_keeps r op) as [-> _]; done end).
  - done.
  - simpl in *. rewrite remote_copies. apply String.eqb_neq in Hr. by rewrite lookup_insert_ne.
Qed.

(** A peer never takes a local tool's name: once the ship registered a
    tool itself, no sequence of peer registrations, exposures, read-only marks
    and evidence readers changes what a call of that name runs; and a copy a
    peer registered stays reachable by that peer until the same peer registers
    the name again. *)
Theorem peers_never_take_local_names (ops : list reg_op) r name t peer pname h d s mode :
  tools r !! name = Some t -> Remote t = false ->
  Forall (fun op => registers name op = false) ops ->
  Forall (fun op => replaces_remote (remoteKey peer pname) op = false) ops ->
  let r' := apply_ops ops (RegisterRemote pname d s mode peer h r) in
  HandlerByName name r' = Some (Handler_ t) /\ PeerForTool name r' = PeerTag t
  /\ RemoteHandlerForPeer peer pname r' = Some h.
Proof.
  intros Ht Hl Hreg Hrep r'.
  assert (forall r, (exists t1, tools r !! name = Some t1 /\ same_tool t t1) ->
    (exists t1, tools (apply_ops ops r) !! name = Some t1 /\ same_tool t t1)
    /\ remoteByPeer (apply_ops ops r) !! remoteKey peer pname
       = remoteByPeer r !! remoteKey peer pname) as Hops.
  { clear r'. induction ops as [|op ops IH]; intros r0 Hr0; [done|]. simpl.
    apply Forall_cons in Hreg as [Ho Hreg], Hrep as [Hk Hrep].
    destruct Hr0 as (t1 & Ht1 & Hs1). pose proof Hs1 as (_ & _ & Hrem & _).
    destruct (apply_op_local r0 op name t1) as (t2 & Ht2 & Hs2); [done|congruence|done|].
    destruct (IH Hreg Hrep (apply_op r0 op)) as [Hex Heq].
    { exists t2. split; [done|]. destruct Hs1 as (? & ? & ? & ?), Hs2 as (? & ? & ? & ?).
      split_and!; congruence. }
    split; [done|]. rewrite <- (apply_op_remote r0 op) by done. exact Heq. }
  destruct (Hops (RegisterRemote pname d s mode peer h r)) as [(t1 & Ht1 & _ & Hh & _ & Hp) Hc].
  { exists t. split; [|done]. rewrite remote_lookup.
    destruct (String.eqb pname name) eqn:E; [|done]. apply String.eqb_eq in E as ->.
    by rewrite Ht, Hl. }
  unfold HandlerByName, PeerForTool, RemoteHandlerForPeer. subst r'.
  rewrite Ht1, Hc, remote_copies, lookup_insert_eq. simpl. by rewrite Hh, Hp.
Qed.
(** ** Well-formedness *)

Lemma registry_ok_set name t r :
  registry_ok r -> Name (Definition_ t) = name -> registry_ok (set_tool name t r).
Proof.
  intros Hok Hn k t' H. simpl in H.
  apply lookup_insert_Some in H as [[<- <-]|[_ H]]; [done|by apply Hok].
Qed.

Lemma keeps_ok r r' : keeps r r' -> registry_ok r -> registry_ok r'.
Proof.
  intros [_ K] Hok k t' H. specialize (K k). rewrite H in K.
  destruct (tools r !! k) as [t|] eqn:E; [|done].
  destruct K as (-> & _). by apply Hok.
Qed.

Lemma apply_op_ok r op : registry_ok r -> registry_ok (apply_op r op).
Proof.
  intros Hok. destruct op as [n d s h|n mode|n d s mode p h|ns|n h];
    try (by (eapply keeps_ok; [apply apply_op_keeps|])).
  - by apply registry_ok_set.
  - intros k t. simpl. rewrite remote_lookup. destruct (_ && _) eqn:E; [|apply Hok].
    apply andb_true_iff in E as [->%String.eqb_eq _]. by intros [= <-].
Qed.

(** ** What is shown is what can run *)

Definition agree (acc : selection) (sub : gset string * gmap string registeredTool) : Prop :=
  seen acc = sub.1
  /\ NoDup ((fun t => Name (Definition_ t)) <$> chosen acc)
  /\ (forall t, t ∈ chosen acc -> Name (Definition_ t) ∈ seen acc)
  /\ (forall k t, sub.2 !! k = Some t <-> t ∈ chosen acc /\ Name (Definition_ t) = k).

Lemma agree_skip acc sub name :
  agree acc sub ->
  agree (MkSelection ({[name]} ∪ seen acc) (chosen acc)) ({[name]} ∪ sub.1, sub.2).
Proof.
  intros (Hs & Hn & Hc & Hk). unfold agree. simpl. rewrite Hs. split_and!; try done.
  intros t Ht. apply Hc in Ht. rewrite Hs in Ht. by apply elem_of_union_r.
Qed.

Lemma agree_add acc sub t :
  agree acc sub -> Name (Definition_ t) ∉ seen acc ->
  agree (MkSelection ({[Name (Definition_ t)]} ∪ seen acc) (chosen acc ++ [t]))
    ({[Name (Definition_ t)]} ∪ sub.1, <[Name (Definition_ t) := t]> sub.2).
Proof.
  intros (Hs & Hn & Hc & Hk) Hnew. unfold agree. simpl. rewrite Hs in *. split_and!.
  - done.
  - rewrite fmap_app, NoDup_app. split_and!; [done| |apply NoDup_singleton].
    intros x Hx ->%list_elem_of_singleton.
    apply list_elem_of_fmap in Hx as (t' & Heq & Ht').
    apply Hnew. rewrite Heq. by apply Hc.
  - intros t' [Ht'| ->%list_elem_of_singleton]%elem_of_app.
    + apply elem_of_union_r. by apply Hc.
    + apply elem_of_union_l. by apply elem_of_singleton.
  - intros k t'. rewrite lookup_insert_Some, Hk, elem_of_app, list_elem_of_singleton.
    split.
    + intros [[<- <-]|(_ & ? & <-)]; [by split; [right|]|by split; [left|]].
    + intros [[Ht'| ->] <-]; [|by left]. right. split_and!; [|done|done].
      intros E. apply Hnew. rewrite E. by apply Hc.
Qed.

Lemma choose_peer_agree acc sub t :
  agree acc sub -> agree (choose_peer acc t) (sub_peer sub t).
Proof.
  intros H. pose proof H as (Hs & _). unfold choose_peer, sub_peer. rewrite Hs.
  case_bool_decide as Hin; [done|]. rewrite <- Hs in Hin |- * at 1.
  rewrite Hs. rewrite <- Hs. pose proof (agree_add _ _ _ H Hin) as Ha. by rewrite Hs in Ha |- *.
Qed.

Lemma choose_name_agree r acc sub name :
  registry_ok r -> agree acc sub -> agree (choose_name r acc name) (sub_name r sub name).
Proof.
  intros Hok H. unfold choose_name, sub_name. destruct (HasPrefix _ _).
  - generalize (toolsForPeer (str (drop (length peerPrefix) (lit name))) r). intros l.
    revert acc sub H. induction l as [|t l IH]; intros acc sub H; [done|]. simpl.
    apply IH. by apply choose_peer_agree.
  - pose proof H as (Hs & _).
    destruct (decide (name ∈ sub.1)) as [Hin|Hin].
    + rewrite !bool_decide_eq_true_2 by congruence. done.
    + rewrite !bool_decide_eq_false_2 by congruence. simpl.
      destruct (tools r !! name) as [t|] eqn:E; [|by apply agree_skip].
      apply Hok in E as <-. apply agree_add; [done|congruence].
Qed.

Lemma select_agree r names :
  registry_ok r ->
  agree (fold_left (choose_name r) names (MkSelection ∅ []))
    (fold_left (sub_name r) names (∅, ∅)).
Proof.
  intros Hok.
  assert (agree (MkSelection ∅ []) (∅, ∅)) as H.
  { split_and!; simpl; [done|constructor|by intros t ?%elem_of_nil|].
    intros k t. rewrite lookup_empty, elem_of_nil. naive_solver. }
  revert H. generalize (MkSelection (Handler := Handler) ∅ []) (∅ : gset string, ∅ : gmap string (registeredTool (Handler := Handler))).
  induction names as [|n names IH]; intros acc sub H; [done|]. simpl.
  apply IH. by apply choose_name_agree.
Qed.

Lemma order_insert_elem {A} (le : A -> A -> bool) x l y : y ∈ order_insert le x l <-> y = x \/ y ∈ l.
Proof.
  induction l as [|z l IH]; simpl; [by rewrite elem_of_cons|].
  destruct (le x z); rewrite !elem_of_cons; [done|]. rewrite IH. tauto.
Qed.

Lemma order_by_elem {A} (le : A -> A -> bool) l y : y ∈ order_by le l <-> y ∈ l.
Proof.
  unfold order_by. induction l as [|x l IH]; simpl; [done|].
  by rewrite order_insert_elem, elem_of_cons, IH.
Qed.

Lemma toolsForPeer_elem peer r t :
  t ∈ toolsForPeer peer r <-> PeerTag t = peer /\ exists k, tools r !! k = Some t.
Proof.
  unfold toolsForPeer, all_tools.
  rewrite order_by_elem, list_elem_of_In, List.filter_In, <- list_elem_of_In, String.eqb_eq.
  rewrite list_elem_of_fmap. split.
  - intros [([k t'] & -> & H%elem_of_map_to_list) Hp]. split; [done|by exists k].
  - intros [Hp [k Hk]]. split; [|done]. exists (k, t). by rewrite elem_of_map_to_list.
Qed.

Lemma chosen_from r names : forall acc,
  (forall t, t ∈ chosen acc -> exists k, tools r !! k = Some t) ->
  forall t, t ∈ chosen (fold_left (choose_name r) names acc) -> exists k, tools r !! k = Some t.
Proof.
  induction names as [|n names IH]; intros acc H; [done|]. simpl. apply IH.
  unfold choose_name. destruct (HasPrefix _ _).
  - assert (forall t, t ∈ toolsForPeer (str (drop (length peerPrefix) (lit n))) r ->
      exists k, tools r !! k = Some t) as Hl by (by intros t [_ ?]%toolsForPeer_elem).
    revert Hl. generalize (toolsForPeer (str (drop (length peerPrefix) (lit n))) r) as l.
    intros l. revert acc H. induction l as [|x l IHl]; intros acc H Hl; [done|]. simpl.
    apply IHl; [|intros t Ht; apply Hl; by right]. unfold choose_peer.
    case_bool_decide; [done|]. simpl. intros t [?| ->%list_elem_of_singleton]%elem_of_app;
      [by apply H|apply Hl; by left].
  - case_bool_decide; [done|]. simpl. destruct (tools r !! n) as [t|] eqn:E; [|done].
    simpl. intros t' [?| ->%list_elem_of_singleton]%elem_of_app; [by apply H|by exists n].
Qed.

(** What the model is shown is what it can run: for any list of names,
    peer wildcards included, the definitions offered have distinct names, a
    name is among them exactly when the subset registry can run it, and what
    it then runs is the full registry's tool of that name. *)
Theorem subset_runs_what_is_shown r (names : list string) :
  registry_ok r ->
  let sub := SubsetForNames names r in
  NoDup (Name <$> DefinitionsForNames names r)
  /\ (forall n, n ∈ Name <$> DefinitionsForNames names r <-> Has n (Some sub) = true)
  /\ (forall denied invoke n input, Has n (Some sub) = true ->
       Execute denied invoke n input sub = Execute denied invoke n input r).
Proof.
  intros Hok sub. pose proof (select_agree r names Hok) as (_ & Hnd & _ & Hk).
  fold (select r names) in Hnd, Hk. unfold DefinitionsForNames.
  rewrite <- list_fmap_compose. split_and!; [done| |].
  - intros n. rewrite list_elem_of_fmap. unfold Has, sub. simpl. split.
    + intros (t & -> & Ht). by rewrite (proj2 (Hk _ t) (conj Ht eq_refl)).
    + destruct (_.2 !! n) as [t|] eqn:E; [|done]. apply Hk in E as [? <-]. by exists t.
  - intros denied invoke n input. unfold Has, Execute, sub. simpl.
    destruct (_.2 !! n) as [t|] eqn:E; [|done]. intros _. apply Hk in E as [Ht <-].
    apply chosen_from in Ht as [k Hr]; [|by intros ? ?%elem_of_nil].
    by rewrite (Hok _ _ Hr), Hr.
Qed.

(** In the evidence-only registry every call runs an evidence reader that
    was supplied for a local read-only tool of that name, never the tool's own
    handler, and no peer's copy is reachable. *)
Theorem evidence_subset_restricted r :
  let sub := EvidenceOnlySubset r in
  (forall n h, HandlerByName n sub = Some h <->
     exists t, tools r !! n = Some t /\ ReadOnly t = true /\ Remote t = false
       /\ EvidenceReader t = Some h)
  /\ forall peer n, RemoteHandlerForPeer peer n sub = None.
Proof.
  intros sub. split.
  - intros n h. unfold HandlerByName, sub, EvidenceOnlySubset. cbn [tools].
    rewrite lookup_omap. destruct (tools r !! n) as [t|]; simpl; [|naive_solver].
    unfold evidence_tool. split.
    + destruct (EvidenceReader t) as [h'|] eqn:E; [|done].
      destruct (ReadOnly t) eqn:Hr; [|done]. destruct (Remote t) eqn:Hm; [done|].
      intros [= <-]. by exists t.
    + intros (t' & [= <-] & Hr & Hm & ->). by rewrite Hr, Hm.
  - intros peer n. unfold RemoteHandlerForPeer, sub, EvidenceOnlySubset. cbn [remoteByPeer].
    by rewrite lookup_empty, map_to_list_empty.
Qed.
End registry_properties.

(** ** Witnesses *)

Definition demo_registry : ToolRegistry (Handler := nat) :=
  RegisterRemote "task_status" "peer's" [] "sync" "alpha" 7
    (RegisterRemote "lookup" "remote" [] "async" "alpha" 8
       (Register "task_status" "own" [] 1 NewToolRegistry)).

Definition demo_tool : registeredTool (Handler := nat) :=
  MkTool false (MkDefinition "task_status" "own" []) 1 None ToolModeSync false false "".

Lemma demo_registry_ok : registry_ok demo_registry.
Proof.
  refine (apply_op_ok _ (OpRemote "task_status" "peer's" [] "sync" "alpha" 7) _).
  refine (apply_op_ok _ (OpRemote "lookup" "remote" [] "async" "alpha" 8) _).
  refine (apply_op_ok _ (OpRegister "task_status" "own" [] 1) _).
  intros k t H. unfold NewToolRegistry in H. simpl in H. by rewrite lookup_empty in H.
Qed.

Lemma peers_never_take_local_names_witness :
  tools demo_registry !! "task_status"%string = Some demo_tool
  /\ HandlerByName "task_status"
       (apply_ops [OpExpose "task_status" "sync"]
          (RegisterRemote "task_status" "" [] "sync" "beta" 9 demo_registry)) = Some 1.
Proof.
  assert (tools demo_registry !! "task_status"%string = Some demo_tool) as H
    by (vm_compute; reflexivity).
  split; [exact H|].
  apply (peers_never_take_local_names [OpExpose "task_status" "sync"] demo_registry
           "task_status" demo_tool "beta" "task_status" 9 "" [] "sync" H); vm_compute;
    repeat constructor.
Defined.

Lemma subset_runs_what_is_shown_witness :
  registry_ok demo_registry
  /\ NoDup (Name <$> DefinitionsForNames ["peer:alpha"; "task_status"] demo_registry)%string.
Proof.
  split; [apply demo_registry_ok|].
  apply (subset_runs_what_is_shown demo_registry ["peer:alpha"; "task_status"]%string).
  apply demo_registry_ok.
Defined.
