(* ===== verification/TaskTools.v ===== *)
(** * TaskTools: the tools a background task may call

    internal/agenttask/scheduler.go: the registry of a task is the host's one,
    with the live MCP tools of its soul when it asks for one of them, under the
    soul's tool policy ([composeSoulTaskRegistry]), then cut down to the
    handler's ceiling and to what the task requested ([registryForTask]).

    The MCP discovery and the policy store are the host's: they answer for a
    soul. *)

From Stdlib Require Import Ascii String.
From S2P Require Import Prelude GoStrings Json GoJson Task GoTime TaskPlan Store StepStore Journal.
From S2P Require Import TaskRows TaskProgram TaskConfig Registry Gates.

Section tools.
Context {Handler : Type}.
Implicit Types (r base : ToolRegistry (Handler := Handler)).

Record RemoteTool := MkRemoteTool {
  mcp_Name : string;
  mcp_Description : string;
  mcp_Schema : bytes;
  mcp_Handler : Handler;
}.
Record ToolMeta := MkMeta { tm_Provider : string; tm_Core : bool }.

(** What [deps.Config] says about tools.  [ResolveSoulToolPolicy] gives the
    soul's overrides and its connected providers, or an error. *)
Record tool_config := MkToolConfig {
  MCPSource : option (uuid -> list RemoteTool);
  ToolMetaOf : gmap string ToolMeta;
  ResolveSoulToolPolicy : option (uuid -> res bytes (gmap string bool * list string));
}.

Definition requestsMCPTool (names : list string) : bool :=
  existsb (fun n => HasPrefix (TrimSpace_b (lit n)) (lit "mcp__")) names.

Definition add_mcp (r : ToolRegistry) (tool : RemoteTool) : ToolRegistry :=
  RegisterRemote (mcp_Name tool) (mcp_Description tool) (mcp_Schema tool) ToolModeSync "mcp"
    (mcp_Handler tool) r.

(** Whether the policy keeps the tool of this name. *)
Definition policy_allows (meta : gmap string ToolMeta) (overrides : gmap string bool)
    (connected : list string) (name : string) : bool :=
  let m := default (MkMeta "" false) (meta !! name) in
  if negb (String.eqb (tm_Provider m) "") && negb (existsb (String.eqb (tm_Provider m)) connected)
  then false
  else tm_Core m || default true (overrides !! name).

(** The live MCP tools are discovered only for a task that names one. *)
Definition with_mcp (cfg : tool_config) (z : timezones) (now : time) (task : AgentTask) base
    (requested : list string) : ToolRegistry :=
  match MCPSource cfg with
  | Some source =>
      if requestsMCPTool requested && negb (taskProgramInQuietHours z task now)
      then fold_left add_mcp (source (SoulID task)) (Clone base) else base
  | None => base
  end.

(** The registry and the error of the policy lookup, which leaves no tools. *)
Definition composeSoulTaskRegistry (cfg : option tool_config) (z : timezones) (now : time)
    (task : AgentTask) (base : option ToolRegistry) (requested : list string)
    : ToolRegistry * option bytes :=
  let base := default NewToolRegistry base in
  match cfg with
  | None => (base, None)
  | Some cfg =>
      let registry := with_mcp cfg z now task base requested in
      match ResolveSoulToolPolicy cfg with
      | None => (registry, None)
      | Some resolve =>
          if N.eqb (SoulID task) uuid_Nil then (registry, None)
          else match resolve (SoulID task) with
               | Err e => (NewToolRegistry, Some e)
               | Ok (overrides, providers) =>
                   (SubsetForNames (List.filter (policy_allows (ToolMetaOf cfg) overrides providers)
                      (Name <$> Definitions registry)) registry, None)
               end
      end
  end.

Definition registryForTask base (defaults requested : list string) (hasRequested : bool)
    : ToolRegistry :=
  let allowed := match defaults with [] => base | _ => SubsetForNames defaults base end in
  if hasRequested then SubsetForNames requested allowed else allowed.

(** The registry of one iteration: the scheduler's composition of the three,
    with the error that keeps the handler from running. *)
Inductive tool_error : Type := EProgram (e : ParseError) | EPolicy (e : bytes).

Definition task_registry (cfg : option tool_config) (z : timezones) (now : time)
    (task : AgentTask) (base : option ToolRegistry) (defaults : list string)
    : ToolRegistry * ToolRegistry * list string * bool * option tool_error :=
  match taskRequestedTools task with
  | Err e => let b := NewToolRegistry in
             (registryForTask b defaults [] true, b, [], true, Some (EProgram e))
  | Ok (requested, has) =>
      let '(b, err) := composeSoulTaskRegistry cfg z now task base requested in
      (registryForTask b defaults requested has, b, requested, has, EPolicy <$> err)
  end.

(** * Properties *)

(** A list of names selects a tool by its own name or by its peer. *)
Definition selected_by (names : list string) (k : string)
    (t : registeredTool (Handler := Handler)) : Prop :=
  exists n, n ∈ names
  /\ (n = k \/ HasPrefix (lit n) peerPrefix = true
               /\ PeerTag t = str (drop (length peerPrefix) (lit n))).

Lemma subset_from r names k t :
  registry_ok r -> tools (SubsetForNames names r) !! k = Some t ->
  tools r !! k = Some t /\ selected_by names k t.
Proof.
  intros Hok. unfold SubsetForNames. simpl.
  set (good (m : gmap string registeredTool) := forall k t, m !! k = Some t -> tools r !! k = Some t /\ selected_by names k t).
  enough (forall l acc, (forall n, n ∈ l -> n ∈ names) -> good acc.2 ->
            good (fold_left (sub_name r) l acc).2) as H.
  { intros Hl. eapply (H names (∅, ∅)); [done| |exact Hl]. by intros ???. }
  clear k t. induction l as [|n l IH]; intros acc Hin Hacc; [done|]. simpl.
  apply IH; [intros; apply Hin; by right|]. assert (n ∈ names) as Hn by (apply Hin; by left).
  unfold sub_name. destruct (HasPrefix (lit n) peerPrefix) eqn:Hp.
  - assert (forall t, t ∈ toolsForPeer (str (drop (length peerPrefix) (lit n))) r ->
      PeerTag t = str (drop (length peerPrefix) (lit n)) /\ tools r !! Name (Definition_ t) = Some t) as Hpeer.
    { intros t [Ht [k Hk]]%toolsForPeer_elem. split; [done|]. by rewrite (Hok _ _ Hk). }
    revert acc Hacc. generalize dependent (toolsForPeer (str (drop (length peerPrefix) (lit n))) r).
    intros ps Hps. induction ps as [|t ps IHp]; intros acc Hacc; [done|]. simpl.
    apply IHp; [intros; apply Hps; by right|]. unfold sub_peer. case_bool_decide; [done|].
    destruct (Hps t) as [Htag Hl]; [by left|].
    simpl. intros k x [[<- <-]|[_ ?]]%lookup_insert_Some; [|by apply Hacc].
    split; [done|]. exists n. by split; [|right].
  - case_bool_decide; [done|]. destruct (tools r !! n) as [t|] eqn:E; [|done].
    simpl. intros k x [[<- <-]|[_ ?]]%lookup_insert_Some; [|by apply Hacc].
    split; [done|]. exists n. by split; [|left].
Qed.

Lemma subset_ok r names : registry_ok r -> registry_ok (SubsetForNames names r).
Proof. intros Hok k t Ht. by apply subset_from in Ht as [?%Hok _]. Qed.

Definition from_mcp (l : list RemoteTool) (k : string) (t : registeredTool (Handler := Handler)) : Prop :=
  exists m, m ∈ l /\ k = mcp_Name m /\ Handler_ t = mcp_Handler m /\ PeerTag t = "mcp"%string.

Lemma add_mcp_from l : forall r k t,
  tools (fold_left add_mcp l r) !! k = Some t -> tools r !! k = Some t \/ from_mcp l k t.
Proof.
  induction l as [|m l IH]; intros r k t; [by left|]. simpl. intros [Ht|(x & ? & Hx)]%IH.
  - unfold add_mcp in Ht. rewrite remote_lookup in Ht. destruct (_ && _) eqn:E; [|by left].
    injection Ht as <-. right. exists m.
    apply andb_true_iff in E as [?%String.eqb_eq _]. by split_and!; [left| | |].
  - right. exists x. split; [by right|done].
Qed.

Lemma add_mcp_ok l : forall r, registry_ok r -> registry_ok (fold_left add_mcp l r).
Proof.
  induction l as [|m l IH]; intros r Hr; [done|]. simpl. apply IH.
  exact (apply_op_ok r (OpRemote (mcp_Name m) (mcp_Description m) (mcp_Schema m) ToolModeSync "mcp"
    (mcp_Handler m)) Hr).
Qed.

Lemma registryForTask_from b defaults requested has k t :
  registry_ok b -> tools (registryForTask b defaults requested has) !! k = Some t ->
  tools b !! k = Some t
  /\ (defaults <> [] -> selected_by defaults k t)
  /\ (has = true -> selected_by requested k t).
Proof.
  intros Hok. unfold registryForTask.
  set (ceiling := match defaults with [] => b | _ => SubsetForNames defaults b end).
  assert (registry_ok ceiling /\ forall k t, tools ceiling !! k = Some t ->
    tools b !! k = Some t /\ (defaults <> [] -> selected_by defaults k t)) as [Hc Hfrom].
  { unfold ceiling. destruct defaults as [|d ds]; [by split|]. split; [by apply subset_ok|].
    intros ?? [? ?]%subset_from; [|done]. by split. }
  destruct has; [|by intros [? ?]%Hfrom]. intros [[? ?]%Hfrom ?]%subset_from; [|done]. by split_and!.
Qed.

(** Where a tool of a task may come from, and the policy it passed. *)
Definition offered (cfg : option tool_config) (z : timezones) (now : time) (task : AgentTask) base
    (requested : list string) (k : string) (t : registeredTool (Handler := Handler)) : Prop :=
  tools base !! k = Some t
  \/ exists c source, cfg = Some c /\ MCPSource c = Some source
     /\ requestsMCPTool requested = true /\ taskProgramInQuietHours z task now = false
     /\ from_mcp (source (SoulID task)) k t.
Definition permitted (cfg : option tool_config) (task : AgentTask) (k : string)
    (t : registeredTool (Handler := Handler)) : Prop :=
  forall c resolve, cfg = Some c -> ResolveSoulToolPolicy c = Some resolve ->
    SoulID task <> uuid_Nil ->
    exists overrides providers n, resolve (SoulID task) = Ok (overrides, providers)
    /\ policy_allows (ToolMetaOf c) overrides providers n = true /\ selected_by [n] k t.

Lemma with_mcp_offered c z now task base requested :
  registry_ok base ->
  registry_ok (with_mcp c z now task base requested)
  /\ forall k t, tools (with_mcp c z now task base requested) !! k = Some t ->
       offered (Some c) z now task base requested k t.
Proof.
  intros Hok. unfold with_mcp. destruct (MCPSource c) as [source|] eqn:Es; [|by split; [|left]].
  destruct (requestsMCPTool requested && negb (taskProgramInQuietHours z task now)) eqn:E;
    [|by split; [|left]].
  apply andb_true_iff in E as [E1 E2%negb_true_iff]. split; [by apply add_mcp_ok|].
  intros ?? [?|?]%add_mcp_from; [by left|]. right. by exists c, source.
Qed.

Lemma empty_ok : registry_ok (NewToolRegistry (Handler := Handler)).
Proof. intros ?? Hx. simpl in Hx. by rewrite lookup_empty in Hx. Qed.

Lemma compose_bounded cfg z now task (base : option ToolRegistry) requested b err :
  registry_ok (default NewToolRegistry base) ->
  composeSoulTaskRegistry cfg z now task base requested = (b, err) ->
  registry_ok b
  /\ forall k t, tools b !! k = Some t -> err = None
     /\ offered cfg z now task (default NewToolRegistry base) requested k t /\ permitted cfg task k t.
Proof.
  intros Hok. unfold composeSoulTaskRegistry. destruct cfg as [c|].
  2:{ intros [= <- <-]. split; [done|]. intros k t Ht. split_and!; [done|by left|by intros ??]. }
  destruct (with_mcp_offered c z now task _ requested Hok) as [Hm Hfrom].
  destruct (ResolveSoulToolPolicy c) as [resolve|] eqn:Er.
  2:{ intros [= <- <-]. split; [done|]. intros k t Ht. split_and!; [done|by apply Hfrom|].
      intros ?? [= <-]. congruence. }
  destruct (N.eqb_spec (SoulID task) uuid_Nil) as [Hnil|Hnil].
  { intros [= <- <-]. split; [done|]. intros k t Ht. split_and!; [done|by apply Hfrom|by intros ????]. }
  destruct (resolve (SoulID task)) as [[overrides providers]|e] eqn:Es; intros [= <- <-].
  2:{ split; [apply empty_ok|]. intros k t Hx. simpl in Hx. by rewrite lookup_empty in Hx. }
  split; [by apply subset_ok|]. intros k t [Ht (n & Hn & Hsel)]%subset_from; [|done].
  split_and!; [done|by apply Hfrom|]. intros c0 resolve0 [= <-] Hr0 _. rewrite Er in Hr0.
  injection Hr0 as <-. exists overrides, providers, n.
  apply list_elem_of_In, List.filter_In in Hn as [_ Hn]. split_and!; [done..|].
  exists n. split; [by left|done].
Qed.

(** An unattended task gains no tool.  Every tool its registry offers is the
    host's, or a live MCP tool of its own soul when the task named an MCP tool
    outside its quiet hours; it is within the handler's ceiling and within what
    the task requested; a soul's policy that could be read allows it, and one
    that could not be read leaves no tool at all. *)
Theorem task_tools_bounded cfg z now task (base : option ToolRegistry) defaults reg b requested has err k t
  (Hbase : registry_ok (default NewToolRegistry base))
  (Hreg : task_registry cfg z now task base defaults = (reg, b, requested, has, err))
  (Ht : tools reg !! k = Some t) :
  err = None
  /\ offered cfg z now task (default NewToolRegistry base) requested k t
  /\ permitted cfg task k t
  /\ (defaults <> [] -> selected_by defaults k t)
  /\ (has = true -> selected_by requested k t).
Proof.
  unfold task_registry in Hreg. destruct (taskRequestedTools task) as [[rq hs]|e].
  - destruct (composeSoulTaskRegistry cfg z now task base rq) as [b0 err0] eqn:Hc.
    injection Hreg as <- <- <- <- <-. destruct (compose_bounded _ _ _ _ _ _ _ _ Hbase Hc) as [Hok Hb].
    apply registryForTask_from in Ht as (Ht & ? & ?); [|done].
    destruct (Hb _ _ Ht) as (-> & ? & ?). by split_and!.
  - injection Hreg as <- <- <- <- <-.
    apply (registryForTask_from NewToolRegistry defaults [] true) in Ht as [Ht _]; [|apply empty_ok].
    simpl in Ht. by rewrite lookup_empty in Ht.
Qed.
End tools.

(** ** Witness *)

(** A task of soul 4 that requests one MCP tool and a peer's tools; the soul has
    switched [task_status] off. *)
Definition tools_task : AgentTask :=
  MkAgentTask 1 7 4 8 "sync" None None StrategyDirect "" None JNull JNull
    ["mcp__cal__list"; "peer:alpha"; "task_status"]%string [] None None None TPending (JObj [])
    None None 0 10 None None 0 None [].
Definition tools_config : tool_config (Handler := nat) :=
  MkToolConfig (Some (fun _ => [MkRemoteTool "mcp__cal__list" "calendar" [] 42;
                                MkRemoteTool "mcp__cal__delete" "calendar" [] 43]))
    ∅ (Some (fun _ => Ok ({["task_status"%string := false]}, []))).
Definition tools_run :=
  task_registry (Some tools_config) (MkZones None None (fun _ => None)) 0 tools_task
    (Some demo_registry) ["peer:mcp"; "peer:alpha"; "task_status"]%string.

Lemma task_tools_bounded_witness :
  (tools tools_run.1.1.1.1 !! "mcp__cal__list"%string) <> None
  /\ tools tools_run.1.1.1.1 !! "mcp__cal__delete"%string = None
  /\ tools tools_run.1.1.1.1 !! "task_status"%string = None
  /\ selected_by ["mcp__cal__list"; "peer:alpha"; "task_status"]%string "lookup"
       (MkTool false (MkDefinition "lookup" "remote" []) 8 None "async" false true "alpha").
Proof.
  split_and!; [by vm_compute..|].
  destruct (task_tools_bounded (Some tools_config) (MkZones None None (fun _ => None)) 0 tools_task
    (Some demo_registry) ["peer:mcp"; "peer:alpha"; "task_status"]%string
    tools_run.1.1.1.1 tools_run.1.1.1.2 tools_run.1.1.2 true None "lookup"
    (MkTool false (MkDefinition "lookup" "remote" []) 8 None "async" false true "alpha"))
    as (_ & _ & _ & _ & H); [apply demo_registry_ok|by vm_compute..|by apply H].
Defined.
