(* ===== verification/Execute.v ===== *)
(** * Execute: one iteration of a task

    internal/agenttask/scheduler.go: [executeTaskOnce] claims a task, runs its
    handler (or takes up the saved submission), and settles the outcome -- a
    pause, an empty result, a rejected or accepted one, an intermediate step --
    with the notification, the store writes and the hooks of each branch.
    [expireTask] is of deadline.go, [rejectionProgress] of evaluator.go.

    The handler and the acceptance review are the host's, like its hooks; what
    a handler writes to the tables while it runs is part of what [others] do.
    Audit rows are written by a detached goroutine and appear as an event. *)

From Stdlib Require Import Ascii String.
From S2P Require Import Prelude GoStrings Json GoJson Task GoTime TaskPlan Store StepStore Journal.
From S2P Require Import Finalize TaskRows TaskProgram TaskConfig Registry Gates TaskTools World Notify.

Local Open Scope Z_scope.

(** ** Data *)

Record IterationResult := MkIterationResult {
  Done : bool;
  Pause : bool;
  r_Progress : option json;
  Output : string;
  r_Notify : string;
  Notified : bool;
  IsFinal : bool;
  Partial : bool;
  ToolCallsJSON : option json;
  PendingDeliveries : list TaskDeliveryRef;
}.
Definition set_notified (v : bool) (r : IterationResult) : IterationResult :=
  MkIterationResult (Done r) (Pause r) (r_Progress r) (Output r) (r_Notify r) v (IsFinal r)
    (Partial r) (ToolCallsJSON r) (PendingDeliveries r).
Definition set_final (v : bool) (r : IterationResult) : IterationResult :=
  MkIterationResult (Done r) (Pause r) (r_Progress r) (Output r) (r_Notify r) (Notified r) v
    (Partial r) (ToolCallsJSON r) (PendingDeliveries r).
Definition set_output (v : string) (r : IterationResult) : IterationResult :=
  MkIterationResult (Done r) (Pause r) (r_Progress r) v (r_Notify r) (Notified r) (IsFinal r)
    (Partial r) (ToolCallsJSON r) (PendingDeliveries r).
Definition set_partial (v : bool) (r : IterationResult) : IterationResult :=
  MkIterationResult (Done r) (Pause r) (r_Progress r) (Output r) (r_Notify r) (Notified r)
    (IsFinal r) v (ToolCallsJSON r) (PendingDeliveries r).
Definition no_result : IterationResult :=
  MkIterationResult false false None "" "" false false false None [].

Record AcceptanceVerdict := MkVerdict {
  Met : bool;
  Reason : string;
  Unavailable : bool;
  RecheckURLs : list string;
}.

(** The localized texts, by title (and short task id). *)
Record ui_texts := MkUI {
  TaskEmptyResult : string -> string;
  TaskPartial : string -> string -> string;
  TaskStoppedEmpty : string -> string;
  UnverifiedDraft : string -> string -> string -> string;
}.

Record executor {H : Type} := MkExecutor {
  x_notifier : notifier;
  x_authorize : option (nat -> AgentTask -> bool);
  x_base : nat -> AgentTask -> option (ToolRegistry (Handler := H));
  x_tools : option (tool_config (Handler := H));
  x_zones : timezones;
  x_defaults : H -> list string;           (* handler.DefaultTools *)
  x_run : nat -> H -> AgentTask -> ToolRegistry (Handler := H) -> res string IterationResult;
  x_accept : nat -> AgentTask -> string -> option json -> AcceptanceVerdict;
  x_refs_json : list TaskDeliveryRef -> json;
  x_collate : string -> string -> bool;
  x_uuid_String : uuid -> string;
  x_ui : ui_texts;
  x_sessions : bool;                       (* a message store is there *)
  x_status_hook : bool;                    (* onStatusChange is set *)
}.
Arguments executor : clear implicits.

Definition DefaultTaskTimeout : duration := 10 * Minute.
(** When the context of an iteration ends. *)
Definition iterationDeadline (now : time) (task : AgentTask) : time :=
  let deadline := now + DefaultTaskTimeout in
  match Deadline task with
  | Some d => if Z.ltb d deadline then d else deadline
  | None => deadline
  end.

Definition expired (now : time) (task : AgentTask) : bool :=
  match Deadline task with Some d => Z.leb d now | None => false end.
Definition durableOneShot (task : AgentTask) : bool := one_shot_row task.
Definition has_criteria (task : AgentTask) : bool :=
  is_none (Schedule task)
  && match AcceptanceCriteria task with Some c => negb (blank c) | None => false end.

(** [json.Unmarshal] of saved delivery references. *)
Definition as_ref (j : json) : option TaskDeliveryRef :=
  if is_object j || is_null j then
    i ← decode_string "InputID" j; k ← decode_string "ItemKey" j; Some (MkRef i k)
  else None.
Definition decode_refs (j : json) : option (list TaskDeliveryRef) := as_list as_ref [] j.

(** [injectFeedback]; a number keeps its literal. *)
Definition injectFeedback (progress : option json) (reason : string) : option json :=
  if String.eqb reason "" then progress
  else match default (JObj []) progress with
  | JObj fs => if floats_in_range (JObj fs)
               then Some (JObj (set_key "acceptance_feedback"%string (JStr reason) fs)) else progress
  | JNull => Some (JObj [("acceptance_feedback"%string, JStr reason)])
  | _ => progress
  end.
Definition rejectionProgress (previous : json) (current : option json) (reason : string)
    : option json :=
  injectFeedback (match current with
                  | Some (JObj fs) => if floats_in_range (JObj fs) then current else Some previous
                  | _ => Some previous
                  end) reason.

Definition LoadTaskSubmission (id : uuid) : Op (option TaskSubmission) :=
  autocommit (query (fun _ d => submissions d !! id)).

(** A failed send that is worth running the handler again for: an unkeyed
    message of a recurring task. *)
Definition classifyNotificationFailure (task : AgentTask) (result : IterationResult)
    (outcome : taskNotificationOutcome) (err : option delivery_error) (retryUnkeyed : bool) : bool :=
  match err with
  | None => false
  | Some _ =>
      match PendingDeliveries result with
      | _ :: _ => false
      | [] => retryUnkeyed && is_some (Schedule task) && negb (Delivered outcome)
      end
  end.

Section execute.
Context {H : Type} (x : executor H).
#[local] Abbreviation nt := (x_notifier x).

Definition short_id (id : uuid) : string := str (take 8 (lit (x_uuid_String x id))).

Definition executionAllowed (task : AgentTask) : Act bool :=
  match x_authorize x with
  | None => mret true
  | Some f => ask (fun n => f n task)
  end.

Definition archiveTaskSession (session : string) : Act unit :=
  if negb (x_sessions x) || String.eqb session "" then mret tt else emit (EvArchive session).
Definition session_of (p : option json) : string :=
  match p with Some j => sessionIDFromProgress j | None => ""%string end.
Definition status_hook (task : AgentTask) (status : TaskStatus) (output : string) : Act unit :=
  if x_status_hook x then emit (EvStatusHook (ID task) status output) else mret tt.
Definition iteration_hook (task : AgentTask) (r : IterationResult) : Act unit :=
  if nt_hook nt
  then emit (EvIterationHook (ID task) (Output r) (IsFinal r) (Partial r) (Notified r))
  else mret tt.

Definition result_session (task : AgentTask) (result : IterationResult) : string :=
  let s := session_of (r_Progress result) in
  if String.eqb s "" then sessionIDFromProgress (Progress task) else s.
Definition afterArtifactFinalized (task : AgentTask) (result : IterationResult) (status : TaskStatus)
    : Act unit :=
  _ ← archiveTaskSession (result_session task result);
  _ ← status_hook task status (Output result);
  if nt_journal nt then emit EvDrain else mret tt.

Definition finalize (task : AgentTask) (in_ : TaskFinalization)
    : Act (res StoreError (option TaskArtifact)) :=
  call (FinalizeTask (x_collate x) (nt_digest nt) (ID task) in_).

(** The deadline: the best draft is published as a partial result. *)
Definition expireTask (task : AgentTask) (now : time) : Act (res StoreError bool) :=
  r ← finalize task (MkFinalization "partial" "" TaskDeadlineExceeded (UnverifiedDraft (x_ui x))
        (TaskStoppedEmpty (x_ui x) (Title task)) (TaskPartial (x_ui x) (Title task) (short_id (ID task)))
        (TaskStoppedEmpty (x_ui x) (Title task)) None [] None (Some now));
  match r : res StoreError (option TaskArtifact) with
  | Err e => mret (Err e)
  | Ok None => mret (Ok false)
  | Ok (Some artifact) =>
      _ ← iteration_hook task (set_final true (set_partial true (set_output (a_Body artifact) no_result)));
      _ ← archiveTaskSession (sessionIDFromProgress (Progress task));
      _ ← status_hook task TFailed (a_Body artifact);
      mret (Ok true)
  end.

(** ** Settling a result

    Each branch gives whether the next iteration follows at once, the result
    as the hook sees it and the audited outcome. *)
Definition settled : Type := bool * IterationResult * string.

Definition deliverNotify (task : AgentTask) (result : IterationResult)
    : Act (taskNotificationOutcome * option delivery_error) :=
  p ← deliverTaskNotification nt task (PendingDeliveries result) (ID task) (UserID task)
        (r_Notify result) (PendingDeliveries result);
  _ ← wakeForNotificationRetry (snd (p : taskNotificationOutcome * option delivery_error));
  mret p.

Definition settle_pause (task : AgentTask) (result : IterationResult) : Act settled :=
  p ← deliverNotify task result;
  let '(outcome, err) := p : taskNotificationOutcome * option delivery_error in
  let result := set_notified (Delivered outcome) result in
  if classifyNotificationFailure task result outcome err false then
    _ ← call (SetPendingForNotificationRetry (ID task));
    mret (false, set_final false result, "notify_failed"%string)
  else
    _ ← call (PauseTask (ID task) (r_Progress result));
    mret (false, result, "pause"%string).

Definition settle_empty (task : AgentTask) (claim : time) (result : IterationResult) : Act settled :=
  let empty := TaskEmptyResult (x_ui x) (Title task) in
  r ← finalize task (MkFinalization "partial" "" "empty_submission" (UnverifiedDraft (x_ui x)) empty
        (TaskPartial (x_ui x) (Title task) (short_id (ID task))) empty (r_Progress result) []
        (Some claim) None);
  match r : res StoreError (option TaskArtifact) with
  | Ok (Some artifact) =>
      let result := set_partial true (set_final true (set_output (a_Body artifact) result)) in
      _ ← afterArtifactFinalized task result TFailed;
      mret (false, result, "empty_submission"%string)
  | _ => mret (false, result, "failed"%string)
  end.

Definition settle_unavailable (task : AgentTask) (claim : time) (reviews : Z) (v : AcceptanceVerdict)
    (result : IterationResult) : Act settled :=
  if Z.leb 2 reviews then
    r ← finalize task (MkFinalization "partial" (Output result) "verification_unavailable"
          (UnverifiedDraft (x_ui x)) "" (TaskPartial (x_ui x) (Title task) (short_id (ID task))) ""
          (r_Progress result) [] (Some claim) None);
    match r : res StoreError (option TaskArtifact) with
    | Ok (Some artifact) =>
        let result := set_partial true (set_final true (set_output (a_Body artifact) result)) in
        _ ← afterArtifactFinalized task result TFailed;
        mret (false, result, "verification_unavailable"%string)
    | _ => mret (false, result, "verification_unavailable"%string)
    end
  else
    now ← Now;
    _ ← call (DeferTaskVerification (ID task) claim (Reason v)
                ((now : time) + (reviews + 1) * 30 * Second));
    mret (false, result, "verification_wait"%string).

Definition next_at_once (task : AgentTask) (result : IterationResult) : bool :=
  is_none (Schedule task) && negb (cadenceRunEnded task (Done result) (ToolCallsJSON result)).

Definition settle_rejected (task : AgentTask) (claim : time) (v : AcceptanceVerdict)
    (result : IterationResult) : Act settled :=
  let progress := rejectionProgress (Progress task) (r_Progress result) (Reason v) in
  r ← call (if durableOneShot task
            then RejectTaskSubmission (ID task) claim progress (RecheckURLs v)
            else UpdateProgressWithRecheck (ID task) progress (RecheckURLs v));
  match r : res StoreError unit with
  | Err _ => mret (false, result, "rejected"%string)
  | Ok _ => mret (next_at_once task result, result, "rejected"%string)
  end.

Definition settle_accepted (task : AgentTask) (claim : time) (result : IterationResult) : Act settled :=
  let result := set_final true result in
  if durableOneShot task then
    r ← finalize task (MkFinalization "completed" (Output result) "" (UnverifiedDraft (x_ui x)) ""
          (r_Notify result) "" (r_Progress result) (PendingDeliveries result) (Some claim) None);
    match r : res StoreError (option TaskArtifact) with
    | Ok (Some artifact) =>
        let result := set_output (a_Body artifact) result in
        _ ← afterArtifactFinalized task result TDone;
        mret (false, result, "done"%string)
    | _ => mret (false, set_final false result, "failed"%string)
    end
  else
    p ← deliverNotify task result;
    let '(outcome, err) := p : taskNotificationOutcome * option delivery_error in
    let result := set_notified (Delivered outcome) result in
    if classifyNotificationFailure task result outcome err true then
      _ ← call (SetPendingForNotificationRetry (ID task));
      mret (false, set_final false result, "notify_failed"%string)
    else
      c ← call (Complete (ID task) (Output result));
      match c : res StoreError unit with
      | Err _ => mret (false, set_final false result, "failed"%string)
      | Ok _ =>
          _ ← (if is_none (Schedule task) then
                 _ ← archiveTaskSession (result_session task result);
                 status_hook task TDone (Output result)
               else
                 _ ← call (ResetForNextRun (ID task)); mret tt);
          mret (false, result, "done"%string)
      end.

Definition settle_done (task : AgentTask) (claim : time) (submission : option TaskSubmission)
    (result : IterationResult) : Act settled :=
  saved ← (if durableOneShot task && is_none submission && negb (blank (Output result))
           then call (SaveTaskSubmission (x_refs_json x) (ID task) claim (Output result)
                        (r_Notify result) (r_Progress result) (ToolCallsJSON result)
                        (PendingDeliveries result))
           else mret (Ok tt));
  match saved : res StoreError unit with
  | Err _ => mret (false, result, "failed"%string)
  | Ok _ =>
      if has_criteria task then
        v ← ask (fun n => x_accept x n task (Output result) (ToolCallsJSON result));
        now ← Now;
        if expired now task then
          _ ← expireTask task now; mret (false, result, "failed"%string)
        else if Unavailable (v : AcceptanceVerdict) && durableOneShot task then
          settle_unavailable task claim
            (match submission with Some s => sub_ReviewAttempts s | None => 0 end) v result
        else if negb (Met v) then settle_rejected task claim v result
        else settle_accepted task claim result
      else settle_accepted task claim result
  end.

Definition settle_step (task : AgentTask) (result : IterationResult) : Act settled :=
  p ← deliverNotify task result;
  let '(outcome, err) := p : taskNotificationOutcome * option delivery_error in
  let result := set_notified (Delivered outcome) result in
  if classifyNotificationFailure task result outcome err false then
    _ ← call (SetPendingForNotificationRetry (ID task));
    mret (false, set_final false result, "notify_failed"%string)
  else
    _ ← call (UpdateProgress (ID task) (r_Progress result));
    mret (next_at_once task result, result, "continue"%string).

Definition settle (task : AgentTask) (claim : time) (submission : option TaskSubmission)
    (result : IterationResult) : Act settled :=
  if Pause result then settle_pause task result
  else if Done result && durableOneShot task && blank (Output result)
  then settle_empty task claim result
  else if Done result then settle_done task claim submission result
  else settle_step task result.

(** ** The iteration *)

Definition record (task : AgentTask) (outcome : string) (final : bool) : Act unit :=
  emit (EvRecord (ID task) (Iteration task + 1) outcome final).

(** From the handler's answer on. *)
Definition conclude (task : AgentTask) (claim : time) (submission : option TaskSubmission)
    (answer : res string IterationResult) : Act bool :=
  now ← Now;
  if expired now task then
    _ ← expireTask task now;
    _ ← record task "failed" (match answer with Ok r => IsFinal r | Err _ => false end);
    mret false
  else match answer with
  | Err _ =>
      _ ← call (SetPending (ID task));
      _ ← record task "failed" false;
      mret false
  | Ok result =>
      s ← settle task claim submission result;
      let '(again, result, outcome) := s : settled in
      _ ← iteration_hook task result;
      _ ← record task outcome (IsFinal result);
      mret again
  end.

(** The saved candidate, or the handler's run. *)
Definition obtain (task : AgentTask) (handler : H) (registry : ToolRegistry (Handler := H))
    (tool_err : bool) (submission : option TaskSubmission)
    : Act (option (res string IterationResult)) :=
  match submission with
  | Some s =>
      mret match decode_refs (sub_PendingDeliveries s) with
           | None => None
           | Some refs => Some (Ok (MkIterationResult true false (Some (sub_Progress s)) (sub_Output s)
                                      (sub_Notify s) false false false (Some (sub_ToolCalls s)) refs))
           end
  | None =>
      if tool_err then mret (Some (Err "tool selection"%string))
      else
        _ ← emit (EvRun (ID task) (Iteration task + 1));
        r ← ask (fun n => x_run x n handler task registry);
        mret (Some r)
  end.

(** Once the claim is won and read back. *)
Definition execute_claimed (task : AgentTask) (handler : H) (claim : time) : Act bool :=
  base ← ask (fun n => x_base x n task);
  now ← Now;
  let '(registry, baseRegistry, requested, hasRequested, err) :=
    task_registry (x_tools x) (x_zones x) now task base (x_defaults x handler) in
  if is_none err && hasRequested && Nat.eqb (Count registry) 0 && Nat.ltb 0 (Count baseRegistry) then
    _ ← call (Fail (ID task) ("requested tools resolve to an empty registry: "
                ++ String.concat ", " requested)%string);
    mret false
  else
    submission ← (if durableOneShot task then call (LoadTaskSubmission (ID task)) else mret (Ok None));
    match submission : res StoreError (option TaskSubmission) with
    | Err _ => mret false
    | Ok submission =>
        now ← Now;
        if match submission with Some s => Z.ltb now (sub_NextReviewAt s) | None => false end then
          _ ← call (SetPending (ID task)); mret false
        else
          answer ← obtain task handler registry (is_some err) submission;
          match answer : option (res string IterationResult) with
          | None => mret false
          | Some answer => conclude task claim submission answer
          end
    end.

Definition executeTaskOnce (task : AgentTask) (handler : H) : Act bool :=
  now ← Now;
  if expired now task then _ ← expireTask task now; mret false
  else
    allowed ← executionAllowed task;
    if negb (allowed : bool) then mret false
    else
      claimed ← call (TrySetRunning (ID task));
      match claimed : res StoreError bool with
      | Ok true =>
          row ← call (Get (ID task));
          match row : res StoreError AgentTask with
          | Ok t =>
              match bool_decide (Status t = TRunning), LastRunAt t with
              | true, Some claim => execute_claimed task handler claim
              | _, _ => mret false
              end
          | Err _ => mret false
          end
      | _ => mret false
      end.
End execute.
