(* ===== verification/ExecuteInv.v ===== *)
(** * ExecuteInv: what an iteration may do

    Properties of one iteration ([executeTaskOnce]) whatever the other workers
    do meanwhile: the handler runs at most once and only under a claim it has
    just won, and a draft the review did not accept is shown to nobody. *)

From Stdlib Require Import Ascii String.
From S2P Require Import Prelude GoStrings Json GoJson Task GoTime TaskPlan AutonomousTurn Store StepStore Journal.
From S2P Require Import Finalize JournalInv TaskRows TaskProgram TaskConfig Registry Gates TaskTools World Notify.
From S2P Require Import Execute.

Local Open Scope Z_scope.

Section execute_inv.
Context {H : Type} (x : executor H).

(** ** Pieces that emit nothing of interest *)

Definition bookkeeping (e : event) : bool :=
  match e with
  | EvArchive _ | EvRecord _ _ _ _ | EvWakeAt _ | EvDrain => true
  | _ => false
  end.

Lemma archive_only h p session : (forall e, bookkeeping e = true -> p e = true) ->
  only h p (archiveTaskSession x session).
Proof.
  intros Hp. unfold archiveTaskSession. destruct (_ || _); [apply only_ret|].
  by apply only_emit, Hp.
Qed.

Lemma wake_only h p err : (forall e, bookkeeping e = true -> p e = true) ->
  only h p (wakeForNotificationRetry err).
Proof.
  intros Hp. unfold wakeForNotificationRetry.
  destruct err as [[]|]; try apply only_ret. by apply only_emit, Hp.
Qed.

Lemma record_only h p task outcome final : (forall e, bookkeeping e = true -> p e = true) ->
  only h p (record task outcome final).
Proof. intros Hp. by apply only_emit, Hp. Qed.

(** What a partial result shows: nothing is sent from here, the hooks see it as
    partial and the task as failed. *)
Definition unshown (e : event) : bool :=
  match e with
  | EvSend _ _ _ => false
  | EvIterationHook _ _ final partial _ => negb final || partial
  | EvStatusHook _ status _ => negb (bool_decide (status = TDone))
  | _ => true
  end.

Lemma unshown_bookkeeping e : bookkeeping e = true -> unshown e = true.
Proof. by destruct e. Qed.

Lemma status_unshown h task output : only h unshown (status_hook x task TFailed output).
Proof. unfold status_hook. destruct (x_status_hook x); [by apply only_emit|apply only_ret]. Qed.

Lemma after_failed_unshown h task result :
  only h unshown (afterArtifactFinalized x task result TFailed).
Proof.
  unfold afterArtifactFinalized.
  apply only_bind; [apply archive_only, unshown_bookkeeping|intros u].
  apply only_bind; [apply status_unshown|intros u'].
  destruct (nt_journal _); [by apply only_emit|apply only_ret].
Qed.

Lemma expire_unshown h task now : only h unshown (expireTask x task now).
Proof.
  unfold expireTask. apply only_bind; [apply only_call|]. intros [[a|]|e]; try apply only_ret.
  apply only_bind; [unfold iteration_hook; destruct (nt_hook _); [by apply only_emit|apply only_ret]|].
  intros u. apply only_bind; [apply archive_only, unshown_bookkeeping|]. intros u1.
  apply only_bind; [apply status_unshown|]. intros u2. apply only_ret.
Qed.

(** ** Rejected drafts *)

(** The settled result is not shown as a final one. *)
Definition held_back (s : settled) : Prop :=
  IsFinal s.1.2 = false \/ Partial s.1.2 = true.

Definition holds_back (h : host) (m : Act settled) : Prop :=
  emits h m (fun s l => held_back s /\ forallb unshown l = true).

Lemma holds_back_ret h s : held_back s -> holds_back h (mret s).
Proof. intros Hs. by apply emits_ret. Qed.

Lemma holds_back_bind {A} h (m : Act A) (k : A -> Act settled) :
  only h unshown m -> (forall a, holds_back h (k a)) -> holds_back h (m ≫= k).
Proof.
  intros Hm Hk. eapply emits_bind; [exact Hm|]. intros a l1 H1.
  eapply emits_weaken; [apply Hk|]. intros s l2 [Hs H2]. split; [done|].
  simpl in *. by rewrite forallb_app, H1, H2.
Qed.

Lemma settle_empty_held h task claim result :
  IsFinal result = false -> holds_back h (settle_empty x task claim result).
Proof.
  intros Hf. unfold settle_empty. apply holds_back_bind; [apply only_call|].
  intros [[a|]|e]; try (apply holds_back_ret; by left).
  apply holds_back_bind; [apply after_failed_unshown|]. intros u. apply holds_back_ret. by right.
Qed.

Lemma settle_unavailable_held h task claim n v result :
  IsFinal result = false -> holds_back h (settle_unavailable x task claim n v result).
Proof.
  intros Hf. unfold settle_unavailable. destruct (Z.leb 2 n).
  - apply holds_back_bind; [apply only_call|].
    intros [[a|]|e]; try (apply holds_back_ret; by left).
    apply holds_back_bind; [apply after_failed_unshown|]. intros u. apply holds_back_ret. by right.
  - apply holds_back_bind; [apply only_Now|]. intros now.
    apply holds_back_bind; [apply only_call|]. intros u. apply holds_back_ret. by left.
Qed.

Lemma settle_rejected_held h task claim v result :
  IsFinal result = false -> holds_back h (settle_rejected task claim v result).
Proof.
  intros Hf. unfold settle_rejected. apply holds_back_bind; [apply only_call|].
  intros [u|e]; apply holds_back_ret; by left.
Qed.

Lemma settle_done_held h task claim submission result :
  has_criteria task = true -> IsFinal result = false ->
  (forall n output calls, Met (x_accept x n task output calls) = false) ->
  holds_back h (settle_done x task claim submission result).
Proof.
  intros Hc Hf Hm. unfold settle_done.
  apply holds_back_bind; [destruct (_ && _ && _); [apply only_call|apply only_ret]|].
  intros [u|e]; [|apply holds_back_ret; by left]. rewrite Hc.
  intros s a s' E. unfold mbind, act_bind, ask, Now in E. simpl in E.
  rewrite Hm in E. simpl in E. revert E.
  set (s1 := MkSys _ (tables s) (trace s)). change (trace s) with (trace s1). clearbody s1.
  destruct (expired _ task).
  - set (m := expireTask x task _). fold (mbind (M := Act) (fun _ : res StoreError bool => mret (false, result, "failed"%string)) m).
    intros E. eapply (holds_back_bind h m (fun _ => mret (false, result, "failed"%string)));
      [apply expire_unshown|intros a0; apply holds_back_ret; by left|exact E].
  - destruct (Unavailable _ && _); intros E;
      [by eapply settle_unavailable_held|by eapply settle_rejected_held].
Qed.

(** ** The claim *)

Lemma TrySetRunning_won id e d d' :
  TrySetRunning id e d = (Ok true, d') ->
  exists t, tasks d !! id = Some t /\ Status t = TPending /\ ExecutorVersion t = 1
    /\ not_expired (clk e 0%nat) t = true
    /\ d' = with_tasks (<[id := run_row (clk e 0%nat) t]> (tasks d)) d.
Proof.
  unfold TrySetRunning. intros E. apply autocommit_Ok in E as (n & E). tx_inv.
  match goal with H : (_, _) = update_row _ _ _ _ |- _ => symmetry in H; unfold update_row in H;
    destruct (tasks d !! id) as [t|]; [|by simplify_eq]; destruct (_ && _) eqn:Hp in H; [|by simplify_eq] end.
  simplify_eq. unfold v1, has_status in *. bool_to_prop. exists t. split_and!; try done.
  destruct (Status t); done.
Qed.

Definition is_run (e : event) : bool := match e with EvRun _ _ => true | _ => false end.
Definition runs_in (l : list event) : Z := affected is_run l.
Definition not_run (e : event) : bool := negb (is_run e).

Lemma no_runs l : forallb not_run l = true -> runs_in l = 0.
Proof.
  intros Hl. apply affected_zero. apply forallb_Forall in Hl. intros e He.
  rewrite Forall_forall in Hl. by apply negb_true_iff, Hl.
Qed.

Lemma runs_app l1 l2 : runs_in (l1 ++ l2) = runs_in l1 + runs_in l2.
Proof. unfold runs_in, affected. rewrite List.filter_app, length_app. lia. Qed.

(** Only [obtain] runs the handler. *)
Lemma transport_no_run h attempt origin user text :
  only h not_run (transport (x_notifier x) attempt origin user text).
Proof. unfold transport. only_steps. Qed.

Lemma notifier_no_run h task refs attempt user text :
  only h not_run (validatedTaskNotifier (x_notifier x) task refs attempt user text).
Proof.
  unfold validatedTaskNotifier. destruct (negb _); [apply only_ret|].
  destruct (TaskOriginFromConfig _ _) as [origin|e]; [|apply only_ret].
  destruct refs as [|r refs]; [apply transport_no_run|].
  destruct (nt_validate _); [|apply transport_no_run].
  apply only_bind; [apply only_ask|]. intros [[]|e]; [apply transport_no_run|apply only_ret..].
Qed.

Lemma confirm_no_run h tries id r last : only h not_run (confirm (x_notifier x) tries id r last).
Proof.
  revert last. induction tries as [|tries IH]; intros last; [apply only_ret|].
  apply only_bind; [apply only_call|]. intros [u|e]; [apply only_ret|].
  apply only_bind; [apply only_ask|]. intros []; [apply only_ret|apply IH].
Qed.

Lemma resolve_no_run h id outcome :
  only h not_run (resolveTaskNotificationAttempt (x_notifier x) id outcome).
Proof.
  unfold resolveTaskNotificationAttempt. destruct outcome as [r|e]; [|only_steps].
  apply only_bind; [apply confirm_no_run|]. intros c. apply only_ret.
Qed.

Lemma deliver_no_run h task result : only h not_run (deliverNotify x task result).
Proof.
  unfold deliverNotify. apply only_bind.
  - unfold deliverTaskNotification. destruct (empty_text _); [apply only_ret|].
    destruct (PendingDeliveries result).
    + destruct (is_none _); [apply only_ret|].
      apply only_bind; [apply notifier_no_run|]. intros r. apply only_ret.
    + destruct (negb _); [apply only_ret|]. apply only_bind; [apply only_call|].
      intros [[id []]|e]; try apply only_ret.
      apply only_bind; [destruct (is_none _); [apply only_ret|apply notifier_no_run]|].
      intros sent. apply only_bind; [apply resolve_no_run|]. intros []. apply only_ret.
  - intros p. apply only_bind; [by apply wake_only; intros []|]. intros u. apply only_ret.
Qed.

Lemma after_no_run h task result status : only h not_run (afterArtifactFinalized x task result status).
Proof. unfold afterArtifactFinalized, archiveTaskSession, status_hook. only_steps. Qed.

Lemma expire_no_run h task now : only h not_run (expireTask x task now).
Proof.
  unfold expireTask, finalize, iteration_hook, archiveTaskSession, status_hook. only_steps.
Qed.

Lemma settle_no_run h task claim submission result :
  only h not_run (settle x task claim submission result).
Proof.
  assert (forall r, only h not_run (settle_accepted x task claim r)) as Ha.
  { intros r. unfold settle_accepted. destruct (durableOneShot task).
    - apply only_bind; [apply only_call|]. intros [[a|]|e]; try apply only_ret.
      apply only_bind; [apply after_no_run|]. intros u. apply only_ret.
    - apply only_bind; [apply deliver_no_run|]. intros [outcome err]. cbv zeta.
      unfold archiveTaskSession, status_hook. only_steps. }
  unfold settle. destruct (Pause result).
  { unfold settle_pause. apply only_bind; [apply deliver_no_run|]. intros [outcome err]. cbv zeta.
    only_steps. }
  destruct (Done result && durableOneShot task && blank (Output result)).
  { unfold settle_empty. cbv zeta. apply only_bind; [apply only_call|].
    intros [[a|]|e]; try apply only_ret. apply only_bind; [apply after_no_run|]. intros u. apply only_ret. }
  destruct (Done result).
  - unfold settle_done. apply only_bind; [only_steps|]. intros [u|e]; [|apply only_ret].
    destruct (has_criteria task); [|apply Ha].
    apply only_bind; [apply only_ask|]. intros v. apply only_bind; [apply only_Now|]. intros now.
    destruct (expired now task).
    { apply only_bind; [apply expire_no_run|]. intros u0. apply only_ret. }
    destruct (Unavailable v && durableOneShot task).
    { unfold settle_unavailable. destruct (Z.leb 2 _); [|only_steps].
      apply only_bind; [apply only_call|]. intros [[a|]|e]; try apply only_ret.
      apply only_bind; [apply after_no_run|]. intros u0. apply only_ret. }
    destruct (negb (Met v)); [|apply Ha]. unfold settle_rejected. cbv zeta. only_steps.
  - unfold settle_step. apply only_bind; [apply deliver_no_run|]. intros [outcome err]. cbv zeta.
    only_steps.
Qed.

Lemma conclude_no_run h task claim submission answer :
  only h not_run (conclude x task claim submission answer).
Proof.
  unfold conclude. apply only_bind; [apply only_Now|]. intros now. destruct (expired now task).
  { apply only_bind; [apply expire_no_run|]. intros u. unfold record. only_steps. }
  destruct answer as [result|e]; [|unfold record; only_steps].
  apply only_bind; [apply settle_no_run|]. intros [[again r] outcome].
  unfold iteration_hook, record. only_steps.
Qed.

(** ** The handler runs under a claim *)

(** Pieces that run nothing, from a given state. *)
Lemma quiet_run {A} h (m : Act A) s a s' :
  only h not_run m -> m h s = (a, s') -> exists l, trace s' = trace s ++ l /\ runs_in l = 0.
Proof. intros Hm E. destruct (Hm _ _ _ E) as (l & Hl & Hn). exists l. split; [done|by apply no_runs]. Qed.

(** Nothing was saved for the task when its submission was asked for, at the
    third step after the claim. *)
Definition unsubmitted (h : host) (s : sys) (task : AgentTask) : Prop :=
  durableOneShot task = true ->
  submissions (others h (steps_done s + 2) (tables s)) !! ID task = None.

Lemma obtain_runs h task handler registry err submission s a s' :
  obtain x task handler registry err submission h s = (a, s') ->
  exists l, trace s' = trace s ++ l
    /\ (l = [] \/ submission = None /\ l = [EvRun (ID task) (Iteration task + 1)]).
Proof.
  unfold obtain. destruct submission as [sub|]; [intros [= <- <-]; exists []; rewrite app_nil_r; auto|].
  destruct err; [intros [= <- <-]; exists []; rewrite app_nil_r; auto|].
  intros [= <- <-]. eexists. split; [reflexivity|by right].
Qed.

Lemma load_spares_submissions i e d r d' :
  LoadTaskSubmission i e d = (r, d') -> r = Ok None -> submissions d !! i = None.
Proof. intros E ->. apply autocommit_Ok in E as (k & E). by tx_inv. Qed.

Lemma review_or_run h task handler registry err submission claim s a s' :
  (answer ← obtain x task handler registry err submission;
   match answer : option (res string IterationResult) with
   | None => mret false
   | Some answer => conclude x task claim submission answer
   end) h s = (a, s') ->
  exists l, trace s' = trace s ++ l /\ (runs_in l = 0 \/ runs_in l = 1 /\ submission = None).
Proof.
  unfold mbind, act_bind. destruct (obtain x task handler registry err submission h s) as [answer s1] eqn:Eo.
  apply obtain_runs in Eo as (l1 & H1 & Hl1). intros E.
  assert (exists l2, trace s' = trace s1 ++ l2 /\ runs_in l2 = 0) as (l2 & H2 & Hl2).
  { destruct answer as [answer|]; [eapply quiet_run; [|exact E]; apply conclude_no_run|].
    injection E as <- <-. exists []. by rewrite app_nil_r. }
  exists (l1 ++ l2). rewrite H2, H1, app_assoc. split; [done|]. rewrite runs_app, Hl2, Z.add_0_r.
  destruct Hl1 as [->|[-> ->]]; [by left|by right].
Qed.

Lemma execute_claimed_runs h task handler claim s a s' :
  execute_claimed x task handler claim h s = (a, s') ->
  exists l, trace s' = trace s ++ l /\ (runs_in l = 0 \/ runs_in l = 1 /\ unsubmitted h s task).
Proof.
  unfold execute_claimed. unfold mbind at 1, act_bind at 1, ask. unfold mbind at 1, act_bind at 1, Now. simpl.
  destruct (task_registry _ _ _ task _ _) as [[[[registry b] requested] has] err].
  destruct (_ && _ && _ && _).
  { intros E. eapply quiet_run in E as (l & Hl & Hn); [exists l; split; [exact Hl|by left]|only_steps]. }
  unfold unsubmitted. replace (steps_done s + 2)%nat with (S (S (steps_done s))) by lia.
  assert (exists r s1, (if durableOneShot task then call (LoadTaskSubmission (ID task)) else mret (Ok None)) h
      (MkSys (S (S (steps_done s))) (tables s) (trace s)) = (r, s1) /\ trace s1 = trace s
    /\ (r = Ok None -> durableOneShot task = true ->
        submissions (others h (S (S (steps_done s))) (tables s)) !! ID task = None)) as (r & s1 & E1 & Ht & Hr).
  { destruct (durableOneShot task); [|by eexists _, _].
    unfold call. simpl. destruct (LoadTaskSubmission _ _ _) as [r d] eqn:El. eexists _, _. split; [done|].
    split; [done|]. intros Hr _. by eapply load_spares_submissions. }
  unfold mbind at 1, act_bind at 1. rewrite E1. rewrite <- Ht. clear E1.
  destruct r as [submission|e]; [|intros [= <- <-]; exists []; rewrite app_nil_r; auto].
  unfold mbind at 1, act_bind at 1, Now. destruct (match submission with Some _ => _ | None => _ end).
  { intros E. eapply quiet_run in E as (l & Hl & Hn); [exists l; split; [exact Hl|by left]|only_steps]. }
  intros E. apply review_or_run in E as (l & Hl & Hrun). exists l. split; [exact Hl|].
  destruct Hrun as [?|[? ->]]; [by left|right]. split; [done|by apply Hr].
Qed.

(** The claim of a run, at its step [n], on the tables [d] as they then were:
    the update took the row, pending, of the first executor and not past its
    deadline, and the read at the next step found it running since [claim]. *)
Record claimed (h : host) (n : nat) (d : db) (task : AgentTask) (d2 : db) (claim : time) : Prop := {
  cl_pending : exists t, tasks (others h n d) !! ID task = Some t /\ Status t = TPending
    /\ ExecutorVersion t = 1 /\ not_expired (clk (op_env h n) 0%nat) t = true;
  cl_won : exists d1 t', TrySetRunning (ID task) (op_env h n) (others h n d) = (Ok true, d1)
    /\ Get (ID task) (op_env h (S n)) (others h (S n) d1) = (Ok t', d2)
    /\ Status t' = TRunning /\ LastRunAt t' = Some claim;
}.

(** The steps before the claim: the clock, and the host's answer if it is asked. *)
Definition claim_step (s : sys) : nat :=
  S (steps_done s + (if is_some (x_authorize x) then 1 else 0)).

Lemma allowed_step h s task b s' : executionAllowed x task h s = (b, s') ->
  trace s' = trace s /\ tables s' = tables s
  /\ steps_done s' = (steps_done s + (if is_some (x_authorize x) then 1 else 0))%nat
  /\ (b = true -> forall f, x_authorize x = Some f -> f (steps_done s) task = true).
Proof.
  unfold executionAllowed. destruct (x_authorize x) as [f|]; intros [= <- <-]; simpl.
  - split_and!; [done..|lia|]. by intros Hb f' [= <-].
  - split_and!; [done..|lia|done].
Qed.

(** C5: a task's handler runs under a claim.  In one iteration it runs at most
    once, and only when this very run, at the steps before, found the task not
    past its deadline, was allowed by the host, won the task's row with its own
    update (the row pending, of the first executor, not past its deadline) and
    read it back running; and, for a durable one-shot, found no finished draft
    waiting for its review when it then asked for one.  This holds whatever
    the other workers do in between. *)
Theorem handler_runs_under_claim h s task handler again s'
  (Hexec : executeTaskOnce x task handler h s = (again, s')) :
  exists l, trace s' = trace s ++ l
    /\ (runs_in l = 0
        \/ runs_in l = 1
           /\ expired (wall_clock h (steps_done s)) task = false
           /\ (forall f, x_authorize x = Some f -> f (S (steps_done s)) task = true)
           /\ exists d2 claim, claimed h (claim_step s) (tables s) task d2 claim
              /\ (durableOneShot task = true ->
                  submissions (others h (claim_step s + 4) d2) !! ID task = None)).
Proof.
  assert (forall s1, trace s1 = trace s ->
    exists l, trace s1 = trace s ++ l /\ runs_in l = 0) as Hsilent
    by (intros s1 ->; exists []; by rewrite app_nil_r).
  unfold executeTaskOnce in Hexec. unfold mbind at 1, act_bind at 1, Now in Hexec.
  destruct (expired _ task) eqn:Hexp.
  { eapply quiet_run in Hexec as (l & Hl & Hn); [exists l; split; [exact Hl|by left]|].
    apply only_bind; [apply expire_no_run|intros u; apply only_ret]. }
  unfold mbind at 1, act_bind at 1 in Hexec.
  destruct (executionAllowed x task h _) as [allowed s1] eqn:Ea.
  apply allowed_step in Ea as (Ht1 & Hd1 & Hn1 & Hauth). cbn [steps_done tables trace] in *.
  destruct allowed; simpl in Hexec; [|injection Hexec as <- <-; destruct (Hsilent s1 Ht1) as (l & ? & ?); eauto].
  specialize (Hauth eq_refl). fold (claim_step s) in Hn1.
  unfold mbind at 1, act_bind at 1, call in Hexec. rewrite Hn1, Hd1, Ht1 in Hexec.
  destruct (TrySetRunning (ID task) _ _) as [won d1] eqn:Ew.
  destruct won as [[]|e]; [|injection Hexec as <- <-; exists []; rewrite app_nil_r; auto..].
  unfold mbind at 1, act_bind at 1, call in Hexec. simpl in Hexec.
  destruct (Get (ID task) _ _) as [row d2] eqn:Eg.
  destruct row as [t'|e]; [|injection Hexec as <- <-; exists []; rewrite app_nil_r; auto].
  destruct (bool_decide (Status t' = TRunning)) eqn:Hrun;
    [|injection Hexec as <- <-; exists []; rewrite app_nil_r; auto].
  apply bool_decide_eq_true in Hrun.
  destruct (LastRunAt t') as [claim|] eqn:Hclaim;
    [|injection Hexec as <- <-; exists []; rewrite app_nil_r; auto].
  apply execute_claimed_runs in Hexec as (l & Hl & Hr). exists l. split; [exact Hl|].
  destruct Hr as [?|[? Hsub]]; [by left|right]. split; [done|]. split; [done|]. split; [done|].
  exists d2, claim. split.
  - split; [|by exists d1, t'].
    apply TrySetRunning_won in Ew as (t & Ht & Hs & Hv & Hd & _). by exists t.
  - intros Hdur. specialize (Hsub Hdur). cbn [steps_done tables] in Hsub.
    by replace (claim_step s + 4)%nat with (S (S (claim_step s)) + 2)%nat by lia.
Qed.

(** The handler's claim to be done, before any review. *)
Definition unreviewed (r : IterationResult) : Prop :=
  Done r = true /\ Pause r = false /\ IsFinal r = false.

Lemma conclude_err_unshown h task claim submission e :
  only h unshown (conclude x task claim submission (Err e)).
Proof.
  unfold conclude. apply only_bind; [apply only_Now|]. intros now.
  destruct (expired now task); [apply only_bind; [apply expire_unshown|]; intros u|];
    unfold record; only_steps.
Qed.

Lemma conclude_unshown h task claim submission r :
  has_criteria task = true ->
  (forall n output calls, Met (x_accept x n task output calls) = false) ->
  unreviewed r -> only h unshown (conclude x task claim submission (Ok r)).
Proof.
  intros Hc Hm (Hd & Hp & Hf). unfold conclude. apply only_bind; [apply only_Now|]. intros now.
  destruct (expired now task).
  { apply only_bind; [apply expire_unshown|]. intros u. unfold record. only_steps. }
  eapply emits_bind with (P := fun s l => held_back s /\ forallb unshown l = true).
  - unfold settle. rewrite Hp, Hd. simpl. destruct (durableOneShot task && blank (Output r));
      [by apply settle_empty_held|by apply settle_done_held].
  - intros [[b r'] outcome] l1 [Hheld Hl1]. eapply emits_weaken.
    + apply (only_bind h unshown); [|intros u; apply (only_bind h unshown); [|intros u'; apply only_ret]].
      * unfold iteration_hook. destruct (nt_hook _); [|apply only_ret]. apply only_emit. simpl.
        destruct Hheld as [E|E]; simpl in E; rewrite E; [done|apply orb_true_r].
      * by apply only_emit.
    + intros a l2 Hl2. simpl in *. by rewrite forallb_app, Hl1, Hl2.
Qed.

Lemma execute_claimed_unshown h task handler claim :
  has_criteria task = true ->
  (forall n r reg, x_run x n handler task reg = Ok r -> unreviewed r) ->
  (forall n output calls, Met (x_accept x n task output calls) = false) ->
  only h unshown (execute_claimed x task handler claim).
Proof.
  intros Hc Hdone Hm. unfold execute_claimed. apply only_bind; [apply only_ask|]. intros base.
  apply only_bind; [apply only_Now|]. intros now1.
  destruct (task_registry _ _ _ _ _ _) as [[[[registry b] requested] has] err].
  destruct (_ && _ && _ && _); [only_steps|].
  apply only_bind; [only_steps|]. intros [submission|e]; [|apply only_ret].
  apply only_bind; [apply only_Now|]. intros now2. destruct (match submission with Some _ => _ | None => _ end);
    [only_steps|].
  eapply emits_bind with (P := fun a l => forallb unshown l = true /\ forall r, a = Some (Ok r) ->
    unreviewed r).
  - unfold obtain. destruct submission as [sub|].
    + apply emits_ret. split; [done|]. intros r. destruct (decode_refs _); [|done]. by intros [= <-].
    + destruct (is_some err); [by apply emits_ret|].
      intros s1 a s2 [= <- <-]. exists [EvRun (ID task) (Iteration task + 1)]. split; [done|].
      split; [done|]. intros r [= Hr]. by eapply Hdone.
  - intros answer l1 [Hl1 Hr]. eapply emits_weaken with (P := fun _ l => forallb unshown l = true).
    + destruct answer as [[r|e]|]; [|apply conclude_err_unshown|apply only_ret].
      by apply conclude_unshown; [..|apply Hr].
    + intros a l2 Hl2. by rewrite forallb_app, Hl1, Hl2.
Qed.

(** When the review can be reached in time and the draft says something, a
    rejected draft shows nothing at all: no message, no status, and the
    iteration only as one that goes on. *)
Definition silent (e : event) : bool :=
  match e with
  | EvSend _ _ _ | EvStatusHook _ _ _ => false
  | EvIterationHook _ _ final _ _ => negb final
  | _ => true
  end.
Definition drafts_say (task : AgentTask) (d : db) : Prop :=
  forall sub, submissions d !! ID task = Some sub -> blank (sub_Output sub) = false.
Record reviewable (h : host) (task : AgentTask) : Prop := {
  rv_reached : forall n output calls, Unavailable (x_accept x n task output calls) = false;
  rv_in_time : forall n, expired (wall_clock h n) task = false;
  rv_draft : forall n handler reg r, x_run x n handler task reg = Ok r -> blank (Output r) = false;
  rv_saved : forall n d, drafts_say task d -> drafts_say task (others h n d);
}.

Section reviewable.
Context (h : host) (task : AgentTask) (Hrv : reviewable h task).
Context (Hc : has_criteria task = true).
Context (Hm : forall n output calls, Met (x_accept x n task output calls) = false).

Lemma settle_silent claim submission r :
  unreviewed r -> blank (Output r) = false ->
  emits h (settle x task claim submission r)
    (fun s l => IsFinal s.1.2 = false /\ forallb silent l = true).
Proof.
  intros (Hd & Hp & Hf) Hb. unfold settle. rewrite Hp, Hd, Hb, andb_false_r. simpl.
  unfold settle_done. eapply emits_bind with (P := fun _ l => l = []).
  { destruct (_ && _ && _); [|by apply emits_ret].
    eapply emits_weaken; [apply emits_call|]. by intros ? ? [-> _]. }
  intros [u|e] ? ->; [|by apply emits_ret]. rewrite Hc.
  eapply emits_bind; [apply emits_ask|]. intros v ? (-> & n & ->).
  eapply emits_bind; [apply emits_Now|]. intros now ? (-> & n' & ->).
  rewrite (rv_in_time _ _ Hrv), (rv_reached _ _ Hrv), Hm. simpl. unfold settle_rejected.
  eapply emits_bind; [apply emits_call|]. intros [u'|e] ? (-> & _); by apply emits_ret.
Qed.

Lemma conclude_silent claim submission answer :
  (forall r, answer = Ok r -> unreviewed r /\ blank (Output r) = false) ->
  only h silent (conclude x task claim submission answer).
Proof.
  intros Ha. unfold conclude. eapply emits_bind; [apply emits_Now|]. intros now ? (-> & n & ->).
  rewrite (rv_in_time _ _ Hrv). destruct answer as [r|e].
  - destruct (Ha r eq_refl) as [Hu Hb]. eapply emits_bind; [by apply settle_silent|].
    intros [[b r'] outcome] l1 [Hf Hl1]. eapply emits_weaken.
    + apply (only_bind h silent); [|intros u; apply (only_bind h silent); [|intros u'; apply only_ret]].
      * unfold iteration_hook. destruct (nt_hook _); [|apply only_ret]. apply only_emit. simpl in *.
        by rewrite Hf.
      * by apply only_emit.
    + intros a l2 Hl2. simpl in *. by rewrite forallb_app, Hl1, Hl2.
  - lazymatch goal with |- emits h ?m _ => change (only h silent m) end. unfold record. only_steps.
Qed.

Lemma load_says i e d r d' sub :
  LoadTaskSubmission i e d = (r, d') -> r = Ok (Some sub) -> submissions d !! i = Some sub.
Proof. intros E ->. apply autocommit_Ok in E as (k & E). by tx_inv. Qed.

Lemma silent_run {A} (m : Act A) s a s' :
  only h silent m -> m h s = (a, s') -> exists l, trace s' = trace s ++ l /\ forallb silent l = true.
Proof. intros Hs E. destruct (Hs _ _ _ E) as (l & ? & ?). by exists l. Qed.

Lemma review_silent handler registry err submission claim :
  (forall n r reg, x_run x n handler task reg = Ok r -> unreviewed r) ->
  (forall sub, submission = Some sub -> blank (sub_Output sub) = false) ->
  only h silent (answer ← obtain x task handler registry err submission;
    match answer : option (res string IterationResult) with
    | None => mret false
    | Some answer => conclude x task claim submission answer
    end).
Proof.
  intros Hdone Hsub.
  eapply emits_bind with (P := fun a l => forallb silent l = true /\ forall r, a = Some (Ok r) ->
    unreviewed r /\ blank (Output r) = false).
  - unfold obtain. destruct submission as [sub|].
    + apply emits_ret. split; [done|]. intros r. destruct (decode_refs _); [|done]. intros [= <-].
      split; [done|]. by apply Hsub.
    + destruct err; [by apply emits_ret|].
      intros s1 a s2 [= <- <-]. exists [EvRun (ID task) (Iteration task + 1)]. split; [done|].
      split; [done|]. intros r [= Hr]. split; [by eapply Hdone|by eapply (rv_draft _ _ Hrv)].
  - intros answer l1 [Hl1 Hr]. eapply emits_weaken with (P := fun _ l => forallb silent l = true).
    + destruct answer as [answer|]; [|apply only_ret]. apply conclude_silent. intros r ->. by apply Hr.
    + intros a l2 Hl2. by rewrite forallb_app, Hl1, Hl2.
Qed.

Lemma execute_claimed_silent handler claim s a s' :
  (forall n r reg, x_run x n handler task reg = Ok r -> unreviewed r) -> drafts_say task (tables s) ->
  execute_claimed x task handler claim h s = (a, s') ->
  exists l, trace s' = trace s ++ l /\ forallb silent l = true.
Proof.
  intros Hdone Hsay. unfold execute_claimed.
  unfold mbind at 1, act_bind at 1, ask. unfold mbind at 1, act_bind at 1, Now. cbn [steps_done tables trace].
  destruct (task_registry _ _ _ task _ _) as [[[[registry b] requested] has] err].
  destruct (_ && _ && _ && _); [apply (silent_run _ (MkSys _ _ _)); only_steps|].
  assert (exists r s1, (if durableOneShot task then call (LoadTaskSubmission (ID task)) else mret (Ok None)) h
      (MkSys (S (S (steps_done s))) (tables s) (trace s)) = (r, s1) /\ trace s1 = trace s
    /\ forall sub, r = Ok (Some sub) -> blank (sub_Output sub) = false) as (r & s1 & E1 & Ht & Hr).
  { destruct (durableOneShot task); [|by eexists _, _].
    unfold call. simpl. destruct (LoadTaskSubmission _ _ _) as [r d] eqn:El. eexists _, _. split; [done|].
    split; [done|]. intros sub Hr. eapply (rv_saved _ _ Hrv); [exact Hsay|]. by eapply load_says. }
  unfold mbind at 1, act_bind at 1. rewrite E1. rewrite <- Ht. clear E1.
  destruct r as [submission|e]; [|apply (silent_run _ s1); apply only_ret].
  unfold mbind at 1, act_bind at 1, Now. destruct (match submission with Some _ => _ | None => _ end);
    [apply (silent_run _ (MkSys _ _ _)); only_steps|].
  apply (silent_run _ (MkSys _ _ _)). apply review_silent; [done|]. intros sub ->. by apply Hr.
Qed.

Lemma call_says {A} (op : Op A) s a s' :
  (forall e d r d', op e d = (r, d') -> submissions d' = submissions d) ->
  drafts_say task (tables s) -> call op h s = (a, s') ->
  trace s' = trace s /\ drafts_say task (tables s').
Proof.
  intros Hop Hs. unfold call. destruct (op _ _) as [r d] eqn:E. intros [= <- <-]. split; [done|].
  unfold drafts_say. cbn [tables]. rewrite (Hop _ _ _ _ E). by apply (rv_saved _ _ Hrv).
Qed.
Lemma claim_spares_submissions i e d r d' :
  TrySetRunning i e d = (r, d') -> submissions d' = submissions d.
Proof.
  intros [->|(a & n & E & _)]%autocommit_cases; [done|]. tx_inv.
  match goal with H : (_, _) = update_row _ _ _ _ |- _ => symmetry in H; unfold update_row in H end.
  by repeat case_match; simplify_eq.
Qed.
Lemma read_spares_submissions i e d r d' : Get i e d = (r, d') -> submissions d' = submissions d.
Proof.
  intros [->|(a & n & E & _)]%autocommit_cases; [done|]. tx_inv. case_match; by tx_inv.
Qed.

Lemma executeTaskOnce_silent handler s again s' :
  (forall n r reg, x_run x n handler task reg = Ok r -> unreviewed r) -> drafts_say task (tables s) ->
  executeTaskOnce x task handler h s = (again, s') ->
  exists l, trace s' = trace s ++ l /\ forallb silent l = true.
Proof.
  intros Hdone Hsay. assert (forall s1 (b : bool), trace s1 = trace s -> (b, s1) = (again, s') ->
      exists l, trace s' = trace s ++ l /\ forallb silent l = true) as Hend.
  { intros s1 b Ht [= <- <-]. exists []. by rewrite app_nil_r. }
  unfold executeTaskOnce. unfold mbind at 1, act_bind at 1, Now.
  rewrite (rv_in_time _ _ Hrv). unfold mbind at 1, act_bind at 1.
  destruct (executionAllowed x task h _) as [allowed s1] eqn:Ea.
  apply allowed_step in Ea as (Ht1 & Hd1 & _). cbn [tables trace] in Ht1, Hd1.
  destruct allowed; [|by apply Hend]. cbn [negb]. rewrite <- Hd1 in Hsay.
  unfold mbind at 1, act_bind at 1. destruct (call (TrySetRunning (ID task)) h s1) as [won s2] eqn:Ew.
  apply call_says in Ew as [Ht2 Hsay2]; [|intros ????; apply claim_spares_submissions|done].
  rewrite <- Ht1, <- Ht2 in *. destruct won as [[]|e]; [|by apply Hend..].
  unfold mbind at 1, act_bind at 1. destruct (call (Get (ID task)) h s2) as [row s3] eqn:Eg.
  apply call_says in Eg as [Ht3 Hsay3]; [|intros ????; apply read_spares_submissions|done].
  rewrite <- Ht3 in *. destruct row as [t'|e]; [|by apply Hend].
  destruct (bool_decide _); [|by apply Hend]. destruct (LastRunAt t') as [claim|]; [|by apply Hend].
  by apply execute_claimed_silent.
Qed.
End reviewable.

Lemma executeTaskOnce_unshown h task handler :
  has_criteria task = true ->
  (forall n r reg, x_run x n handler task reg = Ok r -> unreviewed r) ->
  (forall n output calls, Met (x_accept x n task output calls) = false) ->
  only h unshown (executeTaskOnce x task handler).
Proof.
  intros Hcriteria Hdone Hrejected.
  unfold executeTaskOnce. apply only_bind; [apply only_Now|]. intros now.
  destruct (expired now task); [apply only_bind; [apply expire_unshown|]; intros u; apply only_ret|].
  apply only_bind; [unfold executionAllowed; only_steps|]. intros [].
  2: apply only_ret.
  simpl. apply only_bind; [apply only_call|]. intros [[]|e]; try apply only_ret.
  apply only_bind; [apply only_call|]. intros [t|e]; [|apply only_ret].
  destruct (bool_decide _); [|apply only_ret]. destruct (LastRunAt t) as [claim|]; [|apply only_ret].
  by apply execute_claimed_unshown.
Qed.

(** C6: a draft the review does not accept is not delivered.  For a one-shot
    with acceptance criteria whose handler claims to be done, an iteration whose
    review says no sends no message, no status hook hears that the task is done,
    and an iteration hook sees only a draft that is not final or a result marked
    partial.  While the deadline has not passed, the review can be reached and
    the drafts are not empty (what the other workers save included), no status
    is told at all and nothing is shown as final. *)
Theorem rejected_draft_never_shown h s task handler again s'
  (Hcriteria : has_criteria task = true)
  (Hdone : forall n r reg, x_run x n handler task reg = Ok r ->
     unreviewed r)
  (Hrejected : forall n output calls, Met (x_accept x n task output calls) = false)
  (Hexec : executeTaskOnce x task handler h s = (again, s')) :
  exists l, trace s' = trace s ++ l /\ forallb unshown l = true
    /\ (reviewable h task -> drafts_say task (tables s) -> forallb silent l = true).
Proof.
  destruct (executeTaskOnce_unshown h task handler Hcriteria Hdone Hrejected _ _ _ Hexec) as (l & Hl & Hu).
  exists l. split; [done|]. split; [done|]. intros Hrv Hsay.
  destruct (executeTaskOnce_silent h task Hrv Hcriteria Hrejected handler _ _ _ Hdone Hsay Hexec) as (l' & Hl' & Hs).
  rewrite Hl in Hl'. by apply app_inv_head in Hl' as ->.
Qed.
End execute_inv.

(** ** Delivering spares the task rows *)

(** An operation that does not write task rows. *)
Definition spares_tasks {A} (op : Op A) : Prop :=
  forall e d r d', op e d = (r, d') -> tasks d' = tasks d.

Lemma query_spares {A} (f : time -> db -> A) : spares_tasks (autocommit (query f)).
Proof.
  intros e d r d' E. apply autocommit_cases in E as [->|(a & n & E & _)]; [done|]. by tx_inv.
Qed.

Lemma Get_spares i : spares_tasks (Get i).
Proof.
  intros e d r d' E. apply autocommit_cases in E as [->|(a & n & E & _)]; [done|].
  tx_inv. case_match; by tx_inv.
Qed.

Lemma Save_spares refs i claim o nt p tc pending : spares_tasks (SaveTaskSubmission refs i claim o nt p tc pending).
Proof.
  intros e d r d' E. apply autocommit_cases in E as [->|(a & n & E & _)]; [done|].
  apply tx_bind_Ok in E as (k & n1 & d1 & (_ & -> & Hs)%stmt_Ok & E).
  destruct (Z.eqb k 0); tx_inv. repeat case_match; by simplify_eq.
Qed.

(** A property of the task rows that the others keep. *)
Record stable (h : host) (I : sys -> Prop) : Prop := {
  st_ticks : forall n n' d l, I (MkSys n d l) -> I (MkSys n' d l);
  st_emit : forall n d l e, I (MkSys n d l) -> I (MkSys n d (l ++ [e]));
  st_call : forall A (op : Op A), spares_tasks op -> keeps h I (call op);
}.

Section stable.
Context (h : host) (I : sys -> Prop) (HI : stable h I) (nt : notifier).

Lemma stable_ask {A} (f : nat -> A) : keeps h I (ask f).
Proof. apply triple_ask. intros n d l. by apply st_ticks with (h := h). Qed.
Lemma stable_Now : keeps h I Now.
Proof. apply triple_Now. intros n d l. by apply st_ticks with (h := h). Qed.
Lemma stable_emit e : keeps h I (emit e).
Proof. apply triple_emit. intros n d l. by apply st_emit with (h := h). Qed.

Lemma notifier_stable task refs attempt user text :
  keeps h I (validatedTaskNotifier nt task refs attempt user text).
Proof.
  assert (forall o, keeps h I (transport nt attempt o user text)) as Ht.
  { intros o. unfold transport. destruct (nt_send nt); [|apply keeps_ret].
    apply keeps_bind; [apply stable_emit|]. intros u. apply stable_ask. }
  unfold validatedTaskNotifier. destruct (negb _); [apply keeps_ret|].
  destruct (TaskOriginFromConfig _ _); [|apply keeps_ret]. destruct refs; [apply Ht|].
  destruct (nt_validate nt); [|apply Ht].
  apply keeps_bind; [apply stable_ask|]. intros [[]|]; [apply Ht|apply keeps_ret..].
Qed.

Lemma resolve_stable aid outcome : keeps h I (resolveTaskNotificationAttempt nt aid outcome).
Proof.
  assert (forall tries r last, keeps h I (confirm nt tries aid r last)) as Hc.
  { induction tries as [|tries IH]; intros r last; [apply keeps_ret|].
    apply keeps_bind; [apply (st_call h I HI); intros ???? E; by apply Confirm_change in E as [_ ?]|].
    intros [u|e]; [apply keeps_ret|]. apply keeps_bind; [apply stable_ask|].
    intros []; [apply keeps_ret|apply IH]. }
  unfold resolveTaskNotificationAttempt. destruct outcome as [r|e].
  { apply keeps_bind; [apply Hc|]. intros c. apply keeps_ret. }
  destruct (IsPermanentlyNotSent e); [|destruct (IsDefinitelyNotSent e)].
  - apply keeps_bind; [apply (st_call h I HI); intros ???? E; by apply Reject_change in E as [_ ?]|].
    intros r. apply keeps_ret.
  - apply keeps_bind; [apply stable_Now|]. intros now.
    apply keeps_bind; [apply (st_call h I HI); intros ???? E; by apply Defer_change in E as [_ ?]|].
    intros r. apply keeps_ret.
  - apply keeps_bind; [apply (st_call h I HI); intros ???? E; by apply Uncertain_change in E as [_ ?]|].
    intros r. apply keeps_ret.
Qed.

Lemma deliver_stable task vrefs taskID userID text refs :
  keeps h I (deliverTaskNotification nt task vrefs taskID userID text refs).
Proof.
  unfold deliverTaskNotification. destruct (empty_text _); [apply keeps_ret|]. destruct refs.
  + destruct (is_none _); [apply keeps_ret|].
    apply keeps_bind; [apply notifier_stable|]. intros r. apply keeps_ret.
  + destruct (negb _); [apply keeps_ret|].
    apply keeps_bind; [apply (st_call h I HI); intros ???? E; by apply Begin_change in E as [_ ?]|].
    intros [[aid []]|e]; try apply keeps_ret.
    apply keeps_bind; [destruct (is_none _); [apply keeps_ret|apply notifier_stable]|].
    intros sent. apply keeps_bind; [apply resolve_stable|]. intros []. apply keeps_ret.
Qed.

Lemma wake_stable err : keeps h I (wakeForNotificationRetry err).
Proof. destruct err as [[]|]; first [apply stable_emit|apply keeps_ret]. Qed.

End stable.

Lemma deliverNotify_stable h I {H} (x : executor H) task result :
  stable h I -> keeps h I (deliverNotify x task result).
Proof.
  intros HI. apply keeps_bind; [by apply deliver_stable|]. intros p.
  apply keeps_bind; [by apply wake_stable|]. intros u. apply keeps_ret.
Qed.

(** ** Witnesses *)

(** A report with acceptance criteria, pending. *)
Definition report_task : AgentTask :=
  MkAgentTask 1 7 4 8 "report" None (Some "cite sources"%string) StrategyDirect "" None (JObj [])
    JNull [] [] None None None TPending (JObj []) None None 0 10 None None 0 None [].
Definition report_db : db := with_tasks {[7%N := report_task]} empty_db.
Definition report_host : host :=
  MkHost (fun n => MkEnv (fun _ => Z.of_nat n * Second) (fun _ => Z.of_nat n * Second)
            (fun k => N.of_nat (100 * n + k)) (fun _ => false) 0)
    (fun _ d => d) (fun n => Z.of_nat n * Second).
Definition report_notifier : notifier :=
  MkNotifier (Some (fun _ _ _ _ => Ok ("telegram"%string, JObj []))) None true (fun _ => false)
    (fun _ _ => false) (fun l => str (take 8 (reverse l))) (fun _ => None) (fun _ => "db"%string)
    (fun _ => "origin"%string) true.
Definition report_result : IterationResult :=
  MkIterationResult true false (Some (JObj [])) "The draft." "Report ready" false false false None [].
Definition report_executor (met : bool) : executor nat :=
  MkExecutor nat report_notifier None (fun _ _ => Some NewToolRegistry) None
    (MkZones None None (fun _ => None)) (fun _ => []) (fun _ _ _ _ => Ok report_result)
    (fun _ _ _ _ => MkVerdict met "no citations" false [])
    (fun refs => JArr []) String.leb (fun _ => "00000007-0000"%string)
    (MkUI (fun t => t) (fun t _ => t) (fun t => t) (fun g d _ => g ++ d)%string) true true.
Definition report_run (met : bool) := executeTaskOnce (report_executor met) report_task 1%nat report_host
  (MkSys 1 report_db []).

Lemma report_reviewable : reviewable (report_executor false) report_host report_task.
Proof. split; [done|done|by intros n handler reg r [= <-]|done]. Defined.

Lemma rejected_draft_never_shown_witness :
  forallb silent (trace (snd (report_run false))) = true
  /\ trace (snd (report_run false))
     = [EvRun 7 1; EvIterationHook 7 "The draft." false false false; EvRecord 7 1 "rejected" false]
  /\ Progress <$> (tasks (tables (snd (report_run false))) !! 7%N)
     = Some (JObj [("acceptance_feedback"%string, JStr "no citations")]).
Proof.
  destruct (rejected_draft_never_shown (report_executor false) report_host (MkSys 1 report_db [])
    report_task 1%nat (fst (report_run false)) (snd (report_run false))) as (l & Hl & _ & Hs).
  - reflexivity.
  - by intros n r reg [= <-].
  - intros. reflexivity.
  - apply surjective_pairing.
  - split; [|split; by vm_compute]. rewrite Hl. apply Hs; [apply report_reviewable|done].
Defined.

(** The accepted one is published and its delivery queued. *)
Example accepted_draft_published :
  trace (snd (report_run true))
  = [EvRun 7 1; EvStatusHook 7 TDone "The draft."; EvDrain;
     EvIterationHook 7 "The draft." true false false; EvRecord 7 1 "done" true]
  /\ Status <$> (tasks (tables (snd (report_run true))) !! 7%N) = Some TDone
  /\ n_State <$> (map_to_list (notifications (tables (snd (report_run true))))).*2 = [NRetryable].
Proof. split_and!; by vm_compute. Qed.

Lemma handler_runs_under_claim_witness :
  runs_in (trace (snd (report_run true))) = 1
  /\ claim_step (report_executor true) (MkSys 1 report_db []) = 2%nat
  /\ exists d2 claim, claimed report_host 2 report_db report_task d2 claim.
Proof.
  destruct (handler_runs_under_claim (report_executor true) report_host (MkSys 1 report_db [])
    report_task 1%nat _ _ (surjective_pairing (report_run true))) as (l & Hl & Hr).
  assert (runs_in (trace (snd (report_run true))) = 1) as H1 by by vm_compute.
  split; [done|]. split; [done|].
  destruct Hr as [Hr|(_ & _ & _ & d2 & claim & Hc & _)]; [|exists d2, claim; exact Hc].
  rewrite Hl in H1. simpl in H1. congruence.
Defined.

(** A reply cut off inside its notes: not blank for the scheduler, empty for the
    finalizer.  The iteration fails with the draft saved and the row left
    running, where only the stale-run reset finds it, to fail the same way. *)
Definition cut_off_task : AgentTask := set_AcceptanceCriteria None report_task.
Definition cut_off_executor : executor nat :=
  MkExecutor nat report_notifier None (fun _ _ => Some NewToolRegistry) None
    (MkZones None None (fun _ => None)) (fun _ => [])
    (fun _ _ _ _ => Ok (set_output "<scratchpad>notes" report_result))
    (fun _ _ _ _ => MkVerdict true "" false []) (fun refs => JArr []) String.leb
    (fun _ => "00000007-0000"%string)
    (MkUI (fun t => t) (fun t _ => t) (fun t => t) (fun g d _ => g ++ d)%string) true true.

Lemma cut_off_draft_stuck :
  let s := snd (executeTaskOnce cut_off_executor cut_off_task 1%nat report_host
                  (MkSys 1 (with_tasks {[7%N := cut_off_task]} empty_db) [])) in
  Status <$> (tasks (tables s) !! 7%N) = Some TRunning
  /\ sub_Output <$> (submissions (tables s) !! 7%N) = Some "<scratchpad>notes"%string
  /\ trace s = [EvRun 7 1; EvIterationHook 7 "<scratchpad>notes" false false false;
                EvRecord 7 1 "failed" false].
Proof. split_and!; by vm_compute. Qed.
