(* ===== verification/TaskLoop.v ===== *)
(** * TaskLoop: iterations back to back

    [runTask] of internal/agenttask/scheduler.go: a one-off task runs its next
    iteration at once while the last one was not terminal, re-reading its row in
    between.  The loop is a fixpoint with fuel; [run_task_terminates] gives the
    fuel a task with an iteration cap needs.

    Outside this file: the shaping of a new task by the skill router (the task
    is taken as shaped) and the count of free slots, which the host answers. *)

From Stdlib Require Import Ascii String.
From S2P Require Import Prelude GoStrings Json GoJson Task GoTime TaskPlan AutonomousTurn Store StepStore Journal.
From S2P Require Import Finalize JournalInv TaskRows TaskProgram TaskConfig Registry Gates TaskTools World Notify.
From S2P Require Import Execute ExecuteInv.

Local Open Scope Z_scope.

Section loop.
Context {H : Type} (x : executor H).

(** What stops the loop on the row it re-reads. *)
Definition out_of_budget (t : AgentTask) : bool :=
  Z.ltb 0 (MaxIterations t) && Z.leb (MaxIterations t) (Iteration t).

(** [cancelled]: the context has ended.  [None] when the fuel runs out. *)
Fixpoint run_loop (cancelled : nat -> bool) (fuel : nat) (task : AgentTask) (handler : H)
    : Act (option unit) :=
  match fuel with
  | O => mret None
  | S fuel =>
      again ← executeTaskOnce x task handler;
      if negb (again : bool) then mret (Some tt)
      else
        next ← call (Get (ID task));
        match next : res StoreError AgentTask with
        | Err _ => mret (Some tt)
        | Ok next =>
            if negb (bool_decide (Status next = TPending)) then mret (Some tt)
            else if out_of_budget next then mret (Some tt)
            else
              now ← Now;
              if match Deadline next with Some d => Z.leb d now | None => false end then
                _ ← expireTask x next now; mret (Some tt)
              else
                stop ← ask cancelled;
                if (stop : bool) then mret (Some tt)
                else run_loop cancelled fuel next handler
        end
  end.

(** A one-off takes a slot or stays pending for a later tick. *)
Definition runTask (cancelled : nat -> bool) (slot_free : nat -> bool) (fuel : nat) (task : AgentTask)
    (handler : H) : Act (option unit) :=
  free ← (if is_none (Schedule task) then ask slot_free else mret true);
  if (free : bool) then run_loop cancelled fuel task handler else mret (Some tt).

(** * Termination *)

(** The row of the task as the loop counts it: its cap and how many iterations
    are behind it, or a status that ends the loop. *)
Definition idle (t : AgentTask) : Prop := Status t <> TPending /\ Status t <> TRunning.
Definition row_is (id : uuid) (cap : Z) (P : AgentTask -> Prop) (s : sys) : Prop :=
  exists t, tasks (tables s) !! id = Some t /\ ID t = id /\ MaxIterations t = cap /\ (idle t \/ P t).
Definition at_iteration (i : Z) (t : AgentTask) : Prop := Iteration t = i.
Definition held_at (i : Z) (t : AgentTask) : Prop := Status t = TRunning /\ Iteration t = i.
Definition moved_on (i : Z) (t : AgentTask) : Prop := Status t <> TPending \/ Iteration t = i + 1.

(** The others may end the task or pause it; they do not run it. *)
Definition leaves_to_us (id : uuid) (h : host) : Prop :=
  forall n d t, tasks d !! id = Some t -> exists t',
    tasks (others h n d) !! id = Some t'
    /\ (t' = t \/ (idle t' /\ ID t' = ID t /\ MaxIterations t' = MaxIterations t)).

Section termination.
Context (h : host) (id : uuid) (cap : Z) (Hours : leaves_to_us id h).
#[local] Abbreviation row := (row_is id cap).

Lemma row_others P n d l : row P (MkSys n d l) -> row P (MkSys n (others h n d) l).
Proof.
  intros (t & Ht & Hid & Hc & Hi). destruct (Hours n d t Ht) as (t' & Ht' & [->|(Hd & Hid' & Hc')]).
  - by exists t.
  - exists t'. split_and!; [done|congruence|congruence|by left].
Qed.

Lemma row_ask {A} P (f : nat -> A) : keeps h (row P) (ask f).
Proof. apply triple_ask. by intros n d l. Qed.
Lemma row_Now P : keeps h (row P) Now.
Proof. apply triple_Now. by intros n d l. Qed.
Lemma row_emit P e : keeps h (row P) (emit e).
Proof. apply triple_emit. by intros n d l. Qed.

Lemma row_call {A} P (op : Op A) : spares_tasks op -> keeps h (row P) (call op).
Proof.
  intros Hop. apply triple_call. intros n d l r d' Hs E.
  apply row_others in Hs as (t & Ht & ?). exists t. simpl. by rewrite (Hop _ _ _ _ E).
Qed.

Lemma row_stable P : stable h (row P).
Proof. split; [done|done|intros A op; apply row_call]. Qed.

Lemma row_deliver P task result : keeps h (row P) (deliverNotify x task result).
Proof. apply deliverNotify_stable, row_stable. Qed.

(** ** The step to the next iteration *)

Lemma UpdateProgress_moves i progress urls :
  triple h (row (held_at i)) (call (UpdateProgressWithRecheck id progress urls))
    (fun _ => row (moved_on i)).
Proof.
  apply triple_call. intros n d l r d' Hs E. apply row_others in Hs as (t & Ht & Hid & Hc & Hi).
  apply autocommit_cases in E as [->|(a & k & E & _)].
  { exists t. split_and!; [done..|]. destruct Hi as [?|[Hr _]]; [by left|]. right. left. by rewrite Hr. }
  tx_inv. match goal with H : (_, _) = update_row _ _ _ _ |- _ => symmetry in H; unfold update_row in H;
    simpl in Ht; rewrite Ht in H; destruct (has_status _ t) eqn:Hp in H end; simplify_eq.
  - eexists. split; [simpl; by rewrite lookup_insert_eq|]. simpl. split_and!; [done..|]. right. right.
    destruct Hi as [[_ Hn]|[_ Hit]]; [|simpl; lia]. unfold has_status in Hp. by destruct (Status t).
  - exists t. split_and!; [done..|]. destruct Hi as [?|[Hr _]]; [by left|]. right. left. by rewrite Hr.
Qed.

Lemma Reject_moves i claim progress urls :
  triple h (row (held_at i)) (call (RejectTaskSubmission id claim progress urls))
    (fun r s => is_ok r = true -> row (moved_on i) s).
Proof.
  apply triple_call. intros n d l r d' Hs E. apply row_others in Hs as (t & Ht & Hid & Hc & Hi).
  destruct r as [u|e]; [|done]. intros _.
  apply run_tx_Ok in E as (_ & k & d1 & [[Hb ->]|[Hb ->]]);
    apply tx_bind_Ok in Hb as (c & n1 & d2 & (_ & -> & Hu)%exec_count_Ok & Hb);
    (destruct (Z.eqb_spec c 0); [by tx_inv|]); [|by tx_inv].
  tx_inv. unfold update_row in Hu. simpl in Ht. rewrite Ht in Hu.
  destruct (claimed_at claim t) eqn:Hp in Hu; simplify_eq.
  eexists. split; [simpl; by rewrite lookup_insert_eq|]. simpl. split_and!; [done..|]. right. right.
  unfold claimed_at, has_status in Hp. apply andb_true_iff in Hp as [Hp _].
  destruct Hi as [[_ Hn]|[_ Hit]]; [|simpl; lia]. by destruct (Status t).
Qed.

(** What the branches that continue leave behind. *)
Definition moves (i : Z) (s : settled) (st : sys) : Prop := s.1.1 = true -> row (moved_on i) st.

Lemma never_continues {A} P (m : Act A) (k : A -> Act settled) i :
  (forall a, triple h (fun _ => True) (k a) (fun s _ => s.1.1 = false)) ->
  triple h P (m ≫= k) (moves i).
Proof.
  intros Hk. eapply triple_bind with (R := fun _ _ => True); [by intros s a s' _ _|]. intros a.
  eapply triple_post; [apply Hk|]. intros s st Hs. unfold moves. congruence.
Qed.

Lemma false_bind {A} (m : Act A) (k : A -> Act settled) :
  (forall a, triple h (fun _ => True) (k a) (fun s _ => s.1.1 = false)) ->
  triple h (fun _ => True) (m ≫= k) (fun s _ => s.1.1 = false).
Proof. intros Hk. eapply triple_bind with (R := fun _ _ => True); [by intros s a s' _ _|exact Hk]. Qed.

Lemma false_ret P r o i : triple h P (mret (false, r, o)) (moves i).
Proof. by apply triple_ret. Qed.

Lemma accepted_stops task claim result :
  triple h (fun _ => True) (settle_accepted x task claim result) (fun s _ => s.1.1 = false).
Proof.
  unfold settle_accepted. destruct (durableOneShot task).
  - apply false_bind. intros [[a|]|e]; try by apply triple_ret.
    apply false_bind. intros u. by apply triple_ret.
  - apply false_bind. intros [outcome err]. destruct (classifyNotificationFailure _ _ _ _ _).
    { apply false_bind. intros u. by apply triple_ret. }
    apply false_bind. intros [u|e]; [|by apply triple_ret].
    apply false_bind. intros u'. by apply triple_ret.
Qed.

Lemma stops_moves P (m : Act settled) i :
  triple h (fun _ => True) m (fun s _ => s.1.1 = false) -> triple h P m (moves i).
Proof.
  intros Hm. eapply triple_post; [eapply triple_pre; [|exact Hm]; done|].
  intros s st Hs. unfold moves. congruence.
Qed.

Lemma settle_moves i task claim submission result :
  ID task = id ->
  triple h (row (held_at i)) (settle x task claim submission result) (moves i).
Proof.
  intros Hid. unfold settle. destruct (Pause result).
  { unfold settle_pause. apply never_continues. intros [outcome err].
    destruct (classifyNotificationFailure _ _ _ _ _); apply false_bind; intros u; by apply triple_ret. }
  destruct (Done result && durableOneShot task && blank (Output result)).
  { unfold settle_empty. apply never_continues. intros [[a|]|e]; try by apply triple_ret.
    apply false_bind. intros u. by apply triple_ret. }
  destruct (Done result).
  - unfold settle_done. eapply triple_bind with (R := fun _ => row (held_at i)).
    { destruct (_ && _ && _); [apply row_call, Save_spares|apply keeps_ret]. }
    intros [u|e]; [|apply false_ret].
    destruct (has_criteria task); [|apply stops_moves, accepted_stops].
    eapply triple_bind; [apply row_ask|]. intros v. eapply triple_bind; [apply row_Now|]. intros now.
    destruct (expired now task).
    { apply never_continues. intros u'. by apply triple_ret. }
    destruct (Unavailable v && durableOneShot task).
    { unfold settle_unavailable. destruct (Z.leb 2 _).
      - apply never_continues. intros [[a|]|e]; try by apply triple_ret.
        apply false_bind. intros u'. by apply triple_ret.
      - apply never_continues. intros now'. apply false_bind. intros u'. by apply triple_ret. }
    destruct (negb (Met v)); [|apply stops_moves, accepted_stops].
    unfold settle_rejected. rewrite Hid.
    eapply triple_bind with (R := fun r s => is_ok r = true -> row (moved_on i) s).
    { destruct (durableOneShot task); [apply Reject_moves|].
      eapply triple_post; [apply UpdateProgress_moves|]. by intros ???. }
    intros [u'|e]; [|by apply triple_ret]. apply triple_ret. intros s Hs _. by apply Hs.
  - unfold settle_step. eapply triple_bind; [apply row_deliver|]. intros [outcome err].
    destruct (classifyNotificationFailure _ _ _ _ _); [apply never_continues; intros u; by apply triple_ret|].
    eapply triple_bind; [unfold UpdateProgress; rewrite Hid; apply UpdateProgress_moves|].
    intros u. apply triple_ret. by intros s Hs _.
Qed.

(** ** A whole iteration *)

Definition goes_on (i : Z) (again : bool) (s : sys) : Prop := again = true -> row (moved_on i) s.

Lemma ret_stops P i : triple h P (mret false) (goes_on i).
Proof. by apply triple_ret. Qed.

Lemma then_stops {A} P (m : Act A) i : triple h P (_ ← m; mret false) (goes_on i).
Proof. eapply triple_bind with (R := fun _ _ => True); [by intros s a s' _ _|]. intros a. apply ret_stops. Qed.

Lemma conclude_moves i task claim submission answer :
  ID task = id ->
  triple h (row (held_at i)) (conclude x task claim submission answer) (goes_on i).
Proof.
  intros Hid. unfold conclude. eapply triple_bind; [apply row_Now|]. intros now.
  destruct (expired now task).
  { eapply triple_bind with (R := fun _ _ => True); [by intros s a s' _ _|]. intros u. apply then_stops. }
  destruct answer as [result|e].
  2:{ eapply triple_bind with (R := fun _ _ => True); [by intros s a s' _ _|]. intros u. apply then_stops. }
  eapply triple_bind; [by apply settle_moves|]. intros [[again r] outcome]. unfold moves, goes_on. simpl.
  destruct again; [|by intros s a s' _; unfold mbind, act_bind; repeat case_match; intros [= <- <-]].
  eapply triple_pre; [intros s Hs; exact (Hs eq_refl)|].
  eapply triple_bind; [unfold iteration_hook; destruct (nt_hook _); [apply row_emit|apply keeps_ret]|].
  intros u. eapply triple_bind; [apply row_emit|]. intros u'. by apply triple_ret.
Qed.

Lemma execute_claimed_moves i task handler claim :
  ID task = id ->
  triple h (row (held_at i)) (execute_claimed x task handler claim) (goes_on i).
Proof.
  intros Hid. unfold execute_claimed. eapply triple_bind; [apply row_ask|]. intros base.
  eapply triple_bind; [apply row_Now|]. intros now.
  destruct (task_registry _ _ now task base _) as [[[[registry b] requested] has] err].
  destruct (_ && _ && _ && _); [apply then_stops|].
  eapply triple_bind with (R := fun _ => row (held_at i)).
  { destruct (durableOneShot task); [apply row_call, query_spares|apply keeps_ret]. }
  intros [submission|e]; [|apply ret_stops].
  eapply triple_bind; [apply row_Now|]. intros now2.
  destruct (match submission with Some _ => _ | None => _ end); [apply then_stops|].
  eapply triple_bind with (R := fun _ => row (held_at i)).
  { unfold obtain. destruct submission as [sub|]; [apply keeps_ret|].
    destruct (is_some err); [apply keeps_ret|].
    apply keeps_bind; [apply row_emit|]. intros u. apply keeps_bind; [apply row_ask|].
    intros r. apply keeps_ret. }
  intros [answer|]; [by apply conclude_moves|apply ret_stops].
Qed.

Lemma claim_holds i :
  triple h (row (at_iteration i)) (call (TrySetRunning id))
    (fun r s => r = Ok true -> row (held_at i) s).
Proof.
  apply triple_call. intros n d l r d' Hs E ->.
  apply row_others in Hs as (t & Ht & Hid & Hc & Hi). apply TrySetRunning_won in E as (t' & Ht' & Hp & _ & _ & ->).
  simpl in Ht. rewrite Ht in Ht'. injection Ht' as <-.
  eexists. split; [simpl; by rewrite lookup_insert_eq|]. simpl. split_and!; [done..|]. right.
  destruct Hi as [[? _]|Hi]; [done|]. by split.
Qed.

Lemma executeTaskOnce_moves i task handler :
  ID task = id ->
  triple h (row (at_iteration i)) (executeTaskOnce x task handler) (goes_on i).
Proof.
  intros Hid. unfold executeTaskOnce. eapply triple_bind; [apply row_Now|]. intros now.
  destruct (expired now task); [apply then_stops|].
  eapply triple_bind with (R := fun _ => row (at_iteration i)).
  { unfold executionAllowed. destruct (x_authorize x); [apply row_ask|apply keeps_ret]. }
  intros []; [|apply ret_stops]. simpl. rewrite Hid.
  eapply triple_bind; [apply claim_holds|]. intros [[]|e]; [|apply ret_stops..].
  eapply triple_bind with (R := fun _ => row (held_at i)).
  { eapply triple_pre; [intros s Hs; exact (Hs eq_refl)|]. apply row_call, Get_spares. }
  intros [t|e]; [|apply ret_stops]. destruct (bool_decide _); [|apply ret_stops].
  destruct (LastRunAt t) as [claim|]; [by apply execute_claimed_moves|apply ret_stops].
Qed.

Lemma Get_row e d r d' : Get id e d = (r, d') -> forall t, r = Ok t -> tasks d !! id = Some t /\ d' = d.
Proof.
  intros E t ->. apply autocommit_Ok in E as (n & E). tx_inv. case_match; by tx_inv.
Qed.

Lemma run_loop_ends cancelled handler fuel : forall task i s,
  ID task = id -> 0 < cap -> row (at_iteration i) s -> cap - i <= Z.of_nat fuel -> (0 < fuel)%nat ->
  fst (run_loop cancelled fuel task handler h s) = Some tt.
Proof.
  induction fuel as [|fuel IH]; intros task i s Hid Hcap Hs Hfuel Hpos; [lia|]. simpl.
  unfold mbind, act_bind. destruct (executeTaskOnce x task handler h s) as [again s1] eqn:E1.
  pose proof (executeTaskOnce_moves i task handler Hid s again s1 Hs E1) as Hm.
  destruct again; simpl; [|done]. specialize (Hm eq_refl).
  rewrite Hid. unfold call. destruct s1 as [n1 d1 l1]. simpl.
  apply row_others in Hm as (t & Ht & Htid & Hc & Hi). simpl in Ht.
  destruct (Get id (op_env h n1) (others h n1 d1)) as [r d2] eqn:E2.
  destruct r as [next|e]; [|done].
  destruct (Get_row _ _ _ _ E2 next eq_refl) as [Hnext ->]. rewrite Ht in Hnext. injection Hnext as <-.
  destruct (bool_decide (Status t = TPending)) eqn:Hp; simpl; [|done].
  apply bool_decide_eq_true in Hp. destruct (out_of_budget t) eqn:Hb; [done|].
  unfold Now. simpl. destruct (match Deadline t with Some _ => _ | None => false end).
  { by destruct (expireTask _ _ _ _ _). }
  destruct (cancelled _); [done|].
  assert (Iteration t = i + 1) as Hit.
  { destruct Hi as [[? _]|[?|?]]; done. }
  unfold out_of_budget in Hb. apply andb_false_iff in Hb as [Hb|Hb]; bool_to_prop; [lia|].
  apply (IH t (i + 1)); [done|done| |lia|lia].
  exists t. simpl. split_and!; [done..|]. by right.
Qed.
End termination.

(** C15: the back-to-back loop of a task ends.  As long as the others leave the
    row to this worker or end the task (cancel, pause, finish), a task capped at
    [m] iterations with [k] behind it runs at most [max (m - k) 1] of them in a
    row: with that fuel the loop returns, whatever the handler, the review, the
    transport and the database do. *)
Theorem run_task_terminates h cancelled slot_free task handler t s
  (Hrow : tasks (tables s) !! ID task = Some t) (Hid : ID t = ID task)
  (Hours : leaves_to_us (ID task) h)
  (Hcap : 0 < MaxIterations t) :
  fst (runTask cancelled slot_free (Z.to_nat (Z.max (MaxIterations t - Iteration t) 1)) task handler h s)
  = Some tt.
Proof.
  assert (forall s, row_is (ID task) (MaxIterations t) (at_iteration (Iteration t)) s ->
    fst (run_loop cancelled (Z.to_nat (Z.max (MaxIterations t - Iteration t) 1)) task handler h s)
    = Some tt) as Hloop.
  { intros s' Hs. eapply run_loop_ends; [done|done|done|exact Hs|lia|lia]. }
  assert (row_is (ID task) (MaxIterations t) (at_iteration (Iteration t)) s) as Hs0
    by (exists t; split_and!; [done..|by right]).
  unfold runTask, mbind, act_bind. destruct (is_none (Schedule task)).
  - unfold ask. destruct (slot_free _); [|done]. by apply Hloop.
  - by apply Hloop.
Qed.
End loop.

(** ** Witness *)

(** A worker that never claims to be done, on a task of three iterations. *)
Definition restless : executor nat :=
  MkExecutor nat report_notifier None (fun _ _ => Some NewToolRegistry) None
    (MkZones None None (fun _ => None)) (fun _ => [])
    (fun _ _ _ _ => Ok no_result) (fun _ _ _ _ => MkVerdict true "" false []) (fun refs => JArr [])
    String.leb (fun _ => "00000007-0000"%string)
    (MkUI (fun t => t) (fun t _ => t) (fun t => t) (fun g d _ => g ++ d)%string) true true.
Definition capped_task : AgentTask := set_MaxIterations 3 report_task.
Definition capped_sys : sys := MkSys 1 (with_tasks {[7%N := capped_task]} empty_db) [].
Definition capped_run :=
  runTask restless (fun _ => false) (fun _ => true) 3 capped_task 1%nat report_host capped_sys.

Lemma run_task_terminates_witness :
  fst capped_run = Some tt
  /\ runs_in (trace (snd capped_run)) = 3
  /\ Iteration <$> (tasks (tables (snd capped_run)) !! 7%N) = Some 3.
Proof.
  split; [|split; by vm_compute].
  refine (run_task_terminates restless report_host (fun _ => false) (fun _ => true) capped_task 1%nat
    capped_task capped_sys _ eq_refl _ _).
  - by vm_compute.
  - intros n d t Ht. exists t. split; [exact Ht|by left].
  - done.
Defined.
