(* ===== verification/Deadlines.v ===== *)
(** * Deadlines: no task outlives its deadline

    internal/agenttask/deadline.go and [maintainGraphDeadlines] of
    graph_coordinator.go: every tick gives the first executor's live one-shot
    tasks a wall deadline, publishes the best draft of the expired ones and
    tells the user of one that takes long.

    [wall_start_at] is the reading of [start_at] in internal/core's
    [TaskWallStart], which unlike the scheduler's gate does not trim it. *)

From Stdlib Require Import Ascii String.
From S2P Require Import Prelude GoStrings Json GoJson Task GoTime TaskPlan AutonomousTurn Store StepStore Journal.
From S2P Require Import StepInv Lifecycle Finalize FinalizeInv JournalInv TaskRows TaskControl TaskProgram TaskConfig Registry Gates.
From S2P Require Import TaskTools World Notify Execute ExecuteInv TaskLoop.

Local Open Scope Z_scope.

Definition wall_start_at (config : json) : option time :=
  if is_object config || is_null config
  then s ← decode_string "start_at" config; ParseRFC3339 (lit s) else None.

Definition taskProgressAfter : duration := 10 * Minute.

Record lifecycle_texts := MkLifecycle {
  TaskProgressQueued : string -> string;
  TaskProgressRunning : string -> string;
  TaskDeadlineText : string -> string;
}.

Lemma order_by_NoDup_fmap {A B} (le : A -> A -> bool) (f : A -> B) l :
  NoDup (f <$> l) -> NoDup (f <$> order_by le l).
Proof. by rewrite order_by_Permutation. Qed.

(** The rows a query picks from a table keyed by its id have distinct ids. *)
Lemma NoDup_filtered_keys (T : gmap uuid AgentTask) (p : uuid * AgentTask -> bool) :
  (forall id t, T !! id = Some t -> ID t = id) ->
  NoDup (ID <$> (List.filter p (map_to_list T)).*2).
Proof.
  intros Hkeys. rewrite <- list_fmap_compose.
  rewrite (list_fmap_ext _ fst).
  - eapply sublist_NoDup; [apply (NoDup_fst_map_to_list T)|].
    induction (map_to_list T) as [|a l IH]; simpl; [done|].
    destruct (p a); simpl; by constructor.
  - intros i [id t] Hi. simpl. apply Hkeys. apply list_elem_of_lookup_2 in Hi.
    apply list_elem_of_In, List.filter_In in Hi as [Hi _]. by apply elem_of_map_to_list, list_elem_of_In.
Qed.

(** What a finalization at a deadline found when it left the row alone. *)
Lemma finalizeTaskTx_refuses collate digest id in_ e n d r n' d' now :
  finalizeTaskTx collate digest id in_ e n d = Ok (r, n', d') ->
  f_ClaimStartedAt in_ = None -> f_ExpiredAt in_ = Some now -> r = None ->
  forall t, tasks d !! id = Some t ->
    task_live (Status t) = false
    \/ tasks d !! id = Some t /\ forall dl, Deadline t = Some dl -> now < dl.
Proof.
  intros Hf Hcl Hx -> t Ht. unfold finalizeTaskTx in Hf. rewrite Ht in *.
  destruct (valid_outcome (f_Outcome in_)); simpl in Hf; [|by tx_inv].
  apply tx_bind_Ok in Hf as (row & n1 & d1 & (_ & -> & -> & ->)%query_Ok & Hf). rewrite Ht in Hf.
  destruct (task_live (Status t)); [simpl in Hf|by left]. right. split; [done|].
  apply tx_bind_Ok in Hf as (u & n2 & d2 & _ & Hf).
  unfold finalize_guard in Hf. rewrite Hcl, Hx in Hf. intros dl Hdl. rewrite Hdl in Hf.
  destruct (Z.ltb_spec now dl); [done|]. exfalso.
  apply tx_bind_Ok in Hf as (late & n3 & d3 & _ & Hf). destruct late; [by tx_inv|].
  destruct (_ && _) in Hf; [by tx_inv|].
  apply tx_bind_Ok in Hf as (found & n4 & d4 & _ & Hf).
  unfold publish in Hf. cbv zeta in Hf. destruct (String.eqb _ "") in Hf; [by tx_inv|].
  apply tx_bind_Ok in Hf as (a & n5 & d5 & _ & Hf). apply tx_bind_Ok in Hf as (t0 & n6 & d6 & _ & Hf).
  apply tx_bind_Ok in Hf as (u1 & n7 & d7 & _ & Hf). apply tx_bind_Ok in Hf as (u2 & n8 & d8 & _ & Hf).
  by tx_inv.
Qed.

Section deadlines.
Context {H : Type} (x : executor H) (ui : lifecycle_texts) (taskWallTimeout : duration).

Definition lifecycle_text (task : AgentTask) (stage : string) : string :=
  if String.eqb stage "deadline" then TaskDeadlineText ui (Title task)
  else if is_some (LastRunAt task) || Z.ltb 0 (Iteration task)
  then TaskProgressRunning ui (Title task) else TaskProgressQueued ui (Title task).

Definition notifyTaskLifecycle (task : AgentTask) (stage : string) : Act unit :=
  let refs := [MkRef "task_lifecycle" stage] in
  p ← deliverTaskNotification (x_notifier x) task refs (ID task) (UserID task)
        (lifecycle_text task stage) refs;
  wakeForNotificationRetry (snd (p : taskNotificationOutcome * option delivery_error)).

Definition takes_long (task : AgentTask) (now : time) : bool :=
  one_shot_row task
  && Z.leb (TaskWallStart (wall_start_at (Config task)) task now + taskProgressAfter) now.

Definition maintain_one (now : time) (task : AgentTask) : Act (res StoreError unit) :=
  if bool_decide (Status task = TFailed) then
    _ ← notifyTaskLifecycle task "deadline"; mret (Ok tt)
  else match TaskWallDeadline (wall_start_at (Config task)) task now taskWallTimeout with
  | None => mret (Ok tt)
  | Some deadline =>
      set ← (if bool_decide (Deadline task = Some deadline) then mret (Ok tt)
             else call (SetTaskDeadline (ID task) deadline));
      match set : res StoreError unit with
      | Err e => mret (Err e)
      | Ok _ =>
          let task := set_Deadline (Some deadline) task in
          if Z.leb deadline now then
            r ← expireTask x task now;
            mret match r : res StoreError bool with Ok _ => Ok tt | Err e => Err e end
          else if takes_long task now then
            _ ← notifyTaskLifecycle task "progress"; mret (Ok tt)
          else mret (Ok tt)
      end
  end.
Fixpoint maintain_all (now : time) (l : list AgentTask) : Act (res StoreError unit) :=
  match l with
  | [] => mret (Ok tt)
  | task :: l =>
      r ← maintain_one now task;
      match r : res StoreError unit with
      | Err e => mret (Err e)
      | Ok _ => maintain_all now l
      end
  end.
Definition maintainTaskDeadlines (now : time) : Act (res StoreError unit) :=
  l ← call DeadlineTasks;
  match l : res StoreError (list AgentTask) with
  | Err e => mret (Err e)
  | Ok l => maintain_all now l
  end.

Fixpoint expire_graphs (now : time) (changed : bool) (l : list AgentTask)
    : Act (res StoreError bool) :=
  match l with
  | [] => mret (Ok changed)
  | task :: l =>
      r ← expireTask x task now;
      match r : res StoreError bool with
      | Err e => mret (Err e)
      | Ok c => expire_graphs now (changed || c) l
      end
  end.
Definition maintainGraphDeadlines (now : time) : Act (res StoreError unit) :=
  l ← call (ExpiredGraphTasks now 100);
  match l : res StoreError (list (uuid * AgentTask)) with
  | Err e => mret (Err e)
  | Ok l =>
      r ← expire_graphs now false (l.*2);
      match r : res StoreError bool with
      | Err e => mret (Err e)
      | Ok changed =>
          _ ← (if changed && nt_journal (x_notifier x) then emit EvDrain else mret tt);
          mret (Ok tt)
      end
  end.

(** * Properties *)

(** A row of the first executor that is live is within its deadline, and a
    one-shot has one. *)
Definition in_time (now : time) (t : AgentTask) : Prop :=
  ExecutorVersion t = 1 -> task_live (Status t) = true ->
  (one_shot_row t = true -> Deadline t <> None) /\ (forall dl, Deadline t = Some dl -> now < dl).

Definition row_in_time (now : time) (id : uuid) (d : db) : Prop :=
  forall t, tasks d !! id = Some t -> in_time now t.

(** The pass at [now], watched at the row of one task.  Other writers may do
    what they like to the other rows; this one they may finish, bring within
    its deadline, or leave with the deadline and the kind it has. *)
Context (h : host) (now : time) (id : uuid).

Definition leaves_deadline : Prop := forall n d t', tasks (others h n d) !! id = Some t' ->
  in_time now t'
  \/ exists t, tasks d !! id = Some t /\ Deadline t' = Deadline t /\ one_shot_row t' = one_shot_row t
     /\ ExecutorVersion t = 1 /\ task_live (Status t) = true.
Context (Hothers : leaves_deadline).

(** The row is in time, or has what [P] says of its deadline and kind. *)
Definition row_is (P : option time -> bool -> Prop) (s : sys) : Prop :=
  forall t, tasks (tables s) !! id = Some t -> in_time now t \/ P (Deadline t) (one_shot_row t).
Definition late : option time -> bool -> Prop := fun _ _ => False.

Lemma row_is_impl (P Q : option time -> bool -> Prop) s :
  (forall dl o, P dl o -> Q dl o) -> row_is P s -> row_is Q s.
Proof. intros HPQ Hs t Ht. destruct (Hs t Ht); auto. Qed.

Lemma row_is_others P n n' d l l' : row_is P (MkSys n d l) -> row_is P (MkSys n' (others h n d) l').
Proof.
  intros Hs t' Ht'. destruct (Hothers n d t' Ht') as [?|(t & Ht & Hd & Ho & Hv & Hl)]; [by left|].
  destruct (Hs t Ht) as [Hin|HP]; [|right; congruence]. left. intros _ _. rewrite Hd, Ho. by apply Hin.
Qed.

(** A step that leaves the row alone. *)
Lemma row_is_call {A} (op : Op A) P :
  (forall e d r d', op e d = (r, d') -> tasks d' !! id = tasks d !! id) ->
  keeps h (row_is P) (call op).
Proof.
  intros Hop. apply triple_call. intros n d l r d' Hs E t Ht. simpl in Ht.
  rewrite (Hop _ _ _ _ E) in Ht. by apply (row_is_others P n n d l l).
Qed.

Lemma row_is_stable P : stable h (row_is P).
Proof.
  split; [done|done|]. intros A op Hop. apply row_is_call. intros e d r d' E.
  by rewrite (Hop _ _ _ _ E).
Qed.

Lemma notifyTaskLifecycle_keeps P task stage : keeps h (row_is P) (notifyTaskLifecycle task stage).
Proof.
  apply keeps_bind; [apply deliver_stable, row_is_stable|]. intros p. apply wake_stable, row_is_stable.
Qed.

(** What a finalization at the deadline does to the rows. *)
Lemma expire_rows collate digest i in_ e d r d' :
  FinalizeTask collate digest i in_ e d = (r, d') ->
  f_ClaimStartedAt in_ = None -> f_ExpiredAt in_ = Some now -> is_ok r = true ->
  (forall j, j <> i -> tasks d' !! j = tasks d !! j)
  /\ forall t, tasks d' !! i = Some t ->
       task_live (Status t) = false
       \/ tasks d !! i = Some t /\ forall dl, Deadline t = Some dl -> now < dl.
Proof.
  intros E Hcl Hx Hok. destruct r as [art|err]; [|done].
  apply run_tx_Ok in E as (_ & k & d1 & [[Hb ->]|[Hb ->]]); apply tx_bind_Ok in Hb as (a & k1 & d2 & Hf & Hb);
    [|by tx_inv]. apply ret_Ok in Hb as ([= ->] & _ & ->).
  pose proof (finalizeTaskTx_refuses _ _ _ _ _ _ _ _ _ _ now Hf Hcl Hx) as Hrow.
  apply finalizeTaskTx_Ok in Hf as [[-> ->]|(task' & a0 & -> & Had & Hp)].
  - split; [done|]. intros t Ht. destruct (Hrow eq_refl t Ht) as [?|?]; [by left|by right].
  - destruct (pub_task _ _ _ _ _ _ Hp) as [now0 Htask]. split.
    + intros j Hne. by rewrite Htask, lookup_alter_ne.
    + intros t Ht. left. rewrite Htask, lookup_alter_eq, (adm_task _ _ _ _ _ Had) in Ht.
      injection Ht as <-. simpl. unfold TaskTerminalStatus. repeat case_match; done.
Qed.

(** An expiry that succeeds ends with what its finalization left. *)
Lemma expire_from (I R : sys -> Prop) task :
  stable h R ->
  (forall n d l in_ r d', I (MkSys n d l) ->
     f_ClaimStartedAt in_ = None -> f_ExpiredAt in_ = Some now ->
     FinalizeTask (x_collate x) (nt_digest (x_notifier x)) (ID task) in_ (op_env h n) (others h n d)
       = (r, d') -> is_ok r = true -> R (MkSys (S n) d' l)) ->
  triple h I (expireTask x task now) (fun r s => is_ok r = true -> R s).
Proof.
  intros HR HI. unfold expireTask.
  eapply triple_bind with (R := fun r s => is_ok r = true -> R s).
  { apply triple_call. intros n d l r d' Hs E Hok. eapply HI; [exact Hs| | |exact E|exact Hok]; done. }
  intros [[a|]|e]; [|by apply triple_ret; intros s Hs|by apply triple_ret].
  eapply triple_pre; [intros s Hs; exact (Hs eq_refl)|].
  eapply triple_bind with (R := fun _ => R).
  { unfold iteration_hook. destruct (nt_hook _); [by eapply stable_emit|apply keeps_ret]. }
  intros u. eapply triple_bind with (R := fun _ => R).
  { unfold archiveTaskSession. destruct (_ || _); [apply keeps_ret|by eapply stable_emit]. }
  intros u1. eapply triple_bind with (R := fun _ => R).
  { unfold status_hook. destruct (x_status_hook x); [by eapply stable_emit|apply keeps_ret]. }
  intros u2. by apply triple_ret.
Qed.

(** The expiry of another task. *)
Lemma expire_other P task : ID task <> id ->
  triple h (row_is P) (expireTask x task now) (fun r s => is_ok r = true -> row_is P s).
Proof.
  intros Hne. apply expire_from; [apply row_is_stable|].
  intros n d l in_ r d' Hs Hcl Hx E Hok t Ht. simpl in Ht.
  rewrite (proj1 (expire_rows _ _ _ _ _ _ _ _ E Hcl Hx Hok)) in Ht by done.
  by apply (row_is_others P n n d l l).
Qed.

(** The expiry of the task watched, when its deadline has come. *)
Definition due_at (deadline : time) : option time -> bool -> Prop := fun dl _ => dl = Some deadline.
Lemma expire_due deadline task : ID task = id -> deadline <= now ->
  triple h (row_is (due_at deadline)) (expireTask x task now) (fun r s => is_ok r = true -> row_is late s).
Proof.
  intros Hid Hd. apply expire_from; [apply row_is_stable|].
  intros n d l in_ r d' Hs Hcl Hx E Hok t Ht. simpl in Ht.
  apply (row_is_others _ n n d l l) in Hs. left. rewrite Hid in E.
  destruct (proj2 (expire_rows _ _ _ _ _ _ _ _ E Hcl Hx Hok) t Ht) as [Hn|[Ht1 Hdl]].
  { intros _ Hl. congruence. }
  destruct (Hs t Ht1) as [?|Hdue]; [done|]. specialize (Hdl _ Hdue). lia.
Qed.

(** What the wall deadline is for a row of the first executor. *)
Lemma wall_deadline_cases task :
  ExecutorVersion task = 1 ->
  match TaskWallDeadline (wall_start_at (Config task)) task now taskWallTimeout with
  | None => one_shot_row task = false /\ Deadline task = None
  | Some deadline => Deadline task <> Some deadline ->
                     forall dl, Deadline task = Some dl -> deadline < dl
  end.
Proof.
  intros Hv. unfold TaskWallDeadline, TaskRunsToCompletion, one_shot_row, is_none. rewrite Hv. simpl.
  assert (match Deadline task with
          | Some dl => Deadline task <> Some dl -> forall dl', Deadline task = Some dl' -> dl < dl'
          | None => false = false /\ Deadline task = None
          end) as Hrec by (destruct (Deadline task) as [dl|]; [intros Hne; by destruct Hne|done]).
  destruct (is_some (Schedule task)) eqn:E1; simpl; [exact Hrec|].
  destruct (is_some (Cadence task)) eqn:E2; simpl; [exact Hrec|].
  destruct (String.eqb (Strategy task) StrategyRecurring) eqn:E3; simpl; [exact Hrec|].
  clear Hrec.
  destruct (Deadline task) as [dl|]; [|by intros _ ??].
  destruct (Z.ltb_spec dl (TaskWallStart (wall_start_at (Config task)) task now
    + (if Z.leb taskWallTimeout 0 then DefaultTaskWallTimeout else taskWallTimeout))); [done|].
  intros Hne dl' [= <-]. enough (dl <> TaskWallStart (wall_start_at (Config task)) task now
    + (if Z.leb taskWallTimeout 0 then DefaultTaskWallTimeout else taskWallTimeout)) by lia.
  intros ->. by apply Hne.
Qed.


(** What storing a wall deadline does to the rows. *)
Lemma SetTaskDeadline_rows i deadline e d r d' :
  SetTaskDeadline i deadline e d = (r, d') ->
  (forall j, j <> i -> tasks d' !! j = tasks d !! j)
  /\ (is_ok r = true -> forall t', tasks d' !! i = Some t' -> exists t, tasks d !! i = Some t /\
        (t' = set_Deadline (Some deadline) t
         \/ t' = t /\ (ExecutorVersion t = 1 -> task_live (Status t) = true ->
                       exists dl, Deadline t = Some dl /\ dl <= deadline))).
Proof.
  intros E. split.
  - intros j Hne. apply autocommit_cases in E as [->|(a & n & E & _)]; [done|]. tx_inv.
    match goal with H : (_, _) = update_row _ _ _ _ |- _ => symmetry in H; unfold update_row in H end.
    repeat case_match; simplify_eq; simpl; by rewrite ?lookup_insert_ne.
  - intros Hok t' Ht'. destruct r as [u|]; [|done]. apply autocommit_Ok in E as (k & E). tx_inv.
    match goal with H : (_, _) = update_row _ _ _ _ |- _ => symmetry in H; unfold update_row in H end.
    destruct (tasks d !! i) as [t|] eqn:Ht; [|simplify_eq; congruence]. exists t. split; [done|].
    destruct (_ && _) eqn:Hp; simplify_eq.
    + simpl in Ht'. rewrite lookup_insert_eq in Ht'. injection Ht' as <-. by left.
    + right. split; [done|]. intros Hv Hl. unfold v1 in Hp. rewrite Hv, Hl in Hp. simpl in Hp.
      destruct (Deadline t) as [dl|]; [|done]. exists dl. split; [done|]. by apply Z.ltb_ge.
Qed.

(** A task as the pass read it, against the row as it is now. *)
Definition as_read (task : AgentTask) : option time -> bool -> Prop := fun dl o =>
  dl = Deadline task /\ o = one_shot_row task.

Lemma row_is_in_time P s :
  (forall t, tasks (tables s) !! id = Some t -> P (Deadline t) (one_shot_row t) -> in_time now t) ->
  row_is P s -> row_is late s.
Proof. intros HP Hs t Ht. left. destruct (Hs t Ht) as [?|?]; [done|by apply HP]. Qed.

(** The rest of the pass over the task, its deadline set. *)
Lemma enforce_in_time deadline task : ID task = id ->
  triple h (row_is (due_at deadline))
    (if Z.leb deadline now then
       r ← expireTask x (set_Deadline (Some deadline) task) now;
       mret match r : res StoreError bool with Ok _ => Ok tt | Err e => Err e end
     else if takes_long (set_Deadline (Some deadline) task) now then
       _ ← notifyTaskLifecycle (set_Deadline (Some deadline) task) "progress"; mret (Ok tt)
     else mret (Ok tt))
    (fun r s => is_ok (r : res StoreError unit) = true -> row_is late s).
Proof.
  intros Hid. destruct (Z.leb_spec deadline now) as [Hd|Hd].
  - eapply triple_bind; [by apply expire_due|]. intros r. apply triple_ret.
    intros s Hs Hok. destruct r; [|done]. by apply Hs.
  - assert (forall s, row_is (due_at deadline) s -> row_is late s) as Hdone.
    { intros s. apply row_is_in_time. intros t _ Ht _ _. unfold due_at in Ht. rewrite Ht.
      split; [done|]. by intros dl [= <-]. }
    destruct (takes_long _ now).
    + eapply triple_bind; [apply notifyTaskLifecycle_keeps|]. intros u. apply triple_ret; auto.
    + apply triple_ret; auto.
Qed.

Lemma enforce_other P deadline task : ID task <> id ->
  triple h (row_is P)
    (if Z.leb deadline now then
       r ← expireTask x (set_Deadline (Some deadline) task) now;
       mret match r : res StoreError bool with Ok _ => Ok tt | Err e => Err e end
     else if takes_long (set_Deadline (Some deadline) task) now then
       _ ← notifyTaskLifecycle (set_Deadline (Some deadline) task) "progress"; mret (Ok tt)
     else mret (Ok tt))
    (fun r s => is_ok (r : res StoreError unit) = true -> row_is P s).
Proof.
  intros Hid. destruct (Z.leb_spec deadline now) as [Hd|Hd].
  - eapply triple_bind; [by apply expire_other|]. intros r. apply triple_ret.
    intros s Hs Hok. destruct r; [|done]. by apply Hs.
  - destruct (takes_long _ now); [|by apply triple_ret].
    eapply triple_bind; [apply notifyTaskLifecycle_keeps|]. intros u. by apply triple_ret.
Qed.

Lemma maintain_other P task : ID task <> id ->
  triple h (row_is P) (maintain_one now task) (fun r s => is_ok r = true -> row_is P s).
Proof.
  intros Hid. unfold maintain_one. destruct (bool_decide (Status task = TFailed)).
  { eapply triple_bind; [apply notifyTaskLifecycle_keeps|]. intros u. by apply triple_ret. }
  destruct (TaskWallDeadline _ task now taskWallTimeout) as [deadline|]; [|by apply triple_ret].
  eapply triple_bind with (R := fun _ => row_is P).
  { destruct (bool_decide _); [apply keeps_ret|]. apply row_is_call. intros e d r d' E.
    by apply (proj1 (SetTaskDeadline_rows _ _ _ _ _ _ E)). }
  intros [u|e]; [by apply enforce_other|by apply triple_ret].
Qed.

(** What is known of the row when the pass comes to its task. *)
Definition arrives (task : AgentTask) : sys -> Prop :=
  if task_live (Status task) then row_is (as_read task) else row_is late.

Lemma arrives_as_read task s : arrives task s -> row_is (as_read task) s.
Proof. unfold arrives. destruct (task_live _); [done|]. by apply row_is_impl. Qed.

Lemma maintain_one_in_time task : ID task = id -> ExecutorVersion task = 1 ->
  triple h (arrives task) (maintain_one now task) (fun r s => is_ok r = true -> row_is late s).
Proof.
  intros Hid Hv. unfold maintain_one. destruct (bool_decide (Status task = TFailed)) eqn:Hf.
  { apply bool_decide_eq_true in Hf. unfold arrives. rewrite Hf. simpl.
    eapply triple_bind; [apply notifyTaskLifecycle_keeps|]. intros u. by apply triple_ret. }
  eapply triple_pre; [apply arrives_as_read|].
  pose proof (wall_deadline_cases task Hv) as Hw.
  destruct (TaskWallDeadline _ task now taskWallTimeout) as [deadline|].
  2:{ destruct Hw as [Ho Hd]. apply triple_ret. intros s Hs _. revert Hs. apply row_is_in_time.
      intros t _ [Hd' Ho'] _ _. rewrite Hd', Ho', Ho, Hd. by split. }
  destruct (bool_decide (Deadline task = Some deadline)) eqn:Hb.
  - apply bool_decide_eq_true in Hb. eapply triple_bind; [apply keeps_ret|]. intros [u|e]; [|by apply triple_ret].
    eapply triple_pre; [|by apply enforce_in_time]. intros s. apply row_is_impl.
    intros dl o [-> _]. by rewrite Hb.
  - apply bool_decide_eq_false in Hb.
    eapply triple_bind with (R := fun r s => is_ok r = true -> row_is (due_at deadline) s).
    + apply triple_call. intros n d l r d' Hs E Hok t' Ht'. simpl in Ht'.
      apply (row_is_others _ n n d l l) in Hs. rewrite Hid in E.
      destruct (proj2 (SetTaskDeadline_rows _ _ _ _ _ _ E) Hok t' Ht') as (t & Ht & [->|[-> Hkept]]);
        [by right|]. destruct (Hs t Ht) as [?|[Hd _]]; [by left|]. left. intros Hv' Hl'.
      destruct (Hkept Hv' Hl') as (dl & Hdl & Hle). exfalso. rewrite Hd in Hdl.
      specialize (Hw Hb dl Hdl). lia.
    + intros [u|e]; [|by apply triple_ret].
      eapply triple_pre; [intros s Hs; exact (Hs eq_refl)|]. by apply enforce_in_time.
Qed.
Lemma maintain_all_other P l : id ∉ ID <$> l ->
  triple h (row_is P) (maintain_all now l) (fun r s => is_ok r = true -> row_is P s).
Proof.
  induction l as [|task l IH]; intros Hni; [by apply triple_ret|].
  rewrite fmap_cons in Hni. apply not_elem_of_cons in Hni as [Hne Hni].
  eapply triple_bind; [by apply maintain_other|]. intros [u|e]; [|by apply triple_ret].
  eapply triple_pre; [intros s Hs; exact (Hs eq_refl)|]. by apply IH.
Qed.

Lemma maintain_all_in_time task l :
  NoDup (ID <$> l) -> task ∈ l -> ID task = id -> ExecutorVersion task = 1 ->
  triple h (arrives task) (maintain_all now l) (fun r s => is_ok r = true -> row_is late s).
Proof.
  induction l as [|task0 l IH]; intros Hnd Hin Hid Hv; [by apply elem_of_nil in Hin|].
  rewrite fmap_cons in Hnd. apply NoDup_cons in Hnd as [Hni Hnd]. cbn [maintain_all].
  apply elem_of_cons in Hin as [<-|Hin].
  - eapply triple_bind; [by apply maintain_one_in_time|]. intros [u|e]; [|by apply triple_ret].
    eapply triple_pre; [intros s Hs; exact (Hs eq_refl)|]. apply maintain_all_other. by rewrite <- Hid.
  - assert (ID task0 <> id) as Hne.
    { intros E. apply Hni. rewrite E, <- Hid. by apply list_elem_of_fmap_2. }
    eapply triple_bind with (R := fun r s => is_ok r = true -> arrives task s).
    { unfold arrives. destruct (task_live _); by apply maintain_other. }
    intros [u|e]; [|by apply triple_ret].
    eapply triple_pre; [intros s Hs; exact (Hs eq_refl)|]. by apply IH.
Qed.

(** The rows a pass works on. *)
Lemma DeadlineTasks_lists e d listed d' :
  (forall i t, tasks d !! i = Some t -> ID t = i) -> DeadlineTasks e d = (Ok listed, d') ->
  d' = d /\ NoDup (ID <$> listed)
  /\ forall t, t ∈ listed <-> tasks d !! ID t = Some t /\ v1 t
     && (task_live (Status t) && (is_some (Deadline t) || one_shot_row t)
         || bool_decide (Status t = TFailed) && bool_decide (ErrorMessage t = Some TaskDeadlineExceeded)
            && negb (terminal_intent d (ID t))) = true.
Proof.
  intros Hkeys E. apply autocommit_Ok in E as (k & E). tx_inv. split; [done|]. split.
  { apply order_by_NoDup_fmap. by apply (NoDup_filtered_keys (tasks d)). }
  intros t0. rewrite order_by_elem, list_elem_of_fmap. split.
  - intros ([id0 t1] & -> & Hin). apply list_elem_of_In, List.filter_In in Hin as [Hin Hp].
    apply list_elem_of_In, elem_of_map_to_list in Hin. simpl in *.
    rewrite (Hkeys _ _ Hin). split; [done|exact Hp].
  - intros [Hin Hp]. exists (ID t0, t0). split; [done|].
    apply list_elem_of_In, List.filter_In. split; [|exact Hp].
    by apply list_elem_of_In, elem_of_map_to_list.
Qed.

(** C14: a maintenance pass enforces the deadlines.  When a pass at [now]
    succeeds, a live task of the first executor is within its deadline, and a
    live one-shot has one: the others were stopped, their best draft published
    as a partial result.  Others may write the tables all along, and this
    task's row too, provided they leave it finished, within its deadline, or
    live with the deadline and the kind it had: a task another writer inserts
    late, or without its deadline, waits for the next pass. *)
Theorem deadlines_enforced n d l s'
  (Hkeys : forall i t, tasks (others h n d) !! i = Some t -> ID t = i)
  (Hrun : maintainTaskDeadlines now h (MkSys n d l) = (Ok tt, s')) t
  (Ht : tasks (tables s') !! id = Some t)
  (Hv : ExecutorVersion t = 1) (Hl : task_live (Status t) = true) :
  (one_shot_row t = true -> Deadline t <> None) /\ (forall dl, Deadline t = Some dl -> now < dl).
Proof.
  enough (row_is late s') as Hs' by (by destruct (Hs' t Ht) as [Hin|[]]; apply Hin).
  unfold maintainTaskDeadlines, mbind, act_bind, call in Hrun. simpl in Hrun.
  set (d1 := others h n d) in *. clearbody d1.
  destruct (DeadlineTasks (op_env h n) d1) as [r d2] eqn:E. destruct r as [listed|e]; [|done].
  apply DeadlineTasks_lists in E as (-> & Hnd & Hlisted); [|done].
  destruct (decide (id ∈ ID <$> listed)) as [Hin|Hnin].
  - apply list_elem_of_fmap in Hin as (task & Hid & Hin). pose proof Hin as Hin'.
    apply Hlisted in Hin' as [Htask Hp]. symmetry in Hid.
    assert (ExecutorVersion task = 1) as Hv1 by (unfold v1 in Hp; by bool_to_prop).
    eapply (maintain_all_in_time task listed); [done..| |exact Hrun|done].
    unfold arrives. rewrite Hid in Htask.
    destruct (task_live (Status task)) eqn:Hlive; intros t' Ht'; simpl in Ht'; simplify_eq.
    + right. by split.
    + left. intros _ Hl'. congruence.
  - eapply (maintain_all_other late listed); [done| |exact Hrun|done].
    intros t' Ht'. left. intros Hv' Hl'. simpl in Ht'.
    assert (is_some (Deadline t') = false /\ one_shot_row t' = false) as [Hd Ho].
    { apply orb_false_iff. apply not_true_is_false. intros Hsome. apply Hnin. apply list_elem_of_fmap.
      exists t'. rewrite (Hkeys _ _ Ht'). split; [done|]. apply Hlisted.
      rewrite (Hkeys _ _ Ht'). split; [done|]. unfold v1. by rewrite Hv', Hl', Hsome. }
    rewrite Ho. unfold is_some in Hd. destruct (Deadline t'); [done|]. by split.
Qed.
End deadlines.

(** ** Witness *)

(** Two reports, one asked for three days ago and one a minute ago; while the
    pass runs, another writer inserts a third. *)
Definition hour : duration := 60 * Minute.
Definition days_later : time := 72 * hour.
Definition report_due (id : uuid) (asked : time) : AgentTask :=
  MkAgentTask 1 id 4 (id + 1) "fresh" None None StrategyDirect "" None (JObj [])
    JNull [] [] None None None TPending (JObj []) None None 0 10 None None asked None [].
Definition fresh_task : AgentTask := report_due 8 (days_later - Minute).
Definition busy_host : host :=
  MkHost (op_env report_host)
    (fun n d => if Nat.eqb n 2 then with_tasks (<[9%N := report_due 9 0]> (tasks d)) d else d)
    (wall_clock report_host).
Definition deadline_sys : sys :=
  MkSys 1 (with_tasks {[7%N := report_task; 8%N := fresh_task]} empty_db) [].
Definition deadline_ui : lifecycle_texts := MkLifecycle (fun t => t) (fun t => t) (fun t => t).
Definition deadline_run :=
  maintainTaskDeadlines (report_executor true) deadline_ui (24 * hour) days_later busy_host deadline_sys.

Lemma busy_host_leaves : leaves_deadline busy_host days_later 8%N.
Proof.
  intros n d t Ht. assert (tasks d !! 8%N = Some t) as Ht0.
  { revert Ht. cbn. destruct (Nat.eqb n 2); [|done]. cbn. by rewrite lookup_insert_ne. }
  destruct (decide (ExecutorVersion t = 1 /\ task_live (Status t) = true)) as [[Hv Hl]|Hn].
  - right. by exists t.
  - left. intros Hv Hl. by destruct Hn.
Qed.

Lemma deadlines_enforced_witness :
  fst deadline_run = Ok tt
  /\ Status <$> (tasks (tables (snd deadline_run)) !! 7%N) = Some TFailed
  /\ (Deadline <$> (tasks (tables (snd deadline_run)) !! 8%N)) = Some (Some (days_later - Minute + 24 * hour))
  /\ (Deadline <$> (tasks (tables (snd deadline_run)) !! 9%N)) = Some None
  /\ forall t, tasks (tables (snd deadline_run)) !! 8%N = Some t ->
     forall dl, Deadline t = Some dl -> days_later < dl.
Proof.
  split_and!; [by vm_compute..|]. intros t Ht.
  assert ((fun t => (ExecutorVersion t, task_live (Status t))) <$> (tasks (tables (snd deadline_run)) !! 8%N)
    = Some (1, true)) as E by by vm_compute.
  rewrite Ht in E. injection E as Hv Hl.
  refine (proj2 (deadlines_enforced (report_executor true) deadline_ui (24 * hour) busy_host
    days_later 8%N busy_host_leaves 1 (with_tasks {[7%N := report_task; 8%N := fresh_task]} empty_db) []
    _ _ _ t Ht Hv Hl)).
  - intros id t0 Hin.
    change ((<[7%N := report_task]> {[8%N := fresh_task]} : gmap uuid AgentTask) !! id = Some t0) in Hin.
    apply lookup_insert_Some in Hin as [[E1 E2]|[_ Hin]]; [by rewrite <- E1, <- E2|].
    apply lookup_singleton_Some in Hin as [E1 E2]. by rewrite <- E1, <- E2.
  - rewrite (surjective_pairing (maintainTaskDeadlines _ _ _ _ _ _)). by f_equal; vm_compute.
Defined.

(** The gate trims [start_at], the wall clock does not: with a blank around it
    a task that may not start yet is over its wall deadline, a day after it
    was asked for, two days before its start. *)
Definition padded_task : AgentTask :=
  MkAgentTask 1 7 4 8 "report" None None StrategyDirect "" None
    (JObj [("start_at"%string, JStr " 1970-01-04T00:00:00Z")])
    JNull [] [] None None None TPending (JObj []) None None 0 10 None None 0 None [].
Example padded_start_expires :
  startAtGateOpen padded_task (25 * hour) = false
  /\ TaskWallDeadline (wall_start_at (Config padded_task)) padded_task (25 * hour) (24 * hour)
     = Some (24 * hour).
Proof. split; by vm_compute. Qed.
