(* ===== verification/Turns.v ===== *)
(** * Turns: the turn in flight

    internal/transport/ws/turn_manager.go, the barge-in voice loop: one actor
    owns the active turn and one queued utterance; turns and classifications
    run in goroutines that report back over channels.  A state is what the
    actor owns together with the goroutines and the channels' contents;
    [tm_step] interleaves them.  And internal/gateway/turn_registry.go: the
    cancellable turn of each conversation.

    A turn's work, a transcription and a classification are outside: the steps
    carry what they produced.  A turn handle is the number of its creation. *)

From Stdlib Require Import Ascii String.
From stdpp Require Import relations.
From S2P Require Import Prelude GoStrings Task.

(** ** The voice loop *)

Record InMsg := MkInMsg { in_Type : string; in_Data : bytes }.
Record InboundMessage := MkInbound { in_Text : bytes; in_Audio : bytes }.
Inductive OutMsg : Type := Duck | Canceled | Resume | OutError (data : bytes).
Inductive InterjectionClass : Type := Interrupt | Backchannel | Unclear.

Record turnManager := MkTurnManager {
  active : option nat;
  pending : option InboundMessage;
  turnDone : list nat;
  interject : list (nat * InterjectionClass * bytes);
  running : list nat;
  classifying : list (nat * InboundMessage);
  cancelled : gset nat;
  started : list (nat * InboundMessage);
  written : list OutMsg;
  closed : bool;
}.

Definition newTurnManager : turnManager := MkTurnManager None None [] [] [] [] ∅ [] [] false.
Definition channel_cap : nat := 4.

Definition write (m : OutMsg) (tm : turnManager) : turnManager :=
  MkTurnManager (active tm) (pending tm) (turnDone tm) (interject tm) (running tm)
    (classifying tm) (cancelled tm) (started tm) (written tm ++ [m]) (closed tm).

Definition set_pending (p : option InboundMessage) (tm : turnManager) : turnManager :=
  MkTurnManager (active tm) p (turnDone tm) (interject tm) (running tm)
    (classifying tm) (cancelled tm) (started tm) (written tm) (closed tm).

Definition cancelActive (tm : turnManager) : turnManager :=
  match active tm with
  | None => tm
  | Some h =>
      MkTurnManager (active tm) (pending tm) (turnDone tm) (interject tm) (running tm)
        (classifying tm) ({[h]} ∪ cancelled tm) (started tm) (written tm) (closed tm)
  end.

Definition startTurn (inb : InboundMessage) (tm : turnManager) : turnManager :=
  let h := length (started tm) in
  MkTurnManager (Some h) (pending tm) (turnDone tm) (interject tm) (running tm ++ [h])
    (classifying tm) (cancelled tm) (started tm ++ [(h, inb)]) (written tm) (closed tm).

Definition startOrQueue (inb : InboundMessage) (tm : turnManager) : turnManager :=
  match active tm with
  | None => startTurn inb tm
  | Some _ => set_pending (Some inb) tm
  end.

Definition classifyAsync (h : nat) (inb : InboundMessage) (tm : turnManager) : turnManager :=
  MkTurnManager (active tm) (pending tm) (turnDone tm) (interject tm) (running tm)
    (classifying tm ++ [(h, inb)]) (cancelled tm) (started tm) (written tm) (closed tm).

Section voice.
(** [base64.StdEncoding.DecodeString]. *)
Context (DecodeString : bytes -> option bytes).

Definition toInbound (msg : InMsg) : res bytes InboundMessage :=
  if String.eqb (in_Type msg) "text" then Ok (MkInbound (in_Data msg) [])
  else if String.eqb (in_Type msg) "audio" then
    match DecodeString (in_Data msg) with
    | Some audio => Ok (MkInbound [] audio)
    | None => Err (lit "invalid base64 audio")
    end
  else Err (lit "unknown message type").

Definition dispatch (msg : InMsg) (tm : turnManager) : turnManager :=
  if String.eqb (in_Type msg) "speech_start" then
    match active tm with Some _ => write Duck tm | None => tm end
  else if String.eqb (in_Type msg) "cancel" then
    match active tm with Some _ => write Canceled (cancelActive tm) | None => tm end
  else if String.eqb (in_Type msg) "text" || String.eqb (in_Type msg) "audio" then
    match toInbound msg with
    | Err e => write (OutError e) tm
    | Ok inb =>
        match active tm with
        | None => startTurn inb tm
        | Some h => classifyAsync h inb tm
        end
    end
  else write (OutError (lit "unknown message type")) tm.

Definition onInterjection (h : nat) (class : InterjectionClass) (text : bytes)
    (tm : turnManager) : turnManager :=
  if negb (bool_decide (active tm = Some h)) then startOrQueue (MkInbound text []) tm
  else match class with
       | Interrupt =>
           set_pending (Some (MkInbound text [])) (write Canceled (cancelActive tm))
       | _ => write Resume tm
       end.

Definition onTurnDone (h : nat) (tm : turnManager) : turnManager :=
  let tm := if bool_decide (active tm = Some h)
            then MkTurnManager None (pending tm) (turnDone tm) (interject tm) (running tm)
                   (classifying tm) (cancelled tm) (started tm) (written tm) (closed tm)
            else tm in
  match active tm, pending tm with
  | None, Some p => startTurn p (set_pending None tm)
  | _, _ => tm
  end.

Definition with_channels (d : list nat) (i : list (nat * InterjectionClass * bytes))
    (r : list nat) (c : list (nat * InboundMessage)) (tm : turnManager) : turnManager :=
  MkTurnManager (active tm) (pending tm) d i r c (cancelled tm) (started tm) (written tm)
    (closed tm).

Definition close (tm : turnManager) : turnManager :=
  let tm := cancelActive tm in
  MkTurnManager (active tm) (pending tm) (turnDone tm) (interject tm) (running tm)
    (classifying tm) (cancelled tm) (started tm) (written tm) true.

(** The verdict a classification reports: nothing after a failed
    transcription or for an empty text; unclear when classifying failed. *)
Definition verdict_text (inb : InboundMessage) (transcript : option bytes) : option bytes :=
  let text := match in_Audio inb with
              | [] => Some (TrimSpace_b (in_Text inb))
              | _ => TrimSpace_b <$> transcript
              end in
  match text with Some [] => None | t => t end.

Inductive tm_step : turnManager -> turnManager -> Prop :=
(* the actor's select *)
| step_inbound msg tm : closed tm = false -> tm_step tm (dispatch msg tm)
| step_done h d tm :
    closed tm = false -> turnDone tm = h :: d ->
    tm_step tm (onTurnDone h (with_channels d (interject tm) (running tm) (classifying tm) tm))
| step_interject h class text i tm :
    closed tm = false -> interject tm = (h, class, text) :: i ->
    tm_step tm (onInterjection h class text
                  (with_channels (turnDone tm) i (running tm) (classifying tm) tm))
| step_close tm : closed tm = false -> tm_step tm (close tm)
(* the goroutine of a turn: an error message, the report of its end *)
| step_turn_error h data tm :
    h ∈ running tm -> h ∉ cancelled tm -> tm_step tm (write (OutError data) tm)
| step_turn_end h l1 l2 tm :
    running tm = l1 ++ h :: l2 -> (length (turnDone tm) < channel_cap)%nat ->
    tm_step tm (with_channels (turnDone tm ++ [h]) (interject tm) (l1 ++ l2) (classifying tm) tm)
(* the goroutine of a classification *)
| step_classified h inb transcript text class l1 l2 tm :
    classifying tm = l1 ++ (h, inb) :: l2 -> verdict_text inb transcript = Some text ->
    (length (interject tm) < channel_cap)%nat ->
    tm_step tm (with_channels (turnDone tm) (interject tm ++ [(h, class, text)]) (running tm)
                  (l1 ++ l2) tm)
| step_unclassified h inb transcript l1 l2 tm :
    classifying tm = l1 ++ (h, inb) :: l2 -> verdict_text inb transcript = None ->
    tm_step tm (with_channels (turnDone tm) (interject tm) (running tm) (l1 ++ l2) tm)
(* a goroutine blocked on a send sees the connection end *)
| step_turn_dropped h l1 l2 tm :
    running tm = l1 ++ h :: l2 -> closed tm = true ->
    tm_step tm (with_channels (turnDone tm) (interject tm) (l1 ++ l2) (classifying tm) tm).
End voice.

(** ** The turn registry of the gateway *)

(** A handle is the number of its [beginTurn]; the record keeps what the
    registry reads of it. *)
Record turnHandle := MkHandle { th_ref : nat; th_id : string; th_startedAt : time }.

Record Gateway := MkGateway {
  activeTurns : gmap (uuid * uuid) turnHandle;
  begun : nat;
  stopped : gset nat;
}.

Definition beginTurn (user soul : uuid) (id : string) (now : time) (g : Gateway)
    : turnHandle * Gateway :=
  let h := MkHandle (begun g) id now in
  (h, MkGateway (<[(user, soul) := h]> (activeTurns g)) (S (begun g)) (stopped g)).

(** The release func: [CompareAndDelete], then the context's cancel. *)
Definition release (user soul : uuid) (h : turnHandle) (g : Gateway) : Gateway :=
  MkGateway
    (match activeTurns g !! (user, soul) with
     | Some h' => if Nat.eqb (th_ref h') (th_ref h)
                  then delete (user, soul) (activeTurns g) else activeTurns g
     | None => activeTurns g
     end)
    (begun g) ({[th_ref h]} ∪ stopped g).

Definition CancelTurn (user soul : uuid) (turnID : string) (g : Gateway) : bool * Gateway :=
  match activeTurns g !! (user, soul) with
  | None => (false, g)
  | Some h =>
      if negb (String.eqb turnID "") && negb (String.eqb turnID (th_id h)) then (false, g)
      else (true, MkGateway (activeTurns g) (begun g) ({[th_ref h]} ∪ stopped g))
  end.

Definition ActiveTurn (user soul : uuid) (g : Gateway) : option (string * time) :=
  (fun h => (th_id h, th_startedAt h)) <$> activeTurns g !! (user, soul).

(** * Properties *)

(** ** The voice loop *)

Section voice_properties.
Context (DecodeString : bytes -> option bytes).

(** Unless the connection ended, the turns that have not been reported back
    are exactly the active one; an utterance is queued only behind it. *)
Definition tm_inv (tm : turnManager) : Prop :=
  (running tm ++ turnDone tm ≡ₚ option_list (active tm)
   \/ closed tm = true /\ running tm ++ turnDone tm = [])
  /\ (pending tm <> None -> active tm <> None)
  /\ (forall h, active tm = Some h -> (h < length (started tm))%nat).

Lemma inv_write m tm : tm_inv tm -> tm_inv (write m tm).
Proof. done. Qed.
Lemma inv_cancel tm : tm_inv tm -> tm_inv (cancelActive tm).
Proof. by destruct tm as [[a|] ? ? ? ? ? ? ? ? ?]. Qed.

Lemma cancelActive_active tm : active (cancelActive tm) = active tm.
Proof. by destruct tm as [[a|] ? ? ? ? ? ? ? ? ?]. Qed.
Lemma inv_queue p tm : tm_inv tm -> active tm <> None -> tm_inv (set_pending p tm).
Proof. intros (Hp & _ & Hs) Ha. by split_and!. Qed.

Lemma inv_start inb tm :
  running tm ++ turnDone tm = [] -> pending tm = None -> tm_inv (startTurn inb tm).
Proof.
  intros [Hr Hd]%app_nil Hp. unfold tm_inv, startTurn.
  cbn [running turnDone active closed pending started]. rewrite Hr, Hd, Hp. split_and!.
  - by left.
  - done.
  - intros h [= <-]. rewrite length_app. simpl. lia.
Qed.

(** When no turn is active, none is in flight. *)
Lemma inv_idle tm :
  tm_inv tm -> active tm = None -> running tm ++ turnDone tm = [] /\ pending tm = None.
Proof.
  intros (Hp & Hq & _) Ha. split.
  - destruct Hp as [Hp|[_ Hp]]; [|done]. rewrite Ha in Hp. by apply Permutation_nil_r in Hp.
  - destruct (pending tm) as [p|]; [|done]. by destruct (Hq ltac:(done)).
Qed.

Lemma inv_startOrQueue inb tm : tm_inv tm -> tm_inv (startOrQueue inb tm).
Proof.
  intros H. unfold startOrQueue. destruct (active tm) as [h|] eqn:E.
  - apply inv_queue; [done|by rewrite E].
  - destruct (inv_idle tm H E). by apply inv_start.
Qed.

Lemma inv_dispatch msg tm : tm_inv tm -> tm_inv (dispatch DecodeString msg tm).
Proof.
  intros H. unfold dispatch. destruct (String.eqb _ "speech_start"); [by destruct (active tm)|].
  destruct (String.eqb _ "cancel"); [destruct (active tm); [by apply inv_write, inv_cancel|done]|].
  destruct (_ || _); [|done]. destruct (toInbound _ _) as [inb|]; [|done].
  destruct (active tm) as [h|] eqn:E; [exact H|].
  destruct (inv_idle tm H E). by apply inv_start.
Qed.

Lemma inv_interjection h class text i tm :
  tm_inv tm ->
  tm_inv (onInterjection h class text
            (with_channels (turnDone tm) i (running tm) (classifying tm) tm)).
Proof.
  intros H. set (tm' := with_channels _ _ _ _ _). assert (tm_inv tm') as H' by exact H.
  unfold onInterjection. case_bool_decide as Ha; simpl; [|by apply inv_startOrQueue].
  destruct class; [|exact H'|exact H']. apply inv_queue; [by apply inv_write, inv_cancel|].
  cbn [write active]. by rewrite cancelActive_active, Ha.
Qed.

(** The report that arrives is the active turn's. *)
Lemma inv_reported h d tm :
  tm_inv tm -> closed tm = false -> turnDone tm = h :: d ->
  active tm = Some h /\ running tm = [] /\ d = [].
Proof.
  intros ([Hp|[Hc _]] & _) Hcl Hd; [|congruence]. rewrite Hd in Hp.
  destruct (active tm) as [a|]; simpl in Hp.
  - apply Permutation_singleton_r in Hp. destruct (running tm) as [|x [|]]; simplify_eq/=. done.
  - apply Permutation_nil_r in Hp. by destruct (running tm).
Qed.

Lemma onTurnDone_queued h i r c tm p :
  active tm = Some h -> pending tm = Some p ->
  onTurnDone h (with_channels [] i r c tm)
  = startTurn p (set_pending None
      (MkTurnManager None (Some p) [] i r c (cancelled tm) (started tm) (written tm) (closed tm))).
Proof.
  intros Ha Hp. unfold onTurnDone, with_channels. cbn [active pending].
  by rewrite Ha, Hp, bool_decide_eq_true_2.
Qed.

Lemma inv_done h d tm :
  tm_inv tm -> closed tm = false -> turnDone tm = h :: d ->
  tm_inv (onTurnDone h (with_channels d (interject tm) (running tm) (classifying tm) tm)).
Proof.
  intros H Hc Hd. destruct (inv_reported h d tm H Hc Hd) as (Ha & Hr & ->).
  destruct (pending tm) as [p|] eqn:Hp.
  - rewrite (onTurnDone_queued h _ _ _ tm p Ha Hp). apply inv_start; [cbn; by rewrite Hr|done].
  - unfold onTurnDone, with_channels. cbn [active pending]. rewrite Ha, Hp, bool_decide_eq_true_2 by done.
    split_and!; [left; by rewrite Hr|done|done].
Qed.

Lemma inv_step tm tm' : tm_inv tm -> tm_step DecodeString tm tm' -> tm_inv tm'.
Proof.
  intros H Hs. destruct Hs as [msg tm|h d tm Hc Hd|h class text i tm|tm Hc|h data tm|
    h l1 l2 tm Hr|h inb tr text class l1 l2 tm|h inb tr l1 l2 tm|h l1 l2 tm Hr Hc].
  - by apply inv_dispatch.
  - by apply inv_done.
  - by apply inv_interjection.
  - unfold close. assert (tm_inv (cancelActive tm)) as (Hp & Hq & Hst) by by apply inv_cancel.
    split_and!; [|done|done]. destruct Hp as [Hp|[_ Hp]]; [by left|by right].
  - done.
  - destruct H as (Hp & Hq & Hst). split_and!; [|done|done].
    cbn [with_channels running turnDone active closed]. rewrite Hr in Hp.
    destruct Hp as [Hp|[_ Hp]]; [left|by destruct l1]. rewrite <- Hp, <- !app_assoc.
    apply Permutation_app_head. rewrite (Permutation_app_comm (turnDone tm) [h]). simpl.
    by rewrite Permutation_middle.
  - done.
  - done.
  - destruct H as (Hp & Hq & Hst). split_and!; [right; split; [done|]|done|done].
    cbn [with_channels running turnDone]. rewrite Hr in Hp.
    destruct Hp as [Hp|[_ Hp]]; [|by destruct l1].
    apply Permutation_length in Hp. rewrite !length_app in Hp. simpl in Hp.
    destruct l1, l2, (turnDone tm), (active tm); simpl in *; done || lia.
Qed.

Lemma turns_inv tm : rtc (tm_step DecodeString) newTurnManager tm -> tm_inv tm.
Proof.
  intros H. assert (tm_inv newTurnManager) as H0 by (by split_and!; [left|..]).
  induction H as [|x y z Hs _ IH]; [done|]. apply IH. by eapply inv_step.
Qed.

(** C34: However frames, turns and classifications interleave on a connection,
    at most one turn is in flight: a turn starts only after the previous one
    has unwound and reported back, and it is the one the loop would cancel.
    An utterance is queued only behind a turn that is still to report, so it
    cannot be stranded. *)
Theorem one_turn_at_a_time tm :
  rtc (tm_step DecodeString) newTurnManager tm ->
  (length (running tm ++ turnDone tm) <= 1)%nat
  /\ (forall h, h ∈ running tm -> active tm = Some h)
  /\ (closed tm = false -> pending tm <> None ->
      exists h, active tm = Some h /\ running tm ++ turnDone tm = [h]).
Proof.
  intros (Hp & Hq & _)%turns_inv. split_and!.
  - destruct Hp as [Hp|[_ Hp]]; rewrite Hp; [by destruct (active tm); simpl; lia|simpl; lia].
  - intros h Hh. destruct Hp as [Hp|[_ Hp]].
    + assert (h ∈ option_list (active tm)) as Hin.
      { rewrite <- Hp. apply elem_of_app. by left. }
      destruct (active tm); simpl in Hin; [|by apply elem_of_nil in Hin].
      by apply list_elem_of_singleton in Hin as ->.
    + apply app_nil in Hp as [Hp _]. rewrite Hp in Hh. by apply elem_of_nil in Hh.
  - intros Hc Hpend. specialize (Hq Hpend). destruct Hp as [Hp|[? _]]; [|congruence].
    destruct (active tm) as [h|]; [|done]. exists h. split; [done|].
    by apply Permutation_singleton_r.
Qed.

(** An interruption is answered after the interrupted turn, by the words
    that interrupted it: when an interruption verdict for the active turn is
    applied, that turn alone is cancelled, and the next report starts a turn
    with exactly that utterance; a verdict that arrives after its turn ended
    cancels nothing and its utterance is started or queued. *)
Theorem interruption_answered tm h class text :
  rtc (tm_step DecodeString) newTurnManager tm -> closed tm = false ->
  let tm' := onInterjection h class text tm in
  (active tm = Some h -> class = Interrupt ->
     cancelled tm' = {[h]} ∪ cancelled tm /\ active tm' = Some h
     /\ forall d i r c, let after := onTurnDone h (with_channels d i r c tm') in
          started after = started tm ++ [(length (started tm), MkInbound text [])]
          /\ active after = Some (length (started tm)) /\ pending after = None
          /\ length (started tm) ∉ option_list (active tm))
  /\ (active tm <> Some h ->
        cancelled tm' = cancelled tm
        /\ (active tm = None -> started tm' = started tm ++ [(length (started tm), MkInbound text [])])
        /\ (active tm <> None -> pending tm' = Some (MkInbound text []))).
Proof.
  intros Hinv%turns_inv Hc tm'. split.
  - intros Ha ->. unfold tm', onInterjection. rewrite bool_decide_eq_true_2 by done. simpl negb. cbv iota.
    unfold cancelActive. rewrite Ha. split_and!; [done|done|].
    intros d i r c. unfold onTurnDone, with_channels. cbn -[startTurn bool_decide].
    rewrite bool_decide_eq_true_2 by done. cbn. split_and!; [done..|].
    destruct Hinv as (_ & _ & Hs). intros E%list_elem_of_singleton.
    specialize (Hs _ Ha). lia.
  - intros Ha. unfold tm', onInterjection. rewrite bool_decide_eq_false_2 by done. simpl negb. cbv iota.
    unfold startOrQueue. destruct (active tm); split_and!; done.
Qed.
End voice_properties.

(** ** The registry *)

(** A stop reaches only the turn it names: a successful [CancelTurn] with
    a turn id stops the conversation's registered turn and that turn has this
    id; with another id, or none registered, it changes nothing. Releasing a
    turn that a newer one has replaced leaves the newer one registered. *)
Theorem stop_names_its_turn user soul turnID g :
  turnID <> ""%string ->
  (forall g', CancelTurn user soul turnID g = (true, g') ->
     exists h, activeTurns g !! (user, soul) = Some h /\ th_id h = turnID
       /\ stopped g' = {[th_ref h]} ∪ stopped g /\ activeTurns g' = activeTurns g)
  /\ (forall g', CancelTurn user soul turnID g = (false, g') -> g' = g
       /\ (forall h, activeTurns g !! (user, soul) = Some h -> th_id h <> turnID))
  /\ (forall old now id, (th_ref old < begun g)%nat ->
       let r := beginTurn user soul id now g in
       ActiveTurn user soul (release user soul old r.2) = Some (id, now)).
Proof.
  intros Hne. unfold CancelTurn. split_and!.
  - intros g'. destruct (activeTurns g !! (user, soul)) as [h|]; [|done].
    destruct (_ && _) eqn:E; [done|]. intros [= <-]. exists h. split_and!; try done.
    apply andb_false_iff in E as [E|E]; apply negb_false_iff, String.eqb_eq in E; [done|by symmetry].
  - intros g'. destruct (activeTurns g !! (user, soul)) as [h|]; [|by intros [= <-]].
    destruct (_ && _) eqn:E; [|done]. intros [= <-]. split; [done|].
    apply andb_true_iff in E as [_ E]. apply negb_true_iff, String.eqb_neq in E.
    intros h' [= <-]. congruence.
  - intros old now id Hlt. unfold ActiveTurn, release, beginTurn. simpl.
    rewrite lookup_insert_eq. simpl. rewrite (proj2 (Nat.eqb_neq _ _)) by lia.
    by rewrite lookup_insert_eq.
Qed.

(** ** Witnesses *)

Definition no_audio (b : bytes) : option bytes := None.
Definition talking : turnManager :=
  dispatch no_audio (MkInMsg "text" (lit "hi")) newTurnManager.

Lemma talking_reachable : rtc (tm_step no_audio) newTurnManager talking.
Proof. apply rtc_once. by apply step_inbound. Qed.

Lemma one_turn_at_a_time_witness :
  running talking = [0%nat] /\ (length (running talking ++ turnDone talking) <= 1)%nat.
Proof.
  split; [vm_compute; reflexivity|].
  apply (one_turn_at_a_time no_audio talking talking_reachable).
Defined.

Lemma interruption_answered_witness :
  active talking = Some 0%nat
  /\ cancelled (onInterjection 0 Interrupt (lit "wait") talking) = {[0%nat]} ∪ cancelled talking.
Proof.
  assert (active talking = Some 0%nat) as Ha by (vm_compute; reflexivity).
  split; [exact Ha|].
  apply (interruption_answered no_audio talking 0 Interrupt (lit "wait") talking_reachable
           eq_refl); [exact Ha|reflexivity].
Defined.

Lemma stop_names_its_turn_witness :
  let g := (beginTurn 1%N 2%N "t-1" 5%Z (MkGateway ∅ 0 ∅)).2 in
  "t-0"%string <> ""%string
  /\ (forall g', CancelTurn 1%N 2%N "t-0" g = (false, g') -> g' = g
       /\ (forall h, activeTurns g !! (1%N, 2%N) = Some h -> th_id h <> "t-0"%string)).
Proof.
  intros g. split; [done|].
  apply (stop_names_its_turn 1%N 2%N "t-0"%string g). done.
Defined.
