(* ===== verification/Cascade.v ===== *)
(** * Cascade: failover between inference endpoints

    cascade.go, cascade_selection.go and cascade_stream.go at the root of the
    repository.  [complete] tries the routes of a provider in order until one
    answers; an endpoint that failed cools down and is then probed; a stream
    that has reached the caller is never replayed on another route.

    Arguments stand for what is outside: the providers of the routes, and a
    [world] that fixes what one call observes: the clock, the cancellation of
    its context each time it is asked, and what concurrent calls do to the
    shared state between two critical sections. *)

From Stdlib Require Import Ascii String.
From S2P Require Import Prelude GoStrings GoJson Conversation Task.

Local Open Scope Z_scope.

(** What a streaming provider tells its callbacks. *)
Inductive event : Type :=
| EText (v : bytes)
| EThinking (v : bytes)
| EToolUse (id : string) (name input : bytes)
| EToolResult (id : string) (output : bytes) (failed : bool) (ms : Z)
| EUsage (input output : Z).

(** [StreamCallbacks]: which handlers are set. *)
Record StreamCallbacks := MkCallbacks {
  OnText : bool; OnThinking : bool; OnToolUse : bool; OnToolResult : bool; OnUsage : bool;
}.

Definition handled (cb : StreamCallbacks) (ev : event) : bool :=
  match ev with
  | EText _ => OnText cb
  | EThinking _ => OnThinking cb
  | EToolUse _ _ _ => OnToolUse cb
  | EToolResult _ _ _ _ => OnToolResult cb
  | EUsage _ _ => OnUsage cb
  end.

(** The events that set [emitted]. *)
Definition marks (ev : event) : bool :=
  match ev with
  | EText v | EThinking v => negb (Nat.eqb (length v) 0)
  | _ => true
  end.

(** [guardedCallbacks]: the events of a provider that reach the caller, and
    the final value of [emitted]. *)
Definition guardedCallbacks (cb : option StreamCallbacks) (evs : list event)
    : list event * bool :=
  match cb with
  | None => ([], false)
  | Some cb => let out := List.filter (handled cb) evs in (out, existsb marks out)
  end.

Inductive ctx_error : Type := Canceled | DeadlineExceeded.

Section cascade.
(** [payload]: the fields of a request the cascade only carries; [usage]: a
    response's token counts; [perr]: the errors of providers. *)
Context {payload usage perr : Type}.

Record CompletionRequest := MkRequest {
  rq_Model : string;
  rq_Effort : string;
  rq_MaxTokens : Z;
  rq_payload : payload;
}.
Record CompletionResponse := MkResponse {
  rs_Content : list ContentBlock;
  rs_Usage : usage;
}.

(** A provider's answer to its [n]-th call; a streaming one also says which
    events it sends, given the handlers that are set. *)
Record CompletionProvider := MkProvider {
  p_Complete : nat -> CompletionRequest -> res perr (option CompletionResponse);
  p_StreamComplete : option (nat -> CompletionRequest -> option StreamCallbacks ->
                             list event * res perr (option CompletionResponse));
}.

Record CascadeRoute := MkRoute {
  r_Name : string;
  r_Model : string;
  r_Provider : option CompletionProvider;
  r_Timeout : duration;
  r_Cooldown : duration;
  r_Effort : string;
  r_MaxTokens : Z;
}.

Record CascadeRouteStatus := MkStatus {
  st_Name : string;
  st_Model : string;
  Failures : Z;
  RetryAt : time;
  Probing : bool;
}.

Record CascadeProvider := MkCascade {
  routes : list CascadeRoute;
  state : list CascadeRouteStatus;
  lastSuccess : string;
}.

Definition with_state (l : list CascadeRouteStatus) (c : CascadeProvider) : CascadeProvider :=
  MkCascade (routes c) l (lastSuccess c).

(** [NewCascadeProvider]: the index of a bad route as the error. *)
Definition defaulted (r : CascadeRoute) : CascadeRoute :=
  MkRoute (r_Name r) (r_Model r) (r_Provider r)
    (if Z.leb (r_Timeout r) 0 then 120 * Second else r_Timeout r)
    (if Z.leb (r_Cooldown r) 0 then 30 * Second else r_Cooldown r)
    (r_Effort r) (r_MaxTokens r).
Definition fresh_status (r : CascadeRoute) : CascadeRouteStatus :=
  MkStatus (r_Name r) (r_Model r) 0 time_zero false.

Inductive config_error : Type := NoRoutes | BadRoute (i : nat).

Fixpoint check_routes (i : nat) (seen : gset string) (rs : list CascadeRoute)
    : res config_error (list CascadeRoute) :=
  match rs with
  | [] => Ok []
  | r :: rest =>
      if String.eqb (r_Name r) "" || String.eqb (r_Model r) "" || is_none (r_Provider r)
         || bool_decide (r_Name r ∈ seen)
      then Err (BadRoute i)
      else out ← check_routes (S i) ({[r_Name r]} ∪ seen) rest; Ok (defaulted r :: out)
  end.
Definition NewCascadeProvider (rs : list CascadeRoute) : res config_error CascadeProvider :=
  match rs with
  | [] => Err NoRoutes
  | _ => out ← check_routes 0 ∅ rs; Ok (MkCascade out (fresh_status <$> out) "")
  end.

(** ** The health of an endpoint *)

Definition acquire_status (now : time) (s : CascadeRouteStatus)
    : option CascadeRouteStatus :=
  if Z.eqb (Failures s) 0 then Some s
  else if Probing s || Z.ltb now (RetryAt s) then None
  else Some (MkStatus (st_Name s) (st_Model s) (Failures s) (RetryAt s) true).

Definition finish_status (cooldown : duration) (now : time) (failed cancelled : bool)
    (s : CascadeRouteStatus) : CascadeRouteStatus :=
  if cancelled then MkStatus (st_Name s) (st_Model s) (Failures s) (RetryAt s) false
  else if negb failed then MkStatus (st_Name s) (st_Model s) 0 time_zero false
  else MkStatus (st_Name s) (st_Model s) (Failures s + 1) (now + cooldown) false.

(** [None] when the route is not to be tried now. *)
Definition acquire (i : nat) (now : time) (c : CascadeProvider) : option CascadeProvider :=
  s ← state c !! i; s' ← acquire_status now s; Some (with_state (<[i := s']> (state c)) c).

Definition finish (i : nat) (now : time) (failed cancelled : bool) (c : CascadeProvider)
    : CascadeProvider :=
  match state c !! i, routes c !! i with
  | Some s, Some r =>
      MkCascade (routes c)
        (<[i := finish_status (r_Cooldown r) now failed cancelled s]> (state c))
        (if negb cancelled && negb failed then st_Name s else lastSuccess c)
  | _, _ => c
  end.

(** ** One request *)

Record CascadeSelection := MkSelection {
  sel_Route : string;
  sel_Model : string;
  sel_Effort : option string;
  sel_Only : bool;
}.

Inductive failure : Type :=
| ProviderError (e : perr)
| AttemptContext (e : ctx_error)
| NilResponse.

Inductive cascade_error : Type :=
| UnknownRoute (name : string)
| ContextError (e : ctx_error)
| RouteFailed (name : string) (f : failure)
| AllCoolingDown
| Joined (failures : list (string * failure)).

(** What concurrent calls may change: the routes themselves are fixed. *)
Definition shared : Type := list CascadeRouteStatus * string.

(** What one call observes on its [k]-th turn of the loop. *)
Record world := MkWorld {
  w_before : nat -> option ctx_error;      (* ctx.Err() at the loop head *)
  w_acquire_now : nat -> time;
  w_attempt : nat -> option ctx_error;     (* attemptCtx.Err() after the call *)
  w_finish_cancelled : nat -> bool;        (* ctx.Err() for finish *)
  w_finish_now : nat -> time;
  w_phase_cancelled : nat -> bool;         (* ctx.Err() for the phase *)
  w_after : nat -> option ctx_error;       (* ctx.Err() after the attempt *)
  w_others : nat -> shared -> shared;      (* concurrent calls, before acquire *)
  w_others' : nat -> shared -> shared;     (* and before finish *)
}.

Definition interfere (f : shared -> shared) (c : CascadeProvider) : CascadeProvider :=
  let '(l, last) := f (state c, lastSuccess c) in MkCascade (routes c) l last.

(** The index of the first route with a name. *)
Definition find_route (name : string) (rs : list CascadeRoute) : option nat :=
  fst <$> list_find (fun r => r_Name r = name) rs.

Definition preferred_route (sel : option CascadeSelection) (rs : list CascadeRoute)
    : res cascade_error nat :=
  match sel with
  | Some s =>
      if String.eqb (sel_Route s) "" then Ok 0%nat
      else match find_route (sel_Route s) rs with
           | Some i => Ok i
           | None => Err (UnknownRoute (sel_Route s))
           end
  | None => Ok 0%nat
  end.

Definition route_order (sel : option CascadeSelection) (preferred : nat)
    (rs : list CascadeRoute) : list nat :=
  preferred ::
  match sel with
  | Some s => if sel_Only s then []
              else List.filter (fun i => negb (Nat.eqb i preferred)) (seq 0 (length rs))
  | None => List.filter (fun i => negb (Nat.eqb i preferred)) (seq 0 (length rs))
  end.

(** The request a route is sent. *)
Definition attempt_request (sel : option CascadeSelection) (is_preferred : bool)
    (r : CascadeRoute) (req : CompletionRequest) : CompletionRequest :=
  let model := r_Model r in
  let effort := if String.eqb (r_Effort r) "" then rq_Effort req else r_Effort r in
  let '(model, effort) :=
    match sel with
    | None => (model, effort)
    | Some s =>
        if is_preferred then
          (if String.eqb (sel_Model s) "" then model else sel_Model s,
           match sel_Effort s with Some e => e | None => r_Effort r end)
        else (model, r_Effort r)
    end in
  let tokens :=
    if Z.ltb 0 (r_MaxTokens r)
       && (Z.leb (rq_MaxTokens req) 0 || Z.ltb (r_MaxTokens r) (rq_MaxTokens req))
    then r_MaxTokens r else rq_MaxTokens req in
  MkRequest model effort tokens (rq_payload req).

(** The events the cascade makes of a response that was not streamed. *)
Definition replay (resp : CompletionResponse) : list event :=
  rs_Content resp ≫= fun b =>
    if is_type "text" b then [EText (Text b)]
    else if is_type "tool_use" b then [EToolUse (ID_ b) (bName b) (Input b)]
    else [].

(** One call of a route's provider: the events that reach the caller, whether
    one of them counts as emitted, and the answer. *)
Definition call_route (k : nat) (r : CascadeRoute) (req : CompletionRequest)
    (cb : option StreamCallbacks) (stream : bool)
    : list event * bool * res failure (option CompletionResponse) :=
  match r_Provider r with
  | None => ([], false, Ok None)
  | Some p =>
      match p_StreamComplete p, stream with
      | Some f, true =>
          let '(evs, ans) := f k req cb in
          (guardedCallbacks cb evs,
           match ans with Ok v => Ok v | Err e => Err (ProviderError e) end)
      | _, _ =>
          match p_Complete p k req with
          | Err e => ([], false, Err (ProviderError e))
          | Ok None => ([], false, Ok None)
          | Ok (Some resp) =>
              (if stream then guardedCallbacks cb (replay resp) else ([], false),
               Ok (Some resp))
          end
      end
  end.

(** The checks after the call: a lapsed attempt and a nil response fail. *)
Definition settle (lapsed : option ctx_error) (ans : res failure (option CompletionResponse))
    : res failure CompletionResponse :=
  match ans, lapsed with
  | Err e, _ => Err e
  | Ok _, Some e => Err (AttemptContext e)
  | Ok None, None => Err NilResponse
  | Ok (Some resp), None => Ok resp
  end.

Inductive attempt_phase : Type := Succeeded | Failed | Cancelled.

(** What is known of an attempt: its route and request, the events that
    reached the caller, the outcome, and the phase the observer is told after
    [started]. *)
Record attempt := MkAttempt {
  at_Route : nat;
  at_Request : CompletionRequest;
  at_Delivered : list event;
  at_Emitted : bool;
  at_Outcome : res failure CompletionResponse;
  at_Phase : attempt_phase;
  at_Usage : option usage;
}.

Definition outcome : Type :=
  res cascade_error CompletionResponse * CascadeProvider * list attempt.

Definition exhausted (failures : list (string * failure)) : cascade_error :=
  match failures with [] => AllCoolingDown | _ => Joined failures end.

Section request.
Context (w : world) (sel : option CascadeSelection) (req : CompletionRequest).
Context (cb : option StreamCallbacks) (stream : bool) (preferred : nat).

Fixpoint try_routes (k : nat) (order : list nat) (failures : list (string * failure))
    (c : CascadeProvider) : outcome :=
  match order with
  | [] => (Err (exhausted failures), c, [])
  | i :: rest =>
      match routes c !! i, w_before w k with
      | _, Some e => (Err (ContextError e), c, [])
      | None, None => (Err (exhausted failures), c, [])
      | Some r, None =>
          let c := interfere (w_others w k) c in
          match acquire i (w_acquire_now w k) c with
          | None => try_routes (S k) rest failures c
          | Some c =>
              let request := attempt_request sel (Nat.eqb i preferred) r req in
              let '(delivered, emitted, ans) := call_route k r request cb stream in
              let reported := match ans with Ok (Some resp) => Some (rs_Usage resp) | _ => None end in
              let ans := settle (w_attempt w k) ans in
              let c := finish i (w_finish_now w k) (negb (is_ok ans)) (w_finish_cancelled w k)
                         (interfere (w_others' w k) c) in
              let phase := if w_phase_cancelled w k then Cancelled
                           else if is_ok ans then Succeeded else Failed in
              let log := MkAttempt i request delivered emitted ans phase reported in
              match w_after w k, ans with
              | Some e, _ => (Err (ContextError e), c, [log])
              | None, Ok resp => (Ok resp, c, [log])
              | None, Err f =>
                  if (emitted : bool) then (Err (RouteFailed (r_Name r) f), c, [log])
                  else
                    let '(out, c, logs) :=
                      try_routes (S k) rest (failures ++ [(r_Name r, f)]) c in
                    (out, c, log :: logs)
              end
          end
      end
  end.
End request.

Definition complete (w : world) (sel : option CascadeSelection) (req : CompletionRequest)
    (cb : option StreamCallbacks) (stream : bool) (c : CascadeProvider) : outcome :=
  match preferred_route sel (routes c) with
  | Err e => (Err e, c, [])
  | Ok preferred =>
      try_routes w sel req cb stream preferred 0 (route_order sel preferred (routes c)) [] c
  end.

Definition Complete (w : world) (sel : option CascadeSelection) (req : CompletionRequest)
    (c : CascadeProvider) : outcome := complete w sel req None false c.
Definition StreamComplete (w : world) (sel : option CascadeSelection)
    (req : CompletionRequest) (cb : option StreamCallbacks) (c : CascadeProvider) : outcome :=
  complete w sel req cb true c.

(** * Properties *)

Lemma acquire_routes i now c c' : acquire i now c = Some c' -> routes c' = routes c.
Proof.
  unfold acquire. by intros (s & _ & (s' & _ & [= <-])%bind_Some)%bind_Some.
Qed.
Lemma finish_routes i now failed cancelled c :
  routes (finish i now failed cancelled c) = routes c.
Proof. unfold finish. by repeat case_match. Qed.
Lemma interfere_routes f c : routes (interfere f c) = routes c.
Proof. unfold interfere. by case_match. Qed.

Lemma call_route_marks k r req cb stream evs emitted ans :
  call_route k r req cb stream = (evs, emitted, ans) -> emitted = existsb marks evs.
Proof.
  unfold call_route, guardedCallbacks.
  repeat (case_match; simplify_eq/=); intros; simplify_eq/=; done.
Qed.

(** ** What a run of the loop leaves behind *)

Definition failed_attempt (rs : list CascadeRoute) (a : attempt) : option (string * failure) :=
  match rs !! at_Route a, at_Outcome a with
  | Some r, Err f => Some (r_Name r, f)
  | _, _ => None
  end.

(** An attempt that let the next route be tried: it failed and nothing that
    counts had reached the caller. *)
Definition replayable (rs : list CascadeRoute) (a : attempt) : Prop :=
  existsb marks (at_Delivered a) = false /\ is_some (failed_attempt rs a) = true.

Section run.
Context (w : world) (sel : option CascadeSelection) (req : CompletionRequest).
Context (cb : option StreamCallbacks) (stream : bool) (preferred : nat).

(** [k] is the turn of an attempt, when the routes of [order] have the turns
    from [k0] on. *)
Definition turn (k0 : nat) (order : list nat) (a : attempt) (k : nat) : Prop :=
  (k0 <= k)%nat /\ order !! (k - k0)%nat = Some (at_Route a).

(** An attempt is one call of its route on its turn: the request is the
    route's, the events and the answer are what the provider gave, an attempt
    whose own context ended having failed. *)
Definition ran (rs : list CascadeRoute) (k0 : nat) (order : list nat) (a : attempt) : Prop :=
  exists k r emitted ans, turn k0 order a k /\ rs !! at_Route a = Some r
  /\ at_Request a = attempt_request sel (Nat.eqb (at_Route a) preferred) r req
  /\ call_route k r (at_Request a) cb stream = (at_Delivered a, emitted, ans)
  /\ at_Outcome a = settle (w_attempt w k) ans.

(** The caller's context was still good after the attempt. *)
Definition passed (rs : list CascadeRoute) (k0 : nat) (order : list nat) (a : attempt) : Prop :=
  replayable rs a /\ exists k, turn k0 order a k /\ w_after w k = None.

(** The result as a function of the attempts: [explained rs k0 order before
    logs k out] when the loop stopped at turn [k]. *)
Inductive explained (rs : list CascadeRoute) (k0 : nat) (order : list nat)
    (before : list (string * failure))
    : list attempt -> nat -> res cascade_error CompletionResponse -> Prop :=
| ex_answered l a k resp : Forall (passed rs k0 order) l -> turn k0 order a k ->
    w_after w k = None -> at_Outcome a = Ok resp ->
    explained rs k0 order before (l ++ [a]) (S k) (Ok resp)
| ex_cancelled_between l k e : Forall (passed rs k0 order) l ->
    (k0 <= k < k0 + length order)%nat -> w_before w k = Some e ->
    explained rs k0 order before l k (Err (ContextError e))
| ex_cancelled_in l a k e : Forall (passed rs k0 order) l -> turn k0 order a k ->
    w_after w k = Some e ->
    explained rs k0 order before (l ++ [a]) (S k) (Err (ContextError e))
| ex_emitted l a k name f : Forall (passed rs k0 order) l -> turn k0 order a k ->
    w_after w k = None ->
    existsb marks (at_Delivered a) = true -> failed_attempt rs a = Some (name, f) ->
    explained rs k0 order before (l ++ [a]) (S k) (Err (RouteFailed name f))
| ex_exhausted l : Forall (passed rs k0 order) l ->
    explained rs k0 order before l (k0 + length order)%nat
      (Err (exhausted (before ++ omap (failed_attempt rs) l))).

(** Concurrent calls leave the status of a route alone. *)
Definition left_alone (i : nat) : Prop :=
  forall k l, (w_others w k l).1 !! i = l.1 !! i /\ (w_others' w k l).1 !! i = l.1 !! i.

(** What is known of a run that stopped at turn [n]: no context error was
    seen at the head of an earlier turn; the routes called are routes whose
    turn came, in order; each of them was called as it should; a route whose
    status is its own was called on its turn exactly when it was healthy or
    due for a probe. *)
Record account (k0 : nat) (order : list nat) (before : list (string * failure))
    (c : CascadeProvider) (logs : list attempt) (out : res cascade_error CompletionResponse)
    (n : nat) : Prop := {
  acc_before : forall k, (k0 <= k < n)%nat -> w_before w k = None;
  acc_order : at_Route <$> logs `sublist_of` take (n - k0) order;
  acc_ran : Forall (ran (routes c) k0 order) logs;
  acc_out : explained (routes c) k0 order before logs n out;
  acc_called : forall k i s, (k0 <= k < n)%nat -> order !! (k - k0)%nat = Some i ->
    left_alone i -> state c !! i = Some s ->
    (i ∈ at_Route <$> logs <-> is_Some (acquire_status (w_acquire_now w k) s));
}.

(** Turns of the rest of an order are turns of the whole. *)
Lemma turn_S k0 i order a k : turn (S k0) order a k -> turn k0 (i :: order) a k.
Proof.
  intros [Hk H]. split; [lia|]. by replace (k - k0)%nat with (S (k - S k0))%nat by lia.
Qed.
Lemma passed_S rs k0 i order l :
  Forall (passed rs (S k0) order) l -> Forall (passed rs k0 (i :: order)) l.
Proof.
  intros H. eapply Forall_impl; [exact H|]. intros a [Hr (k & Ht & Hw)]. split; [done|]. exists k.
  split; [by apply turn_S|done].
Qed.
Lemma ran_S rs k0 i order l :
  Forall (ran rs (S k0) order) l -> Forall (ran rs k0 (i :: order)) l.
Proof.
  intros H. eapply Forall_impl; [exact H|]. intros a (k & r & em & ans & Ht & Ha). exists k, r, em, ans.
  split; [by apply turn_S|done].
Qed.

Lemma explained_skip rs k0 i order before l n out :
  explained rs (S k0) order before l n out -> explained rs k0 (i :: order) before l n out.
Proof.
  intros [l' b k resp Hl Ht Hw Ho|l' k e Hl Hk Hw|l' b k e Hl Ht Hw|l' b k name g Hl Ht Hw Hm Hg|l' Hl].
  - apply ex_answered; eauto using passed_S, turn_S.
  - apply ex_cancelled_between; eauto using passed_S. simpl. lia.
  - apply ex_cancelled_in; eauto using passed_S, turn_S.
  - apply ex_emitted; eauto using passed_S, turn_S.
  - replace (S k0 + length order)%nat with (k0 + length (i :: order))%nat by (simpl; lia).
    apply ex_exhausted; eauto using passed_S.
Qed.

Lemma explained_cons rs k0 order before a f l n r :
  passed rs k0 order a -> failed_attempt rs a = Some f ->
  explained rs k0 order (before ++ [f]) l n r -> explained rs k0 order before (a :: l) n r.
Proof.
  intros Ha Hf [l' b k resp Hl Ht Hw Ho|l' k e Hl Hk Hw|l' b k e Hl Ht Hw|l' b k name g Hl Ht Hw Hm Hg|l' Hl].
  - apply (ex_answered rs k0 order before (a :: l')); [by constructor|done..].
  - apply ex_cancelled_between; [by constructor|done..].
  - apply (ex_cancelled_in rs k0 order before (a :: l')); [by constructor|done..].
  - apply (ex_emitted rs k0 order before (a :: l')); [by constructor|done..].
  - rewrite <- app_assoc. cbn [app].
    assert (f :: omap (failed_attempt rs) l' = omap (failed_attempt rs) (a :: l')) as ->
      by (cbn [omap list_omap]; by rewrite Hf).
    apply ex_exhausted. by constructor.
Qed.
Lemma explained_end rs k0 order before l n out :
  explained rs k0 order before l n out -> (k0 <= n <= k0 + length order)%nat.
Proof.
  intros [? ? k ? ? [Hk Ht%lookup_lt_Some]|? k ? ? Hk|? ? k ? ? [Hk Ht%lookup_lt_Some]
         |? ? k ? ? ? [Hk Ht%lookup_lt_Some]|]; lia.
Qed.

(** What the critical sections of other routes leave of a status. *)
Lemma acquire_other i j now c c' :
  acquire i now c = Some c' -> i <> j -> state c' !! j = state c !! j.
Proof.
  unfold acquire. intros (s & _ & (s' & _ & [= <-])%bind_Some)%bind_Some Hij. simpl.
  by rewrite list_lookup_insert_ne.
Qed.
Lemma finish_other i j now failed cancelled c :
  i <> j -> state (finish i now failed cancelled c) !! j = state c !! j.
Proof.
  intros Hij. unfold finish. repeat case_match; simpl; try done; by rewrite list_lookup_insert_ne.
Qed.
Lemma interfere_alone i k c :
  left_alone i -> state (interfere (w_others w k) c) !! i = state c !! i
                  /\ state (interfere (w_others' w k) c) !! i = state c !! i.
Proof.
  intros H. destruct (H k (state c, lastSuccess c)) as [H1 H2]. unfold interfere. simpl in *.
  by destruct (w_others w k _), (w_others' w k _).
Qed.
Lemma acquire_called i now c s :
  state c !! i = Some s -> is_Some (acquire i now c) <-> is_Some (acquire_status now s).
Proof.
  intros Hs. unfold acquire. rewrite Hs. simpl. destruct (acquire_status now s); simpl;
    split; intros [? ?]; try done; by eexists.
Qed.

(** The account of a run whose first route was passed over. *)
Lemma account_skip k0 i order before c c' logs out n :
  NoDup (i :: order) -> w_before w k0 = None ->
  routes c' = routes c -> (forall j, left_alone j -> state c' !! j = state c !! j) ->
  acquire i (w_acquire_now w k0) c' = None ->
  account (S k0) order before c' logs out n -> account k0 (i :: order) before c logs out n.
Proof.
  intros [Hni Hnd]%NoDup_cons Hb Hr Hst Ha [A1 A2 A3 A4 A5]. rewrite Hr in *.
  pose proof (explained_end _ _ _ _ _ _ _ A4) as Hn. split.
  - intros k Hk. destruct (decide (k = k0)) as [->|]; [done|]. apply A1. lia.
  - replace (n - k0)%nat with (S (n - S k0)) by lia. by apply sublist_cons.
  - by apply ran_S.
  - by apply explained_skip.
  - intros k j s Hk Hj Hl Hs. destruct (decide (k = k0)) as [->|].
    + rewrite Nat.sub_diag in Hj. injection Hj as <-. split.
      * intros Hin. exfalso. apply Hni. eapply elem_of_sublist in Hin; [|exact A2].
        rewrite <- (take_drop (n - S k0) order). apply elem_of_app. by left.
      * intros H. rewrite <- Hst in Hs by done.
        apply (acquire_called _ _ _ _ Hs) in H as [x Hx]. congruence.
    + replace (k - k0)%nat with (S (k - S k0))%nat in Hj by lia. apply (A5 k j s); [lia|done..|].
      by rewrite Hst.
Qed.
(** The account of a run whose first route was called, and failed before
    anything reached the caller. *)
Lemma account_called k0 i order before f c c' a logs out n s0 :
  NoDup (i :: order) -> w_before w k0 = None -> at_Route a = i ->
  routes c' = routes c ->
  (forall j, j <> i -> left_alone j -> state c' !! j = state c !! j) ->
  (forall s, left_alone i -> state c !! i = Some s -> s = s0) ->
  is_Some (acquire_status (w_acquire_now w k0) s0) ->
  ran (routes c) k0 (i :: order) a -> passed (routes c) k0 (i :: order) a ->
  failed_attempt (routes c) a = Some f ->
  account (S k0) order (before ++ [f]) c' logs out n ->
  account k0 (i :: order) before c (a :: logs) out n.
Proof.
  intros [Hni Hnd]%NoDup_cons Hb Hi Hr Hst Hs0 Hacq Hran Hp Hf [A1 A2 A3 A4 A5]. rewrite Hr in *.
  pose proof (explained_end _ _ _ _ _ _ _ A4) as Hn. split.
  - intros k Hk. destruct (decide (k = k0)) as [->|]; [done|]. apply A1. lia.
  - replace (n - k0)%nat with (S (n - S k0)) by lia. rewrite fmap_cons, Hi. by apply sublist_skip.
  - constructor; [done|]. by apply ran_S.
  - eapply explained_cons; [done|exact Hf|]. by apply explained_skip.
  - intros k j s Hk Hj Hl Hs. rewrite fmap_cons, Hi. destruct (decide (k = k0)) as [->|].
    + rewrite Nat.sub_diag in Hj. injection Hj as <-. apply Hs0 in Hs as ->; [|done].
      split; [done|]. intros _. apply elem_of_cons. by left.
    + replace (k - k0)%nat with (S (k - S k0))%nat in Hj by lia. simpl in Hj.
      assert (Hji : j <> i) by (intros ->; apply Hni; by eapply list_elem_of_lookup_2).
      rewrite elem_of_cons. rewrite <- (A5 k j s); [|lia|done..|by rewrite Hst]. naive_solver.
Qed.

(** The account of a run that stopped at its first call. *)
Lemma account_last k0 i order before c a out s0 :
  w_before w k0 = None -> at_Route a = i ->
  (forall s, left_alone i -> state c !! i = Some s -> s = s0) ->
  is_Some (acquire_status (w_acquire_now w k0) s0) ->
  ran (routes c) k0 (i :: order) a ->
  explained (routes c) k0 (i :: order) before [a] (S k0) out ->
  account k0 (i :: order) before c [a] out (S k0).
Proof.
  intros Hb Hi Hs0 Hacq Hran He. split.
  - intros k Hk. by replace k with k0 by lia.
  - replace (S k0 - k0)%nat with 1%nat by lia. simpl. by rewrite Hi.
  - by constructor.
  - done.
  - intros k j s Hk Hj Hl Hs. replace k with k0 in * by lia. rewrite Nat.sub_diag in Hj.
    injection Hj as <-. apply Hs0 in Hs as ->; [|done]. split; [done|]. intros _. simpl.
    rewrite Hi. by apply list_elem_of_singleton.
Qed.

Lemma try_routes_spec order : forall k0 failures c out c' logs,
  try_routes w sel req cb stream preferred k0 order failures c = (out, c', logs) ->
  NoDup order -> Forall (fun i => is_Some (routes c !! i)) order ->
  exists n, account k0 order failures c logs out n.
Proof.
  induction order as [|i order IH]; intros k0 failures c out c' logs.
  { intros [= <- <- <-] _ _. exists (k0 + 0)%nat. split; [intros; lia|apply sublist_nil_l|constructor| |intros; lia].
    rewrite <- (app_nil_r failures) at 2. apply (ex_exhausted _ k0 [] failures []). constructor. }
  intros H Hnd [[r Hr] Ho]%Forall_cons. cbn [try_routes] in H. rewrite Hr in H.
  pose proof (proj2 (proj1 (NoDup_cons _ _) Hnd)) as Hnd'.
  destruct (w_before w k0) as [e|] eqn:Hb.
  { injection H as <- <- <-. exists k0. split; [intros; lia|apply sublist_nil_l|constructor| |intros; lia].
    apply ex_cancelled_between; [constructor|simpl; lia|done]. }
  set (c1 := interfere (w_others w k0) c) in H.
  assert (routes c1 = routes c) as Hc1 by apply interfere_routes.
  assert (forall j, left_alone j -> state c1 !! j = state c !! j) as Hs1
    by (intros j Hj; by apply interfere_alone). clearbody c1.
  destruct (acquire i (w_acquire_now w k0) c1) as [c2|] eqn:Ha.
  2: { destruct (IH _ _ _ _ _ _ H) as (n & Hn); [done|by rewrite Hc1|].
       exists n. by eapply account_skip. }
  assert (exists s0, state c1 !! i = Some s0 /\ is_Some (acquire_status (w_acquire_now w k0) s0))
    as (s0 & Hs0 & Hq).
  { unfold acquire in Ha. apply bind_Some in Ha as (s0 & Hs0 & (s' & Hs' & _)%bind_Some). eauto. }
  assert (forall s, left_alone i -> state c !! i = Some s -> s = s0) as Hs0'
    by (intros s Hl Hs; rewrite <- Hs1 in Hs by done; congruence).
  destruct (call_route k0 r _ cb stream) as [[evs emitted] ans0] eqn:Hcall.
  pose proof (call_route_marks _ _ _ _ _ _ _ _ Hcall) as Hm.
  set (ans := settle (w_attempt w k0) ans0) in H. set (c3 := finish i _ _ _ _) in H.
  assert (routes c3 = routes c) as Hc3.
  { unfold c3. by rewrite finish_routes, interfere_routes, (acquire_routes _ _ _ _ Ha). }
  assert (forall j, j <> i -> left_alone j -> state c3 !! j = state c !! j) as Hs3.
  { intros j Hj Hl. unfold c3. rewrite finish_other by done.
    rewrite (proj2 (interfere_alone j k0 c2 Hl)), (acquire_other _ _ _ _ _ Ha) by done. auto. }
  clearbody c3. set (log := MkAttempt i _ evs emitted ans _ _) in H.
  assert (turn k0 (i :: order) log k0) as Ht by (split; [done|by rewrite Nat.sub_diag]).
  assert (ran (routes c) k0 (i :: order) log) as Hran by (by exists k0, r, emitted, ans0).
  destruct (w_after w k0) as [e|] eqn:Hw.
  { injection H as <- <- <-. exists (S k0). eapply account_last; try done.
    by apply (ex_cancelled_in _ _ _ _ []); [constructor|..]. }
  destruct ans as [resp|f] eqn:Hans.
  { injection H as <- <- <-. exists (S k0). eapply account_last; try done.
    by apply (ex_answered _ _ _ _ []); [constructor|..]. }
  assert (failed_attempt (routes c) log = Some (r_Name r, f)) as Hf
    by (unfold failed_attempt; simpl; by rewrite Hr).
  destruct emitted.
  { injection H as <- <- <-. exists (S k0). eapply account_last; try done.
    by apply (ex_emitted _ _ _ _ []); [constructor|..]. }
  destruct (try_routes _ _ _ _ _ _ _ order _ c3) as [[out1 c4] logs1] eqn:Hrec.
  injection H as <- <- <-. destruct (IH _ _ _ _ _ _ Hrec) as (n & Hn); [done|by rewrite Hc3|].
  exists n. eapply account_called; try done.
  split; [|by exists k0]. split; [done|by rewrite Hf].
Qed.
End run.

Lemma find_route_lt name (rs : list CascadeRoute) i :
  find_route name rs = Some i -> exists r, rs !! i = Some r /\ r_Name r = name.
Proof.
  unfold find_route. intros ([j r] & (Hj & Hn & _)%list_find_Some & ->)%fmap_Some. simpl in *. eauto.
Qed.

Lemma preferred_lt sel (rs : list CascadeRoute) i :
  rs <> [] -> preferred_route sel rs = Ok i -> is_Some (rs !! i).
Proof.
  intros Hne H. assert (is_Some (rs !! 0%nat)) as H0 by (destruct rs; [done|by eexists]).
  unfold preferred_route in H. repeat case_match; simplify_eq; try done.
  match goal with H : find_route _ _ = Some _ |- _ => apply find_route_lt in H as (r & -> & _) end.
  eauto.
Qed.

Lemma route_order_spec sel p (rs : list CascadeRoute) :
  is_Some (rs !! p) ->
  Forall (fun i => is_Some (rs !! i)) (route_order sel p rs) /\ NoDup (route_order sel p rs).
Proof.
  intros Hp. set (others := List.filter (fun i => negb (Nat.eqb i p)) (seq 0 (length rs))).
  assert (Forall (fun i => is_Some (rs !! i)) (p :: others) /\ NoDup (p :: others)) as [Hf Hn].
  { split; constructor; try done.
    - apply Forall_forall. intros i [Hi _]%list_elem_of_In%filter_In.
      apply lookup_lt_is_Some_2. apply in_seq in Hi. lia.
    - intros [_ H]%list_elem_of_In%filter_In. by rewrite Nat.eqb_refl in H.
    - apply NoDup_ListNoDup, List.NoDup_filter, seq_NoDup. }
  unfold route_order. fold others. destruct sel as [s|]; [|done].
  destruct (sel_Only s); [|done]. split; [constructor; [done|constructor]|].
  constructor; [apply not_elem_of_nil|constructor].
Qed.

(** C26: the error behaviour of a failover, told by the turns of the loop. No
    route is called twice, and they are called in the configured order, the
    preferred one first; a route whose status no concurrent call touches is
    called on its turn exactly when it is healthy or due for a probe. Every
    attempt is its route's own call, with that route's request; every attempt
    but the last failed before anything reached the caller, whose context was
    still good after it. The result is the answer of the last route called; or
    the joined failures of all of them, in order, when the order is exhausted;
    or the failure of a stream that had reached the caller; or the error the
    caller's own context had at the head of the last turn or after its attempt
    (and so never the lapse of an attempt's own timeout). *)
Theorem failover_explained w sel req cb stream c out c' logs
    (Hc : routes c <> []) (H : complete w sel req cb stream c = (out, c', logs)) :
  match preferred_route sel (routes c) with
  | Err e => out = Err e /\ c' = c /\ logs = []
  | Ok p =>
      NoDup (at_Route <$> logs)
      /\ exists n, account w sel req cb stream p 0 (route_order sel p (routes c)) [] c logs out n
  end.
Proof.
  unfold complete in H. destruct (preferred_route sel (routes c)) as [p|e] eqn:Hp.
  2: { by injection H as <- <- <-. }
  destruct (route_order_spec sel p (routes c)) as [Hf Hn]; [by eapply preferred_lt|].
  destruct (try_routes_spec _ _ _ _ _ _ _ _ _ _ _ _ _ H Hn Hf) as (n & Ha). split; [|by exists n].
  eapply sublist_NoDup; [exact Hn|]. etrans; [apply Ha|apply sublist_take].
Qed.

(** ** A valid configuration *)

Definition route_ok (r : CascadeRoute) : Prop :=
  r_Name r <> ""%string /\ r_Model r <> ""%string /\ r_Provider r <> None.

Lemma check_routes_Ok rs : forall i seen out,
  check_routes i seen rs = Ok out <->
  Forall route_ok rs /\ NoDup (r_Name <$> rs)
  /\ (forall r, r ∈ rs -> r_Name r ∉ seen) /\ out = defaulted <$> rs.
Proof.
  induction rs as [|r rs IH]; intros i seen out; cbn [check_routes].
  { split; [intros [= <-]|by intros (_ & _ & _ & ->)].
    split; [constructor|]. split; [constructor|]. split; [set_solver|done]. }
  destruct (String.eqb (r_Name r) "") eqn:E1.
  { apply String.eqb_eq in E1. split; [done|].
    intros ([(Hn & _) _]%Forall_cons & _). by destruct Hn. }
  destruct (String.eqb (r_Model r) "") eqn:E2.
  { apply String.eqb_eq in E2. split; [done|].
    intros ([(_ & Hn & _) _]%Forall_cons & _). by destruct Hn. }
  destruct (r_Provider r) as [p|] eqn:E3;
    [change (is_none (Some p)) with false|change (is_none (@None CompletionProvider)) with true];
    cbn [orb].
  2: { split; [done|]. intros ([(_ & _ & Hn) _]%Forall_cons & _). by destruct Hn. }
  apply String.eqb_neq in E1, E2.
  case_bool_decide as Hs.
  { split; [done|]. intros (_ & _ & Hd & _). destruct (Hd r); [set_solver|done]. }
  rewrite res_bind_Ok. rewrite Forall_cons, fmap_cons, NoDup_cons. split.
  - intros (o & (Hf & Hn & Hd & ->)%IH & [= <-]).
    split; [split; [by unfold route_ok; rewrite E3|done]|]. split; [split; [|done]|].
    + intros (r' & Hr & Hin)%list_elem_of_fmap. apply (Hd r' Hin). rewrite <- Hr. set_solver.
    + split; [|done]. intros r' [->|Hin]%elem_of_cons; [done|]. specialize (Hd r' Hin). set_solver.
  - intros ([_ Hf] & [Hni Hn] & Hd & ->). exists (defaulted <$> rs). split; [|done].
    apply IH. split; [done|]. split; [done|]. split; [|done].
    intros r' Hin. specialize (Hd r' ltac:(by apply elem_of_cons; right)).
    assert (r_Name r' <> r_Name r); [|set_solver].
    intros E. apply Hni. rewrite <- E. by apply list_elem_of_fmap_2.
Qed.

(** A provider is made exactly of routes that have distinct names, a model
    and an endpoint; its routes have positive timeouts and cooldowns and start
    healthy. *)
Theorem NewCascadeProvider_Ok rs c :
  NewCascadeProvider rs = Ok c <->
  rs <> [] /\ Forall route_ok rs /\ NoDup (r_Name <$> rs)
  /\ c = MkCascade (defaulted <$> rs) (fresh_status <$> (defaulted <$> rs)) "".
Proof.
  unfold NewCascadeProvider. destruct rs as [|r rs]; [naive_solver|].
  rewrite res_bind_Ok. split.
  - intros (out & (Hf & Hn & _ & ->)%check_routes_Ok & [= <-]). done.
  - intros (_ & Hf & Hn & ->). eexists. split; [|done]. apply check_routes_Ok.
    split; [done|]. split; [done|]. split; [set_solver|done].
Qed.

Lemma defaulted_positive r : 0 < r_Timeout (defaulted r) /\ 0 < r_Cooldown (defaulted r).
Proof.
  unfold defaulted; simpl. split; (case_match; [done|]); by apply Z.leb_gt.
Qed.
End cascade.

(** ** Concurrent calls on one endpoint

    The calls in flight on a route, each with whether it entered while the
    endpoint was unhealthy, that is, as its probe. *)
Record endpoint := MkEndpoint {
  ep_status : CascadeRouteStatus;
  ep_calls : list (nat * bool);
}.

Inductive endpoint_step (cooldown : duration) (e e' : endpoint) : Prop :=
| ep_enter k now s : acquire_status now (ep_status e) = Some s ->
    e' = MkEndpoint s ((k, negb (Z.eqb (Failures (ep_status e)) 0)) :: ep_calls e) ->
    endpoint_step cooldown e e'
| ep_leave l1 k b l2 now failed cancelled : ep_calls e = l1 ++ (k, b) :: l2 ->
    e' = MkEndpoint (finish_status cooldown now failed cancelled (ep_status e)) (l1 ++ l2) ->
    endpoint_step cooldown e e'.

(** As long as the endpoint stays unhealthy. *)
Definition unhealthy_step (cooldown : duration) (e e' : endpoint) : Prop :=
  endpoint_step cooldown e e' /\ 0 < Failures (ep_status e').

Definition one_probe (e : endpoint) : Prop :=
  0 < Failures (ep_status e)
  /\ (ep_calls e = [] /\ Probing (ep_status e) = false
      \/ exists k, ep_calls e = [(k, true)] /\ Probing (ep_status e) = true).

Lemma one_probe_step cooldown e e' :
  unhealthy_step cooldown e e' -> one_probe e -> one_probe e'.
Proof.
  intros [Hs Hf'] [Hf Hp]. split; [done|].
  destruct Hs as [k now s Ha ->|l1 k b l2 now failed cancelled Hc ->]; simpl in *.
  - unfold acquire_status in Ha. rewrite (proj2 (Z.eqb_neq _ _)) in Ha |- * by lia.
    destruct Hp as [[Hc Hp]|(k' & Hc & Hp)]; rewrite Hp in Ha; simpl in Ha.
    + right. exists k. rewrite Hc. case_match; simplify_eq. done.
    + done.
  - left. destruct Hp as [[Hc' _]|(k' & Hc' & _)]; rewrite Hc' in Hc.
    + by destruct l1.
    + destruct l1 as [|x [|y l1]]; simplify_eq/=. split; [done|].
      unfold finish_status. by repeat case_match.
Qed.

(** While an endpoint without calls in flight stays unhealthy, at most one
    call at a time is on it. *)
Theorem probe_exclusive_while_unhealthy cooldown e e' :
  one_probe e -> rtc (unhealthy_step cooldown) e e' -> (length (ep_calls e') <= 1)%nat.
Proof.
  intros He Hr. assert (one_probe e') as [_ [[-> _]|(k & -> & _)]]; [|simpl; lia..].
  induction Hr; eauto using one_probe_step.
Qed.

(** But a call that entered while the endpoint was healthy clears the mark of
    the probe when it ends: then two probes run at once. *)
Theorem probe_not_exclusive :
  exists e e', rtc (endpoint_step 10) e e'
  /\ e = MkEndpoint (MkStatus "a" "m" 0 time_zero false) []
  /\ Failures (ep_status e') = 2 /\ ep_calls e' = [(4%nat, true); (3%nat, true)].
Proof.
  set (s0 := MkStatus "a" "m" 0 time_zero false).
  exists (MkEndpoint s0 []), (MkEndpoint (MkStatus "a" "m" 2 25 true) [(4%nat, true); (3%nat, true)]).
  split; [|done].
  apply (rtc_l _ _ (MkEndpoint s0 [(1%nat, false)])); [by eapply (ep_enter _ _ _ 1 0)|].
  apply (rtc_l _ _ (MkEndpoint s0 [(2%nat, false); (1%nat, false)])); [by eapply (ep_enter _ _ _ 2 0)|].
  apply (rtc_l _ _ (MkEndpoint (MkStatus "a" "m" 1 15 false) [(1%nat, false)]));
    [by eapply (ep_leave _ _ _ [] 2 _ _ 5 true false)|].
  apply (rtc_l _ _ (MkEndpoint (MkStatus "a" "m" 1 15 true) [(3%nat, true); (1%nat, false)]));
    [by eapply (ep_enter _ _ _ 3 15)|].
  apply (rtc_l _ _ (MkEndpoint (MkStatus "a" "m" 2 25 false) [(3%nat, true)]));
    [by eapply (ep_leave _ _ _ [(3%nat, true)] 1 _ _ 15 true false)|].
  apply rtc_once. by eapply (ep_enter _ _ _ 4 25).
Qed.

(** ** A sample run: a timeout, then a streamed answer *)

Definition quiet_world : world :=
  MkWorld (fun _ => None) (fun k => Z.of_nat k) (fun _ => None) (fun _ => false)
    (fun k => Z.of_nat k) (fun _ => false) (fun _ => None) (fun _ x => x) (fun _ x => x).
Definition broken : @CompletionProvider unit Z string :=
  MkProvider (fun _ _ => Err "timeout"%string) None.
Definition talkative : @CompletionProvider unit Z string :=
  MkProvider (fun _ _ => Ok None)
    (Some (fun _ _ _ => ([EText (lit "hi")],
             Ok (Some (MkResponse [MkBlock "text" (lit "hi") "" [] [] [] "" (RText []) false] 7))))).
Definition sample_cascade : CascadeProvider :=
  let route n p := MkRoute n "m" (Some p) 0 0 "" 100 in
  match NewCascadeProvider [route "a" broken; route "b" talkative]%string with
  | Ok c => c
  | Err _ => MkCascade [] [] ""
  end.
Definition sample_run :=
  complete quiet_world None (MkRequest "" "" 500 tt) (Some (MkCallbacks true true true true true))
    true sample_cascade.

Lemma failover_explained_witness :
  at_Route <$> sample_run.2 = [0%nat; 1%nat]
  /\ NoDup (at_Route <$> sample_run.2)
  /\ exists n, account quiet_world None (MkRequest "" "" 500 tt)
       (Some (MkCallbacks true true true true true)) true 0%nat 0%nat [0%nat; 1%nat] []
       sample_cascade sample_run.2 sample_run.1.1 n.
Proof.
  split; [by vm_compute|].
  exact (failover_explained quiet_world None (MkRequest "" "" 500 tt)
    (Some (MkCallbacks true true true true true)) true sample_cascade sample_run.1.1 sample_run.1.2
    sample_run.2 ltac:(by vm_compute) ltac:(by vm_compute)).
Defined.
