(* ===== verification/PlanParse.v ===== *)
(** * PlanParse: structured goal plans

    runtime/handler/plan_parse.go and the data of plan_executor.go: the steps
    of a plan and their JSON form ([parsePlan]), the precondition of a decide
    step ([evalPrecondition]) and the variables of a tool input
    ([substituteVars]).

    Go ranges over the fields of the last result in an unspecified order: the
    two loops of [substituteVars] take it as an argument.  [IsPrint] is the
    Unicode table of [%q]. *)

From Stdlib Require Import Ascii String.
From S2P Require Import Prelude GoStrings Json GoJson Conversation Projection.

(** ** Steps *)

Record PlanPrecondition := MkPrecondition {
  StatusIn : list string;
  AnyPresent : list string;
}.
Record PlanToolCall := MkToolCall { tc_Tool : string; tc_Input : bytes }.

Record PlanStep := MkPlanStep {
  p_Action : string;
  p_Tool : string;
  p_Input : bytes;
  p_Question : string;
  p_ContextTool : string;
  p_Message : string;
  p_Precondition : option PlanPrecondition;
  p_OnRevise : option PlanToolCall;
}.

(** [json.Unmarshal] of the pieces: a null list or pointer stays nil. *)
Definition as_string_element (j : json) : option string :=
  match j with JStr s => Some s | JNull => Some ""%string | _ => None end.
Definition as_strings (j : json) : option (list string) :=
  match j with JArr l => mapM as_string_element l | _ => None end.
Definition as_precondition (j : json) : option (option PlanPrecondition) :=
  if is_object j then
    s ← decode_field [] as_strings "status_in" j;
    a ← decode_field [] as_strings "any_present" j;
    Some (Some (MkPrecondition s a))
  else None.
Definition as_tool_call (j : json) : option (option PlanToolCall) :=
  if is_object j then
    t ← decode_string "tool" j; Some (Some (MkToolCall t (decode_raw "input" j)))
  else None.
Definition decode_step (j : json) : option PlanStep :=
  if is_object j || is_null j then
    action ← decode_string "action" j; tool ← decode_string "tool" j;
    question ← decode_string "question" j; context ← decode_string "context_tool" j;
    message ← decode_string "message" j;
    pre ← decode_field None as_precondition "precondition" j;
    rev ← decode_field None as_tool_call "on_revise" j;
    Some (MkPlanStep action tool (decode_raw "input" j) question context message pre rev)
  else None.
(** The steps of a text that is a non-empty array of steps. *)
Definition unmarshal_plan (s : bytes) : option (list PlanStep) :=
  j ← Members s;
  match j with
  | JArr ((_ :: _) as items) => mapM decode_step items
  | _ => None
  end.

Definition fence : bytes := lit "```".
Definition strip_fence (reply : bytes) : bytes :=
  if HasPrefix reply fence then
    let lines := split_at (chr 10) reply in
    if Nat.ltb 2 (length lines)
    then Join [chr 10] (take (length lines - 2) (drop 1 lines)) else reply
  else reply.

(** The plan in a model's reply; [None] when there is none. *)
Definition parsePlan (reply : bytes) : option (list PlanStep) :=
  let reply := strip_fence (TrimSpace_b reply) in
  match unmarshal_plan reply with
  | Some steps => Some steps
  | None =>
      start ← Index reply (lit "["); e ← LastIndexByte reply "]"%char;
      if Nat.ltb start e then unmarshal_plan (take (e + 1 - start) (drop start reply)) else None
  end.

(** ** Preconditions *)

Definition stringInSlice (s : string) (xs : list string) : bool :=
  existsb (String.eqb s) xs.

Definition isPresent (v : json) : bool :=
  match v with
  | JNull => false
  | JStr s => negb (String.eqb s "")
  | JBool b => b
  | JNum n => negb (float_is_zero (lit n))
  | JArr l => negb (Nat.eqb (length l) 0)
  | JObj fs => negb (Nat.eqb (length fs) 0)
  end.

(** [%v] of a string slice. *)
Definition show_slice (l : list string) : bytes :=
  lit "[" ++ Join (lit " ") (lit <$> l) ++ lit "]".

(** The text of the failed clause, empty when the step may go on; [ctx] are
    the fields of the context object. *)
Definition evalPrecondition (IsPrint : Z -> bool) (p : option PlanPrecondition)
    (ctx : list (string * json)) : bytes :=
  match p with
  | None => []
  | Some p =>
      let status := match assoc "status"%string ctx with Some (JStr s) => s | _ => ""%string end in
      if Nat.ltb 0 (length (StatusIn p)) && negb (stringInSlice status (StatusIn p))
      then lit "status=" ++ Quote IsPrint status ++ lit " not in " ++ show_slice (StatusIn p)
      else if Nat.ltb 0 (length (AnyPresent p))
              && negb (existsb (fun k => match assoc k ctx with
                                         | Some v => isPresent v
                                         | None => false
                                         end) (AnyPresent p))
      then lit "none of " ++ show_slice (AnyPresent p) ++ lit " present"
      else []
  end.

(** ** Variables *)

(** What follows each underscore of a key: the suffixes tried in turn. *)
Fixpoint suffixes (k : bytes) : list bytes :=
  match k with
  | [] => []
  | c :: rest => if Ascii.eqb c "_"%char then rest :: suffixes rest else suffixes rest
  end.

Definition placeholder (k : bytes) : bytes := lit "$result." ++ k.

Definition substitute_exact (s : bytes) (p : string * json) : bytes :=
  match snd p with
  | JStr v => ReplaceAll s (placeholder (lit (fst p))) (lit v)
  | _ => s
  end.
Definition substitute_suffix (s : bytes) (p : string * json) : bytes :=
  match snd p with
  | JStr v =>
      if String.eqb v "" then s
      else fold_left (fun s suffix => ReplaceAll s (placeholder suffix) (lit v))
             (suffixes (lit (fst p))) s
  | _ => s
  end.

(** [order1] and [order2]: the iteration orders of the two loops. *)
Definition substituteVars (order1 order2 : list (string * json) -> list (string * json))
    (peerTaskID repoPath : string) (lastResult : bytes) (input : bytes) : bytes :=
  match input with
  | [] => []
  | _ =>
      let s := ReplaceAll input (lit "$peer_task_id") (lit peerTaskID) in
      let s := if String.eqb repoPath "" then s
               else ReplaceAll (ReplaceAll s (lit "$result.repo_path") (lit repoPath))
                      (lit "$result.path") (lit repoPath) in
      match UnmarshalAny lastResult with
      | Some (JObj fs) =>
          let s := fold_left substitute_exact (order1 fs) s in
          if Contains s (lit "$result.")
          then fold_left substitute_suffix (order2 fs) s else s
      | _ => s
      end
  end.

(** * Properties *)

(** ** Replacement *)

Lemma replace_from_absent old new s :
  Index s old = None -> replace_from old new 0 s = s.
Proof.
  induction s as [|c s IH]; [done|]. rewrite Index_None. intros H. cbn [replace_from].
  pose proof (H 0) as H0. rewrite drop_0 in H0. rewrite H0, IH; [done|].
  apply Index_None. intros j. apply (H (S j)).
Qed.

(** An input that names no variable is passed on unchanged. *)
Lemma fold_left_fix {A B} (f : A -> B -> A) l a :
  (forall b, b ∈ l -> f a b = a) -> fold_left f l a = a.
Proof.
  induction l as [|b l IH]; intros H; [done|]. simpl. rewrite H by set_solver.
  apply IH. intros c Hc. apply H. set_solver.
Qed.

Lemma Index_None_app s p q : Index s p = None -> Index s (p ++ q) = None.
Proof.
  rewrite !Index_None. intros H j. specialize (H j). apply not_true_iff_false in H.
  apply not_true_iff_false. intros (t & Ht)%HasPrefix_spec. apply H, HasPrefix_spec.
  exists (q ++ t). by rewrite Ht, app_assoc.
Qed.

Theorem substitute_no_variable order1 order2 peer repo last input :
  Index input (lit "$peer_task_id") = None -> Index input (lit "$result.") = None ->
  substituteVars order1 order2 peer repo last input = input.
Proof.
  intros Hp Hr. destruct input as [|c l] eqn:E; [done|]. rewrite <- E in *. unfold substituteVars.
  rewrite E. rewrite <- E. unfold ReplaceAll. rewrite (replace_from_absent _ _ _ Hp).
  assert (forall k new, replace_from (lit "$result." ++ k) new 0 input = input) as Hk.
  { intros k new. apply replace_from_absent. by apply Index_None_app. }
  assert ((if String.eqb repo "" then input
           else replace_from (lit "$result.path") (lit repo) 0
                  (replace_from (lit "$result.repo_path") (lit repo) 0 input)) = input) as ->.
  { destruct (String.eqb repo ""); [done|].
    change (lit "$result.repo_path") with (lit "$result." ++ lit "repo_path").
    change (lit "$result.path") with (lit "$result." ++ lit "path"). by rewrite !Hk. }
  destruct (UnmarshalAny last) as [[]|]; try done.
  rewrite (fold_left_fix substitute_exact).
  { unfold Contains. by rewrite Hr. }
  intros [k v] _. unfold substitute_exact, ReplaceAll, placeholder. simpl fst. simpl snd.
  by destruct v; rewrite ?Hk.
Qed.

(** The order of a map decides what an input becomes: a key that is a prefix
    of another can take its placeholder. *)
Theorem substitution_order_matters :
  exists order1 order2 last input,
    (forall l, order1 l ≡ₚ l) /\ (forall l, order2 l ≡ₚ l)
    /\ substituteVars order1 id "" "" last input <> substituteVars order2 id "" "" last input.
Proof.
  exists id, (@rev _).
  exists (lit "{" ++ [dquote] ++ lit "id" ++ [dquote] ++ lit ":" ++ [dquote] ++ lit "7" ++ [dquote]
          ++ lit "," ++ [dquote] ++ lit "id_full" ++ [dquote] ++ lit ":" ++ [dquote] ++ lit "seven"
          ++ [dquote] ++ lit "}"), (lit "$result.id_full").
  split; [done|]. split; [intros l; symmetry; apply Permutation_rev|]. by vm_compute.
Qed.

(** ** Plans *)

(** A precondition holds exactly when its status clause and its presence
    clause hold. *)
Theorem evalPrecondition_nil IsPrint p ctx :
  evalPrecondition IsPrint (Some p) ctx = []
  <-> (StatusIn p = [] \/ exists s, s ∈ StatusIn p
         /\ s = match assoc "status"%string ctx with Some (JStr s) => s | _ => ""%string end)
      /\ (AnyPresent p = []
          \/ exists k v, k ∈ AnyPresent p /\ assoc k ctx = Some v /\ isPresent v = true).
Proof.
  unfold evalPrecondition. set (status := match assoc _ ctx with Some (JStr s) => s | _ => _ end).
  assert (forall (l : list string), Nat.ltb 0 (length l) = true <-> l <> []) as Hlen
    by (intros [|? ?]; simpl; split; try done).
  assert ((Nat.ltb 0 (length (StatusIn p)) && negb (stringInSlice status (StatusIn p)) = false)
          <-> (StatusIn p = [] \/ exists s, s ∈ StatusIn p /\ s = status)) as Hs.
  { rewrite andb_false_iff, negb_false_iff. unfold stringInSlice. rewrite existsb_Exists, Exists_exists.
    rewrite <- not_true_iff_false, Hlen. setoid_rewrite String.eqb_eq.
    destruct (StatusIn p) as [|x l]; [naive_solver|]. split; intros [H|(s & Hin & <-)]; naive_solver. }
  set (pres := fun k => match assoc k ctx with Some v => isPresent v | None => false end).
  assert ((Nat.ltb 0 (length (AnyPresent p)) && negb (existsb pres (AnyPresent p)) = false)
          <-> (AnyPresent p = [] \/ exists k v, k ∈ AnyPresent p /\ assoc k ctx = Some v
                                                /\ isPresent v = true)) as Ha.
  { rewrite andb_false_iff, negb_false_iff, existsb_Exists, Exists_exists.
    rewrite <- not_true_iff_false, Hlen. unfold pres.
    destruct (AnyPresent p) as [|x l]; [naive_solver|].
    split; [intros [H|(k & Hin & Hk)]; [by destruct H|]|intros [H|(k & v & Hin & Hk & Hv)]; [done|]].
    - right. destruct (assoc k ctx) as [v|] eqn:E; [eauto|done].
    - right. exists k. by rewrite Hk. }
  destruct (Nat.ltb 0 (length (StatusIn p)) && _) eqn:E1.
  { split; [by intros ?|]. intros [H _]. apply Hs in H. congruence. }
  destruct (Nat.ltb 0 (length (AnyPresent p)) && _) eqn:E2.
  { split; [by intros ?|]. intros [_ H]. apply Ha in H. congruence. }
  split; [|done]. intros _. split; [by apply Hs|by apply Ha].
Qed.
