(* ===== verification/PlanExec.v ===== *)
(** * PlanExec: the structured goal executor

    runtime/handler/plan_executor.go and plan_steps.go: [Run] is one iteration
    of a goal whose strategy is structured.  Without a plan it asks the model
    for one ([planPhase]); with one it executes the current step
    ([executeStep]): a tool call, a wait for a peer, a decision of the model,
    a milestone or the end.  A rejected decision rewinds to the last step that
    waited for a peer ([handleRevise]).

    The progress is carried from one iteration to the next as a record; its
    JSON form is the scheduler's.  [run_env] is what one iteration observes:
    the session store, the model's replies, the tools (its k-th call, by name
    and input) and the map orders.  The prompts, which come from the database,
    are part of what the replies depend on. *)

From Stdlib Require Import Ascii String.
From stdpp Require Import pretty.
From S2P Require Import Prelude GoStrings Json GoJson Conversation Projection PlanParse.

Definition maxStepRetries : nat := 3.

Record goalPlanProgress := MkProgress {
  g_SessionID : string;
  PeerTaskID : string;
  RepoPath : string;
  Plan : list PlanStep;
  CurrentStep : nat;
  RetryCount : nat;
  ReviseCount : nat;
  LastAsyncStepIdx : option nat;         (* None for -1 *)
  LastResult : bytes;
  Phase : bytes;
  Summary : bytes;
}.

Definition no_progress : goalPlanProgress := MkProgress "" "" "" [] 0 0 0 None [] [] [].

Record IterationResult := MkIteration {
  Done : bool;
  Pause : bool;
  Progress : option goalPlanProgress;
  Output : bytes;
  Notify : bytes;
}.

(** The task's fields the reports mention. *)
Record goal := MkGoal { t_Title : string; t_Iteration : Z; t_MaxIterations : Z }.

Record run_env := MkRunEnv {
  re_session : option string;              (* CreateSessionWithSource *)
  re_prompt : bool;                        (* goal-plan-system is there *)
  re_plan : option bytes;                  (* the planning reply, None on error *)
  re_decide : option bytes;                (* the decision, None on error *)
  re_tool : nat -> string -> bytes -> bytes * bool;
  re_order1 : list (string * json) -> list (string * json);
  re_order2 : list (string * json) -> list (string * json);
  re_print : Z -> bool;                    (* strconv.IsPrint *)
}.

Inductive run_error : Type := ECreateSession | ELoadPrompt | EPlanningLLM | EDecide.

Definition num (n : nat) : bytes := lit (pretty n).
Definition truncate (s : bytes) (n : nat) : bytes :=
  let rs := rune_list (length s) s in
  if Nat.leb (length rs) n then s else List.concat (take n rs) ++ lit "...".

Definition with_step (cur : nat) (phase summary : bytes) (p : goalPlanProgress) :=
  MkProgress (g_SessionID p) (PeerTaskID p) (RepoPath p) (Plan p) cur (RetryCount p)
    (ReviseCount p) (LastAsyncStepIdx p) (LastResult p) phase summary.
Definition with_counts (retry revise : nat) (p : goalPlanProgress) :=
  MkProgress (g_SessionID p) (PeerTaskID p) (RepoPath p) (Plan p) (CurrentStep p) retry
    revise (LastAsyncStepIdx p) (LastResult p) (Phase p) (Summary p).
Definition with_async (i : nat) (p : goalPlanProgress) :=
  MkProgress (g_SessionID p) (PeerTaskID p) (RepoPath p) (Plan p) (CurrentStep p)
    (RetryCount p) (ReviseCount p) (Some i) (LastResult p) (Phase p) (Summary p).

Definition keep (p : goalPlanProgress) : IterationResult := MkIteration false false (Some p) [] [].
Definition pause (p : goalPlanProgress) : IterationResult := MkIteration false true (Some p) [] [].
Definition finished (text : bytes) : IterationResult := MkIteration true false None text text.

Section run.
Context (e : run_env).

Definition substitute (p : goalPlanProgress) (input : bytes) : bytes :=
  substituteVars (re_order1 e) (re_order2 e) (PeerTaskID p) (RepoPath p) (LastResult p) input.

(** ** A tool step *)

(** The fields a tool result may set. *)
Definition string_field (k : string) (fs : list (string * json)) : string :=
  match assoc k fs with Some (JStr s) => s | _ => "" end.
Definition take_result (result : bytes) (p : goalPlanProgress) : goalPlanProgress :=
  let record fs :=
    let tid := string_field "task_id" fs in
    let repo := string_field "repo_path" fs in
    let path := string_field "path" fs in
    let repoPath := if String.eqb repo "" then RepoPath p else repo in
    let repoPath := if negb (String.eqb path "") && String.eqb repoPath "" then path else repoPath in
    MkProgress (g_SessionID p) (if String.eqb tid "" then PeerTaskID p else tid) repoPath
      (Plan p) (CurrentStep p) (RetryCount p) (ReviseCount p) (LastAsyncStepIdx p) result
      (Phase p) (Summary p) in
  match UnmarshalAny result with
  | Some (JObj fs) => record fs
  | Some JNull => record []
  | _ => p
  end.

Definition is_wait (p : goalPlanProgress) : bool :=
  match Plan p !! CurrentStep p with
  | Some s => String.eqb (p_Action s) "wait"
  | None => false
  end.

Definition execToolStep (p : goalPlanProgress) (step : PlanStep) : IterationResult :=
  let '(result, isError) := re_tool e 0 (p_Tool step) (substitute p (p_Input step)) in
  if (isError : bool) && negb (Contains result (lit "already exists")) then
    let p := with_counts (S (RetryCount p)) (ReviseCount p) p in
    if Nat.leb maxStepRetries (RetryCount p) then
      finished (lit "Goal failed: tool " ++ lit (p_Tool step) ++ lit " errored "
                ++ num (RetryCount p) ++ lit " times. Last error: " ++ truncate result 300)
    else keep (with_step (CurrentStep p) (lit "tool_error")
                 (lit "Tool " ++ lit (p_Tool step) ++ lit " failed (attempt " ++ num (RetryCount p)
                  ++ lit "): " ++ truncate result 200) p)
  else
    let p := take_result result (with_counts 0 (ReviseCount p) p) in
    let cur := S (CurrentStep p) in
    let p := with_step cur (lit "step_" ++ num cur)
      (lit "Completed: " ++ lit (p_Tool step) ++ lit " (step " ++ num cur ++ lit "/"
       ++ num (length (Plan p)) ++ lit ")") p in
    if is_wait p then
      if negb (String.eqb (PeerTaskID p) "")
      then pause (with_step (S cur) (lit "waiting") (Summary p) (with_async (cur - 1) p))
      else keep (with_step (S cur) (Phase p) (Summary p) p)
    else keep p.

(** ** A decision *)

Definition feedback_of (reply : bytes) : bytes :=
  match Index reply (lit ":") with
  | Some i => TrimSpace_b (drop (i + 1) reply)
  | None => reply
  end.
(** [strings.ReplaceAll] of a double quote by its escape. *)
Definition escape_quotes (s : bytes) : bytes := ReplaceAll s [dquote] ["\"%char; dquote].
Definition quoted_member (k : string) (v : bytes) : bytes :=
  [dquote] ++ lit k ++ [dquote; ":"%char; dquote] ++ v ++ [dquote].

(** [calls]: the tool calls of this iteration so far. *)
Definition revise_call (p : goalPlanProgress) (step : PlanStep) (feedback : bytes)
    : option (string * bytes) :=
  match p_OnRevise step with
  | Some c =>
      if String.eqb (tc_Tool c) "" then None
      else Some (tc_Tool c,
        substitute p (match tc_Input c with
                      | [] => lit "{" ++ quoted_member "task_id" (lit (PeerTaskID p)) ++ lit ","
                              ++ quoted_member "feedback" (escape_quotes feedback) ++ lit "}"
                      | raw => ReplaceAll raw (lit "{feedback}") (escape_quotes feedback)
                      end))
  | None => None
  end.

(** The step a rejection goes back to. *)
Definition rewind (p : goalPlanProgress) : nat :=
  match LastAsyncStepIdx p with
  | Some i => if Nat.ltb i (CurrentStep p) then i else CurrentStep p
  | None => CurrentStep p
  end.

(** The result and the tool call it makes. *)
Definition handleRevise (p : goalPlanProgress) (step : PlanStep) (reply : bytes)
    : IterationResult * option (string * bytes) :=
  let p := with_counts (RetryCount p) (S (ReviseCount p)) p in
  let feedback := feedback_of reply in
  if Nat.leb maxStepRetries (ReviseCount p) then
    (finished (lit "Goal failed: " ++ num (ReviseCount p)
               ++ lit " revise attempts exhausted. Last feedback: " ++ truncate feedback 300), None)
  else
    (pause (with_step (rewind p) (lit "waiting_for_revise")
       (lit "Revised (attempt " ++ num (ReviseCount p) ++ lit "): " ++ truncate feedback 200) p),
     revise_call p step feedback).

(** The ASCII letters of [strings.ToUpper]: no other code point becomes one of
    the letters of APPROVE. *)
Definition to_upper (c : ascii) : ascii :=
  if in_range 97 122 c then byte_of (code c - 32) else c.
Definition approved (reply : bytes) : bool :=
  HasPrefix (to_upper <$> TrimSpace_b reply) (lit "APPROVE").

(** What the context tool of a step shows: the fields of its JSON object. *)
Definition decide_context (p : goalPlanProgress) (step : PlanStep)
    : option (list (string * json)) :=
  if String.eqb (p_ContextTool step) "" then None
  else
    let input := lit "{" ++ quoted_member "task_id" (lit (PeerTaskID p)) ++ lit "}" in
    let '(result, isError) := re_tool e 0 (p_ContextTool step) (substitute p input) in
    if (isError : bool) then None
    else match result, UnmarshalAny result with
         | [], _ => None
         | _, Some (JObj fs) => Some fs
         | _, Some JNull => Some []
         | _, _ => None
         end.

(** The failed precondition that revises without asking the model. *)
Definition auto_revise (p : goalPlanProgress) (step : PlanStep) : option bytes :=
  ctx ← decide_context p step;
  match evalPrecondition (re_print e) (p_Precondition step) ctx with
  | [] => None
  | msg => Some (lit "REVISE: " ++ msg)
  end.

Definition execDecideStep (p : goalPlanProgress) (step : PlanStep)
    : res run_error (IterationResult * option (string * bytes)) :=
  match auto_revise p step with
  | Some auto => Ok (handleRevise p step auto)
  | None =>
      match re_decide e with
      | None => Err EDecide
      | Some reply =>
          if approved reply then
            let cur := S (CurrentStep p) in
            Ok (keep (with_step cur (lit "step_" ++ num cur)
                        (lit "Approved step " ++ num cur ++ lit ", continuing")
                        (with_counts 0 0 p)), None)
          else Ok (handleRevise p step (TrimSpace_b reply))
      end
  end.

(** ** The step machine *)

Definition done_report (t : goal) (p : goalPlanProgress) : bytes :=
  lit "[DONE] " ++ lit (t_Title t) ++ [chr 10; chr 10]
  ++ lit "Steps completed: " ++ num (CurrentStep p) ++ lit "/" ++ num (length (Plan p)) ++ [chr 10]
  ++ lit "Iterations used: " ++ lit (pretty (t_Iteration t + 1)%Z) ++ lit "/"
  ++ lit (pretty (t_MaxIterations t)) ++ [chr 10]
  ++ (if String.eqb (RepoPath p) "" then []
      else lit "Repository: " ++ lit (RepoPath p) ++ [chr 10])
  ++ (if String.eqb (PeerTaskID p) "" then []
      else lit "Task ID: " ++ lit (PeerTaskID p) ++ [chr 10])
  ++ [chr 10] ++ lit "Last step: " ++ Summary p.

Definition executeStep (t : goal) (p : goalPlanProgress) : res run_error IterationResult :=
  match Plan p !! CurrentStep p with
  | None => Ok (finished (Summary p))
  | Some step =>
      let cur := CurrentStep p in
      let total := num (length (Plan p)) in
      if String.eqb (p_Action step) "tool" then Ok (execToolStep p step)
      else if String.eqb (p_Action step) "wait" then
        if String.eqb (PeerTaskID p) ""
        then Ok (keep (with_step (S cur) (Phase p) (Summary p) p))
        else Ok (pause (with_step (S cur) (lit "waiting")
               (lit "Waiting for callback (step " ++ num (S cur) ++ lit "/" ++ total ++ lit ")") p))
      else if String.eqb (p_Action step) "decide" then
        r ← execDecideStep p step; Ok r.1
      else if String.eqb (p_Action step) "milestone" then
        let msg := if String.eqb (p_Message step) ""
          then lit (t_Title t) ++ lit " " ++ encode_rune 8212 ++ lit " milestone reached (step "
               ++ num (S cur) ++ lit "/" ++ total ++ lit ")"
          else lit (p_Message step) in
        Ok (MkIteration false true (Some (with_step (S cur) (lit "milestone") msg p)) [] msg)
      else if String.eqb (p_Action step) "done" then Ok (finished (done_report t p))
      else Ok (keep (with_step (S cur) (Phase p) (Summary p) p))
  end.

(** ** Planning *)

Definition planPhase (p : goalPlanProgress) : res run_error IterationResult :=
  if negb (re_prompt e) then Err ELoadPrompt
  else match re_plan e with
  | None => Err EPlanningLLM
  | Some reply =>
      let plan := match parsePlan reply with Some l => l | None => [] end in
      if Nat.ltb (length plan) 4 then
        let p := with_counts (S (RetryCount p)) (ReviseCount p) p in
        if Nat.leb maxStepRetries (RetryCount p) then
          Ok (finished (lit "Goal failed: could not generate a valid plan in "
                ++ num (RetryCount p) ++ lit " attempts. Last reply head: " ++ truncate reply 300))
        else
          Ok (keep (with_step (CurrentStep p) (lit "plan_invalid")
                (lit "Plan invalid (attempt " ++ num (RetryCount p) ++ lit "/" ++ num maxStepRetries
                 ++ lit ", " ++ num (length plan) ++ lit " steps): " ++ truncate reply 200) p))
      else
        let p := with_counts 0 (ReviseCount p) p in
        if negb (existsb (fun s => String.eqb (p_Action s) "tool") plan) then
          Ok (keep (with_step (CurrentStep p) (lit "plan_invalid")
                (lit "Plan must include at least one tool step") p))
        else
          Ok (keep (MkProgress (g_SessionID p) (PeerTaskID p) (RepoPath p) plan 0 (RetryCount p)
                (ReviseCount p) (LastAsyncStepIdx p) (LastResult p) (lit "executing")
                (lit "Plan created with " ++ num (length plan) ++ lit " steps")))
  end.

Definition Run (t : goal) (p : goalPlanProgress) : res run_error IterationResult :=
  match (if String.eqb (g_SessionID p) "" then re_session e else Some (g_SessionID p)) with
  | None => Err ECreateSession
  | Some sessID =>
      let p := MkProgress sessID (PeerTaskID p) (RepoPath p) (Plan p) (CurrentStep p)
        (RetryCount p) (ReviseCount p) (LastAsyncStepIdx p) (LastResult p) (Phase p) (Summary p) in
      match Plan p with
      | [] => planPhase p
      | _ => executeStep t p
      end
  end.
End run.

(** * Properties *)

(** ** The progress an iteration leaves *)

Definition action_at (plan : list PlanStep) (i : nat) : option string := p_Action <$> plan !! i.

Record progress_ok (p : goalPlanProgress) : Prop := {
  pg_retry : RetryCount p < maxStepRetries;
  pg_revise : ReviseCount p < maxStepRetries;
  pg_step : CurrentStep p <= length (Plan p);
  pg_async : forall i, LastAsyncStepIdx p = Some i ->
    action_at (Plan p) i = Some "tool"%string /\ action_at (Plan p) (S i) = Some "wait"%string;
}.

Lemma take_result_fields result p :
  Plan (take_result result p) = Plan p /\ CurrentStep (take_result result p) = CurrentStep p
  /\ RetryCount (take_result result p) = RetryCount p
  /\ ReviseCount (take_result result p) = ReviseCount p
  /\ LastAsyncStepIdx (take_result result p) = LastAsyncStepIdx p
  /\ g_SessionID (take_result result p) = g_SessionID p.
Proof. unfold take_result. by repeat case_match. Qed.

Lemma step_lt p step : Plan p !! CurrentStep p = Some step -> S (CurrentStep p) <= length (Plan p).
Proof. intros H%lookup_lt_Some. lia. Qed.

(** What one iteration with a plan does to the progress: it fails or finishes,
    or moves one of four ways. *)
Inductive moves (p p' : goalPlanProgress) : Prop :=
| mv_retry : RetryCount p' = S (RetryCount p) -> RetryCount p' < maxStepRetries ->
    ReviseCount p' = ReviseCount p -> CurrentStep p' = CurrentStep p ->
    LastAsyncStepIdx p' = LastAsyncStepIdx p -> moves p p'
| mv_advance step : Plan p !! CurrentStep p = Some step -> p_Action step <> "decide"%string ->
    RetryCount p' <= RetryCount p -> ReviseCount p' = ReviseCount p ->
    CurrentStep p < CurrentStep p' <= length (Plan p) ->
    (LastAsyncStepIdx p' = LastAsyncStepIdx p
     \/ LastAsyncStepIdx p' = Some (CurrentStep p)
        /\ action_at (Plan p) (CurrentStep p) = Some "tool"%string
        /\ action_at (Plan p) (S (CurrentStep p)) = Some "wait"%string) ->
    (forall i, CurrentStep p <= i < CurrentStep p' -> action_at (Plan p) i <> Some "decide"%string) ->
    moves p p'
| mv_approve : action_at (Plan p) (CurrentStep p) = Some "decide"%string ->
    RetryCount p' = 0 -> ReviseCount p' = 0 -> CurrentStep p' = S (CurrentStep p) ->
    LastAsyncStepIdx p' = LastAsyncStepIdx p -> moves p p'
| mv_revise : action_at (Plan p) (CurrentStep p) = Some "decide"%string ->
    RetryCount p' = RetryCount p -> ReviseCount p' = S (ReviseCount p) ->
    ReviseCount p' < maxStepRetries -> CurrentStep p' <= CurrentStep p ->
    (CurrentStep p' = CurrentStep p \/ LastAsyncStepIdx p = Some (CurrentStep p')) ->
    LastAsyncStepIdx p' = LastAsyncStepIdx p -> moves p p'.

Definition moved (p : goalPlanProgress) (r : IterationResult) : Prop :=
  (Done r = true /\ Progress r = None)
  \/ Done r = false /\ exists p', Progress r = Some p' /\ Plan p' = Plan p
     /\ g_SessionID p' = g_SessionID p /\ moves p p'.

Lemma execToolStep_moved e p step :
  Plan p !! CurrentStep p = Some step -> p_Action step = "tool"%string ->
  moved p (execToolStep e p step).
Proof.
  intros Hs Ht. unfold execToolStep. destruct (re_tool e 0 _ _) as [result isError].
  assert (action_at (Plan p) (CurrentStep p) = Some "tool"%string) as Hat
    by (unfold action_at; rewrite Hs; simpl; by rewrite Ht).
  destruct (isError && negb (Contains result (lit "already exists"))).
  - cbn [with_counts RetryCount]. destruct (Nat.leb maxStepRetries (S (RetryCount p))) eqn:El.
    { by left. }
    right. split; [done|]. eexists. split; [done|]. split; [done|]. split; [done|].
    apply Nat.leb_gt in El. by apply mv_retry.
  - set (q := take_result result (with_counts 0 (ReviseCount p) p)).
    destruct (take_result_fields result (with_counts 0 (ReviseCount p) p))
      as (Hp & Hc & Hr & Hv & Ha & Hid). fold q in Hp, Hc, Hr, Hv, Ha, Hid.
    cbn [with_counts Plan CurrentStep RetryCount ReviseCount LastAsyncStepIdx g_SessionID] in *.
    clearbody q. right. unfold is_wait. cbn [with_step Plan CurrentStep PeerTaskID]. rewrite Hc.
    destruct (Plan q !! S (CurrentStep p)) as [next|] eqn:Hn.
    2: { split; [done|]. eexists. split; [done|]. split; [done|]. split; [done|].
         pose proof (step_lt _ _ Hs). eapply mv_advance; [exact Hs|by rewrite Ht|..];
           cbn [with_step Plan CurrentStep RetryCount ReviseCount LastAsyncStepIdx];
           [lia|done|lia|by left|].
         intros i Hi. replace i with (CurrentStep p) by lia. by rewrite Hat. }
    rewrite Hp in Hn. pose proof (lookup_lt_Some _ _ _ Hn).
    destruct (String.eqb (p_Action next) "wait") eqn:Ew.
    + apply String.eqb_eq in Ew.
      assert (action_at (Plan p) (S (CurrentStep p)) = Some "wait"%string) as Hw
        by (unfold action_at; rewrite Hn; simpl; by rewrite Ew).
      assert (forall i, CurrentStep p <= i < S (S (CurrentStep p)) ->
                action_at (Plan p) i <> Some "decide"%string) as Hnd.
      { intros i Hi. assert (i = CurrentStep p \/ i = S (CurrentStep p)) as [->| ->] by lia;
          congruence. }
      destruct (negb (String.eqb (PeerTaskID q) ""));
        (split; [done|]); eexists; (split; [done|]); (split; [done|]); (split; [done|]);
        (eapply mv_advance; [exact Hs|by rewrite Ht|..]);
        cbn [with_step with_async Plan CurrentStep RetryCount ReviseCount LastAsyncStepIdx];
        try lia; try done.
      * right. split; [f_equal; lia|done].
      * by left.
    + split; [done|]. eexists. split; [done|]. split; [done|]. split; [done|].
      eapply mv_advance; [exact Hs|by rewrite Ht|..];
        cbn [with_step Plan CurrentStep RetryCount ReviseCount LastAsyncStepIdx];
        [lia|done|lia|by left|].
      intros i Hi. replace i with (CurrentStep p) by lia. by rewrite Hat.
Qed.

Lemma handleRevise_moved e p step reply :
  action_at (Plan p) (CurrentStep p) = Some "decide"%string ->
  moved p (handleRevise e p step reply).1.
Proof.
  intros Hd. unfold handleRevise. cbn [with_counts ReviseCount].
  destruct (Nat.leb maxStepRetries (S (ReviseCount p))) eqn:El; [by left|].
  apply Nat.leb_gt in El. right. split; [done|]. eexists. split; [done|]. split; [done|].
  split; [done|]. unfold rewind. cbn [with_counts LastAsyncStepIdx CurrentStep].
  apply mv_revise; try done; cbn [with_step CurrentStep LastAsyncStepIdx];
    (destruct (LastAsyncStepIdx p) as [i|]; [|by (lia || left)]);
    (destruct (Nat.ltb i (CurrentStep p)) eqn:Ei; [apply Nat.ltb_lt in Ei|]);
    (lia || by right || by left).
Qed.

Lemma advance_moved p step phase summary :
  Plan p !! CurrentStep p = Some step -> p_Action step <> "decide"%string ->
  moves p (with_step (S (CurrentStep p)) phase summary p).
Proof.
  intros Hs Hd. pose proof (step_lt _ _ Hs).
  eapply mv_advance; [exact Hs|done|..];
    cbn [with_step CurrentStep RetryCount ReviseCount LastAsyncStepIdx]; [lia|done|lia|by left|].
  intros i Hi. replace i with (CurrentStep p) by lia. unfold action_at. rewrite Hs. simpl. congruence.
Qed.

Lemma executeStep_moved e t p r :
  executeStep e t p = Ok r -> moved p r.
Proof.
  unfold executeStep. destruct (Plan p !! CurrentStep p) as [step|] eqn:Hs;
    [|intros [= <-]; by left].
  assert (forall b q, Plan q = Plan p -> g_SessionID q = g_SessionID p -> moves p q ->
            forall o n, moved p (MkIteration false b (Some q) o n)) as Hk.
  { intros b q Hq Hi Hm o n. right. split; [done|]. by exists q. }
  destruct (String.eqb (p_Action step) "tool") eqn:E1.
  { apply String.eqb_eq in E1. intros [= <-]. by apply execToolStep_moved. }
  destruct (String.eqb (p_Action step) "wait") eqn:E2.
  { apply String.eqb_eq in E2.
    destruct (String.eqb (PeerTaskID p) ""); intros [= <-];
      (apply Hk; [done|done|]); (apply (advance_moved p step); [done|by rewrite E2]). }
  destruct (String.eqb (p_Action step) "decide") eqn:E3.
  { apply String.eqb_eq in E3.
    assert (action_at (Plan p) (CurrentStep p) = Some "decide"%string) as Hd
      by (unfold action_at; rewrite Hs; simpl; by rewrite E3).
    intros (x & Hx & [= <-])%res_bind_Ok. unfold execDecideStep in Hx.
    destruct (auto_revise e p step) as [auto|].
    { apply Ok_inj' in Hx as <-. by apply handleRevise_moved. }
    destruct (re_decide e) as [reply|]; [|done].
    destruct (approved reply); apply Ok_inj' in Hx as <-; [|by apply handleRevise_moved].
    apply Hk; [done|done|]. by apply mv_approve. }
  assert (p_Action step <> "decide"%string) as Hd by by apply String.eqb_neq.
  destruct (String.eqb (p_Action step) "milestone").
  { intros H%Ok_inj'. subst r. apply Hk; [done|done|]. by eapply advance_moved. }
  destruct (String.eqb (p_Action step) "done"); intros H%Ok_inj'; subst r; [by left|].
  apply Hk; [done|done|]. by eapply advance_moved.
Qed.

Lemma moves_ok p p' : progress_ok p -> Plan p' = Plan p -> moves p p' -> progress_ok p'.
Proof.
  intros [Hr Hv Hs Ha] Hp [Hr1 Hr2 Hv1 Hc Hl|step Hst _ Hr1 Hv1 Hc Hl _|Hd Hr1 Hv1 Hc Hl|
    Hd Hr1 Hv1 Hv2 Hc _ Hl]; (split; [lia|lia|..]); rewrite Hp; try lia.
  - rewrite Hl. exact Ha.
  - destruct Hl as [->|(-> & ? & ?)]; [exact Ha|]. by intros i [= <-].
  - unfold action_at in Hd. destruct (Plan p !! CurrentStep p) eqn:E; [|done].
    apply step_lt in E. lia.
  - rewrite Hl. exact Ha.
  - rewrite Hl. exact Ha.
Qed.

(** The state of a goal stays well formed: fewer than three tool errors and
    rejections, the current step within the plan, the rewind target a tool
    step followed by a wait; and an accepted plan is never replaced. *)
Theorem Run_keeps_progress e t p r p' :
  progress_ok p -> Run e t p = Ok r -> Progress r = Some p' ->
  progress_ok p' /\ (Plan p <> [] -> Plan p' = Plan p).
Proof.
  intros Hp. unfold Run.
  destruct (if String.eqb (g_SessionID p) "" then re_session e else Some (g_SessionID p))
    as [sid|]; [|done].
  set (q := MkProgress sid _ _ _ _ _ _ _ _ _ _).
  assert (progress_ok q) as Hq by (by destruct Hp).
  assert (Plan q = Plan p) as Hpq by done. rewrite <- Hpq. clearbody q. clear p Hp Hpq.
  destruct (Plan q) as [|s l] eqn:Epl.
  - unfold planPhase. destruct (re_prompt e); [|done]. destruct (re_plan e) as [reply|]; [|done].
    cbn [negb]. destruct Hq as [Hr Hv Hs Ha]. rewrite Epl in *. simpl in Hs.
    assert (forall i, LastAsyncStepIdx q = Some i -> False) as Hna.
    { intros i Hi. by destruct (Ha i Hi). }
    set (plan := match parsePlan reply with Some l => l | None => [] end).
    destruct (Nat.ltb (length plan) 4).
    + cbn [with_counts RetryCount]. destruct (Nat.leb _ (S (RetryCount q))) eqn:El;
        intros <-%Ok_inj'; [done|]. intros [= <-]. apply Nat.leb_gt in El.
      split; [|done]. split; simpl; try lia; rewrite ?Epl; simpl; try lia.
      intros i Hi. by destruct (Hna i Hi).
    + destruct (negb _); intros <-%Ok_inj'; intros [= <-]; (split; [|done]); split; simpl;
        rewrite ?Epl; simpl; unfold maxStepRetries in *; try lia;
        intros i Hi; by destruct (Hna i Hi).
  - rewrite <- Epl. intros H Hr. apply executeStep_moved in H as [[_ Hn]|(_ & p1 & Hp1 & Hpl & _ & Hm)];
      [congruence|].
    rewrite Hp1 in Hr. injection Hr as <-. split; [by eapply moves_ok|done].
Qed.

(** ** Iterations *)

(** The scheduler runs the goal until it is done: at most [n] iterations; an
    iteration that fails leaves the progress as it was. *)
Fixpoint iterate (envs : nat -> run_env) (t : goal) (n : nat) (p : goalPlanProgress)
    : option IterationResult :=
  match n with
  | 0 => None
  | S n =>
      match Run (envs 0) t p with
      | Ok r => if Done r then Some r
                else iterate (fun k => envs (S k)) t n (default p (Progress r))
      | Err _ => iterate (fun k => envs (S k)) t n p
      end
  end.

(** At most one step of the plan asks the model for a decision. *)
Definition single_decide (plan : list PlanStep) : Prop :=
  forall i j, action_at plan i = Some "decide"%string ->
    action_at plan j = Some "decide"%string -> i = j.

Definition decides_ahead (p : goalPlanProgress) : bool :=
  existsb (fun s => String.eqb (p_Action s) "decide") (drop (CurrentStep p) (Plan p)).

Lemma decides_ahead_spec p :
  decides_ahead p = true <->
  exists i, CurrentStep p <= i /\ action_at (Plan p) i = Some "decide"%string.
Proof.
  unfold decides_ahead, action_at. rewrite existsb_Exists, Exists_exists. split.
  - intros (s & Hin & Hs). apply list_elem_of_lookup in Hin as [i Hi].
    rewrite lookup_drop in Hi. exists (CurrentStep p + i). split; [lia|].
    rewrite Hi. simpl. apply String.eqb_eq in Hs. by rewrite Hs.
  - intros (i & Hle & Hi). destruct (Plan p !! i) as [s|] eqn:E; [|done].
    exists s. split; [|simpl in Hi; apply String.eqb_eq; congruence].
    apply list_elem_of_lookup. exists (i - CurrentStep p). rewrite lookup_drop.
    by replace (CurrentStep p + (i - CurrentStep p)) with i by lia.
Qed.

(** How many more iterations a goal with a plan can take: rejections left,
    steps left, tool errors left. *)
Definition rejections_left (p : goalPlanProgress) : nat :=
  if decides_ahead p then maxStepRetries - ReviseCount p else 0.
Definition rank (p : goalPlanProgress) : nat :=
  rejections_left p * (4 * S (length (Plan p)))
  + 4 * (length (Plan p) - CurrentStep p) + (maxStepRetries - RetryCount p).

Lemma rejections_left_mono p p' :
  Plan p' = Plan p -> ReviseCount p' = ReviseCount p -> CurrentStep p <= CurrentStep p' ->
  rejections_left p' <= rejections_left p.
Proof.
  intros Hp Hv Hc. unfold rejections_left. rewrite Hv.
  destruct (decides_ahead p') eqn:E'; [|lia].
  assert (decides_ahead p = true) as ->; [|done].
  apply decides_ahead_spec in E' as (i & Hi & Hd). apply decides_ahead_spec.
  exists i. rewrite Hp in Hd. split; [lia|done].
Qed.

Lemma moves_rank p p' :
  single_decide (Plan p) -> progress_ok p -> Plan p' = Plan p -> moves p p' -> rank p' < rank p.
Proof.
  intros Hsd [Hr Hv Hs _] Hp Hm. unfold rank. rewrite Hp. set (len := length (Plan p)) in *.
  unfold maxStepRetries in *.
  destruct Hm as [Hr1 Hr2 Hv1 Hc _|step Hst _ Hr1 Hv1 Hc _ _|Hd Hr1 Hv1 Hc _|Hd Hr1 Hv1 Hv2 Hc _ _].
  - pose proof (rejections_left_mono p p' Hp Hv1 ltac:(lia)). nia.
  - pose proof (rejections_left_mono p p' Hp Hv1 ltac:(lia)). nia.
  - assert (decides_ahead p = true) as Ha by (apply decides_ahead_spec; eauto).
    assert (decides_ahead p' = false) as Ha'.
    { apply not_true_iff_false. intros (i & Hi & Hdi)%decides_ahead_spec. rewrite Hp in Hdi.
      specialize (Hsd _ _ Hd Hdi). lia. }
    unfold rejections_left. rewrite Ha, Ha'. unfold maxStepRetries. nia.
  - assert (decides_ahead p = true) as Ha by (apply decides_ahead_spec; eauto).
    assert (rejections_left p' <= 3 - S (ReviseCount p)).
    { unfold rejections_left. rewrite Hv1. destruct (decides_ahead p'); unfold maxStepRetries; lia. }
    assert (rejections_left p = 3 - ReviseCount p) as -> by (unfold rejections_left; by rewrite Ha).
    nia.
Qed.

(** An environment in which the model always answers a decision. *)
Definition answers (envs : nat -> run_env) : Prop := forall k, re_decide (envs k) <> None.

Lemma executeStep_Ok e t p :
  re_decide e <> None -> exists r, executeStep e t p = Ok r.
Proof.
  intros Hd. unfold executeStep, execDecideStep.
  repeat (case_match; simplify_eq/=; eauto).
Qed.

Lemma Run_moved e t p :
  re_decide e <> None -> Plan p <> [] -> g_SessionID p <> ""%string ->
  exists r, Run e t p = Ok r /\ moved p r.
Proof.
  intros Hd Hp Hs. unfold Run. rewrite (proj2 (String.eqb_neq _ _) Hs).
  destruct p as [sid ? ? plan ? ? ? ? ? ? ?]; simpl in *. destruct plan as [|s l]; [done|].
  set (q := MkProgress _ _ _ _ _ _ _ _ _ _ _).
  destruct (executeStep_Ok e t q Hd) as [r Hr]. exists r. split; [done|].
  by eapply executeStep_moved.
Qed.

(** C37: liveness: a goal with a plan in which at most one step asks for a
    decision ends, whatever its tools answer and however the model decides, as
    long as the model answers at all: after at most [rank p] + 1 iterations, a
    bound quadratic in the length of the plan, an iteration reports it done. *)
Theorem single_decide_plan_finishes envs t p
    (Ha : answers envs) (Hp : Plan p <> []) (Hs : g_SessionID p <> ""%string)
    (Hok : progress_ok p) (Hd : single_decide (Plan p)) :
  exists r, iterate envs t (S (rank p)) p = Some r /\ Done r = true.
Proof.
  remember (rank p) as n eqn:Hn. assert (rank p <= n) as Hle by lia. clear Hn.
  revert envs p Ha Hp Hs Hok Hd Hle.
  induction n as [n IH] using lt_wf_ind. intros envs p Ha Hp Hs Hok Hd Hle. cbn [iterate].
  destruct (Run_moved (envs 0) t p (Ha 0) Hp Hs) as (r & -> & [[Hdone _]|(Hnd & p' & Hp' & Hpl & Hid & Hm)]).
  { rewrite Hdone. eauto. }
  rewrite Hnd, Hp'. cbn [default]. pose proof (moves_rank _ _ Hd Hok Hpl Hm) as Hlt.
  destruct n as [|n]; [lia|].
  assert (rank p' <= n) as Hn by lia.
  refine (IH n (Nat.lt_succ_diag_r n) (fun k => envs (S k)) p' _ _ _ _ _ Hn);
    [intros k; apply Ha|by rewrite Hpl|by rewrite Hid|by eapply moves_ok|by rewrite Hpl].
Qed.

(** ** The cap on rejections can be bypassed

    Two decisions after one wait: approving the first resets the count of
    rejections of the second, which rewinds behind the first. *)

Definition plain_step (action tool : string) : PlanStep :=
  MkPlanStep action tool [] "" "" "" None None.
Definition two_gates : list PlanStep :=
  [plain_step "tool" "peer_start"; plain_step "wait" ""; plain_step "decide" "";
   plain_step "decide" ""; plain_step "done" ""].
Definition peer_env (decision : bytes) : run_env :=
  MkRunEnv (Some "s"%string) true (Some []) (Some decision)
    (fun _ _ _ => (lit "{" ++ quoted_member "task_id" (lit "7") ++ lit "}", false)) id id (fun _ => true).
(** The first gate is approved, the second rejected, the tool run again. *)
Definition gate_envs (k : nat) : run_env :=
  peer_env (if Nat.eqb (k mod 3) 1 then lit "REVISE: no" else lit "APPROVE").
Definition at_first_gate : goalPlanProgress :=
  MkProgress "s" "7" "" two_gates 2 0 1 (Some 0)
    (lit "{" ++ quoted_member "task_id" (lit "7") ++ lit "}") (lit "waiting")
    (lit "Completed: peer_start (step 1/5)").

Lemma gate_cycle t n envs :
  (forall k, envs k = gate_envs k) ->
  iterate envs t (3 + n) at_first_gate = iterate (fun k => envs (3 + k)) t n at_first_gate.
Proof.
  intros He. cbn [Nat.add iterate]. rewrite (He 0), (He 1), (He 2). reflexivity.
Qed.

(** A plan with two decisions can run forever although the model answers and
    no tool fails: the goal is never done. *)
Theorem revise_cap_bypassed t n :
  progress_ok at_first_gate /\ iterate gate_envs t n at_first_gate = None.
Proof.
  split.
  { split; simpl; unfold maxStepRetries; try lia. by intros i [= <-]. }
  assert (forall envs, (forall k, envs k = gate_envs k) -> iterate envs t n at_first_gate = None) as H;
    [|by apply H].
  induction n as [n IH] using lt_wf_ind. intros envs He.
  destruct (decide (3 <= n)) as [Hn|Hn].
  - replace n with (3 + (n - 3)) by lia. rewrite gate_cycle by done.
    apply IH; [lia|]. intros k. rewrite He. unfold gate_envs.
    assert ((3 + k) mod 3 = k mod 3) as ->; [|done].
    replace (3 + k) with (k + 1 * 3) by lia. apply Nat.Div0.mod_add.
  - destruct n as [|[|[|n]]]; [done| | |lia]; cbn [iterate]; rewrite ?(He 0), ?(He 1); reflexivity.
Qed.

(** A plan without a tool step does not count as an attempt. *)
Theorem toolless_plan_uncounted e p reply plan :
  re_prompt e = true -> re_plan e = Some reply -> parsePlan reply = Some plan ->
  4 <= length plan -> existsb (fun s => String.eqb (p_Action s) "tool") plan = false ->
  exists p', planPhase e p = Ok (keep p') /\ RetryCount p' = 0 /\ Plan p' = Plan p.
Proof.
  intros Hpr Hpl Hparse Hlen Hno. unfold planPhase. rewrite Hpr, Hpl, Hparse.
  rewrite (proj2 (Nat.ltb_ge _ _) Hlen), Hno. simpl. eauto.
Qed.

(** ** A sample goal *)

Definition one_gate : list PlanStep :=
  [plain_step "tool" "peer_start"; plain_step "wait" ""; plain_step "decide" "";
   plain_step "done" ""].
Definition sample_goal_progress : goalPlanProgress :=
  MkProgress "s" "" "" one_gate 0 0 0 None [] [] [].
Definition rejecting (_ : nat) : run_env := peer_env (lit "REVISE: again").

Lemma single_decide_plan_finishes_witness :
  rank sample_goal_progress = 79
  /\ exists r, iterate rejecting (MkGoal "g" 0 20) 80 sample_goal_progress = Some r
     /\ Done r = true.
Proof.
  split; [by vm_compute|].
  apply (single_decide_plan_finishes rejecting (MkGoal "g" 0 20) sample_goal_progress).
  - done.
  - done.
  - done.
  - split; simpl; unfold maxStepRetries; [lia|lia|lia|done].
  - intros i j. destruct i as [|[|[|[|i]]]], j as [|[|[|[|j]]]]; by vm_compute.
Defined.
