(* ===== verification/AgentText.v ===== *)
(** * AgentText: the texts an agent turn is made of

    runtime/agent/accumulate.go ([appendTurnText]), tool_result_compact.go (what
    the prompt keeps of a long tool result) and the text half of loop.go: the
    merge of a continued answer and the division of the prompt between the
    dialogue and the turn's context.

    A text's length is its number of runes, [rune_list] of Conversation; token
    estimates are those of Conversation. *)

From Stdlib Require Import Ascii String.
From stdpp Require Import pretty.
From S2P Require Import Prelude GoStrings Json GoJson JsonText Conversation.

Local Open Scope Z_scope.

Definition rune_count (s : bytes) : Z := Z.of_nat (length (rune_list (length s) s)).
Definition runes_of (s : bytes) : list bytes := rune_list (length s) s.

(** ** The running reply *)

Definition appendTurnText (acc turnText : bytes) : bytes :=
  let trimmed := TrimSpace_b turnText in
  match trimmed with
  | [] => acc
  | _ => if Contains acc trimmed then acc
         else match acc with [] => turnText | _ => acc ++ [chr 10; chr 10] ++ turnText end
  end.

Definition blank_char (c : ascii) : bool :=
  existsb (Ascii.eqb c) [chr 32; chr 9; chr 13; chr 10].
Fixpoint trim_left_blank (s : bytes) : bytes :=
  match s with
  | c :: r => if blank_char c then trim_left_blank r else s
  | [] => []
  end.
Definition trim_right_blank (s : bytes) : bytes := reverse (trim_left_blank (reverse s)).

Definition HasSuffix_b (s p : bytes) : bool := HasPrefix (reverse s) (reverse p).

Definition maxTokenOverlapRunes : nat := 800.
(** The longest repeat of at least 20 runes, [n] at most. *)
Fixpoint overlap (prefix : bytes) (runes : list bytes) (n : nat) : nat :=
  match n with
  | O => O
  | S m => if Nat.ltb n 20 then O
           else if HasSuffix_b prefix (List.concat (take n runes)) then n
           else overlap prefix runes m
  end.
Definition mergeContinuationText (prefix continuation : bytes) : bytes :=
  let prefix := trim_right_blank prefix in
  let continuation := trim_left_blank continuation in
  match prefix, continuation with
  | [], _ => continuation
  | _, [] => prefix
  | _, _ =>
      let runes := runes_of continuation in
      let most := Nat.min (Nat.min (length (runes_of prefix)) (length runes)) maxTokenOverlapRunes in
      let n := overlap prefix runes most in
      let continuation := match n with O => continuation | _ => List.concat (drop n runes) end in
      match TrimSpace_b continuation with
      | [] => prefix
      | _ => prefix ++ [chr 10; chr 10] ++ trim_left_blank continuation
      end
  end.

(** ** Cutting a text *)

Definition truncation_marker : bytes :=
  [chr 10; chr 10] ++ lit "[...truncated for prompt...]" ++ [chr 10; chr 10].
Definition truncateMiddle (s : bytes) (maxChars : Z) : bytes :=
  if Z.leb maxChars 0 then []
  else
    let runes := runes_of s in
    if Z.leb (Z.of_nat (length runes)) maxChars then s
    else
      let markerLen := rune_count truncation_marker in
      if Z.leb maxChars markerLen then List.concat (take (Z.to_nat maxChars) runes)
      else
        let keep := maxChars - markerLen in
        let head := keep * 3 / 4 in
        let tail := keep - head in
        List.concat (take (Z.to_nat head) runes) ++ truncation_marker
        ++ List.concat (drop (length runes - Z.to_nat tail) runes).

(** ** JSON texts

    [json.Compact] with HTML escaping, as [json.Marshal] writes a
    [RawMessage]. *)

Fixpoint compact_from (in_string escaped : bool) (skip : nat) (s : bytes) : bytes :=
  match s with
  | [] => []
  | c :: r =>
      match skip with
      | S k => compact_from in_string escaped k r
      | O =>
          if negb in_string && is_space c then compact_from in_string false 0 r
          else if existsb (Ascii.eqb c) ["<"; ">"; "&"]%char
          then lit "\u00" ++ hex2 (nat_of_ascii c) ++ compact_from in_string false 0 r
          else match r with
               | b1 :: b2 :: _ =>
                   if Nat.eqb (nat_of_ascii c) 226 && Nat.eqb (nat_of_ascii b1) 128
                      && (Nat.eqb (nat_of_ascii b2) 168 || Nat.eqb (nat_of_ascii b2) 169)
                   then lit "\u202" ++ [hex_digit (nat_of_ascii b2 mod 16)]
                        ++ compact_from in_string false 2 r
                   else c :: compact_from (if Ascii.eqb c dquote && negb escaped
                                           then negb in_string else in_string)
                               (in_string && negb escaped && Ascii.eqb c "\"%char) 0 r
               | _ => c :: compact_from (if Ascii.eqb c dquote && negb escaped
                                         then negb in_string else in_string)
                             (in_string && negb escaped && Ascii.eqb c "\"%char) 0 r
               end
      end
  end.
(** What [json.Marshal] writes for a raw value, [None] when it refuses it; a nil
    one is null. *)
Definition marshal_raw (raw : bytes) : option bytes :=
  match raw with
  | [] => Some (lit "null")
  | _ => if Valid raw then Some (compact_from false false 0 raw) else None
  end.

(** The pieces of a text between the separators outside strings and brackets. *)
Fixpoint split_top (sep : ascii) (depth : nat) (in_string escaped : bool) (cur s : bytes)
    : list bytes :=
  match s with
  | [] => [reverse cur]
  | c :: r =>
      if in_string then
        split_top sep depth (escaped || negb (Ascii.eqb c dquote))
          (negb escaped && Ascii.eqb c "\"%char) (c :: cur) r
      else if Ascii.eqb c dquote then split_top sep depth true false (c :: cur) r
      else if Ascii.eqb c "{"%char || Ascii.eqb c "["%char
      then split_top sep (S depth) false false (c :: cur) r
      else if Ascii.eqb c "}"%char || Ascii.eqb c "]"%char
      then split_top sep (depth - 1) false false (c :: cur) r
      else if Ascii.eqb c sep && Nat.eqb depth 0
      then reverse cur :: split_top sep depth false false [] r
      else split_top sep depth false false (c :: cur) r
  end.
Fixpoint drop_json_spaces (s : bytes) : bytes :=
  match s with
  | c :: r => if is_space c then drop_json_spaces r else s
  | [] => []
  end.
Definition trim_json (s : bytes) : bytes := reverse (drop_json_spaces (reverse (drop_json_spaces s))).
Definition inner (s : bytes) : bytes := removelast (drop 1 (trim_json s)).
Definition raw_member_of (piece : bytes) : list (string * bytes) :=
  match split_top ":"%char 0 false false [] piece with
  | k :: v :: _ => [(unquote (inner k), trim_json v)]
  | _ => []
  end.
(** [json.Unmarshal] into a map of raw values. *)
Definition raw_members (s : bytes) : option (list (string * bytes)) :=
  j ← Members s;
  match j with
  | JNull => Some []
  | JObj _ => Some (fold_left (fun acc p => set_key p.1 p.2 acc)
                      (split_top ","%char 0 false false [] (inner s) ≫= raw_member_of) [])
  | _ => None
  end.

Definition marshal_members (fs : list (string * bytes)) : bytes :=
  lit "{" ++ join (lit ",")
    (List.map (fun p => marshal_string (fst p) ++ lit ":" ++ snd p) (sort_keys fs)) ++ lit "}".

(** ** What the prompt keeps of a tool result *)

Definition maxPromptToolResultChars : Z := 40000.
Definition maxPromptBrowserFetchTextChars : Z := 3000.
Definition maxPromptErroredToolResultChars : Z := 4000.
Definition longFieldThreshold : Z := 200.

Definition clipped_suffix : bytes :=
  lit " [" ++ List.concat (encode_rune <$> [1086; 1073; 1088; 1077; 1079; 1072; 1085; 1086]) ++ lit "]".
Definition omitted_text (n : Z) : bytes :=
  [dquote] ++ lit "["
  ++ List.concat (encode_rune <$> [1086; 1087; 1091; 1097; 1077; 1085; 1086]) ++ lit ", "
  ++ lit (pretty n) ++ lit " " ++ List.concat (encode_rune <$> [1089; 1080; 1084; 1074])
  ++ lit ".]" ++ [dquote].

Definition is_long (p : string * bytes) : bool := Z.ltb longFieldThreshold (rune_count p.2).
Definition field_cost (p : string * bytes) : Z :=
  Z.of_nat (String.length p.1) + rune_count p.2 + 4.
Definition clip_field (share : Z) (p : string * bytes) : string * bytes :=
  (p.1, if negb (is_long p) then p.2
        else if Z.leb share 0 then omitted_text (rune_count p.2)
        else marshal_string (str (truncateMiddle p.2 share ++ clipped_suffix))).

Definition compactJSONObjectForPrompt (s : bytes) (maxChars : Z) : option bytes :=
  fs ← raw_members s;
  match fs with
  | [] => None
  | _ =>
      let fs := sort_keys fs in
      let used := fold_left (fun n p => if is_long p then n else n + field_cost p) fs 0 in
      if Z.leb maxChars used then None
      else
        let long := Z.of_nat (length (List.filter is_long fs)) in
        let share := if Z.ltb 0 long then (maxChars - used) / long else maxChars - used in
        let kept := clip_field share <$> fs in
        raws ← mapM (fun p => v ← marshal_raw p.2; Some (p.1, v)) kept;
        let out := marshal_members raws in
        if Z.ltb (maxChars * 2) (rune_count out) then None else Some out
  end.

Definition truncateForPrompt (s : bytes) (maxChars : Z) : bytes :=
  if Z.leb maxChars 0 || Z.leb (rune_count s) maxChars then s
  else match compactJSONObjectForPrompt s maxChars with
       | Some compacted => compacted
       | None => truncateMiddle s maxChars
       end.

(** [None]: the result is not the fetched page it should be. *)
Definition compactBrowserFetchForPrompt (raw : bytes) : option bytes :=
  j ← Members raw;
  if is_object j || is_null j then
    requested ← decode_string "requested_url" j; url ← decode_string "url" j;
    title ← decode_string "title" j; txt ← decode_string "text" j;
    partial ← decode_string "partial_error" j; pages ← decode_int "page_count" j;
    kind ← decode_string "source_kind" j;
    let original := rune_count (lit txt) in
    if Z.leb original maxPromptBrowserFetchTextChars then Some raw
    else Some (Marshal (JObj
      [("requested_url", JStr requested); ("url", JStr url); ("title", JStr title);
       ("text", JStr (str (truncateMiddle (lit txt) maxPromptBrowserFetchTextChars)));
       ("partial_error", JStr partial); ("page_count", JNum (pretty pages));
       ("source_kind", JStr kind); ("truncated", JBool true);
       ("original_text_chars", JNum (pretty original))]%string))
  else None.

Definition compactToolResultForPrompt (toolName : bytes) (raw : bytes) (isError : bool) : bytes :=
  if isError then truncateForPrompt raw maxPromptErroredToolResultChars
  else match (if bool_decide (toolName = lit "browser_fetch")
              then compactBrowserFetchForPrompt raw else None) with
       | Some compacted => compacted
       | None => truncateForPrompt raw maxPromptToolResultChars
       end.

Definition set_content (c : ResultContent) (b : ContentBlock) : ContentBlock :=
  MkBlock (Type_ b) (Text b) (ID_ b) (bName b) (Input b) (ThoughtSignature b) (ToolUseID b) c
    (IsError b).
Definition compactToolResultBlockForPrompt (b : ContentBlock) : ContentBlock :=
  if negb (is_type "tool_result" b) then b
  else set_content (RText (compactToolResultForPrompt (bName b)
                             (match Content b with RText s => s | ROther s => s end) (IsError b))) b.

(** ** The prompt budget

    What the dialogue may use of the prompt, in estimated tokens. *)

Definition SummaryHeader : bytes :=
  [chr 10; chr 10] ++ lit "## Summary of the earlier conversation" ++ [chr 10].

Definition effectiveSystemPrompt (systemPrompt compactSummary : bytes) : bytes :=
  match compactSummary with [] => systemPrompt | s => systemPrompt ++ SummaryHeader ++ s end.

Definition turnContextEnvelope (turnContext : bytes) : bytes :=
  lit "## Turn context" ++ [chr 10] ++ lit "[turn_context]" ++ [chr 10] ++ turnContext
  ++ [chr 10] ++ lit "[/turn_context]".

Inductive dialogBudgetMode : Type := TotalPrompt | DialogFallback | Unbounded | Lane.
Record dialogBudgetDecision := MkDecision_ {
  DialogBudget : Z;
  PromptOverhead : Z;
  Mode_ : dialogBudgetMode;
  PromptOverheadExceedsBudget : bool;
  ContextTrimmedTokens : Z;
}.

Definition contextTrimMarker : bytes :=
  [chr 10] ++ lit "[context_trimmed: lower-ranked context dropped to protect the dialogue window]".

Definition blank_b (s : bytes) : bool := match TrimSpace_b s with [] => true | _ => false end.
Definition context_tokens (turnContext : bytes) : Z :=
  if blank_b turnContext then 0 else EstimateTextTokens (turnContextEnvelope turnContext).

(** The leading lines that fit, the marker included. *)
Fixpoint keep_lines (allowance : Z) (kept lines : list bytes) : list bytes :=
  match lines with
  | [] => kept
  | line :: lines =>
      if Z.ltb allowance (EstimateTextTokens (turnContextEnvelope
           (Join [chr 10] (kept ++ [line]) ++ contextTrimMarker)))
      then kept else keep_lines allowance (kept ++ [line]) lines
  end.
Definition trimContextToBudget (turnContext : bytes) (allowance : Z) : bytes :=
  if Z.leb allowance 0 then []
  else
    let lines := split_at (chr 10) turnContext in
    match keep_lines allowance [] lines with
    | [] => []
    | kept => if Nat.eqb (length kept) (length lines) then turnContext
              else Join [chr 10] kept ++ contextTrimMarker
    end.

(** [fixed]: the tokens of the system prompt and the tool schemas. *)
Definition effectiveDialogBudgetDecision (total fixed : Z) (turnContext : bytes)
    : dialogBudgetDecision :=
  if Z.leb total 0 then MkDecision_ total 0 Unbounded false 0
  else
    let overhead := fixed + context_tokens turnContext in
    if Z.leb total overhead then MkDecision_ total overhead DialogFallback true 0
    else MkDecision_ (Z.max 1 (total - overhead)) overhead TotalPrompt false 0.

Definition effectiveDialogBudgetDecisionLane (total lane fixed : Z) (turnContext : bytes)
    : dialogBudgetDecision * bytes :=
  if Z.leb lane 0 || Z.leb total 0 then (effectiveDialogBudgetDecision total fixed turnContext, turnContext)
  else
    let laneEff := if Z.ltb total (fixed + lane) then total - fixed else lane in
    if Z.ltb laneEff 1 then (MkDecision_ total fixed DialogFallback true 0, turnContext)
    else
      let allowance := total - fixed - laneEff in
      let before := context_tokens turnContext in
      let turnContext' := if Z.ltb allowance before then trimContextToBudget turnContext allowance
                          else turnContext in
      (MkDecision_ laneEff (fixed + context_tokens turnContext') Lane false
         (if Z.ltb allowance before then before - context_tokens turnContext' else 0), turnContext').

(** * Properties *)

(** ** The running reply *)

Lemma Contains_middle a sub b : Contains (a ++ sub ++ b) sub = true.
Proof.
  unfold Contains. destruct (Index (a ++ sub ++ b) sub) eqn:E; [done|].
  exfalso. revert E. induction a as [|c a IH]; intros E.
  - apply Index_HasPrefix in E. simpl in E.
    assert (HasPrefix (sub ++ b) sub = true) as Hp by (apply HasPrefix_spec; by exists b). congruence.
  - cbn [app Index] in E. destruct (HasPrefix (c :: a ++ sub ++ b) sub); [done|].
    destruct (Index (a ++ sub ++ b) sub); [done|]. by apply IH.
Qed.

Lemma TrimSpace_b_middle s : exists a b, s = a ++ TrimSpace_b s ++ b.
Proof.
  unfold TrimSpace_b, TrimLeftSpace.
  destruct (trim_with_suffix (length s) wide_spaces s) as [a Ha].
  set (l := trim_with _ _ s) in *. unfold TrimRightSpace.
  match goal with |- context [reverse (trim_with ?f ?t (reverse l))] =>
    destruct (trim_with_suffix f t (reverse l)) as [b Hb] end.
  exists a, (reverse b). rewrite Ha at 1. f_equal.
  rewrite <- (reverse_involutive l) at 1. rewrite Hb at 1. by rewrite reverse_app.
Qed.

(** A turn that restates what was said adds nothing. *)
Lemma appendTurnText_idem acc t : appendTurnText (appendTurnText acc t) t = appendTurnText acc t.
Proof.
  unfold appendTurnText at 1. destruct (TrimSpace_b t) as [|c l] eqn:E.
  - unfold appendTurnText. by rewrite E.
  - replace (Contains (appendTurnText acc t) (c :: l)) with true; [done|]. symmetry.
    destruct (TrimSpace_b_middle t) as (a & b & Ht). rewrite E in Ht.
    unfold appendTurnText. rewrite E. destruct (Contains acc (c :: l)) eqn:Hc; [done|].
    destruct acc as [|d acc]; rewrite Ht.
    + apply Contains_middle.
    + replace ((d :: acc) ++ [chr 10; chr 10] ++ a ++ (c :: l) ++ b)
        with (((d :: acc) ++ [chr 10; chr 10] ++ a) ++ (c :: l) ++ b)
        by (rewrite <- !app_assoc; reflexivity).
      apply Contains_middle.
Qed.

(** Nothing already said is withdrawn. *)
Lemma appendTurnText_extends acc t : exists more, appendTurnText acc t = acc ++ more.
Proof.
  unfold appendTurnText. destruct (TrimSpace_b t); [by exists []; rewrite app_nil_r|].
  destruct (Contains acc _); [by exists []; rewrite app_nil_r|].
  destruct acc; [by exists t|]. by eexists.
Qed.

(** ** The prompt budget *)

#[local] Opaque EstimateTextTokens turnContextEnvelope contextTrimMarker.

Lemma keep_lines_spec a lines : forall kept, exists k,
  keep_lines a kept lines = kept ++ take k lines
  /\ (k <= length lines)%nat
  /\ (k <> 0%nat -> EstimateTextTokens (turnContextEnvelope
        (Join [chr 10] (kept ++ take k lines) ++ contextTrimMarker)) <= a).
Proof.
  induction lines as [|line lines IH]; intros kept.
  { exists 0%nat. rewrite take_0, app_nil_r. split; [reflexivity|]. split; [lia|]. intros Hn. by destruct Hn. }
  cbn [keep_lines]. destruct (Z.ltb_spec a (EstimateTextTokens (turnContextEnvelope
    (Join [chr 10] (kept ++ [line]) ++ contextTrimMarker)))).
  { exists 0%nat. rewrite take_0, app_nil_r. split; [reflexivity|]. split; [lia|]. intros Hn. by destruct Hn. }
  destruct (IH (kept ++ [line])) as (k & Hk & Hle & Hfit).
  exists (S k). cbn [take length]. rewrite Hk, <- app_assoc. split; [reflexivity|]. split; [lia|]. intros _.
  destruct k as [|k]; [rewrite take_0; lia|]. specialize (Hfit ltac:(done)).
  by rewrite <- app_assoc in Hfit.
Qed.

(** What is left of the context: all of it, nothing, or leading lines and the
    marker, which then fit. *)
Inductive context_left (a : Z) (ctx : bytes) : bytes -> Prop :=
| trim_all : context_left a ctx ctx
| trim_none : context_left a ctx []
| trim_lines k : (0 < k < length (split_at (chr 10) ctx))%nat ->
    EstimateTextTokens (turnContextEnvelope
      (Join [chr 10] (take k (split_at (chr 10) ctx)) ++ contextTrimMarker)) <= a ->
    context_left a ctx (Join [chr 10] (take k (split_at (chr 10) ctx)) ++ contextTrimMarker).

Lemma trimContextToBudget_trimmed ctx a : context_left a ctx (trimContextToBudget ctx a).
Proof.
  unfold trimContextToBudget. destruct (Z.leb a 0); [constructor|].
  destruct (keep_lines_spec a (split_at (chr 10) ctx) []) as (k & Hk & Hle & Hfit).
  rewrite app_nil_l in Hk, Hfit. cbv zeta. rewrite Hk.
  destruct (take k (split_at (chr 10) ctx)) as [|l ls] eqn:E; [constructor|]. rewrite <- E in *.
  destruct (Nat.eqb_spec (length (take k (split_at (chr 10) ctx))) (length (split_at (chr 10) ctx)));
    [constructor|].
  rewrite length_take in *. assert (k <> 0%nat) by (intros ->; by rewrite take_0 in E).
  constructor; [lia|by apply Hfit].
Qed.

(** The dialogue keeps its lane: unless the fixed part of the prompt alone
    crowds it out, which is reported, it gets its allocation or all that the
    fixed part leaves, at least one token; the turn's context gives way, whole
    lines from its end, and once it was cut the prompt fits its budget. *)
Theorem lane_protects_dialogue total lane fixed ctx
  (Hlane : 0 < lane) (Htotal : 0 < total) :
  let '(d, ctx') := effectiveDialogBudgetDecisionLane total lane fixed ctx in
  if PromptOverheadExceedsBudget d then total - fixed < 1 /\ DialogBudget d = total /\ ctx' = ctx
  else DialogBudget d = Z.min lane (total - fixed) /\ 1 <= DialogBudget d
       /\ PromptOverhead d = fixed + context_tokens ctx'
       /\ context_left (total - fixed - DialogBudget d) ctx ctx'
       /\ (ctx' <> ctx -> PromptOverhead d + DialogBudget d <= total).
Proof.
  unfold effectiveDialogBudgetDecisionLane.
  destruct (Z.leb_spec lane 0), (Z.leb_spec total 0); try lia. cbv [orb].
  set (laneEff := if Z.ltb total (fixed + lane) then total - fixed else lane).
  assert (laneEff = Z.min lane (total - fixed)) as Hl.
  { subst laneEff. destruct (Z.ltb_spec total (fixed + lane)); lia. }
  clearbody laneEff.
  destruct (Z.ltb_spec laneEff 1); cbn [PromptOverheadExceedsBudget DialogBudget PromptOverhead]; [split; [lia|done]|].
  split_and!; [done|lia|done| |].
  - destruct (Z.ltb _ (context_tokens ctx)); [apply trimContextToBudget_trimmed|constructor].
  - destruct (Z.ltb_spec (total - fixed - laneEff) (context_tokens ctx)); [|done]. intros Hne.
    pose proof (trimContextToBudget_trimmed ctx (total - fixed - laneEff)) as Ht.
    inversion Ht as [Heq|Heq|k Hk Hfit Heq]; rewrite <- Heq in *.
    + done.
    + change (context_tokens []) with 0. lia.
    + unfold context_tokens. destruct (blank_b _); lia.
Qed.

(** A cut context fits, but one whose every line fits beside the marker is kept
    whole, and a Cyrillic text is estimated higher without the Latin marker:
    then nothing is cut and the prompt is over its budget. *)
Definition cyrillic_context : bytes := List.concat (repeat (encode_rune 1078) 60).
Theorem trim_may_exceed :
  let '(d, ctx) := effectiveDialogBudgetDecisionLane 1070 1000 0 cyrillic_context in
  PromptOverheadExceedsBudget d = false /\ ctx = cyrillic_context
  /\ DialogBudget d = 1000 /\ 1070 < PromptOverhead d + DialogBudget d
  /\ ContextTrimmedTokens d = 0.
Proof. vm_compute. repeat split; congruence. Qed.

Example context_gives_way :
  effectiveDialogBudgetDecisionLane 1080 1000 20 (lit "a" ++ [chr 10] ++ List.concat (repeat (lit "long line ") 30))
  = (MkDecision_ 1000 (20 + context_tokens (lit "a" ++ contextTrimMarker)) Lane false
       (context_tokens (lit "a" ++ [chr 10] ++ List.concat (repeat (lit "long line ") 30))
        - context_tokens (lit "a" ++ contextTrimMarker)), lit "a" ++ contextTrimMarker).
Proof. by vm_compute. Qed.
