(* ===== verification/AgentTools.v ===== *)
(** * AgentTools: the tools of one agent turn

    runtime/agent/loop.go ([selectTools] and the toolbox, the continuation and
    recovery rules), read_batch.go ([canBatchReads]) and tool_execute.go (one
    call under its timeout).

    The handlers are the host's: what an invocation comes to, and whether the
    call's context ends first, are arguments. *)

From Stdlib Require Import Ascii String.
From stdpp Require Import pretty.
From S2P Require Import Prelude GoStrings Json GoJson Task Conversation AgentText Registry.

Local Open Scope Z_scope.

(** ** Configuration of a run *)

Record RunConfig := MkRunConfig {
  c_SessionID : string;
  c_SystemPrompt : bytes;
  c_MaxTokens : Z;
  c_MaxTurns : Z;
  c_ToolsDeadline : time;
  c_InjectedContext : bytes;
  c_Role : string;
  c_PromptProfile : string;
  c_ReflexGuidance : bytes;
  c_ToolOverride : option (list string);
  c_ToolboxExpansion : list string;
  c_AllowedTools : option (list string);
  c_DeniedTools : list string;
  c_StrictTools : bool;
  c_ParallelReadTools : Z;
  c_Ephemeral : bool;
  c_PromptOnlyInput : bool;
  c_EmptyVisibleFallback : bytes;
  c_ThinkingBudget : Z;
  c_ThinkingMode : string;
  c_Effort : string;
  c_ToolTimeout : duration;
  c_MaxToolTurns : Z;
  c_AutomaticContinuation : bool;
}.

Definition maxToolTurnsForRole (role : string) : Z :=
  if String.eqb role "cortex" then 20 else if String.eqb role "background" then 8 else 5.
Definition toolTurnLimit (cfg : RunConfig) : Z :=
  if Z.ltb 0 (c_MaxToolTurns cfg) then c_MaxToolTurns cfg else maxToolTurnsForRole (c_Role cfg).

Definition chooseThinkingBudget (cfgValue globalDefault : Z) : Z :=
  if Z.ltb cfgValue 0 then 0 else if Z.ltb 0 cfgValue then cfgValue
  else if Z.ltb globalDefault 0 then 0 else globalDefault.

(** ** Selection *)

Section selection.
Context {Handler : Type}.
#[local] Abbreviation registry := (ToolRegistry (Handler := Handler)).

Definition RoleToolKey (role profile : string) : string :=
  if String.eqb profile "" then role else (role ++ "@" ++ profile)%string.

(** [roleTools]: the configured tools of a role key, [None] when it has none. *)
Definition role_names (roleTools : string -> option (list string)) (cfg : RunConfig)
    : option (list string) :=
  match roleTools (RoleToolKey (c_Role cfg) (c_PromptProfile cfg)) with
  | Some names => Some names
  | None => roleTools (c_Role cfg)
  end.
Definition selectTools (roleTools : option (string -> option (list string))) (r : registry)
    (cfg : RunConfig) : list ToolDefinition :=
  let tools :=
    match c_ToolOverride cfg, roleTools with
    | Some names, _ => DefinitionsForNames names r
    | None, Some get =>
        if String.eqb (c_Role cfg) "" then Definitions r
        else match role_names get cfg with
             | Some names => DefinitionsForNames names r
             | None => Definitions r
             end
    | None, None => Definitions r
    end in
  let tools := match c_AllowedTools cfg with
               | None => tools
               | Some allowed => List.filter (fun t => existsb (String.eqb (Name t)) allowed) tools
               end in
  List.filter (fun t => negb (existsb (String.eqb (Name t)) (c_DeniedTools cfg))) tools.

Definition ToolboxToolName : string := "open_toolbox".
Definition toolboxToolDefinition (description : string) : ToolDefinition :=
  MkDefinition ToolboxToolName description (lit "{" ++ [dquote] ++ lit "type" ++ [dquote] ++ lit ":"
    ++ [dquote] ++ lit "object" ++ [dquote] ++ lit "," ++ [dquote] ++ lit "properties" ++ [dquote]
    ++ lit ":{}}").
Definition toolbox_description : string :=
  "Unlock the full tool set for this turn. Call this when the user's request needs a tool that is not in your current tool list (for example web access, files, calendar, scheduling, memory, or integrations). Every tool available to your role is loaded immediately after this call — then make the real call. Do not tell the user you lack a tool without trying this first.".
Definition withToolboxTool (cfg : RunConfig) (tools : list ToolDefinition) : list ToolDefinition :=
  match c_ToolboxExpansion cfg, c_ToolOverride cfg with
  | _ :: _, Some _ => if c_StrictTools cfg then tools
                      else tools ++ [toolboxToolDefinition toolbox_description]
  | _, _ => tools
  end.
Definition set_override (names : list string) (cfg : RunConfig) : RunConfig :=
  MkRunConfig (c_SessionID cfg) (c_SystemPrompt cfg) (c_MaxTokens cfg) (c_MaxTurns cfg)
    (c_ToolsDeadline cfg) (c_InjectedContext cfg) (c_Role cfg) (c_PromptProfile cfg)
    (c_ReflexGuidance cfg) (Some names) (c_ToolboxExpansion cfg) (c_AllowedTools cfg)
    (c_DeniedTools cfg) (c_StrictTools cfg) (c_ParallelReadTools cfg) (c_Ephemeral cfg)
    (c_PromptOnlyInput cfg) (c_EmptyVisibleFallback cfg) (c_ThinkingBudget cfg) (c_ThinkingMode cfg)
    (c_Effort cfg) (c_ToolTimeout cfg) (c_MaxToolTurns cfg) (c_AutomaticContinuation cfg).
Definition toolboxTools (roleTools : option (string -> option (list string))) (r : registry)
    (cfg : RunConfig) : list ToolDefinition :=
  selectTools roleTools r (set_override (c_ToolboxExpansion cfg) cfg).

Definition toolDefinitionPresent (tools : list ToolDefinition) (name : string) : bool :=
  existsb (fun t => String.eqb (Name t) name) tools.
Definition toolboxUnlockedResult (tools : list ToolDefinition) : bytes :=
  lit "Toolbox unlocked for this turn. Available tools now: "
  ++ Join (lit ", ") ((fun t => lit (Name t)) <$> tools) ++ lit ". Make the call you need now.".

Definition block_name (b : ContentBlock) : string := str (bName b).
Definition may_batch (r : registry) (cfg : RunConfig) (allowed : list ToolDefinition)
    (b : ContentBlock) : bool :=
  negb (String.eqb (block_name b) ToolboxToolName) && IsReadOnly (block_name b) r
  && (negb (c_StrictTools cfg) || toolDefinitionPresent allowed (block_name b)).
Definition canBatchReads (r : registry) (cfg : RunConfig) (blocks : list ContentBlock)
    (allowed : list ToolDefinition) : bool :=
  let calls := List.filter (is_type "tool_use") blocks in
  Z.leb 2 (c_ParallelReadTools cfg) && forallb (may_batch r cfg allowed) calls
  && Nat.ltb 1 (length calls).
End selection.

(** ** One call *)

(** [Duration.String]: the value in its largest units, without trailing zeros
    of the fraction. *)
Definition pad (w : nat) (n : Z) : bytes :=
  let d := lit (pretty n) in repeat (chr 48) (w - length d) ++ d.
Fixpoint drop_zeros (s : bytes) : bytes :=
  match s with
  | c :: r => if Ascii.eqb c (chr 48) then drop_zeros r else s
  | [] => []
  end.
Definition with_fraction (w : nat) (whole part : Z) : bytes :=
  lit (pretty whole)
  ++ match reverse (drop_zeros (reverse (pad w part))) with [] => [] | f => lit "." ++ f end.
Definition Duration_String (d : duration) : bytes :=
  let u := Z.abs d in
  let sign := if Z.ltb d 0 then lit "-" else [] in
  if Z.eqb u 0 then lit "0s"
  else if Z.ltb u 1000 then sign ++ lit (pretty u) ++ lit "ns"
  else if Z.ltb u 1000000
  then sign ++ with_fraction 3 (u / 1000) (u mod 1000) ++ encode_rune 181 ++ lit "s"
  else if Z.ltb u Second
  then sign ++ with_fraction 6 (u / 1000000) (u mod 1000000) ++ lit "ms"
  else
    let secs := u / Second in
    let h := secs / 3600 in
    let m := (secs / 60) mod 60 in
    sign ++ (if Z.ltb 0 h then lit (pretty h) ++ lit "h" else [])
    ++ (if Z.ltb 0 h || Z.ltb 0 m then lit (pretty m) ++ lit "m" else [])
    ++ with_fraction 9 (secs mod 60) (u mod Second) ++ lit "s".

Definition resolveToolExecutionTimeout (override : duration) (name : string) : duration :=
  if Z.ltb 0 override then override
  else if String.eqb name "browser_search" then 35 * Second
  else if String.eqb name "browser_fetch" then 55 * Second
  else if String.eqb name "image_generate" then 4 * Minute
  else 90 * Second.

Definition timed_out_text (name : string) (timeout : duration) (err : bytes) : bytes :=
  lit "tool " ++ lit name ++ lit " timed out after " ++ Duration_String timeout ++ lit ": " ++ err
  ++ lit ". The call was cancelled, but its effect may still have landed. If this tool creates or changes something, verify first (list or read the target) instead of repeating the call; repeat at most once, and if that fails too, tell the user plainly.".

Definition IsToolDenied (denied : list string) (name : string) : bool :=
  negb (String.eqb name "") && existsb (String.eqb name) denied.

(** [ended]: the error of the parent context, when it has ended before the
    call; [late]: that of the call's own context, when it ends first. *)
Definition executeToolWithTimeout {Handler : Type} (ended late : option bytes)
    (invoke : Handler -> bytes -> answer) (denied : list string) (r : ToolRegistry (Handler := Handler))
    (name : string) (input : bytes) (timeout : duration) : bytes * bool * bool :=
  match ended with
  | Some err => (err, true, true)
  | None =>
      let '(output, isError) := Execute (IsToolDenied denied name) invoke name input r in
      match late with
      | Some err => if Z.leb timeout 0 then (output, isError, false)
                    else (timed_out_text name timeout err, true, true)
      | None => (output, isError, false)
      end
  end.

(** Whether the call reaches a handler. *)
Definition reaches_handler {Handler : Type} (ended : option bytes) (denied : list string)
    (r : ToolRegistry (Handler := Handler)) (name : string) : bool :=
  match ended with
  | Some _ => false
  | None => negb (IsToolDenied denied name) && Has name (Some r)
  end.

(** * Properties *)

Section properties.
Context {Handler : Type} (roleTools : option (string -> option (list string))).
Implicit Types r : ToolRegistry (Handler := Handler).

(** What a turn may be shown: tools the registry has, allowed to the soul and
    not denied for the turn. *)
Definition shown r (cfg : RunConfig) (t : ToolDefinition) : Prop :=
  (exists k tool, tools r !! k = Some tool /\ Definition_ tool = t)
  /\ (forall allowed, c_AllowedTools cfg = Some allowed -> Name t ∈ allowed)
  /\ Name t ∉ c_DeniedTools cfg.

Lemma existsb_name n l : existsb (String.eqb n) l = true <-> n ∈ l.
Proof.
  rewrite existsb_exists. split.
  - intros (x & Hin & ->%String.eqb_eq). by apply list_elem_of_In.
  - intros Hin. exists n. split; [by apply list_elem_of_In|apply String.eqb_refl].
Qed.

Lemma registered r t :
  t ∈ Definitions r \/ (exists names, t ∈ DefinitionsForNames names r) ->
  exists k tool, tools r !! k = Some tool /\ Definition_ tool = t.
Proof.
  intros [H|[names H]]; apply list_elem_of_fmap in H as (tool & -> & H).
  - apply order_by_elem in H. unfold all_tools in H.
    apply list_elem_of_fmap in H as ([k x] & -> & H%elem_of_map_to_list). by exists k, x.
  - unfold select in H.
    destruct (chosen_from r names (MkSelection ∅ []) ltac:(intros ? []%elem_of_nil) tool H) as [k Hk].
    by exists k, tool.
Qed.

Lemma selectTools_shown r cfg t : t ∈ selectTools roleTools r cfg -> shown r cfg t.
Proof.
  unfold selectTools. rewrite list_elem_of_In, List.filter_In, <- list_elem_of_In.
  intros [Hin Hden]. apply negb_true_iff, not_true_iff_false in Hden. rewrite existsb_name in Hden.
  assert (forall l, t ∈ match c_AllowedTools cfg with None => l
      | Some allowed => List.filter (fun t => existsb (String.eqb (Name t)) allowed) l end ->
    t ∈ l /\ forall allowed, c_AllowedTools cfg = Some allowed -> Name t ∈ allowed) as Hallow.
  { intros l. destruct (c_AllowedTools cfg) as [allowed|]; [|by intros; split].
    rewrite list_elem_of_In, List.filter_In, <- list_elem_of_In, existsb_name.
    intros [? ?]. split; [done|]. by intros ? [= <-]. }
  apply Hallow in Hin as [Hin Hall]. split_and!; [|done|done]. apply registered.
  destruct (c_ToolOverride cfg); [right; by eexists|]. destruct roleTools as [get|]; [|by left].
  destruct (String.eqb (c_Role cfg) ""); [by left|].
  destruct (role_names get cfg); [right; by eexists|by left].
Qed.

(** Opening the toolbox never shows a tool the soul's allowlist or the turn's
    denylist hides. *)
Theorem toolbox_stays_permitted r cfg t :
  t ∈ toolboxTools roleTools r cfg -> shown r cfg t.
Proof. intros H%selectTools_shown. exact H. Qed.

(** A denied tool reaches no handler, shown or not. *)
Lemma denied_reaches_nothing ended cfg r name :
  reaches_handler ended (c_DeniedTools cfg) r name = true ->
  Has name (Some r) = true /\ (name <> ""%string -> name ∉ c_DeniedTools cfg).
Proof.
  unfold reaches_handler, IsToolDenied. destruct ended; [done|].
  intros [Hd Hh]%andb_true_iff. split; [done|]. intros Hne Hin.
  apply negb_true_iff, andb_false_iff in Hd as [Hd|Hd].
  - apply negb_false_iff, String.eqb_eq in Hd. done.
  - apply existsb_name in Hin. congruence.
Qed.
End properties.

Example duration_texts :
  str <$> (Duration_String <$> [90 * Second; 35 * Second; 4 * Minute; 1500000; 0; 3725 * Second + 50000000])
  = ["1m30s"; "35s"; "4m0s"; "1.5ms"; "0s"; "1h2m5.05s"]%string.
Proof. by vm_compute. Qed.
