(* ===== verification/AgentLoop.v ===== *)
(** * AgentLoop: the model/tool loop of one agent turn

    [RunTracked] of runtime/agent/tracked.go from the prepared conversation on:
    the requests to the model, the recovery of cut answers and cut tool calls,
    the validation of a draft, the tool calls with their checkpoints, and the
    outcome a run reports (outcome.go, response_validation.go and the rules of
    loop.go).

    The loop is a state monad with early return over the record of its local
    variables.  The host answers each step: the model, the clock, the session
    store, the checkpoint and validator callbacks and the tools' handlers; the
    trace lists what the loop did, in order.  Inputs are what the head of
    [RunTracked] prepares: the dialogue loaded from the session and the parts of
    the turn's context. *)

From Stdlib Require Import Ascii String.
From stdpp Require Import pretty.
From S2P Require Import Prelude GoStrings Json GoJson Task Conversation AgentText Registry AgentTools.

Local Open Scope Z_scope.

(** ** Requests and answers *)

Record CompletionRequest := MkCompletion {
  q_System : bytes;
  q_Messages : list Message;
  q_Tools : list ToolDefinition;
  q_MaxTokens : Z;
  q_ThinkingBudget : Z;
  q_ThinkingMode : string;
  q_Effort : string;
}.
Record CompletionResponse := MkAnswer {
  p_Content : list ContentBlock;
  p_StopReason : string;
  p_InputTokens : Z;
  p_OutputTokens : Z;
}.

Definition ExtractText (content : list ContentBlock) : bytes :=
  Join [chr 10] (List.filter (fun t => negb (bool_decide (t = [])))
                   (Text <$> List.filter (is_type "text") content)).
Definition text_content (s : bytes) : ContentBlock := MkBlock "text" s "" [] [] [] "" (RText []) false.

Definition hasVisibleOutput (content : list ContentBlock) : bool :=
  existsb (fun b => (is_type "text" b && negb (blank_b (Text b))) || is_type "tool_use" b) content.
Definition hasToolUseOutput (content : list ContentBlock) : bool := existsb (is_type "tool_use") content.

Definition maxTokenContinuationPasses : Z := 1.
Definition maxResponseRevisions : Z := 1.
Definition maxTruncatedToolRecoveries : Z := 2.

Definition shouldAutoContinueMaxTokens (r : CompletionResponse) (passes : Z) : bool :=
  String.eqb (p_StopReason r) "max_tokens" && Z.ltb passes maxTokenContinuationPasses
  && negb (blank_b (ExtractText (p_Content r))) && negb (hasToolUseOutput (p_Content r)).
Definition shouldRecoverTruncatedToolUse (r : CompletionResponse) (recoveries : Z) : bool :=
  String.eqb (p_StopReason r) "max_tokens" && Z.ltb recoveries maxTruncatedToolRecoveries
  && hasToolUseOutput (p_Content r).
Definition shouldRetryEmptyVisibleOutput (r : CompletionResponse) (q : CompletionRequest) : bool :=
  String.eqb (p_StopReason r) "max_tokens" && negb (hasVisibleOutput (p_Content r))
  && (negb (String.eqb (q_Effort q) "") || negb (String.eqb (q_ThinkingMode q) "")
      || Z.ltb 0 (q_ThinkingBudget q)).
Definition withoutReasoning (q : CompletionRequest) : CompletionRequest :=
  MkCompletion (q_System q) (q_Messages q) (q_Tools q) (q_MaxTokens q) 0 "off" "".

Definition user_text (s : bytes) : Message := MkMessage "user" [text_content s].
Definition maxTokenContinuationMessage : Message :=
  user_text (lit "[max_tokens_continuation]" ++ [chr 10]
    ++ lit "Your previous answer was cut off by the output token limit. Continue exactly from the last visible text. Do not restart, summarize, apologize, or repeat earlier content. Output only the continuation."
    ++ [chr 10] ++ lit "[/max_tokens_continuation]").
Definition responseRevisionMessage (feedback : bytes) : Message :=
  user_text (lit "[response_revision]" ++ [chr 10] ++ lit "Your previous reply was not shown to the user. "
    ++ TrimSpace_b feedback ++ [chr 10]
    ++ lit "Answer again; your new reply replaces it. Do not mention this check." ++ [chr 10]
    ++ lit "[/response_revision]").

(** ** Placing the turn's context *)

Definition formatAvailableToolsContext (tools : list ToolDefinition) : bytes :=
  lit "[available_tools]" ++ [chr 10]
  ++ match tools with
     | [] => lit "none. No native tool_use calls are available in this turn. Do not claim you can call tools; answer from visible context or say what is missing."
     | _ => lit "Only the native tool_use calls in your tool definitions are available in this turn."
     end ++ [chr 10] ++ lit "[/available_tools]".
Definition buildTurnContextForTools (reflexGuidance injectedContext : bytes)
    (tools : list ToolDefinition) (extra : list bytes) : bytes :=
  Join [chr 10; chr 10]
    (List.filter (fun s => negb (bool_decide (s = []))) (TrimSpace_b <$> reflexGuidance :: injectedContext :: extra)
     ++ [formatAvailableToolsContext tools]).
(** [stamp]: the formatted clock of the turn, [None] when it is not stamped. *)
Definition withCurrentDatetime (turnContext : bytes) (stamp : option bytes) : bytes :=
  match stamp with
  | None => turnContext
  | Some now =>
      let s := lit "[current_datetime: " ++ now ++ lit "]" in
      if blank_b turnContext then s else s ++ [chr 10; chr 10] ++ turnContext
  end.

Definition add_block (b : ContentBlock) (m : Message) : Message := MkMessage (Role m) (Blocks m ++ [b]).

(** [anchor]: [None] when the conversation was empty. *)
Definition withTurnContext (messages : list Message) (anchor : option nat) (turnContext : bytes)
    : list Message :=
  if blank_b turnContext then messages
  else
    let block := text_content (turnContextEnvelope turnContext) in
    match anchor with
    | None => messages ++ [MkMessage "user" [block]]
    | Some i =>
        match messages !! i with
        | None => messages ++ [MkMessage "user" [block]]
        | Some m =>
            if is_role "user" m then <[i := add_block block m]> messages
            else take (S i) messages ++ [MkMessage "user" [block]] ++ drop (S i) messages
        end
    end.
Definition turnContextAnchor (convo : list Message) : option nat :=
  match length convo with O => None | S n => Some n end.

Definition final_directive (automatic : bool) : bytes :=
  if automatic then
    [chr 10; chr 10] ++ lit "[run_checkpoint]" ++ [chr 10]
    ++ lit "This bounded run is ending and tools are withheld for its closing response. The host owns durable continuation; access and permissions are unchanged. State the concrete results already obtained and any unfinished steps or blockers. Do not ask the user to send another message to continue, and do not call the overall task complete unless its outcome has actually been verified. Do not repeat earlier progress text."
    ++ [chr 10] ++ lit "[/run_checkpoint]"
  else
    [chr 10; chr 10] ++ lit "[tool_limit]" ++ [chr 10]
    ++ lit "You hit this turn's tool-call budget, so tools are withheld while you write the final answer. This is a per-turn harness limit — your access and permissions are unchanged, and every tool returns on the next user message. Answer now from the results already gathered; do not stall asking to run more lookups. If the task is unfinished, say plainly that you hit the per-turn tool limit and offer to continue — never claim you lack access, rights, or write capability."
    ++ [chr 10] ++ lit "[/tool_limit]".
(** On the last message, when it is the user's. *)
Fixpoint appendFinalAnswerDirective (automatic : bool) (messages : list Message) : list Message :=
  match messages with
  | [] => []
  | [m] => if is_role "user" m then [add_block (text_content (final_directive automatic)) m] else [m]
  | m :: rest => m :: appendFinalAnswerDirective automatic rest
  end.

(** ** Results of calls *)

Definition tool_result (b : ContentBlock) (content : bytes) (isError : bool) : ContentBlock :=
  MkBlock "tool_result" [] "" (bName b) [] [] (ID_ b) (RText content) isError.

Record CallTrace := MkTrace {
  tr_Name : bytes;
  tr_BlockID : string;
  tr_Input : bytes;
  tr_Output : bytes;
  tr_Error : bool;
  tr_TimedOut : bool;
  tr_Receipt : bool;                       (* the call was dispatched *)
}.
Record ToolExecutionResult := MkReceipt { x_Name : bytes; x_Input : bytes; x_Output : bytes; x_IsError : bool }.

Definition clip (n : nat) (s : bytes) : bytes :=
  if Nat.ltb n (length s) then take n s ++ lit "..." else s.

Definition truncatedToolCallResult (name : bytes) (maxTokens : Z) : bytes :=
  lit "[tool_call_truncated]" ++ [chr 10] ++ lit "The " ++ name
  ++ lit " call was cut off by the output token limit (max_tokens=" ++ lit (pretty maxTokens)
  ++ lit ") while its arguments were still being written. The input you see above is an incomplete prefix; the tool was NOT run. Do not re-send the same call. Make the arguments much smaller so the whole call fits inside the limit — keep bulk text short, produce the artefact in smaller pieces the tool supports, or move long content out of the arguments — and then call again."
  ++ [chr 10] ++ lit "[/tool_call_truncated]".
Definition cut_result (maxTokens : Z) (b : ContentBlock) : ContentBlock * CallTrace :=
  let text := truncatedToolCallResult (bName b) maxTokens in
  (tool_result b text true, MkTrace (bName b) (ID_ b) (clip 200 (Input b)) text true false false).
Definition truncatedToolUseResults (content : list ContentBlock) (maxTokens : Z)
    : list ContentBlock * list CallTrace :=
  let cut := cut_result maxTokens <$> List.filter (is_type "tool_use") content in (cut.*1, cut.*2).

(** ** Outcomes *)

Inductive RunStopReason : Type :=
| RunStopCompleted | RunStopToolBudget | RunStopTurnLimit | RunStopOutputLimit | RunStopRefusal
| RunStopEmptyOutput | RunStopError | RunStopCancelled | RunStopProviderStop.
#[global] Instance RunStopReason_eq_dec : EqDecision RunStopReason.
Proof. solve_decision. Defined.
Record RunOutcome := MkRunOutcome {
  Reason : RunStopReason;
  o_Turns : Z;
  o_ToolTurns : Z;
  ProviderStopReason : string;
}.

Definition terminalRunReason (o : RunOutcome) (stop : string) : RunStopReason :=
  if bool_decide (Reason o = RunStopEmptyOutput) then RunStopEmptyOutput
  else if String.eqb stop "max_tokens" then RunStopOutputLimit
  else if bool_decide (Reason o = RunStopToolBudget) then RunStopToolBudget
  else RunStopCompleted.

(** What ends a run early; the flag of a failed call says whether its error is
    a context's. *)
Inductive run_error : Type :=
| ELLM (of_context : bool)
| ECancelled
| EValidation (of_context : bool)
| ERevisionRefused
| EEmptyReplacement
| EPersist (of_context : bool)
| ECheckpoint (phase : string) (of_context : bool)
| ETurnLimit.
Definition of_context (e : run_error) : bool :=
  match e with
  | ELLM c | EPersist c | EValidation c | ECheckpoint _ c => c
  | ECancelled => true
  | _ => false
  end.

Definition set_reason (r : RunStopReason) (o : RunOutcome) : RunOutcome :=
  MkRunOutcome r (o_Turns o) (o_ToolTurns o) (ProviderStopReason o).
(** [cancelled]: the run's context has ended. *)
Definition finishRunOutcome (cancelled : bool) (o : RunOutcome) (err : option run_error) : RunOutcome :=
  match err with
  | Some e => if of_context e || cancelled then set_reason RunStopCancelled o
              else if bool_decide (Reason o = RunStopTurnLimit) then o else set_reason RunStopError o
  | None => if cancelled then set_reason RunStopCancelled o else o
  end.

(** ** The host *)

Record validation_request := MkValidation {
  v_Text : bytes;
  v_PendingTools : list bytes;
  v_Tools : list ToolExecutionResult;
  v_Revisable : bool;
}.
Inductive verdict : Type :=
| Safe (text : bytes)
| Revise (feedback : bytes)
| Invalid (of_context : bool).

Section loop.
Context {Handler : Type}.

Record agent_host := MkAgentHost {
  h_registry : ToolRegistry (Handler := Handler);
  h_IsPrint : Z -> bool;                   (* strconv.IsPrint *)
  h_roleTools : option (string -> option (list string));
  h_ThinkingBudget : Z;                    (* cfg.Limits.ThinkingBudget *)
  h_ModelRefused : bytes;                  (* cfg.UI.ModelRefused *)
  h_Complete : nat -> CompletionRequest -> res bool CompletionResponse;
  h_now : nat -> time;
  h_cancelled : nat -> bool;
  h_persist : nat -> res bool unit;        (* the session store *)
  h_checkpoint : option (nat -> res bool unit);
  h_validate : option (nat -> validation_request -> verdict);
  h_ended : nat -> option bytes;           (* the tool budget's context *)
  h_late : nat -> option bytes;            (* the context of one call *)
  h_invoke : nat -> Handler -> bytes -> answer;
}.

(** What the head of [RunTracked] prepares. *)
Record prepared := MkPrepared {
  p_convo : list Message;
  p_system : bytes;
  p_stamp : option bytes;
  p_extra : list bytes;                    (* felt time, recent observations *)
}.

(** ** The trace *)

Inductive event : Type :=
| EvModel (q : CompletionRequest) (withheld : bool)
| EvCleared (content : list ContentBlock)
| EvPersist (m : Message) (ok : bool)
| EvCheckpoint (phase : string) (pending : option ContentBlock) (ok : bool)
| EvRun (name input : bytes)
| EvShow (text : bytes)                    (* the callbacks of a stream *)
| EvToolShow (id : string) (output : bytes) (isError : bool)
| EvThinkShow (delta : bytes)
| EvToolUseShow (id : string) (name input : bytes)
| EvUsageShow (inputTokens outputTokens : Z).

(** ** Local variables *)

Record vars := MkVars {
  l_convo : list Message;
  l_tools : list ToolDefinition;
  l_text : bytes;
  l_traces : list CallTrace;
  l_receipts : list ToolExecutionResult;
  l_maxTurns : Z;
  l_turn : Z;
  l_toolTurns : Z;
  l_forceFinal : bool;
  l_deadlineUsed : bool;
  l_continuations : Z;
  l_revisions : Z;
  l_recoveries : Z;
  l_pendingText : bytes;
  l_outcome : RunOutcome;
}.
Record st := MkSt { steps : nat; trace : list event; v : vars }.

Inductive flow (A : Type) : Type :=
| Go (a : A)
| Ret (text : bytes)
| Fails (e : run_error).
#[global] Arguments Go {A}.
#[global] Arguments Ret {A}.
#[global] Arguments Fails {A}.
Definition M (A : Type) : Type := st -> flow A * st.

#[global] Instance M_ret : MRet M := fun A a s => (Go a, s).
#[global] Instance M_bind : MBind M := fun A B k m s =>
  match m s with
  | (Go a, s') => k a s'
  | (Ret t, s') => (Ret t, s')
  | (Fails e, s') => (Fails e, s')
  end.

Definition ask {A} (f : nat -> A) : M A := fun s => (Go (f (steps s)), MkSt (S (steps s)) (trace s) (v s)).
Definition emit (e : event) : M unit := fun s => (Go tt, MkSt (steps s) (trace s ++ [e]) (v s)).
Definition get : M vars := fun s => (Go (v s), s).
Definition put (x : vars) : M unit := fun s => (Go tt, MkSt (steps s) (trace s) x).
Definition returns {A} (text : bytes) : M A := fun s => (Ret text, s).
Definition fails {A} (e : run_error) : M A := fun s => (Fails e, s).

Definition set_convo (c : list Message) (x : vars) : vars :=
  MkVars c (l_tools x) (l_text x) (l_traces x) (l_receipts x) (l_maxTurns x) (l_turn x)
    (l_toolTurns x) (l_forceFinal x) (l_deadlineUsed x) (l_continuations x) (l_revisions x)
    (l_recoveries x) (l_pendingText x) (l_outcome x).
Definition set_tools (t : list ToolDefinition) (x : vars) : vars :=
  MkVars (l_convo x) t (l_text x) (l_traces x) (l_receipts x) (l_maxTurns x) (l_turn x)
    (l_toolTurns x) (l_forceFinal x) (l_deadlineUsed x) (l_continuations x) (l_revisions x)
    (l_recoveries x) (l_pendingText x) (l_outcome x).
Definition set_text (t : bytes) (x : vars) : vars :=
  MkVars (l_convo x) (l_tools x) t (l_traces x) (l_receipts x) (l_maxTurns x) (l_turn x)
    (l_toolTurns x) (l_forceFinal x) (l_deadlineUsed x) (l_continuations x) (l_revisions x)
    (l_recoveries x) (l_pendingText x) (l_outcome x).
Definition add_traces (t : list CallTrace) (x : vars) : vars :=
  MkVars (l_convo x) (l_tools x) (l_text x) (l_traces x ++ t) (l_receipts x) (l_maxTurns x) (l_turn x)
    (l_toolTurns x) (l_forceFinal x) (l_deadlineUsed x) (l_continuations x) (l_revisions x)
    (l_recoveries x) (l_pendingText x) (l_outcome x).
Definition add_receipt (r : ToolExecutionResult) (x : vars) : vars :=
  MkVars (l_convo x) (l_tools x) (l_text x) (l_traces x) (l_receipts x ++ [r]) (l_maxTurns x) (l_turn x)
    (l_toolTurns x) (l_forceFinal x) (l_deadlineUsed x) (l_continuations x) (l_revisions x)
    (l_recoveries x) (l_pendingText x) (l_outcome x).
Definition set_limits (maxTurns turn toolTurns : Z) (forceFinal deadlineUsed : bool) (x : vars) : vars :=
  MkVars (l_convo x) (l_tools x) (l_text x) (l_traces x) (l_receipts x) maxTurns turn
    toolTurns forceFinal deadlineUsed (l_continuations x) (l_revisions x)
    (l_recoveries x) (l_pendingText x) (l_outcome x).
Definition set_passes (continuations revisions recoveries : Z) (pendingText : bytes) (x : vars) : vars :=
  MkVars (l_convo x) (l_tools x) (l_text x) (l_traces x) (l_receipts x) (l_maxTurns x) (l_turn x)
    (l_toolTurns x) (l_forceFinal x) (l_deadlineUsed x) continuations revisions
    recoveries pendingText (l_outcome x).
Definition set_outcome (o : RunOutcome) (x : vars) : vars :=
  MkVars (l_convo x) (l_tools x) (l_text x) (l_traces x) (l_receipts x) (l_maxTurns x) (l_turn x)
    (l_toolTurns x) (l_forceFinal x) (l_deadlineUsed x) (l_continuations x) (l_revisions x)
    (l_recoveries x) (l_pendingText x) o.
Definition modify (f : vars -> vars) : M unit := fun s => (Go tt, MkSt (steps s) (trace s) (f (v s))).
Definition force_final (x : vars) : vars :=
  set_limits (l_maxTurns x) (l_turn x) (l_toolTurns x) true (l_deadlineUsed x) x.
(** [if turn+1 >= cfg.MaxTurns { cfg.MaxTurns = turn + 2 }]; [l_turn] counts
    the turns begun, [turn + 1]. *)
Definition extend_turns (x : vars) : vars :=
  set_limits (if Z.leb (l_maxTurns x) (l_turn x) then l_turn x + 1 else l_maxTurns x)
    (l_turn x) (l_toolTurns x) (l_forceFinal x) (l_deadlineUsed x) x.
Definition count_tool_turn (x : vars) : vars :=
  let x := set_limits (l_maxTurns x) (l_turn x) (l_toolTurns x + 1) (l_forceFinal x) (l_deadlineUsed x) x in
  set_outcome (MkRunOutcome (Reason (l_outcome x)) (o_Turns (l_outcome x)) (l_toolTurns x)
                 (ProviderStopReason (l_outcome x))) x.
Definition stop_reason (r : RunStopReason) (x : vars) : vars := set_outcome (set_reason r (l_outcome x)) x.

(** ** Steps *)

Context (h : agent_host) (cfg : RunConfig) (p : prepared).

Definition checkpoint (phase : string) (pending : option ContentBlock) : M unit :=
  match h_checkpoint h with
  | None => mret tt
  | Some save =>
      r ← ask save;
      _ ← emit (EvCheckpoint phase pending (is_ok r));
      match r with Ok _ => mret tt | Err c => fails (ECheckpoint phase c) end
  end.
Definition persist (m : Message) : M unit :=
  if c_Ephemeral cfg then mret tt
  else
    r ← ask (h_persist h);
    _ ← emit (EvPersist m (is_ok r));
    match r with Ok _ => mret tt | Err c => fails (EPersist c) end.

(** [!cfg.ToolsDeadline.IsZero() && !time.Now().Before(cfg.ToolsDeadline)] *)
Definition past_deadline : M bool :=
  if IsZero (c_ToolsDeadline cfg) then mret false
  else now ← ask (h_now h); mret (Z.leb (c_ToolsDeadline cfg) now).

Definition turn_request (anchor : option nat) (x : vars) : CompletionRequest :=
  let tools := if l_forceFinal x then [] else l_tools x in
  let context := withCurrentDatetime (buildTurnContextForTools (c_ReflexGuidance cfg)
                   (c_InjectedContext cfg) tools (p_extra p)) (p_stamp p) in
  let messages := withTurnContext (l_convo x) anchor context in
  MkCompletion (p_system p)
    (if l_forceFinal x then appendFinalAnswerDirective (c_AutomaticContinuation cfg) messages else messages)
    tools (c_MaxTokens cfg) (chooseThinkingBudget (c_ThinkingBudget cfg) (h_ThinkingBudget h))
    (c_ThinkingMode cfg) (c_Effort cfg).

Definition complete (withheld : bool) (q : CompletionRequest) : M CompletionResponse :=
  _ ← emit (EvModel q withheld);
  r ← ask (fun n => h_Complete h n q);
  match r with Ok resp => mret resp | Err c => fails (ELLM c) end.
(** A response cut before anything visible is asked for again without
    reasoning. *)
Definition call_model (withheld : bool) (q : CompletionRequest) : M CompletionResponse :=
  resp ← complete withheld q;
  if shouldRetryEmptyVisibleOutput resp q then complete withheld (withoutReasoning q) else mret resp.

Definition emptyVisibleFallback : bytes :=
  match TrimSpace_b (c_EmptyVisibleFallback cfg) with
  | [] => if blank_b (h_ModelRefused h)
          then lit "(the model produced no visible answer — retry with a shorter request)"
          else h_ModelRefused h
  | fallback => fallback
  end.
Definition replace_content (content : list ContentBlock) (r : CompletionResponse) : CompletionResponse :=
  MkAnswer content (p_StopReason r) (p_InputTokens r) (p_OutputTokens r).
(** The answer with the fallback in place of a terminal one that shows
    nothing, and whether it was used. *)
Definition fill_empty (resp : CompletionResponse) : M (CompletionResponse * bool) :=
  if negb (hasVisibleOutput (p_Content resp))
     && (String.eqb (p_StopReason resp) "end_turn" || String.eqb (p_StopReason resp) "max_tokens") then
    c ← ask (h_cancelled h);
    if (c : bool) then fails ECancelled
    else
      _ ← modify (stop_reason RunStopEmptyOutput);
      mret (replace_content [text_content emptyVisibleFallback] resp, true)
  else mret (resp, false).

(** ** Validation *)

Fixpoint replace_text (safe : bytes) (placed : bool) (content : list ContentBlock) : list ContentBlock :=
  match content with
  | [] => []
  | b :: rest =>
      if is_type "text" b
      then (if negb placed && negb (bool_decide (safe = [])) then [text_content safe] else [])
           ++ replace_text safe true rest
      else b :: replace_text safe placed rest
  end.
Definition pending_tools (content : list ContentBlock) : list bytes :=
  bName <$> List.filter (is_type "tool_use") content.

(** The content to publish, or the feedback of a requested revision. *)
Definition validateResponse (content : list ContentBlock) (revisable : bool)
    : M (list ContentBlock + bytes) :=
  match h_validate h with
  | None => mret (inl content)
  | Some validate =>
      if blank_b (ExtractText content) then mret (inl content)
      else
        x ← get;
        let pending := pending_tools content in
        let text := ExtractText content in
        let revisable := revisable && bool_decide (pending = []) in
        verdict ← ask (fun n => validate n (MkValidation text pending (l_receipts x) revisable));
        match verdict with
        | Revise feedback => if revisable then mret (inr feedback) else fails ERevisionRefused
        | Invalid c => fails (EValidation c)
        | Safe safe =>
            if bool_decide (safe = text) then _ ← emit (EvCleared content); mret (inl content)
            else if blank_b safe && bool_decide (pending = []) then fails EEmptyReplacement
            else
              let out := replace_text safe false content in
              _ ← emit (EvCleared out); mret (inl out)
        end
  end.

(** ** Tool calls *)

Definition called : Type := bytes * bool * bool.   (* output, error, timed out *)

Definition dispatch (b : ContentBlock) : M called :=
  ended ← ask (h_ended h);
  _ ← (if reaches_handler ended (c_DeniedTools cfg) (h_registry h) (block_name b)
       then emit (EvRun (bName b) (Input b)) else mret tt);
  late ← ask (h_late h);
  ask (fun n => executeToolWithTimeout ended late (h_invoke h n) (c_DeniedTools cfg) (h_registry h)
                  (block_name b) (Input b)
                  (resolveToolExecutionTimeout (c_ToolTimeout cfg) (block_name b))).

(** [startReadBatch]: the reads run concurrently and their results are taken in
    the model's order; their order among themselves is immaterial. *)
Definition batch_read (b : ContentBlock) : M called :=
  ended ← ask (h_ended h);
  match ended with
  | Some err => mret (err, true, false)
  | None => dispatch b
  end.
Fixpoint startReadBatch (calls : list ContentBlock) : M (list called) :=
  match calls with
  | [] => mret []
  | b :: calls => r ← batch_read b; rest ← startReadBatch calls; mret (r :: rest)
  end.

Definition denied_text (name : bytes) : bytes :=
  lit "tool " ++ Quote (h_IsPrint h) (str name) ++ lit " is not allowed by the strict turn policy".

(** One call the model asked for: its result block.  [ready]: the result of a
    batched read. *)
Definition run_call (turnTools : list ToolDefinition) (ready : option called) (b : ContentBlock)
    : M ContentBlock :=
  x ← get;
  let name := block_name b in
  if l_forceFinal x || (c_StrictTools cfg && negb (toolDefinitionPresent turnTools name)) then
    let text := denied_text (bName b) in
    _ ← modify (add_traces [MkTrace (bName b) "" (clip 200 (Input b)) text true false false]);
    mret (tool_result b text true)
  else if String.eqb name ToolboxToolName && negb (bool_decide (c_ToolboxExpansion cfg = [])) then
    let tools := toolboxTools (h_roleTools h) (h_registry h) cfg in
    let text := toolboxUnlockedResult tools in
    _ ← modify (fun x => add_traces [MkTrace (bName b) "" (lit "{}") text false false false] (set_tools tools x));
    mret (tool_result b text false)
  else
    _ ← checkpoint "tool_started" (Some b);
    out ← match ready with Some out => mret out | None => dispatch b end;
    let '(output, isError, timedOut) := out : called in
    _ ← modify (fun x => add_traces [MkTrace (bName b) (ID_ b) (clip 200 (Input b)) (clip 500 output)
                                       isError timedOut true]
                  (add_receipt (MkReceipt (bName b) (Input b) output isError) x));
    _ ← checkpoint "tool_completed" None;
    mret (tool_result b output isError).

Fixpoint run_calls (turnTools : list ToolDefinition) (ready : list called) (calls : list ContentBlock)
    : M (list ContentBlock) :=
  match calls with
  | [] => mret []
  | b :: calls =>
      r ← run_call turnTools (head ready) b;
      rest ← run_calls turnTools (tail ready) calls;
      mret (r :: rest)
  end.

(** ** One turn *)

Definition over_budget (x : vars) : bool := Z.leb (toolTurnLimit cfg) (l_toolTurns x).
Definition spend_budget (x : vars) : vars := force_final (stop_reason RunStopToolBudget x).

(** A tool call cut by the output limit is answered instead of run. *)
Definition answer_cut (content : list ContentBlock) : M unit :=
  _ ← modify (fun x => count_tool_turn (set_passes (l_continuations x) (l_revisions x)
                         (l_recoveries x + 1) (l_pendingText x) x));
  let '(results, traces) := truncatedToolUseResults content (c_MaxTokens cfg) in
  _ ← modify (add_traces traces);
  _ ← persist (MkMessage "user" results);
  modify (fun x =>
    let x := set_convo (l_convo x ++ [MkMessage "user" (compactToolResultBlockForPrompt <$> results)]) x in
    extend_turns (if over_budget x then spend_budget x else x)).

Definition tool_turn (turnTools : list ToolDefinition) (content : list ContentBlock) : M unit :=
  late ← past_deadline;
  _ ← modify (fun x => count_tool_turn (if (late : bool) then force_final x else x));
  x ← get;
  let calls := List.filter (is_type "tool_use") content in
  ready ← (if negb (l_forceFinal x) && canBatchReads (h_registry h) cfg content turnTools then
             _ ← checkpoint "read_batch_started" None; startReadBatch calls
           else mret []);
  results ← run_calls turnTools ready calls;
  match results with
  | [] => x ← get; returns (l_text x)
  | _ =>
      _ ← persist (MkMessage "user" results);
      _ ← modify (fun x => set_convo (l_convo x ++ [MkMessage "user"
                             (compactToolResultBlockForPrompt <$> results)]) x);
      x ← get;
      if l_forceFinal x then
        late ← past_deadline;
        if negb (l_deadlineUsed x) && late then
          modify (fun x => extend_turns (set_limits (l_maxTurns x) (l_turn x) (l_toolTurns x)
                             (l_forceFinal x) true x))
        else
          _ ← modify (fun x => if bool_decide (Reason (l_outcome x) = RunStopToolBudget) then x
                               else stop_reason RunStopOutputLimit x);
          x ← get; returns (l_text x)
      else if over_budget x then modify (fun x => extend_turns (spend_budget x))
      else mret tt
  end.

Definition refusal_text (text : bytes) : bytes :=
  if c_PromptOnlyInput cfg && c_Ephemeral cfg && negb (blank_b (c_EmptyVisibleFallback cfg))
  then emptyVisibleFallback
  else match text with [] => h_ModelRefused h | _ => text end.

(** What the stop reason of a published answer leads to. *)
Definition after_answer (turnTools : list ToolDefinition) (resp : CompletionResponse) : M unit :=
  x ← get;
  if shouldRecoverTruncatedToolUse resp (l_recoveries x) then answer_cut (p_Content resp)
  else if String.eqb (p_StopReason resp) "end_turn" || String.eqb (p_StopReason resp) "max_tokens" then
    _ ← modify (fun x => stop_reason (terminalRunReason (l_outcome x) (p_StopReason resp)) x);
    returns (l_text x)
  else if String.eqb (p_StopReason resp) "refusal" then
    _ ← modify (stop_reason RunStopRefusal);
    returns (refusal_text (l_text x))
  else if String.eqb (p_StopReason resp) "tool_use" then tool_turn turnTools (p_Content resp)
  else returns (l_text x).

(** [text]: what the answer adds to the reply. *)
Definition publish (resp : CompletionResponse) (text : bytes) (turnTools : list ToolDefinition) : M unit :=
  let m := MkMessage "assistant" (p_Content resp) in
  _ ← persist m;
  _ ← modify (fun x => set_passes (l_continuations x) (l_revisions x) (l_recoveries x) []
                 (set_text (appendTurnText (l_text x) text)
                    (set_convo (l_convo x ++ [m]) x)));
  _ ← checkpoint "model_completed" None;
  after_answer turnTools resp.

(** The answer is cut in its visible text: the model continues it, without
    tools. *)
Definition continue_answer (resp : CompletionResponse) : M unit :=
  let text := ExtractText (p_Content resp) in
  modify (fun x =>
    let x := set_passes (l_continuations x + 1) (l_revisions x) (l_recoveries x)
               (appendTurnText (l_pendingText x) text) x in
    let x := if is_none (h_validate h) then set_text (appendTurnText (l_text x) text) x else x in
    extend_turns (force_final (set_convo (l_convo x
      ++ [MkMessage "assistant" (p_Content resp); maxTokenContinuationMessage]) x))).

(** The draft goes back to the model, unseen; its turn is not counted. *)
Definition send_back (draft : list ContentBlock) (feedback : bytes) : M unit :=
  modify (fun x =>
    let x := set_passes (l_continuations x) (l_revisions x + 1) (l_recoveries x) [] x in
    set_limits (l_maxTurns x + 1) (l_turn x) (l_toolTurns x) (l_forceFinal x) (l_deadlineUsed x)
      (set_convo (l_convo x ++ [MkMessage "assistant" draft; responseRevisionMessage feedback]) x)).

Definition settle_answer (turnTools : list ToolDefinition) (resp : CompletionResponse)
    (usedFallback : bool) : M unit :=
  x ← get;
  if negb usedFallback && shouldAutoContinueMaxTokens resp (l_continuations x) then continue_answer resp
  else
    let content := match l_pendingText x with
                   | [] => p_Content resp
                   | text => [text_content (mergeContinuationText text (ExtractText (p_Content resp)))]
                   end in
    checked ← validateResponse content
      (negb (l_forceFinal x) && negb usedFallback && Z.ltb (l_revisions x) maxResponseRevisions);
    match checked with
    | inr feedback => send_back content feedback
    | inl content =>
        publish (replace_content content resp)
          (if is_none (h_validate h) then ExtractText (p_Content resp) else ExtractText content) turnTools
    end.

Definition begin_turn (late : bool) (x : vars) : vars :=
  let x := set_limits (l_maxTurns x) (l_turn x + 1) (l_toolTurns x) (l_forceFinal x || late)
             (l_deadlineUsed x) x in
  set_outcome (MkRunOutcome (Reason (l_outcome x)) (l_turn x) (o_ToolTurns (l_outcome x))
                 (ProviderStopReason (l_outcome x))) x.

Definition turn : M unit :=
  late ← past_deadline;
  _ ← modify (begin_turn late);
  x ← get;
  let q := turn_request (turnContextAnchor (p_convo p)) x in
  resp ← call_model (l_forceFinal x) q;
  _ ← modify (fun x => set_outcome (MkRunOutcome (Reason (l_outcome x)) (o_Turns (l_outcome x))
                 (o_ToolTurns (l_outcome x)) (p_StopReason resp)) x);
  filled ← fill_empty resp;
  settle_answer (q_Tools q) (fst filled) (snd filled).

(** ** The run *)

(** [None]: out of fuel. *)
Fixpoint turns (fuel : nat) (s : st) : option (flow unit * st) :=
  match fuel with
  | O => None
  | S fuel =>
      if Z.leb (l_maxTurns (v s)) (l_turn (v s)) then
        let x := stop_reason RunStopTurnLimit (v s) in
        Some ((match l_text x, l_traces x with [], [] => Fails ETurnLimit | text, _ => Ret text end),
              MkSt (steps s) (trace s) x)
      else match turn s with
           | (Go _, s') => turns fuel s'
           | r => Some r
           end
  end.

Definition start : vars :=
  let tools := withToolboxTool cfg (selectTools (h_roleTools h) (h_registry h) cfg) in
  MkVars (p_convo p) tools [] [] [] (c_MaxTurns cfg) 0 0 false false 0 0 0 []
    (MkRunOutcome RunStopProviderStop 0 0 "").

Record RunResult := MkRunResult { rr_Text : bytes; rr_ToolTraces : list CallTrace }.
(** The result, kept on an error when there is one, the error and the reported
    outcome. *)
Definition conclude (r : flow unit) (s : st) : option RunResult * option run_error * RunOutcome :=
  let x := v s in
  let cancelled := h_cancelled h (steps s) in
  match r with
  | Ret text => (Some (MkRunResult text (l_traces x)), None, finishRunOutcome cancelled (l_outcome x) None)
  | Fails e => (match l_text x, l_traces x with
                | [], [] => None
                | text, traces => Some (MkRunResult text traces)
                end, Some e, finishRunOutcome cancelled (l_outcome x) (Some e))
  | Go _ => (None, None, l_outcome x)
  end.
(** [initial]: the results the caller already has. *)
Definition RunTracked (fuel : nat) (initial : list ToolExecutionResult)
    : option (option RunResult * option run_error * RunOutcome * list event) :=
  '(r, s) ← turns fuel (MkSt 0 [] (fold_left (fun x t => add_receipt t x) initial start));
  Some (conclude r s, trace s).
End loop.
