(* ===== verification/AgentLoopInv.v ===== *)
(** * AgentLoopInv: a logic for the agent loop, and its end

    Partial-correctness triples over the loop of AgentLoop with a condition for
    the early returns, the rules for a predicate of the variables alone, and the
    bound on an agent turn ([agent_turns_bounded]): what is left of the turns and
    of the one-off extensions decreases with every turn. *)

From Stdlib Require Import Ascii String.
From S2P Require Import Prelude GoStrings Json GoJson Task Conversation AgentText Registry AgentTools AgentLoop.

Local Open Scope Z_scope.

Section logic.
Context {Handler : Type}.
Implicit Types s : st.

(** ** A logic for the loop: [Q] at its end, [E] where it stops early *)

Definition stopped_with : Type := bytes + run_error.
Definition ltriple {A} (P : st -> Prop) (m : M A) (Q : A -> st -> Prop) (E : stopped_with -> st -> Prop)
    : Prop :=
  forall s, P s -> match m s with
                   | (Go a, s') => Q a s'
                   | (Ret t, s') => E (inl t) s'
                   | (Fails e, s') => E (inr e) s'
                   end.

Lemma ltriple_ret {A} (P : st -> Prop) (a : A) Q E : (forall s, P s -> Q a s) -> ltriple P (mret a) Q E.
Proof. intros H s Hs. by apply H. Qed.
Lemma ltriple_bind {A B} (P : st -> Prop) (m : M A) (k : A -> M B) R Q E :
  ltriple P m R E -> (forall a, ltriple (R a) (k a) Q E) -> ltriple P (m ≫= k) Q E.
Proof.
  intros Hm Hk s Hs. unfold mbind, M_bind. specialize (Hm s Hs).
  destruct (m s) as [[a|t|e] s']; [by apply Hk|done|done].
Qed.
Lemma ltriple_ask {A} (P : st -> Prop) (f : nat -> A) Q E :
  (forall s, P s -> Q (f (steps s)) (MkSt (S (steps s)) (trace s) (v s))) -> ltriple P (ask f) Q E.
Proof. intros H s Hs. by apply H. Qed.
Lemma ltriple_emit (P : st -> Prop) ev Q E :
  (forall s, P s -> Q tt (MkSt (steps s) (trace s ++ [ev]) (v s))) -> ltriple P (emit ev) Q E.
Proof. intros H s Hs. by apply H. Qed.
Lemma ltriple_get (P : st -> Prop) Q E : (forall s, P s -> Q (v s) s) -> ltriple P get Q E.
Proof. intros H s Hs. by apply H. Qed.
Lemma ltriple_modify (P : st -> Prop) f Q E :
  (forall s, P s -> Q tt (MkSt (steps s) (trace s) (f (v s)))) -> ltriple P (modify f) Q E.
Proof. intros H s Hs. by apply H. Qed.
Lemma ltriple_returns {A} (P : st -> Prop) t Q (E : stopped_with -> st -> Prop) :
  (forall s, P s -> E (inl t) s) -> ltriple P (returns (A := A) t) Q E.
Proof. intros H s Hs. by apply H. Qed.
Lemma ltriple_fails {A} (P : st -> Prop) e Q (E : stopped_with -> st -> Prop) :
  (forall s, P s -> E (inr e) s) -> ltriple P (fails (A := A) e) Q E.
Proof. intros H s Hs. by apply H. Qed.
Lemma ltriple_conseq {A} (P P' : st -> Prop) (m : M A) Q Q' E :
  (forall s, P s -> P' s) -> (forall a s, Q' a s -> Q a s) -> ltriple P' m Q' E -> ltriple P m Q E.
Proof.
  intros HP HQ Hm s Hs. specialize (Hm s (HP s Hs)). destruct (m s) as [[]]; [by apply HQ|done|done].
Qed.
(** Reading the variables. *)
Lemma ltriple_read {B} (P : st -> Prop) (k : vars -> M B) Q E :
  (forall x, ltriple (fun s => P s /\ v s = x) (k x) Q E) -> ltriple P (get ≫= k) Q E.
Proof. intros H. eapply ltriple_bind; [apply ltriple_get|intros x; apply H]. by split. Qed.
Lemma ltriple_false {A} (P : st -> Prop) (m : M A) Q E : (forall s, P s -> False) -> ltriple P m Q E.
Proof. intros H s Hs. destruct (H s Hs). Qed.

(** A step that writes no variable. *)
Definition reads {A} (m : M A) : Prop :=
  forall s, match m s with (_, s') => v s' = v s end.
Lemma reads_bind {A B} (m : M A) (k : A -> M B) : reads m -> (forall a, reads (k a)) -> reads (m ≫= k).
Proof.
  intros Hm Hk s. unfold mbind, M_bind. specialize (Hm s). destruct (m s) as [[a|t|e] s']; [|done|done].
  specialize (Hk a s'). destruct (k a s') as [? s'']. by rewrite Hk.
Qed.
Lemma ltriple_reads {A} (I : vars -> Prop) (m : M A) :
  reads m -> ltriple (fun s => I (v s)) m (fun _ s => I (v s)) (fun _ _ => True).
Proof.
  intros Hm s Hs. specialize (Hm s). destruct (m s) as [[] s']; [|done|done]. by rewrite Hm.
Qed.
(** Of the variables only, where the loop goes on. *)
Definition hold {A} (I : vars -> Prop) (m : M A) (J : vars -> Prop) : Prop :=
  ltriple (fun s => I (v s)) m (fun _ s => J (v s)) (fun _ _ => True).

Lemma hold_ret {A} (I : vars -> Prop) (a : A) : hold I (mret a) I.
Proof. by apply ltriple_ret. Qed.
Lemma hold_bind {A B} I J K (m : M A) (k : A -> M B) :
  hold I m J -> (forall a, hold J (k a) K) -> hold I (m ≫= k) K.
Proof. intros Hm Hk. eapply ltriple_bind; [exact Hm|exact Hk]. Qed.
Lemma hold_modify (I J : vars -> Prop) f : (forall x, I x -> J (f x)) -> hold I (modify f) J.
Proof. intros H. apply ltriple_modify. intros s. apply H. Qed.
Lemma hold_read {B} (I J : vars -> Prop) (k : vars -> M B) :
  (forall x, I x -> hold (fun y => y = x) (k x) J) -> hold I (get ≫= k) J.
Proof. intros H. apply ltriple_read. intros x s [Hs <-]. by apply H. Qed.
Lemma hold_stop {A} (I J : vars -> Prop) t : hold I (returns (A := A) t) J.
Proof. by apply ltriple_returns. Qed.
Lemma hold_fail {A} (I J : vars -> Prop) e : hold I (fails (A := A) e) J.
Proof. by apply ltriple_fails. Qed.
Lemma hold_weaken {A} (I I' J : vars -> Prop) (m : M A) :
  (forall x, I x -> I' x) -> hold I' m J -> hold I m J.
Proof. intros H. apply ltriple_conseq; [|done]. intros s. apply H. Qed.
Lemma hold_reads {A} (I : vars -> Prop) (m : M A) : reads m -> hold I m I.
Proof. apply ltriple_reads. Qed.
End logic.

Lemma reads_atom {A} (m : M A) : (forall s, v (snd (m s)) = v s) -> reads m.
Proof. intros H s. specialize (H s). by destruct (m s). Qed.
Ltac reads_tac :=
  repeat match goal with
         | |- forall _, reads _ => intros ?
         | |- reads (_ ≫= _) => apply reads_bind
         | |- reads (match ?x with _ => _ end) => destruct x
         | |- reads (let '(_, _) := ?x in _) => destruct x
         | |- reads _ => by apply reads_atom
         end.

Section bounds.
Context {Handler : Type} (h : agent_host (Handler := Handler)) (cfg : RunConfig) (p : prepared).

Lemma checkpoint_reads phase pending : reads (checkpoint h phase pending).
Proof. unfold checkpoint. reads_tac. Qed.
Lemma persist_reads m : reads (persist h cfg m).
Proof. unfold persist. reads_tac. Qed.
Lemma past_deadline_reads : reads (past_deadline h cfg).
Proof. unfold past_deadline. reads_tac. Qed.
Lemma complete_reads w q : reads (complete h w q).
Proof. unfold complete. reads_tac. Qed.
Lemma call_model_reads w q : reads (call_model h w q).
Proof. unfold call_model. apply reads_bind; [apply complete_reads|]. intros. case_match; [apply complete_reads|done]. Qed.
Lemma dispatch_reads b : reads (dispatch h cfg b).
Proof. unfold dispatch. reads_tac. Qed.
Lemma batch_reads l : reads (startReadBatch h cfg l).
Proof.
  induction l as [|b l IH]; [done|]. simpl. apply reads_bind; [|intros; apply reads_bind; [done|done]].
  unfold batch_read. apply reads_bind; [done|]. intros [?|]; [done|apply dispatch_reads].
Qed.

(** ** The bound *)

Definition b2z (b : bool) : Z := if b then 1 else 0.
Definition rank (x : vars) : Z :=
  (l_maxTurns x - l_turn x) + (1 - l_continuations x) + (1 - l_revisions x) + (2 - l_recoveries x)
  + b2z (negb (l_forceFinal x)) + b2z (negb (l_deadlineUsed x)).
Record within (n : Z) (x : vars) : Prop := {
  wi_rank : rank x <= n;
  wi_turn : l_turn x <= l_maxTurns x;
  wi_cont : l_continuations x <= 1;
  wi_rev : l_revisions x <= 1;
  wi_rec : l_recoveries x <= 2;
}.

(** A write to another variable. *)
Ltac same_counts := let H := fresh in intros ? H; subst; match goal with W : within _ _ |- _ => destruct W; by constructor end.

Lemma answer_cut_within n content :
  hold (fun x => within n x /\ l_recoveries x < 2) (answer_cut h cfg content) (within n).
Proof.
  unfold answer_cut. eapply hold_bind with (J := within (n - 1)).
  { apply hold_modify. intros x [[Hr Ht Hc Hv Hk] Hlt]. split; unfold rank in *; simpl in *; lia. }
  intros u. destruct (truncatedToolUseResults _ _) as [results traces].
  eapply hold_bind with (J := within (n - 1)); [apply hold_modify; same_counts|].
  intros u1. eapply hold_bind; [apply hold_reads, persist_reads|]. intros u2. apply hold_modify.
  intros x [Hr Ht Hc Hv Hk].
  unfold extend_turns, spend_budget, force_final, stop_reason, over_budget.
  split; unfold rank in *; destruct (Z.leb (toolTurnLimit cfg) _); simpl;
    repeat case_match; bool_to_prop; destruct (l_forceFinal x); simpl in *; lia.
Qed.

Lemma run_call_within n tools ready b : hold (within n) (run_call h cfg tools ready b) (within n).
Proof.
  unfold run_call. apply hold_read. intros x Hx. destruct (_ || _).
  { eapply (hold_bind _ (within n)); [apply hold_modify; same_counts|]. intros. apply hold_ret. }
  destruct (_ && _).
  { eapply (hold_bind _ (within n)); [apply hold_modify; same_counts|]. intros. apply hold_ret. }
  eapply hold_bind; [apply hold_reads, checkpoint_reads|]. intros u.
  eapply (hold_bind _ (fun y => y = x)).
  { destruct ready; [apply hold_ret|apply hold_reads, dispatch_reads]. }
  intros [[output isError] timedOut]. eapply (hold_bind _ (within n)).
  { apply hold_modify; same_counts. }
  intros u1. eapply hold_bind; [apply hold_reads, checkpoint_reads|]. intros. apply hold_ret.
Qed.

Lemma run_calls_within n tools calls : forall ready,
  hold (within n) (run_calls h cfg tools ready calls) (within n).
Proof.
  induction calls as [|b calls IH]; intros ready; [apply hold_ret|]. simpl.
  eapply hold_bind; [apply run_call_within|]. intros r. eapply hold_bind; [apply IH|]. intros. apply hold_ret.
Qed.

Lemma tool_turn_within n tools content : hold (within n) (tool_turn h cfg tools content) (within n).
Proof.
  unfold tool_turn. eapply hold_bind; [apply hold_reads, past_deadline_reads|]. intros late.
  eapply hold_bind with (J := within n).
  { apply hold_modify. intros x [Hr Ht Hc Hv Hk]. destruct late; split; unfold rank in *; simpl in *;
      try destruct (l_forceFinal x); simpl in *; lia. }
  intros u. apply hold_read. intros x0 Hx0.
  apply (hold_weaken _ (within n)); [by intros x ->|].
  eapply hold_bind with (J := within n).
  { destruct (_ && _); [|apply hold_ret].
    eapply hold_bind; [apply hold_reads, checkpoint_reads|]. intros. apply hold_reads, batch_reads. }
  intros ready. eapply hold_bind; [apply run_calls_within|]. intros results.
  destruct results as [|r results]; [apply hold_read; intros; apply hold_stop|].
  eapply hold_bind; [apply hold_reads, persist_reads|]. intros u1.
  eapply hold_bind with (J := within n); [apply hold_modify; same_counts|]. intros u2.
  apply hold_read. intros x Hx. destruct (l_forceFinal x) eqn:Hf.
  - eapply hold_bind; [apply hold_reads, past_deadline_reads|]. intros late1.
    destruct (negb (l_deadlineUsed x) && late1) eqn:Hd.
    + apply hold_modify. intros y ->. destruct Hx as [Hr Ht Hc Hv Hk].
      apply andb_true_iff in Hd as [Hd _]. apply negb_true_iff in Hd.
      unfold extend_turns. split; unfold rank in *; rewrite ?Hf, ?Hd in *; simpl in *;
        repeat case_match; bool_to_prop; simpl in *; lia.
    + eapply hold_bind with (J := fun _ => True); [by apply hold_modify|].
      intros u3. apply hold_read. intros. apply hold_stop.
  - destruct (over_budget cfg x); [|by apply ltriple_ret; intros s ->].
    apply hold_modify. intros y ->. destruct Hx as [Hr Ht Hc Hv Hk].
    unfold extend_turns, spend_budget, force_final, stop_reason.
    split; unfold rank in *; rewrite ?Hf in *; simpl in *; repeat case_match; bool_to_prop; simpl in *; lia.
Qed.

Lemma publish_within n resp text tools : hold (within n) (publish h cfg resp text tools) (within n).
Proof.
  unfold publish. eapply hold_bind; [apply hold_reads, persist_reads|]. intros u.
  eapply hold_bind with (J := within n); [apply hold_modify; same_counts|]. intros u1.
  eapply hold_bind; [apply hold_reads, checkpoint_reads|]. intros u2.
  unfold after_answer. apply hold_read. intros x Hx.
  destruct (shouldRecoverTruncatedToolUse _ _) eqn:Hs.
  { apply (hold_weaken _ (fun x => within n x /\ l_recoveries x < 2)); [|apply answer_cut_within].
    intros y ->. split; [done|]. unfold shouldRecoverTruncatedToolUse, maxTruncatedToolRecoveries in Hs.
    bool_to_prop. lia. }
  destruct (_ || _).
  { eapply hold_bind with (J := fun _ => True); [by apply hold_modify|]. intros. apply hold_stop. }
  destruct (String.eqb _ "refusal").
  { eapply hold_bind with (J := fun _ => True); [by apply hold_modify|]. intros. apply hold_stop. }
  destruct (String.eqb _ "tool_use"); [|apply hold_stop].
  apply (hold_weaken _ (within n)); [by intros y ->|]. apply tool_turn_within.
Qed.

Lemma validate_revisable x content revisable :
  ltriple (fun s => v s = x) (validateResponse h content revisable)
    (fun r s => v s = x /\ forall f, r = inr f -> revisable = true /\ pending_tools content = [])
    (fun _ _ => True).
Proof.
  unfold validateResponse. destruct (h_validate h) as [validate|]; [|by apply ltriple_ret].
  destruct (blank_b _); [by apply ltriple_ret|]. apply ltriple_read. intros y.
  eapply ltriple_bind; [by apply ltriple_ask with (Q := fun _ s => v s = x); intros s [-> _]|].
  intros [safe|feedback|c]; [|destruct (_ && _) eqn:Hr|by apply ltriple_fails].
  - destruct (bool_decide _); [|destruct (_ && _); [by apply ltriple_fails|]];
      (eapply ltriple_bind; [by apply ltriple_emit with (Q := fun _ s => v s = x)|by intros; apply ltriple_ret]).
  - apply ltriple_ret. intros s ->. split; [done|]. intros f [= <-]. by bool_to_prop.
  - by apply ltriple_fails.
Qed.

Lemma settle_answer_within n tools resp fb :
  hold (within n) (settle_answer h cfg tools resp fb) (within n).
Proof.
  unfold settle_answer. apply hold_read. intros x Hx. destruct (_ && shouldAutoContinueMaxTokens _ _) eqn:Hc.
  - apply andb_true_iff in Hc as [_ Hc]. unfold shouldAutoContinueMaxTokens, maxTokenContinuationPasses in Hc.
    unfold continue_answer. apply hold_modify. intros y ->. destruct Hx as [Hr Ht Hcc Hv Hk]. bool_to_prop.
    unfold extend_turns, force_final. split; unfold rank in *; destruct (is_none (h_validate h)); simpl in *;
      repeat case_match; bool_to_prop; destruct (l_forceFinal x); simpl in *; lia.
  - cbv zeta. eapply ltriple_bind; [apply validate_revisable|]. intros [content|feedback].
    + apply (ltriple_conseq _ (fun s => within n (v s)) _ _ (fun _ s => within n (v s)));
        [by intros s [-> _]|done|]. apply publish_within.
    + apply ltriple_modify. intros s [-> Hf]. destruct (Hf _ eq_refl) as [Hrev _].
      destruct Hx as [Hr Ht Hcc Hv Hk]. unfold maxResponseRevisions in Hrev. bool_to_prop.
      split; unfold rank in *; simpl in *; lia.
Qed.

Lemma fill_empty_within n resp : hold (within n) (fill_empty h cfg resp) (within n).
Proof.
  unfold fill_empty. destruct (_ && _); [|apply hold_ret].
  eapply hold_bind; [by apply ltriple_reads|]. intros []; [apply hold_fail|].
  eapply hold_bind with (J := within n); [apply hold_modify; same_counts|]. intros. apply hold_ret.
Qed.

(** A turn that leads to another uses up one of the turns left. *)
Lemma turn_within n :
  hold (fun x => within n x /\ l_turn x < l_maxTurns x) (turn h cfg p) (within (n - 1)).
Proof.
  unfold turn. eapply hold_bind; [apply hold_reads, past_deadline_reads|]. intros late.
  eapply hold_bind with (J := within (n - 1)).
  { apply hold_modify. intros x [[Hr Ht Hc Hv Hk] Hlt]. unfold begin_turn.
    split; unfold rank in *; destruct late; simpl in *; try destruct (l_forceFinal x); simpl in *; lia. }
  intros u. apply hold_read. intros x Hx. apply (hold_weaken _ (within (n - 1))); [by intros y ->|].
  eapply hold_bind; [apply hold_reads, call_model_reads|]. intros resp.
  eapply hold_bind with (J := within (n - 1)); [apply hold_modify; same_counts|]. intros u1.
  eapply hold_bind; [apply fill_empty_within|]. intros [r fb]. apply settle_answer_within.
Qed.

(** ** Counting *)

Definition models (t : list event) : Z := Z.of_nat (length (List.filter (fun e => match e with EvModel _ _ => true | _ => false end) t)).
Lemma models_app t t' : models (t ++ t') = models t + models t'.
Proof. unfold models. rewrite List.filter_app, length_app. lia. Qed.

(** A step that neither asks the model nor begins a turn. *)
Definition quiet {A} (m : M A) : Prop :=
  forall s, match m s with (_, s') =>
    models (trace s') = models (trace s) /\ l_turn (v s') = l_turn (v s)
    /\ o_Turns (l_outcome (v s')) = o_Turns (l_outcome (v s)) end.
Lemma quiet_bind {A B} (m : M A) (k : A -> M B) : quiet m -> (forall a, quiet (k a)) -> quiet (m ≫= k).
Proof.
  intros Hm Hk s. unfold mbind, M_bind. specialize (Hm s). destruct (m s) as [[a|t|e] s']; [|done|done].
  specialize (Hk a s'). destruct (k a s') as [? s'']. intuition congruence.
Qed.
Lemma quiet_emit e : (forall q w, e <> EvModel q w) -> quiet (emit e).
Proof. intros He s. simpl. rewrite models_app. split_and!; [|done..]. destruct e; try (unfold models at 2; simpl; lia). by destruct (He q withheld). Qed.
Lemma quiet_modify f :
  (forall x, l_turn (f x) = l_turn x /\ o_Turns (l_outcome (f x)) = o_Turns (l_outcome x)) -> quiet (modify f).
Proof. intros Hf s. simpl. by destruct (Hf (v s)). Qed.
Lemma quiet_atom {A} (m : M A) :
  (forall s, trace (snd (m s)) = trace s /\ v (snd (m s)) = v s) -> quiet m.
Proof. intros H s. specialize (H s). destruct (m s) as [? s']. simpl in H. by destruct H as [-> ->]. Qed.

Ltac quiet_tac :=
  repeat match goal with
         | |- forall _, quiet _ => intros ?
         | |- quiet (_ ≫= _) => apply quiet_bind
         | |- quiet (emit _) => apply quiet_emit; intros; discriminate
         | |- quiet (modify _) => apply quiet_modify; intros; repeat case_match; by split
         | |- quiet (match ?x with _ => _ end) => destruct x
         | |- quiet (let '(_, _) := ?x in _) => destruct x
         | |- quiet _ => solve [eauto with quiet]
         | |- quiet _ => by apply quiet_atom
         end.
Create HintDb quiet.
Lemma checkpoint_quiet phase pending : quiet (checkpoint h phase pending).
Proof. unfold checkpoint. quiet_tac. Qed.
Lemma persist_quiet m : quiet (persist h cfg m).
Proof. unfold persist. quiet_tac. Qed.
Lemma past_deadline_quiet : quiet (past_deadline h cfg).
Proof. unfold past_deadline. quiet_tac. Qed.
Lemma dispatch_quiet b : quiet (dispatch h cfg b).
Proof. unfold dispatch. quiet_tac. Qed.
#[local] Hint Resolve checkpoint_quiet persist_quiet past_deadline_quiet dispatch_quiet : quiet.
Lemma batch_quiet l : quiet (startReadBatch h cfg l).
Proof. induction l; simpl; unfold batch_read; quiet_tac. Qed.
Lemma run_call_quiet tools ready b : quiet (run_call h cfg tools ready b).
Proof. unfold run_call. quiet_tac. Qed.
#[local] Hint Resolve batch_quiet run_call_quiet : quiet.
Lemma run_calls_quiet tools calls : forall ready, quiet (run_calls h cfg tools ready calls).
Proof. induction calls; intros; simpl; quiet_tac. Qed.
#[local] Hint Resolve run_calls_quiet : quiet.
Lemma tool_turn_quiet tools content : quiet (tool_turn h cfg tools content).
Proof. unfold tool_turn. quiet_tac. Qed.
Lemma answer_cut_quiet content : quiet (answer_cut h cfg content).
Proof. unfold answer_cut. quiet_tac. Qed.
#[local] Hint Resolve tool_turn_quiet answer_cut_quiet : quiet.
Lemma publish_quiet resp text tools : quiet (publish h cfg resp text tools).
Proof. unfold publish, after_answer. quiet_tac. Qed.
Lemma validate_quiet content r : quiet (validateResponse h content r).
Proof. unfold validateResponse. quiet_tac. Qed.
Lemma fill_empty_quiet resp : quiet (fill_empty h cfg resp).
Proof. unfold fill_empty. quiet_tac. Qed.
#[local] Hint Resolve publish_quiet validate_quiet fill_empty_quiet : quiet.
Lemma settle_quiet tools resp fb : quiet (settle_answer h cfg tools resp fb).
Proof. unfold settle_answer, continue_answer, send_back. quiet_tac. Qed.
#[local] Hint Resolve settle_quiet : quiet.

(** At most [a] requests in [b] turns. *)
Definition counted (a b : Z) (s : st) : Prop :=
  models (trace s) <= a /\ l_turn (v s) = b /\ o_Turns (l_outcome (v s)) = b.
Lemma quiet_counted {A} a b (m : M A) :
  quiet m -> ltriple (counted a b) m (fun _ => counted a b) (fun _ => counted a b).
Proof.
  intros Hm s (Ha & Hb & Ho). specialize (Hm s). destruct (m s) as [[] s'];
    destruct Hm as (Em & Et & Eo); unfold counted; rewrite Em, Et, Eo; by split_and!.
Qed.
Lemma complete_counted a b w q :
  ltriple (counted a b) (complete h w q) (fun _ => counted (a + 1) b) (fun _ => counted (a + 1) b).
Proof.
  unfold complete. eapply ltriple_bind with (R := fun _ => counted (a + 1) b).
  - intros s (Ha & Hb & Ho). simpl. unfold counted. simpl. rewrite models_app.
    split_and!; [unfold models at 2; simpl; lia|done..].
  - intros u. apply quiet_counted. quiet_tac.
Qed.
Lemma call_model_counted a b w q :
  ltriple (counted a b) (call_model h w q) (fun _ => counted (a + 2) b) (fun _ => counted (a + 2) b).
Proof.
  assert (Hup : forall s, counted (a + 1) b s -> counted (a + 2) b s) by (intros s (?&?&?); split; [lia|done]).
  intros s Hs. unfold call_model, mbind, M_bind. pose proof (complete_counted a b w q s Hs) as H1.
  destruct (complete h w q s) as [[resp|t|e] s']; [|by apply Hup..].
  destruct (shouldRetryEmptyVisibleOutput resp q); [|by apply Hup].
  pose proof (complete_counted (a + 1) b w (withoutReasoning q) s' H1) as H2.
  by replace (a + 2) with (a + 1 + 1) by lia.
Qed.
Lemma turn_counted a b :
  ltriple (counted a b) (turn h cfg p) (fun _ => counted (a + 2) (b + 1)) (fun _ => counted (a + 2) (b + 1)).
Proof.
  unfold turn. eapply ltriple_bind with (R := fun _ => counted a b).
  { unfold past_deadline. destruct (IsZero _); [by apply ltriple_ret|].
    eapply ltriple_bind; [by apply ltriple_ask with (Q := fun _ => counted a b)|].
    intros. by apply ltriple_ret. }
  intros late. eapply ltriple_bind with (R := fun _ => counted a (b + 1)).
  { apply ltriple_modify. intros s (Ha & Hb & Ho). unfold counted, begin_turn. simpl. by rewrite Hb. }
  intros u. apply ltriple_read. intros x. cbv zeta. eapply ltriple_bind.
  { eapply ltriple_conseq; [|done|apply call_model_counted]. by intros s [Hs _]. }
  intros resp. apply quiet_counted. quiet_tac.
Qed.

Definition stopped (r : flow unit) : Prop := match r with Go _ => False | _ => True end.
Lemma turns_bounded fuel : forall n N s,
  within n (v s) -> counted (2 * l_turn (v s)) (l_turn (v s)) s -> l_turn (v s) + n <= N ->
  n < Z.of_nat fuel ->
  exists r s', turns h cfg p fuel s = Some (r, s') /\ stopped r
    /\ counted (2 * l_turn (v s')) (l_turn (v s')) s' /\ l_turn (v s') <= N.
Proof.
  induction fuel as [|fuel IH]; intros n N s Hw Hc HN Hn.
  - destruct Hw as [Hr Ht Hcc Hv Hk]. unfold rank in Hr. destruct (l_forceFinal _), (l_deadlineUsed _); simpl in *; lia.
  - assert (0 <= n) by (destruct Hw as [Hr Ht ?? Hk]; unfold rank in Hr;
      destruct (l_forceFinal _), (l_deadlineUsed _); simpl in *; lia).
    simpl. destruct (Z.leb_spec (l_maxTurns (v s)) (l_turn (v s))) as [Hge|Hlt].
    { eexists _, _. split; [done|]. simpl. destruct Hc as (?&?&?). split_and!; [by repeat case_match|done..|lia]. }
    assert (1 <= n) by (destruct Hw as [Hr Ht ?? Hk]; unfold rank in Hr;
      destruct (l_forceFinal _), (l_deadlineUsed _); simpl in *; lia).
    pose proof (turn_within n s (conj Hw Hlt)) as Hstep.
    pose proof (turn_counted _ _ s Hc) as Hcount.
    replace (2 * l_turn (v s) + 2) with (2 * (l_turn (v s) + 1)) in Hcount by lia.
    destruct (turn h cfg p s) as [[u|t|e] s']; pose proof (proj1 (proj2 Hcount)) as Hturn;
      rewrite <-Hturn in Hcount.
    + apply (IH (n - 1)); [done|done|lia|lia].
    + eexists _, _. split_and!; [done|done|apply Hcount..|lia].
    + eexists _, _. split_and!; [done|done|apply Hcount..|lia].
Qed.

Lemma receipts_within n initial : forall x, within n x -> within n (fold_left (fun x t => add_receipt t x) initial x).
Proof. induction initial as [|t l IH]; intros x Hx; [done|]. apply IH. destruct Hx; by constructor. Qed.
Lemma receipts_counts initial : forall x,
  l_turn (fold_left (fun x t => add_receipt t x) initial x) = l_turn x
  /\ o_Turns (l_outcome (fold_left (fun x t => add_receipt t x) initial x)) = o_Turns (l_outcome x).
Proof. induction initial as [|t l IH]; intros x; [done|]. simpl. by destruct (IH (add_receipt t x)) as [-> ->]. Qed.

(** C16: An agent turn ends, whatever the model, the tools and the validator answer,
    with a reply or an error: after at most six turns more than configured (one
    continuation of a cut answer, one revision of a draft, two recoveries of a
    cut tool call, one closing turn after the tool budget and one after the
    deadline), each of at most two requests to the model. *)
Theorem agent_turns_bounded fuel initial :
  Z.max (c_MaxTurns cfg) 0 + 7 <= Z.of_nat fuel ->
  exists r e o events,
    RunTracked h cfg p fuel initial = Some (r, e, o, events) /\ (is_Some r \/ is_Some e)
    /\ o_Turns o <= Z.max (c_MaxTurns cfg) 0 + 6 /\ models events <= 2 * o_Turns o.
Proof.
  intros Hfuel. unfold RunTracked. set (x0 := fold_left _ _ _).
  destruct (receipts_counts initial (start h cfg p)) as [Ht Ho]. fold x0 in Ht, Ho. simpl in Ht, Ho.
  assert (Hdone : exists r s', turns h cfg p fuel (MkSt 0 [] x0) = Some (r, s') /\ stopped r
    /\ counted (2 * l_turn (v s')) (l_turn (v s')) s' /\ l_turn (v s') <= Z.max (c_MaxTurns cfg) 0 + 6).
  { destruct (Z.leb_spec 0 (c_MaxTurns cfg)) as [Hle|Hneg].
    - apply turns_bounded with (n := c_MaxTurns cfg + 6); simpl; [|by rewrite Ht; split_and!|lia..].
      apply receipts_within. split; unfold rank; simpl; lia.
    - destruct fuel as [|fuel]; [lia|]. simpl. rewrite Ht.
      assert (Hmax : l_maxTurns x0 < 0).
      { unfold x0. clear -Hneg. assert (H : l_maxTurns (start h cfg p) < 0) by done. revert H.
        generalize (start h cfg p). induction initial as [|t l IH]; intros x H; [done|]. by apply IH. }
      destruct (Z.leb_spec (l_maxTurns x0) 0); [|lia].
      eexists _, _. split; [done|]. unfold counted. simpl. rewrite Ht, Ho.
      split_and!; [by repeat case_match|done..|lia]. }
  destruct Hdone as (r & s' & -> & Hr & (Hm & _ & Ho') & Hn). unfold conclude.
  assert (Hfin : forall c o e, o_Turns (finishRunOutcome c o e) = o_Turns o)
    by (intros c o [e|]; unfold finishRunOutcome; repeat case_match; done).
  destruct r as [u|t|e]; [done|..]; eexists _, _, _, _; (split; [reflexivity|]);
    rewrite Hfin, Ho'; (split; [eauto|by split]).
Qed.
End bounds.
