(* ===== verification/AgentProtocol.v ===== *)
(** * AgentProtocol: what an agent turn may do, and in which order

    A monitor reads the trace of the loop of AgentLoop event by event
    ([permitted], [observe], [follows]); every run follows it whatever the
    model, the tools, the clock and the database answer ([agent_protocol]):
    requests carry histories a provider accepts, a handler runs only for a call
    that is stored, offered, permitted and announced, nothing follows a failed
    write, and only what the validator cleared is stored ([cleared_reply] for
    the text that is returned). *)

From Stdlib Require Import Ascii String.
From S2P Require Import Prelude GoStrings Json GoJson Task Conversation AgentText Registry AgentTools AgentLoop AgentLoopInv.

Local Open Scope Z_scope.

(** ** Answered histories *)

Lemma next_app m a b : unanswered m a = ∅ -> answered a -> unanswered m (a ++ b) = ∅.
Proof.
  intros Hm _. eapply unanswered_mono; [|exact Hm]. destruct a; [|done].
  apply subseteq_empty_l || set_solver.
Qed.
Lemma answered_app a b : answered a -> answered b -> answered (a ++ b).
Proof.
  induction a as [|m a IH]; intros Ha Hb; [done|]. destruct Ha as [Hm Ha]. split; [|by apply IH].
  intros Hr. apply next_app; [by apply Hm|done].
Qed.
Lemma answered_user m : is_role "user" m = true -> answered [m].
Proof. intros Hu%String.eqb_eq. split; [|done]. by rewrite Hu. Qed.

Lemma add_block_results b m : result_ids (Blocks m) ⊆ result_ids (Blocks (add_block b m)).
Proof.
  intros id (c & Hc & Hrest)%elem_result_ids. apply elem_result_ids. exists c.
  split; [|done]. apply elem_of_app. by left.
Qed.
Lemma answered_add_block a b m :
  is_role "user" m = true -> answered (a ++ [m]) -> answered (a ++ [add_block b m]).
Proof.
  intros Hu. induction a as [|m' a IH]; simpl.
  - intros _. by apply (answered_user (add_block b m)).
  - intros [Hm Ha]. split; [|by apply IH]. intros Hr. eapply unanswered_mono; [|by apply Hm].
    destruct a; [apply add_block_results|done].
Qed.
Lemma directive_answered automatic l : answered l -> answered (appendFinalAnswerDirective automatic l).
Proof.
  intros Hl. assert (Hcase : appendFinalAnswerDirective automatic l = l
    \/ exists a m b, is_role "user" m = true /\ l = a ++ [m]
         /\ appendFinalAnswerDirective automatic l = a ++ [add_block b m]).
  { clear Hl. induction l as [|m l IH]; [by left|]. destruct l as [|m' l].
    - simpl. destruct (is_role "user" m) eqn:Hu; [|by left]. right. by exists [], m, (text_content (final_directive automatic)).
    - destruct IH as [IH|(a & x & b & Hu & Hl & IH)].
      + left. change (m :: appendFinalAnswerDirective automatic (m' :: l) = m :: m' :: l). by rewrite IH.
      + right. exists (m :: a), x, b. split; [done|]. split; [by rewrite Hl|].
        change (m :: appendFinalAnswerDirective automatic (m' :: l) = m :: a ++ [add_block b x]). by rewrite IH. }
  destruct Hcase as [->|(a & m & b & Hu & -> & ->)]; [done|]. by apply answered_add_block.
Qed.
(** The turn's context stays with the message it was asked in. *)
Lemma context_answered convo grown context :
  answered convo -> answered grown ->
  answered (withTurnContext (convo ++ grown) (turnContextAnchor convo) context).
Proof.
  intros Hc Hg. unfold withTurnContext. destruct (blank_b context); [by apply answered_app|].
  set (u := text_content _). unfold turnContextAnchor.
  assert (Hu : forall l, answered l -> answered (l ++ [MkMessage "user" [u]])).
  { intros l Hl. apply answered_app; [done|]. by split. }
  destruct (decide (convo = [])) as [->|Hne]; [by apply Hu, answered_app|].
  destruct (exists_last Hne) as (a & m & ->). rewrite length_app, Nat.add_1_r. simpl (match S _ with _ => _ end).
  assert (Hat : ((a ++ [m]) ++ grown) !! length a = Some m).
  { rewrite <-app_assoc, lookup_app_r, Nat.sub_diag by lia. done. }
  rewrite Hat. destruct (is_role "user" m) eqn:Hm.
  - rewrite <-app_assoc, insert_app_r_alt, Nat.sub_diag by lia. simpl.
    rewrite cons_middle, app_assoc. apply answered_app; [by apply answered_add_block|done].
  - replace (S (length a)) with (length (a ++ [m])) by (rewrite length_app; simpl; lia).
    rewrite take_app_length, drop_app_length. apply answered_app; [done|]. by split.
Qed.

(** The results of a turn's calls answer them, as they are stored and as they
    are shown to the model again. *)
Definition result_of (b r : ContentBlock) : Prop := is_type "tool_result" r = true /\ ToolUseID r = ID_ b.
Definition calls_of (content : list ContentBlock) : list ContentBlock := List.filter (is_type "tool_use") content.
Lemma compact_result b r : result_of b r -> result_of b (compactToolResultBlockForPrompt r).
Proof. intros [Hr Hid]. unfold compactToolResultBlockForPrompt. by rewrite Hr. Qed.
Lemma compact_results calls results :
  Forall2 result_of calls results -> Forall2 result_of calls (compactToolResultBlockForPrompt <$> results).
Proof. intros H. induction H; constructor; [by apply compact_result|done]. Qed.
Lemma exchange_answered content results :
  Forall2 result_of (calls_of content) results ->
  answered [MkMessage "assistant" content; MkMessage "user" results].
Proof.
  intros Hr. split; [|by split]. intros _. apply set_eq. intros id. unfold unanswered. cbn [Blocks next_blocks].
  rewrite elem_of_difference, elem_tool_use_ids. split; [|by intros ?%elem_of_empty].
  intros [(b & Hb & Ht & <- & Hne) Hn]. exfalso. apply Hn. apply elem_result_ids.
  assert (Hin : b ∈ calls_of content).
  { apply list_elem_of_In, List.filter_In. by rewrite <-list_elem_of_In. }
  apply list_elem_of_lookup in Hin as [i Hi].
  destruct (Forall2_lookup_l _ _ _ _ _ Hr Hi) as (r & Hri & Hty & Hid).
  exists r. split_and!; [by apply list_elem_of_lookup; exists i|done..].
Qed.
Lemma text_answered content : hasToolUseOutput content = false -> answered [MkMessage "assistant" content].
Proof. intros H. split; [|done]. intros _. by apply no_calls_answered. Qed.

(** ** The protocol *)

(** What the monitor remembers: the request answered last and whether tools
    were withheld from it, what the validator cleared of the answer, the stored
    messages, the announced call or batch, and a failed write. *)
Record watch := MkWatch {
  w_open : option (CompletionRequest * bool);
  w_cleared : option (list ContentBlock);
  w_stored : list Message;
  w_call : option ContentBlock;
  w_batch : bool;
  w_failed : bool;
}.
Definition watch0 : watch := MkWatch None None [] None false false.

Definition observe (w : watch) (e : event) : watch :=
  match e with
  | EvModel q withheld => MkWatch (Some (q, withheld)) None (w_stored w) None false (w_failed w)
  | EvCleared content => MkWatch (w_open w) (Some content) (w_stored w) None false (w_failed w)
  | EvPersist m ok => MkWatch (w_open w) None (if ok then w_stored w ++ [m] else w_stored w) None false (negb ok)
  | EvCheckpoint phase pending ok =>
      MkWatch (w_open w) (w_cleared w) (w_stored w) pending (String.eqb phase "read_batch_started") (negb ok)
  | EvRun _ _ => MkWatch (w_open w) (w_cleared w) (w_stored w) None (w_batch w) (w_failed w)
  | EvShow _ | EvToolShow _ _ _ | EvThinkShow _ | EvToolUseShow _ _ _ | EvUsageShow _ _ => w
  end.

Section protocol.
Context {Handler : Type} (h : agent_host (Handler := Handler)) (cfg : RunConfig) (p : prepared).

Definition is_call (name input : bytes) (b : ContentBlock) : Prop :=
  is_type "tool_use" b = true /\ bName b = name /\ Input b = input.
(** The call is the one the last checkpoint announced, or reads only and belongs
    to an announced batch. *)
Definition announced (w : watch) (name input : bytes) : Prop :=
  h_checkpoint h = None
  \/ (exists b, w_call w = Some b /\ is_call name input b)
  \/ (w_batch w = true /\ IsReadOnly (str name) (h_registry h) = true).
(** The call stands in the message stored last, the model's answer. *)
Definition stored_call (w : watch) (name input : bytes) : Prop :=
  exists before content b, w_stored w = before ++ [MkMessage "assistant" content]
    /\ b ∈ content /\ is_call name input b.

Definition permitted (w : watch) (e : event) : Prop :=
  w_failed w = false /\
  match e with
  | EvModel q withheld =>
      answered (q_Messages q) /\ answered (w_stored w) /\ (withheld = true -> q_Tools q = [])
  | EvPersist m _ =>
      Role m = "assistant"%string -> h_validate h <> None ->
      blank_b (ExtractText (Blocks m)) = true \/ w_cleared w = Some (Blocks m)
  | EvRun name input =>
      (exists q, w_open w = Some (q, false)
         /\ (c_StrictTools cfg = true -> toolDefinitionPresent (q_Tools q) (str name) = true))
      /\ (c_Ephemeral cfg = false -> stored_call w name input)
      /\ Has (str name) (Some (h_registry h)) = true
      /\ (str name <> ""%string -> str name ∉ c_DeniedTools cfg)
      /\ announced w name input
  | EvCleared _ | EvCheckpoint _ _ _ | EvShow _ | EvToolShow _ _ _
  | EvThinkShow _ | EvToolUseShow _ _ _ | EvUsageShow _ _ => True
  end.
Fixpoint follows (w : watch) (t : list event) : Prop :=
  match t with
  | [] => True
  | e :: t => permitted w e /\ follows (observe w e) t
  end.
Definition watched (t : list event) : watch := fold_left observe t watch0.

Lemma follows_app t t' : forall w, follows w (t ++ t') <-> follows w t /\ follows (fold_left observe t w) t'.
Proof. induction t as [|e t IH]; intros w; simpl; [tauto|]. rewrite IH. tauto. Qed.
Lemma follows_snoc t e : follows watch0 (t ++ [e]) <-> follows watch0 t /\ permitted (watched t) e.
Proof. rewrite follows_app. unfold watched. simpl. tauto. Qed.
Lemma watched_snoc t e : watched (t ++ [e]) = observe (watched t) e.
Proof. unfold watched. by rewrite fold_left_app. Qed.

(** ** Invariants of the loop

    Of the variables, the request answered last and the stored messages, while
    no write has failed. *)

Definition fine (s : st) : Prop := follows watch0 (trace s).
Definition okay {A} (P : st -> Prop) (m : M A) (Q : A -> st -> Prop) : Prop :=
  ltriple P m Q (fun _ => fine).
Definition view : Type := vars -> option (CompletionRequest * bool) -> list Message -> Prop.
Definition holds (V : view) (s : st) : Prop :=
  let w := watched (trace s) in
  fine s /\ w_failed w = false /\ V (v s) (w_open w) (w_stored w).

Lemma holds_fine V s : holds V s -> fine s.
Proof. by intros []. Qed.
Lemma okay_bind {A B} P R (m : M A) (k : A -> M B) Q :
  okay P m R -> (forall a, okay (R a) (k a) Q) -> okay P (m ≫= k) Q.
Proof. apply ltriple_bind. Qed.
Lemma okay_conseq {A} (P P' : st -> Prop) (m : M A) Q Q' :
  (forall s, P s -> P' s) -> (forall a s, Q' a s -> Q a s) -> okay P' m Q' -> okay P m Q.
Proof. apply ltriple_conseq. Qed.
Lemma okay_pre {A} (P P' : st -> Prop) (m : M A) Q :
  (forall s, P s -> P' s) -> okay P' m Q -> okay P m Q.
Proof. intros HP. by apply okay_conseq. Qed.
Lemma okay_ret {A} (P : st -> Prop) (a : A) : okay P (mret a) (fun b s => P s /\ b = a).
Proof. by apply ltriple_ret. Qed.
Lemma okay_ask {A} V (f : nat -> A) : okay (holds V) (ask f) (fun _ => holds V).
Proof. by apply ltriple_ask. Qed.
Lemma okay_read {B} V (k : vars -> M B) Q :
  (forall x, okay (holds (fun y o l => V y o l /\ y = x)) (k x) Q) -> okay (holds V) (get ≫= k) Q.
Proof. intros H. apply ltriple_read. intros x s [Hs <-]. apply H. by destruct Hs as (?&?&?). Qed.
Lemma okay_modify V V' f :
  (forall x o l, V x o l -> V' (f x) o l) -> okay (holds V) (modify f) (fun _ => holds V').
Proof. intros H. apply ltriple_modify. intros s (Hf & Hw & Hv). split_and!; [done..|]. by apply H. Qed.
Lemma okay_stop {A} V t Q : okay (holds V) (returns (A := A) t) Q.
Proof. apply ltriple_returns. by intros s []. Qed.
Lemma okay_fail {A} V e Q : okay (holds V) (fails (A := A) e) Q.
Proof. apply ltriple_fails. by intros s []. Qed.
Lemma okay_emit (P : st -> Prop) V e :
  (forall s, P s -> fine s /\ permitted (watched (trace s)) e
     /\ let w := observe (watched (trace s)) e in V (v s) (w_open w) (w_stored w) /\ w_failed w = false) ->
  okay P (emit e) (fun _ s => holds V s /\ exists w, watched (trace s) = observe w e).
Proof.
  intros H. apply ltriple_emit. intros s Hs. destruct (H s Hs) as (Hf & Hp & Hv & Hw).
  unfold holds, fine. simpl. rewrite watched_snoc. split; [|by eexists].
  split_and!; [by apply follows_snoc|done..].
Qed.
(** A write that fails ends the run. *)
Lemma okay_write (P : st -> Prop) V (ev : bool -> event) (r : res bool unit) (e : bool -> run_error) :
  (forall w ok, w_failed (observe w (ev ok)) = negb ok) ->
  (forall s ok, P s -> fine s /\ permitted (watched (trace s)) (ev ok)) ->
  (forall s, P s -> let w := observe (watched (trace s)) (ev true) in V (v s) (w_open w) (w_stored w)) ->
  okay P (_ ← emit (ev (is_ok r)); match r with Ok _ => mret tt | Err c => fails (e c) end)
    (fun _ s => holds V s /\ exists w, watched (trace s) = observe w (ev true)).
Proof.
  intros Hfail Hp Hv s Hs. unfold mbind, M_bind, emit. destruct (Hp s (is_ok r) Hs) as [Hf He].
  assert (Hok : follows watch0 (trace s ++ [ev (is_ok r)])) by (by apply follows_snoc).
  destruct r as [[]|c]; [|done]. split; [|exists (watched (trace s)); apply watched_snoc].
  unfold holds. simpl. rewrite watched_snoc, Hfail. split_and!; [done..|]. by apply Hv.
Qed.

Lemma okay_checkpoint V phase pending :
  okay (holds V) (checkpoint h phase pending)
    (fun _ s => holds V s /\ (h_checkpoint h = None
       \/ w_call (watched (trace s)) = pending
          /\ w_batch (watched (trace s)) = String.eqb phase "read_batch_started")).
Proof.
  unfold checkpoint. destruct (h_checkpoint h) as [save|] eqn:E.
  - eapply okay_bind; [apply okay_ask|]. intros r.
    eapply okay_conseq; [intros s Hs; exact Hs| |apply okay_write with
      (V := V) (ev := fun ok => EvCheckpoint phase pending ok) (e := ECheckpoint phase)]; 
      [|done|intros s ok (Hf & Hw & _); by split|by intros s (_ & _ & Hv)].
    intros u s [Hs [w ->]]. split; [done|]. by right.
  - intros s Hs. simpl. split; [done|by left].
Qed.
Lemma okay_plain_checkpoint V phase pending :
  okay (holds V) (checkpoint h phase pending) (fun _ => holds V).
Proof. eapply okay_conseq; [intros s Hs; exact Hs| |apply okay_checkpoint]. by intros u s []. Qed.
Lemma okay_persist V V' (C : watch -> Prop) m :
  (forall w ok, w_failed w = false -> C w -> permitted w (EvPersist m ok)) ->
  (forall x o l, V x o l -> V' x o (if c_Ephemeral cfg then l else l ++ [m])) ->
  okay (fun s => holds V s /\ C (watched (trace s))) (persist h cfg m) (fun _ => holds V').
Proof.
  intros HC HV. unfold persist. destruct (c_Ephemeral cfg).
  - intros s [(Hf & Hw & Hv) _]. simpl. split_and!; [done..|]. by apply HV.
  - eapply okay_bind with (R := fun _ s => holds V s /\ C (watched (trace s))); [intros s Hs; exact Hs|]. intros r.
    eapply okay_conseq; [intros s Hs; exact Hs| |apply okay_write with
      (V := V') (ev := fun ok => EvPersist m ok) (e := EPersist)]; [by intros u s []|done|..].
    + intros s ok [(Hf & Hw & _) Hc]. split; [done|]. by apply HC.
    + intros s [(_ & _ & Hv) _]. by apply HV.
Qed.
(** A user message needs no verdict. *)
Lemma okay_persist_user V V' blocks :
  (forall x o l, V x o l -> V' x o (if c_Ephemeral cfg then l else l ++ [MkMessage "user" blocks])) ->
  okay (holds V) (persist h cfg (MkMessage "user" blocks)) (fun _ => holds V').
Proof.
  intros HV. apply (okay_conseq _ (fun s => holds V s /\ True) _ _ (fun _ => holds V')); [done|done|].
  apply (okay_persist V V' (fun _ => True)); [|done]. intros w ok Hw _. split; [done|]. simpl. discriminate.
Qed.
Lemma okay_past_deadline V : okay (holds V) (past_deadline h cfg) (fun _ => holds V).
Proof.
  unfold past_deadline. destruct (IsZero _); [by apply ltriple_ret|].
  eapply okay_bind; [apply okay_ask|]. intros now. by apply ltriple_ret.
Qed.

(** What a dispatched call needs of the monitor besides the registry. *)
Definition offered (w : watch) (b : ContentBlock) : Prop :=
  (exists q, w_open w = Some (q, false)
     /\ (c_StrictTools cfg = true -> toolDefinitionPresent (q_Tools q) (block_name b) = true))
  /\ (c_Ephemeral cfg = false -> stored_call w (bName b) (Input b)).
Lemma okay_dispatch V (C C' : watch -> Prop) b :
  (forall w, C w -> offered w b /\ announced w (bName b) (Input b)) ->
  (forall w, C w -> C' w /\ C' (observe w (EvRun (bName b) (Input b)))) ->
  okay (fun s => holds V s /\ C (watched (trace s))) (dispatch h cfg b)
    (fun _ s => holds V s /\ C' (watched (trace s))).
Proof.
  intros HC HC'. unfold dispatch.
  eapply okay_bind with (R := fun _ s => holds V s /\ C (watched (trace s))); [intros s Hs; exact Hs|].
  intros ended. eapply okay_bind with (R := fun _ s => holds V s /\ C' (watched (trace s))).
  - destruct (reaches_handler _ _ _ _) eqn:Hr; [|intros s [Hs Hc]; split; [exact Hs|by apply HC']].
    destruct (denied_reaches_nothing _ _ _ _ Hr) as [Hhas Hden].
    intros s [(Hf & Hw & Hv) Hc]. destruct (HC _ Hc) as [[Hq Hst] Han]. simpl.
    unfold holds, fine. simpl. rewrite watched_snoc. split; [|by apply HC'].
    split_and!; [|done..]. apply follows_snoc. split; [done|]. by split.
  - intros u. eapply okay_bind with (R := fun _ s => holds V s /\ C' (watched (trace s)));
      [intros s Hs; exact Hs|]. intros late s Hs. exact Hs.
Qed.

(** ** Views *)

Definition V_ready : view := fun x o l =>
  (exists g, l_convo x = p_convo p ++ g /\ answered g) /\ answered l.
(** A request that showed [tools] is open. *)
Definition open_with (tools : list ToolDefinition) (withheld : bool) (o : option (CompletionRequest * bool)) : Prop :=
  exists q, o = Some (q, withheld) /\ q_Tools q = tools.
Definition V_asked (tools : list ToolDefinition) (withheld : bool) : view := fun x o l =>
  V_ready x o l /\ open_with tools withheld o /\ (withheld = true -> l_forceFinal x = true).
(** The answer [content] is stored or published; its calls are not yet
    answered. *)
Definition V_stored (tools : list ToolDefinition) (withheld : bool) (content : list ContentBlock) : view :=
  fun x o l =>
  (exists g, l_convo x = p_convo p ++ g /\ answered g)
  /\ (exists before, answered before
        /\ l = if c_Ephemeral cfg then before else before ++ [MkMessage "assistant" content])
  /\ open_with tools withheld o /\ (withheld = true -> l_forceFinal x = true).
Definition V_published (tools : list ToolDefinition) (withheld : bool) (content : list ContentBlock) : view :=
  fun x o l =>
  (exists g, l_convo x = p_convo p ++ g ++ [MkMessage "assistant" content] /\ answered g)
  /\ (exists before, answered before
        /\ l = if c_Ephemeral cfg then before else before ++ [MkMessage "assistant" content])
  /\ open_with tools withheld o /\ (withheld = true -> l_forceFinal x = true).
Lemma elem_calls content b : b ∈ calls_of content <-> b ∈ content /\ is_type "tool_use" b = true.
Proof. unfold calls_of. rewrite list_elem_of_In, List.filter_In, <-list_elem_of_In. done. Qed.

(** A call of a published answer, tools not withheld, is stored. *)
Lemma published_stored tools withheld content x w b :
  V_published tools withheld content x (w_open w) (w_stored w) -> b ∈ calls_of content ->
  c_Ephemeral cfg = false -> stored_call w (bName b) (Input b).
Proof.
  intros (_ & (before & _ & Hl) & _) [Hin Ht]%elem_calls He. rewrite He in Hl.
  by exists before, content, b.
Qed.

Section call.
Context (tools : list ToolDefinition) (withheld : bool) (content : list ContentBlock).
#[local] Abbreviation V := (V_published tools withheld content).

Lemma published_offered x w b :
  V x (w_open w) (w_stored w) -> b ∈ calls_of content -> l_forceFinal x = false ->
  (c_StrictTools cfg = true -> toolDefinitionPresent tools (block_name b) = true) -> offered w b.
Proof.
  intros Hv Hb Hf Hs. split; [|by intros He; eapply published_stored].
  destruct Hv as (_ & _ & (q & -> & Hq) & Hwh). exists q. rewrite Hq. split; [|done].
  destruct withheld; [|done]. by rewrite Hwh in Hf.
Qed.

Lemma okay_run_call ready b :
  b ∈ calls_of content ->
  okay (holds V) (run_call h cfg tools ready b) (fun r s => holds V s /\ result_of b r).
Proof.
  intros Hb. unfold run_call. apply okay_read. intros x.
  destruct (l_forceFinal x || _) eqn:Hdeny.
  { eapply okay_bind; [by apply (okay_modify _ V); intros y o l [Hy ->]|]. intros u. by apply ltriple_ret. }
  apply orb_false_iff in Hdeny as [Hf Hst].
  destruct (_ && negb (bool_decide _)).
  { eapply okay_bind; [by apply (okay_modify _ V); intros y o l [Hy ->]|]. intros u. by apply ltriple_ret. }
  eapply okay_bind; [apply okay_checkpoint|]. intros u.
  eapply okay_bind with (R := fun _ s => holds V s).
  { destruct ready as [out|]; [by intros s [(Hs & Hw & Hv & _) _]|].
    apply (okay_conseq _ (fun s => holds V s
        /\ (fun w => offered w b /\ announced w (bName b) (Input b)) (watched (trace s))) _ _
        (fun _ s => holds V s /\ True)).
    - intros s [(Hs & Hw & Hv & Hx) Hann]. split; [done|]. split.
      + apply (published_offered x); [by rewrite <-Hx|done..|]. intros Hstrict. rewrite Hstrict in Hst.
        simpl in Hst. by apply negb_false_iff in Hst.
      + destruct Hann as [Hn|[Hc _]]; [by left|]. right. left. exists b. split; [done|].
        apply elem_calls in Hb as [_ Hb]. by split.
    - by intros a s [].
    - by apply (okay_dispatch V (fun w => offered w b /\ announced w (bName b) (Input b)) (fun _ => True)). }
  intros [[output isError] timedOut]. eapply okay_bind; [by apply (okay_modify _ V)|].
  intros u1. eapply okay_bind; [apply okay_plain_checkpoint|]. intros u2. by apply ltriple_ret.
Qed.

Lemma okay_run_calls calls : forall ready,
  (forall b, b ∈ calls -> b ∈ calls_of content) ->
  okay (holds V) (run_calls h cfg tools ready calls)
    (fun rs s => holds V s /\ Forall2 result_of calls rs).
Proof.
  induction calls as [|b calls IH]; intros ready Hin; simpl; [by apply ltriple_ret|].
  eapply okay_bind; [apply okay_run_call, Hin; by left|]. intros r.
  eapply okay_bind with (R := fun rs s => (holds V s /\ Forall2 result_of calls rs) /\ result_of b r).
  - intros s [Hs Hr]. pose proof (IH (tail ready) (fun b' H => Hin b' (list_elem_of_further _ _ _ H)) s Hs) as H.
    by destruct (run_calls _ _ _ _ _ s) as [[] s'].
  - intros rs. apply ltriple_ret. intros s [[Hs Hrs] Hr]. split; [done|]. by constructor.
Qed.

(** A batch: every read was announced by one checkpoint. *)
Lemma okay_batch calls :
  let C w := (forall b, b ∈ calls -> offered w b /\ IsReadOnly (block_name b) (h_registry h) = true)
             /\ (h_checkpoint h = None \/ w_batch w = true) in
  okay (fun s => holds V s /\ C (watched (trace s))) (startReadBatch h cfg calls) (fun _ => holds V).
Proof.
  induction calls as [|b calls IH]; intros C; simpl; [by intros s []|].
  set (C' := fun w => (forall b, b ∈ calls -> offered w b /\ IsReadOnly (block_name b) (h_registry h) = true)
             /\ (h_checkpoint h = None \/ w_batch w = true)).
  assert (HC : forall w, C w -> C' w).
  { intros w [Hall Hb]. split; [|done]. intros b' Hb'. apply Hall. by right. }
  eapply okay_bind with (R := fun _ s => holds V s /\ C' (watched (trace s))).
  - unfold batch_read. eapply okay_bind with (R := fun _ s => holds V s /\ C (watched (trace s)));
      [intros s Hs; exact Hs|]. intros [err|].
    + intros s [Hs Hc]. split; [done|by apply HC].
    + apply okay_dispatch.
      * intros w [Hall Hb]. destruct (Hall b (list_elem_of_here _ _)) as [Ho Hr]. split; [done|].
        destruct Hb as [Hn|Hb]; [by left|]. right. by right.
      * intros w Hc. split; [by apply HC|]. exact (HC _ Hc).
  - intros r. eapply okay_bind; [apply IH|]. intros rest. intros s Hs. exact Hs.
Qed.

Lemma settled_ready results :
  Forall2 result_of (calls_of content) results ->
  forall x o l, (exists g, l_convo x = p_convo p ++ g ++ [MkMessage "assistant" content] /\ answered g)
    /\ answered l ->
  V_ready (set_convo (l_convo x ++ [MkMessage "user" (compactToolResultBlockForPrompt <$> results)]) x) o l.
Proof.
  intros Hr x o l [(g & Hg & Ha) Hl]. split; [|done].
  exists (g ++ [MkMessage "assistant" content; MkMessage "user" (compactToolResultBlockForPrompt <$> results)]).
  simpl. rewrite Hg, <-!app_assoc. split; [done|].
  apply answered_app; [done|]. by apply exchange_answered, compact_results.
Qed.
Definition V_stored_results : view := fun x o l =>
  (exists g, l_convo x = p_convo p ++ g ++ [MkMessage "assistant" content] /\ answered g) /\ answered l.
Lemma results_stored results x o l :
  Forall2 result_of (calls_of content) results ->
  V x o l -> V_stored_results x o (if c_Ephemeral cfg then l else l ++ [MkMessage "user" results]).
Proof.
  intros Hr (Hg & (before & Hb & ->) & _). split; [done|]. destruct (c_Ephemeral cfg); [done|].
  rewrite <-app_assoc. apply answered_app; [done|]. by apply exchange_answered.
Qed.

(** Where only the counters and the reason of the variables change. *)
Lemma okay_keep (W : view) f :
  (forall x o l, W x o l -> W (f x) o l) -> okay (holds W) (modify f) (fun _ => holds W).
Proof. apply okay_modify. Qed.

Lemma okay_answer_cut : okay (holds V) (answer_cut h cfg content) (fun _ => holds V_ready).
Proof.
  unfold answer_cut. eapply okay_bind; [by apply (okay_modify _ V)|]. intros u.
  assert (Hr : Forall2 result_of (calls_of content) (truncatedToolUseResults content (c_MaxTokens cfg)).1).
  { unfold truncatedToolUseResults. simpl. fold (calls_of content).
    induction (calls_of content); simpl; constructor; [by split|done]. }
  destruct (truncatedToolUseResults _ _) as [results traces]. simpl in Hr.
  eapply okay_bind; [by apply (okay_modify _ V)|]. intros u1.
  eapply okay_bind; [apply (okay_persist_user V V_stored_results); intros; by apply results_stored|].
  intros u2. apply okay_modify. intros x o l Hx. pose proof (settled_ready _ Hr _ o _ Hx) as Hready.
  cbv zeta. destruct (over_budget cfg _); exact Hready.
Qed.

Lemma okay_tool_turn : okay (holds V) (tool_turn h cfg tools content) (fun _ => holds V_ready).
Proof.
  unfold tool_turn. eapply okay_bind; [apply okay_past_deadline|]. intros late.
  eapply okay_bind with (R := fun _ => holds V).
  { apply (okay_modify V V). intros x o l (Hg & Hb & Ho & Hw). destruct late; split_and!; done. }
  intros u. apply okay_read. intros x0.
  eapply okay_bind with (R := fun _ => holds V).
  { destruct (negb (l_forceFinal x0) && _) eqn:Hbatch; [|by intros s (?&?&?&?)].
    apply andb_true_iff in Hbatch as [Hf Hbatch]. apply negb_true_iff in Hf.
    unfold canBatchReads in Hbatch. apply andb_true_iff in Hbatch as [[_ Hbatch]%andb_true_iff _].
    rewrite forallb_forall in Hbatch.
    eapply okay_bind; [apply okay_checkpoint|]. intros u1.
    eapply okay_pre; [|apply okay_batch].
    intros s [(Hs & Hw & Hv & Hx) Hann]. split; [done|]. split.
    - intros b Hb. pose proof (Hbatch b (proj1 (list_elem_of_In _ _) Hb)) as Hmay. unfold may_batch in Hmay.
      apply andb_true_iff in Hmay as [[_ Hro]%andb_true_iff Hst]. split; [|done].
      apply (published_offered x0); [by rewrite <-Hx|done..|]. intros Hstrict. by rewrite Hstrict in Hst.
    - destruct Hann as [Hn|[_ Hb]]; [by left|by right]. }
  intros batch. eapply okay_bind; [by apply okay_run_calls|]. intros results.
  destruct results as [|r rs].
  { intros s [Hs _]. simpl. by destruct Hs. }
  set (results := r :: rs). intros s [Hs Hres]. revert s Hs.
  change (okay (holds V) (_ ← persist h cfg (MkMessage "user" results);
      _ ← modify (fun x => set_convo (l_convo x ++ [MkMessage "user" (compactToolResultBlockForPrompt <$> results)]) x);
      x ← get;
      if l_forceFinal x then
        late ← past_deadline h cfg;
        if negb (l_deadlineUsed x) && late then
          modify (fun x => extend_turns (set_limits (l_maxTurns x) (l_turn x) (l_toolTurns x)
                             (l_forceFinal x) true x))
        else
          _ ← modify (fun x => if bool_decide (Reason (l_outcome x) = RunStopToolBudget) then x
                               else stop_reason RunStopOutputLimit x);
          x ← get; returns (l_text x)
      else if over_budget cfg x then modify (fun x => extend_turns (spend_budget x))
      else mret tt) (fun _ => holds V_ready)).
  eapply okay_bind; [apply (okay_persist_user V V_stored_results); intros; by apply results_stored|]. intros u2.
  eapply okay_bind; [apply (okay_modify _ V_ready); intros x o l Hx; by apply settled_ready|]. intros u3.
  apply okay_read. intros x. destruct (l_forceFinal x).
  - eapply okay_bind; [apply okay_past_deadline|]. intros late1. destruct (_ && _).
    + by apply okay_modify; intros y o l [Hy _].
    + eapply okay_bind; [apply (okay_modify _ V_ready); intros y o l [Hy _]; case_bool_decide; exact Hy|].
      intros u4. apply okay_read. intros y. apply okay_stop.
  - destruct (over_budget cfg x); [by apply okay_modify; intros y o l [Hy _]|].
    by intros s (?&?&?&?).
Qed.

Lemma okay_after_answer resp :
  p_Content resp = content ->
  okay (holds V) (after_answer h cfg tools resp) (fun _ => holds V_ready).
Proof.
  intros Hc. unfold after_answer. rewrite Hc. apply okay_read. intros x.
  assert (Hdrop : forall s, holds (fun y o l => V y o l /\ y = x) s -> holds V s) by (by intros s (?&?&?&?)).
  destruct (shouldRecoverTruncatedToolUse _ _); [eapply okay_pre; [exact Hdrop|apply okay_answer_cut]|].
  destruct (_ || _); [eapply okay_bind; [by apply (okay_modify _ V); intros y o l [Hy _]|];
    intros u; apply okay_stop|].
  destruct (String.eqb _ "refusal"); [eapply okay_bind; [by apply (okay_modify _ V); intros y o l [Hy _]|];
    intros u; apply okay_stop|].
  destruct (String.eqb _ "tool_use"); [|apply okay_stop].
  eapply okay_pre; [exact Hdrop|apply okay_tool_turn].
Qed.

(** Cleared for publication. *)
Definition cleared (w : watch) : Prop :=
  h_validate h <> None -> blank_b (ExtractText content) = true \/ w_cleared w = Some content.
Lemma okay_publish resp text :
  p_Content resp = content ->
  okay (fun s => holds (V_asked tools withheld) s /\ cleared (watched (trace s)))
    (publish h cfg resp text tools) (fun _ => holds V_ready).
Proof.
  intros Hc. unfold publish. rewrite Hc.
  eapply okay_bind.
  { apply (okay_persist _ (V_stored tools withheld content)).
    - intros w ok Hw Hcl. split; [done|]. intros _. apply Hcl.
    - intros x o l ([Hg Hl] & Ho & Hw). split_and!; [done|by exists l|done..]. }
  intros u. eapply okay_bind with (R := fun _ => holds V).
  { apply okay_modify. intros x o l ((g & Hg & Ha) & Hl & Ho & Hw). split_and!; [|done..].
    exists g. simpl. by rewrite Hg, <-app_assoc. }
  intros u1. eapply okay_bind; [apply okay_plain_checkpoint|]. intros u2. by apply okay_after_answer.
Qed.
End call.

(** ** One turn *)

Lemma okay_validate tools withheld content revisable :
  okay (holds (V_asked tools withheld)) (validateResponse h content revisable)
    (fun r s => holds (V_asked tools withheld) s
       /\ match r with
          | inl out => cleared out (watched (trace s))
          | inr _ => hasToolUseOutput content = false
          end).
Proof.
  unfold validateResponse. destruct (h_validate h) as [validate|] eqn:Hval;
    [|intros s Hs; split; [done|]; by intros Hn].
  destruct (blank_b _) eqn:Hb; [intros s Hs; split; [done|]; intros _; by left|].
  apply okay_read. intros x. eapply okay_bind; [apply okay_ask|].
  assert (Hemit : forall out, okay (holds (fun y o l => V_asked tools withheld y o l /\ y = x))
            (_ ← emit (EvCleared out); mret (inl out : list ContentBlock + bytes))
            (fun r s => holds (V_asked tools withheld) s
       /\ match r with
          | inl out => cleared out (watched (trace s))
          | inr _ => hasToolUseOutput content = false
          end)).
  { intros out. eapply okay_bind; [apply (okay_emit _ (V_asked tools withheld))|].
    - intros s (Hf & Hw & Hv & _). split_and!; done.
    - intros u. apply ltriple_ret. intros s [Hs [w ->]]. split; [done|]. intros _. by right. }
  intros [safe|feedback|c].
  - case_bool_decide; [apply Hemit|]. destruct (_ && _); [apply okay_fail|apply Hemit].
  - destruct (_ && _) eqn:Hr; [|apply okay_fail]. intros s (Hf & Hw & Hv & _). split; [done|].
    apply andb_true_iff in Hr as [_ Hr%bool_decide_eq_true]. unfold pending_tools in Hr.
    unfold hasToolUseOutput. apply fmap_nil_inv in Hr.
    apply existsb_false_Forall. apply Forall_forall. intros b Hin0. destruct (is_type "tool_use" b) eqn:Ht; [|done].
    assert (Hin : b ∈ List.filter (is_type "tool_use") content) by (apply list_elem_of_In, List.filter_In; by rewrite <-list_elem_of_In).
    rewrite Hr in Hin. by apply elem_of_nil in Hin.
  - apply okay_fail.
Qed.

(** An answer without calls, and what the loop says to it. *)
Lemma draft_answered x g content m :
  l_convo x = p_convo p ++ g -> answered g -> hasToolUseOutput content = false -> is_role "user" m = true ->
  exists g', l_convo x ++ [MkMessage "assistant" content; m] = p_convo p ++ g' /\ answered g'.
Proof.
  intros -> Hg Hc Hm. exists (g ++ [MkMessage "assistant" content] ++ [m]). rewrite <-app_assoc. split; [done|].
  apply answered_app; [done|]. apply answered_app; [by apply text_answered|by apply answered_user].
Qed.
Lemma okay_settle tools withheld resp fb :
  okay (holds (V_asked tools withheld)) (settle_answer h cfg tools resp fb) (fun _ => holds V_ready).
Proof.
  unfold settle_answer. apply okay_read. intros x.
  destruct (_ && shouldAutoContinueMaxTokens _ _) eqn:Hc.
  - apply andb_true_iff in Hc as [_ Hc]. unfold shouldAutoContinueMaxTokens in Hc.
    apply andb_true_iff in Hc as [_ Hc%negb_true_iff]. unfold continue_answer. apply okay_modify.
    intros y o l [[[(g & Hg & Ha) Hl] _] _]. split; [|done].
    destruct (draft_answered y g (p_Content resp) maxTokenContinuationMessage Hg Ha Hc eq_refl) as (g' & Eg & Hg').
    exists g'. cbv zeta. split; [|done]. destruct (is_none (h_validate h)); exact Eg.
  - cbv zeta. set (content := match l_pendingText x with [] => _ | _ => _ end). clearbody content.
    eapply okay_bind; [eapply okay_pre; [|apply okay_validate]; by intros s (?&?&?&?)|].
    intros [out|feedback].
    + by apply okay_publish.
    + intros s [Hs Hno]. revert s Hs. apply okay_modify. intros y o l [[(g & Hg & Ha) Hl] _]. split; [|done].
      destruct (draft_answered y g content (responseRevisionMessage feedback) Hg Ha Hno eq_refl) as (g' & Eg & Hg').
      by exists g'.
Qed.

Lemma okay_complete q withheld x :
  answered (q_Messages q) -> (withheld = true -> q_Tools q = [] /\ l_forceFinal x = true) ->
  okay (holds (fun y o l => V_ready y o l /\ y = x)) (complete h withheld q)
    (fun _ => holds (fun y o l => V_asked (q_Tools q) withheld y o l /\ y = x)).
Proof.
  intros Hq Hw. unfold complete.
  eapply okay_bind; [apply (okay_emit _ (fun y o l => V_asked (q_Tools q) withheld y o l /\ y = x))|].
  - intros s (Hf & Hn & [Hg Hl] & <-). split; [done|]. split; [|split; [split; [|done]|done]].
    + split; [done|]. split; [done|]. split; [done|]. intros E. by apply Hw.
    + split; [by split|]. split; [by exists q|]. intros E. by apply Hw.
  - intros u. eapply okay_bind; [eapply okay_pre; [|apply okay_ask]; by intros s [Hs _]|].
    intros [resp|c]; [intros s Hs; exact Hs|apply okay_fail].
Qed.
Lemma okay_call_model q withheld x :
  answered (q_Messages q) -> (withheld = true -> q_Tools q = [] /\ l_forceFinal x = true) ->
  okay (holds (fun y o l => V_ready y o l /\ y = x)) (call_model h withheld q)
    (fun _ => holds (V_asked (q_Tools q) withheld)).
Proof.
  intros Hq Hw. unfold call_model. eapply okay_bind; [by apply okay_complete|]. intros resp.
  destruct (shouldRetryEmptyVisibleOutput resp q); [|by intros s (?&?&?&?)].
  change (q_Tools q) with (q_Tools (withoutReasoning q)).
  eapply okay_conseq; [| |apply (okay_complete (withoutReasoning q) withheld x); done].
  - intros s (Hf & Hn & [Hr _] & Hx). by split_and!.
  - by intros a s (?&?&?&?).
Qed.
Lemma okay_fill_empty V resp : (forall x o l, V x o l -> V (stop_reason RunStopEmptyOutput x) o l) ->
  okay (holds V) (fill_empty h cfg resp) (fun _ => holds V).
Proof.
  intros HV. unfold fill_empty. destruct (_ && _); [|intros s Hs; exact Hs].
  eapply okay_bind; [apply okay_ask|]. intros []; [apply okay_fail|].
  eapply okay_bind; [by apply okay_modify|]. intros u s Hs. exact Hs.
Qed.

Lemma okay_turn : answered (p_convo p) -> okay (holds V_ready) (turn h cfg p) (fun _ => holds V_ready).
Proof.
  intros Hp. unfold turn. eapply okay_bind; [apply okay_past_deadline|]. intros late.
  eapply okay_bind; [by apply (okay_modify _ V_ready)|]. intros u. apply okay_read. intros x. cbv zeta.
  set (q := turn_request _ _ _ _ _).
  assert (Hwh : l_forceFinal x = true -> q_Tools q = [] /\ l_forceFinal x = true)
    by (intros E; split; [|done]; unfold q, turn_request; simpl; by rewrite E).
  assert (Hans : forall s, holds (fun y o l => V_ready y o l /\ y = x) s -> answered (q_Messages q)).
  { intros s (_ & _ & [(g & Hg & Ha) _] & Hx). rewrite Hx in Hg. unfold q, turn_request. simpl. rewrite Hg.
    destruct (l_forceFinal x); [apply directive_answered|]; by apply context_answered. }
  clearbody q. eapply okay_bind with (R := fun _ => holds (V_asked (q_Tools q) (l_forceFinal x))).
  { intros s Hs. by apply (okay_call_model q _ x (Hans s Hs) Hwh). }
  intros resp. eapply okay_bind; [by apply (okay_modify _ (V_asked (q_Tools q) (l_forceFinal x)))|]. intros u1.
  eapply okay_bind; [by apply okay_fill_empty|]. intros filled. apply okay_settle.
Qed.

Lemma turns_fine fuel : answered (p_convo p) -> forall s r s',
  holds V_ready s -> turns h cfg p fuel s = Some (r, s') -> fine s'.
Proof.
  intros Hp. induction fuel as [|fuel IH]; intros s r s' Hs; [done|]. simpl.
  destruct (Z.leb _ _); [by intros [= <- <-]; destruct Hs|].
  pose proof (okay_turn Hp s Hs) as Ht. destruct (turn h cfg p s) as [[u|t|e] s1].
  - by apply IH.
  - by intros [= <- <-].
  - by intros [= <- <-].
Qed.

(** C27: An agent turn follows the protocol of [permitted], whatever the model, the
    tools, the validator, the clock and the database answer: every request
    carries a history whose calls are all answered, and so does what is stored
    by then; tools withheld from a request are not offered; a handler runs only
    for a call of the answer stored last, made while tools were offered, offered
    itself under a strict policy, registered, not denied, and announced by its
    own checkpoint (or read-only and in an announced batch); with a validator
    only an answer it cleared, or one without text, is stored; and nothing
    follows a failed write. *)
Theorem agent_protocol fuel initial r e o events :
  answered (p_convo p) ->
  RunTracked h cfg p fuel initial = Some (r, e, o, events) -> follows watch0 events.
Proof.
  intros Hp. unfold RunTracked. set (x0 := fold_left _ _ _).
  assert (Hx : l_convo x0 = p_convo p).
  { unfold x0. assert (H : l_convo (start h cfg p) = p_convo p) by done. revert H.
    generalize (start h cfg p). induction initial as [|t l IH]; intros x H; [done|]. by apply IH. }
  destruct (turns h cfg p fuel _) as [[f s]|] eqn:E; [|done]. intros [= _ <-].
  apply (turns_fine fuel Hp _ _ _ ) in E; [done|].
  split; [done|]. split; [done|]. split; [|done]. exists []. by rewrite app_nil_r.
Qed.

(** ** The reply *)

(** What the validator cleared, put together the way the loop does. *)
Definition said (acc : bytes) (e : event) : bytes :=
  match e with EvCleared content => appendTurnText acc (ExtractText content) | _ => acc end.
Definition reply (t : list event) : bytes := fold_left said t [].
Lemma reply_snoc t e : reply (t ++ [e]) = said (reply t) e.
Proof. unfold reply. by rewrite fold_left_app. Qed.
Definition shown_text (text : bytes) (t : list event) : Prop :=
  text = reply t \/ text = emptyVisibleFallback h cfg \/ text = h_ModelRefused h.

Definition silent {A} (m : M A) : Prop :=
  forall s, match m s with
            | (r, s') => l_text (v s') = l_text (v s) /\ reply (trace s') = reply (trace s)
                         /\ match r with Ret _ => False | _ => True end
            end.
Lemma silent_bind {A B} (m : M A) (k : A -> M B) : silent m -> (forall a, silent (k a)) -> silent (m ≫= k).
Proof.
  intros Hm Hk s. unfold mbind, M_bind. specialize (Hm s). destruct (m s) as [[a|t|e] s']; [|done|done].
  specialize (Hk a s'). destruct (k a s') as [? s'']. intuition congruence.
Qed.
Lemma silent_emit e : (forall content, e <> EvCleared content) -> silent (emit e).
Proof. intros He s. simpl. rewrite reply_snoc. split_and!; [done| |done]. destruct e; try done. by destruct (He content). Qed.
Lemma silent_modify f : (forall x, l_text (f x) = l_text x) -> silent (modify f).
Proof. intros Hf s. simpl. by rewrite Hf. Qed.
Lemma silent_atom {A} (m : M A) :
  (forall s, match m s with (r, s') => trace s' = trace s /\ v s' = v s
             /\ match r with Ret _ => False | _ => True end end) -> silent m.
Proof. intros H s. specialize (H s). destruct (m s) as [r s']. by destruct H as (-> & -> & ?). Qed.
Create HintDb silent.
Ltac silent_tac :=
  repeat match goal with
         | |- forall _, silent _ => intros ?
         | |- silent (_ ≫= _) => apply silent_bind
         | |- silent (emit _) => apply silent_emit; intros; discriminate
         | |- silent (modify _) => apply silent_modify; intros; repeat case_match; done
         | |- silent (match ?x with _ => _ end) => destruct x
         | |- silent (let '(_, _) := ?x in _) => destruct x
         | |- silent _ => solve [eauto with silent]
         | |- silent _ => by apply silent_atom
         end.
Lemma checkpoint_silent phase pending : silent (checkpoint h phase pending).
Proof. unfold checkpoint. silent_tac. Qed.
Lemma persist_silent m : silent (persist h cfg m).
Proof. unfold persist. silent_tac. Qed.
Lemma past_deadline_silent : silent (past_deadline h cfg).
Proof. unfold past_deadline. silent_tac. Qed.
Lemma dispatch_silent b : silent (dispatch h cfg b).
Proof. unfold dispatch. silent_tac. Qed.
Lemma complete_silent w q : silent (complete h w q).
Proof. unfold complete. silent_tac. Qed.
Lemma fill_empty_silent resp : silent (fill_empty h cfg resp).
Proof. unfold fill_empty. silent_tac. Qed.
#[local] Hint Resolve checkpoint_silent persist_silent past_deadline_silent dispatch_silent
  complete_silent fill_empty_silent : silent.
Lemma call_model_silent w q : silent (call_model h w q).
Proof. unfold call_model. silent_tac. Qed.
Lemma answer_cut_silent content : silent (answer_cut h cfg content).
Proof. unfold answer_cut. silent_tac. Qed.
Lemma batch_silent l : silent (startReadBatch h cfg l).
Proof. induction l; simpl; unfold batch_read; silent_tac. Qed.
Lemma run_call_silent tools ready b : silent (run_call h cfg tools ready b).
Proof. unfold run_call. silent_tac. Qed.
#[local] Hint Resolve batch_silent run_call_silent : silent.
Lemma run_calls_silent tools calls : forall ready, silent (run_calls h cfg tools ready calls).
Proof. induction calls; intros; simpl; silent_tac. Qed.
#[local] Hint Resolve run_calls_silent call_model_silent answer_cut_silent : silent.

Definition Said (s : st) : Prop := l_text (v s) = reply (trace s).
Definition heard {A} (P : st -> Prop) (m : M A) (Q : A -> st -> Prop) : Prop :=
  ltriple P m Q (fun out s => match out with inl text => shown_text text (trace s) | inr _ => True end).
Lemma heard_silent {A} (m : M A) : silent m -> heard Said m (fun _ => Said).
Proof.
  intros Hm s Hs. specialize (Hm s). destruct (m s) as [[a|t|e] s']; destruct Hm as (Ht & Hr & Hret);
    unfold Said; rewrite ?Ht, ?Hr; done.
Qed.
Lemma heard_bind {A B} (m : M A) (k : A -> M B) Q :
  silent m -> (forall a, heard Said (k a) Q) -> heard Said (m ≫= k) Q.
Proof. intros Hm Hk. eapply ltriple_bind; [by apply heard_silent|exact Hk]. Qed.
Lemma heard_text {B} (k : vars -> M B) Q :
  (forall x, heard (fun s => Said s /\ v s = x) (k x) Q) -> heard Said (get ≫= k) Q.
Proof. apply ltriple_read. Qed.
(** Returning the text as it stands. *)
Lemma heard_return {A} Q : heard Said (x ← get; returns (A := A) (l_text x)) Q.
Proof.
  apply heard_text. intros x. apply ltriple_returns. intros s [Hs <-]. left. exact Hs.
Qed.

Lemma heard_tool_turn tools content : heard Said (tool_turn h cfg tools content) (fun _ => Said).
Proof.
  unfold tool_turn. apply heard_bind; [auto with silent|]. intros late.
  apply heard_bind; [silent_tac|]. intros u. apply heard_bind; [silent_tac|]. intros x0.
  apply heard_bind; [silent_tac|]. intros batch. apply heard_bind; [auto with silent|].
  intros [|r results]; [apply heard_return|].
  apply heard_bind; [auto with silent|]. intros u1. apply heard_bind; [silent_tac|]. intros u2.
  apply heard_bind; [silent_tac|]. intros x. destruct (l_forceFinal x); [|apply heard_silent; silent_tac].
  apply heard_bind; [auto with silent|]. intros late1. destruct (_ && _); [apply heard_silent; silent_tac|].
  apply heard_bind; [silent_tac|]. intros u3. apply heard_return.
Qed.
Lemma heard_after_answer tools resp : heard Said (after_answer h cfg tools resp) (fun _ => Said).
Proof.
  assert (Hret : forall x f g, (forall t tr, shown_text t tr -> shown_text (g t) tr) ->
    heard (fun s => Said s /\ v s = x) (_ ← modify f; returns (A := unit) (g (l_text x))) (fun _ => Said)).
  { intros x f g Hg. eapply ltriple_bind with (R := fun _ s => shown_text (l_text x) (trace s)).
    - apply ltriple_modify. intros s [Hs <-]. left. exact Hs.
    - intros u. apply ltriple_returns. intros s Hs. by apply Hg. }
  unfold after_answer. apply heard_text. intros x.
  assert (Hpre : forall (m : M unit), heard Said m (fun _ => Said) ->
    heard (fun s => Said s /\ v s = x) m (fun _ => Said)).
  { intros m. apply ltriple_conseq; [by intros s []|done]. }
  destruct (shouldRecoverTruncatedToolUse _ _); [apply Hpre, heard_silent; auto with silent|].
  destruct (_ || _); [by apply (Hret x _ (fun t => t))|].
  destruct (String.eqb _ "refusal").
  { apply (Hret x _ (refusal_text h cfg)). intros t tr Ht. unfold refusal_text, shown_text.
    destruct (_ && negb _); [by right; left|]. destruct t; [by right; right|exact Ht]. }
  destruct (String.eqb _ "tool_use"); [apply Hpre, heard_tool_turn|].
  apply ltriple_returns. intros s [Hs <-]. left. exact Hs.
Qed.

Context (Hval : h_validate h <> None).
(** Cleared and about to be published. *)
Definition About (content : list ContentBlock) (s : st) : Prop :=
  appendTurnText (l_text (v s)) (ExtractText content) = reply (trace s).
Lemma blank_adds_nothing acc content : blank_b (ExtractText content) = true ->
  appendTurnText acc (ExtractText content) = acc.
Proof.
  unfold blank_b, appendTurnText. by destruct (TrimSpace_b _).
Qed.
Lemma heard_validate content revisable :
  heard Said (validateResponse h content revisable)
    (fun r s => match r with inl out => About out s | inr _ => Said s end).
Proof.
  unfold validateResponse. destruct (h_validate h) as [validate|]; [|done].
  destruct (blank_b _) eqn:Hb.
  { apply ltriple_ret. intros s Hs. unfold About. by rewrite blank_adds_nothing. }
  apply heard_bind; [silent_tac|]. intros x. apply heard_bind; [silent_tac|].
  assert (Hemit : forall out, heard Said (_ ← emit (EvCleared out); mret (inl out : list ContentBlock + bytes))
     (fun r s => match r with inl out => About out s | inr _ => Said s end)).
  { intros out. eapply ltriple_bind with (R := fun _ => About out); [|intros u; by apply ltriple_ret].
    apply ltriple_emit. intros s Hs. unfold About. simpl. rewrite reply_snoc. simpl. by rewrite Hs. }
  intros [safe|feedback|c]; [|destruct (_ && _); [by apply ltriple_ret|by apply ltriple_fails]|by apply ltriple_fails].
  case_bool_decide; [apply Hemit|]. destruct (_ && _); [by apply ltriple_fails|apply Hemit].
Qed.
Lemma heard_publish content resp tools :
  heard (About content) (publish h cfg resp (ExtractText content) tools) (fun _ => Said).
Proof.
  unfold publish. eapply ltriple_bind with (R := fun _ => About content).
  { intros s Hs. pose proof (persist_silent (MkMessage "assistant" (p_Content resp)) s) as H.
    destruct (persist _ _ _ s) as [[a|t|e] s']; destruct H as (Ht & Hr & Hret); [|done..].
    unfold About. by rewrite Ht, Hr. }
  intros u. eapply ltriple_bind with (R := fun _ => Said); [by apply ltriple_modify|]. intros u1.
  apply heard_bind; [auto with silent|]. intros u2. apply heard_after_answer.
Qed.
Lemma heard_settle tools resp fb : heard Said (settle_answer h cfg tools resp fb) (fun _ => Said).
Proof.
  unfold settle_answer. assert (Hn : is_none (h_validate h) = false) by (by destruct (h_validate h)).
  apply heard_bind; [silent_tac|]. intros x. destruct (_ && shouldAutoContinueMaxTokens _ _).
  - apply heard_silent. unfold continue_answer. rewrite Hn. silent_tac.
  - cbv zeta. eapply ltriple_bind; [apply heard_validate|]. intros [out|feedback].
    + rewrite Hn. apply heard_publish.
    + apply heard_silent. unfold send_back. silent_tac.
Qed.
Lemma heard_turn : heard Said (turn h cfg p) (fun _ => Said).
Proof.
  unfold turn. apply heard_bind; [auto with silent|]. intros late. apply heard_bind; [silent_tac|]. intros u.
  apply heard_bind; [silent_tac|]. intros x. cbv zeta. apply heard_bind; [auto with silent|]. intros resp.
  apply heard_bind; [silent_tac|]. intros u1. apply heard_bind; [auto with silent|]. intros filled.
  apply heard_settle.
Qed.
Lemma turns_heard fuel : forall s r s', Said s -> turns h cfg p fuel s = Some (r, s') ->
  match r with Ret text => shown_text text (trace s') | _ => True end.
Proof.
  induction fuel as [|fuel IH]; intros s r s' Hs; [done|]. simpl. destruct (Z.leb _ _).
  { intros [= <- <-]. simpl. unfold Said in Hs. destruct (l_text (v s)), (l_traces (v s)); try done; by left. }
  pose proof (heard_turn s Hs) as Ht. destruct (turn h cfg p s) as [[u|t|e] s1]; [by apply IH|..];
    by intros [= <- <-].
Qed.

(** With a validator, the text of a run that ends without an error is put
    together from what the validator cleared, in order, or is the host's own
    text for a refused or empty answer. *)
Theorem cleared_reply fuel initial r o events :
  RunTracked h cfg p fuel initial = Some (Some r, None, o, events) -> shown_text (rr_Text r) events.
Proof.
  unfold RunTracked. set (x0 := fold_left _ _ _). assert (Hx : l_text x0 = []).
  { unfold x0. assert (H : l_text (start h cfg p) = []) by done. revert H.
    generalize (start h cfg p). induction initial as [|t l IH]; intros x H; [done|]. by apply IH. }
  destruct (turns h cfg p fuel _) as [[f s]|] eqn:E; [|done].
  apply turns_heard in E; [|exact Hx]. unfold conclude. destruct f as [u|text|e]; [done|..|done].
  by intros [= <- _ <-].
Qed.
End protocol.

(** ** A concrete turn *)

Section concrete.
Definition lookup_call : ContentBlock :=
  MkBlock "tool_use" [] "call_1" (lit "task_status") (lit "{}") [] "" (RText []) false.
(** Calls a tool, then answers from its result. *)
Definition obliging (_ : nat) (q : CompletionRequest) : res bool CompletionResponse :=
  if existsb (fun m => existsb (is_type "tool_result") (Blocks m)) (q_Messages q)
  then Ok (MkAnswer [text_content (lit "The task is running.")] "end_turn" 900 6)
  else Ok (MkAnswer [lookup_call] "tool_use" 800 20).
(** Masks nothing but a draft that promises. *)
Definition lenient (_ : nat) (r : validation_request) : verdict :=
  if Contains (v_Text r) (lit "promise") then Revise (lit "no promises") else Safe (v_Text r).
Definition demo_host : agent_host (Handler := nat) :=
  MkAgentHost demo_registry (fun _ => true) None 0 (lit "refused") obliging (fun n => Z.of_nat n)
    (fun _ => false) (fun _ => Ok tt) (Some (fun _ => Ok tt)) (Some lenient) (fun _ => None) (fun _ => None)
    (fun _ _ _ => Returned (Ok (lit "running"))).
Definition demo_config : RunConfig :=
  MkRunConfig "s1" [] 1024 4 time_zero [] "" "" [] None [] None ["shell"%string] true 0 false false [] 0 "" "" 0 5 false.
Definition demo_turn : prepared := MkPrepared [user_text (lit "How is the task?")] [] None [].

Definition demo_run := RunTracked demo_host demo_config demo_turn 11 [].
Definition events_of {A} (r : option (A * list event)) : list event :=
  match r with Some (_, events) => events | None => [] end.

Example demo_turn_runs_its_call :
  (match demo_run with Some (Some r, None, o, _) => Some (str (rr_Text r), Reason o, o_Turns o) | _ => None end)
    = Some ("The task is running."%string, RunStopCompleted, 2)
  /\ List.filter (fun e => match e with EvRun _ _ => true | _ => false end) (events_of demo_run)
     = [EvRun (lit "task_status") (lit "{}")].
Proof. vm_compute. split; reflexivity. Qed.

Lemma agent_protocol_witness :
  answered (p_convo demo_turn) /\ is_Some demo_run
  /\ follows demo_host demo_config watch0 (events_of demo_run).
Proof.
  assert (Ha : answered (p_convo demo_turn)) by (apply (answered_user (user_text (lit "How is the task?"))); reflexivity).
  split; [exact Ha|].
  assert (Hs : is_Some demo_run) by (vm_compute; eexists; reflexivity).
  split; [exact Hs|]. unfold demo_run in *.
  destruct (RunTracked demo_host demo_config demo_turn 11 []) as [[[[r e] o] events]|] eqn:E.
  - exact (agent_protocol demo_host demo_config demo_turn 11 [] r e o events Ha E).
  - exact I.
Defined.
Lemma cleared_reply_witness :
  exists r o events, demo_run = Some (Some r, None, o, events) /\ rr_Text r = lit "The task is running."
    /\ shown_text demo_host demo_config (rr_Text r) events.
Proof.
  eexists _, _, _. assert (E : demo_run = demo_run) by reflexivity.
  split; [vm_compute; reflexivity|]. split; [reflexivity|].
  apply (cleared_reply demo_host demo_config demo_turn) with (fuel := 11%nat) (initial := []) (o := MkRunOutcome RunStopCompleted 2 1 "end_turn").
  - simpl. discriminate.
  - vm_compute. reflexivity.
Defined.
Lemma agent_turns_bounded_witness :
  exists r e o events, demo_run = Some (r, e, o, events) /\ (is_Some r \/ is_Some e) /\ o_Turns o <= 10
    /\ models events <= 2 * o_Turns o.
Proof. apply (agent_turns_bounded demo_host demo_config demo_turn 11 []). vm_compute. discriminate. Defined.
End concrete.
