(* ===== verification/AgentStream.v ===== *)
(** * AgentStream: the streaming twin of the agent loop

    [RunStream] of runtime/agent/stream.go from the prepared conversation on.
    It runs the loop of [RunTracked] with the callbacks of a transport and
    without checkpoints or a tool deadline; with a validator the provider's
    text is withheld and the checked text of a turn is shown once it is stored;
    its thinking, its tool uses and the usage counts are not withheld.  Of the
    callbacks only the latency of a tool result is left out.

    [stream_is_tracked]: apart from what it shows, a stream is a tracked run. *)

From Stdlib Require Import Ascii String.
From S2P Require Import Prelude GoStrings Json GoJson Task Conversation AgentText Registry AgentTools AgentLoop AgentLoopInv AgentProtocol.

Local Open Scope Z_scope.

Section stream.
Context {Handler : Type} (h : agent_host (Handler := Handler)) (cfg : RunConfig) (p : prepared).

(** The callbacks the transport sets, and what the provider streams for a
    request: pieces of text and of thinking, and the tool uses. *)
Record StreamCallbacks := MkCallbacks {
  OnText : bool;
  OnToolUse : bool;
  OnToolResult : bool;
  OnThinking : bool;
  OnUsage : bool;
}.
Inductive delta : Type :=
| DText (text : bytes)
| DThinking (text : bytes)
| DToolUse (id : string) (name input : bytes).
Context (cb : StreamCallbacks) (deltas : nat -> CompletionRequest -> list delta).

(** [cb.OnText] of the loop: nil under a validator, whose texts are published
    instead. *)
Definition live_text : bool := OnText cb && is_none (h_validate h).
Definition publishValidatedText : bool := OnText cb && negb (is_none (h_validate h)).

Definition show (on : bool) (text : bytes) : M unit := if on then emit (EvShow text) else mret tt.
(** A piece the provider streams goes to its callback, the text one only when
    it is live: a validator clears [OnText] and leaves the others. *)
Definition show_delta (on : bool) (d : delta) : M unit :=
  match d with
  | DText text => show on text
  | DThinking text => if OnThinking cb then emit (EvThinkShow text) else mret tt
  | DToolUse id name input => if OnToolUse cb then emit (EvToolUseShow id name input) else mret tt
  end.
Fixpoint show_all (on : bool) (l : list delta) : M unit :=
  match l with
  | [] => mret tt
  | d :: l => _ ← show_delta on d; show_all on l
  end.
Definition show_result (id : string) (output : bytes) (isError : bool) : M unit :=
  if OnToolResult cb then emit (EvToolShow id output isError) else mret tt.

Definition StreamComplete (withheld : bool) (q : CompletionRequest) : M CompletionResponse :=
  _ ← emit (EvModel q withheld);
  r ← ask (A := res bool CompletionResponse * list delta) (fun n => (h_Complete h n q, deltas n q));
  let '(answer, pieces) := r : res bool CompletionResponse * list delta in
  _ ← show_all live_text pieces;
  match answer with Ok resp => mret resp | Err c => fails (ELLM c) end.
Definition stream_call_model (withheld : bool) (q : CompletionRequest) : M CompletionResponse :=
  resp ← StreamComplete withheld q;
  if shouldRetryEmptyVisibleOutput resp q then StreamComplete withheld (withoutReasoning q) else mret resp.

(** The token counts of a turn. *)
Definition show_usage (resp : CompletionResponse) : M unit :=
  if OnUsage cb then emit (EvUsageShow (p_InputTokens resp) (p_OutputTokens resp)) else mret tt.

Definition stream_fill (resp : CompletionResponse) : M (CompletionResponse * bool) :=
  filled ← fill_empty h cfg resp;
  _ ← (if snd (filled : CompletionResponse * bool) then show live_text (emptyVisibleFallback h cfg) else mret tt);
  mret filled.

Definition stream_run_call (turnTools : list ToolDefinition) (ready : option called) (b : ContentBlock)
    : M ContentBlock :=
  x ← get;
  let name := block_name b in
  if l_forceFinal x || (c_StrictTools cfg && negb (toolDefinitionPresent turnTools name)) then
    let text := denied_text h (bName b) in
    _ ← show_result (ID_ b) text true;
    _ ← modify (add_traces [MkTrace (bName b) "" (clip 200 (Input b)) text true false false]);
    mret (tool_result b text true)
  else if String.eqb name ToolboxToolName && negb (bool_decide (c_ToolboxExpansion cfg = [])) then
    let tools := toolboxTools (h_roleTools h) (h_registry h) cfg in
    let text := toolboxUnlockedResult tools in
    _ ← show_result (ID_ b) text false;
    _ ← modify (fun x => add_traces [MkTrace (bName b) "" (lit "{}") text false false false] (set_tools tools x));
    mret (tool_result b text false)
  else
    out ← match ready with Some out => mret out | None => dispatch h cfg b end;
    let '(output, isError, timedOut) := out : called in
    _ ← show_result (ID_ b) output isError;
    _ ← modify (fun x => add_traces [MkTrace (bName b) "" (clip 200 (Input b)) (clip 500 output)
                                       isError false true]
                  (add_receipt (MkReceipt (bName b) (Input b) output isError) x));
    mret (tool_result b output isError).
Fixpoint stream_run_calls (turnTools : list ToolDefinition) (ready : list called) (calls : list ContentBlock)
    : M (list ContentBlock) :=
  match calls with
  | [] => mret []
  | b :: calls =>
      r ← stream_run_call turnTools (head ready) b;
      rest ← stream_run_calls turnTools (tail ready) calls;
      mret (r :: rest)
  end.

Fixpoint show_cut (traces : list CallTrace) : M unit :=
  match traces with
  | [] => mret tt
  | t :: traces => _ ← show_result (tr_BlockID t) (tr_Output t) true; show_cut traces
  end.
Definition stream_answer_cut (content : list ContentBlock) : M unit :=
  _ ← modify (fun x => count_tool_turn (set_passes (l_continuations x) (l_revisions x)
                         (l_recoveries x + 1) (l_pendingText x) x));
  let '(results, traces) := truncatedToolUseResults content (c_MaxTokens cfg) in
  _ ← show_cut traces;
  _ ← modify (add_traces traces);
  _ ← persist h cfg (MkMessage "user" results);
  modify (fun x =>
    let x := set_convo (l_convo x ++ [MkMessage "user" (compactToolResultBlockForPrompt <$> results)]) x in
    extend_turns (if over_budget cfg x then spend_budget x else x)).

Definition stream_tool_turn (turnTools : list ToolDefinition) (content : list ContentBlock) : M unit :=
  _ ← modify count_tool_turn;
  x ← get;
  let calls := List.filter (is_type "tool_use") content in
  ready ← (if negb (l_forceFinal x) && canBatchReads (h_registry h) cfg content turnTools
           then startReadBatch h cfg calls else mret []);
  results ← stream_run_calls turnTools ready calls;
  match results with
  | [] => x ← get; returns (l_text x)
  | _ =>
      _ ← persist h cfg (MkMessage "user" results);
      _ ← modify (fun x => set_convo (l_convo x ++ [MkMessage "user"
                             (compactToolResultBlockForPrompt <$> results)]) x);
      x ← get;
      if l_forceFinal x then
        _ ← modify (fun x => if bool_decide (Reason (l_outcome x) = RunStopToolBudget) then x
                             else stop_reason RunStopOutputLimit x);
        x ← get; returns (l_text x)
      else if over_budget cfg x then modify (fun x => extend_turns (spend_budget x))
      else mret tt
  end.

(** A refusal that would show nothing shows the host's text. *)
Definition shows_refusal (text : bytes) : bool :=
  negb (c_PromptOnlyInput cfg && c_Ephemeral cfg && negb (blank_b (c_EmptyVisibleFallback cfg)))
  && match text with [] => true | _ => false end.
Definition stream_after_answer (turnTools : list ToolDefinition) (resp : CompletionResponse) : M unit :=
  x ← get;
  if shouldRecoverTruncatedToolUse resp (l_recoveries x) then stream_answer_cut (p_Content resp)
  else if String.eqb (p_StopReason resp) "end_turn" || String.eqb (p_StopReason resp) "max_tokens" then
    _ ← modify (fun x => stop_reason (terminalRunReason (l_outcome x) (p_StopReason resp)) x);
    returns (l_text x)
  else if String.eqb (p_StopReason resp) "refusal" then
    _ ← modify (stop_reason RunStopRefusal);
    _ ← (if shows_refusal (l_text x) then show live_text (h_ModelRefused h) else mret tt);
    returns (refusal_text h cfg (l_text x))
  else if String.eqb (p_StopReason resp) "tool_use" then stream_tool_turn turnTools (p_Content resp)
  else returns (l_text x).
Definition stream_publish (resp : CompletionResponse) (text : bytes) (turnTools : list ToolDefinition) : M unit :=
  let m := MkMessage "assistant" (p_Content resp) in
  _ ← persist h cfg m;
  _ ← modify (fun x => set_convo (l_convo x ++ [m]) x);
  _ ← show (publishValidatedText && negb (bool_decide (text = []))) text;
  _ ← modify (fun x => set_passes (l_continuations x) (l_revisions x) (l_recoveries x) []
                 (set_text (appendTurnText (l_text x) text) x));
  stream_after_answer turnTools resp.

Definition stream_settle (turnTools : list ToolDefinition) (resp : CompletionResponse)
    (usedFallback : bool) : M unit :=
  x ← get;
  if negb usedFallback && shouldAutoContinueMaxTokens resp (l_continuations x) then continue_answer h resp
  else
    let content := match l_pendingText x with
                   | [] => p_Content resp
                   | text => [text_content (mergeContinuationText text (ExtractText (p_Content resp)))]
                   end in
    checked ← validateResponse h content
      (negb (l_forceFinal x) && negb usedFallback && Z.ltb (l_revisions x) maxResponseRevisions);
    match checked with
    | inr feedback => send_back content feedback
    | inl content =>
        stream_publish (replace_content content resp)
          (if is_none (h_validate h) then ExtractText (p_Content resp) else ExtractText content) turnTools
    end.

Definition stream_turn : M unit :=
  _ ← modify (begin_turn false);
  x ← get;
  let q := turn_request h cfg p (turnContextAnchor (p_convo p)) x in
  resp ← stream_call_model (l_forceFinal x) q;
  _ ← show_usage resp;
  _ ← modify (fun x => set_outcome (MkRunOutcome (Reason (l_outcome x)) (o_Turns (l_outcome x))
                 (o_ToolTurns (l_outcome x)) (p_StopReason resp)) x);
  filled ← stream_fill resp;
  stream_settle (q_Tools q) (fst filled) (snd filled).

Fixpoint stream_turns (fuel : nat) (s : st) : option (flow unit * st) :=
  match fuel with
  | O => None
  | S fuel =>
      if Z.leb (l_maxTurns (v s)) (l_turn (v s)) then
        let x := stop_reason RunStopTurnLimit (v s) in
        Some ((match l_text x, l_traces x with [], [] => Fails ETurnLimit | text, _ => Ret text end),
              MkSt (steps s) (trace s) x)
      else match stream_turn s with
           | (Go _, s') => stream_turns fuel s'
           | r => Some r
           end
  end.

(** The text, the traces, the error and the reported outcome.  Unlike a tracked
    run a stream that fails gives neither text nor receipts, except that a
    cancelled one keeps both and one out of turns the traces. *)
Definition stream_result : Type := bytes * list CallTrace * option run_error * RunOutcome.
Definition stream_conclude (r : flow unit) (s : st) : stream_result :=
  let x := v s in
  let cancelled := h_cancelled h (steps s) in
  match r with
  | Ret text => (text, l_traces x, None, finishRunOutcome cancelled (l_outcome x) None)
  | Fails e => (match e with ECancelled => l_text x | _ => [] end,
                match e with ECancelled | ETurnLimit => l_traces x | _ => [] end,
                Some e, finishRunOutcome cancelled (l_outcome x) (Some e))
  | Go _ => ([], [], None, l_outcome x)
  end.
(** [streaming]: the provider can stream; otherwise the batch loop answers. *)
Definition RunStream (streaming : bool) (fuel : nat) (initial : list ToolExecutionResult)
    : option (stream_result * list event) :=
  if streaming then
    '(r, s) ← stream_turns fuel (MkSt 0 [] (fold_left (fun x t => add_receipt t x) initial (start h cfg p)));
    Some (stream_conclude r s, trace s)
  else
    '(r, e, o, events) ← RunTracked h cfg p fuel initial;
    let text := match e, r with None, Some r => rr_Text r | _, _ => [] end in
    let shown := publishValidatedText && is_none e in
    Some ((text, [], e, o), events ++ if shown then [EvShow text] else []).

(** ** A stream and a tracked run side by side *)

Definition is_show (e : event) : bool := 
  match e with
  | EvShow _ | EvToolShow _ _ _ | EvThinkShow _ | EvToolUseShow _ _ _ | EvUsageShow _ _ => true
  | _ => false
  end.
Definition strip (t : list event) : list event := List.filter (fun e => negb (is_show e)) t.
(** A stream's trace of a call has neither the call's id nor its timeout. *)
Definition bare (t : CallTrace) : CallTrace :=
  MkTrace (tr_Name t) "" (tr_Input t) (tr_Output t) (tr_Error t) false (tr_Receipt t).
Definition core (x : vars) : vars :=
  MkVars (l_convo x) (l_tools x) (l_text x) (bare <$> l_traces x) (l_receipts x) (l_maxTurns x) (l_turn x)
    (l_toolTurns x) (l_forceFinal x) (l_deadlineUsed x) (l_continuations x) (l_revisions x)
    (l_recoveries x) (l_pendingText x) (l_outcome x).
Record related (s s' : st) : Prop := {
  rel_steps : steps s = steps s';
  rel_trace : strip (trace s) = trace s';
  rel_vars : core (v s) = core (v s');
}.
Definition sim {A} (m m' : M A) : Prop :=
  forall s s', related s s' -> match m s, m' s' with (r, t), (r', t') => r = r' /\ related t t' end.

Lemma mret_bind {A B} (a : A) (k : A -> M B) : (mret a ≫= k) = k a.
Proof. reflexivity. Qed.
Lemma sim_ret {A} (a : A) : sim (mret a) (mret a).
Proof. by intros s s' H. Qed.
Lemma sim_bind {A B} (m m' : M A) (k k' : A -> M B) :
  sim m m' -> (forall a, sim (k a) (k' a)) -> sim (m ≫= k) (m' ≫= k').
Proof.
  intros Hm Hk s s' H. unfold mbind, M_bind. specialize (Hm s s' H).
  destruct (m s) as [r t], (m' s') as [r' t'], Hm as [-> Ht].
  destruct r'; [by apply Hk|done|done].
Qed.
(** What only the stream does. *)
Lemma sim_extra {B} (m : M unit) (k : unit -> M B) (k' : M B) :
  sim m (mret tt) -> sim (k tt) k' -> sim (m ≫= k) k'.
Proof.
  intros Hm Hk s s' H. unfold mbind, M_bind. specialize (Hm s s' H). simpl in Hm.
  destruct (m s) as [r t], Hm as [-> Ht]. by apply Hk.
Qed.
Lemma sim_then {A} (m m' : M A) (k : A -> M A) :
  sim m m' -> (forall a, sim (k a) (mret a)) -> sim (m ≫= k) m'.
Proof.
  intros Hm Hk s s' H. unfold mbind, M_bind. specialize (Hm s s' H).
  destruct (m s) as [r t], (m' s') as [r' t'], Hm as [-> Ht]. destruct r'; [by apply Hk|done|done].
Qed.
Lemma sim_ask {A} (f : nat -> A) : sim (ask f) (ask f).
Proof. intros s s' [E1 E2 E3]. simpl. rewrite E1. by split. Qed.
Lemma sim_emit e : is_show e = false -> sim (emit e) (emit e).
Proof.
  intros He s s' [E1 E2 E3]. split; [done|]. split; [done| |done].
  simpl. unfold strip in *. rewrite List.filter_app, E2. simpl. by rewrite He.
Qed.
Lemma sim_show e : is_show e = true -> sim (emit e) (mret tt).
Proof.
  intros He s s' [E1 E2 E3]. split; [done|]. split; [done| |done].
  simpl. unfold strip in *. rewrite List.filter_app, E2. simpl. by rewrite He, app_nil_r.
Qed.
Lemma sim_modify f f' : (forall x x', core x = core x' -> core (f x) = core (f' x')) -> sim (modify f) (modify f').
Proof. intros Hf s s' [E1 E2 E3]. split; [done|]. split; [done..|]. by apply Hf. Qed.
Lemma sim_read {B} (k k' : vars -> M B) :
  (forall x x', core x = core x' -> sim (k x) (k' x')) -> sim (get ≫= k) (get ≫= k').
Proof. intros Hk s s' H. apply (Hk (v s) (v s')); [apply H|done]. Qed.
Lemma sim_returns {A} t : sim (returns (A := A) t) (returns t).
Proof. by intros s s' H. Qed.
Lemma sim_fails {A} e : sim (fails (A := A) e) (fails e).
Proof. by intros s s' H. Qed.

Ltac same_core :=
  let x := fresh "x" in let x' := fresh "x'" in let H := fresh in
  intros x x' H; destruct x, x'; unfold core in *; simpl in *; injection H; clear H; intros; subst; simpl in *.
Ltac core_tac :=
  same_core; rewrite ?fmap_app; repeat case_match; simpl in *; try congruence;
  match goal with E : bare <$> _ = bare <$> _ |- _ => rewrite E end; reflexivity.
Create HintDb sim.
Ltac sim_tac :=
  repeat match goal with
         | |- forall _, sim _ _ => intros ?
         | |- sim (get ≫= _) (get ≫= _) => apply sim_read; same_core
         | |- sim (_ ≫= _) (_ ≫= _) => apply sim_bind
         | |- sim (mret _) (mret _) => apply sim_ret
         | |- sim (ask _) (ask _) => apply sim_ask
         | |- sim (emit _) (emit _) => by apply sim_emit
         | |- sim (returns _) _ => apply sim_returns
         | |- sim (fails _) _ => apply sim_fails
         | |- sim (modify _) _ => apply sim_modify; core_tac
         | |- sim (match ?x with _ => _ end) _ => destruct x
         | |- sim _ _ => solve [eauto with sim]
         end.
Lemma show_sim on text : sim (show on text) (mret tt).
Proof. unfold show. destruct on; [by apply sim_show|apply sim_ret]. Qed.
Lemma show_result_sim id output isError : sim (show_result id output isError) (mret tt).
Proof. unfold show_result. destruct (OnToolResult cb); [by apply sim_show|apply sim_ret]. Qed.
Lemma show_delta_sim on d : sim (show_delta on d) (mret tt).
Proof.
  destruct d; simpl; [apply show_sim|destruct (OnThinking cb)|destruct (OnToolUse cb)];
    first [by apply sim_show|apply sim_ret].
Qed.
Lemma show_usage_sim resp : sim (show_usage resp) (mret tt).
Proof. unfold show_usage. destruct (OnUsage cb); [by apply sim_show|apply sim_ret]. Qed.
Lemma show_all_sim on l : sim (show_all on l) (mret tt).
Proof. induction l; simpl; [apply sim_ret|]. apply sim_extra; [apply show_delta_sim|done]. Qed.
Lemma show_cut_sim traces : sim (show_cut traces) (mret tt).
Proof. induction traces; simpl; [apply sim_ret|]. apply sim_extra; [apply show_result_sim|done]. Qed.
Lemma persist_sim m : sim (persist h cfg m) (persist h cfg m).
Proof. unfold persist. sim_tac. Qed.
Lemma dispatch_sim b : sim (dispatch h cfg b) (dispatch h cfg b).
Proof. unfold dispatch. sim_tac. Qed.
#[local] Hint Resolve show_sim show_result_sim show_all_sim show_cut_sim persist_sim dispatch_sim : sim.
Lemma batch_sim l : sim (startReadBatch h cfg l) (startReadBatch h cfg l).
Proof. induction l; simpl; unfold batch_read; sim_tac. Qed.
Lemma validate_sim content r : sim (validateResponse h content r) (validateResponse h content r).
Proof. unfold validateResponse. sim_tac. Qed.
Lemma fill_sim resp : sim (stream_fill resp) (fill_empty h cfg resp).
Proof.
  unfold stream_fill. apply sim_then; [unfold fill_empty; sim_tac|]. intros filled.
  apply sim_extra; [destruct (snd filled); [apply show_sim|apply sim_ret]|apply sim_ret].
Qed.
#[local] Hint Resolve batch_sim validate_sim fill_sim : sim.
Lemma complete_sim w q : sim (StreamComplete w q) (complete h w q).
Proof.
  unfold StreamComplete, complete. apply sim_bind; [by apply sim_emit|]. intros u.
  intros s s' H. unfold mbind, M_bind, ask. simpl.
  pose proof (rel_steps _ _ H) as Hn. rewrite Hn.
  set (s1 := MkSt (S _) (trace s) (v s)). set (s1' := MkSt (S _) (trace s') (v s')).
  assert (H1 : related s1 s1') by (destruct H; by split).
  pose proof (show_all_sim live_text (deltas (steps s') q) s1 s1' H1) as Hs. simpl in Hs.
  destruct (show_all _ _ s1) as [r t]. destruct Hs as [-> Ht].
  by destruct (h_Complete h (steps s') q).
Qed.
#[local] Hint Resolve complete_sim : sim.
Lemma call_model_sim w q : sim (stream_call_model w q) (call_model h w q).
Proof. unfold stream_call_model, call_model. sim_tac. Qed.

Section twin.
Context (Hdeadline : IsZero (c_ToolsDeadline cfg) = true) (Hcheck : h_checkpoint h = None).
Lemma no_deadline : past_deadline h cfg = mret false.
Proof. unfold past_deadline. by rewrite Hdeadline. Qed.
Lemma no_checkpoint phase pending : checkpoint h phase pending = mret tt.
Proof. unfold checkpoint. by rewrite Hcheck. Qed.

Lemma run_call_sim tools ready b : sim (stream_run_call tools ready b) (run_call h cfg tools ready b).
Proof.
  unfold stream_run_call, run_call. apply sim_read; same_core. destruct (_ || _).
  { apply sim_extra; [apply show_result_sim|]. sim_tac. }
  destruct (_ && _).
  { apply sim_extra; [apply show_result_sim|]. sim_tac. }
  rewrite !no_checkpoint, mret_bind.
  apply sim_bind; [destruct ready; [apply sim_ret|apply dispatch_sim]|]. intros [[output isError] timedOut].
  apply sim_extra; [apply show_result_sim|]. apply sim_bind; [apply sim_modify; core_tac|]. intros u. rewrite mret_bind. apply sim_ret.
Qed.
#[local] Hint Resolve run_call_sim : sim.
Lemma run_calls_sim tools calls : forall ready,
  sim (stream_run_calls tools ready calls) (run_calls h cfg tools ready calls).
Proof. induction calls; intros; simpl; sim_tac. Qed.
#[local] Hint Resolve run_calls_sim : sim.

Lemma answer_cut_sim content : sim (stream_answer_cut content) (answer_cut h cfg content).
Proof.
  unfold stream_answer_cut, answer_cut. apply sim_bind; [apply sim_modify; core_tac|]. intros u.
  destruct (truncatedToolUseResults _ _) as [results traces]. apply sim_extra; [apply show_cut_sim|]. sim_tac.
  apply sim_modify. same_core. unfold over_budget. simpl. destruct (Z.leb _ _); simpl; congruence.
Qed.
#[local] Hint Resolve answer_cut_sim : sim.

Lemma tool_turn_sim tools content : sim (stream_tool_turn tools content) (tool_turn h cfg tools content).
Proof.
  unfold stream_tool_turn, tool_turn. rewrite !no_deadline, mret_bind.
  apply sim_bind; [apply sim_modify; core_tac|]. intros u. apply sim_read; same_core.
  apply sim_bind; [destruct (_ && _); [rewrite no_checkpoint, mret_bind; apply batch_sim|apply sim_ret]|].
  intros batch. apply sim_bind; [apply run_calls_sim|]. intros [|r results]; [sim_tac|].
  apply sim_bind; [apply persist_sim|]. intros u1. apply sim_bind; [apply sim_modify; core_tac|]. intros u2.
  apply sim_read; same_core. destruct l_forceFinal1.
  - rewrite mret_bind, andb_false_r. apply sim_bind; [apply sim_modify; core_tac|]. intros u3. sim_tac.
  - unfold over_budget. simpl. destruct (Z.leb _ _); [|apply sim_ret]. apply sim_modify. core_tac.
Qed.
Lemma after_answer_sim tools resp : sim (stream_after_answer tools resp) (after_answer h cfg tools resp).
Proof.
  unfold stream_after_answer, after_answer. apply sim_read; same_core.
  destruct (shouldRecoverTruncatedToolUse _ _); [apply answer_cut_sim|].
  destruct (_ || _); [sim_tac|]. destruct (String.eqb _ "refusal").
  { apply sim_bind; [apply sim_modify; core_tac|]. intros u. apply sim_extra; [|apply sim_returns].
    destruct (shows_refusal _); [apply show_sim|apply sim_ret]. }
  destruct (String.eqb _ "tool_use"); [apply tool_turn_sim|apply sim_returns].
Qed.
Lemma publish_sim resp text tools : sim (stream_publish resp text tools) (publish h cfg resp text tools).
Proof.
  unfold stream_publish, publish. rewrite no_checkpoint. cbv zeta.
  apply sim_bind; [apply persist_sim|]. intros u s s' [E1 E2 E3].
  unfold show. destruct (publishValidatedText && _); unfold mbind, M_bind, modify, emit; simpl;
    apply after_answer_sim; split; simpl; try done;
    try (unfold strip in *; rewrite List.filter_app, E2; simpl; by rewrite app_nil_r);
    revert E3; generalize (v s), (v s'); same_core; congruence.
Qed.
#[local] Hint Resolve publish_sim call_model_sim : sim.

Lemma settle_sim tools resp fb : sim (stream_settle tools resp fb) (settle_answer h cfg tools resp fb).
Proof.
  unfold stream_settle, settle_answer. apply sim_read; same_core. destruct (_ && _).
  - unfold continue_answer. apply sim_modify. same_core. destruct (is_none _); simpl; congruence.
  - apply sim_bind; [apply validate_sim|]. intros [out|feedback]; [apply publish_sim|].
    unfold send_back. apply sim_modify. same_core. congruence.
Qed.
Lemma turn_sim : sim (stream_turn) (turn h cfg p).
Proof.
  unfold stream_turn, turn. rewrite no_deadline, mret_bind. apply sim_bind; [apply sim_modify; core_tac|].
  intros u. apply sim_read. intros x x' Hx.
  assert (Hq : turn_request h cfg p (turnContextAnchor (p_convo p)) x
               = turn_request h cfg p (turnContextAnchor (p_convo p)) x').
  { revert x x' Hx. same_core. reflexivity. }
  assert (Hf : l_forceFinal x = l_forceFinal x') by (revert x x' Hx Hq; same_core; reflexivity).
  cbv zeta. rewrite Hq, Hf. set (q := turn_request _ _ _ _ _). clearbody q. clear x Hx Hq Hf. rename x' into x.
  apply sim_bind; [apply call_model_sim|]. intros resp. apply sim_extra; [apply show_usage_sim|].
  apply sim_bind; [apply sim_modify; core_tac|]. intros u1. apply sim_bind; [apply fill_sim|]. intros filled.
  apply settle_sim.
Qed.
Lemma turns_sim fuel : forall s s', related s s' ->
  match stream_turns fuel s, turns h cfg p fuel s' with
  | Some (r, t), Some (r', t') => r = r' /\ related t t'
  | None, None => True
  | _, _ => False
  end.
Proof.
  induction fuel as [|fuel IH]; intros s s' H; [done|]. simpl. pose proof H as [E1 E2 E3].
  assert (Hl : l_maxTurns (v s) = l_maxTurns (v s') /\ l_turn (v s) = l_turn (v s')
    /\ l_text (v s) = l_text (v s') /\ bare <$> l_traces (v s) = bare <$> l_traces (v s')).
  { revert E3. clear. generalize (v s), (v s'). same_core. done. }
  destruct Hl as (-> & -> & Ht & Htr). destruct (Z.leb _ _).
  { rewrite Ht. split.
    - destruct (l_text (v s')); [|done]. by destruct (l_traces (v s)), (l_traces (v s')).
    - split; [done..|]. revert E3. simpl. clear. generalize (v s), (v s'). same_core. congruence. }
  pose proof (turn_sim s s' H) as Hturn. destruct (stream_turn s) as [r t], (turn h cfg p s') as [r' t'].
  destruct Hturn as [-> Ht']. destruct r'; [by apply IH|done|done].
Qed.

Lemma turns_stop fuel : forall s u s', turns h cfg p fuel s = Some (Go u, s') -> False.
Proof.
  induction fuel as [|fuel IH]; intros s u s'; [done|]. simpl. destruct (Z.leb _ _).
  { by destruct (l_text (v s)), (l_traces (v s)). }
  destruct (turn h cfg p s) as [[u1|t|e] s1]; [by apply IH|done|done].
Qed.

(** C29: A stream is a tracked run without checkpoints and tool deadline, up to what
    it shows on the way: it asks the model the same, stores the same, runs the
    same calls and reports the same outcome; without an error it gives the same
    reply and the same traces, save a call's id and timeout. *)
Theorem stream_is_tracked fuel initial :
  match RunStream true fuel initial, RunTracked h cfg p fuel initial with
  | Some (text, traces, e, o, events), Some (r, e', o', events') =>
      e = e' /\ o = o' /\ strip events = events'
      /\ (e = None -> exists res, r = Some res /\ rr_Text res = text
            /\ bare <$> rr_ToolTraces res = bare <$> traces)
  | None, None => True
  | _, _ => False
  end.
Proof.
  unfold RunStream, RunTracked. set (x0 := fold_left _ _ _).
  pose proof (turns_sim fuel (MkSt 0 [] x0) (MkSt 0 [] x0) ltac:(by split)) as H.
  destruct (stream_turns _ _) as [[r t]|], (turns h cfg p fuel _) as [[r' t']|] eqn:Hr; [|done..].
  destruct H as [-> [E1 E2 E3]].
  assert (Ho : l_outcome (v t) = l_outcome (v t') /\ bare <$> l_traces (v t) = bare <$> l_traces (v t')).
  { revert E3. clear. generalize (v t), (v t'). same_core. done. }
  destruct Ho as [Ho Htr]. unfold stream_conclude, conclude. simpl.
  destruct r' as [u|text|e]; simpl; rewrite ?E1, ?Ho; [by apply turns_stop in Hr| |by split_and!].
  split_and!; [done..|]. intros _. eexists. by split_and!.
Qed.
End twin.

(** ** What a validated stream shows *)

Section shown.
Context (Hval : h_validate h <> None).

(** Blank, or the text of an answer the validator cleared and, unless the run
    is ephemeral, the session holds. *)
Definition checked_text (t : list event) (text : bytes) : Prop :=
  blank_b text = true \/ exists content, EvCleared content ∈ t /\ ExtractText content = text
    /\ (c_Ephemeral cfg = false -> EvPersist (MkMessage "assistant" content) true ∈ t).
Definition shows_checked (t : list event) : Prop :=
  forall before text after, t = before ++ EvShow text :: after -> checked_text before text.
Definition is_text (e : event) : bool := match e with EvShow _ => true | _ => false end.

Lemma checked_more t t' text : checked_text t text -> checked_text (t ++ t') text.
Proof.
  intros [Hb|(c & Hc & Ht & Hp)]; [by left|]. right. exists c. split_and!; [apply elem_of_app; by left|done|].
  intros E. apply elem_of_app. left. by apply Hp.
Qed.
Lemma shows_snoc t e : shows_checked t -> (forall text, e = EvShow text -> checked_text t text) -> shows_checked (t ++ [e]).
Proof.
  intros Ht He before text after E. destruct after as [|e' after' _] using rev_ind.
  - apply app_inj_tail in E as [-> ->]. by apply He.
  - rewrite app_comm_cons, app_assoc in E. apply app_inj_tail in E as [-> _]. by eapply Ht.
Qed.

Definition mute {A} (m : M A) : Prop :=
  forall s, exists l, trace (snd (m s)) = trace s ++ l /\ Forall (fun e => is_text e = false) l.
Lemma mute_bind {A B} (m : M A) (k : A -> M B) : mute m -> (forall a, mute (k a)) -> mute (m ≫= k).
Proof.
  intros Hm Hk s. unfold mbind, M_bind. destruct (Hm s) as (l & E & Hl).
  destruct (m s) as [[a|t|e] s']; simpl in E; [|by exists l|by exists l].
  destruct (Hk a s') as (l' & E' & Hl'). exists (l ++ l'). rewrite E', E, app_assoc.
  split; [done|]. by apply Forall_app.
Qed.
Lemma mute_emit e : is_text e = false -> mute (emit e).
Proof. intros He s. exists [e]. split; [done|]. by repeat constructor. Qed.
Lemma mute_atom {A} (m : M A) : (forall s, trace (snd (m s)) = trace s) -> mute m.
Proof. intros H s. exists []. rewrite H, app_nil_r. by split. Qed.
Create HintDb mute.
Ltac mute_tac :=
  repeat match goal with
         | |- forall _, mute _ => intros ?
         | |- mute (_ ≫= _) => apply mute_bind
         | |- mute (emit _) => by apply mute_emit
         | |- mute (match ?x with _ => _ end) => destruct x
         | |- mute (let '(_, _) := ?x in _) => destruct x
         | |- mute _ => solve [eauto with mute]
         | |- mute _ => by apply mute_atom
         end.
Lemma not_live : live_text = false.
Proof. unfold live_text. destruct (h_validate h); [by rewrite andb_false_r|done]. Qed.
Lemma persist_mute m : mute (persist h cfg m).
Proof. unfold persist. mute_tac. Qed.
Lemma dispatch_mute b : mute (dispatch h cfg b).
Proof. unfold dispatch. mute_tac. Qed.
Lemma show_result_mute id output e : mute (show_result id output e).
Proof. unfold show_result. mute_tac. Qed.
Lemma show_delta_mute d : mute (show_delta live_text d).
Proof. rewrite not_live. destruct d; simpl; mute_tac. Qed.
Lemma show_usage_mute resp : mute (show_usage resp).
Proof. unfold show_usage. mute_tac. Qed.
Lemma show_all_mute l : mute (show_all live_text l).
Proof. induction l; simpl; [mute_tac|]. apply mute_bind; [apply show_delta_mute|done]. Qed.
#[local] Hint Resolve persist_mute dispatch_mute show_result_mute show_all_mute : mute.
Lemma show_cut_mute traces : mute (show_cut traces).
Proof. induction traces; simpl; mute_tac. Qed.
Lemma batch_mute l : mute (startReadBatch h cfg l).
Proof. induction l; simpl; unfold batch_read; mute_tac. Qed.
Lemma run_call_mute tools ready b : mute (stream_run_call tools ready b).
Proof. unfold stream_run_call. mute_tac. Qed.
#[local] Hint Resolve show_cut_mute batch_mute run_call_mute : mute.
Lemma run_calls_mute tools calls : forall ready, mute (stream_run_calls tools ready calls).
Proof. induction calls; intros; simpl; mute_tac. Qed.
Lemma answer_cut_mute content : mute (stream_answer_cut content).
Proof. unfold stream_answer_cut. mute_tac. Qed.
#[local] Hint Resolve run_calls_mute answer_cut_mute : mute.
Lemma after_answer_mute tools resp : mute (stream_after_answer tools resp).
Proof. unfold stream_after_answer, stream_tool_turn. rewrite not_live. unfold show. mute_tac. Qed.
Lemma call_model_mute w q : mute (stream_call_model w q).
Proof. unfold stream_call_model, StreamComplete. mute_tac. Qed.
Lemma fill_mute resp : mute (stream_fill resp).
Proof. unfold stream_fill, fill_empty. rewrite not_live. unfold show. mute_tac. Qed.

Definition Fine (s : st) : Prop := shows_checked (trace s).
Definition checks {A} (P : st -> Prop) (m : M A) (Q : A -> st -> Prop) : Prop := ltriple P m Q (fun _ => Fine).
Lemma checks_mute {A} (m : M A) : mute m -> checks Fine m (fun _ => Fine).
Proof.
  intros Hm s Hs. destruct (Hm s) as (l & E & Hl).
  assert (Hext : forall t, shows_checked t -> shows_checked (t ++ l)).
  { clear E. induction l as [|e l IH] using rev_ind; intros t Ht; [by rewrite app_nil_r|].
    apply Forall_app in Hl as [Hl He]. rewrite app_assoc. apply shows_snoc; [by apply IH|].
    intros text ->. by apply Forall_inv in He. }
  assert (Hall : Fine (snd (m s))) by (unfold Fine; rewrite E; by apply Hext).
  by destruct (m s) as [[] s'].
Qed.
Lemma checks_bind {A B} (m : M A) (k : A -> M B) Q :
  mute m -> (forall a, checks Fine (k a) Q) -> checks Fine (m ≫= k) Q.
Proof. intros Hm Hk. eapply ltriple_bind; [by apply checks_mute|exact Hk]. Qed.

(** An answer ready to be stored: without text or cleared. *)
Definition Passed (content : list ContentBlock) (s : st) : Prop :=
  blank_b (ExtractText content) = true \/ EvCleared content ∈ trace s.
Lemma checks_validate content revisable :
  checks Fine (validateResponse h content revisable)
    (fun r s => Fine s /\ match r with inl out => Passed out s | inr _ => True end).
Proof.
  unfold validateResponse. destruct (h_validate h) as [validate|]; [|done].
  destruct (blank_b _) eqn:Hb; [apply ltriple_ret; intros s Hs; split; [done|by left]|].
  apply checks_bind; [mute_tac|]. intros x. apply checks_bind; [mute_tac|].
  assert (Hemit : forall out, checks Fine (_ ← emit (EvCleared out); mret (inl out : list ContentBlock + bytes))
     (fun r s => Fine s /\ match r with inl out => Passed out s | inr _ => True end)).
  { intros out. eapply ltriple_bind with (R := fun _ s => Fine s /\ Passed out s);
      [|intros u; by apply ltriple_ret].
    apply ltriple_emit. intros s Hs. split; [by apply shows_snoc|].
    right. apply elem_of_app. right. by apply list_elem_of_singleton. }
  intros [safe|feedback|c].
  - case_bool_decide; [apply Hemit|]. destruct (_ && _); [by apply ltriple_fails|apply Hemit].
  - destruct (_ && _); [by apply ltriple_ret|by apply ltriple_fails].
  - by apply ltriple_fails.
Qed.
Lemma checks_publish resp tools :
  checks (fun s => Fine s /\ Passed (p_Content resp) s)
    (stream_publish resp (ExtractText (p_Content resp)) tools) (fun _ => Fine).
Proof.
  unfold stream_publish. cbv zeta. set (content := p_Content resp).
  eapply ltriple_bind with (R := fun _ s => Fine s /\ checked_text (trace s) (ExtractText content)).
  { unfold persist. destruct (c_Ephemeral cfg) eqn:He.
    - apply ltriple_ret. intros s [Hs [Hb|Hp]]; (split; [done|]); [by left|]. right. exists content.
      split_and!; [done|done|by rewrite He].
    - intros s [Hs Hp]. unfold mbind, M_bind, ask, emit. simpl.
      destruct (h_persist h (steps s)) as [[]|c]; simpl; [|by apply shows_snoc].
      split; [by apply shows_snoc|]. destruct Hp as [Hb|Hp]; [by left|]. right. exists content.
      split_and!; [apply elem_of_app; by left|done|intros _; apply elem_of_app; right; by apply list_elem_of_singleton]. }
  intros u. eapply ltriple_bind with (R := fun _ s => Fine s /\ checked_text (trace s) (ExtractText content));
    [by apply ltriple_modify|]. intros u1.
  eapply ltriple_bind with (R := fun _ => Fine).
  { unfold show. destruct (_ && _); [|by apply ltriple_ret; intros s []]. apply ltriple_emit.
    intros s [Hs Hc]. apply shows_snoc; [done|]. by intros text [= <-]. }
  intros u2. apply checks_bind; [mute_tac|]. intros u3. apply checks_mute, after_answer_mute.
Qed.
Lemma checks_settle tools resp fb : checks Fine (stream_settle tools resp fb) (fun _ => Fine).
Proof.
  unfold stream_settle. apply checks_bind; [mute_tac|]. intros x. destruct (_ && _).
  { apply checks_mute. unfold continue_answer. mute_tac. }
  cbv zeta. eapply ltriple_bind; [apply checks_validate|]. intros [out|feedback].
  - replace (is_none (h_validate h)) with false by (by destruct (h_validate h)).
    apply (checks_publish (replace_content out resp)).
  - apply (ltriple_conseq _ Fine _ _ (fun _ => Fine)); [by intros s []|done|]. apply checks_mute. unfold send_back. mute_tac.
Qed.
Lemma checks_turn : checks Fine stream_turn (fun _ => Fine).
Proof.
  unfold stream_turn. apply checks_bind; [mute_tac|]. intros u. apply checks_bind; [mute_tac|]. intros x. cbv zeta.
  apply checks_bind; [apply call_model_mute|]. intros resp. apply checks_bind; [apply show_usage_mute|]. intros u0.
  apply checks_bind; [mute_tac|]. intros u1.
  apply checks_bind; [apply fill_mute|]. intros filled. apply checks_settle.
Qed.
Lemma stream_turns_checked fuel : forall s r s', Fine s -> stream_turns fuel s = Some (r, s') -> Fine s'.
Proof.
  induction fuel as [|fuel IH]; intros s r s' Hs; [done|]. simpl. destruct (Z.leb _ _); [by intros [= <- <-]|].
  pose proof (checks_turn s Hs) as Ht. destruct (stream_turn s) as [[u|t|e] s1]; [by apply IH|..]; by intros [= <- <-].
Qed.

(** C28: Under a validator the text callback of a stream gets only blank text
    and the text of answers the validator cleared and, unless the run is
    ephemeral, the session already holds.  The other callbacks are not covered:
    thinking, tool uses, tool results and token counts go out as they come. *)
Theorem streams_only_checked fuel initial res events :
  RunStream true fuel initial = Some (res, events) -> shows_checked events.
Proof.
  unfold RunStream. set (x0 := fold_left _ _ _).
  destruct (stream_turns fuel _) as [[r s]|] eqn:E; [|done]. intros [= _ <-].
  apply stream_turns_checked in E; [done|]. intros before text after H. by destruct before.
Qed.
End shown.
End stream.

(** ** A concrete stream *)

Section concrete.
Definition streaming_host : agent_host (Handler := nat) :=
  MkAgentHost demo_registry (fun _ => true) None 0 (lit "refused") obliging (fun n => Z.of_nat n)
    (fun _ => false) (fun _ => Ok tt) None (Some lenient) (fun _ => None) (fun _ => None)
    (fun _ _ _ => Returned (Ok (lit "running"))).
Definition demo_callbacks : StreamCallbacks := MkCallbacks true true true true true.
Definition demo_deltas (n : nat) (q : CompletionRequest) : list delta :=
  [DThinking (lit "promise it"); DText (lit "I promise"); DText (lit " it is done.")].
Definition demo_stream := RunStream streaming_host demo_config demo_turn demo_callbacks demo_deltas true 11 [].

(** The streamed draft stays hidden, the thinking beside it does not; the
    checked answer is shown once stored. *)
Example demo_stream_shows :
  List.filter is_show (events_of demo_stream)
  = [EvThinkShow (lit "promise it"); EvUsageShow 800 20;
     EvToolShow "call_1" (lit "running") false;
     EvThinkShow (lit "promise it"); EvUsageShow 900 6; EvShow (lit "The task is running.")].
Proof. vm_compute. reflexivity. Qed.

Lemma stream_is_tracked_witness :
  IsZero (c_ToolsDeadline demo_config) = true /\ h_checkpoint streaming_host = None
  /\ match demo_stream, RunTracked streaming_host demo_config demo_turn 11 [] with
     | Some (text, traces, e, o, events), Some (r, e', o', events') => strip events = events'
     | _, _ => False
     end.
Proof.
  split; [reflexivity|]. split; [reflexivity|].
  pose proof (stream_is_tracked streaming_host demo_config demo_turn demo_callbacks demo_deltas eq_refl eq_refl 11 []) as H.
  unfold demo_stream.
  assert (Hs : is_Some (RunStream streaming_host demo_config demo_turn demo_callbacks demo_deltas true 11 []))
    by (vm_compute; eexists; reflexivity).
  destruct (RunStream streaming_host demo_config demo_turn demo_callbacks demo_deltas true 11 [])
    as [[[[[text traces] e] o] events]|]; [|destruct Hs as [y Hy]; discriminate Hy].
  destruct (RunTracked streaming_host demo_config demo_turn 11 []) as [[[[r e'] o'] events']|]; [|exact H].
  exact (proj1 (proj2 (proj2 H))).
Defined.
Lemma streams_only_checked_witness :
  h_validate streaming_host <> None /\ shows_checked demo_config (events_of demo_stream).
Proof.
  split; [discriminate|]. unfold demo_stream.
  destruct (RunStream streaming_host demo_config demo_turn demo_callbacks demo_deltas true 11 []) as [[res events]|] eqn:E.
  - refine (streams_only_checked streaming_host demo_config demo_turn demo_callbacks demo_deltas _ 11 [] res events E). discriminate.
  - intros before text after H. simpl in H. destruct before; discriminate H.
Defined.
End concrete.
