(* ===== verification/Grounding.v ===== *)
(** * Grounding: the audit of a report against its sources

    internal/agenttask/grounding.go, graph_grounding.go and grounding_parts.go
    with the types of evaluator.go: the verdict on the claims of a report, its
    score, the strict reading of a graph task, the partition of a long report
    into audited parts and the combination of their verdicts, and the parser of
    an auditor's answer.

    Texts of reasons are those of the code; [IsPrint] is the Unicode table
    behind the verb [%q].  The score is computed in float64, as in Go. *)

From Stdlib Require Import Ascii String SpecFloat.
From stdpp Require Import pretty.
From S2P Require Import Prelude GoStrings Json GoJson GoTime Task TaskConfig Conversation AgentText.

Local Open Scope Z_scope.

(** ** Data *)

Record ClaimGrounding := MkClaim {
  Claim : string;
  ClaimType : string;
  cl_Status : string;
  SupportingDocURL : string;
  SupportingSpan : string;
  Issue : string;
}.

Record GroundingPartAudit := MkPartAudit { TargetHash : string; pa_Claims : list ClaimGrounding }.

Record GroundingVerdict := MkGrounding {
  AuditedParts : list GroundingPartAudit;
  gv_RetryDelay : duration;
  gv_Met : bool;
  gv_Unavailable : bool;
  gv_Reason : string;
  Claims : list ClaimGrounding;
  TotalCount : Z;
  GroundedCount : Z;
  PartialCount : Z;
  UngroundedCount : Z;
  gv_RecheckURLs : list string;
}.

Definition no_verdict : GroundingVerdict := MkGrounding [] 0 false false "" [] 0 0 0 0 [].
Definition of_claims (l : list ClaimGrounding) : GroundingVerdict :=
  MkGrounding [] 0 false false "" l 0 0 0 0 [].
Definition with_met (met unavailable : bool) (reason : string) (v : GroundingVerdict)
    : GroundingVerdict :=
  MkGrounding (AuditedParts v) (gv_RetryDelay v) met unavailable reason (Claims v) (TotalCount v)
    (GroundedCount v) (PartialCount v) (UngroundedCount v) (gv_RecheckURLs v).
Definition unavailable_audit (reason : string) (delay : duration) : GroundingVerdict :=
  MkGrounding [] delay false true reason [] 0 0 0 0 [].

(** ** Numbers *)

Definition float64_add := SFadd 53 1024.
Definition half : spec_float := float64_div (float64_of 1) (float64_of 2).
Definition groundedRatioThreshold : spec_float := float64_div (float64_of 7) (float64_of 10).

(** The verb [%.0f] of a non-negative float64: the nearest integer, the even
    one of two. *)
Definition round_even (x : spec_float) : Z :=
  match x with
  | S754_finite false m e =>
      if Z.leb 0 e then Z.pos m * 2 ^ e
      else
        let d := 2 ^ (- e) in
        let q := Z.pos m / d in
        match Z.compare (2 * (Z.pos m mod d)) d with
        | Lt => q
        | Gt => q + 1
        | Eq => if Z.even q then q else q + 1
        end
  | _ => 0
  end.

(** Half credit for a partially supported claim. *)
Definition support_ratio (grounded part total : Z) : spec_float :=
  float64_div (float64_add (float64_of grounded) (float64_mul half (float64_of part)))
    (float64_of total).
Definition enough_support (grounded part total : Z) : bool :=
  SFleb groundedRatioThreshold (support_ratio grounded part total).
Definition percent (x : spec_float) : string := pretty (round_even (float64_mul x (float64_of 100))).

Definition words (l : list string) : string := String.concat "" l.
Definition num (n : Z) : string := pretty n.

(** ** The score *)

Definition hard_category (t : string) : bool :=
  existsb (String.eqb t) ["attribution"; "architectural"; "numerical"; "quote"]%string.
Definition recheck_category (t : string) : bool :=
  existsb (String.eqb t) ["attribution"; "architectural"]%string.

Record tally := MkTally {
  t_grounded : Z;
  t_partial : Z;
  t_ungrounded : Z;
  t_hard : Z;
  t_first : option ClaimGrounding;
  t_recheck : list string;
}.

Definition recheck_of (c : ClaimGrounding) (seen : list string) : list string :=
  if recheck_category (ClaimType c) then
    let u := TrimSpace (SupportingDocURL c) in
    if String.eqb u "" || existsb (String.eqb u) seen then seen else seen ++ [u]
  else seen.

Definition count_claim (t : tally) (c : ClaimGrounding) : tally :=
  if String.eqb (cl_Status c) "grounded" then
    MkTally (t_grounded t + 1) (t_partial t) (t_ungrounded t) (t_hard t) (t_first t) (t_recheck t)
  else if String.eqb (cl_Status c) "partial" then
    MkTally (t_grounded t) (t_partial t + 1) (t_ungrounded t) (t_hard t) (t_first t) (t_recheck t)
  else if String.eqb (cl_Status c) "ungrounded" then
    if hard_category (ClaimType c) then
      MkTally (t_grounded t) (t_partial t) (t_ungrounded t + 1) (t_hard t + 1)
        (match t_first t with Some f => Some f | None => Some c end) (recheck_of c (t_recheck t))
    else MkTally (t_grounded t) (t_partial t) (t_ungrounded t + 1) (t_hard t) (t_first t) (t_recheck t)
  else t.

(** [truncate]: at most [max] runes. *)
Definition truncate (s : string) (max : nat) : bytes :=
  let r := runes_of (lit s) in
  if Nat.leb (length r) max then lit s else List.concat (take max r) ++ ellipsis.
Definition em_dash : bytes := encode_rune 8212.

Section score.
Context (IsPrint : Z -> bool).

Definition hard_detail (v : GroundingVerdict) (hard tolerance : Z) (c : ClaimGrounding) : string :=
  let quoted := str (Quote IsPrint (str (truncate (Claim c) 140))) in
  words [if Z.eqb tolerance 0
         then words ["ungrounded "; ClaimType c; " claim "; str em_dash; " "; quoted]
         else words [num hard; " hard ungrounded claims, only "; num tolerance; " tolerated for ";
                     num (TotalCount v); "-claim report; first "; str em_dash; " "; ClaimType c;
                     " claim "; quoted];
         if String.eqb (Issue c) "" then "" else words [" (issue: "; Issue c; ")"]]%string.

Definition score_reason (v : GroundingVerdict) (t : tally) (ratio : spec_float) (tolerance : Z)
    (met : bool) : string :=
  let head := words [num (GroundedCount v); "/"; num (TotalCount v)]%string in
  let part := words [" + "; num (PartialCount v); " partial (support "; percent ratio; "%)"]%string in
  if met then
    words [head; " claims grounded"; part;
      if Z.eqb (t_hard t) 0 then ", no hard-category ungrounded"
      else words [", "; num (t_hard t); " hard ungrounded within tolerance of "; num tolerance;
                  " for "; num (TotalCount v); "-claim report"]]%string
  else
    words [head; " grounded"; part; "; ";
      match Z.ltb tolerance (t_hard t), t_first t with
      | true, Some c => hard_detail v (t_hard t) tolerance c
      | _, _ => "support ratio below 70% threshold"
      end;
      match gv_RecheckURLs v with
      | [] => ""
      | l => words ["; you MUST re-fetch and re-verify: "; String.concat ", " l]
      end]%string.

Definition scoreGroundingVerdict (v : GroundingVerdict) : GroundingVerdict :=
  let t := fold_left count_claim (Claims v)
             (MkTally (GroundedCount v) (PartialCount v) (UngroundedCount v) 0 None []) in
  let total := t_grounded t + t_partial t + t_ungrounded t in
  let v := MkGrounding (AuditedParts v) (gv_RetryDelay v) (gv_Met v) (gv_Unavailable v) (gv_Reason v)
             (Claims v) total (t_grounded t) (t_partial t) (t_ungrounded t) (t_recheck t) in
  if Z.eqb total 0 then
    with_met true (gv_Unavailable v) "auditor returned no classifiable claims; nothing to verify" v
  else
    let tolerance := Z.quot total 20 in
    let met := enough_support (t_grounded t) (t_partial t) total && Z.leb (t_hard t) tolerance in
    with_met met (gv_Unavailable v)
      (score_reason v t (support_ratio (t_grounded t) (t_partial t) total) tolerance met) v.

(** ** The strict reading of a graph task *)

Definition known_type (t : string) : bool := hard_category t || String.eqb t "framing".
Definition known_status (s : string) : bool :=
  existsb (String.eqb s) ["grounded"; "partial"; "ungrounded"]%string.
Definition is_grounded (c : ClaimGrounding) : bool := String.eqb (cl_Status c) "grounded".
Definition is_framing (c : ClaimGrounding) : bool := String.eqb (ClaimType c) "framing".

Definition claim_issue (c : ClaimGrounding) : string :=
  words [cl_Status c; " "; ClaimType c; " claim "; str (Quote IsPrint (Claim c)); ": "; Issue c]%string.

(** The issues found, or the reason the audit is unusable. *)
Fixpoint strict_issues (l : list ClaimGrounding) : res string (list string) :=
  match l with
  | [] => Ok []
  | c :: l =>
      if negb (known_type (ClaimType c)) then Err "grounding audit returned an unknown claim type"%string
      else if negb (known_status (cl_Status c))
      then Err "grounding audit returned an unknown claim status"%string
      else
        issues ← strict_issues l;
        Ok (if negb (is_framing c) && negb (is_grounded c) then claim_issue c :: issues else issues)
  end.

Definition strictGraphGrounding (v : GroundingVerdict) : GroundingVerdict :=
  match Claims v with
  | [] => with_met false true "grounding audit returned no claims" v
  | l =>
      match strict_issues l with
      | Err reason => with_met false true reason v
      | Ok [] => v
      | Ok issues => with_met false (gv_Unavailable v) (String.concat "; " issues) v
      end
  end.

(** Whether a rejection leaves something to repair. *)
Fixpoint unsupported_claims (l : list ClaimGrounding) (unsupported : bool) : bool :=
  match l with
  | [] => unsupported
  | c :: l =>
      if negb (known_type (ClaimType c)) || negb (known_status (cl_Status c)) then false
      else unsupported_claims l (unsupported || negb (is_grounded c))
  end.
Definition graphGroundingRepairable (v : option GroundingVerdict) : bool :=
  match v with
  | None => true
  | Some v =>
      if gv_Unavailable v then false
      else if gv_Met v then true
      else match Claims v with [] => false | l => unsupported_claims l false end
  end.

(** ** Parts of a report *)

(** [strings.SplitAfter(s, "\n")]. *)
Fixpoint SplitAfterLine (s : bytes) : list bytes :=
  match s with
  | [] => [[]]
  | c :: s' =>
      if Ascii.eqb c (chr 10) then [c] :: SplitAfterLine s'
      else match SplitAfterLine s' with
           | l :: ls => (c :: l) :: ls
           | [] => [[c]]
           end
  end.

Definition targetRunes : Z := 2500.

(** The parts before the current one, the current one and its size. *)
Definition add_line (st : list bytes * bytes * Z) (line : bytes) : list bytes * bytes * Z :=
  let '(parts, current, size) := st in
  let n := rune_count line in
  if Z.ltb 0 size && Z.ltb targetRunes (size + n) then (parts ++ [current], line, n)
  else (parts, current ++ line, size + n).
Definition partitionGroundingReport (report : bytes) : list bytes :=
  let '(parts, current, _) := fold_left add_line (SplitAfterLine report) ([], [], 0) in
  match current with [] => parts | _ => parts ++ [current] end.

Definition combine_part (combined result : GroundingVerdict) : GroundingVerdict :=
  let claims := Claims combined ++ Claims result in
  if gv_Unavailable result then
    MkGrounding [] (Z.max (gv_RetryDelay combined) (gv_RetryDelay result)) false true
      (String.append "partitioned grounding incomplete: " (gv_Reason result)) claims 0 0 0 0 []
  else MkGrounding [] (gv_RetryDelay combined) false (gv_Unavailable combined) (gv_Reason combined)
         claims 0 0 0 0 [].
Definition combineGroundingParts (results : list GroundingVerdict) : GroundingVerdict :=
  let combined := fold_left combine_part results no_verdict in
  if gv_Unavailable combined then combined
  else strictGraphGrounding (scoreGroundingVerdict combined).
End score.

(** ** The auditor's answer *)

Definition as_claim (j : json) : option ClaimGrounding :=
  if is_object j || is_null j then
    claim ← decode_string "claim" j; type ← decode_string "claim_type" j;
    status ← decode_string "status" j; url ← decode_string "supporting_doc_url" j;
    span ← decode_string "supporting_span" j; issue ← decode_string "issue" j;
    Some (MkClaim claim type status url span issue)
  else None.
Definition as_claims : list ClaimGrounding -> json -> option (list ClaimGrounding) := as_list as_claim.

(** [strings.LastIndex(s, "}")] and [strings.Index(s, "{")]. *)
Definition open_brace : bytes := lit "{".
Definition close_brace : ascii := "}"%char.

(** A finished answer that lacks only the outer brace: an object whose one
    member is [claims]. *)
Definition recovered_claims (body : bytes) : option (list ClaimGrounding) :=
  match Index body open_brace, last body with
  | Some start, Some c =>
      if Ascii.eqb c "]"%char then
        match Members (drop start body ++ [close_brace]) with
        | Some (JObj fs) =>
            if forallb (fun p => String.eqb (fst p) "claims") fs then
              match last fs with
              | Some p => match as_claims [] (snd p) with
                          | Some (c :: l) => Some (c :: l)
                          | _ => None
                          end
              | None => None
              end
            else None
        | _ => None
        end
      else None
  | _, _ => None
  end.

(** [Err true]: no object in the answer; [Err false]: it does not decode. *)
Definition parseGroundingResponse (raw : bytes) : res bool GroundingVerdict :=
  let body := TrimSpace_b raw in
  match recovered_claims body with
  | Some l => Ok (of_claims l)
  | None =>
      match Index body open_brace, LastIndexByte body close_brace with
      | Some start, Some end_ =>
          if Nat.leb end_ start then Err true
          else
            match j ← Members (drop start (take (S end_) body)); decode_into [] as_claims "claims" j with
            | Some l => Ok (of_claims l)
            | None => Err false
            end
      | _, _ => Err true
      end
  end.

(** * Properties *)

(** ** The partition *)

Lemma split_lines_concat s : List.concat (SplitAfterLine s) = s.
Proof.
  induction s as [|c s IH]; [done|]. simpl. destruct (Ascii.eqb c (chr 10)); simpl; [by rewrite IH|].
  destruct (SplitAfterLine s) as [|l ls]; simpl in *; by rewrite <- IH.
Qed.

(** A part: non-empty lines with at most 2500 runes together, or one line. *)
Definition runes_in (ls : list bytes) : Z := foldr Z.add 0 (rune_count <$> ls).
Definition line_group (ls : list bytes) (p : bytes) : Prop :=
  p = List.concat ls /\ Forall (fun l => l <> []) ls
  /\ (runes_in ls <= targetRunes \/ exists l, ls = [l]).

Lemma runes_in_app a b : runes_in (a ++ b) = runes_in a + runes_in b.
Proof.
  unfold runes_in. rewrite fmap_app, foldr_app. generalize (rune_count <$> a). intros l.
  induction l as [|x l IH]; simpl; [done|lia].
Qed.

Lemma runes_in_one l : runes_in [l] = rune_count l.
Proof. unfold runes_in. simpl. lia. Qed.

Lemma rune_count_pos c s : 0 < rune_count (c :: s).
Proof.
  unfold rune_count. cbn [rune_list length]. destruct (rune_len (c :: s)); cbn [length]; lia.
Qed.

Lemma runes_in_zero ls : Forall (fun l => l <> []) ls -> runes_in ls <= 0 -> ls = [].
Proof.
  destruct ls as [|l ls]; [done|]. intros [Hl _]%Forall_cons H. destruct l as [|c l]; [done|].
  pose proof (rune_count_pos c l). change (rune_count (c :: l) + runes_in ls <= 0) in H.
  assert (0 <= runes_in ls); [|lia]. clear. induction ls as [|x ls IH]; [done|].
  change (0 <= rune_count x + runes_in ls). unfold rune_count. lia.
Qed.

(** What the loop keeps: parts of line groups, the current group and its
    size. *)
Definition part_ok (p : bytes) : Prop := p <> [] /\ exists ls, line_group ls p.
Definition grouped (st : list bytes * bytes * Z) : Prop :=
  Forall part_ok st.1.1 /\ exists ls, line_group ls st.1.2 /\ st.2 = runes_in ls.

Lemma add_line_grouped st line : grouped st -> grouped (add_line st line).
Proof.
  destruct st as [[parts current] size]. intros (Hp & ls & (Hc & Hne & Hb) & Hs). simpl in *. unfold add_line.
  destruct (Z.ltb_spec 0 size) as [H0|H0]; cbn [andb].
  - destruct (Z.ltb_spec targetRunes (size + rune_count line)) as [H1|H1].
    + split.
      * simpl. rewrite Forall_app, Forall_singleton. split; [done|]. split; [|by exists ls].
        intros ->. destruct ls as [|[|c l] ls]; [subst; unfold runes_in in H0; simpl in H0; lia| |done].
        by apply Forall_cons in Hne as [? _].
      * destruct line as [|c line]; [exists []; by repeat split; [|left]|].
        exists [c :: line]. rewrite runes_in_one. split_and!; [|done]. split_and!; [symmetry; apply app_nil_r| |].
        { by repeat constructor. }
        right. eauto.
    + split; [done|]. destruct line as [|c line].
      { exists ls. rewrite app_nil_r. split; [done|]. simpl. unfold rune_count. simpl. lia. }
      exists (ls ++ [c :: line]). rewrite runes_in_app, runes_in_one. split; [|simpl; lia]. split_and!.
      * rewrite concat_app, Hc. cbn [fst snd List.concat]. by rewrite app_nil_r.
      * rewrite Forall_app. split; [done|]. by repeat constructor.
      * left. rewrite runes_in_app, runes_in_one. simpl in *. lia.
  - assert (ls = []) as -> by (apply runes_in_zero; [done|lia]). simpl in Hc. subst current. split; [done|].
    simpl. destruct line as [|c line]; [exists []; split; [by repeat split; [|left]|]; subst; reflexivity|].
    exists [c :: line]. rewrite runes_in_one. split; [|unfold runes_in in Hs; simpl in Hs; lia].
    split_and!; [symmetry; apply app_nil_r|by repeat constructor|right; eauto].
Qed.

Lemma fold_grouped ls st : grouped st -> grouped (fold_left add_line ls st).
Proof. revert st. induction ls as [|l ls IH]; intros st H; [done|]. apply IH. by apply add_line_grouped. Qed.

Definition text_so_far (st : list bytes * bytes * Z) : bytes := List.concat st.1.1 ++ st.1.2.

Lemma add_line_text st line : text_so_far (add_line st line) = text_so_far st ++ line.
Proof.
  destruct st as [[parts current] size]. unfold add_line, text_so_far. destruct (_ && _); simpl.
  - by rewrite concat_app; simpl; rewrite app_nil_r.
  - by rewrite app_assoc.
Qed.

Lemma fold_text ls st : text_so_far (fold_left add_line ls st) = text_so_far st ++ List.concat ls.
Proof.
  revert st. induction ls as [|l ls IH]; intros st; simpl; [by rewrite app_nil_r|].
  by rewrite IH, add_line_text, app_assoc.
Qed.

(** The parts a long report is audited in put together are the report,
    byte for byte; none is empty, and each is a run of whole lines of at most
    2500 runes together, or a single longer line. *)
Theorem partition_keeps_report (report : bytes) :
  List.concat (partitionGroundingReport report) = report
  /\ Forall part_ok (partitionGroundingReport report).
Proof.
  unfold partitionGroundingReport.
  pose proof (fold_text (SplitAfterLine report) ([], [], 0)) as Ht.
  assert (grouped ([], [], 0)) as Hg.
  { split; [done|]. exists []. by repeat split; [|left]. }
  apply (fold_grouped (SplitAfterLine report)) in Hg. rewrite split_lines_concat in Ht.
  destruct (fold_left add_line _ _) as [[parts current] size]. unfold text_so_far in Ht. simpl in Ht.
  destruct Hg as (Hp & ls & Hl & _). simpl in *. destruct current as [|c current].
  - by rewrite app_nil_r in Ht.
  - rewrite concat_app, Forall_app, Forall_singleton. simpl. rewrite app_nil_r.
    split_and!; [done|done|]. split; [done|]. by exists ls.
Qed.

(** ** The score of a strict audit *)

Definition sound_claim (c : ClaimGrounding) : Prop :=
  known_type (ClaimType c) = true /\ known_status (cl_Status c) = true
  /\ (ClaimType c = "framing"%string \/ cl_Status c = "grounded"%string).

Definition share (s : string) (l : list ClaimGrounding) : Z :=
  Z.of_nat (length (List.filter (fun c => String.eqb (cl_Status c) s) l)).
Definition supported_enough (l : list ClaimGrounding) : bool :=
  enough_support (share "grounded" l) (share "partial" l)
    (share "grounded" l + share "partial" l + share "ungrounded" l).

Definition status_is (s : string) (c : ClaimGrounding) : Z :=
  if String.eqb (cl_Status c) s then 1 else 0.

Lemma share_cons s c l : share s (c :: l) = status_is s c + share s l.
Proof. unfold share, status_is. simpl. destruct (String.eqb _ _); simpl; lia. Qed.

Lemma count_claim_one t c :
  t_grounded (count_claim t c) = t_grounded t + status_is "grounded" c
  /\ t_partial (count_claim t c) = t_partial t + status_is "partial" c
  /\ t_ungrounded (count_claim t c) = t_ungrounded t + status_is "ungrounded" c
  /\ (sound_claim c -> t_hard (count_claim t c) = t_hard t).
Proof.
  unfold count_claim, status_is.
  destruct (String.eqb_spec (cl_Status c) "grounded") as [->|E1]; [cbn; split_and!; (lia || done)|].
  destruct (String.eqb_spec (cl_Status c) "partial") as [->|E2]; [cbn; split_and!; (lia || done)|].
  destruct (String.eqb_spec (cl_Status c) "ungrounded") as [E3|E3]; [|split_and!; (lia || done)].
  destruct (hard_category (ClaimType c)) eqn:Eh; cbn; (split_and!; [lia|lia|lia|]); intros (_ & _ & Hg); [|done].
  destruct Hg as [Hf|?]; [|congruence]. by rewrite Hf in Eh.
Qed.

Lemma count_claims l t :
  let t' := fold_left count_claim l t in
  t_grounded t' = t_grounded t + share "grounded" l
  /\ t_partial t' = t_partial t + share "partial" l
  /\ t_ungrounded t' = t_ungrounded t + share "ungrounded" l
  /\ (Forall sound_claim l -> t_hard t' = t_hard t).
Proof.
  revert t. induction l as [|c l IH]; intros t; [unfold share; simpl; split_and!; (lia || done)|].
  destruct (IH (count_claim t c)) as (H1 & H2 & H3 & H4), (count_claim_one t c) as (G1 & G2 & G3 & G4).
  rewrite !share_cons. cbn [fold_left] in *. split_and!; [lia|lia|lia|].
  intros [Hc Hl]%Forall_cons. by rewrite H4, G4.
Qed.

Section audit.
Context (IsPrint : Z -> bool).

Lemma strict_issues_none l : strict_issues IsPrint l = Ok [] <-> Forall sound_claim l.
Proof.
  unfold sound_claim. induction l as [|c l IH]; simpl; [by split|]. rewrite Forall_cons, <- IH.
  destruct (known_type (ClaimType c)) eqn:Et; simpl; [|by split; [|intros [(? & _) _]]].
  destruct (known_status (cl_Status c)) eqn:Es; simpl; [|by split; [|intros [(_ & ? & _) _]]].
  unfold is_framing, is_grounded.
  destruct (strict_issues IsPrint l) as [issues|e]; simpl; [|by split; [|intros [_ ?]]].
  destruct (String.eqb_spec (ClaimType c) "framing") as [Hf|Hf];
    destruct (String.eqb_spec (cl_Status c) "grounded") as [Hg|Hg]; simpl;
    (split; [intros [= ->]; eauto 6|intros [(_ & _ & [?|?]) [= ->]]; congruence || done]).
Qed.

(** The strict reading accepts a scored list of claims exactly when it is not
    empty, every claim is sound and enough of them are supported. *)
Definition audit_passes (l : list ClaimGrounding) : Prop :=
  l <> [] /\ Forall sound_claim l /\ supported_enough l = true.

Lemma sound_total l : Forall sound_claim l ->
  share "grounded" l + share "partial" l + share "ungrounded" l = Z.of_nat (length l).
Proof.
  induction 1 as [|c l (_ & Hs & _) _ IH]; [done|]. rewrite !share_cons. cbn [length].
  assert (status_is "grounded" c + status_is "partial" c + status_is "ungrounded" c = 1); [|lia].
  unfold known_status in Hs. unfold status_is. simpl in Hs.
  destruct (String.eqb_spec (cl_Status c) "grounded") as [E|]; [by rewrite E|].
  destruct (String.eqb_spec (cl_Status c) "partial") as [E|]; [by rewrite E|].
  by destruct (String.eqb_spec (cl_Status c) "ungrounded").
Qed.

Lemma strict_score v :
  gv_Unavailable v = false -> GroundedCount v = 0 -> PartialCount v = 0 -> UngroundedCount v = 0 ->
  let r := strictGraphGrounding IsPrint (scoreGroundingVerdict IsPrint v) in
  gv_Met r = true /\ gv_Unavailable r = false <-> audit_passes (Claims v).
Proof.
  intros Hu Hg Hp Hn. cbv zeta. unfold scoreGroundingVerdict, audit_passes, supported_enough. rewrite Hg, Hp, Hn.
  destruct (count_claims (Claims v) (MkTally 0 0 0 0 None [])) as (H1 & H2 & H3 & H4). cbn in H1, H2, H3, H4.
  set (t := fold_left _ _ _) in *. rewrite H1, H2, H3, !Z.add_0_l.
  pose proof (strict_issues_none (Claims v)) as Hi. pose proof (sound_total (Claims v)) as Hl.
  destruct (Z.eqb_spec (share "grounded" (Claims v) + share "partial" (Claims v)
                        + share "ungrounded" (Claims v)) 0) as [E|E];
    unfold strictGraphGrounding; cbn [with_met Claims];
    (destruct (Claims v) as [|c l]; [split; [intros [Hm _]; discriminate Hm|by intros [? _]]|]);
    (destruct (strict_issues IsPrint (c :: l)) as [[|x issues]|e];
     [|split; [intros [Hm _]; discriminate Hm|intros (_ & Hs%Hi & _); congruence]..]); cbn [with_met gv_Met gv_Unavailable].
  - exfalso. rewrite (Hl (proj1 Hi eq_refl)) in E. simpl in E. lia.
  - specialize (proj1 Hi eq_refl) as Hs. rewrite (H4 Hs), andb_true_iff, Z.leb_le, Hu.
    split; [by intros [[? _] _]|]. intros (_ & _ & ?). split_and!; [done| |done].
    apply Z.quot_pos; [|lia]. rewrite (Hl Hs). lia.
Qed.

Lemma combine_claims results v :
  Claims (fold_left combine_part results v) = Claims v ++ List.concat (Claims <$> results).
Proof.
  revert v. induction results as [|r results IH]; intros v; [by rewrite app_nil_r|].
  cbn [fold_left]. rewrite IH, fmap_cons. cbn [List.concat]. rewrite app_assoc. f_equal.
  unfold combine_part. by destruct (gv_Unavailable r).
Qed.

Lemma combine_available results v :
  gv_Unavailable (fold_left combine_part results v) = false
  <-> gv_Unavailable v = false /\ Forall (fun r => gv_Unavailable r = false) results.
Proof.
  revert v. induction results as [|r results IH]; intros v; [by split; [split|intros [? _]]|].
  cbn [fold_left]. rewrite IH, Forall_cons. unfold combine_part.
  destruct (gv_Unavailable r); simpl; [|tauto]. by split; [intros [? _]|intros (_ & ? & _)].
Qed.

Lemma combine_uncounted results v :
  GroundedCount v = 0 -> PartialCount v = 0 -> UngroundedCount v = 0 ->
  let c := fold_left combine_part results v in
  GroundedCount c = 0 /\ PartialCount c = 0 /\ UngroundedCount c = 0.
Proof.
  revert v. induction results as [|r results IH]; intros v ? ? ?; [done|].
  cbn [fold_left]. apply IH; unfold combine_part; by destruct (gv_Unavailable r).
Qed.

(** The audit of a report in parts passes exactly when every part was
    audited, the parts made claims, every claim has a known type and status,
    every claim but a framing one is grounded, and at least 70% of all are
    supported, a partial one by half.  One part that could not be audited, or
    one unsupported fact anywhere, keeps the whole report from passing. *)
Theorem combined_audit_strict (results : list GroundingVerdict) :
  gv_Met (combineGroundingParts IsPrint results) = true
  /\ gv_Unavailable (combineGroundingParts IsPrint results) = false
  <-> Forall (fun r => gv_Unavailable r = false) results
      /\ audit_passes (List.concat (Claims <$> results)).
Proof.
  unfold combineGroundingParts.
  pose proof (combine_available results no_verdict) as Ha.
  destruct (gv_Unavailable (fold_left _ _ _)) eqn:E.
  - rewrite E. split; [by intros [_ ?]|]. intros [H _]. destruct Ha as [_ Ha]. discriminate Ha. by split.
  - destruct Ha as [Ha _]. destruct (Ha eq_refl) as [_ Hr].
    destruct (combine_uncounted results no_verdict) as (? & ? & ?); [done..|].
    rewrite strict_score by done. rewrite combine_claims. cbn [Claims no_verdict app].
    split; [by intros ?|by intros [_ ?]].
Qed.
End audit.
