(* ===== verification/TaskReport.v ===== *)
(** * TaskReport: the notice of a finished report

    internal/core/task_report.go: [TaskReportNotification] announces a report
    by its title and a summary and ends with a marker naming the task;
    [SplitTaskReportMarker] takes the marker off again before the transport
    shows the text.  The localized first line and the text form of a UUID are
    arguments; [uuid_Parse] is the parser of package uuid. *)

From Stdlib Require Import Ascii String.
From S2P Require Import Prelude GoStrings Json GoJson Task Conversation AgentText.

Local Open Scope Z_scope.

Definition newline : ascii := chr 10.
Definition taskReportMarker : bytes := lit "[task_report:".

(** ** The summary *)

Definition summary_limit : Z := 700.
Definition finishSummary (lines : list bytes) : bytes := TrimSpace_b (Join [newline] lines).

Definition skipped_line (in_code : bool) (trimmed : bytes) : bool :=
  in_code || HasPrefix trimmed (lit "|") || HasPrefix trimmed (lit "[unverified_step_result]").
Definition separated (out : list bytes) : list bytes :=
  match last out with
  | Some (_ :: _) => out ++ [[]]
  | _ => out
  end.

Fixpoint summary_loop (lines out : list bytes) (size : Z) (in_code : bool) : bytes :=
  match lines with
  | [] => finishSummary out
  | line :: lines =>
      let trimmed := TrimSpace_b line in
      if HasPrefix trimmed (lit "```") then summary_loop lines out size (negb in_code)
      else if skipped_line in_code trimmed then summary_loop lines out size in_code
      else if HasPrefix trimmed (lit "#") then
        if Z.ltb 0 size then finishSummary out else summary_loop lines out size in_code
      else match trimmed with
      | [] =>
          if Z.leb 200 size then finishSummary out else summary_loop lines (separated out) size in_code
      | _ =>
          let runes := runes_of trimmed in
          if Z.ltb summary_limit (size + rune_count trimmed) then
            finishSummary (out ++
              [if Z.eqb size 0
               then TrimSpace_b (List.concat (take (Z.to_nat summary_limit) runes)) ++ ellipsis
               else ellipsis])
          else summary_loop lines (out ++ [trimmed]) (size + rune_count trimmed) in_code
      end
  end.
Definition taskReportSummary (body : bytes) : bytes :=
  summary_loop (split_at newline body) [] 0 false.

(** ** The notice and its marker *)

Section marker.
Context (uuid_String : uuid -> bytes) (uuid_Parse : bytes -> option uuid).

Definition marker (id : uuid) : bytes := taskReportMarker ++ uuid_String id ++ lit "]".
Definition notice (ready : bytes -> bytes) (title body : bytes) : bytes :=
  match taskReportSummary body with
  | [] => ready title
  | summary => ready title ++ [newline; newline] ++ summary
  end.
Definition TaskReportNotification (ready : bytes -> bytes) (title body : bytes) (id : uuid) : bytes :=
  notice ready title body ++ [newline] ++ marker id.

(** The character class of the identifier and [\s]. *)
Definition id_char (c : ascii) : bool :=
  in_range 48 57 c || in_range 97 102 c || Ascii.eqb c "-"%char.
Definition re_blank (c : ascii) : bool :=
  existsb (Ascii.eqb c) [chr 9; newline; chr 12; chr 13; " "%char].

(** The marker alone: its identifier, when only white space follows. *)
Definition marker_at (s : bytes) : option bytes :=
  if HasPrefix s taskReportMarker then
    let rest := drop 13 s in
    let id := take 36 rest in
    if Nat.eqb (length id) 36 && forallb id_char id then
      match drop 36 rest with
      | c :: tail => if Ascii.eqb c "]"%char && forallb re_blank tail then Some id else None
      | [] => None
      end
    else None
  else None.
(** The expression takes a newline before the marker with it. *)
Definition match_at (s : bytes) : option bytes :=
  match s with
  | c :: s' => if Ascii.eqb c newline then marker_at s' else marker_at s
  | [] => None
  end.

(** The leftmost match: the text before it and the identifier. *)
Fixpoint find_marker (s : bytes) : option (bytes * bytes) :=
  match match_at s with
  | Some id => Some ([], id)
  | None =>
      match s with
      | [] => None
      | c :: s' => '(before, id) ← find_marker s'; Some (c :: before, id)
      end
  end.

(** [strings.TrimRight(s, " \t\n")]. *)
Definition cut_char (c : ascii) : bool := existsb (Ascii.eqb c) [" "%char; chr 9; newline].
Fixpoint drop_cut (l : bytes) : bytes :=
  match l with
  | c :: l' => if cut_char c then drop_cut l' else l
  | [] => []
  end.
Definition TrimRightCut (s : bytes) : bytes := reverse (drop_cut (reverse s)).

Definition SplitTaskReportMarker (text : bytes) : bytes * uuid * bool :=
  match find_marker text with
  | None => (text, uuid_Nil, false)
  | Some (before, id) =>
      match uuid_Parse id with
      | None => (text, uuid_Nil, false)
      | Some u => (TrimRightCut before, u, true)
      end
  end.

(** * The round trip *)

(** The text form of a UUID: 36 hexadecimal digits and dashes, read back by the
    parser. *)
Definition uuid_text (u : uuid) : Prop :=
  length (uuid_String u) = 36%nat /\ forallb id_char (uuid_String u) = true
  /\ uuid_Parse (uuid_String u) = Some u.

Lemma marker_at_marker id : uuid_text id -> marker_at (marker id) = Some (uuid_String id).
Proof.
  intros (Hl & Hc & _). unfold marker_at, marker.
  assert (HasPrefix (taskReportMarker ++ uuid_String id ++ lit "]") taskReportMarker = true) as ->
    by (apply HasPrefix_spec; eauto).
  change (drop 13 (taskReportMarker ++ uuid_String id ++ lit "]")) with (uuid_String id ++ lit "]").
  rewrite (take_app_length' _ _ 36), (drop_app_length' _ _ 36), Hl, Hc by done. reflexivity.
Qed.

(** A match reaches to the end of the text, so it ends with the text's last
    bracket. *)
Lemma marker_at_Some s id : marker_at s = Some id ->
  exists tail, s = taskReportMarker ++ id ++ "]"%char :: tail /\ length id = 36%nat
    /\ forallb id_char id = true /\ forallb re_blank tail = true.
Proof.
  unfold marker_at. destruct (HasPrefix s taskReportMarker) eqn:Hp; [|done].
  apply HasPrefix_spec in Hp as [t ->].
  change (drop 13 (taskReportMarker ++ t)) with t.
  destruct (_ && _) eqn:E; [|done]. apply andb_true_iff in E as [Hl%Nat.eqb_eq Hc].
  destruct (drop 36 t) as [|c tail] eqn:Ed; [done|].
  destruct (Ascii.eqb_spec c "]"%char) as [->|]; [|done]. simpl.
  destruct (forallb re_blank tail) eqn:Eb; [|done]. intros [= <-]. exists tail.
  split_and!; [|done..]. rewrite <- (take_drop 36 t) at 1. by rewrite Ed.
Qed.

Lemma marker_at_length s id : marker_at (s ++ lit "]") = Some id -> length (s ++ lit "]") = 50%nat.
Proof.
  intros (tail & Hs & Hl & _ & Hb)%marker_at_Some. rewrite Hs.
  destruct tail as [|c tail] using rev_ind; [rewrite !length_app, Hl; reflexivity|].
  exfalso. rewrite forallb_app in Hb. apply andb_true_iff in Hb as [_ Hb].
  rewrite !app_comm_cons, !app_assoc in Hs. by apply app_inj_tail in Hs as [_ <-].
Qed.

Lemma find_marker_last pre id : uuid_text id ->
  find_marker (pre ++ newline :: marker id) = Some (pre, uuid_String id).
Proof.
  intros Hid. pose proof Hid as (Hl & _ & _). induction pre as [|c pre IH].
  - simpl. by rewrite marker_at_marker.
  - cbn [app find_marker].
    assert (forall s, (50 < length (s ++ lit "]"))%nat -> marker_at (s ++ lit "]") = None) as Hno.
    { intros s H. destruct (marker_at _) eqn:E; [|done]. apply marker_at_length in E. lia. }
    assert (match_at (c :: pre ++ newline :: marker id) = None) as ->.
    { unfold match_at, marker. destruct (Ascii.eqb c newline).
      - replace (pre ++ _) with ((pre ++ newline :: taskReportMarker ++ uuid_String id) ++ lit "]")
          by by rewrite <- !app_assoc, <- app_comm_cons, <- app_assoc. apply Hno. rewrite !length_app, length_cons, length_app, Hl. simpl. lia.
      - replace (c :: pre ++ _) with ((c :: pre ++ newline :: taskReportMarker ++ uuid_String id) ++ lit "]")
          by by rewrite <- app_comm_cons, <- app_assoc, <- app_comm_cons, <- app_assoc.
        apply Hno. rewrite length_app, length_cons, length_app, length_cons, length_app, Hl. simpl. lia. }
    by rewrite IH.
Qed.
End marker.

(** ** The property *)

(** The transport takes the marker off exactly as it was put on: the task
    of the notice and its text, whatever the title and the report contain. *)
Theorem report_marker_roundtrip uuid_String uuid_Parse (ready : bytes -> bytes) title body id :
  uuid_text uuid_String uuid_Parse id ->
  SplitTaskReportMarker uuid_Parse (TaskReportNotification uuid_String ready title body id)
  = (TrimRightCut (notice ready title body), id, true).
Proof.
  intros Hu. unfold SplitTaskReportMarker, TaskReportNotification.
  change ([newline] ++ ?m) with (newline :: m). rewrite (find_marker_last uuid_String uuid_Parse) by done.
  by destruct Hu as (_ & _ & ->).
Qed.

(** A UUID's text as 36 digits, a stand-in for package uuid. *)
Definition digits36 (u : uuid) : bytes :=
  reverse ((fun k => byte_of (48 + Z.of_N (u / 10 ^ N.of_nat k) mod 10)) <$> seq 0 36).
Definition report_sample : bytes :=
  lit "# Title" ++ [newline; newline] ++ lit "Prices fell." ++ [newline] ++ lit "[task_report:x]".
Definition report_ready (t : bytes) : bytes := lit "Ready: " ++ t.
Lemma report_marker_roundtrip_witness :
  SplitTaskReportMarker (fun _ => Some 7%N)
    (TaskReportNotification digits36 report_ready (lit "Market") report_sample 7%N)
  = (TrimRightCut (notice report_ready (lit "Market") report_sample), 7%N, true)
  /\ notice report_ready (lit "Market") report_sample
     = lit "Ready: Market" ++ [newline; newline] ++ lit "Prices fell." ++ [newline] ++ lit "[task_report:x]".
Proof.
  split; [|vm_compute; reflexivity]. apply report_marker_roundtrip. by repeat split; vm_compute.
Defined.
