(* ===== verification/FinalState.v ===== *)
(** * FinalState: what a graph task remembers of its final review

    The acceptance verdict of internal/agenttask/evaluator.go and the record
    [graphFinalValidation] of graph_validation.go, with their JSON: it is saved
    in the task's progress after every step of the review and read back by the
    next coordinator.

    A text is stored with its invalid bytes replaced, as [json.Marshal] does;
    an object decoded into a value that is already there is merged into it. *)

From Stdlib Require Import Ascii String.
From stdpp Require Import pretty.
From S2P Require Import Prelude GoStrings Json GoJson JsonText Task TaskConfig Grounding.

Local Open Scope Z_scope.

(** ** Data *)

Record AcceptanceVerdict := MkAcceptance {
  av_RetryDelay : duration;
  av_Met : bool;
  av_Reason : string;
  av_Unavailable : bool;
  av_Grounding : option GroundingVerdict;
  GroundingInputHash : string;
}.
Definition no_acceptance : AcceptanceVerdict := MkAcceptance 0 false "" false None "".

Record graphFinalValidation := MkFinal {
  RepairPending : bool;
  RepairAttempts : Z;
  RepairBody : string;
  Verdict : option AcceptanceVerdict;
  CandidateHash : string;
  fv_Attempts : Z;
  ResponseChecked : bool;
  fv_Accepted : bool;
  SafeBody : string;
  LastCheckedBody : string;
  fv_Reason : string;
}.
Definition fresh_validation (hash : string) : graphFinalValidation :=
  MkFinal false 0 "" None hash 0 false false "" "" "".

Definition checkedBody (v : graphFinalValidation) : string :=
  if ResponseChecked v && negb (blank (SafeBody v)) then SafeBody v else LastCheckedBody v.

(** ** Writing *)

Definition stored (s : string) : string := unquote (marshal_string_with (String.length s) (lit s)).
Definition jtext (s : string) : json := JStr (stored s).
Definition jint (n : Z) : json := JNum (pretty n).
(** A member, left out when [absent]. *)
Definition omit (absent : bool) (k : string) (v : json) : list (string * json) :=
  if absent then [] else [(k, v)].
Definition member_ (k : string) (v : json) := omit false k v.
Definition text_omit (k s : string) := omit (String.eqb s "") k (jtext s).
Definition jslice {A} (enc : A -> json) (l : list A) : json :=
  match l with [] => JNull | _ => JArr (enc <$> l) end.
Definition jpointer {A} (enc : A -> json) (o : option A) : json :=
  match o with Some v => enc v | None => JNull end.
Definition absent_list {A} (l : list A) : bool := match l with [] => true | _ => false end.

Definition enc_claim (c : ClaimGrounding) : json := JObj (List.concat [
  member_ "claim" (jtext (Claim c)); member_ "claim_type" (jtext (ClaimType c));
  member_ "status" (jtext (cl_Status c)); text_omit "supporting_doc_url" (SupportingDocURL c);
  text_omit "supporting_span" (SupportingSpan c); text_omit "issue" (Issue c)])%string.

Definition enc_part (p : GroundingPartAudit) : json := JObj (List.concat [
  member_ "target_hash" (jtext (TargetHash p)); member_ "claims" (jslice enc_claim (pa_Claims p))])%string.

Definition enc_grounding (v : GroundingVerdict) : json := JObj (List.concat [
  omit (absent_list (AuditedParts v)) "audited_parts" (jslice enc_part (AuditedParts v));
  omit (Z.eqb (gv_RetryDelay v) 0) "retry_delay_ns" (jint (gv_RetryDelay v));
  member_ "met" (JBool (gv_Met v)); omit (negb (gv_Unavailable v)) "unavailable" (JBool (gv_Unavailable v));
  member_ "reason" (jtext (gv_Reason v)); member_ "claims" (jslice enc_claim (Claims v));
  member_ "total_count" (jint (TotalCount v)); member_ "grounded_count" (jint (GroundedCount v));
  member_ "partial_count" (jint (PartialCount v)); member_ "ungrounded_count" (jint (UngroundedCount v));
  omit (absent_list (gv_RecheckURLs v)) "recheck_urls" (jslice jtext (gv_RecheckURLs v))])%string.

Definition enc_acceptance (v : AcceptanceVerdict) : json := JObj (List.concat [
  omit (Z.eqb (av_RetryDelay v) 0) "retry_delay_ns" (jint (av_RetryDelay v));
  member_ "met" (JBool (av_Met v)); member_ "reason" (jtext (av_Reason v));
  omit (negb (av_Unavailable v)) "unavailable" (JBool (av_Unavailable v));
  omit (is_none (av_Grounding v)) "grounding" (jpointer enc_grounding (av_Grounding v));
  text_omit "grounding_input_hash" (GroundingInputHash v)])%string.

Definition enc_final (v : graphFinalValidation) : json := JObj (List.concat [
  omit (negb (RepairPending v)) "repair_pending" (JBool (RepairPending v));
  omit (Z.eqb (RepairAttempts v) 0) "repair_attempts" (jint (RepairAttempts v));
  text_omit "repair_body" (RepairBody v);
  omit (is_none (Verdict v)) "verdict" (jpointer enc_acceptance (Verdict v));
  member_ "candidate_hash" (jtext (CandidateHash v)); member_ "attempts" (jint (fv_Attempts v));
  member_ "response_checked" (JBool (ResponseChecked v)); member_ "accepted" (JBool (fv_Accepted v));
  member_ "safe_body" (jtext (SafeBody v)); text_omit "last_checked_body" (LastCheckedBody v);
  text_omit "reason" (fv_Reason v)])%string.

(** ** Reading *)

Definition into_struct {A} (merge : A -> json -> option A) (a : A) (j : json) : option A :=
  if is_object j || is_null j then merge a j else None.
Definition into_pointer {A} (zero : A) (merge : A -> json -> option A) (o : option A) (j : json)
    : option (option A) :=
  match j with
  | JNull => Some None
  | _ => Some <$> merge (default zero o) j
  end.

Definition dec_part (j : json) : option GroundingPartAudit :=
  if is_object j || is_null j then
    hash ← decode_string "target_hash" j; claims ← decode_into [] as_claims "claims" j;
    Some (MkPartAudit hash claims)
  else None.

Definition merge_grounding : GroundingVerdict -> json -> option GroundingVerdict :=
  into_struct (fun v j =>
    parts ← decode_into (AuditedParts v) (as_list dec_part) "audited_parts" j;
    delay ← decode_field (gv_RetryDelay v) as_int "retry_delay_ns" j;
    met ← decode_field (gv_Met v) as_bool "met" j;
    unavailable ← decode_field (gv_Unavailable v) as_bool "unavailable" j;
    reason ← decode_field (gv_Reason v) as_string "reason" j;
    claims ← decode_into (Claims v) as_claims "claims" j;
    total ← decode_field (TotalCount v) as_int "total_count" j;
    grounded ← decode_field (GroundedCount v) as_int "grounded_count" j;
    part ← decode_field (PartialCount v) as_int "partial_count" j;
    ungrounded ← decode_field (UngroundedCount v) as_int "ungrounded_count" j;
    urls ← decode_into (gv_RecheckURLs v) (as_list as_text) "recheck_urls" j;
    Some (MkGrounding parts delay met unavailable reason claims total grounded part ungrounded urls)).

Definition merge_acceptance : AcceptanceVerdict -> json -> option AcceptanceVerdict :=
  into_struct (fun v j =>
    delay ← decode_field (av_RetryDelay v) as_int "retry_delay_ns" j;
    met ← decode_field (av_Met v) as_bool "met" j;
    reason ← decode_field (av_Reason v) as_string "reason" j;
    unavailable ← decode_field (av_Unavailable v) as_bool "unavailable" j;
    grounding ← decode_into (av_Grounding v) (into_pointer no_verdict merge_grounding) "grounding" j;
    hash ← decode_field (GroundingInputHash v) as_string "grounding_input_hash" j;
    Some (MkAcceptance delay met reason unavailable grounding hash)).

Definition merge_final : graphFinalValidation -> json -> option graphFinalValidation :=
  into_struct (fun v j =>
    pending ← decode_field (RepairPending v) as_bool "repair_pending" j;
    repairs ← decode_field (RepairAttempts v) as_int "repair_attempts" j;
    body ← decode_field (RepairBody v) as_string "repair_body" j;
    verdict ← decode_into (Verdict v) (into_pointer no_acceptance merge_acceptance) "verdict" j;
    hash ← decode_field (CandidateHash v) as_string "candidate_hash" j;
    attempts ← decode_field (fv_Attempts v) as_int "attempts" j;
    checked ← decode_field (ResponseChecked v) as_bool "response_checked" j;
    accepted ← decode_field (fv_Accepted v) as_bool "accepted" j;
    safe ← decode_field (SafeBody v) as_string "safe_body" j;
    last ← decode_field (LastCheckedBody v) as_string "last_checked_body" j;
    reason ← decode_field (fv_Reason v) as_string "reason" j;
    Some (MkFinal pending repairs body verdict hash attempts checked accepted safe last reason)).

(** [json.Unmarshal] of a task's progress into the struct that holds the state. *)
Definition final_validation_of (progress : json) : option graphFinalValidation :=
  if is_object progress || is_null progress
  then decode_into (fresh_validation "") merge_final "final_validation" progress
  else None.
(** What [save] writes. *)
Definition final_progress (v : graphFinalValidation) : json :=
  JObj [("final_validation", enc_final v); ("phase", JStr "finalizing")]%string.

(** * The round trip *)

(** ** Integers *)

Definition int64 (n : Z) : Prop := - 2 ^ 63 <= n < 2 ^ 63.

Lemma digit_char (x : N) : (x < 10)%N ->
  in_range 48 57 (pretty_N_char x) = true /\ code (pretty_N_char x) = 48 + Z.of_N x.
Proof.
  intros Hx.
  assert (x = 0 \/ x = 1 \/ x = 2 \/ x = 3 \/ x = 4 \/ x = 5 \/ x = 6 \/ x = 7 \/ x = 8 \/ x = 9)%N
    as Hc by lia. destruct_or! Hc; subst; done.
Qed.

Lemma parse_pretty_go : forall x s,
  parse_digits 0 (lit (pretty_N_go x s)) = parse_digits (Z.of_N x) (lit s).
Proof.
  intros x. induction (N.lt_wf_0 x) as [x _ IH]. intros s.
  destruct (decide (0 < x)%N) as [Hx|Hx].
  - rewrite pretty_N_go_step by done. rewrite IH by (apply N.div_lt; lia).
    destruct (digit_char (x `mod` 10)) as [Hr Hc]; [by apply N.mod_lt|].
    cbn [lit list_ascii_of_string parse_digits]. fold (lit s). rewrite Hr, Hc. f_equal.
    rewrite N2Z.inj_div, N2Z.inj_mod. pose proof (Z.div_mod (Z.of_N x) 10). lia.
  - assert (x = 0%N) as -> by lia. by rewrite pretty_N_go_0.
Qed.

Lemma pretty_go_head : forall x s, (0 < x)%N \/ (exists c l, lit s = c :: l /\ in_range 48 57 c = true) ->
  exists c l, lit (pretty_N_go x s) = c :: l /\ in_range 48 57 c = true.
Proof.
  intros x. induction (N.lt_wf_0 x) as [x _ IH]. intros s H.
  destruct (decide (0 < x)%N) as [Hx|Hx].
  - rewrite pretty_N_go_step by done. apply IH; [apply N.div_lt; lia|]. right.
    destruct (digit_char (x `mod` 10)) as [Hr _]; [by apply N.mod_lt|]. simpl. eauto.
  - destruct H as [?|H]; [done|]. assert (x = 0%N) as -> by lia. by rewrite pretty_N_go_0.
Qed.

Lemma digit_not_sign c : in_range 48 57 c = true ->
  Ascii.eqb c "-"%char = false /\ Ascii.eqb c "+"%char = false.
Proof. intros H. split; apply Ascii.eqb_neq; by intros ->. Qed.

Lemma ParseInt_pos (p : positive) : int64 (Z.pos p) -> ParseInt (lit (pretty (Z.pos p))) = Some (Z.pos p).
Proof.
  intros H. change (pretty (Z.pos p)) with (pretty_N_go (N.pos p) "").
  destruct (pretty_go_head (N.pos p) "") as (c & l & Hl & Hc); [left; lia|].
  pose proof (parse_pretty_go (N.pos p) "") as Hp. unfold ParseInt. rewrite Hl in *.
  destruct (digit_not_sign _ Hc) as [-> ->]. rewrite Hp. cbn -[Z.leb Z.ltb Z.pow].
  unfold int64 in H. by rewrite (proj2 (Z.leb_le _ _)), (proj2 (Z.ltb_lt _ _)) by lia.
Qed.

Lemma ParseInt_neg (p : positive) : int64 (Z.neg p) -> ParseInt (lit (pretty (Z.neg p))) = Some (Z.neg p).
Proof.
  intros H. change (lit (pretty (Z.neg p))) with ("-"%char :: lit (pretty_N_go (N.pos p) "")).
  destruct (pretty_go_head (N.pos p) "") as (c & l & Hl & Hc); [left; lia|].
  pose proof (parse_pretty_go (N.pos p) "") as Hp. unfold ParseInt. rewrite Hl in *.
  rewrite Ascii.eqb_refl. rewrite Hp. cbn -[Z.leb Z.ltb Z.pow].
  unfold int64 in H. by rewrite (proj2 (Z.leb_le _ _)), (proj2 (Z.ltb_lt _ _)) by lia.
Qed.

Lemma as_int_jint n : int64 n -> as_int (jint n) = Some n.
Proof. destruct n as [|p|p]; intros H; [done|by apply ParseInt_pos|by apply ParseInt_neg]. Qed.

(** ** Members *)

Lemma stored_ok s : text_ok s -> stored s = s.
Proof. apply unquote_marshal. Qed.

Lemma decode_skip {A} (conv : json -> option A) k k' absent v rest (acc : option A) :
  same_name k k' = false ->
  fold_left (assign conv k) (omit absent k' v ++ rest) acc = fold_left (assign conv k) rest acc.
Proof. intros H. destruct absent; simpl; [done|]. unfold assign at 2. simpl. by rewrite H. Qed.

Lemma decode_here {A} (conv : json -> option A) k k' absent v x rest (z : A) :
  same_name k k' = true -> is_null v = false -> conv v = Some x -> (absent = true -> x = z) ->
  fold_left (assign conv k) (omit absent k' v ++ rest) (Some z) = fold_left (assign conv k) rest (Some x).
Proof.
  intros H Hn Hc Ha. destruct absent; simpl; [by rewrite Ha|]. unfold assign at 2. simpl. rewrite H.
  f_equal. by destruct v.
Qed.

Definition merge_step {A} (conv : A -> json -> option A) (k : string) (acc : option A) (p : string * json)
    : option A := if same_name k (fst p) then v ← acc; conv v (snd p) else acc.

Lemma decode_into_members {A} (z : A) conv k fs :
  decode_into z conv k (JObj fs) = fold_left (merge_step conv k) fs (Some z).
Proof. done. Qed.

Lemma merge_skip {A} (conv : A -> json -> option A) k k' absent v rest (acc : option A) :
  same_name k k' = false ->
  fold_left (merge_step conv k) (omit absent k' v ++ rest) acc = fold_left (merge_step conv k) rest acc.
Proof. intros H. destruct absent; simpl; [done|]. unfold merge_step at 2. simpl. by rewrite H. Qed.

Lemma merge_here {A} (conv : A -> json -> option A) k k' absent v x rest (z : A) :
  same_name k k' = true -> conv z v = Some x -> (absent = true -> x = z) ->
  fold_left (merge_step conv k) (omit absent k' v ++ rest) (Some z) = fold_left (merge_step conv k) rest (Some x).
Proof. intros H Hc Ha. destruct absent; simpl; [by rewrite Ha|]. unfold merge_step at 2. simpl. by rewrite H, Hc. Qed.

(** Walks through the members of a document that is being decoded. *)
Ltac member_steps :=
  repeat first
    [ rewrite decode_skip by reflexivity
    | rewrite merge_skip by reflexivity
    | erewrite decode_here; [|reflexivity|reflexivity| |]
    | erewrite merge_here; [|reflexivity| |] ].

(** ** What can be stored *)

Definition storable_claim (c : ClaimGrounding) : Prop :=
  Forall text_ok [Claim c; ClaimType c; cl_Status c; SupportingDocURL c; SupportingSpan c; Issue c].
Definition storable_part (p : GroundingPartAudit) : Prop :=
  text_ok (TargetHash p) /\ Forall storable_claim (pa_Claims p).
Definition storable_grounding (v : GroundingVerdict) : Prop :=
  Forall storable_part (AuditedParts v) /\ Forall storable_claim (Claims v) /\ text_ok (gv_Reason v)
  /\ Forall text_ok (gv_RecheckURLs v)
  /\ Forall int64 [gv_RetryDelay v; TotalCount v; GroundedCount v; PartialCount v; UngroundedCount v].
Definition storable_acceptance (v : AcceptanceVerdict) : Prop :=
  text_ok (av_Reason v) /\ text_ok (GroundingInputHash v) /\ int64 (av_RetryDelay v)
  /\ (forall g, av_Grounding v = Some g -> storable_grounding g).
Definition storable (v : graphFinalValidation) : Prop :=
  Forall text_ok [RepairBody v; CandidateHash v; SafeBody v; LastCheckedBody v; fv_Reason v]
  /\ Forall int64 [RepairAttempts v; fv_Attempts v]
  /\ (forall a, Verdict v = Some a -> storable_acceptance a).

Lemma as_string_jtext s : text_ok s -> as_string (jtext s) = Some s.
Proof. intros H. unfold jtext. simpl. by rewrite stored_ok. Qed.

Lemma mapM_enc {A} (enc : A -> json) (dec : json -> option A) l :
  Forall (fun x => dec (enc x) = Some x) l -> mapM dec (enc <$> l) = Some l.
Proof. intros H. by apply mapM_Some_2, Forall2_fmap_l, Forall_Forall2_diag. Qed.

Lemma as_list_jslice {A} (enc : A -> json) (dec : json -> option A) z l :
  Forall (fun x => dec (enc x) = Some x) l -> as_list dec z (jslice enc l) = Some l.
Proof. intros H. destruct l as [|x l]; [done|]. by apply mapM_enc. Qed.

(** The side conditions [member_steps] leaves: the value reads back, and it is
    the zero value when its member is left out. *)
Ltac member_sides :=
  first
    [ done
    | by apply as_string_jtext | by apply as_int_jint
    | by intros ->%String.eqb_eq | by intros ->%Z.eqb_eq
    | intros E%negb_true_iff; by rewrite E
    | by match goal with |- absent_list ?l = true -> _ => destruct l end
    | by match goal with |- is_none ?o = true -> _ => destruct o end ].
Ltac split_all :=
  repeat match goal with
  | H : Forall _ (_ :: _) |- _ => apply Forall_cons in H as [? H]
  | H : Forall _ [] |- _ => clear H
  | H : _ /\ _ |- _ => destruct H
  end.

Lemma decode_claim c : storable_claim c -> as_claim (enc_claim c) = Some c.
Proof.
  intros H. unfold storable_claim in H. split_all.
  unfold as_claim, enc_claim, text_omit, member_, decode_string, decode_field. cbn [is_object is_null orb List.concat].
  destruct c as [c1 c2 c3 c4 c5 c6].
  cbn [Claim ClaimType cl_Status SupportingDocURL SupportingSpan Issue] in *.
  member_steps; [reflexivity|member_sides..].
Qed.

Lemma decode_claims z l : Forall storable_claim l -> as_claims z (jslice enc_claim l) = Some l.
Proof.
  intros H. apply as_list_jslice. eapply Forall_impl; [exact H|]. intros c. apply decode_claim.
Qed.

Lemma decode_part p : storable_part p -> dec_part (enc_part p) = Some p.
Proof.
  intros H. unfold storable_part in H. split_all. destruct p as [hash claims].
  unfold dec_part, enc_part, member_, decode_string, decode_field. rewrite decode_into_members.
  cbn [is_object is_null orb List.concat TargetHash pa_Claims] in *.
  member_steps; [reflexivity|..]; first [by apply decode_claims|member_sides].
Qed.

Lemma decode_parts z l : Forall storable_part l -> as_list dec_part z (jslice enc_part l) = Some l.
Proof. intros H. apply as_list_jslice. eapply Forall_impl; [exact H|]. intros p. apply decode_part. Qed.
Lemma decode_texts z l : Forall text_ok l -> as_list as_text z (jslice jtext l) = Some l.
Proof.
  intros H. apply as_list_jslice. eapply Forall_impl; [exact H|]. intros s Hs. simpl. by rewrite stored_ok.
Qed.

Lemma decode_grounding v : storable_grounding v -> merge_grounding no_verdict (enc_grounding v) = Some v.
Proof.
  intros H. unfold storable_grounding in H. split_all.
  destruct v as [parts delay met unavailable reason claims total grounded part ungrounded urls].
  unfold merge_grounding, into_struct, enc_grounding, member_, text_omit, decode_field.
  rewrite !decode_into_members.
  cbn [is_object is_null orb List.concat AuditedParts gv_RetryDelay gv_Met gv_Unavailable gv_Reason Claims
       TotalCount GroundedCount PartialCount UngroundedCount gv_RecheckURLs no_verdict] in *.
  member_steps; [reflexivity|..];
    first [by apply decode_claims|by apply decode_parts|by apply decode_texts|member_sides].
Qed.

(** A pointer: the value, or nothing. *)
Lemma decode_pointer {A} (zero : A) merge enc (o : option A) :
  (forall v, o = Some v -> merge zero (enc v) = Some v /\ is_null (enc v) = false) ->
  into_pointer zero merge None (jpointer enc o) = Some o.
Proof.
  destruct o as [v|]; [|done]. intros H. destruct (H v eq_refl) as [Hm Hn]. simpl.
  unfold into_pointer. simpl. rewrite Hm. by destruct (enc v).
Qed.

Lemma decode_acceptance v : storable_acceptance v -> merge_acceptance no_acceptance (enc_acceptance v) = Some v.
Proof.
  intros (Hr & Hh & Hd & Hg). destruct v as [delay met reason unavailable grounding hash].
  unfold merge_acceptance, into_struct, enc_acceptance, member_, text_omit, decode_field.
  rewrite !decode_into_members.
  cbn [is_object is_null orb List.concat av_RetryDelay av_Met av_Reason av_Unavailable av_Grounding
       GroundingInputHash no_acceptance] in *.
  member_steps; [reflexivity|..];
    first [apply decode_pointer; intros g Eg; split; [by apply decode_grounding, Hg|done]|member_sides].
Qed.

Lemma decode_final v : storable v -> merge_final (fresh_validation "") (enc_final v) = Some v.
Proof.
  intros (Ht & Hi & Hv). split_all.
  destruct v as [pending repairs body verdict hash attempts checked accepted safe lastb reason].
  unfold merge_final, into_struct, enc_final, member_, text_omit, decode_field, fresh_validation.
  rewrite !decode_into_members.
  cbn [is_object is_null orb List.concat RepairPending RepairAttempts RepairBody Verdict CandidateHash
       fv_Attempts ResponseChecked fv_Accepted SafeBody LastCheckedBody fv_Reason] in *.
  member_steps; [reflexivity|..];
    first [apply decode_pointer; intros a Ea; split; [by apply decode_acceptance, Hv|done]|member_sides].
Qed.

(** ** In the task's progress *)

(** What the progress column holds after [save]: the saved members replace
    those of the object that is there. *)
Definition saved_progress (p : json) (v : graphFinalValidation) : json :=
  concat (match p with JNull => JObj [] | q => q end) (final_progress v).

(** No other member of the progress is taken for the state. *)
Definition plain_name (k : string) : Prop := same_name "final_validation" k = true -> k = "final_validation"%string.
Definition plain_progress (p : json) : Prop :=
  match p with
  | JObj fs => Forall (fun q => plain_name (fst q)) fs
  | JNull => True
  | _ => False
  end.

Lemma remove_key_Forall {A} (P : string * A -> Prop) k fs : Forall P fs -> Forall P (remove_key k fs).
Proof.
  intros H. apply Forall_forall. intros q Hq. unfold remove_key in Hq.
  apply list_elem_of_In, filter_In in Hq as [Hq _]. rewrite Forall_forall in H. by apply H, list_elem_of_In.
Qed.

Lemma merge_other {A} (conv : A -> json -> option A) k fs acc :
  Forall (fun q => same_name k (fst q) = false) fs -> fold_left (merge_step conv k) fs acc = acc.
Proof. induction 1 as [|q fs Hq _ IH]; [done|]. cbn [fold_left]. unfold merge_step at 2. by rewrite Hq. Qed.

Lemma removed_other fs : Forall (fun q : string * json => plain_name (fst q)) fs ->
  Forall (fun q => same_name "final_validation" (fst q) = false) (remove_key "final_validation" fs).
Proof.
  intros H. apply Forall_forall. intros q Hq. unfold remove_key in Hq.
  apply list_elem_of_In, filter_In in Hq as [Hq Hne]. rewrite Forall_forall in H.
  apply list_elem_of_In, H in Hq. unfold plain_name in Hq. destruct (same_name _ _); [|done].
  by rewrite (Hq eq_refl) in Hne.
Qed.

Definition phase_member : string * json := ("phase"%string, JStr "finalizing").
Lemma saved_members fs v :
  saved_progress (JObj fs) v
  = JObj (remove_key "phase" (remove_key "final_validation" fs) ++ [("final_validation"%string, enc_final v); phase_member]).
Proof.
  unfold saved_progress, final_progress, concat, concat_fields. cbn [fold_left fst snd]. unfold set_key. f_equal.
  unfold remove_key at 1. rewrite List.filter_app. cbn [List.filter fst String.eqb Ascii.eqb Bool.eqb negb].
  by rewrite <- app_assoc.
Qed.

Lemma final_validation_of_saved p v : plain_progress p ->
  final_validation_of (saved_progress p v) = merge_final (fresh_validation "") (enc_final v)
  /\ plain_progress (saved_progress p v).
Proof.
  intros Hp. assert (exists fs, saved_progress p v = saved_progress (JObj fs) v
      /\ Forall (fun q => plain_name (fst q)) fs) as (fs & -> & Hfs).
  { destruct p as [| | | | |fs]; try done; [by exists []|by exists fs]. }
  rewrite saved_members. split.
  - unfold final_validation_of. cbn [is_object orb]. rewrite decode_into_members, fold_left_app.
    rewrite (merge_other _ _ (remove_key _ _)) by by apply remove_key_Forall, removed_other. cbn [fold_left].
    unfold merge_step. cbn [fst snd phase_member].
    change (same_name "final_validation" "phase") with false.
    by change (same_name "final_validation" "final_validation") with true.
  - simpl. rewrite Forall_app. split; [by do 2 apply remove_key_Forall|].
    constructor; [by intros _|]. constructor; [by vm_compute|constructor].
Qed.

(** What a coordinator saves of the final review is what the next one
    reads: the counters, the drafts, the reviewer's verdict and the audit of
    every claim come back unchanged from the task's progress, whatever else is
    kept there. *)
Theorem final_state_roundtrip p v :
  plain_progress p -> storable v ->
  final_validation_of (saved_progress p v) = Some v /\ plain_progress (saved_progress p v).
Proof.
  intros Hp Hv. destruct (final_validation_of_saved p v Hp) as [-> ?]. split; [by apply decode_final|done].
Qed.

(** Whatever its texts are, what is read back of a saved state agrees with it
    on the flags and the counters, and on the texts as they are stored. *)
Lemma final_read p v f :
  plain_progress p -> int64 (RepairAttempts v) -> final_validation_of (saved_progress p v) = Some f ->
  RepairPending f = RepairPending v /\ fv_Accepted f = fv_Accepted v
  /\ RepairAttempts f = RepairAttempts v /\ CandidateHash f = stored (CandidateHash v).
Proof.
  intros Hp Hi. rewrite (proj1 (final_validation_of_saved p v Hp)).
  unfold merge_final, into_struct, enc_final. cbn [is_object orb].
  set (fs := List.concat _). intros Hf.
  repeat match goal with H : _ ≫= _ = Some _ |- _ => apply bind_Some in H as (? & ? & H) end.
  match goal with H : Some _ = Some f |- _ => injection H as <- end.
  cbn [RepairPending fv_Accepted RepairAttempts CandidateHash].
  assert (decode_field false as_bool "repair_pending" (JObj fs) = Some (RepairPending v)) as E1.
  { unfold decode_field, fs, member_, text_omit. cbn [List.concat]. member_steps; [reflexivity|member_sides..]. }
  assert (decode_field false as_bool "accepted" (JObj fs) = Some (fv_Accepted v)) as E2.
  { unfold decode_field, fs, member_, text_omit. cbn [List.concat]. member_steps; [reflexivity|member_sides..]. }
  assert (decode_field 0 as_int "repair_attempts" (JObj fs) = Some (RepairAttempts v)) as E3.
  { unfold decode_field, fs, member_, text_omit. cbn [List.concat]. member_steps; [reflexivity|member_sides..]. }
  assert (decode_field "" as_string "candidate_hash" (JObj fs) = Some (stored (CandidateHash v))) as E4.
  { unfold decode_field, fs, member_, text_omit. cbn [List.concat]. member_steps; [reflexivity|done..]. }
  unfold fresh_validation in *. cbn [RepairPending fv_Accepted RepairAttempts CandidateHash] in *.
  split_and!; congruence.
Qed.

Definition sample_validation : graphFinalValidation :=
  MkFinal true 1 "" (Some (MkAcceptance 0 false "one claim is unsupported" false
      (Some (MkGrounding [] 0 false false "x" [MkClaim "a" "numerical" "partial" "" "" "no source"] 1 0 1 0 []))
      "h"))
    "abc" 2 true false "Draft" "Draft" "one claim is unsupported".
Lemma final_state_roundtrip_witness :
  final_validation_of (saved_progress (JObj [("plan_attempts"%string, JNum "1")]) sample_validation)
  = Some sample_validation.
Proof.
  apply final_state_roundtrip.
  - constructor; [by vm_compute|constructor].
  - split_and!.
    + by repeat constructor.
    + repeat constructor; vm_compute; done.
    + intros a [= <-]. split_and!; [done|done|by vm_compute|].
      intros g [= <-]. split_and!; repeat constructor; vm_compute; done.
Defined.
