(* ===== verification/TaskRetry.v ===== *)
(** * TaskRetry: which failures are worth another attempt

    internal/core/task_retry.go.  A Go error is represented by its text and by
    what [errors.Is] and [errors.As] find in its chain; [http_time] is the date
    parser of package net/http. *)

From Stdlib Require Import Ascii String.
From S2P Require Import Prelude GoStrings Json GoJson Task.

Local Open Scope Z_scope.

Record HTTPFailure := MkHTTP { Code : Z; RetryDelay : duration }.

Record failure := MkFailure {
  Error : string;
  is_canceled : bool;                     (* context.Canceled *)
  is_claim_lost : bool;                   (* ErrTaskClaimLost *)
  as_http : option HTTPFailure;
  is_deadline : bool;                     (* context.DeadlineExceeded *)
  is_broken : bool;                       (* an unexpected EOF or a broken connection *)
  as_network : option (bool * bool);      (* a net.Error: Timeout, Temporary *)
  is_unverified : bool;                   (* ErrTaskVerificationUnavailable *)
}.
Definition plain_failure (text : string) : failure :=
  MkFailure text false false None false false None false.

Definition max_duration : duration := 2 ^ 63 - 1.
Definition clamp_duration (d : Z) : duration := Z.max (- 2 ^ 63) (Z.min max_duration d).

(** [NewHTTPFailure]: the delay of a Retry-After header, in seconds or as a
    date. *)
Definition positive_seconds (header : bytes) : option Z :=
  match ParseInt (TrimSpace_b header) with
  | Some seconds => if Z.ltb 0 seconds then Some seconds else None
  | None => None
  end.
Definition retry_after (http_time : bytes -> option time) (now : time) (header : bytes) : duration :=
  match positive_seconds header with
  | Some seconds => if Z.ltb (Z.quot max_duration Second) seconds then max_duration else seconds * Second
  | None =>
      match http_time header with
      | Some at_ => Z.max 0 (clamp_duration (at_ - now))
      | None => 0
      end
  end.
Definition NewHTTPFailure (http_time : bytes -> option time) (now : time) (code : Z) (header : bytes)
    : HTTPFailure := MkHTTP code (retry_after http_time now header).

Definition retried_code (code : Z) : bool :=
  Z.eqb code 408 || Z.eqb code 429 || (Z.leb 500 code && Z.leb code 599).

(** Whether to try again, and the delay the provider asked for. *)
Definition TaskRetryPolicy (err : option failure) : bool * duration :=
  match err with
  | None => (false, 0)
  | Some e =>
      if is_canceled e || is_claim_lost e then (false, 0)
      else match as_http e with
      | Some h => (retried_code (Code h), RetryDelay h)
      | None =>
          if is_deadline e || is_broken e then (true, 0)
          else match as_network e with
          | Some (timeout, temporary) => (timeout || temporary, 0)
          | None => (false, 0)
          end
      end
  end.

(** The delay is never negative and fits a duration. *)
Lemma retry_after_range http_time now header :
  0 <= retry_after http_time now header <= max_duration.
Proof.
  unfold retry_after, clamp_duration, max_duration.
  destruct (positive_seconds header) as [seconds|] eqn:E.
  - unfold positive_seconds in E. destruct (ParseInt _) as [n|]; [|done].
    destruct (Z.ltb_spec 0 n) as [H0|_]; [|done]. simplify_eq.
    destruct (Z.ltb_spec (Z.quot (2 ^ 63 - 1) Second) seconds); [by split|]. unfold Second in *.
    change (Z.quot (2 ^ 63 - 1) 1000000000) with 9223372036 in *. lia.
  - destruct (http_time header); lia.
Qed.
