(* ===== verification/GraphRun.v ===== *)
(** * GraphRun: one coordinator run of a graph task

    internal/agenttask/graph_runner.go and graph_validation.go:
    [executeGraphTask] plans a task that has no steps yet, runs its steps,
    resolves the stuck ones, and ends the task or hands it back until a step
    may be retried; [validateGraphResult] reviews the final report, asks for
    repairs and publishes it.

    The step executor is GraphExec's; here it is the error its [Run] returns,
    and its writes are among the doings of [others].  The planner, the
    synthesis of a partial report, the repair, the response validator and the
    review are the host's answers.  Fuel bounds the two self-calls; [None] is
    its end, which GraphRunEnd shows not to be reached with fuel for the steps of
    a task and four rounds of review. *)

From Stdlib Require Import Ascii String.
From stdpp Require Import pretty.
From S2P Require Import Prelude GoStrings Json GoJson Task GoTime TaskPlan Store StepStore StepInv Lifecycle GraphExec.
From S2P Require Import Finalize TaskRows TaskProgram TaskConfig Registry TaskTools World Notify Execute.
From S2P Require Import TaskReport TaskRetry Grounding FinalState.

Local Open Scope Z_scope.

(** ** The host *)

(** The receipts and traces of the confirmed steps. *)
Record ToolExecutionResult := MkToolResult {
  tr_Name : string;
  tr_Input : bytes;
  tr_Output : string;
  tr_IsError : bool;
}.
Definition as_tool_result (j : json) : option ToolExecutionResult :=
  if is_object j || is_null j then
    name ← decode_string "name" j; output ← decode_string "output" j;
    is_error ← decode_bool "is_error" j;
    Some (MkToolResult name (raw_member "input" j) output is_error)
  else None.

Record graph_host {H : Type} := MkGraphHost {
  g_exec : Execute.executor H;              (* the scheduler *)
  g_handler : H;
  g_inject : option (nat -> AgentTask -> string);
  g_plan : nat -> AgentTask -> ToolRegistry (Handler := H) -> string -> res failure (list TaskStep);
  g_run : nat -> AgentTask -> option gerr;  (* GraphExecutor.Run *)
  g_synthesize : option (nat -> AgentTask -> list TaskStep -> res failure string);
  g_repair : option (nat -> AgentTask -> string -> string -> res failure string);
  g_validate : option (nat -> AgentTask -> string -> list ToolExecutionResult -> res failure string);
  g_review : nat -> AgentTask -> string -> json -> option AcceptanceVerdict -> AcceptanceVerdict;
  g_sha256 : string -> string;              (* in hexadecimal *)
  g_order : gmap string TaskStep -> list string;
  g_timestamp : time -> string;
  g_cancelled : nat -> bool;                (* ctx.Err() != nil *)
  g_reserve : duration;                     (* Timeouts.TaskFinalizeReserve *)
  g_ready : string -> string;               (* UI.TaskReadyFmt *)
  g_empty : string -> string;               (* UI.TaskFailureEmptyFmt *)
}.
Arguments graph_host : clear implicits.

Inductive run_error : Type :=
| RStore (e : StoreError)
| RExecutor (e : gerr)
| RCanceled
| RDecode
| RNoClaim.                                 (* the nil dereference of task.LastRunAt *)

Definition store_result {A} (r : res StoreError A) : res run_error unit :=
  match r with Ok _ => Ok tt | Err e => Err (RStore e) end.

(** [SELECT * ... ORDER BY step_id]. *)
Definition TaskSteps (collate : string -> string -> bool) (id : uuid) : Op (list TaskStep) :=
  autocommit (query (fun _ d => steps_of collate id (fun _ => true) d)).

(** The answer of [ExecuteGraphStep] as the executor sees it. *)
Definition causes (e : failure) : gerr :=
  (if is_canceled e then [CCanceled] else []) ++ (if is_claim_lost e then [CClaimLost] else [])
  ++ (if is_deadline e then [CDeadlineExceeded] else []) ++ [COther (Error e)].
Definition step_repeatable (step : TaskStep) : bool :=
  String.eqb (s_Kind step) "read"
  || (String.eqb (s_Kind step) "finalize" && bool_decide (s_Tools step = [])).
Definition step_outcome (step : TaskStep) (output : string) (accepted : bool) (err : option failure)
    : res gerr GraphExec.StepResult :=
  let '(retry, delay) := TaskRetryPolicy err in
  match err with
  | Some e =>
      if retry then Err (CRetryable delay :: causes e)
      else if is_unverified e then Err (CRetryable 0 :: causes e)
      else Err (causes e)
  | None =>
      if negb accepted && step_repeatable step
      then Err [CRetryable 0; COther "step acceptance rejected"]
      else Ok (GraphExec.MkStepResult output accepted)
  end.

(** ** Planning *)

Record plan_progress := MkPlanProgress {
  PlanAttempts : Z;
  ContextPrepared : bool;
  ContextSnapshot : string;
}.
Definition plan_progress_of (j : json) : option plan_progress :=
  if is_object j || is_null j then
    attempts ← decode_int "plan_attempts" j; prepared ← decode_bool "context_prepared" j;
    snapshot ← decode_string "context_snapshot" j;
    Some (MkPlanProgress attempts prepared snapshot)
  else None.
Definition enc_plan_progress (p : plan_progress) : json :=
  JObj [("plan_attempts", jint (PlanAttempts p)); ("context_prepared", JBool (ContextPrepared p));
        ("context_snapshot", jtext (ContextSnapshot p))]%string.

Section runner.
Context {H : Type} (g : graph_host H).
#[local] Abbreviation x := (g_exec g).
#[local] Abbreviation registry_of := (ToolRegistry (Handler := H)).

Definition planned_step (sid kind goal acceptance : string) (tools deps : list string) : TaskStep :=
  MkTaskStep uuid_Nil sid goal acceptance kind deps tools SPending "" JNull 0 3 time_zero ""
    None None None None None None None.

Definition fallbackGraphPlan (registry : registry_of) : list TaskStep :=
  [planned_step "research" "read"
     "Research everything the task asks for, within its stated sources and constraints."
     "Every requirement of the task is covered with exact sources; data that could not be found is stated explicitly."
     (List.filter (fun n => IsReadOnly n registry) (Name <$> Definitions registry)) [];
   planned_step "report" "finalize"
     "Write the requested final deliverable from the research."
     "All task requirements are addressed; unsupported claims and missing data are explicit."
     [] ["research"]]%string.

(** The registry of the run, or the error that ends it. *)
Definition graphDeps (now : time) (task : AgentTask) (base : option registry_of) : option registry_of :=
  let '(registry, _, _, hasRequested, err) :=
    task_registry (x_tools x) (x_zones x) now task base (x_defaults x (g_handler g)) in
  if is_some err then None
  else if hasRequested && Nat.eqb (Count registry) 0 then None
  else Some registry.

(** ** Ending and handing back *)

Definition report_notify (task : AgentTask) (body : string) : string :=
  str (TaskReportNotification (fun u => lit (x_uuid_String x u)) (fun t => lit (g_ready g (str t)))
         (lit (Title task)) (lit body) (ID task)).

Definition finishGraph (task : AgentTask) (outcome body reason : string) : Act (res run_error unit) :=
  let empty := g_empty g (Title task) in
  r ← finalize x task (MkFinalization outcome body reason (UnverifiedDraft (x_ui x)) empty
        (report_notify task body) empty None [] None None);
  _ ← emit (EvFinalize (ID task) outcome body (is_ok (r : res StoreError (option TaskArtifact))));
  match r : res StoreError (option TaskArtifact) with
  | Err e => mret (Err (RStore e))
  | Ok None => mret (Ok tt)
  | Ok (Some artifact) =>
      let result := set_final true (set_partial (negb (String.eqb (a_Outcome artifact) "completed"))
                      (set_output (a_Body artifact) no_result)) in
      _ ← iteration_hook x task result;
      _ ← afterArtifactFinalized x task result (TaskTerminalStatus task (a_Outcome artifact));
      mret (Ok tt)
  end.

Definition finishGraphPartial (task : AgentTask) (steps : list TaskStep) (reason : string)
    : Act (res run_error unit) :=
  draft ← (match g_synthesize g with
           | Some f => ask (fun n => f n task steps)
           | None => mret (Err (plain_failure ""))
           end);
  finishGraph task "partial" (match draft : res failure string with Ok b => b | Err _ => "" end) reason.

Definition yield_task (task : AgentTask) (next : time) : Act (res run_error unit) :=
  r ← call (YieldGraphTask (g_timestamp g) (ID task) next);
  _ ← emit (EvYield (ID task) next (is_ok (r : res StoreError unit)));
  mret (store_result r).

(** ** The final review *)

Definition save_final (task : AgentTask) (st : graphFinalValidation) : Act (res StoreError unit) :=
  r ← call (SaveGraphProgress (ID task) (final_progress st));
  _ ← (if fv_Accepted st then emit (EvAccept (ID task) (SafeBody st)) else mret tt);
  mret r.

(** The evidence of the confirmed steps, [None] when a checkpoint is unreadable. *)
Definition step_evidence (s : TaskStep) : option (list ToolExecutionResult * list json) :=
  match s_Checkpoint s with
  | JNull => Some ([], [])
  | cp =>
      if is_object cp then
        receipts ← decode_into [] (as_list as_tool_result) "receipts" cp;
        traces ← decode_into [] (as_list (fun j => Some j)) "traces" cp;
        Some (receipts, traces)
      else None
  end.
Fixpoint evidence (steps : list TaskStep) : option (list ToolExecutionResult * list json) :=
  match steps with
  | [] => Some ([], [])
  | s :: steps =>
      if bool_decide (s_Status s = SDone) then
        '(r, t) ← step_evidence s; '(rs, ts) ← evidence steps; Some (r ++ rs, t ++ ts)
      else evidence steps
  end.

Definition set_review (v : option AcceptanceVerdict) (reason : string) (st : graphFinalValidation) :=
  MkFinal (RepairPending st) (RepairAttempts st) (RepairBody st) v (CandidateHash st) (fv_Attempts st)
    (ResponseChecked st) (fv_Accepted st) (SafeBody st) (LastCheckedBody st) reason.
Definition set_pending (st : graphFinalValidation) :=
  MkFinal true (RepairAttempts st) (RepairBody st) (Verdict st) (CandidateHash st) (fv_Attempts st)
    (ResponseChecked st) (fv_Accepted st) (SafeBody st) (LastCheckedBody st) (fv_Reason st).
Definition set_accepted (st : graphFinalValidation) :=
  MkFinal (RepairPending st) (RepairAttempts st) (RepairBody st) (Verdict st) (CandidateHash st)
    (fv_Attempts st) (ResponseChecked st) true (SafeBody st) (LastCheckedBody st) "".
Definition count_repair (st : graphFinalValidation) :=
  MkFinal (RepairPending st) (RepairAttempts st + 1) (RepairBody st) (Verdict st) (CandidateHash st)
    (fv_Attempts st) (ResponseChecked st) (fv_Accepted st) (SafeBody st) (LastCheckedBody st) (fv_Reason st).
Definition count_attempt (st : graphFinalValidation) :=
  MkFinal (RepairPending st) (RepairAttempts st) (RepairBody st) (Verdict st) (CandidateHash st)
    (fv_Attempts st + 1) (ResponseChecked st) (fv_Accepted st) (SafeBody st) (LastCheckedBody st) (fv_Reason st).
(** A repaired candidate starts its own review. *)
Definition set_repaired (revised : string) (st : graphFinalValidation) :=
  MkFinal false (RepairAttempts st) revised None (CandidateHash st) 0 false (fv_Accepted st) ""
    (checkedBody st) (fv_Reason st).
Definition set_checked (safe : string) (st : graphFinalValidation) :=
  MkFinal (RepairPending st) (RepairAttempts st) (RepairBody st) (Verdict st) (CandidateHash st)
    (fv_Attempts st) true (fv_Accepted st) safe safe (fv_Reason st).

Definition at_stop (stop : option time) (next : time) : bool :=
  match stop with Some s => Z.leb s next | None => false end.

(** [deferCheck]: the review could not be made now. *)
Definition deferCheck (task : AgentTask) (stop : option time) (st : graphFinalValidation)
    (reason : string) (delay : duration) : Act (res run_error unit) :=
  let st := set_review (Verdict st) reason st in
  saved ← save_final task st;
  match saved : res StoreError unit with
  | Err e => mret (Err (RStore e))
  | Ok _ =>
      now ← Now;
      let next := (now : time) + Z.max (fv_Attempts st * 5 * Second) delay in
      if Z.leb 3 (fv_Attempts st) || at_stop stop next
      then finishGraph task "partial" (checkedBody st) "final_verification_unavailable"
      else yield_task task next
  end.

(** A repair that brought nothing. *)
Definition repair_failed (task : AgentTask) (stop : option time) (st : graphFinalValidation)
    (err : option failure) : Act (res run_error unit) :=
  if Z.leb 2 (RepairAttempts st)
  then finishGraph task "partial" (checkedBody st) "final_repair_unavailable"
  else
    now ← Now;
    let next := (now : time) + Z.max (5 * Second) (snd (TaskRetryPolicy err)) in
    if at_stop stop next
    then finishGraph task "partial" (checkedBody st) "final_repair_unavailable"
    else yield_task task next.

Definition enough_time (stop : option time) : Act bool :=
  match stop with
  | None => mret true
  | Some s => now ← Now; mret (Z.ltb (30 * Second) (clamp_duration (s - (now : time))))
  end.
Definition repairable (st : graphFinalValidation) : bool :=
  match Verdict st with
  | None => true
  | Some v => graphGroundingRepairable (av_Grounding v)
  end.

(** How a stage of the review ends: the run is over, or it goes on. *)
Definition staged (A : Type) : Type := (res run_error unit + A)%type.

(** The repair of a rejected report: the state and the body to review next. *)
Definition repair (task : AgentTask) (stop : option time) (st : graphFinalValidation)
    : Act (staged (graphFinalValidation * string)) :=
  enough ← enough_time stop;
  match g_repair g with
  | Some f =>
      if negb (repairable st) || negb (enough : bool) || Z.leb 2 (RepairAttempts st) then
        r ← finishGraph task "partial" (checkedBody st)
              (String.append "final_acceptance_rejected: " (fv_Reason st)); mret (inl r)
      else
        let st := count_repair st in
        saved ← save_final task st;
        match saved : res StoreError unit with
        | Err e => mret (inl (Err (RStore e)))
        | Ok _ =>
            _ ← emit (EvRepair (ID task));
            revised ← ask (fun n => f n task (SafeBody st) (fv_Reason st));
            match revised : res failure string with
            | Err e => r ← repair_failed task stop st (Some e); mret (inl r)
            | Ok body =>
                if blank body then r ← repair_failed task stop st None; mret (inl r)
                else
                  let st := set_repaired body st in
                  saved ← save_final task st;
                  match saved : res StoreError unit with
                  | Err e => mret (inl (Err (RStore e)))
                  | Ok _ => mret (inr (st, body))
                  end
            end
        end
  | None =>
      r ← finishGraph task "partial" (checkedBody st)
            (String.append "final_acceptance_rejected: " (fv_Reason st)); mret (inl r)
  end.

(** The host's validator checks a candidate once. *)
Definition check_response (task : AgentTask) (stop : option time) (st : graphFinalValidation)
    (body : string) (receipts : list ToolExecutionResult) : Act (staged graphFinalValidation) :=
  if ResponseChecked st then mret (inr st)
  else
    safe ← (match g_validate g with
            | None => mret (Ok body)
            | Some f => ask (fun n => f n task body receipts)
            end);
    match safe : res failure string with
    | Err e =>
        r ← deferCheck task stop st "response_validation_unavailable" (snd (TaskRetryPolicy (Some e)));
        mret (inl r)
    | Ok safe =>
        if is_some (g_validate g) && blank safe then
          r ← deferCheck task stop st "response_validation_empty" 0; mret (inl r)
        else
          let st := set_checked safe st in
          saved ← save_final task st;
          match saved : res StoreError unit with
          | Err e => mret (inl (Err (RStore e)))
          | Ok _ => mret (inr st)
          end
    end.

(** One review of the candidate, up to its verdict. *)
Definition review (task : AgentTask) (steps : list TaskStep) (stop : option time)
    (st : graphFinalValidation) (body : string)
    : Act (staged (graphFinalValidation * AcceptanceVerdict)) :=
  if Z.leb 3 (fv_Attempts st) then
    r ← finishGraph task "partial" (checkedBody st) "final_verification_unavailable"; mret (inl r)
  else
    let st := count_attempt st in
    saved ← save_final task st;
    match saved : res StoreError unit with
    | Err e => mret (inl (Err (RStore e)))
    | Ok _ =>
        match evidence steps with
        | None => mret (inl (Err RDecode))
        | Some (receipts, traces) =>
            checked ← check_response task stop st body receipts;
            match checked : staged graphFinalValidation with
            | inl r => mret (inl r)
            | inr st =>
                verdict ← ask (fun n => g_review g n task (SafeBody st) (jslice id traces) (Verdict st));
                let v := verdict : AcceptanceVerdict in
                _ ← emit (EvReview (ID task) (SafeBody st) (av_Met v && negb (av_Unavailable v)));
                mret (inr (set_review (Some v) (fv_Reason st) st, v))
            end
        end
    end.

(** From the candidate to the end: a rejected one goes round again. *)
Definition conclude_review (task : AgentTask) (steps : list TaskStep) (stop : option time)
    (st : graphFinalValidation) (candidate : string) (again : Act (option (res run_error unit)))
    : Act (option (res run_error unit)) :=
  reviewed ← review task steps stop st candidate;
  match reviewed : staged (graphFinalValidation * AcceptanceVerdict) with
  | inl r => mret (Some r)
  | inr (st, v) =>
      if av_Unavailable v then
        r ← deferCheck task stop st (av_Reason v) (av_RetryDelay v); mret (Some r)
      else if negb (av_Met v) then
        saved ← save_final task (set_pending (set_review (Some v) (av_Reason v) st));
        match saved : res StoreError unit with
        | Err e => mret (Some (Err (RStore e)))
        | Ok _ => again
        end
      else
        let st := set_accepted st in
        saved ← save_final task st;
        match saved : res StoreError unit with
        | Err e => mret (Some (Err (RStore e)))
        | Ok _ => r ← finishGraph task "completed" (SafeBody st) ""; mret (Some r)
        end
  end.

(** A rejected report is repaired first; a repaired one takes the place of the
    finalizer's. *)
Definition review_round (task : AgentTask) (steps : list TaskStep) (stop : option time)
    (st : graphFinalValidation) (body : string) (again : Act (option (res run_error unit)))
    : Act (option (res run_error unit)) :=
  prepared ← (if RepairPending st then repair task stop st
              else mret (inr (st, if String.eqb (RepairBody st) "" then body else RepairBody st)));
  match prepared : staged (graphFinalValidation * string) with
  | inl r => mret (Some r)
  | inr (st, candidate) => conclude_review task steps stop st candidate again
  end.

(** The state a run starts from: another candidate starts afresh. *)
Definition current_state (final : graphFinalValidation) (hash : string) : graphFinalValidation :=
  if String.eqb (CandidateHash final) hash then final else fresh_validation hash.

Fixpoint validateGraphResult (fuel : nat) (task : AgentTask) (steps : list TaskStep) (body : string)
    : Act (option (res run_error unit)) :=
  match fuel with
  | O => mret None
  | S fuel =>
      let stop := TaskStopDeadline task in
      current ← call (Get (ID task));
      match current : res StoreError AgentTask with
      | Err e => mret (Some (Err (RStore e)))
      | Ok current =>
          match final_validation_of (Progress current) with
          | None => mret (Some (Err RDecode))
          | Some final =>
              let st := current_state final (g_sha256 g body) in
              if fv_Accepted st then
                r ← finishGraph task "completed" (SafeBody st) ""; mret (Some r)
              else
                review_round task steps stop st body (validateGraphResult fuel task steps body)
          end
      end
  end.

(** ** The run *)

(** The context of the task is prepared once and kept. *)
Definition prepare_context (task : AgentTask) (p : plan_progress) : Act (staged plan_progress) :=
  if ContextPrepared p then mret (inr p)
  else
    snapshot ← (match g_inject g with
                | Some f => ask (fun n => f n task)
                | None => mret (ContextSnapshot p)
                end);
    let p := MkPlanProgress (PlanAttempts p) true snapshot in
    saved ← call (SaveGraphProgress (ID task) (enc_plan_progress p));
    match saved : res StoreError unit with
    | Err e => mret (inl (Err (RStore e)))
    | Ok _ => mret (inr p)
    end.

(** A failed planning is repeated later, or replaced by the fallback plan. *)
Definition plan_failed (task : AgentTask) (registry : registry_of) (researchUntil : option time)
    (attempts : Z) (err : failure) : Act (staged (list TaskStep)) :=
  let '(retry, delay) := TaskRetryPolicy (Some err) in
  later ← (if retry && Z.ltb attempts 3 then
             now ← Now;
             let next := (now : time) + Z.max delay (attempts * 5 * Second) in
             mret (if match researchUntil with None => true | Some u => Z.ltb next u end
                   then Some next else None)
           else mret None);
  match later : option time with
  | Some next => r ← yield_task task next; mret (inl r)
  | None =>
      cancelled ← ask (g_cancelled g);
      if (cancelled : bool) then mret (inl (Err RCanceled))
      else mret (inr (fallbackGraphPlan registry))
  end.

Definition plan_task (task : AgentTask) (registry : registry_of) (researchUntil : option time)
    : Act (staged unit) :=
  now ← Now;
  if past researchUntil now then
    r ← finishGraph task "partial" "" "research_budget_exhausted"; mret (inl r)
  else
    match plan_progress_of (Progress task) with
    | None => mret (inl (Err RDecode))
    | Some p =>
        prepared ← prepare_context task p;
        match prepared : staged plan_progress with
        | inl r => mret (inl r)
        | inr p =>
            let p := MkPlanProgress (PlanAttempts p + 1) (ContextPrepared p) (ContextSnapshot p) in
            saved ← call (SaveGraphProgress (ID task) (enc_plan_progress p));
            match saved : res StoreError unit with
            | Err e => mret (inl (Err (RStore e)))
            | Ok _ =>
                plan ← ask (fun n => g_plan g n task registry (ContextSnapshot p));
                planned ← (match plan : res failure (list TaskStep) with
                           | Ok steps => mret (inr steps)
                           | Err err => plan_failed task registry researchUntil (PlanAttempts p) err
                           end);
                match planned : staged (list TaskStep) with
                | inl r => mret (inl r)
                | inr steps =>
                    match LastRunAt task with
                    | None => mret (inl (Err RNoClaim))
                    | Some claim =>
                        saved ← call (SaveTaskSteps (g_order g) (ID task) claim steps);
                        match saved : res StoreError unit with
                        | Err e => mret (inl (Err (RStore e)))
                        | Ok _ => mret (inr tt)
                        end
                    end
                end
            end
        end
    end.

(** The walk over the steps after a run: what is left and when it is due. *)
Record progress_walk := MkWalk {
  w_next : time;                            (* the zero time when nothing is due *)
  w_output : string;
  w_allDone : bool;
  w_researchPending : bool;
}.
Definition dependencies_done (steps : list TaskStep) (s : TaskStep) : bool :=
  forallb (fun dep => match by_id steps !! dep with
                      | Some p => bool_decide (s_Status p = SDone)
                      | None => false
                      end) (s_Dependencies s).
Definition walk_step (steps : list TaskStep) (w : progress_walk) (s : TaskStep) : progress_walk :=
  if bool_decide (s_Status s = SDone) then
    if String.eqb (s_Kind s) "finalize"
    then MkWalk (w_next w) (s_Result s) (w_allDone w) (w_researchPending w) else w
  else
    let pending := negb (String.eqb (s_Kind s) "finalize") && negb (TaskStepHasCandidate s) in
    let ready := bool_decide (s_Status s = SPending) && dependencies_done steps s in
    MkWalk (if ready && (IsZero (w_next w) || Z.ltb (s_NextAttemptAt s) (w_next w))
            then s_NextAttemptAt s else w_next w)
      (w_output w) false (w_researchPending w || pending).
Definition walk_steps (steps : list TaskStep) : progress_walk :=
  fold_left (walk_step steps) steps (MkWalk time_zero "" true false).

(** A stuck finalizer ends the task; another stuck step is resolved. *)
Definition status_text (s : StepStatus) : string :=
  match s with
  | SPending => "pending" | SRunning => "running" | SDone => "done"
  | SBlocked => "blocked" | SReconciliation => "reconciliation"
  end.
Definition stuck (s : TaskStep) : bool := sstatus_in (s_Status s) [SBlocked; SReconciliation].
Definition stuck_finalizer (steps : list TaskStep) : option TaskStep :=
  List.find (fun s => stuck s && String.eqb (s_Kind s) "finalize") steps.

(** The end of a run whose steps are not all done: hand the task back until
    the next step is due. *)
Definition wait_for_steps (task : AgentTask) (steps : list TaskStep) (researchUntil : option time)
    (w : progress_walk) : Act (res run_error unit) :=
  if IsZero (w_next w) then finishGraphPartial task steps "graph_incomplete"
  else
    now ← Now;
    next ← (if Z.ltb (w_next w) ((now : time) + 5 * Second)
            then now ← Now; mret ((now : time) + 5 * Second) else mret (w_next w));
    if w_researchPending w && at_stop researchUntil next
    then finishGraphPartial task steps "research_budget_exhausted"
    else yield_task task next.

(** What follows the executor: [inl] ends the run, [inr] runs the steps again. *)
Definition after_run (fuel : nat) (task : AgentTask) (researchUntil : option time) (runErr : option gerr)
    : Act (option (staged unit)) :=
  steps ← call (TaskSteps (x_collate x) (ID task));
  match steps : res StoreError (list TaskStep) with
  | Err e => mret (Some (inl (Err (RStore e))))
  | Ok steps =>
      if Is_opt runErr CResearchBudget then
        r ← finishGraphPartial task steps "research_budget_exhausted"; mret (Some (inl r))
      else match stuck_finalizer steps with
      | Some s =>
          r ← finishGraphPartial task steps (String.append "finalize_" (status_text (s_Status s)));
          mret (Some (inl r))
      | None =>
          if existsb stuck steps then
            resolved ← call (ResolveStuckTaskSteps (ID task));
            match resolved : res StoreError Z with
            | Err e => mret (Some (inl (Err (RStore e))))
            | Ok _ => mret (Some (inr tt))
            end
          else
            let w := walk_steps steps in
            if w_allDone w && negb (blank (w_output w)) then
              r ← validateGraphResult fuel task steps (w_output w);
              mret (inl <$> (r : option (res run_error unit)))
            else
              r ← wait_for_steps task steps researchUntil w; mret (Some (inl r))
      end
  end.

(** [reviews] is the fuel of the final review. *)
Fixpoint executeGraphTask (fuel reviews : nat) (task : AgentTask) : Act (option (res run_error unit)) :=
  match fuel with
  | O => mret None
  | S fuel =>
      base ← ask (fun n => x_base x n task);
      now ← Now;
      match graphDeps now task base with
      | None => r ← finishGraph task "partial" "" "tool_configuration_failed"; mret (Some r)
      | Some registry =>
          let researchUntil := TaskResearchDeadline task (g_reserve g) in
          steps ← call (TaskSteps (x_collate x) (ID task));
          match steps : res StoreError (list TaskStep) with
          | Err e => mret (Some (Err (RStore e)))
          | Ok steps =>
              planned ← (match steps with
                         | [] => plan_task task registry researchUntil
                         | _ => mret (inr tt)
                         end);
              match planned : staged unit with
              | inl r => mret (Some r)
              | inr _ =>
                  runErr ← ask (fun n => g_run g n task);
                  cancelled ← ask (g_cancelled g);
                  if Is_opt runErr CClaimLost || (cancelled : bool) then
                    mret (Some (match runErr : option gerr with Some e => Err (RExecutor e) | None => Ok tt end))
                  else
                    next ← after_run reviews task researchUntil runErr;
                    match next : option (staged unit) with
                    | None => mret None
                    | Some (inl r) => mret (Some r)
                    | Some (inr _) => executeGraphTask fuel reviews task
                    end
              end
          end
      end
  end.
End runner.

(** ** A run to evaluate *)

(** One finalizer that is done; a reviewer that asks for sources. *)
Definition demo_step : TaskStep :=
  MkTaskStep 1%N "report" "write" "cited" "finalize" [] [] SDone "Draft." JNull 1 3 time_zero ""
    None None None None None None None.
Definition demo_start : db := with_steps [demo_step] sample_start.
Definition demo_review (met : string -> bool) (n : nat) (task : AgentTask) (body : string) (traces : json)
    (old : option AcceptanceVerdict) : AcceptanceVerdict :=
  MkAcceptance 0 (met body) "no sources" false None "".
Definition demo_graph (x : Execute.executor nat) (met : string -> bool) : graph_host nat :=
  MkGraphHost nat x 0%nat None (fun _ _ _ _ => Err (plain_failure "")) (fun _ _ => None) None
    (Some (fun _ _ body reason => Ok (String.append body " [1]"))) None (demo_review met)
    (fun s => s) keys_order (fun _ => ""%string) (fun _ => false) 0 (fun t => t) (fun t => t).
Definition demo_world : host :=
  MkHost (fun _ => sample_env 50 10) (fun _ d => d) (fun _ => 10).
