(* ===== verification/GraphRunInv.v ===== *)
(** * GraphRunInv: what holds of a coordinator run

    Every stage of a run asks the store at most once to end the task or to hand
    it back, reports success exactly when the store did so, and fails when it
    asks for neither.  GraphReviewInv bounds the final review and shows that
    what is published was reviewed, GraphRunEnd that the whole run settles once
    and returns. *)

From Stdlib Require Import Ascii String.
From stdpp Require Import pretty.
From S2P Require Import Prelude GoStrings Json GoJson JsonText Task GoTime TaskPlan Store StepStore StepInv Lifecycle GraphExec.
From S2P Require Import Finalize TaskRows TaskProgram TaskConfig Registry TaskTools World Notify Execute.
From S2P Require Import ExecuteInv TaskReport TaskRetry Grounding FinalState GraphRun.

Local Open Scope Z_scope.

(** ** Settling once *)

(** Whether an event asks to end the task or to hand it back, and whether the
    store did so. *)
Definition settles (e : event) : bool :=
  match e with EvFinalize _ _ _ _ | EvYield _ _ _ => true | _ => false end.
Definition carried_out (e : event) : bool :=
  match e with EvFinalize _ _ _ ok | EvYield _ _ ok => ok | _ => false end.
Definition unsettling (e : event) : bool := negb (settles e).

Lemma unsettled l : forallb unsettling l = true -> List.filter settles l = [].
Proof.
  induction l as [|e l IH]; [done|]. simpl. unfold unsettling at 1. destruct (settles e); simpl; [done|exact IH].
Qed.

Section inv.
Context {H : Type} (g : graph_host H) (h : host).

(** The one request of a stage that ends the run, with its outcome. *)
Definition ends (r : res run_error unit) (l : list event) : Prop :=
  match List.filter settles l with
  | [] => is_ok r = false
  | [e] => carried_out e = is_ok r
  | _ => False
  end.
Definition settled_once (m : Act (res run_error unit)) : Prop := emits h m ends.

Lemma ends_quiet r l1 l2 : forallb unsettling l1 = true -> ends r l2 -> ends r (l1 ++ l2).
Proof. intros H1 H2. unfold ends in *. by rewrite List.filter_app, (unsettled _ H1). Qed.
Lemma ends_after r l1 l2 : ends r l1 -> forallb unsettling l2 = true -> ends r (l1 ++ l2).
Proof. intros H1 H2. unfold ends in *. by rewrite List.filter_app, (unsettled _ H2), app_nil_r. Qed.

(** A stage is settled after a quiet action. *)
Lemma settled_bind {A} (m : Act A) k :
  only h unsettling m -> (forall a, settled_once (k a)) -> settled_once (m ≫= k).
Proof.
  intros Hm Hk. eapply emits_bind; [exact Hm|]. intros a l1 H1.
  eapply emits_weaken; [apply Hk|]. intros r l2 H2. by apply ends_quiet.
Qed.

Lemma settled_error e : settled_once (mret (Err e)).
Proof. by apply emits_ret. Qed.

(** What follows the request: quiet, with the result it announced. *)
Definition concluding (b : bool) (m : Act (res run_error unit)) : Prop :=
  emits h m (fun r l => forallb unsettling l = true /\ is_ok r = b).

Lemma concluding_ret r : concluding (is_ok r) (mret r).
Proof. by apply emits_ret. Qed.
Lemma concluding_bind {A} b (m : Act A) k :
  only h unsettling m -> (forall a, concluding b (k a)) -> concluding b (m ≫= k).
Proof.
  intros Hm Hk. eapply emits_bind; [exact Hm|]. intros a l1 H1.
  eapply emits_weaken; [apply Hk|]. intros r l2 [H2 Hr]. split; [|done].
  simpl in *. by rewrite forallb_app, H1, H2.
Qed.

Lemma settled_request e (k : unit -> Act (res run_error unit)) :
  settles e = true -> (forall u, concluding (carried_out e) (k u)) -> settled_once (emit e ≫= k).
Proof.
  intros He Hk. eapply (emits_bind _ _ _ (fun _ l => l = [e])).
  - intros s a s' [= <- <-]. by exists [e].
  - intros a l1 ->. eapply emits_weaken; [apply Hk|]. intros r l2 [H2 Hr].
    unfold ends. simpl. by rewrite He, (unsettled _ H2).
Qed.

Lemma finishGraph_settled task outcome body reason : settled_once (finishGraph g task outcome body reason).
Proof.
  unfold finishGraph, finalize. apply settled_bind; [apply only_call|]. intros r.
  apply settled_request; [done|]. intros _. destruct r as [[artifact|]|x]; [|apply concluding_ret..].
  cbn [carried_out is_ok].
  apply concluding_bind; [unfold iteration_hook; only_steps|]. intros _.
  apply concluding_bind; [|intros _; apply (concluding_ret (Ok tt))].
  unfold afterArtifactFinalized, archiveTaskSession, status_hook. only_steps.
Qed.

Lemma yield_task_settled task next : settled_once (yield_task g task next).
Proof.
  unfold yield_task. apply settled_bind; [apply only_call|]. intros r.
  apply settled_request; [done|]. intros _. destruct r as [u|e]; [apply (concluding_ret (Ok tt))|apply (concluding_ret (Err _))].
Qed.

Lemma finishGraphPartial_settled task steps reason : settled_once (finishGraphPartial g task steps reason).
Proof.
  unfold finishGraphPartial. apply settled_bind; [only_steps|]. intros draft. apply finishGraph_settled.
Qed.

Lemma save_final_quiet p task st :
  (forall id b, p (EvAccept id b) = true) -> only h p (save_final task st).
Proof.
  intros Hp. unfold save_final. apply only_bind; [apply only_call|]. intros r.
  apply only_bind; [|intros _; apply only_ret]. destruct (fv_Accepted st); [apply only_emit, Hp|apply only_ret].
Qed.

#[local] Hint Resolve settled_error finishGraph_settled yield_task_settled finishGraphPartial_settled : blueship.
#[local] Hint Extern 1 (only h _ (save_final _ _)) => apply save_final_quiet; reflexivity : blueship.

Lemma deferCheck_settled task stop st reason delay : settled_once (deferCheck g task stop st reason delay).
Proof.
  unfold deferCheck. apply settled_bind; [auto with blueship|]. intros [u|e]; [|auto with blueship].
  apply settled_bind; [apply only_Now|]. intros now. case_match; auto with blueship.
Qed.

Lemma repair_failed_settled task stop st err : settled_once (repair_failed g task stop st err).
Proof.
  unfold repair_failed. case_match; [auto with blueship|].
  apply settled_bind; [apply only_Now|]. intros now. case_match; auto with blueship.
Qed.

(** A stage either ends the run or leaves no trace of ending it. *)
Definition stage {A} (m : Act (staged A)) : Prop :=
  emits h m (fun o l => match o with
                        | inl r => ends r l
                        | inr _ => forallb unsettling l = true
                        end).

Lemma stage_bind {A B} (m : Act A) (k : A -> Act (staged B)) :
  only h unsettling m -> (forall a, stage (k a)) -> stage (m ≫= k).
Proof.
  intros Hm Hk. eapply emits_bind; [exact Hm|]. intros a l1 H1.
  eapply emits_weaken; [apply Hk|]. intros [r|b] l2 H2; [by apply ends_quiet|].
  simpl in *. by rewrite forallb_app, H1, H2.
Qed.
Lemma stage_end {A} (m : Act (res run_error unit)) :
  settled_once m -> stage (r ← m; mret (inl r) : Act (staged A)).
Proof.
  intros Hm. eapply emits_bind; [exact Hm|]. intros r l1 H1. apply emits_ret. by rewrite app_nil_r.
Qed.
Lemma stage_error {A} e : stage (mret (inl (Err e)) : Act (staged A)).
Proof. by apply emits_ret. Qed.
Lemma stage_go {A} (x : A) : stage (mret (inr x)).
Proof. by apply emits_ret. Qed.
(** One stage after another. *)
Lemma stage_then {A B} (m : Act (staged A)) (k : staged A -> Act (staged B)) :
  stage m -> (forall r, k (inl r) = mret (inl r)) -> (forall a, stage (k (inr a))) -> stage (m ≫= k).
Proof.
  intros Hm Hl Hk. eapply emits_bind; [exact Hm|]. intros [r|a] l1 H1.
  - rewrite Hl. apply emits_ret. by rewrite app_nil_r.
  - eapply emits_weaken; [apply Hk|]. intros [r|b] l2 H2; [by apply ends_quiet|].
    simpl in *. by rewrite forallb_app, H1, H2.
Qed.

#[local] Hint Resolve deferCheck_settled repair_failed_settled stage_end stage_error stage_go : blueship.

(** Walks through a stage: quiet actions, tests and answers. *)
Ltac stage_steps :=
  repeat first
    [ solve [auto with blueship]
    | apply stage_end; solve [auto with blueship]
    | apply stage_bind; [solve [auto with blueship | only_steps]|intros ?]
    | match goal with |- stage (match ?x with _ => _ end) => destruct x end ].

Lemma repair_stage task stop st : stage (repair g task stop st).
Proof. unfold repair, enough_time. stage_steps. Qed.

Lemma check_response_stage task stop st body receipts : stage (check_response g task stop st body receipts).
Proof. unfold check_response. stage_steps. Qed.

Lemma review_stage task steps stop st body : stage (review g task steps stop st body).
Proof.
  unfold review. case_match; [stage_steps|]. apply stage_bind; [auto with blueship|]. intros [u|e]; [|stage_steps].
  destruct (evidence steps) as [[receipts traces]|]; [|stage_steps].
  apply stage_then; [apply check_response_stage|done|]. intros st'. stage_steps.
Qed.
#[local] Hint Resolve repair_stage check_response_stage review_stage : blueship.

(** The recursive calls: a run out of fuel has settled nothing. *)
Definition ends_run (o : option (res run_error unit)) (l : list event) : Prop :=
  match o with Some r => ends r l | None => forallb unsettling l = true end.
Definition settled_run (m : Act (option (res run_error unit))) : Prop := emits h m ends_run.

Lemma run_bind {A} (m : Act A) k :
  only h unsettling m -> (forall a, settled_run (k a)) -> settled_run (m ≫= k).
Proof.
  intros Hm Hk. eapply emits_bind; [exact Hm|]. intros a l1 H1.
  eapply emits_weaken; [apply Hk|]. intros [r|] l2 H2; [by apply ends_quiet|].
  simpl in *. by rewrite forallb_app, H1, H2.
Qed.
Lemma run_end (m : Act (res run_error unit)) : settled_once m -> settled_run (r ← m; mret (Some r)).
Proof.
  intros Hm. eapply emits_bind; [exact Hm|]. intros r l1 H1. apply emits_ret. by rewrite app_nil_r.
Qed.
Lemma run_error_end e : settled_run (mret (Some (Err e))).
Proof. by apply emits_ret. Qed.
Lemma run_then {A} (m : Act (staged A)) k :
  stage m -> (forall r, k (inl r) = mret (Some r)) -> (forall a, settled_run (k (inr a))) -> settled_run (m ≫= k).
Proof.
  intros Hm Hl Hk. eapply emits_bind; [exact Hm|]. intros [r|a] l1 H1.
  - rewrite Hl. apply emits_ret. by rewrite app_nil_r.
  - eapply emits_weaken; [apply Hk|]. intros [r|] l2 H2; [by apply ends_quiet|].
    simpl in *. by rewrite forallb_app, H1, H2.
Qed.
#[local] Hint Resolve run_error_end : blueship.

Lemma conclude_review_settled task steps stop st candidate again :
  settled_run again -> settled_run (conclude_review g task steps stop st candidate again).
Proof.
  intros Hagain. apply run_then; [apply review_stage|done|]. intros [st' v].
  destruct (av_Unavailable v); [apply run_end; auto with blueship|].
  destruct (av_Met v); cbn [negb]; (apply run_bind; [auto with blueship|]); intros [u|e];
    [apply run_end| |exact Hagain|]; auto with blueship.
Qed.

Lemma validate_settled fuel task steps body : settled_run (validateGraphResult g fuel task steps body).
Proof.
  induction fuel as [|fuel IH]; cbn [validateGraphResult]; [by apply emits_ret|].
  apply run_bind; [apply only_call|]. intros [t|e]; [|auto with blueship].
  destruct (final_validation_of _) as [final|]; [|auto with blueship].
  case_match; [apply run_end; auto with blueship|].
  unfold review_round. apply run_then; [case_match; auto with blueship|done|]. intros [st candidate].
  by apply conclude_review_settled.
Qed.

Lemma plan_failed_stage task registry until attempts err : stage (plan_failed g task registry until attempts err).
Proof.
  unfold plan_failed. destruct (TaskRetryPolicy _) as [retry delay].
  apply stage_bind; [destruct (_ && _); only_steps|]. intros [next|]; stage_steps.
Qed.

Lemma prepare_context_stage task p : stage (prepare_context g task p).
Proof.
  unfold prepare_context. case_match; [stage_steps|].
  apply stage_bind; [destruct (g_inject g); only_steps|]. intros snapshot.
  apply stage_bind; [only_steps|]. intros [u|e]; stage_steps.
Qed.

Lemma plan_task_stage task registry until : stage (plan_task g task registry until).
Proof.
  unfold plan_task. apply stage_bind; [only_steps|]. intros now. case_match; [stage_steps|].
  destruct (plan_progress_of _) as [p|]; [|stage_steps].
  apply stage_then; [apply prepare_context_stage|done|]. intros p'.
  apply stage_bind; [only_steps|]. intros [u|e]; [|stage_steps].
  apply stage_bind; [only_steps|]. intros plan.
  apply stage_then; [destruct plan; [stage_steps|apply plan_failed_stage]|done|]. intros steps.
  destruct (LastRunAt task); [|stage_steps]. apply stage_bind; [only_steps|]. intros [u'|e]; stage_steps.
Qed.

Lemma wait_for_steps_settled task steps until w : settled_once (wait_for_steps g task steps until w).
Proof.
  unfold wait_for_steps. case_match; [auto with blueship|].
  apply settled_bind; [apply only_Now|]. intros now.
  apply settled_bind; [case_match; only_steps|]. intros next. case_match; auto with blueship.
Qed.
#[local] Hint Resolve wait_for_steps_settled : blueship.

(** What follows the executor: a stage that may also run out of fuel. *)
Definition stage_run (m : Act (option (staged unit))) : Prop :=
  emits h m (fun o l => match o with
                        | Some (inl r) => ends r l
                        | _ => forallb unsettling l = true
                        end).

Lemma stage_run_end (m : Act (res run_error unit)) :
  settled_once m -> stage_run (r ← m; mret (Some (inl r))).
Proof.
  intros Hm. eapply emits_bind; [exact Hm|]. intros r l1 H1. apply emits_ret. by rewrite app_nil_r.
Qed.
Lemma stage_run_bind {A} (m : Act A) k :
  only h unsettling m -> (forall a, stage_run (k a)) -> stage_run (m ≫= k).
Proof.
  intros Hm Hk. eapply emits_bind; [exact Hm|]. intros a l1 H1.
  eapply emits_weaken; [apply Hk|]. intros [[r|u]|] l2 H2; [by apply ends_quiet|..];
    simpl in *; by rewrite forallb_app, H1, H2.
Qed.

Lemma after_run_stage fuel task until runErr : stage_run (after_run g fuel task until runErr).
Proof.
  unfold after_run. apply stage_run_bind; [only_steps|]. intros [steps|e]; [|by apply emits_ret].
  case_match; [apply stage_run_end; auto with blueship|].
  destruct (stuck_finalizer steps); [apply stage_run_end; auto with blueship|].
  case_match; [apply stage_run_bind; [only_steps|]; intros [n|e]; by apply emits_ret|].
  case_match; [|apply stage_run_end; auto with blueship].
  eapply emits_bind; [apply validate_settled|]. intros [r|] l1 Hl1; apply emits_ret; by rewrite app_nil_r.
Qed.
End inv.

Definition demo_run (met : string -> bool) :=
  executeGraphTask (demo_graph (report_executor true) met) 3 4 sample_task demo_world (MkSys 1 demo_start []).
