(* ===== verification/GraphReviewInv.v ===== *)
(** * GraphReviewInv: the final review of a graph task

    The review of a report ends after at most three reviews and two repairs,
    and publishes as completed only a report that was reviewed: in this run, or
    in the run that recorded its acceptance.

    The other workers leave the recorded state of the review alone while the
    coordinator holds the task ([review_left]); they may change anything else. *)

From Stdlib Require Import Ascii String.
From stdpp Require Import pretty.
From S2P Require Import Prelude GoStrings Json GoJson JsonText Task GoTime TaskPlan Store StepStore StepInv Lifecycle GraphExec.
From S2P Require Import Finalize TaskRows TaskProgram TaskConfig Registry TaskTools World Notify Execute.
From S2P Require Import ExecuteInv TaskLoop.
From S2P Require Import TaskReport TaskRetry Grounding FinalState GraphRun GraphRunInv.

Local Open Scope Z_scope.

(** ** Counting *)

Definition is_review (e : event) : bool := match e with EvReview _ _ _ => true | _ => false end.
Definition is_repair (e : event) : bool := match e with EvRepair _ => true | _ => false end.
Definition count (p : event -> bool) (l : list event) : Z := Z.of_nat (length (List.filter p l)).

Lemma count_app p l1 l2 : count p (l1 ++ l2) = count p l1 + count p l2.
Proof. unfold count. rewrite List.filter_app, length_app. lia. Qed.

(** At most [a] reviews and [b] repairs. *)
Definition costs (a b : Z) (l : list event) : Prop := count is_review l <= a /\ count is_repair l <= b.
Definition spent (a b : Z) (s : sys) : Prop := costs a b (trace s).
Definition idle_event (e : event) : bool := negb (is_review e || is_repair e).

Lemma costs_app a b a' b' l1 l2 : costs a b l1 -> costs a' b' l2 -> costs (a + a') (b + b') (l1 ++ l2).
Proof. unfold costs. rewrite !count_app. lia. Qed.

Lemma idle_costs l : forallb idle_event l = true -> costs 0 0 l.
Proof.
  induction l as [|e l IH]; [done|]. simpl. intros [He Hl]%andb_true_iff. destruct (IH Hl) as [H1 H2].
  unfold costs, count, idle_event in *. simpl. by destruct e.
Qed.

Section costs.
Context {H : Type} (g : graph_host H) (h : host).

(** An action with its cost and what its answer satisfies. *)
Definition costing {A} (a b : Z) (m : Act A) (R : A -> Prop) : Prop :=
  emits h m (fun x l => costs a b l /\ R x).

Lemma costing_ret {A} (x : A) (R : A -> Prop) : R x -> costing 0 0 (mret x) R.
Proof. intros Hx. by apply emits_ret. Qed.
Lemma costing_idle {A} (m : Act A) : only h idle_event m -> costing 0 0 m (fun _ => True).
Proof. intros Hm. eapply emits_weaken; [exact Hm|]. intros x l Hl. split; [by apply idle_costs|done]. Qed.
Lemma costing_weaken {A} a b a' b' (m : Act A) (R R' : A -> Prop) :
  costing a b m R -> a <= a' -> b <= b' -> (forall x, R x -> R' x) -> costing a' b' m R'.
Proof. intros Hm Ha Hb Hr. eapply emits_weaken; [exact Hm|]. unfold costs. intros x l [? ?]. split; [lia|auto]. Qed.
Lemma costing_bind {A B} a b a' b' (m : Act A) (k : A -> Act B) R R' :
  costing a b m R -> (forall x, R x -> costing a' b' (k x) R') -> costing (a + a') (b + b') (m ≫= k) R'.
Proof.
  intros Hm Hk. eapply emits_bind; [exact Hm|]. intros x l1 [H1 Hx].
  eapply emits_weaken; [by apply Hk|]. intros y l2 [H2 Hy]. split; [by apply costs_app|done].
Qed.
Lemma costing_then {A B} a b (m : Act A) (k : A -> Act B) R' :
  only h idle_event m -> (forall x, costing a b (k x) R') -> costing a b (m ≫= k) R'.
Proof.
  intros Hm Hk. eapply (costing_weaken (0 + a) (0 + b)); [|lia|lia|done].
  eapply costing_bind; [by apply costing_idle|]. intros x _. apply Hk.
Qed.

(** A stage that ends the run costs nothing more. *)
Lemma finishGraph_idle task outcome body reason : only h idle_event (finishGraph g task outcome body reason).
Proof.
  unfold finishGraph, finalize, iteration_hook, afterArtifactFinalized, archiveTaskSession, status_hook.
  only_steps.
Qed.
Lemma yield_task_idle task next : only h idle_event (yield_task g task next).
Proof. unfold yield_task. only_steps. Qed.
Lemma save_final_idle task st : only h idle_event (save_final task st).
Proof. by apply save_final_quiet. Qed.
#[local] Hint Resolve finishGraph_idle yield_task_idle save_final_idle : blueship.

Lemma deferCheck_idle task stop st reason delay : only h idle_event (deferCheck g task stop st reason delay).
Proof.
  unfold deferCheck. apply only_bind; [auto with blueship|]. intros [u|e]; [|apply only_ret].
  apply only_bind; [apply only_Now|]. intros now. case_match; auto with blueship.
Qed.
Lemma repair_failed_idle task stop st err : only h idle_event (repair_failed g task stop st err).
Proof.
  unfold repair_failed. case_match; [auto with blueship|].
  apply only_bind; [apply only_Now|]. intros now. case_match; auto with blueship.
Qed.
Lemma check_response_idle task stop st body receipts :
  only h idle_event (check_response g task stop st body receipts).
Proof.
  unfold check_response. case_match; [apply only_ret|]. apply only_bind; [only_steps|]. intros [safe|e].
  - case_match.
    + apply only_bind; [apply deferCheck_idle|]. intros r. apply only_ret.
    + apply only_bind; [apply save_final_idle|]. intros [u|e]; apply only_ret.
  - apply only_bind; [apply deferCheck_idle|]. intros r. apply only_ret.
Qed.

(** ** What a stage does to the state of the review *)

Definition same_flags (st st' : graphFinalValidation) : Prop :=
  RepairPending st' = RepairPending st /\ fv_Accepted st' = fv_Accepted st
  /\ RepairAttempts st' = RepairAttempts st /\ CandidateHash st' = CandidateHash st.
Definition goes_on {A} (P : A -> Prop) (o : staged A) : Prop :=
  match o with inl _ => True | inr x => P x end.

Lemma costing_end {A} (m : Act (res run_error unit)) (P : A -> Prop) :
  only h idle_event m -> costing 0 0 (r ← m; mret (inl r) : Act (staged A)) (goes_on P).
Proof. intros Hm. apply costing_then; [exact Hm|]. intros r. by apply costing_ret. Qed.
Lemma costing_error {A} e (P : A -> Prop) : costing 0 0 (mret (inl (Err e)) : Act (staged A)) (goes_on P).
Proof. by apply costing_ret. Qed.
#[local] Hint Resolve deferCheck_idle repair_failed_idle : blueship.
(** The ends that cost nothing. *)
Ltac costless := first [apply costing_error | apply costing_end; solve [auto with blueship] | by apply costing_ret].

Lemma check_response_flags task stop st body receipts :
  costing 0 0 (check_response g task stop st body receipts) (goes_on (same_flags st)).
Proof.
  unfold check_response. case_match; [by apply costing_ret|].
  apply costing_then; [only_steps|]. intros [safe|e]; [|costless].
  case_match; [costless|].
  apply costing_then; [auto with blueship|]. intros [u|e]; costless.
Qed.

(** A review costs one; the state keeps its flags. *)
Lemma review_flags task steps stop st body :
  costing 1 0 (review g task steps stop st body) (goes_on (fun p => same_flags st (fst p))).
Proof.
  assert (forall m : Act (staged (graphFinalValidation * AcceptanceVerdict)), costing 0 0 m (goes_on (fun p => same_flags st (fst p))) ->
    costing 1 0 m (goes_on (fun p => same_flags st (fst p)))) as Hfree.
  { intros m Hm. by eapply costing_weaken. }
  unfold review. case_match; [apply Hfree; costless|].
  apply costing_then; [auto with blueship|]. intros [u|e]; [|apply Hfree; costless].
  destruct (evidence steps) as [[receipts traces]|]; [|apply Hfree; costless].
  apply (costing_bind 0 0 1 0 _ _ _ _ (check_response_flags _ _ _ _ _)).
  intros [r|st'] Hst; [by apply Hfree, costing_ret|].
  apply costing_then; [only_steps|]. intros v.
  apply (costing_bind 1 0 0 0 _ _ (fun _ => True)).
  - intros s u' s' [= <- <-]. by exists [EvReview (ID task) (SafeBody st') (av_Met v && negb (av_Unavailable v))].
  - intros u' _. by apply costing_ret.
Qed.

(** A repair costs one, and is asked for while fewer than two were. *)
Definition repaired (st st' : graphFinalValidation) : Prop :=
  RepairAttempts st < 2 /\ RepairPending st' = false /\ fv_Accepted st' = fv_Accepted st
  /\ RepairAttempts st' = RepairAttempts st + 1 /\ CandidateHash st' = CandidateHash st.
Definition repair_cost (st : graphFinalValidation) : Z := if Z.ltb (RepairAttempts st) 2 then 1 else 0.

Lemma repair_flags task stop st :
  costing 0 (repair_cost st) (repair g task stop st) (goes_on (fun p => repaired st (fst p))).
Proof.
  unfold repair, repair_cost.
  apply costing_then; [unfold enough_time; destruct stop; only_steps|]. intros enough.
  assert (forall m : Act (staged (graphFinalValidation * string)), costing 0 0 m (goes_on (fun p => repaired st (fst p))) ->
    forall b, 0 <= b -> costing 0 b m (goes_on (fun p => repaired st (fst p)))) as Hfree.
  { intros m Hm b Hb. by eapply costing_weaken. }
  destruct (g_repair g) as [f|]; [|apply Hfree; [costless|case_match; lia]].
  destruct (Z.leb_spec 2 (RepairAttempts st)) as [H2|H2].
  { rewrite !orb_true_r. apply Hfree; [costless|case_match; lia]. }
  rewrite (proj2 (Z.ltb_lt _ _) H2), orb_false_r. case_match; [apply Hfree; [costless|lia]|].
  apply costing_then; [auto with blueship|]. intros [u|e]; [|apply Hfree; [costless|lia]].
  apply (costing_bind 0 1 0 0 _ _ (fun _ => True)).
  { intros s u' s' [= <- <-]. by exists [EvRepair (ID task)]. }
  intros u' _. apply costing_then; [only_steps|]. intros [body|e]; [|costless].
  case_match; [costless|].
  apply costing_then; [auto with blueship|]. intros [u''|e]; [|costless].
  by apply costing_ret.
Qed.
End costs.

(** ** The recorded state *)

(** What the others leave alone: the recorded state of the review. *)
Definition review_left (id : uuid) (h : host) : Prop :=
  forall n d t', tasks (others h n d) !! id = Some t' -> exists t, tasks d !! id = Some t
    /\ final_validation_of (Progress t') = final_validation_of (Progress t)
    /\ (plain_progress (Progress t) -> plain_progress (Progress t')).

(** The state the task's row holds, if it is readable, satisfies [P]. *)
Definition recorded (id : uuid) (P : graphFinalValidation -> Prop) (s : sys) : Prop :=
  forall t, tasks (tables s) !! id = Some t -> plain_progress (Progress t)
    /\ forall f, final_validation_of (Progress t) = Some f -> P f.

Section row.
Context {H : Type} (g : graph_host H) (h : host) (id : uuid) (Hleft : review_left id h).

Lemma recorded_weaken (P Q : graphFinalValidation -> Prop) s :
  recorded id P s -> (forall f, P f -> Q f) -> recorded id Q s.
Proof. intros Hp Hq t Ht. destruct (Hp t Ht) as [? Hf]. split; [done|]. intros f Ef. by apply Hq, Hf. Qed.

Lemma recorded_others P n d l : recorded id P (MkSys n d l) -> recorded id P (MkSys n (others h n d) l).
Proof.
  intros Hp t' Ht'. destruct (Hleft n d t' Ht') as (t & Ht & Hf & Hpl).
  destruct (Hp t Ht) as [Hplain Hq]. split; [by apply Hpl|]. intros f. rewrite Hf. apply Hq.
Qed.

Lemma recorded_ask {A} P (f : nat -> A) : keeps h (recorded id P) (ask f).
Proof. apply triple_ask. by intros n d l. Qed.
Lemma recorded_Now P : keeps h (recorded id P) Now.
Proof. apply triple_Now. by intros n d l. Qed.
Lemma recorded_emit P e : keeps h (recorded id P) (emit e).
Proof. apply triple_emit. by intros n d l. Qed.
Lemma recorded_spares {A} P (op : Op A) : ExecuteInv.spares_tasks op -> keeps h (recorded id P) (call op).
Proof.
  intros Hop. apply triple_call. intros n d l r d' Hs E. apply recorded_others in Hs.
  intros t. simpl. rewrite (Hop _ _ _ _ E). apply Hs.
Qed.

(** The answer of [Get] is the row. *)
Lemma recorded_Get P :
  triple h (recorded id P) (call (Get id)) (fun r s => recorded id P s
    /\ forall t f, r = Ok t -> final_validation_of (Progress t) = Some f -> P f).
Proof.
  apply triple_call. intros n d l r d' Hs E. apply recorded_others in Hs.
  pose proof (ExecuteInv.Get_spares id _ _ _ _ E) as Hsame. split.
  - intros t. simpl. rewrite Hsame. apply Hs.
  - intros t f -> Hf. destruct (TaskLoop.Get_row _ _ _ _ _ E t eq_refl) as [Ht _]. by apply (Hs t Ht).
Qed.

(** ** Saving *)

Lemma SaveGraphProgress_Ok p e d u d' : SaveGraphProgress id p e d = (Ok u, d') ->
  d' = update_task id (fun t =>
    set_Progress (concat (match Progress t with JNull => JObj [] | q => q end) p) t) d.
Proof.
  intros E. apply run_tx_Ok in E as (_ & n & d1 & [[E ->]|[E ->]]);
    apply tx_bind_Ok in E as ([] & n1 & d2 & Hl & E); apply lock_Ok in Hl as (-> & _); tx_inv; by simplify_eq.
Qed.

(** A state read back as it was saved. *)
Definition as_saved (st f : graphFinalValidation) : Prop :=
  RepairPending f = RepairPending st /\ fv_Accepted f = fv_Accepted st
  /\ RepairAttempts f = RepairAttempts st /\ CandidateHash f = stored (CandidateHash st).
Definition if_ok {E A} (r : res E A) (P : Prop) : Prop := match r with Ok _ => P | Err _ => True end.

Lemma save_final_recorded task st P :
  ID task = id -> int64 (RepairAttempts st) ->
  triple h (recorded id P) (save_final task st) (fun r s => if_ok r (recorded id (as_saved st) s)).
Proof.
  intros Hid Hi. unfold save_final. eapply (triple_bind _ _ _ _ (fun r s => if_ok r (recorded id (as_saved st) s))).
  - apply triple_call. intros n d l r d' Hs E. rewrite Hid in E. apply recorded_others in Hs.
    destruct r as [u|x]; [|done]. apply SaveGraphProgress_Ok in E as ->.
    intros t Ht. simpl in Ht. rewrite lookup_alter_eq in Ht. apply fmap_Some in Ht as (t0 & Ht & ->).
    destruct (Hs t0 Ht) as [Hp _].
    match goal with |- plain_progress ?p /\ _ =>
      replace p with (saved_progress (Progress t0) st)
        by (unfold saved_progress; cbn [Progress set_Progress]; by destruct (Progress t0)) end.
    destruct (final_validation_of_saved (Progress t0) st Hp) as [_ Hp']. split; [done|].
    intros f Hf. by apply (final_read (Progress t0)).
  - intros r. eapply (triple_bind _ _ _ _ (fun _ s => if_ok r (recorded id (as_saved st) s))).
    + destruct (fv_Accepted st); [apply triple_emit; by intros n d l|by apply triple_ret].
    + intros u. by apply triple_ret.
Qed.

(** ** The stages keep the row readable *)

#[local] Abbreviation readable := (recorded id (fun _ => True)).

Lemma save_keeps task st P : ID task = id -> int64 (RepairAttempts st) ->
  triple h (recorded id P) (save_final task st) (fun r s => if_ok r (readable s)).
Proof.
  intros Hid Hi. eapply triple_post; [by apply save_final_recorded|]. intros [u|e] s Hs; [|done].
  by eapply recorded_weaken.
Qed.

(** What a stage that goes on leaves behind. *)
Definition readable_on {A} (o : staged A) (s : sys) : Prop :=
  match o with inl _ => True | inr _ => readable s end.

Lemma triple_ends {A} P (m : Act (res run_error unit)) :
  triple h P (r ← m; mret (inl r) : Act (staged A)) readable_on.
Proof.
  eapply (triple_bind _ _ _ _ (fun _ _ => True)); [done|]. intros r. by apply triple_ret.
Qed.
Lemma triple_fails {A} P e : triple h P (mret (inl (Err e)) : Act (staged A)) readable_on.
Proof. by apply triple_ret. Qed.

Lemma after_save {A} task st P (k : Act (staged A)) :
  ID task = id -> int64 (RepairAttempts st) -> triple h readable k readable_on ->
  triple h (recorded id P) (saved ← save_final task st;
    match saved : res StoreError unit with Err e => mret (inl (Err (RStore e))) | Ok _ => k end) readable_on.
Proof.
  intros Hid Hi Hk. eapply triple_bind; [by apply save_keeps|]. intros [u|e]; [exact Hk|apply triple_fails].
Qed.

Lemma triple_first {A B} P (m : Act A) (k : A -> Act B) Q :
  keeps h P m -> (forall a, triple h P (k a) Q) -> triple h P (m ≫= k) Q.
Proof. intros Hm Hk. eapply triple_bind; [exact Hm|exact Hk]. Qed.

Lemma count_range k : int64 k -> k < 2 -> int64 (k + 1).
Proof. unfold int64. lia. Qed.

Lemma repair_readable task stop st : ID task = id -> int64 (RepairAttempts st) ->
  triple h readable (repair g task stop st) readable_on.
Proof.
  intros Hid Hi. unfold repair.
  apply triple_first; [unfold enough_time; destruct stop; [apply keeps_bind; [apply recorded_Now|intros now; apply keeps_ret]|apply keeps_ret]|].
  intros enough. destruct (g_repair g) as [f|]; [|apply triple_ends].
  destruct (Z.leb_spec 2 (RepairAttempts st)) as [H2|H2]; [rewrite !orb_true_r; apply triple_ends|].
  case_match; [apply triple_ends|]. pose proof (count_range (RepairAttempts st) Hi H2) as Hi'.
  apply after_save; [done|done|]. apply triple_first; [apply recorded_emit|]. intros u.
  apply triple_first; [apply recorded_ask|]. intros [body|e]; [|apply triple_ends].
  case_match; [apply triple_ends|]. apply after_save; [done|done|]. by apply triple_ret.
Qed.

Lemma review_readable task steps stop st body : ID task = id -> int64 (RepairAttempts st) ->
  triple h readable (review g task steps stop st body) readable_on.
Proof.
  intros Hid Hi. unfold review. destruct (Z.leb 3 (fv_Attempts st)); [apply triple_ends|]. apply after_save; [done|done|].
  destruct (evidence steps) as [[receipts traces]|]; [|apply triple_fails].
  assert (int64 (RepairAttempts (count_attempt st))) as Hi' by done. revert Hi'.
  generalize (count_attempt st). clear st Hi. intros st Hi.
  eapply (triple_bind _ _ _ _ readable_on).
  - unfold check_response. case_match; [by apply triple_ret|].
    apply triple_first; [destruct (g_validate g); [apply recorded_ask|apply keeps_ret]|].
    intros [safe|e]; [|apply triple_ends]. case_match; [apply triple_ends|].
    apply after_save; [done|done|]. by apply triple_ret.
  - intros [r|st']; [by apply triple_ret|]. apply triple_first; [apply recorded_ask|]. intros v.
    apply triple_first; [apply recorded_emit|]. intros u. by apply triple_ret.
Qed.

(** ** Counting along the states *)

Lemma triple_costing {A} P (m : Act A) Q a b R x y :
  triple h P m Q -> costing h a b m R ->
  triple h (fun s => P s /\ spent x y s) m (fun o s => Q o s /\ R o /\ spent (x + a) (y + b) s).
Proof.
  intros Hm Hc s o s' [Hs Hsp] E. split; [by eapply Hm|].
  destruct (Hc _ _ _ E) as (l & Hl & Hcost & Hr). split; [done|]. unfold spent. rewrite Hl.
  by apply costs_app.
Qed.

(** The run ends within this many reviews and repairs. *)
Definition run_within (x y : Z) (r : option (res run_error unit)) (s : sys) : Prop :=
  r <> None /\ spent x y s.

Lemma within_end P (m : Act (res run_error unit)) x y x' y' :
  only h idle_event m -> x <= x' -> y <= y' ->
  triple h (fun s => P s /\ spent x y s) (r ← m; mret (Some r)) (run_within x' y').
Proof.
  intros Hm Hx Hy s o s' [_ Hs] E.
  assert (costing h 0 0 (r ← m; mret (Some r)) (fun o => o <> None)) as Hc.
  { apply costing_then; [exact Hm|]. intros r. by apply costing_ret. }
  destruct (Hc _ _ _ E) as (l & Hl & [H1 H2] & Ho). split; [done|]. unfold spent, costs in *. rewrite Hl, !count_app. lia.
Qed.
Lemma within_ret P r x y x' y' : x <= x' -> y <= y' ->
  triple h (fun s => P s /\ spent x y s) (mret (Some r)) (run_within x' y').
Proof. intros Hx Hy. apply triple_ret. unfold run_within, spent, costs. intros s [_ ?]. split; [done|lia]. Qed.

(** What is left to spend after [k] repairs. *)
Definition rest (k : Z) : Z := Z.max 0 (2 - k).
Definition awaiting_repair (hash : string) (k : Z) (f : graphFinalValidation) : Prop :=
  RepairPending f = true /\ fv_Accepted f = false /\ RepairAttempts f = k /\ CandidateHash f = hash.
Definition between_repairs (hash : string) (k : Z) (f : graphFinalValidation) : Prop :=
  RepairPending f = false /\ fv_Accepted f = false /\ RepairAttempts f = k /\ CandidateHash f = hash.

Lemma triple_pure {A} (F : Prop) P S (m : Act A) Q :
  (F -> triple h (fun s => P s /\ S s) m Q) -> triple h (fun s => P s /\ F /\ S s) m Q.
Proof. intros Hm s o s' (? & ? & ?). by apply Hm. Qed.

(** A save on the way to more of the run. *)
Lemma within_save task st P k x y x' y' :
  ID task = id -> int64 (RepairAttempts st) -> x <= x' -> y <= y' ->
  triple h (fun s => recorded id (as_saved st) s /\ spent x y s) k (run_within x' y') ->
  triple h (fun s => recorded id P s /\ spent x y s)
    (saved ← save_final task st;
     match saved : res StoreError unit with Err e => mret (Some (Err (RStore e))) | Ok _ => k end)
    (run_within x' y').
Proof.
  intros Hid Hi Hx Hy Hk. eapply triple_bind.
  - apply triple_costing; [by apply save_final_recorded|apply costing_idle, save_final_idle].
  - intros [u|e]; cbn [if_ok]; (eapply triple_pre; [|first [exact Hk|apply (within_ret (fun _ => True) _ x y); lia]]);
      unfold spent, costs; intros s (? & _ & ?); split; (done || lia).
Qed.

Lemma conclude_review_within task steps stop st candidate again hash k x y :
  ID task = id -> text_ok hash -> int64 k -> between_repairs hash k st ->
  (forall x y, triple h (fun s => recorded id (awaiting_repair hash k) s /\ spent x y s) again
                 (run_within (x + rest k) (y + rest k))) ->
  triple h (fun s => readable s /\ spent x y s) (conclude_review g task steps stop st candidate again)
    (run_within (x + 1 + rest k) (y + rest k)).
Proof.
  intros Hid Hok Hi (Hp & Ha & Hk & Hh) Hagain. unfold conclude_review. assert (0 <= rest k) by (unfold rest; lia).
  eapply triple_bind.
  - apply triple_costing; [apply review_readable; [done|by rewrite Hk]|apply review_flags].
  - intros [r|[st' v]]; [apply (triple_pre h (fun s => True /\ spent (x + 1) (y + 0) s)); [naive_solver|];
      apply within_ret; lia|].
    apply triple_pure. intros (Gp & Ga & Gk & Gh). cbn [readable_on fst] in *.
    destruct (av_Unavailable v); [apply within_end; [apply deferCheck_idle|lia|lia]|].
    destruct (av_Met v); cbn [negb]; (apply within_save; [done|simpl; congruence|lia|lia|]).
    + apply within_end; [apply finishGraph_idle|lia|lia].
    + eapply triple_pre; [|eapply triple_post; [apply (Hagain (x + 1) (y + 0))|]].
      * intros s [Hs Hsp]. split; [|done]. eapply recorded_weaken; [exact Hs|].
        intros f (F1 & F2 & F3 & F4). cbn [set_pending set_review RepairPending fv_Accepted RepairAttempts CandidateHash] in *.
        split_and!; [done|congruence|congruence|]. rewrite F4, Gh, Hh. by apply stored_ok.
      * unfold run_within, spent, costs. intros r s [? ?]. split; [done|lia].
Qed.

(** What a round may spend: a rejected report is repaired before its review. *)
Lemma round_within task steps stop st body again hash k x y :
  ID task = id -> text_ok hash -> 0 <= k -> int64 k ->
  fv_Accepted st = false -> RepairAttempts st = k -> CandidateHash st = hash ->
  (forall k' x y, k <= k' -> k' <= Z.max k 2 -> (RepairPending st = true -> k < k') ->
     triple h (fun s => recorded id (awaiting_repair hash k') s /\ spent x y s) again
       (run_within (x + rest k') (y + rest k'))) ->
  triple h (fun s => readable s /\ spent x y s) (review_round g task steps stop st body again)
    (run_within (x + (if RepairPending st then 0 else 1) + rest k) (y + rest k)).
Proof.
  intros Hid Hok Hk Hi Ha Hst Hh Hagain. unfold review_round. assert (0 <= rest k) by (unfold rest; lia).
  destruct (RepairPending st) eqn:Hp.
  - eapply triple_bind.
    { eapply triple_costing; [apply repair_readable; [done|by rewrite Hst]|apply repair_flags]. }
    unfold repair_cost. rewrite Hst. intros [r|[st' candidate]].
    + apply (triple_pre h (fun s => True /\ spent (x + 0) (y + (if Z.ltb k 2 then 1 else 0)) s)); [naive_solver|].
      apply within_ret; [lia|]. unfold rest. case_match; lia.
    + apply triple_pure. cbn [goes_on fst readable_on]. intros (H2 & Gp & Ga & Gk & Gh). rewrite Hst in *.
      rewrite (proj2 (Z.ltb_lt _ _) H2). eapply triple_post.
      * apply (conclude_review_within _ _ _ _ _ _ hash (k + 1)); [done|done|unfold int64 in *; lia|
          by rewrite <- Hh; split_and!; congruence|].
        intros x' y'. apply Hagain; [lia|lia|intros _; lia].
      * unfold run_within, spent, costs, rest. intros r s [? ?]. split; [done|lia].
  - change (mret (inr (st, ?c)) ≫= ?m) with (m (inr (st, c))). cbv beta iota.
    apply (conclude_review_within _ _ _ _ _ _ hash k); [done..|by split_and!|]. intros x' y'. apply Hagain; [lia|lia|done].
Qed.

Lemma read_state_within task fuel steps body P x y x' y' :
  ID task = id -> x <= x' -> y <= y' ->
  (forall t f, final_validation_of (Progress t) = Some f -> P f ->
     triple h (fun s => readable s /\ spent x y s)
       (let st := current_state f (g_sha256 g body) in
        if fv_Accepted st then r ← finishGraph g task "completed" (SafeBody st) ""; mret (Some r)
        else review_round g task steps (TaskStopDeadline task) st body (validateGraphResult g fuel task steps body))
       (run_within x' y')) ->
  triple h (fun s => recorded id P s /\ spent x y s) (validateGraphResult g (S fuel) task steps body)
    (run_within x' y').
Proof.
  intros Hid Hx Hy Hk. cbn [validateGraphResult]. eapply triple_bind.
  { apply triple_costing; [rewrite Hid; apply recorded_Get|apply costing_idle, only_call]. }
  intros [t|e]; [|eapply (triple_pre h (fun s => True /\ spent (x + 0) (y + 0) s)); [naive_solver|apply within_ret; lia]].
  apply (triple_pre h (fun s => readable s
    /\ (forall f, final_validation_of (Progress t) = Some f -> P f) /\ spent (x + 0) (y + 0) s)).
  { intros s ((Hs & Hf) & _ & ?). split_and!; [by eapply recorded_weaken|naive_solver|done]. }
  apply triple_pure. intros Hf. destruct (final_validation_of (Progress t)) as [f|] eqn:E; [|apply within_ret; lia].
  rewrite !Z.add_0_r. by apply (Hk t f); [|apply Hf].
Qed.

(** A rejected report goes round as often as repairs are left. *)
Lemma validate_rejected task steps body hash : ID task = id -> g_sha256 g body = hash -> text_ok hash ->
  forall fuel k x y, 0 <= k -> int64 k -> 3 - k <= Z.of_nat fuel -> (0 < fuel)%nat ->
  triple h (fun s => recorded id (awaiting_repair hash k) s /\ spent x y s)
    (validateGraphResult g fuel task steps body) (run_within (x + rest k) (y + rest k)).
Proof.
  intros Hid Hh Hok. induction fuel as [|fuel IH]; intros k x y Hk Hi Hfuel Hpos; [lia|].
  assert (0 <= rest k) by (unfold rest; lia). apply read_state_within; [done|lia|lia|].
  intros _ f _ (Fp & Fa & Fk & Fh). unfold current_state. rewrite Hh, (proj2 (String.eqb_eq _ _) Fh), Fa.
  eapply triple_post; [apply (round_within _ _ _ _ _ _ hash k); try done|rewrite Fp; by rewrite Z.add_0_r].
  intros k' x' y' H1 H2 H3. specialize (H3 Fp). apply IH; [lia|unfold int64 in *; lia|lia|lia].
Qed.
End row.

(** The bound of the final review. *)
Lemma validate_bounded {H} (g : graph_host H) h task steps body fuel s :
  review_left (ID task) h -> text_ok (g_sha256 g body) -> (4 <= fuel)%nat ->
  recorded (ID task) (fun f => 0 <= RepairAttempts f < 2 ^ 63) s ->
  exists r s' l, validateGraphResult g fuel task steps body h s = (Some r, s')
    /\ trace s' = trace s ++ l /\ costs 3 2 l.
Proof.
  intros Hleft Hok Hfuel Hs. destruct fuel as [|fuel]; [lia|].
  set (a := count is_review (trace s)). set (b := count is_repair (trace s)).
  assert (triple h (fun s => recorded (ID task) (fun f => 0 <= RepairAttempts f < 2 ^ 63) s /\ spent a b s)
    (validateGraphResult g (S fuel) task steps body) (run_within (a + 3) (b + 2))) as Ht.
  { apply read_state_within; [done|done|lia|lia|]. intros t f _ Hf.
    assert (forall st, fv_Accepted st = false -> 0 <= RepairAttempts st < 2 ^ 63 ->
      CandidateHash st = g_sha256 g body ->
      triple h (fun s => recorded (ID task) (fun _ => True) s /\ spent a b s)
       (review_round g task steps (TaskStopDeadline task) st body (validateGraphResult g fuel task steps body))
       (run_within (a + 3) (b + 2))) as Hround.
    { intros st Ha Hk Hh. eapply triple_post; [apply (round_within g h (ID task) Hleft _ _ _ _ _ _ (g_sha256 g body) (RepairAttempts st));
        [done|done|lia|unfold int64; lia|done|done|done|]|].
      - intros k' x' y' H1 H2 H3. eapply validate_rejected; [done..|lia|unfold int64; lia|lia|lia].
      - unfold run_within, spent, costs, rest. intros r s' [? ?]. split; [done|]. case_match; lia. }
    cbv zeta. unfold current_state. destruct (String.eqb_spec (CandidateHash f) (g_sha256 g body)) as [E|E].
    - destruct (fv_Accepted f) eqn:Ha; [|by apply Hround]. apply within_end; [apply finishGraph_idle|lia|lia].
    - by apply Hround. }
  destruct (validateGraphResult g (S fuel) task steps body h s) as [o s'] eqn:E.
  destruct (Ht s o s') as [Ho Hsp]; [split; [done|split; unfold a, b; lia]|done|].
  destruct o as [r|]; [|done]. destruct (validate_settled g h (S fuel) task steps body _ _ _ E) as (l & Hl & _).
  exists r, s', l. split_and!; [done|done|]. unfold spent, costs, a, b in *. rewrite Hl, !count_app in Hsp. 
  unfold costs. lia.
Qed.

(** C9: The final review of a graph task ends.  In one run it asks for at most
    three reviews and two repairs of the report, whatever the reviewer, the
    repairer and the validator answer, and then ends the task, hands it back or
    fails. *)
Theorem graph_review_bounded {H} (g : graph_host H) h task steps body fuel s :
  review_left (ID task) h -> text_ok (g_sha256 g body) -> (4 <= fuel)%nat ->
  recorded (ID task) (fun f => 0 <= RepairAttempts f < 2 ^ 63) s ->
  exists r s' l, validateGraphResult g fuel task steps body h s = (Some r, s')
    /\ trace s' = trace s ++ l /\ costs 3 2 l.
Proof. apply validate_bounded. Qed.

Lemma demo_left : review_left 1 demo_world.
Proof. intros n d t' Ht. by exists t'. Qed.
Lemma demo_recorded : recorded 1 (fun f => f = fresh_validation "") (MkSys 1 demo_start []).
Proof.
  intros t [= <-]. split; [by constructor|]. intros f [= <-]. reflexivity.
Qed.

Lemma graph_review_bounded_witness :
  exists r s' l, validateGraphResult (demo_graph (report_executor true) (fun _ => false)) 4 sample_task [demo_step]
      "Draft." demo_world (MkSys 1 demo_start []) = (Some r, s')
    /\ trace s' = [] ++ l /\ costs 3 2 l.
Proof.
  apply (graph_review_bounded (demo_graph (report_executor true) (fun _ => false)) demo_world sample_task [demo_step]
    "Draft." 4 (MkSys 1 demo_start [])).
  - exact demo_left.
  - by vm_compute.
  - lia.
  - eapply recorded_weaken; [exact demo_recorded|]. by intros f ->.
Defined.

(** ** What is published was reviewed *)

(** The body an event publishes or records as accepted. *)
Definition demands (e : event) : option string :=
  match e with
  | EvFinalize _ outcome body _ => if String.eqb outcome "completed" then Some body else None
  | EvAccept _ body => Some body
  | _ => None
  end.
Definition undemanding (e : event) : bool := is_none (demands e).

(** Each such event follows a review of its body that was passed, or its body
    was accepted before ([R]). *)
Definition justified (id : uuid) (R : string -> Prop) (l : list event) : Prop :=
  forall l1 e l2 body, l = l1 ++ e :: l2 -> demands e = Some body ->
    In (EvReview id body true) l1 \/ R body.

Lemma justified_quiet id R l : forallb undemanding l = true -> justified id R l.
Proof.
  intros Hl l1 e l2 body -> He. rewrite forallb_app in Hl. apply andb_true_iff in Hl as [_ Hl].
  simpl in Hl. unfold undemanding in Hl. by rewrite He in Hl.
Qed.

Lemma justified_app id R l1 l2 : justified id R l1 ->
  justified id (fun b => In (EvReview id b true) l1 \/ R b) l2 -> justified id R (l1 ++ l2).
Proof.
  intros H1 H2 a e b body Heq He. apply app_eq_app in Heq as (l & [[-> Hb]|[-> Hb]]).
  - destruct l as [|e' l].
    + destruct (H2 [] e b body (eq_sym Hb) He) as [[]|[Hin|?]]; [left|by right]. by rewrite app_nil_r in Hin.
    + injection Hb as <- ->. by apply (H1 a e l body).
  - destruct (H2 l e b body Hb He) as [?|[?|?]]; [left; rewrite in_app_iff; tauto..|by right].
Qed.

Lemma justified_weaken id (R R' : string -> Prop) l :
  justified id R l -> (forall b, R b -> R' b) -> justified id R' l.
Proof. intros Hl HR a e b body E He. destruct (Hl a e b body E He); auto. Qed.

Section published.
Context {H : Type} (g : graph_host H) (h : host).

(** What an action does from the states it may start in, with what it adds to
    the trace. *)
Definition does {A} (P : sys -> Prop) (m : Act A) (Q : A -> sys -> list event -> Prop) : Prop :=
  forall s a s', P s -> m h s = (a, s') -> exists l, trace s' = trace s ++ l /\ Q a s' l.

Lemma does_both {A} P (m : Act A) Q1 Q2 :
  triple h P m Q1 -> emits h m Q2 -> does P m (fun a s l => Q1 a s /\ Q2 a l).
Proof.
  intros Ht He s a s' Hs E. destruct (He _ _ _ E) as (l & Hl & Hq). exists l. split; [done|]. split; [by eapply Ht|done].
Qed.
Lemma does_emits {A} P (m : Act A) Q : emits h m Q -> does P m (fun a _ l => Q a l).
Proof. intros He s a s' _ E. destruct (He _ _ _ E) as (l & ? & ?). eauto. Qed.
Lemma does_bind {A B} P (m : Act A) (k : A -> Act B) S F Q :
  does P m (fun a s l => S a s /\ F a l) ->
  (forall a l1, F a l1 -> does (S a) (k a) (fun b s l2 => Q b s (l1 ++ l2))) -> does P (m ≫= k) Q.
Proof.
  intros Hm Hk s b s' Hs. unfold mbind, act_bind. destruct (m h s) as [a s1] eqn:E. intros E2.
  destruct (Hm _ _ _ Hs E) as (l1 & H1 & HS & HF). destruct (Hk a l1 HF _ _ _ HS E2) as (l2 & H2 & HQ).
  exists (l1 ++ l2). by rewrite H2, H1, (assoc_L (++)).
Qed.
Lemma does_weaken {A} (P P' : sys -> Prop) (m : Act A) (Q Q' : A -> sys -> list event -> Prop) :
  does P m Q -> (forall s, P' s -> P s) -> (forall a s l, Q a s l -> Q' a s l) -> does P' m Q'.
Proof. intros Hm Hp Hq s a s' Hs E. destruct (Hm _ _ _ (Hp _ Hs) E) as (l & ? & ?). eauto. Qed.

(** *** Stages that publish nothing *)

Lemma finish_partial_quiet task body reason : only h undemanding (finishGraph g task "partial" body reason).
Proof.
  unfold finishGraph, finalize, iteration_hook, afterArtifactFinalized, archiveTaskSession, status_hook.
  only_steps.
Qed.
Lemma finish_completed task body reason :
  emits h (finishGraph g task "completed" body reason) (fun _ l => justified (ID task) (eq body) l).
Proof.
  unfold finishGraph, finalize. eapply emits_bind; [apply (only_call h undemanding)|]. intros r l1 H1.
  eapply (emits_bind _ _ _ (fun _ l => exists ok, l = [EvFinalize (ID task) "completed" body ok])).
  { intros s u s' [= <- <-]. eexists. split; [reflexivity|eauto]. }
  intros u l2 [ok ->]. eapply (emits_weaken _ _ (fun _ l => forallb undemanding l = true)).
  - match goal with |- emits ?h ?m _ => change (only h undemanding m) end.
    unfold iteration_hook, afterArtifactFinalized, archiveTaskSession, status_hook. only_steps.
  - simpl. intros _ l3 H3. apply justified_app; [by apply justified_quiet|].
    intros a e b bd Heq He. right. right. destruct a as [|a0 a]; injection Heq as Hh Ht.
    + subst e. by injection He.
    + subst l3. rewrite forallb_app in H3. apply andb_true_iff in H3 as [_ H3]. simpl in H3.
      unfold undemanding in H3. by rewrite He in H3.
Qed.

Lemma yield_quiet task next : only h undemanding (yield_task g task next).
Proof. unfold yield_task. only_steps. Qed.
Lemma save_quiet task st : fv_Accepted st = false -> only h undemanding (save_final task st).
Proof. intros Ha. unfold save_final. rewrite Ha. only_steps. Qed.
Lemma defer_quiet task stop st reason delay : fv_Accepted st = false ->
  only h undemanding (deferCheck g task stop st reason delay).
Proof.
  intros Ha. unfold deferCheck. apply only_bind; [by apply save_quiet|]. intros [u|e]; [|apply only_ret].
  apply only_bind; [apply only_Now|]. intros now. case_match; [apply finish_partial_quiet|apply yield_quiet].
Qed.
Lemma repair_failed_quiet task stop st err : only h undemanding (repair_failed g task stop st err).
Proof.
  unfold repair_failed. case_match; [apply finish_partial_quiet|].
  apply only_bind; [apply only_Now|]. intros now. case_match; [apply finish_partial_quiet|apply yield_quiet].
Qed.
Lemma quiet_end {A} (m : Act (res run_error unit)) :
  only h undemanding m -> only h undemanding (r ← m; mret (inl r) : Act (staged A)).
Proof. intros Hm. apply only_bind; [exact Hm|]. intros r. apply only_ret. Qed.
#[local] Hint Resolve finish_partial_quiet yield_quiet save_quiet defer_quiet repair_failed_quiet : blueship.
Ltac quiet_steps :=
  repeat first
    [ solve [auto with blueship] | apply quiet_end; solve [auto with blueship]
    | apply only_bind; [solve [auto with blueship | only_steps]|intros ?]
    | match goal with |- only _ _ (match ?x with _ => _ end) => destruct x end ].

Lemma repair_quiet task stop st : fv_Accepted st = false -> only h undemanding (repair g task stop st).
Proof.
  intros Ha. unfold repair, enough_time. quiet_steps.
Qed.

Lemma check_response_quiet task stop st body receipts :
  fv_Accepted st = false -> only h undemanding (check_response g task stop st body receipts).
Proof. intros Ha. unfold check_response. quiet_steps. Qed.

(** A review that goes on with a passing verdict has reviewed what it checked. *)
Lemma review_reviews task steps stop st body : fv_Accepted st = false ->
  emits h (review g task steps stop st body) (fun o l => forallb undemanding l = true
    /\ forall st' v, o = inr (st', v) -> av_Met v = true -> av_Unavailable v = false ->
         In (EvReview (ID task) (SafeBody st') true) l).
Proof.
  intros Ha.
  assert (forall m : Act (staged (graphFinalValidation * AcceptanceVerdict)), only h undemanding m ->
    emits h m (fun o _ => forall p, o <> inr p) ->
    emits h m (fun o l => forallb undemanding l = true /\ forall st' v, o = inr (st', v) ->
      av_Met v = true -> av_Unavailable v = false -> In (EvReview (ID task) (SafeBody st') true) l)) as Hend.
  { intros m Hq Hn s o s' E. destruct (Hq _ _ _ E) as (l & Hl & Hf). destruct (Hn _ _ _ E) as (_ & _ & Ho).
    exists l. split_and!; [done|done|]. intros st' v ->. by destruct (Ho (st', v)). }
  assert (forall m : Act (res run_error unit), only h undemanding m ->
    emits h (r ← m; mret (inl r) : Act (staged (graphFinalValidation * AcceptanceVerdict))) (fun o _ => forall p, o <> inr p)) as Hinl.
  { intros m Hm. eapply emits_bind; [exact Hm|]. intros r l1 _. by apply emits_ret. }
  unfold review. case_match; [apply Hend; [quiet_steps|apply Hinl; auto with blueship]|].
  eapply emits_bind; [by apply save_quiet|]. intros [u|e] l1 H1;
    [|apply emits_ret; rewrite app_nil_r; by split].
  destruct (evidence steps) as [[receipts traces]|]; [|apply emits_ret; rewrite app_nil_r; by split].
  eapply emits_bind; [by apply check_response_quiet|]. intros [r|st'] l2 H2.
  { apply emits_ret. rewrite app_nil_r, forallb_app, H1, H2. by split. }
  eapply emits_bind; [apply emits_ask|]. intros v l3 [-> _].
  eapply (emits_bind _ _ _ (fun _ l => l = [EvReview (ID task) (SafeBody st') (av_Met v && negb (av_Unavailable v))])).
  { intros s u' s' [= <- <-]. by eexists. }
  intros u' l4 ->. apply emits_ret. rewrite app_nil_r, !forallb_app, H1, H2. split; [done|].
  intros st'' v' [= <- <-] Hm Hu. cbn [SafeBody set_review]. rewrite Hm, Hu. rewrite !in_app_iff. right. right. right. by left.
Qed.

(** *** The rounds *)

Context (id : uuid) (Hleft : review_left id h).
Implicit Types (R : string -> Prop).

(** A state whose acceptance, if it has one, is among the known ones. *)
Definition known_acceptance R (f : graphFinalValidation) : Prop :=
  int64 (RepairAttempts f) /\ (fv_Accepted f = true -> R (SafeBody f)).

Lemma does_quiet {A} P (m : Act A) R :
  only h undemanding m -> does P m (fun _ _ l => justified id R l).
Proof. intros Hm. apply does_emits. eapply emits_weaken; [exact Hm|]. intros a l. apply justified_quiet. Qed.
(** A quiet stage, then the rest. *)
Lemma does_then {A B} P (m : Act A) (k : A -> Act B) R S F :
  triple h P m S -> emits h m (fun a l => forallb undemanding l = true /\ F a l) ->
  (forall a l1, F a l1 -> does (S a) (k a) (fun _ _ l => justified id (fun b => In (EvReview id b true) l1 \/ R b) l)) ->
  does P (m ≫= k) (fun _ _ l => justified id R l).
Proof.
  intros Ht He Hk. eapply does_bind; [by apply does_both|]. intros a l1 [H1 HF].
  eapply does_weaken; [by apply Hk|done|]. intros b s l2 Hl2. apply justified_app; [by apply justified_quiet|done].
Qed.
Lemma does_after {A B} P (m : Act A) (k : A -> Act B) R S :
  triple h P m S -> only h undemanding m ->
  (forall a, does (S a) (k a) (fun _ _ l => justified id R l)) ->
  does P (m ≫= k) (fun _ _ l => justified id R l).
Proof.
  intros Ht Hm Hk. apply (does_then _ _ _ _ S (fun _ _ => True)); [done| |].
  - eapply emits_weaken; [exact Hm|]. done.
  - intros a l1 _. eapply does_weaken; [apply Hk|done|]. intros b s l Hl. eapply justified_weaken; [exact Hl|]. auto.
Qed.
Lemma does_pure {A} (F : Prop) (P S : sys -> Prop) (m : Act A) Q :
  (forall s, P s -> F /\ S s) -> (F -> does S m Q) -> does P m Q.
Proof. intros Hp Hm s a s' Hs. destruct (Hp s Hs) as [HF HS]. by apply Hm. Qed.
Lemma quiet_run_end (m : Act (res run_error unit)) :
  only h undemanding m -> only h undemanding (r ← m; mret (Some r)).
Proof. intros Hm. apply only_bind; [exact Hm|]. intros r. apply only_ret. Qed.

Lemma publish_known P task body reason R : ID task = id -> R body ->
  does P (r ← finishGraph g task "completed" body reason; mret (Some r)) (fun _ _ l => justified id R l).
Proof.
  intros Hid HR. apply does_emits. eapply emits_bind; [apply finish_completed|]. intros r l1 H1.
  apply emits_ret. rewrite app_nil_r. rewrite Hid in H1. eapply justified_weaken; [exact H1|]. by intros b <-.
Qed.

(** Recording the acceptance of a reviewed body and publishing it. *)
Lemma accept_known P task st R : ID task = id -> R (SafeBody st) ->
  does P (saved ← save_final task (set_accepted st);
          match saved : res StoreError unit with
          | Err e => mret (Some (Err (RStore e)))
          | Ok _ => r ← finishGraph g task "completed" (SafeBody (set_accepted st)) ""; mret (Some r)
          end) (fun _ _ l => justified id R l).
Proof.
  intros Hid HR. unfold save_final. cbn [fv_Accepted set_accepted].
  eapply (does_bind _ _ _ (fun _ _ => True) (fun _ l => justified id R l)).
  - apply does_both; [done|]. eapply emits_bind; [apply (only_call h undemanding)|]. intros r l1 H1.
    eapply (emits_bind _ _ _ (fun _ l => l = [EvAccept (ID task) (SafeBody st)])).
    { intros s u s' [= <- <-]. by eexists. }
    intros u l2 ->. apply emits_ret. apply justified_app; [by apply justified_quiet|].
    intros a e b bd Heq He. right. right. destruct a as [|a0 a]; [|by destruct a]. injection Heq as <- _.
    injection He as <-. exact HR.
  - intros [u|e] l1 H1; cbn [SafeBody set_accepted].
    + apply (does_weaken (fun _ => True) _ _ (fun _ _ l => justified id R l)); [by apply publish_known|done|].
      intros _ _ l2 Hl2. apply justified_app; [done|]. eapply justified_weaken; [exact Hl2|]. intros b Hb. by right.
    + apply does_emits, emits_ret. by rewrite app_nil_r.
Qed.

Lemma conclude_review_known task steps stop st candidate again R :
  ID task = id -> int64 (RepairAttempts st) -> fv_Accepted st = false ->
  (forall R, does (recorded id (known_acceptance R)) again (fun _ _ l => justified id R l)) ->
  does (recorded id (fun _ => True)) (conclude_review g task steps stop st candidate again)
    (fun _ _ l => justified id R l).
Proof.
  intros Hid Hi Ha Hagain. unfold conclude_review.
  eapply (does_then _ _ _ _ (readable_on id) (fun o l => goes_on (fun p => same_flags st (fst p)) o
    /\ forall st' v, o = inr (st', v) -> av_Met v = true -> av_Unavailable v = false ->
       In (EvReview (ID task) (SafeBody st') true) l)).
  - by apply (review_readable g h id Hleft).
  - intros s o s' E. destruct (review_reviews _ _ _ _ _ Ha _ _ _ E) as (l & Hl & Hq & Hr).
    destruct (review_flags g h _ _ _ _ _ _ _ _ E) as (_ & _ & _ & Hf). by exists l.
  - intros [r|[st' v]] l1 [Hf Hr]; [apply does_quiet, only_ret|]. cbn [goes_on fst] in Hf.
    destruct Hf as (Gp & Ga & Gk & Gh). rewrite Hid in Hr.
    destruct (av_Unavailable v) eqn:Eu; [apply does_quiet, quiet_run_end, defer_quiet; congruence|].
    destruct (av_Met v) eqn:Em; cbn [negb].
    + apply accept_known; [done|]. left. by apply (Hr st' v).
    + apply (does_after _ _ _ _ (fun r s => if_ok r (recorded id (fun f => int64 (RepairAttempts f) /\ fv_Accepted f = false) s))).
      * eapply triple_post; [apply (save_final_recorded h id Hleft _ _ (fun _ => True)); [done|simpl; congruence]|].
        intros [u|e] s Hs; [|done]. eapply recorded_weaken; [exact Hs|]. intros f (F1 & F2 & F3 & F4).
        cbn in F2, F3. split; congruence.
      * apply save_quiet. cbn. congruence.
      * intros [u|e]; [|apply does_quiet, only_ret]. eapply does_weaken; [apply Hagain| |intros o s l Hl; exact Hl].
        intros s Hs. eapply recorded_weaken; [exact Hs|]. intros f [F1 F2]. split; [done|by rewrite F2].
Qed.

Lemma validate_known fuel task steps body : ID task = id -> forall R,
  does (recorded id (known_acceptance R)) (validateGraphResult g fuel task steps body)
    (fun _ _ l => justified id R l).
Proof.
  intros Hid. induction fuel as [|fuel IH]; intros R; cbn [validateGraphResult]; [apply does_quiet, only_ret|].
  apply (does_after _ _ _ _ (fun r s => recorded id (fun _ => True) s
    /\ forall t f, r = Ok t -> final_validation_of (Progress t) = Some f -> known_acceptance R f)).
  { rewrite Hid. eapply triple_post; [by apply recorded_Get|]. intros r s [Hs ?]. split; [|done].
    by eapply recorded_weaken. }
  { apply only_call. }
  intros [t|e]; [|apply does_quiet, only_ret]. destruct (final_validation_of (Progress t)) as [f|] eqn:Ef;
    [|apply does_quiet, only_ret].
  apply (does_pure (known_acceptance R f) _ (recorded id (fun _ => True))). { intros s [Hs Hf]. split; [by apply (Hf t)|exact Hs]. }
  intros [Hi Ha]. set (st := current_state f (g_sha256 g body)).
  assert (int64 (RepairAttempts st)) as Hi'.
  { unfold st, current_state. case_match; [done|]. by vm_compute. }
  assert (fv_Accepted st = true -> R (SafeBody st)) as Ha'.
  { unfold st, current_state. case_match; [exact Ha|done]. }
  destruct (fv_Accepted st) eqn:Eacc; [by apply publish_known; [|apply Ha']|].
  unfold review_round. apply (does_then _ _ _ _ (readable_on id) (fun o l =>
    goes_on (fun p => int64 (RepairAttempts (fst p)) /\ fv_Accepted (fst p) = false) o)).
  - destruct (RepairPending st); [by apply repair_readable|by apply triple_ret].
  - destruct (RepairPending st); [|by apply emits_ret].
    intros s o s' E. destruct (repair_quiet _ (TaskStopDeadline task) _ Eacc _ _ _ E) as (l & Hl & Hq).
    destruct (repair_flags g h _ _ _ _ _ _ E) as (_ & _ & _ & Hf). exists l. split_and!; [done|done|].
    destruct o as [r|[st' b]]; [done|]. cbn [goes_on fst] in *. destruct Hf as (F1 & F2 & F3 & F4 & F5).
    split; [|congruence]. rewrite F4. by apply count_range.
  - intros [r|[st' candidate]] l1 Hg; [apply does_quiet, only_ret|]. cbn [goes_on fst readable_on] in *.
    destruct Hg as [Hk Hacc]. by apply conclude_review_known.
Qed.
(** *** The run around the review *)

Lemma merge_removed {A} (conv : A -> json -> option A) k k' (fs : list (string * json)) acc :
  same_name k k' = false -> fold_left (merge_step conv k) (remove_key k' fs) acc = fold_left (merge_step conv k) fs acc.
Proof.
  intros Hk. revert acc. unfold remove_key. induction fs as [|[k0 v] fs IH]; intros acc; [done|]. cbn [List.filter fst].
  destruct (String.eqb_spec k' k0) as [<-|_]; cbn [negb fold_left]; [|apply IH]. unfold merge_step at 3. cbn [fst]. by rewrite Hk, IH.
Qed.

(** Members of other names leave the state of the review as it is. *)
Lemma state_kept p patch : plain_progress p ->
  Forall (fun q => same_name "final_validation" (fst q) = false) patch ->
  final_validation_of (concat (match p with JNull => JObj [] | q => q end) (JObj patch)) = final_validation_of p
  /\ plain_progress (concat (match p with JNull => JObj [] | q => q end) (JObj patch)).
Proof.
  intros Hp Hpatch. assert (exists fs, match p with JNull => JObj [] | q => q end = JObj fs
    /\ Forall (fun q => plain_name (fst q)) fs /\ final_validation_of p = final_validation_of (JObj fs)) as (fs & -> & Hfs & ->).
  { destruct p as [| | | | |fs]; try done; [by exists []|by exists fs]. }
  unfold concat, concat_fields, final_validation_of. cbn [is_object orb]. rewrite !decode_into_members. clear p Hp.
  revert fs Hfs. induction Hpatch as [|[k v] patch Hk _ IH]; intros fs Hfs; [by split|].
  cbn [fold_left fst snd]. destruct (IH (set_key k v fs)) as [-> ?].
  - unfold set_key. rewrite Forall_app. split; [by apply remove_key_Forall|]. constructor; [|done].
    unfold plain_name. cbn [fst] in *. by rewrite Hk.
  - split; [|done]. unfold set_key. rewrite fold_left_app, merge_removed by done. cbn [fold_left].
    unfold merge_step at 1. cbn [fst] in *. by rewrite Hk.
Qed.

Lemma plan_progress_recorded P e : 
  keeps h (recorded id P) (call (SaveGraphProgress id (enc_plan_progress e))).
Proof.
  apply triple_call. intros n d l r d' Hs E. apply (recorded_others h id Hleft) in Hs.
  apply run_tx_cases in E as [->|([] & k & E & _)]; [exact Hs|].
  apply tx_bind_Ok in E as (u & n1 & d1 & [-> _]%lock_Ok & E). tx_inv.
  intros t Ht. cbn [tables update_task with_tasks tasks] in Ht. rewrite lookup_alter_eq in Ht.
  apply fmap_Some in Ht as (t0 & Ht & ->). destruct (Hs t0 Ht) as [Hp Hq]. cbn [Progress set_Progress].
  destruct (state_kept (Progress t0) [("plan_attempts", jint (PlanAttempts e)); ("context_prepared", JBool (ContextPrepared e));
        ("context_snapshot", jtext (ContextSnapshot e))]%string Hp) as [He Hp'].
  { by repeat constructor. }
  revert He Hp' Hq. unfold enc_plan_progress. destruct (Progress t0); intros He Hp' Hq; (split; [exact Hp'|]);
    intros f Hf; apply Hq; by rewrite <- He.
Qed.

Lemma SaveTaskSteps_spares order claim l : ExecuteInv.spares_tasks (SaveTaskSteps order id claim l).
Proof.
  intros e d r d' E. unfold SaveTaskSteps in E. destruct (ValidateTaskSteps order l); [|by simplify_eq].
  apply run_tx_cases in E as [->|([] & k & E & _)]; [done|].
  apply tx_bind_Ok in E as (u & n1 & d1 & [-> _]%lock_Ok & E).
  apply tx_bind_Ok in E as (u' & n2 & d2 & Hi & E). tx_inv. by apply insert_steps_Ok in Hi as (-> & _).
Qed.
Lemma ResolveStuck_spares : ExecuteInv.spares_tasks (ResolveStuckTaskSteps id).
Proof.
  intros e d r d' E. apply run_tx_cases in E as [->|(n & k & E & _)]; [done|].
  apply tx_bind_Ok in E as (u & n1 & d1 & [-> _]%lock_Ok & E). by tx_inv.
Qed.

(** A stage that goes on keeps what the row records. *)
Definition kept_on {A} (P : graphFinalValidation -> Prop) (o : staged A) (s : sys) : Prop :=
  match o with inl _ => True | inr _ => recorded id P s end.
Definition keeps_on {A} P (m : Act (staged A)) : Prop := triple h (recorded id P) m (kept_on P).

Lemma keeps_on_first {A B} P (m : Act A) (k : A -> Act (staged B)) :
  keeps h (recorded id P) m -> (forall a, keeps_on P (k a)) -> keeps_on P (m ≫= k).
Proof. apply triple_first. Qed.
Lemma keeps_on_end {A} P (m : Act (res run_error unit)) : keeps_on P (r ← m; mret (inl r) : Act (staged A)).
Proof. eapply (triple_bind _ _ _ _ (fun _ _ => True)); [done|]. intros r. by apply triple_ret. Qed.
Lemma keeps_on_error {A} P e : keeps_on P (mret (inl (Err e)) : Act (staged A)).
Proof. by apply triple_ret. Qed.
Lemma keeps_on_ret {A} P (x : A) : keeps_on P (mret (inr x)).
Proof. by apply triple_ret. Qed.
Lemma keeps_on_then {A B} P (m : Act (staged A)) (k : staged A -> Act (staged B)) :
  keeps_on P m -> (forall r, k (inl r) = mret (inl r)) -> (forall a, keeps_on P (k (inr a))) -> keeps_on P (m ≫= k).
Proof.
  intros Hm Hl Hk. eapply triple_bind; [exact Hm|]. intros [r|a]; [|apply Hk]. rewrite Hl. by apply triple_ret.
Qed.
#[local] Hint Resolve keeps_on_end keeps_on_error keeps_on_ret recorded_ask recorded_Now plan_progress_recorded keeps_ret : blueship.
#[local] Hint Resolve SaveTaskSteps_spares : blueship.
#[local] Hint Extern 1 (keeps_on _ _) => apply keeps_on_end : blueship.

Lemma prepare_keeps P task p : ID task = id -> keeps_on P (prepare_context g task p).
Proof.
  intros Hid. unfold prepare_context. case_match; [auto with blueship|]. rewrite Hid.
  apply keeps_on_first; [case_match; auto with blueship|]. intros snapshot.
  apply keeps_on_first; [auto with blueship|]. intros [u|e]; auto with blueship.
Qed.

Lemma plan_failed_keeps P task registry until attempts err :
  keeps_on P (plan_failed g task registry until attempts err).
Proof.
  unfold plan_failed. destruct (TaskRetryPolicy _) as [retry delay]. apply keeps_on_first.
  - case_match; [|auto with blueship]. apply keeps_bind; [auto with blueship|]. intros now. apply keeps_ret.
  - intros [next|]; [auto with blueship|]. apply keeps_on_first; [auto with blueship|]. intros c.
    destruct c; auto with blueship.
Qed.

Lemma plan_keeps P task registry until : ID task = id -> keeps_on P (plan_task g task registry until).
Proof.
  intros Hid. unfold plan_task. rewrite Hid. apply keeps_on_first; [auto with blueship|]. intros now.
  case_match; [auto with blueship|]. destruct (plan_progress_of _) as [p|]; [|auto with blueship].
  apply keeps_on_then; [by apply prepare_keeps|done|]. intros p'.
  apply keeps_on_first; [auto with blueship|]. intros [u|e]; [|auto with blueship].
  apply keeps_on_first; [auto with blueship|]. intros plan.
  apply keeps_on_then; [destruct plan; [auto with blueship|apply plan_failed_keeps]|done|]. intros steps.
  destruct (LastRunAt task); [|auto with blueship].
  apply keeps_on_first; [apply (recorded_spares h id Hleft); auto with blueship|]. intros [u'|e]; auto with blueship.
Qed.

Lemma finish_graph_partial_quiet task steps reason : only h undemanding (finishGraphPartial g task steps reason).
Proof.
  unfold finishGraphPartial. apply only_bind; [only_steps|]. intros draft. apply finish_partial_quiet.
Qed.
#[local] Hint Resolve finish_graph_partial_quiet : blueship.

Lemma plan_quiet task registry until : only h undemanding (plan_task g task registry until).
Proof.
  unfold plan_task, plan_failed, prepare_context.
  repeat first [ solve [auto with blueship] | apply quiet_end; solve [auto with blueship]
    | apply only_bind; [|intros ?] | match goal with |- only _ _ (match ?x with _ => _ end) => destruct x end
    | progress only_steps ].
Qed.

(** How the part after the executor ends: justified, or ready to go round. *)
Definition around R (o : option (staged unit)) (s : sys) (l : list event) : Prop :=
  match o with
  | Some (inr _) => recorded id (known_acceptance R) s /\ forallb undemanding l = true
  | _ => justified id R l
  end.
#[local] Abbreviation known R := (recorded id (known_acceptance R)).

Lemma around_end R (m : Act (res run_error unit)) : only h undemanding m ->
  does (known R) (r ← m; mret (Some (inl r) : option (staged unit))) (around R).
Proof.
  intros Hm s o s' _. unfold mbind, act_bind. destruct (m h s) as [r s1] eqn:E. intros [= <- <-].
  destruct (Hm _ _ _ E) as (l & Hl & Hq). exists l. split; [done|]. by apply justified_quiet.
Qed.
Lemma around_error R r : does (known R) (mret (Some (inl r))) (around R).
Proof. intros s o s' _ [= <- <-]. exists []. rewrite app_nil_r. split; [done|]. by apply justified_quiet. Qed.
(** A quiet operation that spares the task rows, then the rest. *)
Lemma around_first {A} R (op : Op A) k : ExecuteInv.spares_tasks op ->
  (forall r, does (known R) (k r) (around R)) -> does (known R) (r ← call op; k r) (around R).
Proof.
  intros Hop Hk. eapply (does_bind _ _ _ (fun _ => known R) (fun _ l => forallb undemanding l = true)).
  { apply does_both; [by apply (recorded_spares h id Hleft)|apply only_call]. }
  intros r l1 H1. eapply does_weaken; [apply Hk|done|]. intros [[o|[]]|] s l Hl; cbn [around] in *;
    [|destruct Hl as [? Hl]; rewrite forallb_app; by rewrite H1|];
    (apply justified_app; [by apply justified_quiet|eapply justified_weaken; [exact Hl|auto]]).
Qed.

Lemma after_run_known reviews task until runErr R : ID task = id ->
  does (known R) (after_run g reviews task until runErr) (around R).
Proof.
  intros Hid. unfold after_run. rewrite Hid.
  apply around_first; [apply ExecuteInv.query_spares|]. intros [steps|e]; [|apply around_error].
  case_match; [apply around_end; auto with blueship|].
  destruct (stuck_finalizer steps); [apply around_end; auto with blueship|].
  case_match.
  - apply around_first; [apply ResolveStuck_spares|]. intros [n|e]; [|apply around_error].
    intros s o s' Hs [= <- <-]. exists []. by rewrite app_nil_r.
  - case_match; [|apply around_end; unfold wait_for_steps; quiet_steps].
    eapply (does_bind _ _ _ (fun _ _ => True) (fun _ l => justified id R l)).
    + eapply does_weaken; [by apply validate_known|done|]. intros o s l Hl. by split.
    + intros r l1 Hl1 s o s' _ [= <- <-]. exists []. rewrite !app_nil_r. by destruct r.
Qed.

Lemma execute_known fuel reviews task : ID task = id -> forall R,
  does (known R) (executeGraphTask g fuel reviews task) (fun _ _ l => justified id R l).
Proof.
  intros Hid. induction fuel as [|fuel IH]; intros R; cbn [executeGraphTask]; [apply does_quiet, only_ret|]. 
  apply (does_after _ _ _ _ (fun _ => known R)); [apply recorded_ask|only_steps|]. intros base.
  apply (does_after _ _ _ _ (fun _ => known R)); [apply recorded_Now|only_steps|]. intros now.
  destruct (graphDeps g now task base) as [registry|]; [|apply does_quiet, quiet_run_end; auto with blueship].
  apply (does_after _ _ _ _ (fun _ => known R));
    [apply (recorded_spares h id Hleft), ExecuteInv.query_spares|only_steps|]. intros [steps|e]; [|apply does_quiet, only_ret].
  apply (does_after _ _ _ _ (kept_on (known_acceptance R))).
  { destruct steps; [by apply plan_keeps|apply keeps_on_ret]. }
  { destruct steps; [apply plan_quiet|apply only_ret]. }
  intros [r|u]; [apply does_quiet, only_ret|]. cbn [kept_on].
  apply (does_after _ _ _ _ (fun _ => known R)); [apply recorded_ask|only_steps|]. intros runErr.
  apply (does_after _ _ _ _ (fun _ => known R)); [apply recorded_ask|only_steps|]. intros c.
  case_match; [apply does_quiet, only_ret|].
  intros s o s' Hs. unfold mbind, act_bind at 1. destruct (after_run _ _ _ _ _ h s) as [o1 s1] eqn:E1. intros E2.
  destruct (after_run_known _ _ _ _ _ Hid _ _ _ Hs E1) as (l1 & H1 & Ho).
  destruct o1 as [[r|v]|]; [injection E2 as <- <-; by exists l1| |injection E2 as <- <-; by exists l1]. destruct Ho as [Hs1 Hq].
  destruct (IH R _ _ _ Hs1 E2) as (l2 & H2 & Hl2). exists (l1 ++ l2). rewrite H2, H1, (assoc_L (++)). split; [done|].
  apply justified_app; [by apply justified_quiet|]. eapply justified_weaken; [exact Hl2|auto].
Qed.
End published.

(** C8: A run of a graph task publishes a report as completed, or records it as
    accepted, only after this run's reviewer passed that very text - or when the
    task's row records its acceptance from an earlier run ([R]). *)
Theorem completed_was_reviewed {H} (g : graph_host H) h fuel reviews task (R : string -> Prop) s r s' :
  review_left (ID task) h ->
  recorded (ID task) (fun f => int64 (RepairAttempts f) /\ (fv_Accepted f = true -> R (SafeBody f))) s ->
  executeGraphTask g fuel reviews task h s = (r, s') ->
  exists l, trace s' = trace s ++ l
    /\ forall l1 e l2 body, l = l1 ++ e :: l2 ->
         (e = EvAccept (ID task) body \/ exists ok, e = EvFinalize (ID task) "completed" body ok) ->
         In (EvReview (ID task) body true) l1 \/ R body.
Proof.
  intros Hleft Hs E. destruct (execute_known g h (ID task) Hleft fuel reviews task eq_refl R s r s' Hs E) as (l & Hl & Hj).
  exists l. split; [done|]. intros l1 e l2 body Heq He. apply (Hj l1 e l2 body Heq). by destruct He as [->|[ok ->]].
Qed.

Lemma completed_was_reviewed_witness :
  trace (snd (demo_run (String.eqb "Draft. [1]")))
    = [EvReview 1 "Draft." false; EvRepair 1; EvReview 1 "Draft. [1]" true; EvAccept 1 "Draft. [1]";
       EvFinalize 1 "completed" "Draft. [1]" true; EvIterationHook 1 "Draft. [1]" true false false;
       EvStatusHook 1 TDone "Draft. [1]"; EvDrain]
  /\ exists l, trace (snd (demo_run (String.eqb "Draft. [1]"))) = [] ++ l
    /\ forall l1 e l2 body, l = l1 ++ e :: l2 ->
         (e = EvAccept 1 body \/ exists ok, e = EvFinalize 1 "completed" body ok) ->
         In (EvReview 1 body true) l1 \/ False.
Proof.
  split; [by vm_compute|].
  apply (completed_was_reviewed (demo_graph (report_executor true) (String.eqb "Draft. [1]")) demo_world 3 4
    sample_task (fun _ => False) (MkSys 1 demo_start []) (fst (demo_run (String.eqb "Draft. [1]")))
    (snd (demo_run (String.eqb "Draft. [1]"))) demo_left).
  - eapply recorded_weaken; [exact demo_recorded|]. intros f ->. by split; [vm_compute|].
  - apply surjective_pairing.
Defined.
