(* ===== verification/GraphRunEnd.v ===== *)
(** * GraphRunEnd: a coordinator run ends, and settles its task once

    A run settles its task at most once (the stages are GraphRunInv's), and it
    returns: it goes round again only after it has resolved a stuck step, the
    steps of a task are at most 64, and its final review is bounded
    (GraphReviewInv).

    While the coordinator holds the task the other workers, the executor of its
    steps among them, may carry its steps on and claim them, but add none
    ([steps_left]); they leave the record of the final review alone. *)

From Stdlib Require Import Ascii String.
From stdpp Require Import pretty.
From S2P Require Import Prelude GoStrings Json GoJson JsonText Task GoTime TaskPlan Store StepStore StepInv Lifecycle GraphExec.
From S2P Require Import Finalize TaskRows TaskProgram TaskConfig Registry TaskTools World Notify Execute.
From S2P Require Import ExecuteInv TaskLoop TaskReport TaskRetry Grounding FinalState GraphRun GraphRunInv GraphReviewInv.

(** ** The steps of a task *)

Definition task_steps (id : uuid) (d : db) : list TaskStep :=
  List.filter (fun s => N.eqb (s_TaskID s) id) (steps d).
Definition is_done (s : TaskStep) : bool := bool_decide (s_Status s = SDone).
Definition unfinished (l : list TaskStep) : nat := length (List.filter (fun s => negb (is_done s)) l).

(** A step is carried on: a confirmed one stays so, a stuck one is resolved or
    stays stuck. *)
Record carried_on (s s' : TaskStep) : Prop := {
  co_kind : s_Kind s' = s_Kind s;
  co_done : is_done s = true -> is_done s' = true;
  co_stuck : stuck s = true -> stuck s' = true \/ is_done s' = true;
}.
Definition steps_left (id : uuid) (h : host) : Prop :=
  forall n d, Forall2 carried_on (task_steps id d) (task_steps id (others h n d)).

Lemma carried_refl s : carried_on s s.
Proof. split; auto. Qed.
Lemma carried_list_refl l : Forall2 carried_on l l.
Proof. induction l; constructor; [apply carried_refl|done]. Qed.

(** The store's transactions carry the steps on, an insertion apart. *)
Lemma life_carried s s' : life s s' -> carried_on s s'.
Proof.
  intros Hl. split; unfold is_done, stuck.
  - by destruct (life_identity _ _ Hl) as [(_ & -> & _) _].
  - intros Hd%bool_decide_eq_true. rewrite (life_done _ _ Hl Hd). by apply bool_decide_eq_true_2.
  - destruct Hl as [s|s s' _ _ Hr _|s s' _ _ Hr _ _ _ _|s s' _ _ _ Hr]; [auto|by rewrite Hr..|].
    intros _. right. by rewrite Hr.
Qed.
Lemma claim_carried t run lease now now' s : claimable t now s = true -> carried_on s (claim_row run lease now' s).
Proof.
  unfold claimable. intros Hc. bool_to_prop. split; [done|..]; unfold is_done, stuck;
    match goal with H : s_Status s = SPending |- _ => by rewrite H end.
Qed.
Lemma carried_filter id (t t' : list TaskStep) : Forall2 (fun s s' => s_TaskID s' = s_TaskID s /\ carried_on s s') t t' ->
  Forall2 carried_on (List.filter (fun s => N.eqb (s_TaskID s) id) t) (List.filter (fun s => N.eqb (s_TaskID s) id) t').
Proof.
  induction 1 as [|s s' t t' [Hid Hc] _ IH]; [constructor|]. simpl. rewrite Hid. by case_match; [constructor|].
Qed.
Lemma claims_carried t0 i sid run lease now t :
  Forall2 (fun s s' => s_TaskID s' = s_TaskID s /\ carried_on s s') t
    (update_where (fun s => same_step i sid s && claimable t0 now s) (claim_row run lease now) t).
Proof.
  unfold update_where. induction t as [|s t IH]; constructor; [|done].
  destruct (same_step i sid s && claimable t0 now s) eqn:E; [|by split; [|apply carried_refl]].
  split; [done|]. apply andb_true_iff in E as [_ E]. by eapply claim_carried.
Qed.
Lemma store_step_carried id d d' :
  store_step d d' -> (forall now l, inserted id now l (steps d) (steps d') -> l = []) ->
  Forall2 carried_on (task_steps id d) (task_steps id d').
Proof.
  intros Hs Hins. unfold task_steps. apply store_step_change in Hs as [Hl|i sid run lease now ->|i now l Hi].
  - apply carried_filter. eapply Forall2_impl; [exact Hl|]. intros s s' Hl'. split; [|by apply life_carried].
    destruct (life_identity _ _ Hl') as [(Hk & _) _]. by injection Hk.
  - apply carried_filter, claims_carried.
  - rewrite (proj1 Hi), List.filter_app.
    assert (List.filter (fun s => N.eqb (s_TaskID s) id) ((fun s => insert_step i s now) <$> l) = []) as ->.
    { destruct (decide (i = id)) as [->|Hne]; [by rewrite (Hins now l Hi)|].
      clear -Hne. induction l as [|s l IH]; [done|]. simpl. by rewrite (proj2 (N.eqb_neq _ _) Hne). }
    rewrite app_nil_r. apply carried_list_refl.
Qed.

Lemma unfinished_carried l l' : Forall2 carried_on l l' -> unfinished l' <= unfinished l.
Proof.
  unfold unfinished. induction 1 as [|s s' l l' [_ Hd _] _ IH]; [done|]. simpl.
  destruct (is_done s); [rewrite (Hd eq_refl); simpl; lia|]. destruct (is_done s'); simpl in *; lia.
Qed.

(** A bound on what is left, with a step that can be resolved or fewer left. *)
Definition resolvable (s : TaskStep) : bool := stuck s && negb (String.eqb (s_Kind s) "finalize").
Definition stuck_within (b : nat) (l : list TaskStep) : Prop :=
  unfinished l <= b /\ (existsb resolvable l = true \/ unfinished l < b).

Lemma stuck_within_carried b l l' : Forall2 carried_on l l' -> stuck_within b l -> stuck_within b l'.
Proof.
  intros Hl [Hb Hs]. pose proof (unfinished_carried _ _ Hl) as Hu. split; [lia|].
  destruct Hs as [Hs|]; [|right; lia].
  assert (existsb resolvable l' = true \/ unfinished l' < unfinished l) as [?|?]; [|by left|right; lia].
  clear Hb Hu. induction Hl as [|s s' l l' [Hk Hd Hst] Hl IH]; [done|].
  pose proof (unfinished_carried _ _ Hl) as Hu. unfold unfinished in *. simpl in *.
  apply orb_true_iff in Hs as [Hs|Hs].
  - unfold resolvable in *. apply andb_true_iff in Hs as [Hs Hkind].
    assert (is_done s = false) as Hn.
    { unfold stuck, is_done in *. by destruct (s_Status s). }
    destruct (Hst Hs) as [Hs'|Hd']; [left; by rewrite Hs', Hk, Hkind|]. right. rewrite Hd', Hn. simpl. lia.
  - destruct (IH Hs) as [->|Hlt]; [left; apply orb_true_r|right].
    destruct (is_done s) eqn:E; [rewrite (Hd eq_refl); done|]. destruct (is_done s'); simpl; lia.
Qed.

(** Resolving finishes them all. *)
Lemma resolved_fewer id b d d' (f : TaskStep -> TaskStep) :
  steps d' = update_where (is_stuck id) f (steps d) ->
  (forall s, s_TaskID (f s) = s_TaskID s /\ is_done (f s) = true) ->
  stuck_within b (task_steps id d) -> unfinished (task_steps id d') < b /\ length (task_steps id d') = length (task_steps id d).
Proof.
  intros E Hf [Hb Hs]. unfold task_steps in *. rewrite E. clear E.
  set (mine := fun s : TaskStep => N.eqb (s_TaskID s) id) in *.
  assert (forall t, unfinished (List.filter mine (update_where (is_stuck id) f t)) <= unfinished (List.filter mine t)
    /\ length (List.filter mine (update_where (is_stuck id) f t)) = length (List.filter mine t)
    /\ (existsb resolvable (List.filter mine t) = true ->
        unfinished (List.filter mine (update_where (is_stuck id) f t)) < unfinished (List.filter mine t))) as Hall.
  { unfold unfinished, update_where. induction t as [|s t (IH1 & IH2 & IH3)]; [done|].
    rewrite fmap_cons. destruct (is_stuck id s) eqn:Es; cbn [List.filter existsb].
    - unfold is_stuck in Es. apply andb_true_iff in Es as [[Hi Hst]%andb_true_iff Hk].
      destruct (Hf s) as [Hid Hd]. assert (mine s = true) as -> by exact Hi.
      assert (mine (f s) = true) as -> by (unfold mine; by rewrite Hid).
      assert (is_done s = false) as Hn by (unfold is_done; by destruct (s_Status s)).
      cbn [List.filter existsb]. rewrite Hd, Hn. cbn [negb length]. split_and!; [lia|lia|intros _; lia].
    - destruct (mine s) eqn:Em; [|done]. cbn [List.filter existsb].
      assert (resolvable s = false) as ->.
      { unfold resolvable, stuck. unfold is_stuck in Es. unfold mine in Em. by rewrite Em in Es. }
      destruct (is_done s); cbn [negb length orb]; split_and!; try lia; intros Hr; specialize (IH3 Hr); lia. }
  destruct (Hall (steps d)) as (H1 & H2 & H3). split; [|done]. destruct Hs as [Hs|Hs]; [specialize (H3 Hs)|]; lia.
Qed.

(** ** What the run knows of the steps *)

Section run.
Context {H : Type} (g : graph_host H) (h : host) (id : uuid).
Context (Hleft : review_left id h) (Hsteps : steps_left id h).

Definition rows (P : list TaskStep -> Prop) (s : sys) : Prop := P (task_steps id (tables s)).
Definition carried (P : list TaskStep -> Prop) : Prop := forall l l', Forall2 carried_on l l' -> P l -> P l'.
Definition spares_steps {A} (op : Op A) : Prop := forall e d r d', op e d = (r, d') -> steps d' = steps d.

Lemma rows_others P n d l : carried P -> rows P (MkSys n d l) -> rows P (MkSys n (others h n d) l).
Proof. intros Hc Hp. eapply Hc; [apply Hsteps|exact Hp]. Qed.
Lemma rows_ask {A} P (f : nat -> A) : keeps h (rows P) (ask f).
Proof. apply triple_ask. by intros n d l. Qed.
Lemma rows_Now P : keeps h (rows P) Now.
Proof. apply triple_Now. by intros n d l. Qed.
Lemma rows_spares {A} P (op : Op A) : carried P -> spares_steps op -> keeps h (rows P) (call op).
Proof.
  intros Hc Hop. apply triple_call. intros n d l r d' Hs E. apply rows_others in Hs; [|done].
  unfold rows, task_steps in *. simpl in *. by rewrite (Hop _ _ _ _ E).
Qed.

Lemma progress_spares_steps p : spares_steps (SaveGraphProgress id p).
Proof.
  intros e d r d' E. apply run_tx_cases in E as [->|([] & k & E & _)]; [done|].
  apply tx_bind_Ok in E as (u & n1 & d1 & [-> _]%lock_Ok & E). by tx_inv.
Qed.
Lemma read_spares_steps {A} (f : time -> db -> A) : spares_steps (autocommit (query f)).
Proof. intros e d r d' E. apply autocommit_cases in E as [->|(a & n & E & _)]; [done|]. by tx_inv. Qed.

Lemma within_carried b : carried (fun l => unfinished l <= b).
Proof. intros l l' Hl. pose proof (unfinished_carried _ _ Hl). lia. Qed.
Lemma nil_carried : carried (fun l => l = []).
Proof. intros l l' Hl ->. by inversion Hl. Qed.
Lemma and_carried P Q : carried P -> carried Q -> carried (fun l => P l /\ Q l).
Proof. intros HP HQ l l' Hl [? ?]. split; eauto. Qed.

(** ** Planning *)

(** A stage that goes on leaves the rows as they were. *)
Definition rows_on {A} (P : list TaskStep -> Prop) (o : staged A) (s : sys) : Prop :=
  match o with inl _ => True | inr _ => rows P s end.

Lemma rows_end {A} P Q (m : Act (res run_error unit)) : triple h P (r ← m; mret (inl r) : Act (staged A)) (rows_on Q).
Proof. eapply (triple_bind _ _ _ _ (fun _ _ => True)); [done|]. intros r. by apply triple_ret. Qed.
Lemma rows_error {A} P Q e : triple h P (mret (inl (Err e)) : Act (staged A)) (rows_on Q).
Proof. by apply triple_ret. Qed.
#[local] Hint Resolve @rows_end @rows_error : blueship.

Lemma prepare_rows P task p : ID task = id -> carried P -> triple h (rows P) (prepare_context g task p) (rows_on P).
Proof.
  intros Hid Hc. unfold prepare_context. case_match; [by apply triple_ret|].
  apply triple_first; [destruct (g_inject g); [apply rows_ask|apply keeps_ret]|]. intros snapshot. rewrite Hid.
  apply triple_first; [apply rows_spares; [done|apply progress_spares_steps]|].
  intros [u|e]; [by apply triple_ret|apply rows_error].
Qed.

Lemma plan_failed_rows P task registry until attempts err :
  triple h (rows P) (plan_failed g task registry until attempts err) (rows_on P).
Proof.
  unfold plan_failed. destruct (TaskRetryPolicy _) as [retry delay]. apply triple_first.
  { case_match; [|apply keeps_ret]. apply keeps_bind; [apply rows_Now|]. intros now. apply keeps_ret. }
  intros [next|]; [apply rows_end|]. apply triple_first; [apply rows_ask|]. intros c.
  destruct c; [apply rows_error|by apply triple_ret].
Qed.

(** A saved plan has at most 64 steps. *)
Lemma ValidateTaskSteps_size order l : ValidateTaskSteps order l = Ok tt -> length l <= 64.
Proof.
  unfold ValidateTaskSteps. destruct (Nat.eqb (length l) 0 || Nat.ltb 64 (length l)) eqn:E; [done|].
  intros _. apply orb_false_iff in E as [_ E%Nat.ltb_ge]. done.
Qed.
Lemma SaveTaskSteps_rows claim order l :
  triple h (rows (fun l => l = [])) (call (SaveTaskSteps order id claim l))
    (fun r s => is_ok r = true -> rows (fun l => unfinished l <= 64) s).
Proof.
  apply triple_call. intros n d tr r d' Hs E Hok. apply rows_others in Hs; [|apply nil_carried].
  unfold SaveTaskSteps in E. destruct (ValidateTaskSteps order l) as [[]|x] eqn:Hv; [|by simplify_eq].
  apply ValidateTaskSteps_size in Hv. destruct r as [u|]; [|done].
  apply run_tx_Ok in E as (_ & k & d1 & [[E ->]|[E ->]]);
    apply tx_bind_Ok in E as (u1 & n1 & d2 & [-> _]%lock_Ok & E);
    apply tx_bind_Ok in E as (u2 & n2 & d3 & Hi & E); tx_inv.
  apply insert_steps_Ok in Hi as (-> & _). unfold rows, task_steps in *. simpl in *.
  rewrite List.filter_app, Hs. simpl. unfold unfinished.
  etrans; [apply List.filter_length_le|]. etrans; [apply List.filter_length_le|]. by rewrite length_fmap.
Qed.

Lemma plan_rows task registry until : ID task = id ->
  triple h (rows (fun l => l = [])) (plan_task g task registry until) (rows_on (fun l => unfinished l <= 64)).
Proof.
  intros Hid. unfold plan_task. rewrite Hid. apply triple_first; [apply rows_Now|]. intros now.
  case_match; [apply rows_end|]. destruct (plan_progress_of _) as [p|]; [|apply rows_error].
  eapply triple_bind; [apply prepare_rows; [done|apply nil_carried]|]. intros [r|p']; [by apply triple_ret|].
  apply triple_first; [apply rows_spares; [apply nil_carried|apply progress_spares_steps]|].
  intros [u|e]; [|apply rows_error]. apply triple_first; [apply rows_ask|]. intros plan.
  eapply (triple_bind _ _ _ _ (rows_on (fun l => l = []))).
  { destruct plan; [by apply triple_ret|apply plan_failed_rows]. }
  intros [r|l]; [by apply triple_ret|]. destruct (LastRunAt task) as [claim|]; [|apply rows_error].
  eapply triple_bind; [apply SaveTaskSteps_rows|]. intros [u'|e]; [|apply rows_error].
  apply triple_ret. intros s Hs. by apply Hs.
Qed.

(** ** The end of a round *)

Lemma read_rows collate P : carried P ->
  triple h (rows P) (call (TaskSteps collate id))
    (fun r s => forall l, r = Ok l -> rows P s /\ l ≡ₚ task_steps id (tables s)).
Proof.
  intros Hc. apply triple_call. intros n d tr r d' Hs E l ->. apply rows_others in Hs; [|done].
  unfold rows in *. apply autocommit_Ok in E as (k & E). tx_inv. split; [done|]. simpl.
  unfold steps_of, task_steps. rewrite order_by_Permutation.
  erewrite List.filter_ext; [done|]. intros s. apply andb_true_r.
Qed.

Lemma ResolveStuck_rows b :
  triple h (rows (fun l => stuck_within b l /\ l <> [])) (call (ResolveStuckTaskSteps id))
    (fun r s => is_ok r = true -> rows (fun l => unfinished l < b /\ l <> []) s).
Proof.
  apply triple_call. intros n d tr r d' Hs E Hok. apply rows_others in Hs.
  2:{ apply and_carried; [by intros l l' Hl; apply stuck_within_carried|]. intros l l' Hl Hne ->. by inversion Hl; subst. }
  destruct r as [k|]; [|done]. unfold rows in *. simpl in *. destruct Hs as [Hs Hne].
  apply run_tx_Ok in E as (_ & m & d1 & [[E ->]|[E ->]]);
    apply tx_bind_Ok in E as (u1 & n1 & d2 & [-> _]%lock_Ok & E); tx_inv.
  match goal with |- unfinished (task_steps id ?d') < _ /\ _ =>
    edestruct (resolved_fewer id b (others h n d) d') as [H1 H2]; [reflexivity|done|done|] end.
  split; [exact H1|]. intros E. rewrite E in H2. by destruct (task_steps id (others h n d)).
Qed.

Definition countable (f : graphFinalValidation) : Prop := (0 <= RepairAttempts f < 2 ^ 63)%Z.
Context (Hsha : forall b, text_ok (g_sha256 g b)).
Context (reviews : nat) (Hreviews : 4 <= reviews).

Definition held (P : list TaskStep -> Prop) (s : sys) : Prop := recorded id countable s /\ rows P s.

Lemma triple_and {A} P P' (m : Act A) Q Q' : triple h P m Q -> triple h P' m Q' ->
  triple h (fun s => P s /\ P' s) m (fun a s => Q a s /\ Q' a s).
Proof. intros H1 H2 s a s' [? ?] E. split; eauto. Qed.
Lemma held_ask {A} P (f : nat -> A) : keeps h (held P) (ask f).
Proof. apply triple_and; [apply recorded_ask|apply rows_ask]. Qed.
Lemma held_Now P : keeps h (held P) Now.
Proof. apply triple_and; [apply recorded_Now|apply rows_Now]. Qed.
Lemma held_read collate P : carried P ->
  triple h (held P) (call (TaskSteps collate id))
    (fun r s => forall l, r = Ok l -> held P s /\ l ≡ₚ task_steps id (tables s)).
Proof.
  intros Hc. eapply triple_post; [apply triple_and; [|by apply read_rows]|].
  - apply (recorded_spares h id Hleft), query_spares.
  - intros r s [H1 H2] l Hl. destruct (H2 l Hl). by split_and!.
Qed.

Lemma read_stuck l b : existsb stuck l = true -> stuck_finalizer l = None -> unfinished l <= b ->
  stuck_within b l /\ l <> [].
Proof.
  intros Hs Hf Hb. split; [|by intros ->]. split; [done|left]. apply existsb_exists in Hs as (s & Hin & Hs).
  apply existsb_exists. exists s. split; [done|]. unfold resolvable. rewrite Hs. simpl.
  apply negb_true_iff. unfold stuck_finalizer in Hf. eapply find_none in Hf; [|exact Hin]. rewrite Hs in Hf. exact Hf.
Qed.
Lemma unfinished_Permutation l l' : l ≡ₚ l' -> unfinished l = unfinished l'.
Proof.
  unfold unfinished. induction 1 as [|s l l' _ IH|s s' l|l l1 l2 _ IH1 _ IH2]; simpl; [done| | |by rewrite IH1].
  - destruct (is_done s); simpl; by rewrite ?IH.
  - by destruct (is_done s), (is_done s').
Qed.
Lemma stuck_within_Permutation b l l' : l ≡ₚ l' -> stuck_within b l -> stuck_within b l'.
Proof.
  intros Hl [Hb Hs]. unfold stuck_within. rewrite <- (unfinished_Permutation _ _ Hl). split; [done|].
  destruct Hs as [Hs|Hs]; [left|by right]. apply existsb_exists in Hs as (s & Hin & Hs). apply existsb_exists.
  exists s. split; [|done]. by eapply Permutation_in.
Qed.

(** What follows the executor ends the run, or leaves fewer steps to finish. *)
Lemma after_run_ends b task until runErr : ID task = id ->
  triple h (held (fun l => unfinished l <= b)) (after_run g reviews task until runErr)
    (fun o s => match o with
                | None => False
                | Some (inl _) => True
                | Some (inr _) => held (fun l => unfinished l < b /\ l <> []) s
                end).
Proof.
  intros Hid. unfold after_run. rewrite Hid.
  assert (forall P (m : Act (res run_error unit)), triple h P (r ← m; mret (Some (inl r : staged unit)))
    (fun o s => match o with None => False | Some (inl _) => True
                | Some (inr _) => held (fun l => unfinished l < b /\ l <> []) s end)) as Hend.
  { intros P m. eapply (triple_bind _ _ _ _ (fun _ _ => True)); [done|]. intros r. by apply triple_ret. }
  eapply triple_bind; [apply held_read, within_carried|]. intros [l|e]; [|by apply triple_ret].
  case_match; [apply Hend|]. destruct (stuck_finalizer l) eqn:Hf; [apply Hend|].
  destruct (existsb stuck l) eqn:Hst.
  - eapply triple_bind with (R := fun r s => is_ok r = true -> held (fun l => unfinished l < b /\ l <> []) s).
    + eapply triple_pre; [|eapply triple_post; [apply triple_and; [|apply (ResolveStuck_rows b)]|]].
      2:{ apply (recorded_spares h id Hleft). apply ResolveStuck_spares. }
      2:{ intros r s [H1 H2] Hok. split; [exact H1|by apply H2]. }
      intros s Hs. destruct (Hs l eq_refl) as [[Hr Hb] Hl]. split; [exact Hr|]. unfold rows in *.
      rewrite <- (unfinished_Permutation _ _ Hl) in Hb. destruct (read_stuck l b Hst Hf Hb) as [Hw Hne].
      split; [by eapply stuck_within_Permutation|]. intros E. rewrite E in Hl.
      by apply Permutation_nil_r in Hl.
    + intros [n|e]; apply triple_ret; [|done]. intros s Hs. by apply Hs.
  - case_match; [|apply Hend].
    intros s o s' Hs E. destruct (Hs l eq_refl) as [[Hr _] _]. rewrite <- Hid in Hr, Hleft.
    destruct (validate_bounded g h task l (w_output (walk_steps l)) reviews s Hleft (Hsha _) Hreviews Hr)
      as (r & s1 & tr & E1 & _). unfold mbind, act_bind in E. rewrite E1 in E. by injection E as <- <-.
Qed.

(** ** The run returns *)

Definition startable (b : nat) (l : list TaskStep) : Prop := unfinished l <= b /\ (l = [] -> 64 <= b).
Lemma startable_carried b : carried (startable b).
Proof.
  intros l l' Hl [Hb Hn]. split; [by eapply within_carried|]. intros ->. inversion Hl; subst. by apply Hn.
Qed.

Lemma execute_returns task : ID task = id -> forall fuel b, b < fuel ->
  triple h (held (startable b)) (executeGraphTask g fuel reviews task) (fun o _ => o <> None).
Proof.
  intros Hid. induction fuel as [|fuel IH]; intros b Hb; [lia|]. cbn [executeGraphTask].
  assert (forall P r, triple h P (mret (Some r)) (fun (o : option (res run_error unit)) _ => o <> None)) as Hret
    by (intros; by apply triple_ret).
  apply triple_first; [apply held_ask|]. intros base. apply triple_first; [apply held_Now|]. intros now.
  destruct (graphDeps g now task base) as [registry|].
  2:{ eapply (triple_bind _ _ _ _ (fun _ _ => True)); [done|]. intros r. apply Hret. }
  rewrite Hid. eapply triple_bind; [apply held_read, startable_carried|]. intros [l|e]; [|apply Hret].
  eapply (triple_bind _ _ _ _ (fun o s => match o with inl _ => True | inr _ => held (fun l => unfinished l <= b) s end)).
  { destruct l as [|s0 l].
    - intros s o s' Hs E. destruct (Hs [] eq_refl) as [[Hr Hb'] Hl].
      symmetry in Hl. apply Permutation_nil_r in Hl.
      unfold rows in Hb'. rewrite Hl in Hb'. destruct Hb' as [_ Hb'].
      pose proof (plan_keeps g h id Hleft countable task registry (TaskResearchDeadline task (g_reserve g)) Hid s o s' Hr E) as H1.
      pose proof (plan_rows task registry (TaskResearchDeadline task (g_reserve g)) Hid s o s' Hl E) as H2.
      destruct o as [r|u]; [done|]. split; [exact H1|]. cbn [rows_on] in H2. unfold rows in *. specialize (Hb' eq_refl). lia.
    - apply triple_ret. intros s Hs. destruct (Hs (s0 :: l) eq_refl) as [[Hr [Hb' _]] _]. by split. }
  intros [r|u]; [apply Hret|]. apply triple_first; [apply held_ask|]. intros runErr.
  apply triple_first; [apply held_ask|]. intros c. case_match; [apply Hret|].
  eapply triple_bind; [by apply after_run_ends|]. intros [[r|u']|]; [apply Hret| |by intros s ? ? []].
  destruct b as [|b]; [by intros s ? ? [_ [? _]]; lia|].
  eapply triple_pre; [|apply (IH b); lia]. intros s [Hr [Hu Hne]]. split; [exact Hr|]. split; [lia|done].
Qed.
End run.

(** ** The run settles once *)

Section ends.
Context {H : Type} (g : graph_host H) (h : host).

(** Time does not run backwards. *)
Definition ticks {A} (m : Act A) : Prop := forall k, keeps h (fun s => k <= steps_done s) m.
Lemma ticks_ret {A} (a : A) : ticks (mret a).
Proof. intros k. apply keeps_ret. Qed.
Lemma ticks_bind {A B} (m : Act A) (k : A -> Act B) : ticks m -> (forall a, ticks (k a)) -> ticks (m ≫= k).
Proof. intros Hm Hk n. apply keeps_bind; [apply Hm|]. intros a. apply Hk. Qed.
Lemma ticks_ask {A} (f : nat -> A) : ticks (ask f).
Proof. intros k. apply triple_ask. intros n d l Hn. simpl in *. lia. Qed.
Lemma ticks_Now : ticks Now.
Proof. intros k. apply triple_Now. intros n d l Hn. simpl in *. lia. Qed.
Lemma ticks_call {A} (op : Op A) : ticks (call op).
Proof. intros k. apply triple_call. intros n d l r d' Hn _. simpl in *. lia. Qed.
Lemma ticks_emit e : ticks (emit e).
Proof. intros k. apply triple_emit. by intros n d l Hn. Qed.
Ltac tick_steps :=
  repeat first
    [ apply ticks_ret | apply ticks_call | apply ticks_ask | apply ticks_Now | apply ticks_emit
    | solve [eauto with ticks]
    | apply ticks_bind; [|intros ?]
    | match goal with |- ticks (match ?x with _ => _ end) => destruct x end
    | match goal with |- ticks (let '_ := ?x in _) => destruct x end ].
Create HintDb ticks.

Lemma finishGraph_ticks task outcome body reason : ticks (finishGraph g task outcome body reason).
Proof.
  unfold finishGraph, finalize, iteration_hook, afterArtifactFinalized, archiveTaskSession, status_hook. tick_steps.
Qed.
Lemma yield_ticks task next : ticks (yield_task g task next).
Proof. unfold yield_task. tick_steps. Qed.
Lemma save_ticks task st : ticks (save_final task st).
Proof. unfold save_final. tick_steps. Qed.
#[local] Hint Resolve finishGraph_ticks yield_ticks save_ticks : ticks.
Lemma partial_ticks task steps reason : ticks (finishGraphPartial g task steps reason).
Proof. unfold finishGraphPartial. tick_steps. Qed.
Lemma defer_ticks task stop st reason delay : ticks (deferCheck g task stop st reason delay).
Proof. unfold deferCheck. tick_steps. Qed.
Lemma repair_failed_ticks task stop st err : ticks (repair_failed g task stop st err).
Proof. unfold repair_failed. tick_steps. Qed.
#[local] Hint Resolve partial_ticks defer_ticks repair_failed_ticks : ticks.
Lemma repair_ticks task stop st : ticks (repair g task stop st).
Proof. unfold repair, enough_time. tick_steps. Qed.
Lemma check_ticks task stop st body receipts : ticks (check_response g task stop st body receipts).
Proof. unfold check_response. tick_steps. Qed.
#[local] Hint Resolve repair_ticks check_ticks : ticks.
Lemma review_ticks task steps stop st body : ticks (review g task steps stop st body).
Proof. unfold review. tick_steps. Qed.
#[local] Hint Resolve review_ticks : ticks.
Lemma validate_ticks fuel task steps body : ticks (validateGraphResult g fuel task steps body).
Proof.
  induction fuel as [|fuel IH]; cbn [validateGraphResult]; [apply ticks_ret|].
  unfold review_round, conclude_review. tick_steps.
Qed.
Lemma plan_ticks task registry until : ticks (plan_task g task registry until).
Proof. unfold plan_task, plan_failed, prepare_context. tick_steps. Qed.
#[local] Hint Resolve validate_ticks plan_ticks : ticks.
Lemma after_run_ticks fuel task until runErr : ticks (after_run g fuel task until runErr).
Proof. unfold after_run, wait_for_steps. tick_steps. Qed.

(** A run that was called off while its steps ran: it asked for nothing, and its
    last question was whether it is cancelled. *)
Definition called_off (k : nat) (r : res run_error unit) (s' : sys) (l : list event) : Prop :=
  List.filter settles l = [] /\ r = Ok tt
  /\ exists n, k <= n /\ steps_done s' = S n /\ g_cancelled g n = true.
Definition run_settled (k : nat) (o : option (res run_error unit)) (s' : sys) (l : list event) : Prop :=
  match o with
  | Some r => ends r l \/ called_off k r s' l
  | None => forallb unsettling l = true
  end.
#[local] Abbreviation since k := (fun s => k <= steps_done s).

Lemma run_settled_quiet k o s' l1 l2 : forallb unsettling l1 = true -> run_settled k o s' l2 ->
  run_settled k o s' (l1 ++ l2).
Proof.
  intros H1. destruct o as [r|]; simpl; [|by rewrite forallb_app, H1]. intros [H2|(H2 & H3)].
  - left. by apply ends_quiet.
  - right. split; [|done]. by rewrite List.filter_app, (unsettled _ H1), H2.
Qed.
Lemma settled_first {A} k (m : Act A) (c : A -> Act (option (res run_error unit))) :
  ticks m -> only h unsettling m -> (forall a, does h (since k) (c a) (run_settled k)) ->
  does h (since k) (m ≫= c) (run_settled k).
Proof.
  intros Ht Hm Hc. eapply does_bind; [apply does_both; [apply Ht|exact Hm]|]. intros a l1 H1.
  eapply does_weaken; [apply Hc|done|]. intros o s l2. by apply run_settled_quiet.
Qed.
Lemma settled_end k (m : Act (res run_error unit)) : settled_once h m ->
  does h (since k) (r ← m; mret (Some r)) (run_settled k).
Proof.
  intros Hm s o s' _ E. apply (run_end h) in Hm. destruct (Hm _ _ _ E) as (l & Hl & He). exists l. split; [done|].
  destruct o; [by left|done].
Qed.
Lemma settled_error_end k e : does h (since k) (mret (Some (Err e))) (run_settled k).
Proof. intros s o s' _ [= <- <-]. exists []. rewrite app_nil_r. split; [done|by left]. Qed.

(** A stage may end the run. *)
Lemma settled_stage {A} k (m : Act (staged A)) c :
  ticks m -> stage h m -> (forall r, c (inl r) = mret (Some r)) ->
  (forall a, does h (since k) (c (inr a)) (run_settled k)) -> does h (since k) (m ≫= c) (run_settled k).
Proof.
  intros Ht Hm Hl Hc. eapply does_bind; [apply does_both; [apply Ht|exact Hm]|]. intros [r|a] l1 H1.
  - rewrite Hl. intros s o s' _ [= <- <-]. exists []. rewrite !app_nil_r. split; [done|by left].
  - eapply does_weaken; [apply Hc|done|]. intros o s l2. by apply run_settled_quiet.
Qed.

Lemma settled_unless_cancelled k (runErr : option gerr) (c : bool -> Act (option (res run_error unit))) :
  (forall b, does h (since k) (c b) (run_settled k)) ->
  does h (since k) (cancelled ← ask (g_cancelled g);
    if Is_opt runErr CClaimLost || (cancelled : bool) then
      mret (Some (match runErr with Some e => Err (RExecutor e) | None => Ok tt end))
    else c cancelled) (run_settled k).
Proof.
  intros Hc s o s' Hs E. unfold mbind, act_bind, ask in E. destruct (_ || g_cancelled g (steps_done s)) eqn:Hoff.
  - injection E as <- <-. exists []. rewrite app_nil_r. split; [done|]. destruct runErr as [e|]; [by left|].
    right. split; [done|]. split; [done|]. exists (steps_done s). done.
  - apply (Hc (g_cancelled g (steps_done s)) (MkSys (S (steps_done s)) (tables s) (trace s)) o s'); [simpl; lia|exact E].
Qed.

Lemma executeGraphTask_settled fuel reviews task k :
  does h (since k) (executeGraphTask g fuel reviews task) (run_settled k).
Proof.
  induction fuel as [|fuel IH]; cbn [executeGraphTask].
  { intros s o s' _ [= <- <-]. exists []. by rewrite app_nil_r. }
  apply settled_first; [apply ticks_ask|only_steps|]. intros base.
  apply settled_first; [apply ticks_Now|only_steps|]. intros now.
  destruct (graphDeps g now task base) as [registry|]; [|apply settled_end; apply finishGraph_settled].
  apply settled_first; [apply ticks_call|only_steps|]. intros [steps|e]; [|apply settled_error_end].
  apply settled_stage; [destruct steps; [apply plan_ticks|apply ticks_ret]| |done|].
  { destruct steps; [apply plan_task_stage|apply stage_go]. }
  intros u. apply settled_first; [apply ticks_ask|only_steps|]. intros runErr.
  apply settled_unless_cancelled. intros c.
  eapply does_bind; [apply does_both; [apply after_run_ticks|apply after_run_stage]|].
  intros [[r|u']|] l1 H1.
  - intros s o s' _ [= <- <-]. exists []. rewrite !app_nil_r. split; [done|by left].
  - eapply does_weaken; [apply IH|done|]. intros o s l2. by apply run_settled_quiet.
  - intros s o s' _ [= <- <-]. exists []. by rewrite !app_nil_r.
Qed.
End ends.

(** C7: A run of a graph task settles it at most once: it asks the store at most
    a single time to end the task or to hand it back, and reports success
    exactly when the store did so.  A run that asks for neither fails, unless
    it was called off: its last question was then whether it is cancelled, and
    the host said so.  And every run returns, whatever its host answers: with
    fuel for the steps left and for a plan's 64, it goes round at most once per
    step, as long as the other workers carry the steps on without adding any
    and leave the record of the final review alone. *)
Theorem graph_run_settles_once {H} (g : graph_host H) h fuel reviews task s :
  (forall r s', executeGraphTask g fuel reviews task h s = (Some r, s') ->
     exists l, trace s' = trace s ++ l /\ (ends r l \/ called_off g (steps_done s) r s' l))
  /\ (review_left (ID task) h -> steps_left (ID task) h -> (forall b, text_ok (g_sha256 g b)) ->
      recorded (ID task) countable s ->
      unfinished (task_steps (ID task) (tables s)) < fuel -> 64 < fuel -> 4 <= reviews ->
      exists r s', executeGraphTask g fuel reviews task h s = (Some r, s')).
Proof.
  split.
  - intros r s' E. exact (executeGraphTask_settled g h fuel reviews task (steps_done s) s _ s' (le_n _) E).
  - intros Hleft Hsteps Hsha Hrec Hf Hp Hr. destruct (executeGraphTask g fuel reviews task h s) as [o s'] eqn:E.
    destruct o as [r|]; [by exists r, s'|]. exfalso.
    apply (execute_returns g h (ID task) Hleft Hsteps Hsha reviews Hr task eq_refl fuel
      (Nat.max (unfinished (task_steps (ID task) (tables s))) 64)) in E; [done|lia|].
    split; [done|]. split; [lia|intros; lia].
Qed.

(** ** Witness *)

(** A round resolves the blocked step; the next one has the report reviewed,
    repaired and published. *)
Definition blocked_step : TaskStep :=
  MkTaskStep 1%N "look" "look" "found" "read" [] [] SBlocked "" JNull 3 3 time_zero ""
    None None None None None None None.
Definition blocked_start : db := with_steps [blocked_step; demo_step] sample_start.
Definition blocked_graph (met : string -> bool) : graph_host nat :=
  MkGraphHost nat (report_executor true) 0%nat None (fun _ _ _ _ => Err (plain_failure "")) (fun _ _ => None) None
    (Some (fun _ _ body reason => Ok (String.append body " [1]"))) None (demo_review met)
    (fun s => if String.eqb s "" then "e3b0"%string else "9f86"%string) keys_order (fun _ => ""%string) (fun _ => false) 0
    (fun t => t) (fun t => t).
Definition blocked_run (met : string -> bool) :=
  executeGraphTask (blocked_graph met) 65 4 sample_task demo_world (MkSys 1 blocked_start []).

Lemma demo_steps_left : steps_left 1 demo_world.
Proof. intros n d. apply carried_list_refl. Qed.

Lemma graph_run_settles_once_witness :
  trace (snd (blocked_run (fun _ => false)))
    = [EvReview 1 "Draft." false; EvRepair 1; EvReview 1 "Draft. [1]" false; EvRepair 1;
       EvReview 1 "Draft. [1] [1]" false; EvFinalize 1 "partial" "Draft. [1] [1]" true;
       EvIterationHook 1 "Draft. [1] [1]" true true false; EvStatusHook 1 TDone "Draft. [1] [1]"; EvDrain]
  /\ (fun s => (s_ID s, s_Status s)) <$> steps (tables (snd (blocked_run (fun _ => false))))
     = [("look"%string, SDone); ("report"%string, SDone)]
  /\ exists r s' l, blocked_run (fun _ => false) = (Some r, s') /\ trace s' = [] ++ l
       /\ (ends r l \/ called_off (blocked_graph (fun _ => false)) 1 r s' l).
Proof.
  split; [by vm_compute|]. split; [by vm_compute|].
  destruct (graph_run_settles_once (blocked_graph (fun _ => false)) demo_world 65 4 sample_task
    (MkSys 1 blocked_start [])) as [Honce Hreturns].
  destruct Hreturns as (r & s' & E).
  - exact demo_left.
  - exact demo_steps_left.
  - intros b. simpl. by destruct (String.eqb b "").
  - intros t [= <-]. split; [by constructor|]. intros f [= <-]. split; by vm_compute.
  - apply Nat.ltb_lt. by vm_compute.
  - apply Nat.ltb_lt. reflexivity.
  - apply Nat.leb_le. reflexivity.
  - destruct (Honce r s' E) as (l & Hl & He). exists r, s', l. split; [exact E|]. split; [exact Hl|exact He].
Defined.
