(* ===== verification/Citations.v ===== *)
(** * Citations: the sources a report cites and the sources its task opened

    internal/agenttask/evaluator.go: the URLs of a text and their canonical
    keys, the number of sources a criterion asks for, the pages a task opened,
    and the gates that compare them before any reviewer is asked; with
    [RewriteAbstractToPDF] of internal/webaccess/browser/browser.go.

    Package net/url is the record [url_pkg]: parsing, the parts of a URL the
    code reads, and its text with another path; [lower] is [strings.ToLower] on
    hosts.  A URL set is a [gset]; [order] is the order in which Go ranges over
    the counts of a map. *)

From Stdlib Require Import Ascii String.
From stdpp Require Import pretty.
From S2P Require Import Prelude GoStrings Json GoJson Task TaskConfig TaskTools Grounding Projection.

Local Open Scope Z_scope.

(** ** Searching a text *)

Definition is_digit (c : ascii) : bool := in_range 48 57 c.
Definition is_word (c : ascii) : bool :=
  is_digit c || in_range 65 90 c || in_range 97 122 c || Ascii.eqb c "_"%char.

(** All leftmost matches that do not overlap; [m] says whether one starts here,
    after a word character or not, with its value and its length. *)
Fixpoint find_all {A} (m : bool -> bytes -> option (A * nat)) (prev : bool) (skip : nat) (s : bytes)
    : list A :=
  match s with
  | [] => []
  | c :: s' =>
      match skip with
      | S k => find_all m (is_word c) k s'
      | O => match m prev s with
             | Some (a, n) => a :: find_all m (is_word c) (pred n) s'
             | None => find_all m (is_word c) 0 s'
             end
      end
  end.

Fixpoint span (p : ascii -> bool) (s : bytes) : bytes * bytes :=
  match s with
  | c :: s' => if p c then let '(a, b) := span p s' in (c :: a, b) else ([], s)
  | [] => ([], [])
  end.

(** ** The number of sources asked for *)

(** One letter of a word, up to case: the long s and the Kelvin sign fold to
    [s] and [k]. Gives the rest and whether the letter was an ASCII one. *)
Definition fold_letter (p : ascii) (s : bytes) : option (bytes * bool) :=
  match s with
  | c :: s' =>
      if Ascii.eqb (to_lower c) p then Some (s', true)
      else if Ascii.eqb p "s"%char && HasPrefix s [chr 197; chr 191] then Some (drop 2 s, false)
      else if Ascii.eqb p "k"%char && HasPrefix s [chr 226; chr 132; chr 170] then Some (drop 3 s, false)
      else None
  | [] => None
  end.
Fixpoint fold_prefix (p s : bytes) (last : bool) : option (bytes * bool) :=
  match p with
  | [] => Some (s, last)
  | c :: p => '(s, last) ← fold_letter c s; fold_prefix p s last
  end.
Definition starts_word (s : bytes) : bool := match s with c :: _ => is_word c | [] => false end.

Definition source_nouns : list string :=
  ["url"; "urls"; "source"; "sources"; "citation"; "citations"; "reference"; "references"; "link";
   "links"]%string.
(** What is left after one of the nouns and a word boundary. *)
Definition after_noun (s : bytes) : option bytes :=
  head (omap (fun n => '(rest, last) ← fold_prefix (lit n) s false;
                       if xorb last (starts_word rest) then Some rest else None) source_nouns).
Definition requirement_at (prev : bool) (s : bytes) : option (Z * nat) :=
  if prev then None
  else
    let '(ds, rest) := span is_digit s in
    if Nat.leb 1 (length ds) && Nat.leb (length ds) 3 then
      let '(_, rest) := span re_space rest in
      let rest := TrimPrefix rest (lit "+") in
      let '(_, rest) := span re_space rest in
      rest ← after_noun rest;
      Some (default 0 (parse_digits 0 ds), (length s - length rest)%nat)
    else None.
(** The largest [N] of an "N sources" phrase. *)
Definition extractURLRequirement (criteria : string) : Z :=
  fold_left Z.max (find_all requirement_at false 0 (lit criteria)) 0.

(** ** URLs *)

Definition url_char (c : ascii) : bool :=
  negb (re_space c || existsb (Ascii.eqb c) [")"; "]"; "\"; "034"; "'"; "<"; ">"]%char).
Definition scheme (s : bytes) : option bytes :=
  if HasPrefix s (lit "https://") then Some (drop 8 s)
  else if HasPrefix s (lit "http://") then Some (drop 7 s)
  else None.
Definition url_at (_ : bool) (s : bytes) : option (bytes * nat) :=
  rest ← scheme s;
  match span url_char rest with
  | ([], _) => None
  | (_, rest) => let n := (length s - length rest)%nat in Some (take n s, n)
  end.

Definition trim_right_set (set s : bytes) : bytes :=
  reverse (snd (span (fun c => existsb (Ascii.eqb c) set) (reverse s))).
Definition HasSuffix (s p : bytes) : bool := HasPrefix (reverse s) (reverse p).
Definition TrimSuffix (s p : bytes) : bytes :=
  if HasSuffix s p then take (length s - length p) s else s.

Definition isLooksLikeRealURL (s : bytes) : bool :=
  let low := ToLower_ascii s in
  if Contains low (lit "httpshttps") || Contains low (lit "httphttp") then false
  else if HasSuffix (trim_right_set (lit "/") s) (lit "..") then false
  else match Index low (lit "://") with
  | None => false
  | Some i =>
      let host := fst (span (fun c => negb (existsb (Ascii.eqb c) (lit "/?#"))) (drop (i + 3) s)) in
      Contains host (lit ".") && negb (Contains host (lit "_"))
  end.

Section urls.
Record url_pkg {URL : Type} := MkUrlPkg {
  url_Parse : string -> option URL;
  url_Host : URL -> string;
  url_Path : URL -> string;
  url_id : URL -> string;                  (* u.Query().Get("id") *)
  url_with_path : URL -> string -> string; (* u.Path = p; u.String() *)
  url_lower : string -> string;            (* strings.ToLower *)
}.
Arguments url_pkg : clear implicits.
Context {URL : Type} (net : url_pkg URL).

Definition under (p : string) (path : bytes) : bool := HasPrefix path (lit p).

(** The PDF of an abstract page. *)
Definition RewriteAbstractToPDF (raw : string) : string :=
  match url_Parse net raw with
  | None => raw
  | Some u =>
      let host := str (TrimPrefix (lit (url_lower net (url_Host net u))) (lit "www.")) in
      let path := lit (url_Path net u) in
      if String.eqb (url_Host net u) "" then raw
      else if String.eqb host "arxiv.org" then
        if negb (under "/abs/" path) then raw
        else
          let id := TrimSuffix (TrimPrefix path (lit "/abs/")) (lit "/") in
          match id with
          | [] => raw
          | _ => url_with_path net u (str (lit "/pdf/" ++ id ++ lit ".pdf"))
          end
      else if String.eqb host "biorxiv.org" || String.eqb host "medrxiv.org" then
        if negb (under "/content/" path) || HasSuffix path (lit ".full.pdf") then raw
        else url_with_path net u
               (str (TrimSuffix (TrimSuffix path (lit "/")) (lit ".full") ++ lit ".full.pdf"))
      else if String.eqb host "openreview.net" then
        if negb (String.eqb (url_Path net u) "/forum") || String.eqb (url_id net u) "" then raw
        else url_with_path net u "/pdf"
      else raw
  end.

(** The key under which cited and opened pages are compared; empty for a text
    that is no URL. *)
Definition canonURLKey (raw : string) : string :=
  match url_Parse net (RewriteAbstractToPDF raw) with
  | None => ""
  | Some u => if String.eqb (url_Host net u) "" then ""
              else String.append (url_lower net (url_Host net u)) (url_Path net u)
  end.
Definition key_set (l : list string) : gset string :=
  list_to_set (List.filter (fun k => negb (String.eqb k "")) (canonURLKey <$> l)).

Definition real_urls (text : bytes) : list string :=
  str <$> List.filter isLooksLikeRealURL
            (trim_right_set (lit ".,;:!?") <$> find_all url_at false 0 text).
Definition extractURLs (text : string) : gset string := key_set (real_urls (lit text)).

(** ** Pages opened *)

Record trace_entry := MkTraceEntry { te_Name : string; te_Input : string }.
Definition as_trace_entry (j : json) : option trace_entry :=
  if is_object j || is_null j then
    name ← decode_string "name" j; input ← decode_string "input" j; Some (MkTraceEntry name input)
  else None.
Definition trace_entries (trace : bytes) : list trace_entry :=
  match trace with
  | [] => []
  | _ => default [] (j ← Members trace; as_list as_trace_entry [] j)
  end.
Definition is_fetch (e : trace_entry) : bool := String.eqb (te_Name e) "browser_fetch".
(** What one iteration opened. *)
Definition extractFetchedURLsFromTrace (trace : bytes) : gset string :=
  ⋃ ((fun e => extractURLs (te_Input e)) <$> List.filter is_fetch (trace_entries trace)).

(** What a task opened: the inputs of its fetches and the URLs of their
    recorded outputs, as the two queries return them; [None] without a
    database. *)
Record fetch_record := MkFetchRecord {
  fetch_inputs : list (option string);
  fetch_outputs : list (option string * option string); (* requested_url, final_url *)
}.
Definition opened_urls (r : fetch_record) : gset string :=
  ⋃ (extractURLs <$> omap id (fetch_inputs r))
  ∪ key_set (omap fst (fetch_outputs r)) ∪ key_set (omap snd (fetch_outputs r)).
Definition loadFetchedURLs (r : option (res string fetch_record)) : res string (gset string) :=
  match r with
  | None => Ok ∅
  | Some (Err e) => Err e
  | Some (Ok r) => Ok (opened_urls r)
  end.

(** ** Independent sources *)

Definition multiAuthorPlatforms : list string :=
  ["arxiv.org"; "openreview.net"; "neurips.cc"; "thecvf.com"; "mlr.press"; "aclanthology.org";
   "aaai.org"; "acm.org"; "ieee.org"; "paperswithcode.com"; "semanticscholar.org"; "nature.com";
   "science.org"; "plos.org"; "biorxiv.org"; "medrxiv.org"; "ssrn.com"]%string.
Definition registrableDomain (key : string) : string :=
  let host := TrimPrefix (fst (span (fun c => negb (Ascii.eqb c "/"%char)) (lit key))) (lit "www.") in
  let parts := split_at "."%char host in
  if Nat.ltb (length parts) 2 then str host
  else str (Join (lit ".") (drop (length parts - 2) parts)).
Definition diversityBucket (key : string) : string :=
  let d := registrableDomain key in
  if existsb (String.eqb d) multiAuthorPlatforms then key else d.

Definition bucket_counts (cited : gset string) : gmap string Z :=
  foldr (fun key m => let b := diversityBucket key in
           if String.eqb b "" then m else <[b := default 0 (m !! b) + 1]> m) ∅ (elements cited).
Definition top_bucket (l : list (string * Z)) : string * Z :=
  fold_left (fun top p => if Z.ltb (snd top) (snd p) then p else top) l (""%string, 0).

Definition taskRequiresSourceDiversity (task : AgentTask) : bool :=
  match Config task with
  | JObj fs => fold_left (fun acc p => if same_name "result_contract" (fst p)
                 then lenient acc as_bool "require_independent_sources" (snd p) else acc) fs false
  | _ => false
  end.

(** ** The gates *)

(** Gate B': pages the last audit asked to read again, not opened in this
    iteration. *)
Definition missing_rechecks (task : AgentTask) (trace : bytes) : list string :=
  List.filter (fun u => let key := canonURLKey u in
      negb (String.eqb key "") && negb (bool_decide (key ∈ extractFetchedURLsFromTrace trace)))
    (RequiredRecheckURLs task).
Definition recheck_gate (task : AgentTask) (trace : bytes) : option string :=
  match missing_rechecks task trace with
  | [] => None
  | missing => Some (words ["recheck gate: previous iteration's grounding audit flagged claims tied to ";
      num (Z.of_nat (length (RequiredRecheckURLs task)));
      " URL(s); you must call browser_fetch on each in this same iteration before resubmitting. ";
      "Missing this iteration: "; String.concat ", " missing]%string)
  end.

Definition set_size (s : gset string) : Z := Z.of_nat (size s).

Definition no_fetch_reason (required count : Z) : string := words
  ["hard gate: result lists "; num count;
   " URL-like strings but browser_fetch was never called — citations are synthesised, not read. Open at least ";
   num (if Z.eqb required 0 then 1 else required);
   " distinct pages via browser_fetch and cite them."]%string.
Definition few_verified_reason (required count verified fetched : Z) : string := words
  ["hard gate: only "; num verified; " of "; num required;
   " cited URLs were actually fetched (result has "; num count; " URL-like strings, "; num fetched;
   " distinct URLs were fetched). Fetched URLs must appear in the result, not synthesised ones."]%string.
Definition mostly_synthesised_reason (count verified fetched : Z) : string := words
  ["hard gate: only "; num verified; " of "; num count; " URLs in the report were actually fetched (";
   num fetched; " distinct URLs were opened via browser_fetch). The majority of your citations are ";
   "synthesised. Cite only URLs you opened, or open the URLs you cite."]%string.
Definition diversity_reason (count distinct : Z) (top : string * Z) : string := words
  ["diversity gate: "; num count; " cited URLs but only "; num distinct; " distinct sources (top: ";
   fst top; " with "; num (snd top); "/"; num count; " ≈ "; num (Z.quot (snd top * 100) count);
   "%). Strong research needs triangulation across ≥3 distinct sources with no single source over 50%. ";
   "Different papers on a shared preprint server (arxiv, openreview, etc.) each count as a separate ";
   "source; but multiple URLs from one vendor's blog or one company's domain count as one. Fetch and ";
   "cite at least one independent or comparative source outside "; fst top;
   " before re-submitting."]%string.

Context (order : gmap string Z -> list (string * Z)).

(** The gates on the citations of a result, with the reason of the first that
    closes. *)
Definition citation_gates (task : AgentTask) (required : Z) (cited fetched : gset string)
    : option string :=
  let count := set_size cited in
  let opened := set_size fetched in
  let verified := set_size (cited ∩ fetched) in
  if Z.ltb 0 count && Z.eqb opened 0 then Some (no_fetch_reason required count)
  else if Z.ltb 0 required && Z.ltb verified required
  then Some (few_verified_reason required count verified opened)
  else if Z.leb 2 count && Z.leb 1 opened && Z.ltb (verified * 2) count
  then Some (mostly_synthesised_reason count verified opened)
  else if Z.leb 4 count && taskRequiresSourceDiversity task then
    let buckets := bucket_counts cited in
    let top := top_bucket (order buckets) in
    let distinct := Z.of_nat (size buckets) in
    if Z.ltb distinct 3 || Z.ltb count (snd top * 2) then Some (diversity_reason count distinct top)
    else None
  else None.

(** ** When the gates are open *)

(** The cited pages are backed by the opened ones. *)
Record backed (task : AgentTask) (required : Z) (cited fetched : gset string) : Prop := {
  backed_read : cited <> ∅ -> fetched <> ∅;
  backed_count : required <= set_size (cited ∩ fetched);
  backed_half : 2 <= set_size cited -> set_size cited <= 2 * set_size (cited ∩ fetched);
  backed_diverse : 4 <= set_size cited -> taskRequiresSourceDiversity task = true ->
    3 <= Z.of_nat (size (bucket_counts cited))
    /\ forall b n, bucket_counts cited !! b = Some n -> 2 * n <= set_size cited;
}.

Lemma set_size_pos (s : gset string) : 0 < set_size s <-> s <> ∅.
Proof.
  unfold set_size. split.
  - intros H ->. rewrite size_empty in H. lia.
  - intros H. assert (size s <> 0%nat); [|lia]. intros E. by apply size_empty_inv, leibniz_equiv in E.
Qed.

Lemma top_bucket_least l t n : snd (fold_left (fun top p => if Z.ltb (snd top) (snd p) then p else top) l t) <= n
  <-> snd t <= n /\ Forall (fun p : string * Z => snd p <= n) l.
Proof.
  revert t. induction l as [|p l IH]; intros t; simpl; [split; [done|by intros [? _]]|].
  rewrite IH, Forall_cons. destruct (Z.ltb_spec (snd t) (snd p)); intuition lia.
Qed.

Lemma bucket_counts_pos cited b n : bucket_counts cited !! b = Some n -> 0 < n.
Proof.
  unfold bucket_counts. revert b n. induction (elements cited) as [|k l IH]; intros b n; simpl; [done|].
  case_match; [apply IH|]. intros [[_ <-]|[_ Hn]]%lookup_insert_Some; [|by eapply IH].
  destruct (foldr _ _ _ !! _) as [m|] eqn:E; simpl; [apply IH in E|]; lia.
Qed.

Lemma citation_gates_open task required cited fetched :
  (forall m, order m ≡ₚ map_to_list m) -> 0 <= required ->
  citation_gates task required cited fetched = None <-> backed task required cited fetched.
Proof.
  intros Horder Hreq. unfold citation_gates. pose proof (set_size_pos cited). pose proof (set_size_pos fetched).
  assert (forall s, 0 <= set_size s) as Hpos by (intros s; unfold set_size; lia).
  pose proof (Hpos cited). pose proof (Hpos fetched). pose proof (Hpos (cited ∩ fetched)).
  assert (forall n, 0 <= n -> snd (top_bucket (order (bucket_counts cited))) <= n
            <-> forall b m, bucket_counts cited !! b = Some m -> m <= n) as Htop.
  { intros n Hn. unfold top_bucket. rewrite top_bucket_least, Horder, Forall_forall. simpl. split.
    - intros [_ H'] b m Hb. by apply (H' (b, m)), elem_of_map_to_list.
    - intros H'. split; [done|]. intros [b m] Hin. apply elem_of_map_to_list in Hin. by eapply H'. }
  assert (forall {A} (a b c d e : bool) (w x y z : A),
    (if a then Some w else if b then Some x else if c then Some y else if d then (if e then Some z else None) else None)
      = None <-> a = false /\ b = false /\ c = false /\ (d = true -> e = false)) as Hif.
  { intros A a b c d e w x y z. destruct a, b, c, d, e; naive_solver. }
  cbv zeta. rewrite Hif. clear Hif.
  rewrite !andb_true_iff, orb_false_iff, !andb_false_iff, !Z.ltb_ge, !Z.leb_gt, !Z.leb_le, Z.eqb_neq. split.
  - intros (G1 & G2 & G3 & G4). assert (2 * snd (top_bucket (order (bucket_counts cited))) <= set_size cited -> 
      forall b m, bucket_counts cited !! b = Some m -> 2 * m <= set_size cited) as Hall.
    { intros Hle b m Hb. assert (m <= set_size cited / 2) as Hm; [|pose proof (Z.mul_div_le (set_size cited) 2); lia].
      revert b m Hb. apply Htop; [apply Z.div_pos; lia|]. apply Z.div_le_lower_bound; lia. }
    split; [|lia|lia|].
    + intros Hc%set_size_pos. apply set_size_pos. lia.
    + intros Hc Hd. destruct (G4 (conj Hc Hd)). split; [lia|]. apply Hall. lia.
  - intros [B1 B2 B3 B4].
    assert (4 <= set_size cited -> taskRequiresSourceDiversity task = true ->
      2 * snd (top_bucket (order (bucket_counts cited))) <= set_size cited) as Hall.
    { intros Hc Hd. destruct (B4 Hc Hd) as [_ Hb]. assert (snd (top_bucket (order (bucket_counts cited))) <= set_size cited / 2);
        [|pose proof (Z.mul_div_le (set_size cited) 2); lia].
      apply Htop; [apply Z.div_pos; lia|]. intros b m Hm. apply Z.div_le_lower_bound; [lia|]. by eapply Hb. }
    split_and!; [|lia|lia|].
    + destruct (decide (cited = ∅)) as [->|Hc]; [left; by vm_compute|]. apply B1, set_size_pos in Hc. lia.
    + intros [Hc Hd]. specialize (Hall Hc Hd). destruct (B4 Hc Hd). lia.
Qed.

Definition rechecks_done (task : AgentTask) (trace : bytes) : Prop :=
  forall u, In u (RequiredRecheckURLs task) -> canonURLKey u <> ""%string ->
    canonURLKey u ∈ extractFetchedURLsFromTrace trace.
Lemma recheck_gate_open task trace : recheck_gate task trace = None <-> rechecks_done task trace.
Proof.
  unfold recheck_gate, rechecks_done. transitivity (missing_rechecks task trace = []).
  { by destruct (missing_rechecks task trace). }
  unfold missing_rechecks. induction (RequiredRecheckURLs task) as [|u l IH]; simpl; [done|].
  destruct (String.eqb_spec (canonURLKey u) "") as [E|E]; simpl; [rewrite IH; naive_solver|].
  destruct (bool_decide_reflect (canonURLKey u ∈ extractFetchedURLsFromTrace trace)) as [Hin|Hin]; simpl.
  - rewrite IH. naive_solver.
  - split; [done|]. intros H. destruct Hin. by apply H; [left|].
Qed.
End urls.
Arguments url_pkg : clear implicits.

Lemma extractURLRequirement_nonneg criteria : 0 <= extractURLRequirement criteria.
Proof.
  unfold extractURLRequirement. generalize (find_all requirement_at false 0 (lit criteria)). intros l.
  assert (forall n, 0 <= n -> 0 <= fold_left Z.max l n) as H; [|by apply H].
  induction l as [|m l IH]; intros n Hn; simpl; [done|]. apply IH. lia.
Qed.

(** A scheme written twice before a URL is not noticed: the search starts at
    the inner one. *)
Example double_scheme_survives :
  real_urls (lit "see httpshttps://ai.meta.com/blog") = ["https://ai.meta.com/blog"%string].
Proof. reflexivity. Qed.
