(* ===== verification/Acceptance.v ===== *)
(** * Acceptance: whether a result meets its task's criteria

    internal/agenttask/evaluator.go, graph_reviews.go and grounding_parts.go:
    [evaluateAcceptanceWithPrior] tries the citation gates, has the sources
    audited and asks a reviewer; only a result that passes all of them is
    accepted.  What could not be checked is unavailable, never passed.

    The reviewer and the auditor are answers of the host, by the text they are
    asked about; what their prompts show is not modelled.  [input_hash] is the
    hash of the audit's request, [target_hash] that of a part's text. *)

From Stdlib Require Import Ascii String.
From stdpp Require Import pretty.
From S2P Require Import Prelude GoStrings Json GoJson Task Lifecycle TaskConfig Conversation AgentLoop TaskRetry Grounding FinalState Citations.

Local Open Scope Z_scope.

(** ** Answers *)

Definition contentToText (blocks : list ContentBlock) : bytes :=
  List.concat (Text <$> List.filter (is_type "text") blocks).

Definition cut_to_object (body : bytes) : bytes :=
  match Index body open_brace, LastIndexByte body close_brace with
  | Some start, Some end_ => if Nat.ltb start end_ then drop start (take (S end_) body) else body
  | _, _ => body
  end.
(** [*bool]. *)
Definition as_bool_pointer (_ : option bool) (j : json) : option (option bool) :=
  match j with JNull => Some None | _ => Some <$> as_bool j end.

(** The reviewer's decision and its reason; [None] for an answer that holds no
    decision. *)
Definition parseAcceptanceResponse (resp : option CompletionResponse) : option (bool * string) :=
  match resp with
  | None => None
  | Some r =>
      if String.eqb (p_StopReason r) "max_tokens" then None
      else
        j ← Members (cut_to_object (TrimSpace_b (contentToText (p_Content r))));
        if is_object j || is_null j then
          met ← decode_into None as_bool_pointer "met" j;
          reason ← decode_string "reason" j;
          met ← met : option bool;
          Some (met, reason)
        else None
  end.

Definition unavailableAcceptance (reason : string) (grounding : option GroundingVerdict)
    (cause : option failure) : AcceptanceVerdict :=
  let delay := match grounding with Some g => gv_RetryDelay g | None => 0 end in
  MkAcceptance (match cause with Some e => Z.max delay (snd (TaskRetryPolicy (Some e))) | None => delay end)
    false (String.append "verification_unavailable: " reason) true grounding "".
Definition rejected (reason : string) : AcceptanceVerdict := MkAcceptance 0 false reason false None "".

(** ** The audit *)

Record ToolOutput := MkToolOutput {
  to_ToolName : string;
  to_ToolInput : bytes;
  to_Output : string;
  to_OutputFormat : string;
  to_Metadata : json;
  to_Iteration : Z;
}.

(** The inference the gates use. *)
Record reviewers := MkReviewers {
  has_llm : bool;                          (* deps.LLM != nil *)
  graph_prompt : option (res failure string); (* the graph reviewer's prompt; None without a store *)
  has_audit_model : bool;
  has_review_model : bool;
  graph_input : bool;                      (* the traces of the graph can be shown *)
  auditor : string -> res failure (option CompletionResponse);  (* by audit target *)
  audit_cancelled : nat -> bool;           (* ctx.Err() != nil when part [i] is taken *)
  reviewer : res failure (option CompletionResponse);
  json_error : bytes -> string;            (* the text of a decoding error *)
}.

Section acceptance.
Context (IsPrint : Z -> bool) (h : reviewers) (target_hash : string -> string).
Context (input_hash : AgentTask -> string -> list ToolOutput -> string).

Definition is_graph (task : AgentTask) : bool := Z.eqb (ExecutorVersion task) 2.
Definition part_score (task : AgentTask) (v : GroundingVerdict) : GroundingVerdict :=
  let v := scoreGroundingVerdict IsPrint v in
  if is_graph task then strictGraphGrounding IsPrint v else v.

Definition audit_answer (task : AgentTask) (resp : option CompletionResponse) : GroundingVerdict :=
  let incomplete := unavailable_audit "grounding evaluator returned an incomplete audit" 0 in
  match resp with
  | None => incomplete
  | Some r =>
      if String.eqb (p_StopReason r) "max_tokens" then incomplete
      else
        let raw := contentToText (p_Content r) in
        match parseGroundingResponse raw with
        | Err no_object => unavailable_audit (String.append "grounding evaluator JSON parse failed: "
            (if (no_object : bool) then "no JSON object found in response" else json_error h raw)) 0
        | Ok v => part_score task v
        end
  end.

Definition evaluateGroundingPart (task : AgentTask) (docs : list ToolOutput) (target : string)
    : GroundingVerdict :=
  match docs with
  | [] => with_met true false "no fetched documents to audit against (Gate A should have caught this)"
            no_verdict
  | _ =>
      if negb (has_llm h) then unavailable_audit "no LLM configured for grounding eval" 0
      else if negb (has_audit_model h) then unavailable_audit "no model configured for grounding eval" 0
      else match auditor h target with
      | Err e => unavailable_audit (String.append "grounding LLM call failed: " (Error e))
                   (snd (TaskRetryPolicy (Some e)))
      | Ok resp => audit_answer task resp
      end
  end.

(** The verdicts of the parts, in their order; the pool that computes them is
    below. *)
Definition runGroundingParts (audit : string -> GroundingVerdict) (parts : list string)
    : list GroundingVerdict :=
  imap (fun i p => if audit_cancelled h i
                   then unavailable_audit "partitioned grounding canceled" 0 else audit p) parts.

(** What an earlier audit of the same input established, by part. *)
Definition completed_parts (prior : option GroundingVerdict) : gmap string GroundingVerdict :=
  match prior with
  | None => ∅
  | Some p =>
      fold_left (fun m part =>
        let v := strictGraphGrounding IsPrint (scoreGroundingVerdict IsPrint (of_claims (pa_Claims part))) in
        if gv_Unavailable v then m else <[TargetHash part := v]> m) (AuditedParts p) ∅
  end.
Definition set_parts (l : list GroundingPartAudit) (v : GroundingVerdict) : GroundingVerdict :=
  MkGrounding l (gv_RetryDelay v) (gv_Met v) (gv_Unavailable v) (gv_Reason v) (Claims v) (TotalCount v)
    (GroundedCount v) (PartialCount v) (UngroundedCount v) (gv_RecheckURLs v).
Definition audited (parts : list string) (results : list GroundingVerdict) : list GroundingPartAudit :=
  omap (fun p : string * GroundingVerdict =>
          if gv_Unavailable (snd p) then None
          else Some (MkPartAudit (target_hash (fst p)) (Claims (snd p)))) (zip parts results).
Definition combine_results (parts : list string) (results : list GroundingVerdict) : GroundingVerdict :=
  let combined := combineGroundingParts IsPrint results in
  set_parts (AuditedParts combined ++ audited parts results) combined.

Definition evaluateGroundingParts (task : AgentTask) (docs : list ToolOutput) (parts : list string)
    (prior : option GroundingVerdict) : GroundingVerdict :=
  let known := completed_parts prior in
  combine_results parts (runGroundingParts (fun target =>
    match known !! target_hash target with
    | Some v => v
    | None => evaluateGroundingPart task docs target
    end) parts).

Definition report_parts (report : string) : list string := str <$> partitionGroundingReport (lit report).
Definition several {A} (l : list A) : bool := Nat.ltb 1 (length l).

Definition evaluateGrounding (task : AgentTask) (report : string) (docs : list ToolOutput)
    : GroundingVerdict :=
  if is_graph task && negb (bool_decide (docs = [])) && several (report_parts report)
  then evaluateGroundingParts task docs (report_parts report) None
  else evaluateGroundingPart task docs "".

(** ** The review *)

Definition reusable (hash : string) (prior : option AcceptanceVerdict) : option GroundingVerdict :=
  match prior with
  | Some p => if String.eqb (GroundingInputHash p) hash then av_Grounding p else None
  | None => None
  end.

(** The reviewer's answer, the audit and the hash of its input.  The two run
    side by side; a rejection or an error of the reviewer cancels the audit,
    whose answers are then the host's. *)
Definition completeGraphReviews (task : AgentTask) (report : string) (docs : list ToolOutput)
    (prior : option AcceptanceVerdict)
    : res failure (option CompletionResponse) * option GroundingVerdict * string :=
  if bool_decide (docs = []) then (reviewer h, None, ""%string)
  else
    let hash := input_hash task report docs in
    let fresh := (reviewer h, Some (evaluateGrounding task report docs), hash) in
    match reusable hash prior with
    | Some g =>
        if negb (gv_Unavailable g) then (reviewer h, Some g, hash)
        else if is_graph task && several (report_parts report)
        then (reviewer h, Some (evaluateGroundingParts task docs (report_parts report) (Some g)), hash)
        else fresh
    | None => fresh
    end.

(** The verdict on complete answers: the audit has a veto. *)
Definition join_reviews (met : bool) (reason : string) (grounding : option GroundingVerdict)
    : AcceptanceVerdict :=
  match grounding with
  | Some g =>
      if met && negb (gv_Met g)
      then MkAcceptance 0 false (String.append "grounding audit failed: " (gv_Reason g)) false grounding ""
      else MkAcceptance 0 met reason false grounding ""
  | None => MkAcceptance 0 met reason false None ""
  end.
Definition available (g : option GroundingVerdict) : option GroundingVerdict :=
  match g with Some v => if gv_Unavailable v then None else g | None => None end.
Definition unchecked (g : option GroundingVerdict) : option string :=
  match g with Some v => if gv_Unavailable v then Some (gv_Reason v) else None | None => None end.
Definition incomplete (resp : option CompletionResponse) : bool :=
  match resp with Some r => String.eqb (p_StopReason r) "max_tokens" | None => true end.

Definition judge (task : AgentTask) (answer : res failure (option CompletionResponse))
    (grounding : option GroundingVerdict) : AcceptanceVerdict :=
  match answer with
  | Err e => unavailableAcceptance "acceptance provider failed" grounding (Some e)
  | Ok resp =>
      let parsed := parseAcceptanceResponse resp in
      match (if is_graph task then parsed else None) with
      | Some (false, reason) => MkAcceptance 0 false reason false (available grounding) ""
      | _ =>
          match unchecked grounding with
          | Some reason => unavailableAcceptance reason grounding None
          | None =>
              if incomplete resp
              then unavailableAcceptance "acceptance returned an incomplete verdict" grounding None
              else match parsed with
              | None => unavailableAcceptance "acceptance returned an invalid verdict" grounding None
              | Some (met, reason) => join_reviews met reason grounding
              end
          end
      end
  end.

(** ** The gates in their order *)

Context {URL : Type} (net : url_pkg URL) (order : gmap string Z -> list (string * Z)).

Definition wants_review (task : AgentTask) : bool :=
  match AcceptanceCriteria task with Some c => negb (blank c) | None => false end.
Definition criteria (task : AgentTask) : string := default ""%string (AcceptanceCriteria task).

(** What is needed before anything is read. *)
Definition setup_error (task : AgentTask) : option string :=
  if negb (has_llm h) then Some "acceptance provider is not configured"%string
  else if is_graph task then
    match graph_prompt h with
    | None => Some "graph acceptance prompt store is not configured"%string
    | Some (Err _) => Some "graph acceptance prompt is unavailable"%string
    | Some (Ok p) => if blank p then Some "graph acceptance prompt is unavailable"%string else None
    end
  else None.

(** The citation gates; an unreadable record is not an empty one. *)
Definition citations (task : AgentTask) (result : string) (record : option (res string fetch_record))
    : option AcceptanceVerdict :=
  let required := extractURLRequirement (criteria task) in
  let cited := extractURLs net result in
  if Z.ltb 0 required || Z.ltb 0 (set_size cited) then
    match loadFetchedURLs net record with
    | Err _ => Some (unavailableAcceptance "source evidence could not be read" None None)
    | Ok fetched => rejected <$> citation_gates order task required cited fetched
    end
  else None.

(** The audit of a task of the first executor comes before its review. *)
Definition early_audit (task : AgentTask) (result : string) (docs : list ToolOutput) : option GroundingVerdict :=
  if negb (bool_decide (docs = [])) && negb (is_graph task) then Some (evaluateGrounding task result docs)
  else None.

Definition reviewed (task : AgentTask) (result : string) (docs : list ToolOutput)
    (prior : option AcceptanceVerdict) : AcceptanceVerdict * string :=
  let early := early_audit task result docs in
  match unchecked early with
  | Some reason => (unavailableAcceptance reason early None, ""%string)
  | None =>
      if is_graph task && negb (graph_input h)
      then (unavailableAcceptance "graph acceptance evidence is invalid" early None, ""%string)
      else if negb (has_review_model h)
      then (unavailableAcceptance "acceptance model is not configured" early None, ""%string)
      else if is_graph task then
        let '(answer, grounding, hash) := completeGraphReviews task result docs prior in
        (judge task answer grounding, hash)
      else (judge task (reviewer h) early, ""%string)
  end.

Definition set_input_hash (hash : string) (v : AcceptanceVerdict) : AcceptanceVerdict :=
  MkAcceptance (av_RetryDelay v) (av_Met v) (av_Reason v) (av_Unavailable v) (av_Grounding v) hash.

Definition evaluateAcceptanceWithPrior (task : AgentTask) (result : string) (trace : bytes)
    (record : option (res string fetch_record)) (docs : res string (list ToolOutput))
    (prior : option AcceptanceVerdict) : AcceptanceVerdict :=
  if negb (wants_review task) then MkAcceptance 0 true "" false None ""
  else match setup_error task with
  | Some reason => unavailableAcceptance reason None None
  | None =>
      match recheck_gate net task trace with
      | Some reason => rejected reason
      | None =>
          match citations task result record with
          | Some v => v
          | None =>
              match docs with
              | Err _ => unavailableAcceptance "source documents could not be read" None None
              | Ok docs => let '(v, hash) := reviewed task result docs prior in set_input_hash hash v
              end
          end
      end
  end.
Definition evaluateAcceptance task result trace record docs :=
  evaluateAcceptanceWithPrior task result trace record docs None.

(** * Properties *)

(** ** Every gate *)

(** The audit a verdict rests on, if documents were opened. *)
Definition audit_of (task : AgentTask) (result : string) (docs : list ToolOutput)
    (prior : option AcceptanceVerdict) : option GroundingVerdict :=
  if is_graph task then snd (fst (completeGraphReviews task result docs prior))
  else early_audit task result docs.

(** What an accepted result of a task with criteria went through. *)
Record passed (task : AgentTask) (result : string) (trace : bytes) (record : option (res string fetch_record))
    (docs : res string (list ToolOutput)) (prior : option AcceptanceVerdict) : Prop := {
  passed_setup : has_llm h = true /\ has_review_model h = true;
  passed_graph : is_graph task = true ->
    graph_input h = true /\ exists p, graph_prompt h = Some (Ok p) /\ blank p = false;
  passed_rechecks : rechecks_done net task trace;
  passed_citations : 0 < extractURLRequirement (criteria task) \/ extractURLs net result <> ∅ ->
    exists fetched, loadFetchedURLs net record = Ok fetched
      /\ backed task (extractURLRequirement (criteria task)) (extractURLs net result) fetched;
  passed_audit : exists opened, docs = Ok opened
    /\ forall g, audit_of task result opened prior = Some g -> gv_Met g = true /\ gv_Unavailable g = false;
  passed_review : exists r reason, reviewer h = Ok (Some r) /\ p_StopReason r <> "max_tokens"%string
    /\ parseAcceptanceResponse (Some r) = Some (true, reason);
}.

Lemma setup_error_None task : setup_error task = None <->
  has_llm h = true /\ (is_graph task = true -> exists p, graph_prompt h = Some (Ok p) /\ blank p = false).
Proof.
  unfold setup_error. destruct (has_llm h); simpl; [|by split; [|intros [? _]]].
  destruct (is_graph task); [|by split; [split|]].
  destruct (graph_prompt h) as [[p|e]|]; [|split; [done|intros [_ H]; by destruct (H eq_refl) as (? & ? & _)]..].
  destruct (blank p) eqn:E; (split; [done || (intros _; split; [done|by exists p])|]); [|done].
  intros [_ H]. destruct (H eq_refl) as (p' & Hp & Hb). congruence.
Qed.

Lemma completed_answer task result docs prior :
  fst (fst (completeGraphReviews task result docs prior)) = reviewer h.
Proof. unfold completeGraphReviews. repeat case_match; done. Qed.

Lemma all_some {A} (x : A) (P : A -> Prop) : (forall y, Some x = Some y -> P y) <-> P x.
Proof. split; [intros H; by apply H|by intros H y [= <-]]. Qed.
Lemma all_none {A} (P : A -> Prop) : (forall y, None = Some y -> P y) <-> True.
Proof. by split. Qed.

(** The audit allows a passing verdict. *)
Definition audit_ok (grounding : option GroundingVerdict) : bool :=
  match grounding with Some g => gv_Met g && negb (gv_Unavailable g) | None => true end.
Lemma audit_ok_spec grounding :
  audit_ok grounding = true <-> forall g, grounding = Some g -> gv_Met g = true /\ gv_Unavailable g = false.
Proof.
  destruct grounding as [g|]; [rewrite all_some|by rewrite all_none]. simpl.
  by rewrite andb_true_iff, negb_true_iff.
Qed.

Definition answer_ok (resp : option CompletionResponse) : bool :=
  negb (incomplete resp) && match parseAcceptanceResponse resp with Some (met, _) => met | None => false end.
Lemma answer_ok_spec resp : answer_ok resp = true <->
  exists r reason, resp = Some r /\ p_StopReason r <> "max_tokens"%string
    /\ parseAcceptanceResponse (Some r) = Some (true, reason).
Proof.
  unfold answer_ok, incomplete. destruct resp as [r|]; [|by split; [|intros (? & ? & ? & _)]].
  destruct (String.eqb_spec (p_StopReason r) "max_tokens") as [E|E]; cbn [negb andb].
  - split; [done|]. intros (r' & reason & [= <-] & H & _). done.
  - split.
    + destruct (parseAcceptanceResponse (Some r)) as [[met reason]|] eqn:Ep; [|done]. intros ->. by exists r, reason.
    + by intros (r' & reason & [= <-] & _ & ->).
Qed.

Lemma judge_met task answer grounding :
  av_Met (judge task answer grounding)
  = match answer with Ok resp => answer_ok resp && audit_ok grounding | Err _ => false end.
Proof.
  unfold judge, answer_ok. destruct answer as [resp|e]; [|done].
  destruct (parseAcceptanceResponse resp) as [[met reason]|] eqn:Ep.
  - assert (incomplete resp = false) as Hi.
    { destruct resp as [r|]; [|done]. unfold parseAcceptanceResponse in Ep. simpl. by destruct (String.eqb _ _). }
    rewrite Hi. destruct met, (is_graph task), grounding as [g|]; simpl; try done;
      destruct (gv_Unavailable g); simpl; try done; by destruct (gv_Met g).
  - rewrite andb_false_r. destruct (is_graph task), (unchecked grounding), (incomplete resp); done.
Qed.

Lemma citations_open task result record : (forall m, order m ≡ₚ map_to_list m) ->
  citations task result record = None <->
  (0 < extractURLRequirement (criteria task) \/ extractURLs net result <> ∅ ->
    exists fetched, loadFetchedURLs net record = Ok fetched
      /\ backed task (extractURLRequirement (criteria task)) (extractURLs net result) fetched).
Proof.
  intros Horder. unfold citations. pose proof (extractURLRequirement_nonneg (criteria task)) as Hreq.
  pose proof (set_size_pos (extractURLs net result)) as Hpos.
  destruct (_ || _) eqn:E.
  - rewrite orb_true_iff, !Z.ltb_lt, Hpos in E. destruct (loadFetchedURLs net record) as [fetched|e].
    + pose proof (citation_gates_open order task _ (extractURLs net result) fetched Horder Hreq) as Hopen.
      destruct (citation_gates _ _ _ _ _) as [reason|] eqn:Eg; simpl.
      * split; [done|]. intros H. destruct (H E) as (f & [= <-] & Hb). by apply Hopen in Hb.
      * split; [|done]. intros _ _. exists fetched. split; [done|]. by apply Hopen.
    + split; [done|]. intros H. by destruct (H E) as (f & ? & _).
  - rewrite orb_false_iff, !Z.ltb_ge in E. split; [|done]. intros _ [H|H]; [lia|]. apply Hpos in H. lia.
Qed.
Lemma citations_closed task result record v : citations task result record = Some v -> av_Met v = false.
Proof.
  unfold citations. case_match; [|done]. destruct (loadFetchedURLs net record); [|by intros [= <-]].
  destruct (citation_gates _ _ _ _ _); [by intros [= <-]|done].
Qed.

Lemma reviewed_met task result docs prior : has_llm h = true ->
  av_Met (fst (reviewed task result docs prior)) = true <->
  has_review_model h = true /\ (is_graph task = true -> graph_input h = true)
  /\ audit_ok (audit_of task result docs prior) = true
  /\ match reviewer h with Ok resp => answer_ok resp = true | Err _ => False end.
Proof.
  intros _. unfold reviewed, audit_of, early_audit. destruct (is_graph task) eqn:Eg; cbn [andb negb].
  - rewrite andb_false_r. cbn [unchecked]. destruct (graph_input h); [|split; [done|naive_solver]].
    destruct (has_review_model h); [|split; [done|naive_solver]]. cbn [negb].
    pose proof (completed_answer task result docs prior) as Ha.
    destruct (completeGraphReviews task result docs prior) as [[answer grounding] hash]. cbn [fst snd] in *. subst answer.
    rewrite judge_met. destruct (reviewer h); [|split; [done|naive_solver]]. rewrite andb_true_iff. naive_solver.
  - rewrite andb_true_r. set (g := if negb _ then Some (evaluateGrounding task result docs) else None).
    destruct (unchecked g) as [reason|] eqn:Eu.
    { split; [done|]. intros (_ & _ & Ha & _). destruct g as [v|]; [|done]. simpl in Eu, Ha.
      destruct (gv_Unavailable v); [by rewrite andb_false_r in Ha|done]. }
    destruct (has_review_model h); [|split; [done|naive_solver]]. cbn [negb fst].
    rewrite judge_met. destruct (reviewer h); [|split; [done|naive_solver]]. rewrite andb_true_iff. naive_solver.
Qed.

Lemma accepted_met task result trace record docs prior :
  (forall m, order m ≡ₚ map_to_list m) -> wants_review task = true ->
  av_Met (evaluateAcceptanceWithPrior task result trace record docs prior) = true
  <-> passed task result trace record docs prior.
Proof.
  intros Horder Hw. unfold evaluateAcceptanceWithPrior. rewrite Hw. cbn [negb].
  destruct (setup_error task) as [e|] eqn:Es.
  { split; [done|]. intros [H1 H2 _ _ _ _]. enough (setup_error task = None) by congruence.
    apply setup_error_None. split; [apply H1|]. intros Hg. by apply H2. }
  apply setup_error_None in Es as [Hllm Hprompt].
  destruct (recheck_gate net task trace) as [e|] eqn:Er.
  { split; [done|]. intros [_ _ H _ _ _]. apply recheck_gate_open in H. congruence. }
  apply recheck_gate_open in Er.
  destruct (citations task result record) as [v|] eqn:Ec.
  { pose proof (citations_closed _ _ _ _ Ec) as ->. split; [done|]. intros [_ _ _ H _ _].
    apply (citations_open task result record Horder) in H. congruence. }
  pose proof (proj1 (citations_open task result record Horder) Ec) as Hcit.
  destruct docs as [docs|e]; [|split; [done|intros [_ _ _ _ H _]; by destruct H as (? & ? & _)]].
  pose proof (reviewed_met task result docs prior Hllm) as Hrev.
  destruct (reviewed task result docs prior) as [v hash]. cbn [fst set_input_hash av_Met] in *. rewrite Hrev. split.
  - intros (Hm & Hg & Ha & Hr). pose proof (proj1 (audit_ok_spec _) Ha) as Hok. split; try done.
    + intros Htask. split; [by apply Hg|by apply Hprompt].
    + exists docs. split; [done|exact Hok].
    + destruct (reviewer h) as [resp|]; [|done]. apply answer_ok_spec in Hr as (r & reason & -> & ? & ?). by exists r, reason.
  - intros [[_ Hm] Hg _ _ (opened & [= <-] & Ha) (r & reason & Hr & Hs & Hp)]. apply audit_ok_spec in Ha.
    split_and!; [done|by intros Htask; apply Hg|done|]. rewrite Hr. apply answer_ok_spec. by exists r, reason.
Qed.

(** C13: A result of a task with acceptance criteria is accepted exactly when
    it passed every gate: the pages the last audit sent back were read again,
    its citations are backed by pages the task opened, the audit of its sources
    passed where documents were opened, and the reviewer gave a complete
    positive verdict.  Anything that could not be checked is not accepted, and
    a task without criteria is accepted as it is. *)
Theorem accepted_passed_every_gate task result trace record docs prior :
  (forall m, order m ≡ₚ map_to_list m) ->
  av_Met (evaluateAcceptanceWithPrior task result trace record docs prior) = true
  <-> (wants_review task = false \/ passed task result trace record docs prior).
Proof.
  intros Horder. destruct (wants_review task) eqn:Hw.
  - rewrite accepted_met by done. split; [by right|]. by intros [?|?].
  - unfold evaluateAcceptanceWithPrior. rewrite Hw. by split; [left|].
Qed.
End acceptance.

(** ** An interrupted audit *)

Definition with_auditor (f : string -> res failure (option CompletionResponse)) (c : nat -> bool)
    (h : reviewers) : reviewers :=
  MkReviewers (has_llm h) (graph_prompt h) (has_audit_model h) (has_review_model h) (graph_input h) f c
    (reviewer h) (json_error h).

Section resume.
Context (IsPrint : Z -> bool) (h : reviewers) (target_hash : string -> string).
Context (task : AgentTask) (docs : list ToolOutput) (parts : list string).
Context (Htask : is_graph task = true) (Hdocs : docs <> []).
Context (Hhash : forall p q, p ∈ parts -> q ∈ parts -> target_hash p = target_hash q -> p = q).

#[local] Abbreviation one := (evaluateGroundingPart IsPrint h task docs).
#[local] Abbreviation all prior := (evaluateGroundingParts IsPrint h target_hash task docs parts prior).
#[local] Abbreviation rescore l := (strictGraphGrounding IsPrint (scoreGroundingVerdict IsPrint (of_claims l))).

(** An available verdict on a part is determined by its claims. *)
Lemma score_claims v : Claims (scoreGroundingVerdict IsPrint v) = Claims v.
Proof. unfold scoreGroundingVerdict. by case_match. Qed.
Lemma strict_claims v : Claims (strictGraphGrounding IsPrint v) = Claims v.
Proof. unfold strictGraphGrounding. repeat case_match; done. Qed.
Lemma part_rescored p : gv_Unavailable (one p) = false -> rescore (Claims (one p)) = one p.
Proof.
  unfold evaluateGroundingPart. destruct docs as [|d ds]; [done|].
  destruct (negb (has_llm h)); [done|]. destruct (negb (has_audit_model h)); [done|].
  destruct (auditor h p) as [[r|]|e]; [|done..]. unfold audit_answer. destruct (String.eqb _ _); [done|].
  destruct (parseGroundingResponse _) as [v|b] eqn:Ep; [|done]. intros _.
  assert (v = of_claims (Claims v)) as Hv.
  { revert Ep. unfold parseGroundingResponse. repeat case_match; by intros [= <-]. }
  unfold part_score. rewrite Htask, strict_claims, score_claims. by rewrite <- Hv.
Qed.

(** The parts the first audit settled. *)
Definition checked (q : string * GroundingVerdict) : bool := negb (gv_Unavailable (snd q)).
Definition settled_part (l : list (string * GroundingVerdict)) (p : string) : bool :=
  existsb (fun q => String.eqb (fst q) p && checked q) l.

Lemma combined_no_parts l : AuditedParts (combineGroundingParts IsPrint l) = [].
Proof.
  unfold combineGroundingParts.
  assert (forall v, AuditedParts v = [] -> AuditedParts (fold_left combine_part l v) = []) as Hfold.
  { induction l as [|r l IH]; intros v Hv; simpl; [done|]. apply IH. unfold combine_part. by case_match. }
  specialize (Hfold no_verdict eq_refl). case_match; [done|].
  assert (forall v, AuditedParts (strictGraphGrounding IsPrint v) = AuditedParts v) as Hs
    by (intros v; unfold strictGraphGrounding; repeat case_match; done).
  rewrite Hs. unfold scoreGroundingVerdict. by case_match.
Qed.

Definition audit_entry (q : string * GroundingVerdict) : option GroundingPartAudit :=
  if gv_Unavailable (snd q) then None else Some (MkPartAudit (target_hash (fst q)) (Claims (snd q))).
Definition add_completed (m : gmap string GroundingVerdict) (part : GroundingPartAudit)
    : gmap string GroundingVerdict :=
  let v := rescore (pa_Claims part) in if gv_Unavailable v then m else <[TargetHash part := v]> m.

Lemma completed_lookup (l : list (string * GroundingVerdict)) m p :
  Forall (fun q => fst q ∈ parts /\ (checked q = true -> snd q = one (fst q))) l -> p ∈ parts ->
  fold_left add_completed (omap audit_entry l) m !! target_hash p
  = if settled_part l p then Some (one p) else m !! target_hash p.
Proof.
  intros Hl Hp. revert m. induction Hl as [|[q v] l [Hq Hv] _ IH]; intros m; [done|].
  cbn [fst snd omap list_omap settled_part existsb] in *. unfold audit_entry at 1. unfold checked in Hv.
  unfold checked at 1. cbn [fst snd] in *. fold (settled_part l p). destruct (gv_Unavailable v) eqn:Ev; cbn [negb].
  - rewrite andb_false_r. apply IH.
  - rewrite andb_true_r. specialize (Hv eq_refl). subst v. cbn [fold_left]. rewrite IH.
    unfold add_completed at 1. cbn [pa_Claims TargetHash]. rewrite part_rescored, Ev by done.
    destruct (String.eqb_spec q p) as [->|Hne]; cbn [orb].
    + destruct (settled_part l p); [done|]. by rewrite lookup_insert_eq.
    + destruct (settled_part l p); [done|]. rewrite lookup_insert_ne; [done|]. intros E. by apply Hne, Hhash.
Qed.

Lemma part_ext f c f' c' p : f p = f' p ->
  evaluateGroundingPart IsPrint (with_auditor f c h) task docs p
  = evaluateGroundingPart IsPrint (with_auditor f' c' h) task docs p.
Proof. intros E. unfold evaluateGroundingPart, with_auditor. simpl. by rewrite E. Qed.
Lemma part_own f c p : f p = auditor h p ->
  evaluateGroundingPart IsPrint (with_auditor f c h) task docs p = one p.
Proof. intros E. unfold evaluateGroundingPart, with_auditor. simpl. by rewrite E. Qed.

Lemma first_results : Forall (fun q => fst q ∈ parts /\ (checked q = true -> snd q = one (fst q)))
  (zip parts (runGroundingParts h one parts)).
Proof.
  apply Forall_lookup_2. intros i [p v] H. apply lookup_zip_with_Some in H as (p' & v' & [= -> ->] & Hp & Hv).
  unfold runGroundingParts in Hv. rewrite list_lookup_imap, Hp in Hv. cbn in Hv. cbn [fst snd].
  split; [by eapply list_elem_of_lookup_2|]. unfold checked. cbn [snd].
  destruct (audit_cancelled h i); by injection Hv as <-.
Qed.

Lemma first_audit : all None = combine_results IsPrint target_hash parts (runGroundingParts h one parts).
Proof.
  unfold evaluateGroundingParts, runGroundingParts. f_equal.
Qed.

Lemma completed_first p : p ∈ parts ->
  completed_parts IsPrint (Some (all None)) !! target_hash p
  = if settled_part (zip parts (runGroundingParts h one parts)) p then Some (one p) else None.
Proof.
  intros Hp. unfold completed_parts, evaluateGroundingParts, combine_results.
  cbn [AuditedParts set_parts]. rewrite combined_no_parts. cbn [app].
  pose proof (completed_lookup _ ∅ p first_results Hp) as H. rewrite lookup_empty in H. exact H.
Qed.

(** C38: Resuming an interrupted audit of the same report asks the auditor about
    no part the first attempt settled, and ends with the verdict one audit would
    give in which those parts had the answers they got the first time. *)
Theorem resumed_audit_asks_the_rest f c :
  let settled := settled_part (zip parts (runGroundingParts h one parts)) in
  evaluateGroundingParts IsPrint (with_auditor f c h) target_hash task docs parts (Some (all None))
  = evaluateGroundingParts IsPrint
      (with_auditor (fun p => if settled p then auditor h p else f p) c h) target_hash task docs parts None.
Proof.
  intros settled. unfold evaluateGroundingParts at 1 3. unfold runGroundingParts.
  f_equal. apply imap_ext. intros i p Hi. cbn [audit_cancelled with_auditor]. destruct (c i); [done|].
  cbn [completed_parts]. rewrite lookup_empty. change (completed_parts _ _) with (completed_parts IsPrint (Some (all None))).
  rewrite completed_first by by eapply list_elem_of_lookup_2.
  fold settled. destruct (settled p) eqn:E.
  - symmetry. apply part_own. by rewrite E.
  - apply part_ext. by rewrite E.
Qed.
End resume.

(** ** The pool of auditors *)

(** Up to three workers take the parts in order and store each verdict in its
    place, in whatever order they finish. *)
Record pool := MkPool {
  pool_next : nat;
  pool_taken : list nat;
  pool_results : list (option GroundingVerdict);
}.
Section pool.
Context (h : reviewers) (audit : string -> GroundingVerdict) (parts : list string).

Definition pool_start : pool := MkPool 0 [] (replicate (length parts) None).
Definition pool_workers : nat := Nat.min 3 (length parts).
Definition part_verdict (i : nat) (p : string) : GroundingVerdict :=
  if audit_cancelled h i then unavailable_audit "partitioned grounding canceled" 0 else audit p.

Inductive pool_step : pool -> pool -> Prop :=
| pool_take s : (pool_next s < length parts)%nat -> (length (pool_taken s) < pool_workers)%nat ->
    pool_step s (MkPool (S (pool_next s)) (pool_next s :: pool_taken s) (pool_results s))
| pool_finish s l1 i l2 p : pool_taken s = l1 ++ i :: l2 -> parts !! i = Some p ->
    pool_step s (MkPool (pool_next s) (l1 ++ l2) (<[i := Some (part_verdict i p)]> (pool_results s))).

(** A place holds its verdict, or its part is taken or still to come. *)
Definition pool_inv (s : pool) : Prop :=
  length (pool_results s) = length parts /\ (pool_next s <= length parts)%nat
  /\ (length (pool_taken s) <= pool_workers)%nat
  /\ Forall (fun i => i < pool_next s)%nat (pool_taken s)
  /\ forall i p, parts !! i = Some p ->
       (pool_results s !! i = Some (Some (part_verdict i p)) \/ i ∈ pool_taken s \/ (pool_next s <= i)%nat).

Lemma pool_step_inv s s' : pool_inv s -> pool_step s s' -> pool_inv s'.
Proof.
  intros (Hl & Hn & Hw & Ht & Hr). destruct 1 as [s H1 H2|s l1 i l2 p Htk Hp]; unfold pool_inv; cbn [pool_next pool_taken pool_results].
  - split_and!; [done|lia|simpl; lia| |].
    + constructor; [lia|]. eapply Forall_impl; [exact Ht|]. simpl. lia.
    + intros i p Hi. destruct (Hr i p Hi) as [?|[?|?]]; [by left|right; left; set_solver|].
      destruct (decide (i = pool_next s)) as [->|]; [right; left; set_solver|right; right; lia].
  - rewrite Htk in *. rewrite length_app in Hw. simpl in Hw. split_and!; [by rewrite length_insert|done|rewrite length_app; lia| |].
    + rewrite !Forall_app, Forall_cons in *. naive_solver.
    + intros j q Hj. destruct (decide (i = j)) as [->|Hne].
      { left. rewrite list_lookup_insert_eq; [by simplify_eq|]. apply lookup_lt_Some in Hp. lia. }
      rewrite list_lookup_insert_ne by done. destruct (Hr j q Hj) as [?|[?|?]]; [by left|right; left; set_solver|by right; right].
Qed.

Lemma pool_reachable_inv s : rtc pool_step pool_start s -> pool_inv s.
Proof.
  intros Hs. assert (pool_inv pool_start) as H0.
  { unfold pool_inv, pool_start. cbn. split_and!; [by rewrite length_replicate|lia|lia|constructor|]. intros i p _. right; right; lia. }
  revert H0. induction Hs as [|s1 s2 s3 H1 _ IH]; [done|]. intros H0. by eapply IH, pool_step_inv.
Qed.

(** The steps left: none runs for ever. *)
Definition pool_left (s : pool) : nat := (2 * (length parts - pool_next s) + length (pool_taken s))%nat.
Lemma pool_step_left s s' : pool_inv s -> pool_step s s' -> (pool_left s' < pool_left s)%nat.
Proof.
  intros (Hl & Hn & Hw & Ht & Hr). destruct 1 as [s H1 H2|s l1 i l2 p Htk Hp]; unfold pool_left; cbn [pool_next pool_taken].
  - simpl. lia.
  - rewrite Htk, !length_app. simpl. lia.
Qed.
(** However the workers of a partitioned audit interleave, at most three
    parts are in work, every step brings the pool nearer to its end, and at the
    end the verdicts are those of the parts in their order. *)
Theorem pool_computes_parts s :
  rtc pool_step pool_start s ->
  (length (pool_taken s) <= 3)%nat /\ (forall s', pool_step s s' -> (pool_left s' < pool_left s)%nat)
  /\ ((exists s', pool_step s s') \/ pool_results s = Some <$> runGroundingParts h audit parts).
Proof.
  intros Hinv%pool_reachable_inv. pose proof Hinv as (Hl & Hn & Hw & Ht & Hr). unfold pool_workers in *.
  split; [lia|]. split; [intros s'; by apply pool_step_left|].
  destruct (pool_taken s) as [|i l] eqn:E.
  - destruct (decide (pool_next s < length parts)%nat) as [Hlt|Hge].
    + left. eexists. apply pool_take; [done|]. rewrite E. unfold pool_workers. cbn [length]. lia.
    + right. apply list_eq. intros i. rewrite list_lookup_fmap. unfold runGroundingParts. rewrite list_lookup_imap.
      destruct (parts !! i) as [p|] eqn:Ep.
      * destruct (Hr i p Ep) as [->|[Hin|Hle]]; [done|by apply elem_of_nil in Hin|]. apply lookup_lt_Some in Ep. lia.
      * simpl. apply lookup_ge_None_2. apply lookup_ge_None_1 in Ep. lia.
  - left. apply Forall_cons in Ht as [Hi _].
    destruct (lookup_lt_is_Some_2 parts i) as [p Hp]; [lia|]. eexists. by apply (pool_finish s [] i l p).
Qed.

End pool.

(** ** A review to evaluate *)

Definition after_scheme (s : string) : bytes := default [] (scheme (lit s)).
Definition plain_url : url_pkg string :=
  MkUrlPkg string Some
    (fun s => str (fst (span (fun c => negb (Ascii.eqb c "/"%char)) (after_scheme s))))
    (fun s => str (snd (span (fun c => negb (Ascii.eqb c "/"%char)) (after_scheme s))))
    (fun _ => ""%string) (fun s _ => s) (fun s => s).
Definition answer_of (j : json) : option CompletionResponse :=
  Some (MkAnswer [text_content (Marshal j)] "end_turn" 0 0).
Definition demo_claim (status : string) : json := JObj [("claims"%string, JArr [JObj
  [("claim", JStr "It weighs 3 kg"); ("claim_type", JStr "numerical"); ("status", JStr status)]%string])].
Definition demo_reviewers (status : string) : reviewers :=
  MkReviewers true (Some (Ok "Review the report."%string)) true true true
    (fun _ => Ok (answer_of (demo_claim status))) (fun _ => false)
    (Ok (answer_of (JObj [("met"%string, JBool true)]))) (fun _ => ""%string).
Definition demo_doc : ToolOutput := MkToolOutput "browser_fetch" [] "It weighs 3 kg." "html" JNull 1.
Definition demo_report : string := "It weighs 3 kg (https://a.org/x, https://b.org/y).".
Definition demo_record : fetch_record :=
  MkFetchRecord [Some "https://a.org/x"; None]%string [(None, Some "https://b.org/y")]%string.
Definition demo_accept (status : string) : AcceptanceVerdict :=
  evaluateAcceptanceWithPrior (fun _ => true) (demo_reviewers status) (fun s => s) (fun _ r _ => r)
    plain_url map_to_list (set_AcceptanceCriteria (Some "cites 2 sources"%string) sample_task)
    demo_report [] (Some (Ok demo_record)) (Ok [demo_doc]) None.

Definition demo_reviewed_task : AgentTask := set_AcceptanceCriteria (Some "cites 2 sources"%string) sample_task.
Lemma accepted_passed_every_gate_witness :
  av_Met (demo_accept "grounded") = true /\ av_Met (demo_accept "partial") = false
  /\ passed (fun _ => true) (demo_reviewers "grounded") (fun s => s) (fun _ r _ => r) plain_url
       demo_reviewed_task demo_report [] (Some (Ok demo_record)) (Ok [demo_doc]) None.
Proof.
  assert (av_Met (demo_accept "grounded") = true) as Hmet by by vm_compute.
  split; [exact Hmet|]. split; [by vm_compute|].
  destruct (proj1 (accepted_passed_every_gate (fun _ => true) (demo_reviewers "grounded") (fun s => s)
    (fun _ r _ => r) plain_url map_to_list demo_reviewed_task demo_report [] (Some (Ok demo_record))
    (Ok [demo_doc]) None (fun m => reflexivity _)) Hmet) as [Hno|Hpassed]; [|exact Hpassed].
  by vm_compute in Hno.
Defined.

(** The auditor fails on the second part; resumed, it is asked about that one. *)
Definition failing_auditor (p : string) : res failure (option CompletionResponse) :=
  if String.eqb p "B" then Err (plain_failure "timeout") else Ok (answer_of (demo_claim "grounded")).
Definition flaky_reviewers : reviewers := with_auditor failing_auditor (fun _ => false) (demo_reviewers "grounded").
Definition demo_audit (h : reviewers) := evaluateGroundingParts (fun _ => true) h (fun s => s)
  demo_reviewed_task [demo_doc] ["A"; "B"]%string.
Lemma resumed_audit_asks_the_rest_witness :
  gv_Unavailable (demo_audit flaky_reviewers None) = true
  /\ exists f, f "A"%string = failing_auditor "A" /\ f "B"%string = Ok (answer_of (demo_claim "partial"))
    /\ demo_audit (with_auditor (fun _ => Ok (answer_of (demo_claim "partial"))) (fun _ => false) flaky_reviewers)
         (Some (demo_audit flaky_reviewers None))
       = demo_audit (with_auditor f (fun _ => false) flaky_reviewers) None.
Proof.
  split; [by vm_compute|]. eexists. split; [|split; [|
    apply (resumed_audit_asks_the_rest (fun _ => true) flaky_reviewers (fun s => s) demo_reviewed_task [demo_doc]
      ["A"; "B"]%string (eq_refl true) ltac:(done) (fun p q _ _ E => E)
      (fun _ => Ok (answer_of (demo_claim "partial"))) (fun _ => false))]]; by vm_compute.
Defined.

Lemma pool_computes_parts_witness :
  exists s, rtc (pool_step (demo_reviewers "grounded") (fun _ => no_verdict) ["A"; "B"]%string) 
    (pool_start ["A"; "B"]%string) s
  /\ pool_results s = [None; Some no_verdict] /\ (length (pool_taken s) <= 3)%nat.
Proof.
  eexists. split.
  - eapply rtc_l; [apply pool_take; vm_compute; lia|]. eapply rtc_l; [apply pool_take; vm_compute; lia|].
    apply rtc_once. by apply (pool_finish _ _ _ _ [] 1%nat [0%nat] "B").
  - split; [reflexivity|].
    apply (pool_computes_parts (demo_reviewers "grounded") (fun _ => no_verdict) ["A"; "B"]%string).
    eapply rtc_l; [apply pool_take; vm_compute; lia|]. eapply rtc_l; [apply pool_take; vm_compute; lia|].
    apply rtc_once. by apply (pool_finish _ _ _ _ [] 1%nat [0%nat] "B").
Defined.
