(* ===== verification/GraphAccept.v ===== *)
(** * GraphAccept: what a published graph report went through

    The run of a graph task (GraphRun) with the acceptance gates (Acceptance)
    as its review: a report it publishes as completed passed every gate, on the
    fetch record, the documents, the audits and the reviewer's answer of the
    moment it was reviewed. *)

From Stdlib Require Import Ascii String.
From stdpp Require Import pretty.
From S2P Require Import Prelude GoStrings Json GoJson Task GoTime TaskPlan Store StepStore StepInv Lifecycle GraphExec.
From S2P Require Import Finalize TaskRows TaskProgram TaskConfig Registry TaskTools World Notify Execute.
From S2P Require Import ExecuteInv TaskReport TaskRetry Grounding FinalState GraphRun GraphRunInv GraphReviewInv.
From S2P Require Import Citations Acceptance.

Local Open Scope Z_scope.

(** ** Reviews in the trace *)

Definition no_review (e : event) : bool := negb (is_review e).

Section reviews.
Context {H : Type} (g : graph_host H) (h : host).

(** A passed review in the trace is an answer of the host about that text. *)
Definition vouched (id : uuid) (task : AgentTask) (e : event) : Prop :=
  match e with
  | EvReview i body true => i = id -> exists n traces old,
      av_Met (g_review g n task body traces old) = true
      /\ av_Unavailable (g_review g n task body traces old) = false
  | _ => True
  end.
Definition vouches {A} (task : AgentTask) (m : Act A) : Prop :=
  emits h m (fun _ l => Forall (vouched (ID task) task) l).

Lemma vouches_quiet {A} task (m : Act A) : only h no_review m -> vouches task m.
Proof.
  intros Hm. eapply emits_weaken; [exact Hm|]. intros a l Hl. rewrite forallb_forall in Hl.
  apply List.Forall_forall. intros e He. specialize (Hl e He). by destruct e.
Qed.
Lemma vouches_ret {A} task (x : A) : vouches task (mret x).
Proof. apply vouches_quiet, only_ret. Qed.
Lemma vouches_bind {A B} task (m : Act A) (k : A -> Act B) :
  vouches task m -> (forall a, vouches task (k a)) -> vouches task (m ≫= k).
Proof.
  intros Hm Hk. eapply emits_bind; [exact Hm|]. intros a l1 H1. eapply emits_weaken; [apply Hk|].
  intros b l2 H2. by apply Forall_app.
Qed.

Lemma finish_no_review task outcome body reason : only h no_review (finishGraph g task outcome body reason).
Proof.
  unfold finishGraph, finalize, iteration_hook, afterArtifactFinalized, archiveTaskSession, status_hook.
  only_steps.
Qed.
Lemma save_no_review task st : only h no_review (save_final task st).
Proof. by apply save_final_quiet. Qed.
Lemma yield_no_review task next : only h no_review (yield_task g task next).
Proof. unfold yield_task. only_steps. Qed.
#[local] Hint Resolve finish_no_review save_no_review yield_no_review : blueship.
(** Walks through a stage that asks for no review. *)
Ltac reviewless :=
  repeat first
    [ solve [auto with blueship] | apply only_ret | apply only_call | apply only_ask | apply only_Now
    | apply only_emit; reflexivity | apply only_bind; [|intros ?]
    | match goal with |- only _ _ (match ?x with _ => _ end) => destruct x end ].
Lemma defer_no_review task stop st reason delay : only h no_review (deferCheck g task stop st reason delay).
Proof. unfold deferCheck. reviewless. Qed.
Lemma repair_failed_no_review task stop st err : only h no_review (repair_failed g task stop st err).
Proof. unfold repair_failed. reviewless. Qed.
#[local] Hint Resolve defer_no_review repair_failed_no_review : blueship.
Lemma repair_no_review task stop st : only h no_review (repair g task stop st).
Proof. unfold repair, enough_time. reviewless. Qed.
Lemma check_no_review task stop st body receipts : only h no_review (check_response g task stop st body receipts).
Proof. unfold check_response. reviewless. Qed.
Lemma plan_no_review task registry until : only h no_review (plan_task g task registry until).
Proof. unfold plan_task, prepare_context, plan_failed. reviewless. Qed.
Lemma partial_no_review task steps reason : only h no_review (finishGraphPartial g task steps reason).
Proof. unfold finishGraphPartial. reviewless. Qed.
#[local] Hint Resolve repair_no_review check_no_review plan_no_review partial_no_review : blueship.
#[local] Hint Resolve vouches_quiet vouches_ret : blueship.

Lemma review_vouches task steps stop st body : vouches task (review g task steps stop st body).
Proof.
  unfold review. case_match; [apply vouches_quiet; reviewless|].
  apply vouches_bind; [auto with blueship|]. intros [u|e]; [|auto with blueship].
  destruct (evidence steps) as [[receipts traces]|]; [|auto with blueship].
  apply vouches_bind; [auto with blueship|]. intros [r|st']; [auto with blueship|].
  eapply emits_bind; [apply emits_ask|]. intros v l1 [-> [n Hv]].
  eapply (emits_bind _ _ _ (fun _ l => l = [EvReview (ID task) (SafeBody st') (av_Met v && negb (av_Unavailable v))])).
  { intros s u' s' [= <- <-]. by eexists. }
  intros u' l2 ->. apply emits_ret. rewrite app_nil_r. constructor; [|done].
  cbn [vouched]. destruct (av_Met v && negb (av_Unavailable v)) eqn:E; [|done]. intros _.
  apply andb_true_iff in E as [E1 E2%negb_true_iff]. rewrite Hv in E1, E2. eauto 6.
Qed.

Lemma conclude_vouches task steps stop st candidate again :
  vouches task again -> vouches task (conclude_review g task steps stop st candidate again).
Proof.
  intros Hagain. unfold conclude_review. apply vouches_bind; [apply review_vouches|].
  intros [r|[st' v]]; [auto with blueship|]. destruct (av_Unavailable v); [apply vouches_quiet; reviewless|].
  destruct (av_Met v); cbn [negb]; (apply vouches_bind; [auto with blueship|]); intros [u|e]; [|auto with blueship|exact Hagain|auto with blueship].
  apply vouches_quiet. reviewless.
Qed.

Lemma validate_vouches fuel task steps body : vouches task (validateGraphResult g fuel task steps body).
Proof.
  induction fuel as [|fuel IH]; cbn [validateGraphResult]; [auto with blueship|].
  apply vouches_bind; [apply vouches_quiet; reviewless|]. intros [t|e]; [|auto with blueship].
  destruct (final_validation_of _) as [f|]; [|auto with blueship].
  case_match; [apply vouches_quiet; reviewless|]. unfold review_round.
  apply vouches_bind; [apply vouches_quiet; destruct (RepairPending _); reviewless|]. intros [r|[st c]]; [auto with blueship|].
  by apply conclude_vouches.
Qed.

Lemma execute_vouches fuel reviews task : vouches task (executeGraphTask g fuel reviews task).
Proof.
  induction fuel as [|fuel IH]; cbn [executeGraphTask]; [auto with blueship|].
  apply vouches_bind; [apply vouches_quiet; reviewless|]. intros base.
  apply vouches_bind; [apply vouches_quiet; reviewless|]. intros now.
  destruct (graphDeps g now task base); [|apply vouches_quiet; reviewless].
  apply vouches_bind; [apply vouches_quiet; reviewless|]. intros [steps|e]; [|auto with blueship].
  apply vouches_bind; [apply vouches_quiet; destruct steps; reviewless|]. intros [r|u]; [auto with blueship|].
  apply vouches_bind; [apply vouches_quiet; reviewless|]. intros runErr.
  apply vouches_bind; [apply vouches_quiet; reviewless|]. intros c. case_match; [auto with blueship|].
  apply vouches_bind.
  - unfold after_run. apply vouches_bind; [apply vouches_quiet; reviewless|]. intros [ss|e]; [|auto with blueship].
    case_match; [apply vouches_quiet; reviewless|].
    destruct (stuck_finalizer ss); [apply vouches_quiet; reviewless|]. case_match; [apply vouches_quiet; reviewless|].
    case_match; [|apply vouches_quiet; unfold wait_for_steps; reviewless].
    apply vouches_bind; [apply validate_vouches|]. intros r. auto with blueship.
  - intros [[r|u']|]; auto with blueship.
Qed.
End reviews.

(** ** The gates as the review *)

Section gated.
Context (IsPrint : Z -> bool) (target_hash : string -> string).
Context (input_hash : AgentTask -> string -> list ToolOutput -> string).
Context {URL : Type} (net : url_pkg URL) (order : gmap string Z -> list (string * Z)).
(** What is there when a review is made. *)
Context (rv : nat -> reviewers) (record : nat -> option (res string fetch_record)).
Context (docs : nat -> res string (list ToolOutput)).

Definition gate_review (n : nat) (task : AgentTask) (body : string) (traces : json)
    (prior : option AcceptanceVerdict) : AcceptanceVerdict :=
  evaluateAcceptanceWithPrior IsPrint (rv n) target_hash input_hash net order task body (Marshal traces)
    (record n) (docs n) prior.

(** C12: A graph task with acceptance criteria publishes as completed, or records
    as accepted, only a text that passed every acceptance gate when it was
    reviewed in this run - its citations, the audit of its sources and the
    reviewer - or whose acceptance its row already recorded ([R]). *)
Theorem published_report_passed_gates {H} (g : graph_host H) h fuel reviews task (R : string -> Prop) s r s' :
  (forall m, order m ≡ₚ map_to_list m) ->
  (forall n t body traces prior, g_review g n t body traces prior = gate_review n t body traces prior) ->
  wants_review task = true -> review_left (ID task) h ->
  recorded (ID task) (fun f => int64 (RepairAttempts f) /\ (fv_Accepted f = true -> R (SafeBody f))) s ->
  executeGraphTask g fuel reviews task h s = (r, s') ->
  exists l, trace s' = trace s ++ l
    /\ forall e body, In e l ->
         (e = EvAccept (ID task) body \/ exists ok, e = EvFinalize (ID task) "completed" body ok) ->
         (exists n traces prior, passed IsPrint (rv n) target_hash input_hash net task body (Marshal traces)
            (record n) (docs n) prior) \/ R body.
Proof.
  intros Horder Hg Hw Hleft Hs E.
  destruct (execute_known g h (ID task) Hleft fuel reviews task eq_refl R s r s' Hs E) as (l & Hl & Hj).
  destruct (execute_vouches g h fuel reviews task s r s' E) as (l' & Hl' & Hv).
  assert (l' = l) as -> by (rewrite Hl in Hl'; by apply app_inv_head in Hl').
  exists l. split; [done|]. intros e body Hin He. apply in_split in Hin as (l1 & l2 & ->).
  destruct (Hj l1 e l2 body eq_refl) as [Hrev|HR]; [by destruct He as [->|[ok ->]]| |by right].
  left. rewrite List.Forall_forall in Hv.
  destruct (Hv (EvReview (ID task) body true) ltac:(apply in_or_app; by left) eq_refl) as (n & traces & old & Hm & _).
  exists n, traces, old. rewrite Hg in Hm.
  by eapply accepted_met in Hm.
Qed.
End gated.

(** A finalizer whose report cites two pages the task opened. *)
Definition cited_step : TaskStep :=
  MkTaskStep 1%N "report" "write" "cited" "finalize" [] [] SDone demo_report JNull 1 3 time_zero ""
    None None None None None None None.
Definition cited_task : AgentTask := set_AcceptanceCriteria (Some "cites 2 sources"%string) sample_task.
Definition cited_start : db := with_tasks {[1%N := cited_task]} (with_steps [cited_step] sample_start).
Definition gated_host (status : string) : graph_host nat :=
  let g := demo_graph (report_executor true) (fun _ => true) in
  MkGraphHost nat (g_exec g) (g_handler g) (g_inject g) (g_plan g) (g_run g) (g_synthesize g) None
    (g_validate g)
    (gate_review (fun _ => true) (fun s => s) (fun _ r _ => r) plain_url map_to_list
       (fun _ => demo_reviewers status) (fun _ => Some (Ok demo_record)) (fun _ => Ok [demo_doc]))
    (g_sha256 g) (g_order g) (g_timestamp g) (g_cancelled g) (g_reserve g) (g_ready g) (g_empty g).
Definition gated_run (status : string) :=
  executeGraphTask (gated_host status) 3 4 cited_task demo_world (MkSys 1 cited_start []).

Lemma published_report_passed_gates_witness :
  List.filter settles (trace (snd (gated_run "grounded"))) = [EvFinalize 1 "completed" demo_report true]
  /\ List.filter settles (trace (snd (gated_run "partial"))) = [EvFinalize 1 "partial" demo_report true]
  /\ exists l, trace (snd (gated_run "grounded")) = [] ++ l
    /\ forall e body, In e l ->
         (e = EvAccept 1 body \/ exists ok, e = EvFinalize 1 "completed" body ok) ->
         (exists (n : nat) traces prior, passed (fun _ => true) (demo_reviewers "grounded") (fun s => s)
            (fun _ r _ => r) plain_url cited_task body (Marshal traces) (Some (Ok demo_record)) (Ok [demo_doc])
            prior) \/ False.
Proof.
  split; [by vm_compute|]. split; [by vm_compute|].
  apply (published_report_passed_gates (fun _ => true) (fun s => s) (fun _ r _ => r) plain_url map_to_list
    (fun _ => demo_reviewers "grounded") (fun _ => Some (Ok demo_record)) (fun _ => Ok [demo_doc])
    (gated_host "grounded") demo_world 3 4 cited_task (fun _ => False) (MkSys 1 cited_start [])
    (fst (gated_run "grounded"))).
  - by intros m.
  - done.
  - by vm_compute.
  - exact demo_left.
  - intros t [= <-]. split; [by constructor|]. intros f [= <-]. by split; [vm_compute|].
  - apply surjective_pairing.
Defined.
