(* ===== verification/GraphRepair.v ===== *)
(** * GraphRepair: the patch that repairs a report

    runtime/handler/graph_repair.go: [applyGraphRepairEdits] applies the edits a
    model proposes to the draft of a report.  Every edit names a passage that
    occurs once in the draft; all are resolved against the draft before any is
    applied, so no edit can match the text of another, and a patch that does
    not fit leaves the draft as it is. *)

From Stdlib Require Import Ascii String.
From stdpp Require Import sorting.
From S2P Require Import Prelude GoStrings Json GoJson TaskConfig.

Local Open Scope nat_scope.

(** ** The patch *)

Record repair_edit := MkEdit { Before : string; After : option string }.
Record replacement := MkReplacement { rp_start : nat; rp_end : nat; rp_text : bytes }.

(** A decoder with [DisallowUnknownFields]. *)
Definition known_fields (names : list string) (j : json) : bool :=
  match j with
  | JObj fs => forallb (fun p => existsb (fun n => same_name n (fst p)) names) fs
  | _ => true
  end.
Definition as_text_pointer (_ : option string) (j : json) : option (option string) :=
  match j with JNull => Some None | JStr s => Some (Some s) | _ => None end.
Definition as_edit (j : json) : option repair_edit :=
  if (is_object j || is_null j) && known_fields ["before"; "after"; "reason"]%string j then
    before ← decode_string "before" j; after ← decode_into None as_text_pointer "after" j;
    _ ← decode_string "reason" j; Some (MkEdit before after)
  else None.
Definition patch_edits (patch : bytes) : option (list repair_edit) :=
  j ← Members patch;
  if (is_object j || is_null j) && known_fields ["edits"%string] j
  then decode_into [] (as_list as_edit) "edits" j else None.

Inductive repair_error := EPatch | ECount | EPassage | ENoChange | EOverlap | EEmptied.

(** Where one edit applies, against the original draft. *)
Definition locate (draft : bytes) (e : repair_edit) : res repair_error replacement :=
  let before := lit (Before e) in
  match After e, Index draft before with
  | Some after, Some start =>
      if bool_decide (before = []) || Contains (drop (S start) draft) before then Err EPassage
      else if String.eqb (Before e) after then Err ENoChange
      else Ok (MkReplacement start (start + length before) (lit after))
  | _, _ => Err EPassage
  end.
Fixpoint locate_all (draft : bytes) (l : list repair_edit) : res repair_error (list replacement) :=
  match l with
  | [] => Ok []
  | e :: l => r ← locate draft e; rs ← locate_all draft l; Ok (r :: rs)
  end.

Definition starts_before (a b : replacement) : Prop := rp_start a <= rp_start b.
#[export] Instance starts_before_dec a b : Decision (starts_before a b) := decide (rp_start a <= rp_start b).
Fixpoint overlapping (l : list replacement) : bool :=
  match l with
  | a :: l' => match l' with b :: _ => Nat.ltb (rp_start b) (rp_end a) || overlapping l' | [] => false end
  | [] => false
  end.
(** From the last edit to the first, so that the places stay valid. *)
Definition splice (r : replacement) (draft : bytes) : bytes :=
  take (rp_start r) draft ++ rp_text r ++ drop (rp_end r) draft.
Definition apply_edits (draft : bytes) (l : list replacement) : bytes := foldr splice draft l.

Definition applyGraphRepairEdits (draft patch : bytes) : res repair_error bytes :=
  match patch_edits patch with
  | None => Err EPatch
  | Some edits =>
      if Nat.eqb (length edits) 0 || Nat.ltb 20 (length edits) then Err ECount
      else
        rs ← locate_all draft edits;
        let sorted := merge_sort starts_before rs in
        if overlapping sorted then Err EOverlap
        else
          let repaired := apply_edits draft sorted in
          if bool_decide (TrimSpace_b repaired = []) then Err EEmptied else Ok repaired
  end.

(** * What a patch does *)

(** The text with the passages of the edits replaced, in their order, and
    nothing else changed. *)
Inductive rewrites : list repair_edit -> bytes -> bytes -> Prop :=
| rewrites_none d : rewrites [] d d
| rewrites_edit e es keep after d r : After e = Some after -> rewrites es d r ->
    rewrites (e :: es) (keep ++ lit (Before e) ++ d) (keep ++ lit after ++ r).

(** A passage that occurs once. *)
Definition occurs_once (passage draft : bytes) : Prop :=
  passage <> [] /\ exists l1 l2, draft = l1 ++ passage ++ l2
    /\ forall l1' l2', draft = l1' ++ passage ++ l2' -> l1' = l1 /\ l2' = l2.

Record located (draft : bytes) (e : repair_edit) (r : replacement) : Prop := {
  loc_text : exists after, After e = Some after /\ Before e <> after /\ rp_text r = lit after;
  loc_split : draft = take (rp_start r) draft ++ lit (Before e) ++ drop (rp_end r) draft;
  loc_range : rp_start r <= rp_end r /\ rp_end r <= length draft;
  loc_once : occurs_once (lit (Before e)) draft;
}.

Lemma locate_located draft e r : locate draft e = Ok r -> located draft e r.
Proof.
  unfold locate. destruct (After e) as [after|] eqn:Ea; [|done].
  destruct (Index draft (lit (Before e))) as [start|] eqn:Ei; [|done].
  destruct (bool_decide_reflect (lit (Before e) = [])) as [Hb|Hb]; cbn [orb]; [done|].
  destruct (Contains _ _) eqn:Ec; [done|]. destruct (String.eqb_spec (Before e) after) as [|Hne]; [done|].
  intros [= <-]. pose proof (Index_Some _ _ _ Ei) as [Hsplit Hfirst]. pose proof (Index_le _ _ _ Ei) as Hle.
  split; cbn [rp_start rp_end rp_text]; [by exists after|exact Hsplit|lia|].
  split; [done|]. eexists _, _. split; [exact Hsplit|]. intros l1 l2 E.
  assert (HasPrefix (drop (length l1) draft) (lit (Before e)) = true) as Hp.
  { apply HasPrefix_spec. exists l2. rewrite E. by rewrite drop_app_length. }
  assert (length l1 = start) as Hlen.
  { destruct (decide (length l1 < start)) as [Hlt|Hge]; [by rewrite (Hfirst _ Hlt) in Hp|].
    destruct (decide (length l1 = start)) as [|Hne']; [done|].
    unfold Contains in Ec. destruct (Index (drop (S start) draft) _) eqn:En; [done|].
    pose proof (proj1 (Index_None _ _) En (length l1 - S start)) as Hnone. rewrite drop_drop in Hnone.
    replace (S start + (length l1 - S start)) with (length l1) in Hnone by lia. congruence. }
  rewrite Hsplit in E. apply app_inj_1 in E as [<- E]; [|rewrite length_take; lia].
  by apply app_inv_head in E as <-.
Qed.

(** Edits in their order, from a place on. *)
Fixpoint chain (k : nat) (l : list replacement) : Prop :=
  match l with [] => True | r :: l => k <= rp_start r /\ chain (rp_end r) l end.
Lemma chain_from k l : overlapping l = false -> (forall r, head l = Some r -> k <= rp_start r) -> chain k l.
Proof.
  revert k. induction l as [|a l IH]; intros k Ho Hk; [done|]. simpl. split; [by apply Hk|].
  simpl in Ho. destruct l as [|b l]; [done|]. apply orb_false_iff in Ho as [Ho1%Nat.ltb_ge Ho2].
  apply IH; [exact Ho2|]. by intros r [= <-].
Qed.

Lemma apply_rewrites draft es rs k : Forall2 (located draft) es rs -> chain k rs -> k <= length draft ->
  exists r, apply_edits draft rs = take k draft ++ r /\ rewrites es (drop k draft) r.
Proof.
  intros H. revert k. induction H as [|e a es rs Hl _ IH]; intros k Hc Hk.
  { exists (drop k draft). simpl. split; [by rewrite take_drop|constructor]. }
  destruct Hc as [Hk1 Hc]. destruct Hl as [(after & Ha & _ & Ht) Hs [Hr1 Hr2] _].
  destruct (IH (rp_end a) Hc Hr2) as (r & E & Hrw). exists (drop k (take (rp_start a) draft) ++ lit after ++ r). split.
  - cbn [apply_edits foldr]. fold (apply_edits draft rs). rewrite E. unfold splice. rewrite Ht.
    rewrite take_app_le by (rewrite length_take; lia). rewrite take_take, Nat.min_l by lia.
    rewrite drop_app_length' by (rewrite length_take; lia).
    rewrite (assoc_L (++) (take k draft)). f_equal.
    rewrite <- (take_drop k (take (rp_start a) draft)) at 1. by rewrite take_take, Nat.min_l.
  - rewrite Hs at 1. rewrite drop_app_le by (rewrite length_take; lia). by constructor.
Qed.

Lemma locate_all_located draft edits rs : locate_all draft edits = Ok rs -> Forall2 (located draft) edits rs.
Proof.
  revert rs. induction edits as [|e l IH]; intros rs; simpl; [by intros [= <-]|].
  destruct (locate draft e) as [r|x] eqn:E; [|done]. cbn. destruct (locate_all draft l) as [rs'|x]; [|done].
  intros [= <-]. constructor; [by apply locate_located|by apply IH].
Qed.

Lemma Forall2_permuted {A B} (P : A -> B -> Prop) la lb lb' : Forall2 P la lb -> lb ≡ₚ lb' ->
  exists la', la' ≡ₚ la /\ Forall2 P la' lb'.
Proof.
  intros H Hp. revert la H. induction Hp as [|b lb lb' _ IH|b b' lb|lb1 lb2 lb3 _ IH1 _ IH2]; intros la H.
  - exists la. split; [done|]. by apply Forall2_nil_inv_r in H as ->.
  - apply Forall2_cons_inv_r in H as (a & la' & Ha & H & ->). destruct (IH _ H) as (la'' & Hq & ?).
    exists (a :: la''). split; [by rewrite Hq|by constructor].
  - apply Forall2_cons_inv_r in H as (a & la' & Ha & H & ->).
    apply Forall2_cons_inv_r in H as (a' & la'' & Ha' & H & ->). exists (a' :: a :: la''). split; [constructor|by repeat constructor].
  - destruct (IH1 _ H) as (la' & Hq & H'). destruct (IH2 _ H') as (la'' & Hq' & ?). exists la''. split; [by rewrite Hq'|done].
Qed.

(** C39: A repair patch that is accepted replaces exactly the passages its edits
    name, each of which occurs once in the draft, by the texts they give;
    every other byte of the report stays, in its place between them. *)
Theorem repair_replaces_named_passages draft patch result :
  applyGraphRepairEdits draft patch = Ok result ->
  exists edits es, patch_edits patch = Some edits /\ 1 <= length edits <= 20 /\ es ≡ₚ edits
    /\ Forall (fun e => occurs_once (lit (Before e)) draft /\ After e <> Some (Before e)) edits
    /\ rewrites es draft result /\ TrimSpace_b result <> [].
Proof.
  unfold applyGraphRepairEdits. destruct (patch_edits patch) as [edits|]; [|done].
  destruct (_ || _) eqn:Ec; [done|]. apply orb_false_iff in Ec as [H0%Nat.eqb_neq H20%Nat.ltb_ge].
  destruct (locate_all draft edits) as [rs|x] eqn:El; [|done]. apply locate_all_located in El. cbn.
  destruct (overlapping _) eqn:Eo; [done|]. case_bool_decide as Hb; [done|]. intros [= <-].
  destruct (Forall2_permuted _ _ _ (merge_sort starts_before rs) El) as (es & Hperm & Hes);
    [symmetry; apply merge_sort_Permutation|].
  destruct (apply_rewrites draft es _ 0 Hes) as (r & E & Hr); [apply chain_from; [done|lia]|lia|].
  exists edits, es. split_and!; [done|lia|done|done| |by rewrite E|done].
  - clear - El. induction El as [|e r es rs Hl _ IH]; constructor; [|done]. destruct Hl as [(after & -> & Hne & _) _ _ Ho].
    split; [done|]. congruence.
Qed.

Definition demo_patch : bytes := Marshal (JObj [("edits"%string, JArr [
  JObj [("before", JStr "5 kg"); ("after", JStr "3 kg"); ("reason", JStr "source")];
  JObj [("before", JStr "It is"); ("after", JStr "The drone is")]])])%string.
Lemma repair_replaces_named_passages_witness :
  applyGraphRepairEdits (lit "It is 5 kg.") demo_patch = Ok (lit "The drone is 3 kg.")
  /\ exists edits es, patch_edits demo_patch = Some edits /\ 1 <= length edits <= 20 /\ es ≡ₚ edits
    /\ Forall (fun e => occurs_once (lit (Before e)) (lit "It is 5 kg.") /\ After e <> Some (Before e)) edits
    /\ rewrites es (lit "It is 5 kg.") (lit "The drone is 3 kg.") /\ TrimSpace_b (lit "The drone is 3 kg.") <> [].
Proof.
  assert (applyGraphRepairEdits (lit "It is 5 kg.") demo_patch = Ok (lit "The drone is 3 kg.")) as E by by vm_compute.
  split; [exact E|]. exact (repair_replaces_named_passages _ _ _ E).
Defined.
