(* ===== verification/GraphCalc.v ===== *)
(** * GraphCalc: the arithmetic a report may contain

    runtime/handler/graph_calculation.go: a marker [{{calc: expression;places}}]
    of a report is replaced by the value of the expression, computed in exact
    rationals and rounded once.

    [parser.ParseExpr] is modelled on the characters the code lets through:
    the tokens and expressions of Go that digits, points, operators and
    parentheses can form, those the calculation then refuses included. *)

From Stdlib Require Import Ascii String QArith Qabs Qround.
From stdpp Require Import pretty.
From S2P Require Import Prelude GoStrings GoJson Citations JsonText FinalState.

Local Open Scope Z_scope.

(** ** Tokens *)

Inductive token :=
| TInt (ds : bytes) | TFloat (before after : bytes)
| TAdd | TSub | TMul | TQuo | TInc | TDec | TLparen | TRparen | TPeriod | TEllipsis.

(** A literal with a leading zero is octal unless it has a point. *)
Definition octal_ok (ds : bytes) : bool :=
  match ds with
  | c :: _ :: _ => negb (Ascii.eqb c "0"%char) || forallb (in_range 48 55) ds
  | _ => true
  end.
Definition scan_number (s : bytes) : option (token * bytes) :=
  let '(ds, rest) := span is_digit s in
  match rest with
  | c :: rest' =>
      if Ascii.eqb c "."%char
      then let '(frac, rest'') := span is_digit rest' in Some (TFloat ds frac, rest'')
      else if octal_ok ds then Some (TInt ds, rest) else None
  | [] => if octal_ok ds then Some (TInt ds, []) else None
  end.
Definition starts_digit (s : bytes) : bool := match s with c :: _ => is_digit c | [] => false end.

Definition next_token (s : bytes) : option (token * bytes) :=
  match s with
  | [] => None
  | c :: rest =>
      if is_digit c then scan_number s
      else if Ascii.eqb c "."%char then
        if starts_digit rest then scan_number s
        else if HasPrefix rest (lit "..") then Some (TEllipsis, drop 2 rest) else Some (TPeriod, rest)
      else if Ascii.eqb c "+"%char
      then if HasPrefix rest (lit "+") then Some (TInc, drop 1 rest) else Some (TAdd, rest)
      else if Ascii.eqb c "-"%char
      then if HasPrefix rest (lit "-") then Some (TDec, drop 1 rest) else Some (TSub, rest)
      else if Ascii.eqb c "*"%char then Some (TMul, rest)
      else if Ascii.eqb c "/"%char then Some (TQuo, rest)
      else if Ascii.eqb c "("%char then Some (TLparen, rest)
      else if Ascii.eqb c ")"%char then Some (TRparen, rest)
      else None
  end.
Definition blank_char (c : ascii) : bool := existsb (Ascii.eqb c) [" "%char; chr 9].
(** Every token takes a byte. *)
Fixpoint tokens (fuel : nat) (s : bytes) : option (list token) :=
  match fuel with
  | O => None
  | S fuel =>
      match snd (span blank_char s) with
      | [] => Some []
      | s => '(t, rest) ← next_token s; ts ← tokens fuel rest; Some (t :: ts)
      end
  end.

(** ** Expressions *)

Inductive binop := OAdd | OSub | OMul | OQuo.
Inductive expr :=
| EInt (ds : bytes)
| EFloat (before after : bytes)
| EParen (x : expr)
| EUnary (neg : bool) (x : expr)
| EStar (x : expr)
| EBinary (op : binop) (x y : expr)
| ECall (f : expr)
| ECallWith (f arg : expr).

Definition operator (t : token) : option (binop * nat) :=
  match t with
  | TAdd => Some (OAdd, 4%nat) | TSub => Some (OSub, 4%nat)
  | TMul => Some (OMul, 5%nat) | TQuo => Some (OQuo, 5%nat)
  | _ => None
  end.

(** The recursive descent of package go/parser.  Every call chain of three
    takes a token. *)
Fixpoint parse_binary (fuel : nat) (prec : nat) (ts : list token) : option (expr * list token) :=
  match fuel with
  | O => None
  | S fuel => '(x, ts) ← parse_unary fuel ts; parse_rest fuel prec x ts
  end
with parse_rest (fuel : nat) (prec : nat) (x : expr) (ts : list token) : option (expr * list token) :=
  match fuel with
  | O => None
  | S fuel =>
      match ts with
      | t :: ts' =>
          match operator t with
          | Some (op, p) =>
              if Nat.ltb p prec then Some (x, ts)
              else '(y, ts) ← parse_binary fuel (S p) ts'; parse_rest fuel prec (EBinary op x y) ts
          | None => Some (x, ts)
          end
      | [] => Some (x, [])
      end
  end
with parse_unary (fuel : nat) (ts : list token) : option (expr * list token) :=
  match fuel with
  | O => None
  | S fuel =>
      match ts with
      | TAdd :: ts => '(x, ts) ← parse_unary fuel ts; Some (EUnary false x, ts)
      | TSub :: ts => '(x, ts) ← parse_unary fuel ts; Some (EUnary true x, ts)
      | TMul :: ts => '(x, ts) ← parse_unary fuel ts; Some (EStar x, ts)
      | TInt ds :: ts => parse_calls fuel (EInt ds) ts
      | TFloat a b :: ts => parse_calls fuel (EFloat a b) ts
      | TLparen :: ts =>
          '(x, ts) ← parse_binary fuel 1 ts;
          match ts with TRparen :: ts => parse_calls fuel (EParen x) ts | _ => None end
      | _ => None
      end
  end
with parse_calls (fuel : nat) (f : expr) (ts : list token) : option (expr * list token) :=
  match fuel with
  | O => None
  | S fuel =>
      match ts with
      | TLparen :: TRparen :: ts => parse_calls fuel (ECall f) ts
      | TLparen :: ts =>
          '(x, ts) ← parse_binary fuel 1 ts;
          match ts with
          | TRparen :: ts | TEllipsis :: TRparen :: ts => parse_calls fuel (ECallWith f x) ts
          | _ => None
          end
      | TPeriod :: _ => None
      | _ => Some (f, ts)
      end
  end.
Definition parse_fuel (ts : list token) : nat := 4 * length ts + 4.
Definition ParseExpr (s : bytes) : option expr :=
  ts ← tokens (S (length s)) s;
  '(x, rest) ← parse_binary (parse_fuel ts) 1 ts;
  match rest with [] => Some x | _ => None end.

(** ** Values *)

Inductive calc_error :=
| ETooMany | EUnclosed | EPrecision | EComments | ECharacters | EInvalid | EComplex | EUnsupported
| EDivision | ELimit.

Definition ten_power (n : nat) : positive := Pos.pow 10 (Pos.of_nat n).
(** [10^n] as a denominator, [1] for [n = 0]. *)
Definition scale (n : nat) : positive := match n with O => 1%positive | _ => ten_power n end.
Definition digits_of (ds : bytes) : Z := default 0 (parse_digits 0 ds).
Definition literal (before after : bytes) : Q := Qmake (digits_of (before ++ after)) (scale (length after)).

Definition within_limit (q : Q) : bool :=
  Z.ltb (Z.abs (Qnum q)) (2 ^ 8192) && Z.ltb (Z.pos (Qden q)) (2 ^ 8192).
Definition limited (q : Q) (remaining : Z) : res calc_error (Q * Z) :=
  if within_limit q then Ok (q, remaining) else Err ELimit.

Fixpoint graphCalculationValue (e : expr) (remaining : Z) : res calc_error (Q * Z) :=
  let remaining := remaining - 1 in
  if Z.ltb remaining 0 then Err EComplex
  else
    match e with
    | EInt ds => limited (Qred (literal ds [])) remaining
    | EFloat a b => limited (Qred (literal a b)) remaining
    | EParen x => graphCalculationValue x remaining
    | EUnary neg x =>
        '(v, remaining) ← graphCalculationValue x remaining;
        limited (if neg then Qopp v else v) remaining
    | EBinary op x y =>
        '(v, remaining) ← graphCalculationValue x remaining;
        '(w, remaining) ← graphCalculationValue y remaining;
        match op with
        | OAdd => limited (Qred (v + w)) remaining
        | OSub => limited (Qred (v - w)) remaining
        | OMul => limited (Qred (v * w)) remaining
        | OQuo => if Z.eqb (Qnum w) 0 then Err EDivision else limited (Qred (v / w)) remaining
        end
    | EStar _ | ECall _ | ECallWith _ _ => Err EUnsupported
    end.

(** ** Printing *)

Definition zeros (n : nat) : bytes := replicate n "0"%char.
Definition digits (n : Z) : bytes := lit (pretty n).
Definition FloatString (x : Q) (prec : nat) : bytes :=
  if Pos.eqb (Qden x) 1 then
    digits (Qnum x) ++ match prec with O => [] | _ => "."%char :: zeros prec end
  else
    let den := Z.pos (Qden x) in
    let p := 10 ^ Z.of_nat prec in
    let q := Z.abs (Qnum x) / den in
    let r := (Z.abs (Qnum x) mod den) * p in
    let r' := r / den + (if Z.leb den (2 * (r mod den)) then 1 else 0) in
    let '(q, r') := if Z.leb p r' then (q + 1, r' - p) else (q, r') in
    (if Z.ltb (Qnum x) 0 then ["-"%char] else []) ++ digits q
      ++ match prec with
         | O => []
         | _ => "."%char :: zeros (prec - length (digits r')) ++ digits r'
         end.

(** ** Reports *)

Definition calc_prefix : bytes := lit "{{calc:".
Definition calc_char (c : ascii) : bool := existsb (Ascii.eqb c) (lit "0123456789.+-*/() " ++ [chr 9]).

(** The text of one marker, its braces taken off. *)
Definition calculate (body : bytes) : res calc_error bytes :=
  let '(expression, places, ok) := Cut body (lit ";") in
  match ParseInt (TrimSpace_b places) with
  | Some precision =>
      if negb ok || Z.ltb precision 0 || Z.ltb 6 precision then Err EPrecision
      else
        let expression := TrimSpace_b expression in
        if Contains expression (lit "//") || Contains expression (lit "/*") then Err EComments
        else if negb (forallb calc_char expression) then Err ECharacters
        else match ParseExpr expression with
        | None => Err EInvalid
        | Some e =>
            '(value, _) ← graphCalculationValue e 128;
            Ok (FloatString value (Z.to_nat precision))
        end
  | None => Err EPrecision
  end.

(** [more] more markers are accepted. *)
Fixpoint render_from (more : nat) (report : bytes) : res calc_error bytes :=
  match Index report calc_prefix with
  | None => Ok report
  | Some start =>
      match more with
      | O => Err ETooMany
      | S more =>
          let rest := drop (start + length calc_prefix) report in
          match Index rest (lit "}}") with
          | None => Err EUnclosed
          | Some end_ =>
              if Nat.ltb 512 end_ then Err EUnclosed
              else
                text ← calculate (take end_ rest);
                out ← render_from more (drop (end_ + 2) rest);
                Ok (take start report ++ text ++ out)
          end
      end
  end.
Definition renderGraphCalculations (report : bytes) : res calc_error bytes := render_from 128 report.

(** ** What a marker stands for *)

(** The exact value of an expression. *)
Fixpoint expr_value (e : expr) : option Q :=
  match e with
  | EInt ds => Some (literal ds [])
  | EFloat a b => Some (literal a b)
  | EParen x => expr_value x
  | EUnary neg x => v ← expr_value x; Some (if neg then Qopp v else v)
  | EBinary op x y =>
      v ← expr_value x; w ← expr_value y;
      match op with
      | OAdd => Some (v + w) | OSub => Some (v - w) | OMul => Some (v * w)
      | OQuo => if Z.eqb (Qnum w) 0 then None else Some (v / w)
      end%Q
  | EStar _ | ECall _ | ECallWith _ _ => None
  end.

(** The number a reader sees in a decimal text of [p] places. *)
Definition strip_sign (text : bytes) : bool * bytes :=
  match text with
  | c :: rest => if Ascii.eqb c "-"%char then (true, rest) else (false, text)
  | [] => (false, [])
  end.
Definition reading (text : bytes) (p : nat) : option Q :=
  let '(neg, unsigned) := strip_sign text in
  let '(whole, rest) := span is_digit unsigned in
  fraction ← match rest with
             | [] => Some []
             | c :: frac => if Ascii.eqb c "."%char then Some frac else None
             end;
  n ← parse_digits 0 (whole ++ fraction);
  if Nat.eqb (length fraction) p && negb (Nat.eqb (length whole) 0)
  then Some (Qmake (if neg then - n else n) (scale p)) else None.

Inductive rendered : bytes -> bytes -> Prop :=
| rendered_text s : Index s calc_prefix = None -> rendered s s
| rendered_marker before expression places after text out e p x v :
    let report := before ++ calc_prefix ++ expression ++ lit ";" ++ places ++ lit "}}" ++ after in
    Index report calc_prefix = Some (length before) ->
    ParseExpr (TrimSpace_b expression) = Some e -> expr_value e = Some x ->
    ParseInt (TrimSpace_b places) = Some (Z.of_nat p) -> (p <= 6)%nat ->
    reading text p = Some v -> (Qabs (v - x) <= 1 # (2 * scale p))%Q ->
    rendered after out -> rendered report (before ++ text ++ out).

(** ** Values are exact *)

Lemma limited_Ok q n v n' : limited q n = Ok (v, n') -> v = q.
Proof. unfold limited. by case_match; intros [= <- _]. Qed.

Lemma graphCalculationValue_exact e : forall n v n',
  graphCalculationValue e n = Ok (v, n') -> exists x, expr_value e = Some x /\ (v == x)%Q.
Proof.
  induction e as [ds|a b|x IH|neg x IH|x IH|op x IHx y IHy|x IH|x IHx y IHy]; intros n v n';
    cbn -[Z.ltb Z.pow limited Qred]; (destruct (Z.ltb (n - 1) 0); [done|]); try done.
  - intros ->%limited_Ok. eexists; split; [done|apply Qred_correct].
  - intros ->%limited_Ok. eexists; split; [done|apply Qred_correct].
  - apply IH.
  - destruct (graphCalculationValue x (n - 1)) as [[w m]|] eqn:E; [|done]. cbn.
    destruct (IH _ _ _ E) as (q & -> & Hq). intros ->%limited_Ok. eexists; split; [done|].
    by destruct neg; rewrite Hq.
  - destruct (graphCalculationValue x (n - 1)) as [[w m]|] eqn:E; [|done]. cbn -[limited Qred].
    destruct (graphCalculationValue y m) as [[w' m']|] eqn:E'; [|done]. cbn -[limited Qred].
    destruct (IHx _ _ _ E) as (q & -> & Hq), (IHy _ _ _ E') as (q' & -> & Hq').
    destruct op; cbn -[limited Qred]; try (intros ->%limited_Ok; eexists; split; [done|]; by rewrite Qred_correct, Hq, Hq').
    assert (Z.eqb (Qnum w') 0 = Z.eqb (Qnum q') 0) as ->.
    { unfold Qeq in Hq'. apply eq_true_iff_eq. rewrite !Z.eqb_eq. split; intros H; rewrite H in Hq'; nia. }
    destruct (Z.eqb (Qnum q') 0); [done|]. intros ->%limited_Ok. eexists; split; [done|]. by rewrite Qred_correct, Hq, Hq'.
Qed.

(** ** Digits are read back *)

Lemma parse_digits_acc ds : forall acc, parse_digits acc ds =
  (fun n => acc * 10 ^ Z.of_nat (length ds) + n) <$> parse_digits 0 ds.
Proof.
  induction ds as [|c ds IH]; intros acc; cbn [parse_digits length].
  - simpl. f_equal. lia.
  - destruct (in_range 48 57 c); [|done].
    rewrite (IH (acc * 10 + _)), (IH (0 * 10 + _)), <- option_fmap_compose.
    apply option_fmap_ext. intros n. unfold compose. rewrite Nat2Z.inj_succ, Z.pow_succ_r by lia. lia.
Qed.
Lemma parse_digits_app a b : parse_digits 0 (a ++ b) = m ← parse_digits 0 a; parse_digits m b.
Proof.
  generalize 0. induction a as [|c a IH]; intros z; [done|]. cbn [parse_digits app].
  by destruct (in_range 48 57 c).
Qed.
Lemma parse_zeros n : parse_digits 0 (zeros n) = Some 0.
Proof. by induction n. Qed.

Lemma span_digits a c s : forallb is_digit a = true -> is_digit c = false ->
  span is_digit (a ++ c :: s) = (a, c :: s).
Proof.
  intros Ha Hc. induction a as [|d a IH]; cbn in *; [by rewrite Hc|].
  apply andb_true_iff in Ha as [-> Ha]. by rewrite IH.
Qed.
Lemma span_all_digits a : forallb is_digit a = true -> span is_digit a = (a, []).
Proof.
  intros Ha. induction a as [|d a IH]; cbn in *; [done|].
  apply andb_true_iff in Ha as [-> Ha]. by rewrite IH.
Qed.

Lemma pretty_go_digits : forall x s, forallb is_digit (lit s) = true ->
  forallb is_digit (lit (pretty_N_go x s)) = true.
Proof.
  intros x. induction (N.lt_wf_0 x) as [x _ IH]. intros s H.
  destruct (decide (0 < x)%N) as [Hx|Hx].
  - rewrite pretty_N_go_step by done. apply IH; [apply N.div_lt; lia|]. simpl. rewrite H.
    unfold is_digit. by destruct (digit_char (x `mod` 10)) as [-> _]; [apply N.mod_lt|].
  - assert (x = 0%N) as -> by lia. by rewrite pretty_N_go_0.
Qed.
Lemma pretty_go_length : forall p x s, (x < 10 ^ N.of_nat p)%N ->
  (length (lit (pretty_N_go x s)) <= p + length (lit s))%nat.
Proof.
  induction p as [|p IH]; intros x s Hx.
  - assert (x = 0%N) as -> by (simpl in Hx; lia). by rewrite pretty_N_go_0.
  - destruct (decide (0 < x)%N) as [H0|H0].
    + rewrite pretty_N_go_step by done. etransitivity; [apply IH|simpl; lia].
      rewrite Nat2N.inj_succ, N.pow_succ_r' in Hx. apply N.Div0.div_lt_upper_bound. lia.
    + assert (x = 0%N) as -> by lia. rewrite pretty_N_go_0. lia.
Qed.

(** The digits of a number: they are digits, there is one, they are read back
    as the number, and there are no more than it takes. *)
Lemma digits_spec n : 0 <= n ->
  forallb is_digit (digits n) = true /\ (0 < length (digits n))%nat /\
  parse_digits 0 (digits n) = Some n /\
  (forall p, (0 < p)%nat -> n < 10 ^ Z.of_nat p -> (length (digits n) <= p)%nat).
Proof.
  intros Hn. destruct n as [|q|q]; [|change (digits (Z.pos q)) with (lit (pretty_N_go (N.pos q) ""))|lia].
  - repeat split; [simpl; lia|]. intros p Hp _. simpl. lia.
  - destruct (pretty_go_head (N.pos q) "") as (c & l & Hl & Hc); [left; lia|].
    repeat split.
    + by apply pretty_go_digits.
    + rewrite Hl. simpl. lia.
    + apply (parse_pretty_go (N.pos q) "").
    + intros p _ Hp. etransitivity; [apply (pretty_go_length p)|simpl; lia].
      apply N2Z.inj_lt. rewrite N2Z.inj_pow. by rewrite nat_N_Z.
Qed.

(** ** Rounding *)

Lemma scale_pow n : Z.pos (scale n) = 10 ^ Z.of_nat n.
Proof. destruct n as [|n]; [done|]. unfold scale, ten_power. rewrite Pos2Z.inj_pow. f_equal. lia. Qed.

(** The whole and fractional parts that [FloatString] prints. *)
Definition rounded (num den p : Z) : Z * Z :=
  let q := num / den in
  let r := (num mod den) * p in
  let r' := r / den + (if Z.leb den (2 * (r mod den)) then 1 else 0) in
  if Z.leb p r' then (q + 1, r' - p) else (q, r').

Lemma rounded_nearest num den p : 0 <= num -> 0 < den -> 0 < p ->
  let '(q, r) := rounded num den p in
  0 <= q /\ 0 <= r < p /\ 2 * Z.abs ((q * p + r) * den - num * p) <= den.
Proof.
  intros Hn Hd Hp. unfold rounded.
  pose proof (Z.div_mod num den ltac:(lia)) as E1. pose proof (Z.mod_pos_bound num den Hd) as B1.
  set (q := num / den) in *. set (m := num mod den) in *.
  pose proof (Z.div_mod (m * p) den ltac:(lia)) as E2. pose proof (Z.mod_pos_bound (m * p) den Hd) as B2.
  set (r0 := (m * p) / den) in *. set (rem := (m * p) mod den) in *.
  assert (0 <= q) by (apply Z.div_pos; lia).
  assert (0 <= r0 < p) by (split; [apply Z.div_pos; nia|apply Z.div_lt_upper_bound; nia]).
  set (up := if Z.leb den (2 * rem) then 1 else 0).
  assert (up = 0 /\ 2 * rem < den \/ up = 1 /\ den <= 2 * rem) as Hup
    by (unfold up; destruct (Z.leb_spec den (2 * rem)); lia).
  assert (num * p = q * p * den + r0 * den + rem) as E by nia.
  destruct (Z.leb_spec p (r0 + up)).
  - repeat split; [lia..|]. replace ((q + 1) * p + (r0 + up - p)) with (q * p + r0 + up) by ring. nia.
  - repeat split; [lia..|]. nia.
Qed.

(** A text of a whole and a fractional part. *)
Definition decimal (neg : bool) (q r : Z) (p : nat) : bytes :=
  (if neg then ["-"%char] else []) ++ digits q
    ++ match p with
       | O => []
       | _ => "."%char :: zeros (p - length (digits r)) ++ digits r
       end.

Lemma strip_digits neg ds s : forallb is_digit ds = true -> (0 < length ds)%nat ->
  strip_sign ((if (neg : bool) then ["-"%char] else []) ++ ds ++ s) = (neg, ds ++ s).
Proof.
  intros Hd Hl. destruct neg; [done|]. destruct ds as [|c ds]; [simpl in Hl; lia|]. cbn in *.
  apply andb_true_iff in Hd as [Hc _]. by destruct (digit_not_sign c Hc) as [-> _].
Qed.

Lemma reading_decimal neg q r p : 0 <= q -> 0 <= r < 10 ^ Z.of_nat p ->
  reading (decimal neg q r p) p =
  Some (Qmake (if neg then - (q * 10 ^ Z.of_nat p + r) else q * 10 ^ Z.of_nat p + r) (scale p)).
Proof.
  intros Hq Hr. destruct (digits_spec q Hq) as (Dq & Lq & Pq & _).
  unfold reading, decimal. rewrite strip_digits by done.
  destruct p as [|p].
  - rewrite app_nil_r, span_all_digits by done. cbn [mbind option_bind]. rewrite app_nil_r, Pq.
    simpl in *. replace r with 0 by lia. destruct (length (digits q)); [lia|]. simpl.
    do 2 f_equal. by destruct neg; lia.
  - rewrite span_digits by done. cbn -[digits zeros parse_digits Z.pow scale Nat.eqb].
    destruct (digits_spec r ltac:(lia)) as (Dr & _ & Pr & Lr). pose proof (Lr (S p) ltac:(lia) ltac:(lia)).
    set (k := (S p - length (digits r))%nat).
    assert (length (zeros k ++ digits r) = S p) as Hlen
      by (rewrite length_app; unfold zeros; rewrite length_replicate; lia).
    rewrite Hlen, Nat.eqb_refl. destruct (Nat.eqb_spec (length (digits q)) 0); [lia|].
    assert (parse_digits 0 (zeros k ++ digits r) = Some r) as Hf
      by (rewrite parse_digits_app, parse_zeros; exact Pr).
    rewrite parse_digits_app, Pq. cbn [mbind option_bind]. rewrite parse_digits_acc, Hf, Hlen. done.
Qed.

Lemma FloatString_fraction x p : Qden x <> 1%positive ->
  let '(q, r) := rounded (Z.abs (Qnum x)) (Z.pos (Qden x)) (10 ^ Z.of_nat p) in
  FloatString x p = decimal (Z.ltb (Qnum x) 0) q r p.
Proof.
  intros Hd. unfold FloatString, rounded, decimal. rewrite (proj2 (Pos.eqb_neq _ _)) by done. by case_match.
Qed.
Lemma FloatString_integer x p : Qden x = 1%positive ->
  FloatString x p = decimal (Z.ltb (Qnum x) 0) (Z.abs (Qnum x)) 0 p.
Proof.
  intros Hd. unfold FloatString, decimal. rewrite Hd, Pos.eqb_refl.
  assert (digits (Qnum x) = (if Z.ltb (Qnum x) 0 then ["-"%char] else []) ++ digits (Z.abs (Qnum x))) as ->
    by by destruct (Qnum x).
  rewrite <- app_assoc. do 2 f_equal. destruct p as [|p]; [done|]. f_equal.
  simpl. rewrite Nat.sub_0_r. change (digits 0) with (zeros 1). unfold zeros.
  by rewrite <- replicate_add, Nat.add_comm.
Qed.

Lemma signed_near (x : Q) (m : Z) (p : nat) :
  2 * Z.abs (m * Z.pos (Qden x) - Z.abs (Qnum x) * 10 ^ Z.of_nat p) <= Z.pos (Qden x) ->
  (Qabs (Qmake (if Z.ltb (Qnum x) 0 then - m else m) (scale p) - x) <= 1 # (2 * scale p))%Q.
Proof.
  rewrite <- scale_pow. destruct x as [n d]. unfold Qle, Qabs, Qminus, Qplus, Qopp. cbn [Qnum Qden].
  rewrite !Pos2Z.inj_mul. intros H. destruct (Z.ltb_spec n 0).
  - replace (- m * Z.pos d + - n * Z.pos (scale p)) with (- (m * Z.pos d - Z.abs n * Z.pos (scale p)))
      by (rewrite Z.abs_neq by lia; ring). rewrite Z.abs_opp. nia.
  - replace (m * Z.pos d + - n * Z.pos (scale p)) with (m * Z.pos d - Z.abs n * Z.pos (scale p))
      by (rewrite Z.abs_eq by lia; ring). nia.
Qed.

(** The printed text is read as a number at most half a unit of its last place away. *)
Lemma FloatString_nearest x p : exists v,
  reading (FloatString x p) p = Some v /\ (Qabs (v - x) <= 1 # (2 * scale p))%Q.
Proof.
  destruct (decide (Qden x = 1%positive)) as [Hd|Hd].
  - rewrite FloatString_integer by done. eexists.
    split; [apply reading_decimal; [lia|split; [lia|apply Z.pow_pos_nonneg; lia]]|].
    apply signed_near. rewrite Hd. lia.
  - pose proof (FloatString_fraction x p Hd) as HF.
    pose proof (rounded_nearest (Z.abs (Qnum x)) (Z.pos (Qden x)) (10 ^ Z.of_nat p)
      ltac:(lia) ltac:(lia) ltac:(apply Z.pow_pos_nonneg; lia)) as HR.
    destruct (rounded _ _ _) as [q r]. destruct HR as (Hq & Hr & HN). rewrite HF. eexists.
    split; [by apply reading_decimal|]. by apply signed_near.
Qed.

(** ** Reports *)

Lemma Cut_found s sep a b : Cut s sep = (a, b, true) -> s = a ++ sep ++ b.
Proof.
  unfold Cut. destruct (Index s sep) as [i|] eqn:E; [|done]. intros [= <- <-]. by apply Index_Some in E as [E _].
Qed.

Lemma calculate_sound body text : calculate body = Ok text -> exists expression places e p x v,
  body = expression ++ lit ";" ++ places /\ ParseExpr (TrimSpace_b expression) = Some e /\
  expr_value e = Some x /\ ParseInt (TrimSpace_b places) = Some (Z.of_nat p) /\ (p <= 6)%nat /\
  reading text p = Some v /\ (Qabs (v - x) <= 1 # (2 * scale p))%Q.
Proof.
  unfold calculate. destruct (Cut body (lit ";")) as [[expression places] ok] eqn:Ec.
  destruct (ParseInt _) as [z|] eqn:Ep; [|done].
  destruct (negb ok || Z.ltb z 0 || Z.ltb 6 z) eqn:Eb; [done|].
  rewrite !orb_false_iff, negb_false_iff, !Z.ltb_ge in Eb. destruct Eb as [[-> ?] ?].
  destruct (_ || _); [done|]. destruct (negb _); [done|].
  destruct (ParseExpr _) as [e|] eqn:Ee; [|done].
  destruct (graphCalculationValue e 128) as [[w n]|] eqn:Ev; [|done].
  intros [= <-]. destruct (graphCalculationValue_exact _ _ _ _ Ev) as (x & Hx & Hwx).
  destruct (FloatString_nearest w (Z.to_nat z)) as (v & Hr & Hn).
  exists expression, places, e, (Z.to_nat z), x, v.
  repeat split; [by apply Cut_found|done|done|rewrite Ep; f_equal; lia|lia|done|by rewrite <- Hwx].
Qed.

(** C40: A report whose calculations are rendered
    (runtime/handler/graph_calculation.go: renderGraphCalculations) keeps every
    byte outside its markers, and each marker is replaced by a decimal text of
    the requested zero to six places that is read as a number at most half a
    unit of its last place away from the exact rational value of the parsed
    expression: no binary rounding, no lost sign, no lost carry, no division
    by zero. *)
Theorem calculations_exact report out :
  renderGraphCalculations report = Ok out -> rendered report out.
Proof.
  unfold renderGraphCalculations. generalize 128%nat. intros n. revert report out.
  induction n as [|n IH]; intros report out; cbn [render_from];
    (destruct (Index report calc_prefix) as [i|] eqn:Ei; [|intros [= <-]; by constructor]); [done|].
  set (rest := drop (i + length calc_prefix) report).
  destruct (Index rest (lit "}}")) as [j|] eqn:Ej; [|done]. destruct (Nat.ltb 512 j); [done|].
  destruct (calculate (take j rest)) as [text|] eqn:Ec; [|done].
  destruct (render_from n (drop (j + 2) rest)) as [o|] eqn:Er; [|done]. intros [= <-].
  destruct (calculate_sound _ _ Ec) as (expression & places & e & p & x & v & Hb & ? & ? & ? & ? & ? & ?).
  pose proof (Index_le _ _ _ Ei). destruct (Index_Some _ _ _ Ei) as [Hs _], (Index_Some _ _ _ Ej) as [Hr _].
  assert (report = take i report ++ calc_prefix ++ expression ++ lit ";" ++ places ++ lit "}}" ++ drop (j + 2) rest)
    as Hrep.
  { rewrite Hs at 1. f_equal. f_equal. fold rest. rewrite Hr at 1. rewrite Hb, <- !app_assoc. done. }
  rewrite Hrep at 1. eapply rendered_marker; eauto. rewrite <- Hrep, length_take. rewrite Ei. f_equal. lia.
Qed.

Lemma calculations_exact_witness :
  rendered (lit "Each pays {{calc:2*(3.5+1)/-7;2}} of {{calc: 99.999/1 ; 2 }}.")
           (lit "Each pays -1.29 of 100.00.").
Proof. apply calculations_exact. vm_compute. reflexivity. Defined.
