(* ===== verification/GraphStep.v ===== *)
(** * GraphStep: one attempt of a step

    runtime/handler/graph_step.go: [ExecuteGraphStep] runs the model and tool
    loop of a step, saves a checkpoint at every event of the loop, has the
    candidate reviewed without tools, and says whether the step is done.  A
    later attempt starts from the saved checkpoint: a candidate goes straight
    to its review, and an action whose outcome is unknown is never run again.
    The report markers of graph_observation.go and the repair of a report
    (graph_repair.go: [RepairGraphResult]) use the same cleaning.

    The loop (AgentLoop) is here a program that offers checkpoints and reacts
    to what saving them gave; its own rules are AgentLoop's. *)

From Stdlib Require Import Ascii String.
From stdpp Require Import pretty.
From S2P Require Import Prelude GoStrings Json GoJson Task GoTime TaskPlan Lifecycle Conversation Registry AgentText AgentLoop GraphRun TaskConfig Finalize TaskRetry Citations Acceptance FinalState GraphRepair GraphCalc.

Local Open Scope Z_scope.

(** ** Markers the reader never sees *)

(** The end of the first match of [m] in [s]. *)
Fixpoint past (m : bytes -> option nat) (s : bytes) : option nat :=
  match m s with
  | Some n => Some n
  | None => match s with [] => None | _ :: s' => S <$> past m s' end
  end.
(** [ReplaceAllString(s, "")]: [m] gives the length of a match that starts here. *)
Fixpoint remove_matches (m : bytes -> option nat) (skip : nat) (s : bytes) : bytes :=
  match s with
  | [] => []
  | c :: s' =>
      match skip with
      | S k => remove_matches m k s'
      | O => match m s with
             | Some n => remove_matches m (pred n) s'
             | None => c :: remove_matches m 0 s'
             end
      end
  end.

Definition scratchpad_at (s : bytes) : option nat :=
  n ← Finalize.fold_prefix (lit "<scratchpad>") s;
  k ← past (Finalize.fold_prefix (lit "</scratchpad>")) (drop n s);
  Some (n + k)%nat.
Definition spaces (s : bytes) : nat := length (fst (span re_space s)).
(** The closing bracket, white space and [>>>]. *)
Definition block_end (close : ascii) (s : bytes) : option nat :=
  match s with
  | c :: s' => if Ascii.eqb c close && HasPrefix (drop (spaces s') s') (lit ">>>")
               then Some (1 + spaces s' + 3)%nat else None
  | [] => None
  end.
Definition block_at (name : string) (open close : ascii) (s : bytes) : option nat :=
  let head := lit "<<<" ++ lit name in
  if HasPrefix s head then
    let n := (length head + spaces (drop (length head) s))%nat in
    match drop n s with
    | c :: body => if Ascii.eqb c open then k ← past (block_end close) body; Some (n + 1 + k)%nat else None
    | [] => None
    end
  else None.
Definition stripScratchpad : bytes -> bytes := remove_matches scratchpad_at 0.
Definition stripPlanMarkers (s : bytes) : bytes :=
  remove_matches (block_at "PLAN_PATCH_JSON" "{" "}") 0 (remove_matches (block_at "PLAN_JSON" "{" "}") 0 s).
Definition stripEvidenceMarkers (s : bytes) : bytes :=
  TrimSpace_b (remove_matches (block_at "EVIDENCE_JSON" "[" "]") 0 s).
Definition clean_text (s : bytes) : bytes := stripEvidenceMarkers (stripPlanMarkers (stripScratchpad s)).

(** ** Reports *)

Definition calc_message (e : calc_error) : string :=
  match e with
  | ETooMany => "too many calculation markers"
  | EUnclosed => "unclosed or oversized calculation marker"
  | EPrecision => "calculation needs precision from 0 to 6"
  | EComments => "calculation comments are not supported"
  | ECharacters => "calculation accepts only decimal arithmetic"
  | EInvalid => "invalid calculation expression"
  | EComplex => "calculation too complex"
  | EUnsupported => "unsupported calculation expression"
  | EDivision => "calculation divides by zero"
  | ELimit => "calculation exceeds numeric limit"
  end.
(** [observe]: the reads of the task's saved sources fill their markers. *)
Definition renderGraphReport (observe : bytes -> res failure bytes) (report : bytes) : res failure bytes :=
  match renderGraphCalculations report with
  | Err e => Err (plain_failure (calc_message e))
  | Ok report => if Contains report (lit "{{observed_at:") then observe report else Ok report
  end.

Definition unverifiedStepResult (candidate gaps : string) : string :=
  str (TrimSpace_b (lit candidate) ++ [chr 10; chr 10] ++ lit "[unverified_step_result]" ++ [chr 10]
    ++ lit "This step did not pass its acceptance review after its last attempt. Outstanding gaps: "
    ++ TrimSpace_b (lit gaps) ++ [chr 10]
    ++ lit "Use only facts its sources support and state these gaps explicitly in the deliverable." ++ [chr 10]
    ++ lit "[/unverified_step_result]").

Definition modelRoleForTask (task : AgentTask) : string :=
  let role := if String.eqb (Strategy task) StrategyRecurring then "recurring" else "background" in
  let config := Config task in
  match (if is_object config || is_null config then decode_string "model_role" config else None) with
  | Some r => if String.eqb r "" then role else r
  | None => role
  end.

(** ** The checkpoint *)

Record ToolTrace := MkToolTrace {
  t_StartedAt : option string;             (* its RFC 3339 text *)
  t_DurationMs : Z;
  t_TimedOut : bool;
  t_Name : string;
  t_BlockID : string;
  t_Input : string;
  t_Output : string;
  t_Error : bool;
  t_Receipt : option ToolExecutionResult;  (* not saved with the trace *)
}.
Record graphStepCheckpoint := MkCheckpoint {
  LastCandidate : string;
  LastCandidateReview : string;
  ReviewReason : string;
  cp_SessionID : string;
  cp_Phase : string;
  cp_Output : string;
  CandidateReady : bool;
  ReviewAttempts : Z;
  cp_Traces : list ToolTrace;
  cp_Receipts : list ToolExecutionResult;
  PendingTool : option ContentBlock;
}.
Definition no_checkpoint : graphStepCheckpoint := MkCheckpoint "" "" "" "" "" "" false 0 [] [] None.

(** A [json.RawMessage]: none is null, and what is not JSON cannot be written. *)
Definition raw_value (s : bytes) : option json := match s with [] => Some JNull | _ => Parse s end.

Definition enc_receipt (r : ToolExecutionResult) : option json :=
  input ← raw_value (tr_Input r);
  Some (JObj [("name", jtext (tr_Name r)); ("input", input); ("output", jtext (tr_Output r));
              ("is_error", JBool (tr_IsError r))])%string.
Definition enc_trace (t : ToolTrace) : json := JObj (List.concat [
  omit (is_none (t_StartedAt t)) "started_at" (jpointer JStr (t_StartedAt t));
  omit (Z.eqb (t_DurationMs t) 0) "duration_ms" (jint (t_DurationMs t));
  omit (negb (t_TimedOut t)) "timed_out" (JBool (t_TimedOut t));
  member_ "name" (jtext (t_Name t)); text_omit "block_id" (t_BlockID t); member_ "input" (jtext (t_Input t));
  text_omit "output" (t_Output t); omit (negb (t_Error t)) "error" (JBool (t_Error t))])%string.
(** The fields of a tool call; the others are absent in one. *)
Definition enc_call (b : ContentBlock) : option json :=
  input ← raw_value (Conversation.Input b);
  Some (JObj (List.concat [
    member_ "type" (jtext (Type_ b)); text_omit "text" (str (Text b)); text_omit "id" (ID_ b);
    text_omit "name" (str (bName b));
    omit (bool_decide (Conversation.Input b = [])) "input" input;
    text_omit "thought_signature" (str (ThoughtSignature b))]))%string.
(** [json.Marshal(cp)] *)
Definition enc_checkpoint (c : graphStepCheckpoint) : option json :=
  receipts ← mapM enc_receipt (cp_Receipts c);
  pending ← match PendingTool c with
            | Some b => j ← enc_call b; Some [("pending_tool"%string, j)]
            | None => Some []
            end;
  Some (JObj (List.concat [
    text_omit "last_candidate" (LastCandidate c); text_omit "last_candidate_review" (LastCandidateReview c);
    text_omit "review_reason" (ReviewReason c); member_ "session_id" (jtext (cp_SessionID c));
    member_ "phase" (jtext (cp_Phase c)); member_ "output" (jtext (cp_Output c));
    member_ "candidate_ready" (JBool (CandidateReady c)); member_ "review_attempts" (jint (ReviewAttempts c));
    member_ "traces" (jslice enc_trace (cp_Traces c)); member_ "receipts" (jslice id receipts)] ++ pending))%string.

Definition as_started (_ : option string) (j : json) : option (option string) :=
  match j with
  | JNull => Some None
  | JStr s => _ ← json_time j; Some (Some s)
  | _ => None
  end.
Definition dec_trace (j : json) : option ToolTrace :=
  if is_object j || is_null j then
    started ← decode_into None as_started "started_at" j;
    duration ← decode_int "duration_ms" j; timed_out ← decode_bool "timed_out" j;
    name ← decode_string "name" j; block ← decode_string "block_id" j; input ← decode_string "input" j;
    output ← decode_string "output" j; error ← decode_bool "error" j;
    Some (MkToolTrace started duration timed_out name block input output error None)
  else None.
Definition dec_call (j : json) : option ContentBlock :=
  if is_object j then
    type ← decode_string "type" j; text ← decode_string "text" j; id ← decode_string "id" j;
    name ← decode_string "name" j; signature ← decode_string "thought_signature" j;
    Some (MkBlock type (lit text) id (lit name) (raw_member "input" j) (lit signature) "" (RText []) false)
  else None.
Definition as_call (_ : option ContentBlock) (j : json) : option (option ContentBlock) :=
  match j with JNull => Some None | _ => Some <$> dec_call j end.
(** [json.Unmarshal] of a saved checkpoint *)
Definition dec_checkpoint (j : json) : option graphStepCheckpoint :=
  if is_object j || is_null j then
    last ← decode_string "last_candidate" j; last_review ← decode_string "last_candidate_review" j;
    reason ← decode_string "review_reason" j; session ← decode_string "session_id" j;
    phase ← decode_string "phase" j; output ← decode_string "output" j;
    ready ← decode_bool "candidate_ready" j; attempts ← decode_int "review_attempts" j;
    traces ← decode_into [] (as_list dec_trace) "traces" j;
    receipts ← decode_into [] (as_list as_tool_result) "receipts" j;
    pending ← decode_into None as_call "pending_tool" j;
    Some (MkCheckpoint last last_review reason session phase output ready attempts traces receipts pending)
  else None.

#[local] Abbreviation set_candidate last review c :=
  (MkCheckpoint last review (ReviewReason c) (cp_SessionID c) (cp_Phase c) (cp_Output c) (CandidateReady c)
     (ReviewAttempts c) (cp_Traces c) (cp_Receipts c) (PendingTool c)).
Definition set_phase (phase : string) (c : graphStepCheckpoint) : graphStepCheckpoint :=
  MkCheckpoint (LastCandidate c) (LastCandidateReview c) (ReviewReason c) (cp_SessionID c) phase (cp_Output c)
    (CandidateReady c) (ReviewAttempts c) (cp_Traces c) (cp_Receipts c) (PendingTool c).
Definition set_output (output : string) (c : graphStepCheckpoint) : graphStepCheckpoint :=
  MkCheckpoint (LastCandidate c) (LastCandidateReview c) (ReviewReason c) (cp_SessionID c) (cp_Phase c) output
    (CandidateReady c) (ReviewAttempts c) (cp_Traces c) (cp_Receipts c) (PendingTool c).
Definition set_reason (reason : string) (c : graphStepCheckpoint) : graphStepCheckpoint :=
  MkCheckpoint (LastCandidate c) (LastCandidateReview c) reason (cp_SessionID c) (cp_Phase c) (cp_Output c)
    (CandidateReady c) (ReviewAttempts c) (cp_Traces c) (cp_Receipts c) (PendingTool c).
Definition set_session (session : string) (c : graphStepCheckpoint) : graphStepCheckpoint :=
  MkCheckpoint (LastCandidate c) (LastCandidateReview c) (ReviewReason c) session (cp_Phase c) (cp_Output c)
    (CandidateReady c) (ReviewAttempts c) (cp_Traces c) (cp_Receipts c) (PendingTool c).
Definition set_review (ready : bool) (attempts : Z) (c : graphStepCheckpoint) : graphStepCheckpoint :=
  MkCheckpoint (LastCandidate c) (LastCandidateReview c) (ReviewReason c) (cp_SessionID c) (cp_Phase c)
    (cp_Output c) ready attempts (cp_Traces c) (cp_Receipts c) (PendingTool c).
Definition set_evidence (traces : list ToolTrace) (receipts : list ToolExecutionResult)
    (c : graphStepCheckpoint) : graphStepCheckpoint :=
  MkCheckpoint (LastCandidate c) (LastCandidateReview c) (ReviewReason c) (cp_SessionID c) (cp_Phase c)
    (cp_Output c) (CandidateReady c) (ReviewAttempts c) traces receipts (PendingTool c).
Definition set_pending_tool (pending : option ContentBlock) (c : graphStepCheckpoint) : graphStepCheckpoint :=
  MkCheckpoint (LastCandidate c) (LastCandidateReview c) (ReviewReason c) (cp_SessionID c) (cp_Phase c)
    (cp_Output c) (CandidateReady c) (ReviewAttempts c) (cp_Traces c) (cp_Receipts c) pending.

(** ** The host *)

Inductive step_error : Type :=
| SDependencies | SCheckpoint | SUncertain (save : option failure) | SModel
| SVerification (cause : option failure)   (* ErrGraphVerificationUnavailable *)
| STools | SEffectful (tool : string) | SResearch (tool : string)
| SPrompt (cause : option failure) | SSession (cause : failure)
| SSave (cause : option failure)           (* not saved, or not encodable *)
| SRun (cause : failure) | SNoCandidate.

(** What the loop reports, and the loop as the step sees it. *)
Record RunCheckpoint := MkRunCheckpoint {
  rc_Phase : string;
  rc_Text : string;
  rc_Traces : list ToolTrace;
  rc_Pending : option ContentBlock;
}.
Record RunResult := MkRunResult { run_Text : bytes; run_Traces : list ToolTrace }.
Inductive run : Type :=
| Finished (out : option RunResult) (err : option step_error)
| Offers (event : RunCheckpoint) (continue : option step_error -> run).

(** The context a step is worked and reviewed in. *)
Record step_input := MkStepInput {
  si_others : list (string * string);      (* the goals of the other steps *)
  si_inputs : list (string * string);      (* the confirmed results *)
}.
Section step.
Context {H : Type}.

Record run_request := MkRunRequest {
  rq_Session : string;
  rq_Prompt : string;
  rq_Registry : ToolRegistry (Handler := H);
  rq_Allowed : list string;
  rq_Parallel : Z;
  rq_ToolsDeadline : option time;
  rq_MaxTurns : Z;
  rq_Role : string;
  rq_Input : step_input;
  rq_Previous : string;                    (* the candidate to repair *)
  rq_Feedback : string;
}.
Record review_request := MkReviewRequest {
  rv_Prompt : string;
  rv_Input : step_input;
  rv_Candidate : string;
  rv_Receipts : list ToolExecutionResult;
}.
Record step_host := MkStepHost {
  sh_deps : bool;                          (* the dependencies are there *)
  sh_model : bool;                         (* a model is configured *)
  sh_registry : ToolRegistry (Handler := H);
  sh_goals : list (string * string);       (* deps.TaskStepGoals *)
  sh_final_owned : bool;                   (* deps.FinalAcceptanceOwned *)
  sh_reserve : duration;                   (* Timeouts.TaskFinalizeReserve *)
  sh_max_turns : Z;                        (* Gateway.MaxTurns *)
  sh_prompt : nat -> string -> res failure string;
  sh_session : nat -> res failure string;
  sh_save : nat -> option failure;
  sh_now : nat -> time;
  sh_run : nat -> run_request -> run;
  sh_observe : nat -> bytes -> res failure bytes;
  sh_review : nat -> review_request -> res failure (option CompletionResponse);
}.

Inductive step_event : Type :=
| EvSession (session : string)
| EvSave (c : graphStepCheckpoint) (ok : bool)
| EvRun (r : run_request)
| EvOffer (pending : option ContentBlock) (effect : bool) (e : RunCheckpoint)
| EvReview (r : review_request) (answer : res failure (option CompletionResponse)).

(** ** State *)

Record IterationResult := MkIteration { it_Output : string; it_Traces : list ToolTrace }.
Definition empty_result : IterationResult := MkIteration "" [].
Record step_end := MkEnd { end_Result : IterationResult; end_Accepted : bool; end_Err : option step_error }.
Record step_state := MkStepState { st_n : nat; st_cp : graphStepCheckpoint; st_log : list step_event }.

(** Inside a run of the code: its value or the return that ends the step. *)
Definition Step (A : Type) : Type := step_state -> (step_end + A) * step_state.
#[global] Instance step_ret : MRet Step := fun A a s => (inr a, s).
#[global] Instance step_bind : MBind Step := fun A B k m s =>
  match m s with (inr a, s') => k a s' | (inl e, s') => (inl e, s') end.
Definition returns {A} (r : step_end) : Step A := fun s => (inl r, s).
Definition consult {A} (f : nat -> A) : Step A := fun s => (inr (f (st_n s)), MkStepState (S (st_n s)) (st_cp s) (st_log s)).
Definition note (e : step_event) : Step unit := fun s => (inr tt, MkStepState (st_n s) (st_cp s) (st_log s ++ [e])).
Definition get_cp : Step graphStepCheckpoint := fun s => (inr (st_cp s), s).
Definition update (f : graphStepCheckpoint -> graphStepCheckpoint) : Step unit := fun s =>
  (inr tt, MkStepState (st_n s) (f (st_cp s)) (st_log s)).

(** [return empty, false, err] and [return result(), accepted, err] *)
Definition fail_empty {A} (e : step_error) : Step A := returns (MkEnd empty_result false (Some e)).
Definition finish {A} (accepted : bool) (e : option step_error) : Step A :=
  c ← get_cp; returns (MkEnd (MkIteration (cp_Output c) (cp_Traces c)) accepted e).

Context (h : step_host) (task : AgentTask) (step : TaskStep) (inputs : list (string * string)).

Definition persist : Step (option step_error) :=
  c ← get_cp;
  match enc_checkpoint c with
  | None => mret (Some (SSave None))
  | Some _ =>
      failed ← consult (sh_save h);
      _ ← note (EvSave c (is_none (failed : option failure)));
      mret ((fun e => SSave (Some e)) <$> (failed : option failure))
  end.
(** [if err := persist(ctx); err != nil { return result(), false, err }] *)
Definition persist_or_return : Step unit :=
  e ← persist; match (e : option step_error) with Some e => finish false (Some e) | None => mret tt end.

Definition is_read : bool := String.eqb (s_Kind step) "read".
Definition is_action : bool := String.eqb (s_Kind step) "action".
Definition is_finalize : bool := String.eqb (s_Kind step) "finalize".
Definition plain_finalize : bool := is_finalize && bool_decide (s_Tools step = []).
Definition context_input : step_input :=
  MkStepInput (List.filter (fun p => negb (String.eqb p.1 (s_ID step))) (sh_goals h)) inputs.

(** ** The run *)

(** The call that was under way is not a mere read. *)
Definition effectful (registry : ToolRegistry (Handler := H)) (pending : option ContentBlock) : bool :=
  match pending with Some b => negb (IsReadOnly (str (bName b)) registry) | None => false end.
(** A call with effects that ended in an error: whether it had them is unknown. *)
Definition failed_effect (pending : option ContentBlock) (effect : bool) (e : RunCheckpoint) : bool :=
  match pending, last (rc_Traces e) with
  | Some b, Some t => String.eqb (rc_Phase e) "tool_completed" && effect
                      && String.eqb (t_BlockID t) (ID_ b) && t_Error t
  | _, _ => false
  end.
(** [OnCheckpoint]: what the loop gets back. *)
Definition on_checkpoint (registry : ToolRegistry (Handler := H)) (traces : list ToolTrace)
    (receipts : list ToolExecutionResult) (e : RunCheckpoint) : Step (option step_error) :=
  c ← get_cp;
  let effect := effectful registry (PendingTool c) in
  _ ← note (EvOffer (PendingTool c) effect e);
  _ ← update (fun c => set_pending_tool (rc_Pending e) (set_evidence (traces ++ rc_Traces e)
                (receipts ++ omap t_Receipt (rc_Traces e)) (set_output (rc_Text e) (set_phase (rc_Phase e) c))));
  if failed_effect (PendingTool c) effect e then
    _ ← update (fun now => set_phase "reconciliation" (set_pending_tool (PendingTool c) now));
    failed ← persist;
    mret (Some (SUncertain match (failed : option step_error) with Some (SSave e) => e | _ => None end))
  else persist.
Fixpoint drive (registry : ToolRegistry (Handler := H)) (traces : list ToolTrace)
    (receipts : list ToolExecutionResult) (r : run) : Step (option RunResult * option step_error) :=
  match r with
  | Finished out err => mret (out, err)
  | Offers e continue =>
      answer ← on_checkpoint registry traces receipts e;
      drive registry traces receipts (continue answer)
  end.

Fixpoint check_tools (l : list string) : option step_error :=
  match l with
  | [] => None
  | name :: l =>
      let read_only := IsReadOnly name (sh_registry h) in
      if is_read && negb read_only then Some (SEffectful name)
      else if is_finalize && read_only then Some (SResearch name)
      else check_tools l
  end.
Definition closed_notice : bytes := [chr 10] ++ lit "External research is closed. Available tools can only read this task's saved evidence; a missing cached source cannot be fetched. Resolve only gaps supported by saved data and retain any unresolved requirements.".
Definition BackgroundParallelReads : Z := 3.
Definition graphToolTurnLimit : Z := if Z.leb (sh_max_turns h) 0 then 15 else sh_max_turns h.

Definition research_closed : Step bool :=
  match (if is_read then TaskResearchDeadline task (sh_reserve h) else None) with
  | None => mret false
  | Some deadline => now ← consult (sh_now h); mret (Z.leb deadline (now : time))
  end.
Definition create_session : Step unit :=
  c ← get_cp;
  if String.eqb (cp_SessionID c) "" then
    created ← consult (sh_session h);
    match (created : res failure string) with
    | Err e => fail_empty (SSession e)
    | Ok id => _ ← note (EvSession id); update (set_session id)
    end
  else mret tt.
Definition step_prompt (name : string) (missing : option failure -> step_error) : Step (string + step_error) :=
  p ← consult (fun n => sh_prompt h n name);
  match (p : res failure string) with
  | Err e => mret (inr (missing (Some e)))
  | Ok p => if blank p then mret (inr (missing None)) else mret (inl p)
  end.

(** The registry, the tools, the prompt and the deadline of the run. *)
Definition prepare_run (prompt : string)
    : Step (ToolRegistry (Handler := H) * list string * string * option time) :=
  let registry := SubsetForNames (s_Tools step) (sh_registry h) in
  closed ← research_closed;
  if (closed : bool) then
    let registry := EvidenceOnlySubset registry in
    mret (registry, Name <$> Definitions registry, String.append prompt (str closed_notice), None)
  else mret (registry, s_Tools step, prompt, if is_read then TaskResearchDeadline task (sh_reserve h) else None).

(** The candidate as the loop left it, with the report's markers filled. *)
Definition take_candidate : Step unit :=
  c ← get_cp;
  if blank (cp_Output c) then finish false (Some SNoCandidate)
  else
    _ ← (if Z.eqb (ExecutorVersion task) 2 && (is_read || plain_finalize) then
           rendered ← consult (fun n => renderGraphReport (sh_observe h n) (lit (cp_Output c)));
           match (rendered : res failure bytes) with
           | Err e =>
               _ ← update (fun c => set_reason (String.append "Correct the report marker: " (Error e))
                             (set_phase "rejected" (set_review true (ReviewAttempts c) c)));
               saved ← persist; finish false saved
           | Ok report => update (set_output (str report))
           end
         else mret tt);
    _ ← update (fun c => set_pending_tool None (set_phase "verification" (set_review true (ReviewAttempts c) c)));
    persist_or_return.

Definition work : Step unit :=
  c ← get_cp;
  if negb (Nat.eqb (length (DefinitionsForNames (s_Tools step) (sh_registry h))) (length (s_Tools step)))
  then fail_empty STools
  else match check_tools (s_Tools step) with
  | Some e => fail_empty e
  | None =>
      got ← step_prompt "background-graph-step" SPrompt;
      match (got : string + step_error) with
      | inr e => fail_empty e
      | inl prompt =>
          _ ← create_session;
          _ ← update (set_phase "executing");
          _ ← persist_or_return;
          current ← get_cp;
          let previous := if is_read && negb (String.eqb (LastCandidate current) "")
                          then LastCandidate current else cp_Output current in
          prepared ← prepare_run prompt;
          let '(registry, allowed, prompt, deadline) := (prepared : _ * _ * _ * _) in
          let request := MkRunRequest (cp_SessionID current) prompt registry allowed
            (if is_read then BackgroundParallelReads else 0) deadline graphToolTurnLimit
            (modelRoleForTask task) context_input previous (ReviewReason current) in
          loop ← consult (fun n => sh_run h n request);
          _ ← note (EvRun request);
          finished ← drive registry (cp_Traces c) (cp_Receipts c) (loop : run);
          let '(out, err) := (finished : _ * _) in
          _ ← match (out : option RunResult) with
              | Some o => update (fun now => set_evidence (cp_Traces c ++ run_Traces o) (cp_Receipts now)
                                    (set_output (str (clean_text (run_Text o))) now))
              | None => mret tt
              end;
          match (err : option step_error) with
          | Some e => finish false (Some e)
          | None => take_candidate
          end
      end
  end.

(** ** The review *)

(** The reviewer's text is one JSON value with a verdict. *)
Definition step_verdict (r : CompletionResponse) : option (bool * string) :=
  j ← Members (List.concat (Text <$> List.filter (is_type "text") (p_Content r)));
  if is_object j || is_null j then
    accepted ← decode_into None as_bool_pointer "accepted" j;
    reason ← decode_string "reason" j;
    accepted ← accepted : option bool;
    Some (accepted, reason)
  else None.
Definition receipt_ok (r : ToolExecutionResult) : bool := negb (tr_IsError r) && negb (blank (tr_Output r)).
Definition last_read : bool := is_read && Z.ltb 0 (s_MaxAttempts step) && Z.leb (s_MaxAttempts step) (s_Attempts step).

(** A verdict on the step is saved before it counts. *)
Definition settle (accepted : bool) : Step unit :=
  _ ← update (set_phase (if accepted then "verified" else "rejected"));
  _ ← persist_or_return;
  finish accepted None.
Definition unverified (gaps : string) : Step unit :=
  update (fun c => set_output (unverifiedStepResult (cp_Output c) gaps) c).

Definition review_candidate : Step unit :=
  got ← step_prompt "background-graph-review" (fun _ => SVerification None);
  match (got : string + step_error) with
  | inr e => finish false (Some e)
  | inl prompt =>
      _ ← update (fun c => set_review (CandidateReady c) (ReviewAttempts c + 1) c);
      _ ← persist_or_return;
      c ← get_cp;
      let request := MkReviewRequest prompt context_input (cp_Output c) (cp_Receipts c) in
      answer ← consult (fun n => sh_review h n request);
      _ ← note (EvReview request answer);
      match (answer : res failure (option CompletionResponse)) with
      | Err e => finish false (Some (SVerification (Some e)))
      | Ok None => finish false (Some (SVerification None))
      | Ok (Some r) =>
          if String.eqb (p_StopReason r) "max_tokens" then finish false (Some (SVerification None))
          else match step_verdict r with
          | None => finish false (Some (SVerification None))
          | Some (accepted, reason) =>
              _ ← update (set_reason reason);
              if negb accepted && (last_read || is_action)
              then _ ← unverified reason; settle true
              else settle accepted
          end
      end
  end.

Definition assembled : bool :=
  plain_finalize && sh_final_owned h
  && match AcceptanceCriteria task with Some c => negb (blank c) | None => false end.
Definition no_receipt : string := "no successful operation receipt; the requested operation was not performed".
Definition judge_candidate : Step unit :=
  if assembled then
    _ ← update (set_phase "assembled"); _ ← persist_or_return; finish true None
  else
    c ← get_cp;
    if is_action && negb (existsb receipt_ok (cp_Receipts c))
    then _ ← unverified no_receipt; settle true
    else review_candidate.

(** ** The attempt *)

(** A rejected candidate is worked on again, from itself and its review. *)
Definition reopen (c : graphStepCheckpoint) : graphStepCheckpoint :=
  if String.eqb (cp_Phase c) "rejected" && (is_read || plain_finalize) then
    let c := if is_read && CandidateReady c && negb (blank (cp_Output c))
             then set_candidate (cp_Output c) (ReviewReason c) c else c in
    set_session "" (set_review false 0 c)
  else c.

Definition attempt : Step unit :=
  c ← get_cp;
  if is_some (PendingTool c) && negb is_read then fail_empty (SUncertain None)
  else if negb (sh_model h) then fail_empty SModel
  else
    _ ← update reopen;
    c ← get_cp;
    if CandidateReady c && String.eqb (cp_Phase c) "verified" then finish true None
    else if CandidateReady c && Z.leb 3 (ReviewAttempts c) then finish false (Some (SVerification None))
    else
      _ ← (if CandidateReady c then mret tt else work);
      judge_candidate.

Definition ExecuteGraphStep : step_end * list step_event :=
  if negb (sh_deps h) then (MkEnd empty_result false (Some SDependencies), [])
  else match (match s_Checkpoint step with JNull => Some no_checkpoint | j => dec_checkpoint j end) with
  | None => (MkEnd empty_result false (Some SCheckpoint), [])
  | Some c =>
      match attempt (MkStepState 0 c []) with
      | (inl r, s) => (r, st_log s)
      | (inr _, s) => (MkEnd empty_result false None, st_log s)
      end
  end.
End step.

(** * Properties *)

Section step_properties.
Context {H : Type} (h : step_host (H := H)) (task : AgentTask) (step : TaskStep) (inputs : list (string * string)).
#[local] Abbreviation event := (step_event (H := H)).
#[local] Abbreviation state := (step_state (H := H)).

(** ** Steps that only end an attempt short *)

(** [m] never ends the attempt as accepted. *)
Definition unaccepted {A} (m : Step (H := H) A) : Prop :=
  forall s e s', m s = (inl e, s') -> end_Accepted e = false.
Lemma unaccepted_bind {A B} (m : Step (H := H) A) (k : A -> Step B) :
  unaccepted m -> (forall a, unaccepted (k a)) -> unaccepted (m ≫= k).
Proof.
  intros Hm Hk s e s'. unfold mbind, step_bind. destruct (m s) as [[r|a] s1] eqn:E; [|apply Hk].
  intros [= <- <-]. by eapply Hm.
Qed.
Lemma unaccepted_if {A} (b : bool) (m n : Step (H := H) A) : unaccepted m -> unaccepted n -> unaccepted (if b then m else n).
Proof. by destruct b. Qed.
Lemma unaccepted_inr {A} (m : Step (H := H) A) : (forall s, exists a s', m s = (inr a, s')) -> unaccepted m.
Proof. intros Hm s e s' E. destruct (Hm s) as (a & s1 & E1). congruence. Qed.
Lemma unaccepted_finish {A} e : unaccepted (finish (A := A) false e).
Proof. by intros s r s' [= <- <-]. Qed.
Lemma unaccepted_fail {A} e : unaccepted (fail_empty (A := A) e).
Proof. by intros s r s' [= <- <-]. Qed.
Lemma persist_returns s : exists e s', persist h s = (inr e, s').
Proof. unfold persist, mbind, step_bind, get_cp. destruct (enc_checkpoint (st_cp s)); simpl; eauto. Qed.
#[local] Hint Resolve unaccepted_finish unaccepted_fail : core.
Ltac short := repeat first
  [ assumption | apply unaccepted_finish | apply unaccepted_fail
  | apply unaccepted_inr; intros ?; by eauto using persist_returns
  | apply unaccepted_bind; [|intros ?]
  | match goal with |- unaccepted (match ?x with _ => _ end) => destruct x end ].

Lemma on_checkpoint_returns registry traces receipts e s :
  exists a s', on_checkpoint h registry traces receipts e s = (inr a, s').
Proof.
  unfold on_checkpoint, mbind, step_bind, get_cp, note, update.
  destruct (failed_effect (PendingTool (st_cp s)) (effectful registry (PendingTool (st_cp s))) e); simpl;
    match goal with |- context [persist h ?s1] => destruct (persist_returns s1) as (x & s2 & ->) end; simpl; eauto.
Qed.
Lemma drive_returns registry traces receipts r : forall s, exists a s', drive h registry traces receipts r s = (inr a, s').
Proof.
  induction r as [out err|e k IH]; intros s; cbn [drive]; [by eexists _, _|].
  unfold mbind, step_bind. destruct (on_checkpoint_returns registry traces receipts e s) as (a & s' & ->). apply IH.
Qed.
Lemma work_short : unaccepted (work h task step inputs).
Proof.
  unfold work, step_prompt, create_session, persist_or_return, prepare_run, research_closed, take_candidate.
  short. apply unaccepted_inr. intros ?. apply drive_returns.
Qed.

(** ** Steps that are accepted *)

Definition result_of (c : graphStepCheckpoint) : IterationResult := MkIteration (cp_Output c) (cp_Traces c).

(** What an accepted attempt rests on, with what it did. *)
Inductive justified (loaded : graphStepCheckpoint) : IterationResult -> list event -> Prop :=
| already_verified :
    CandidateReady loaded = true -> cp_Phase loaded = "verified"%string ->
    justified loaded (result_of loaded) []
| left_to_the_task l c :
    assembled h task step = true -> cp_Phase c = "assembled"%string ->
    justified loaded (result_of c) (l ++ [EvSave c true])
| passed_review l c q n r reason :
    sh_review h n q = Ok (Some r) -> step_verdict r = Some (true, reason) ->
    p_StopReason r <> "max_tokens"%string ->
    rv_Candidate q = cp_Output c -> rv_Receipts q = cp_Receipts c ->
    (is_action step = true -> exists x, x ∈ cp_Receipts c /\ receipt_ok x = true) ->
    cp_Phase c = "verified"%string ->
    justified loaded (result_of c) (l ++ [EvReview q (Ok (Some r)); EvSave c true])
| marked_unverified l c candidate gaps :
    is_action step = true \/ last_read step = true ->
    cp_Output c = unverifiedStepResult candidate gaps -> cp_Phase c = "verified"%string ->
    justified loaded (result_of c) (l ++ [EvSave c true]).

Definition ends_justified (loaded : graphStepCheckpoint) (r : (step_end + unit) * state) : Prop :=
  match fst r with
  | inl e => end_Accepted e = true -> justified loaded (end_Result e) (st_log (snd r)) /\ end_Err e = None
  | inr _ => False
  end.

Lemma persist_or_return_spec s : match persist_or_return h s with
  | (inl e, _) => end_Accepted e = false
  | (inr _, s') => st_cp s' = st_cp s /\ st_log s' = st_log s ++ [EvSave (st_cp s) true]
  end.
Proof.
  unfold persist_or_return, persist, mbind, step_bind, get_cp. destruct (enc_checkpoint (st_cp s)); [|done].
  unfold consult, note, mret, step_ret. cbn. by destruct (sh_save h (st_n s)).
Qed.

(** What is saved and then returned as accepted is justified when the save is. *)
Lemma finish_saved loaded s :
  justified loaded (result_of (st_cp s)) (st_log s ++ [EvSave (st_cp s) true]) ->
  ends_justified loaded ((_ ← persist_or_return h; finish true None) s).
Proof.
  intros Hj. unfold mbind, step_bind. pose proof (persist_or_return_spec s) as Hp.
  destruct (persist_or_return h s) as [[e|[]] s']; [unfold ends_justified; simpl; congruence|].
  destruct Hp as [Hc Hl]. unfold ends_justified, finish, mbind, step_bind, get_cp, returns. simpl.
  intros _. by rewrite Hc, Hl.
Qed.

Lemma attempt_ends_after {A} loaded (m : Step (H := H) A) (k : A -> Step unit) (s : state) :
  unaccepted m -> (forall a s', m s = (inr a, s') -> ends_justified loaded (k a s')) ->
  ends_justified loaded ((m ≫= k) s).
Proof.
  intros Hm Hk. unfold mbind, step_bind. destruct (m s) as [[e|a] s1] eqn:E; [|by apply Hk].
  unfold ends_justified. simpl. rewrite (Hm _ _ _ E). done.
Qed.

Lemma review_justified loaded s :
  (is_action step = true -> exists x, x ∈ cp_Receipts (st_cp s) /\ receipt_ok x = true) ->
  ends_justified loaded (review_candidate h step inputs s).
Proof.
  intros Hr. unfold review_candidate. apply attempt_ends_after; [unfold step_prompt; short|].
  intros got s1 E1. assert (st_cp s1 = st_cp s) as Hc1.
  { unfold step_prompt, mbind, step_bind, consult in E1. repeat case_match; by injection E1 as <- <-. }
  destruct got as [prompt|e]; [|done].
  apply attempt_ends_after; [short|]. intros [] s2 [= <-].
  apply attempt_ends_after; [unfold persist_or_return; short|]. intros [] s3 E3.
  pose proof (persist_or_return_spec (MkStepState (st_n s1)
    (GraphStep.set_review (CandidateReady (st_cp s1)) (ReviewAttempts (st_cp s1) + 1) (st_cp s1)) (st_log s1))) as Hp.
  rewrite E3 in Hp. destruct Hp as [Hc3 _]. cbn in Hc3. rewrite Hc1 in Hc3.
  unfold mbind at 1, step_bind at 1, get_cp at 1. cbv zeta.
  unfold mbind at 1, step_bind at 1, consult. unfold mbind at 1, step_bind at 1, note at 1. cbn [st_n st_cp st_log].
  destruct (sh_review h (st_n s3) _) as [[r|]|e] eqn:Ea; [|done..].
  destruct (String.eqb (p_StopReason r) "max_tokens") eqn:Em; [done|]. apply String.eqb_neq in Em.
  destruct (step_verdict r) as [[accepted reason]|] eqn:Ev; [|done].
  unfold mbind at 1, step_bind at 1, update at 1. cbn [st_n st_cp st_log].
  destruct (negb accepted && (last_read step || is_action step)) eqn:Eu.
  - unfold mbind at 1, step_bind at 1, unverified, update at 1. cbn [st_n st_cp st_log].
    unfold settle. unfold mbind at 1, step_bind at 1, update at 1. cbn [st_n st_cp st_log].
    apply finish_saved. cbn [st_n st_cp st_log]. eapply marked_unverified; [|reflexivity|reflexivity].
    apply andb_true_iff in Eu as [_ [?|?]%orb_true_iff]; auto.
  - unfold settle. unfold mbind at 1, step_bind at 1, update at 1. cbn [st_n st_cp st_log].
    destruct accepted; [|apply attempt_ends_after; [unfold persist_or_return; short|]; by intros ? ? _].
    apply finish_saved. cbn [st_n st_cp st_log]. rewrite <- app_assoc.
    eapply passed_review; [exact Ea|exact Ev|exact Em|reflexivity|reflexivity| |reflexivity].
    cbn. rewrite Hc3. cbn. exact Hr.
Qed.

Lemma judge_justified loaded s : ends_justified loaded (judge_candidate h task step inputs s).
Proof.
  unfold judge_candidate. destruct (assembled h task step) eqn:Ea.
  - unfold mbind at 1, step_bind at 1, update at 1. apply finish_saved. by apply left_to_the_task.
  - unfold mbind at 1, step_bind at 1, get_cp at 1.
    destruct (is_action step && negb (existsb receipt_ok (cp_Receipts (st_cp s)))) eqn:Er.
    + apply andb_true_iff in Er as [Er _].
      unfold mbind at 1, step_bind at 1, unverified, update at 1. cbn [st_n st_cp st_log].
      unfold settle. unfold mbind at 1, step_bind at 1, update at 1. cbn [st_n st_cp st_log].
      apply finish_saved. cbn [st_n st_cp st_log]. eapply marked_unverified; [by left|done|done].
    + apply review_justified. intros Hact. rewrite Hact, andb_true_l, negb_false_iff in Er.
      apply existsb_exists in Er as (x & Hx%list_elem_of_In & Hok). eauto.
Qed.

Lemma reopen_verified c : CandidateReady (reopen step c) = true -> cp_Phase (reopen step c) = "verified"%string ->
  reopen step c = c.
Proof. unfold reopen. by case_match. Qed.

Lemma attempt_justified loaded : ends_justified loaded (attempt h task step inputs (MkStepState 0 loaded [])).
Proof.
  unfold attempt. unfold mbind at 1, step_bind at 1, get_cp at 1. cbn [st_cp].
  destruct (is_some _ && _); [done|]. destruct (negb _); [done|].
  unfold mbind at 1, step_bind at 1, update at 1. unfold mbind at 1, step_bind at 1, get_cp at 1. cbn [st_n st_cp st_log].
  destruct (CandidateReady (reopen step loaded) && String.eqb (cp_Phase (reopen step loaded)) "verified") eqn:Ev.
  - apply andb_true_iff in Ev as [Hr Hp%String.eqb_eq].
    unfold ends_justified, finish, mbind, step_bind, get_cp, returns. simpl. intros _.
    pose proof (reopen_verified loaded Hr Hp) as Hl. rewrite Hl in *. split; [by apply already_verified|done].
  - destruct (CandidateReady (reopen step loaded) && Z.leb 3 _); [done|].
    apply attempt_ends_after; [destruct (CandidateReady _); [by intros ??? [=]|apply work_short]|].
    intros [] s' _. apply judge_justified.
Qed.

(** C11: An attempt of a step (runtime/handler/graph_step.go: ExecuteGraphStep)
    that reports the step done, whatever the loop, the reviewer, the clock and
    the store answer, rests on one of four grounds, saved before it is
    reported: the checkpoint already held a verified candidate, and nothing at
    all was done again; the tool-less finalizer's report was assembled for a
    task whose own acceptance is still to be judged; a complete answer of the
    reviewer, one JSON value with [accepted: true], about exactly the output
    and the receipts that are kept (an action among them with a successful
    receipt); or the output is an action's or a last read's and carries the
    mark of an unverified result. *)
Theorem accepted_step_was_judged : forall out log,
  ExecuteGraphStep h task step inputs = (MkEnd out true None, log) ->
  exists loaded, match s_Checkpoint step with JNull => Some no_checkpoint | j => dec_checkpoint j end = Some loaded
    /\ justified loaded out log.
Proof.
  intros out log. unfold ExecuteGraphStep. destruct (negb (sh_deps h)); [done|].
  destruct (match s_Checkpoint step with JNull => _ | _ => _ end) as [c|]; [|done].
  pose proof (attempt_justified c) as Hj. destruct (attempt _ _ _ _ _) as [[e|u] s]; [|done].
  intros [= -> <-]. exists c. split; [done|]. by apply Hj.
Qed.

(** ** What an attempt adds to its log *)

Definition adds {A} (P : event -> Prop) (m : Step (H := H) A) : Prop :=
  forall s r s', m s = (r, s') -> exists l, st_log s' = st_log s ++ l /\ Forall P l.
Lemma adds_bind {A B} P (m : Step (H := H) A) (k : A -> Step B) :
  adds P m -> (forall a, adds P (k a)) -> adds P (m ≫= k).
Proof.
  intros Hm Hk s r s'. unfold mbind, step_bind. destruct (m s) as [[e|a] s1] eqn:E.
  - intros [= <- <-]. by eapply Hm.
  - intros E'. destruct (Hm _ _ _ E) as (l1 & Hl1 & H1), (Hk _ _ _ _ E') as (l2 & Hl2 & H2).
    exists (l1 ++ l2). by rewrite Hl2, Hl1, app_assoc, Forall_app.
Qed.
Lemma adds_nothing {A} P (m : Step (H := H) A) : (forall s r s', m s = (r, s') -> st_log s' = st_log s) -> adds P m.
Proof. intros Hm s r s' E. exists []. by rewrite (Hm _ _ _ E), app_nil_r. Qed.
Lemma adds_note P e : P e -> adds P (note (H := H) e).
Proof. intros He s r s' [= <- <-]. exists [e]. auto. Qed.
Lemma adds_ret {A} P (a : A) : adds P (mret a).
Proof. apply adds_nothing. by intros ??? [= <- <-]. Qed.
Lemma adds_returns {A} P e : adds P (returns (A := A) e).
Proof. apply adds_nothing. by intros ??? [= <- <-]. Qed.
Lemma adds_consult {A} P (f : nat -> A) : adds P (consult f).
Proof. apply adds_nothing. by intros ??? [= <- <-]. Qed.
Lemma adds_get P : adds P get_cp.
Proof. apply adds_nothing. by intros ??? [= <- <-]. Qed.
Lemma adds_update P f : adds P (update f).
Proof. apply adds_nothing. by intros ??? [= <- <-]. Qed.
#[local] Hint Resolve adds_ret adds_returns adds_consult adds_get adds_update : core.

(** Everything but an offer of the loop; what is saved can be saved. *)
Definition quiet (e : event) : Prop :=
  match e with EvOffer _ _ _ => False | EvSave c _ => is_Some (enc_checkpoint c) | _ => True end.
Definition savable (e : event) : Prop :=
  match e with EvSave c _ => is_Some (enc_checkpoint c) | _ => True end.

Lemma persist_adds (P : event -> Prop) :
  (forall c ok, is_Some (enc_checkpoint c) -> P (EvSave c ok)) -> adds P (persist h).
Proof.
  intros HP s r s'. unfold persist. unfold mbind at 1, step_bind at 1, get_cp at 1.
  destruct (enc_checkpoint (st_cp s)) eqn:E; [|by intros [= <- <-]; exists []; rewrite app_nil_r].
  unfold mbind, step_bind, consult, note, mret, step_ret. intros [= <- <-]. eexists; split; [done|].
  constructor; [|done]. apply HP. rewrite E. eauto.
Qed.
Lemma step_persist_quiet : adds quiet (persist h).
Proof. by apply persist_adds. Qed.
Ltac quietly := repeat first
  [ solve [auto] | apply step_persist_quiet | apply adds_note; exact I | apply adds_bind; [|intros ?]
  | match goal with |- adds _ (match ?x with _ => _ end) => destruct x end ].

Lemma persist_or_return_quiet : adds quiet (persist_or_return h).
Proof. unfold persist_or_return, finish. quietly. Qed.
Lemma session_quiet : adds quiet (create_session h).
Proof. unfold create_session, fail_empty. quietly. Qed.
Lemma prompt_quiet name missing : adds quiet (step_prompt h name missing).
Proof. unfold step_prompt. quietly. Qed.
Lemma prepare_quiet prompt : adds quiet (prepare_run h task step prompt).
Proof. unfold prepare_run, research_closed. quietly. Qed.
#[local] Hint Resolve persist_or_return_quiet session_quiet prompt_quiet prepare_quiet : core.
Lemma take_quiet : adds quiet (take_candidate h task step).
Proof. unfold take_candidate, finish. quietly. Qed.
Lemma judge_quiet : adds quiet (judge_candidate h task step inputs).
Proof. unfold judge_candidate, review_candidate, settle, unverified, finish. quietly. Qed.

(** ** A call whose outcome is unknown *)

(** The loop stops at a checkpoint that could not be taken. *)
Fixpoint obedient (r : run) : Prop :=
  match r with
  | Finished _ _ => True
  | Offers _ k => (forall e, exists out err, k (Some e) = Finished out (Some err)) /\ obedient (k None)
  end.

Definition unknown_outcome (e : event) : bool :=
  match e with EvOffer pending effect c => failed_effect pending effect c | _ => false end.
Definition harmless (e : event) : Prop := unknown_outcome e = false /\ savable e.
Definition is_save (e : event) : Prop := match e with EvSave c _ => is_Some (enc_checkpoint c) | _ => False end.
(** What the next attempt starts from. *)
Definition saved_of (e : event) : option graphStepCheckpoint :=
  match e with EvSave c true => Some c | _ => None end.
Definition last_saved (l : list event) : option graphStepCheckpoint := last (omap saved_of l).

Lemma last_saved_snoc l e : last_saved (l ++ [e]) = match saved_of e with Some c => Some c | None => last_saved l end.
Proof.
  unfold last_saved. rewrite omap_app. cbn. destruct (saved_of e); [by rewrite last_snoc|by rewrite app_nil_r].
Qed.
Lemma quiet_harmless e : quiet e -> harmless e.
Proof. by destruct e. Qed.

(** The log ends with the report of such a call and the attempt to save it. *)
Definition stopped (log : list event) : Prop := exists pre pending effect e tail,
  log = pre ++ EvOffer pending effect e :: tail /\ failed_effect pending effect e = true
  /\ Forall harmless pre /\ Forall is_save tail
  /\ exists c b, last_saved log = Some c /\ PendingTool c = Some b /\ pending = Some b.

Definition in_step (s : state) : Prop := last_saved (st_log s) = Some (st_cp s) /\ Forall harmless (st_log s).

Lemma persist_cases s : exists a s', persist h s = (inr a, s') /\ st_cp s' = st_cp s /\
  (a = None /\ st_log s' = st_log s ++ [EvSave (st_cp s) true] /\ is_Some (enc_checkpoint (st_cp s))
   \/ is_Some a /\ exists tail, st_log s' = st_log s ++ tail /\ Forall is_save tail /\ omap saved_of tail = []).
Proof.
  unfold persist. unfold mbind at 1, step_bind at 1, get_cp at 1.
  destruct (enc_checkpoint (st_cp s)) eqn:E.
  - unfold mbind, step_bind, consult, note, mret, step_ret. do 2 eexists. split; [reflexivity|]. cbn. split; [done|].
    destruct (sh_save h (st_n s)); cbn; [right|left; by eauto].
    split; [eauto|]. eexists; split; [reflexivity|]. split; [|done]. constructor; [|done]. simpl. rewrite E. eauto.
  - do 2 eexists. split; [reflexivity|]. split; [done|]. right. split; [eauto|]. exists []. by rewrite app_nil_r.
Qed.

Lemma save_harmless e : is_save e -> harmless e.
Proof. by destruct e. Qed.
Lemma last_saved_app l tail : omap saved_of tail = [] -> last_saved (l ++ tail) = last_saved l.
Proof. intros Ht. unfold last_saved. by rewrite omap_app, Ht, app_nil_r. Qed.

(** One checkpoint: the run goes on in step, or is told to stop. *)
Lemma on_checkpoint_cases registry traces receipts e s : in_step s ->
  exists a s', on_checkpoint h registry traces receipts e s = (inr a, s') /\
  (a = None /\ in_step s' \/ is_Some a /\ (Forall harmless (st_log s') \/ stopped (st_log s'))).
Proof.
  intros [Hls Hh]. unfold on_checkpoint. unfold mbind at 1, step_bind at 1, get_cp at 1. cbv zeta.
  unfold mbind at 1, step_bind at 1, note at 1. unfold mbind at 1, step_bind at 1, update at 1. cbn [st_n st_cp st_log].
  set (effect := effectful registry (PendingTool (st_cp s))). set (offer := EvOffer (PendingTool (st_cp s)) effect e).
  destruct (failed_effect (PendingTool (st_cp s)) effect e) eqn:Ef.
  - unfold mbind at 1, step_bind at 1, update at 1. unfold mbind, step_bind. cbn [st_n st_cp st_log].
    match goal with |- context [persist h ?s1] => destruct (persist_cases s1) as (a & s2 & -> & Hc & Hl) end.
    do 2 eexists. split; [reflexivity|]. right. split; [eauto|]. right. cbn [st_cp st_log] in Hc, Hl.
    assert (exists b, PendingTool (st_cp s) = Some b) as [b Hb]
      by (destruct (PendingTool (st_cp s)); [eauto|done]).
    destruct Hl as [(_ & Hl & He)|(_ & tail & Hl & Ht & Ho)].
    + exists (st_log s), (PendingTool (st_cp s)), effect, e. eexists. rewrite Hl, <- app_assoc. split; [reflexivity|].
      split; [done|]. split; [done|]. split; [by constructor|]. eexists _, b.
      split; [by rewrite app_assoc, last_saved_snoc|]. by rewrite <- Hb.
    + exists (st_log s), (PendingTool (st_cp s)), effect, e, tail. rewrite Hl, <- app_assoc. split; [reflexivity|].
      split; [done|]. split; [done|]. split; [done|]. exists (st_cp s), b.
      split; [|done]. by rewrite app_assoc, last_saved_app, last_saved_snoc.
  - match goal with |- context [persist h ?s1] => destruct (persist_cases s1) as (a & s2 & -> & Hc & Hl) end.
    cbn [st_cp st_log] in Hc, Hl. do 2 eexists. split; [reflexivity|].
    assert (Forall harmless (st_log s ++ [offer])) as Hh'
      by (apply Forall_app; split; [done|constructor; [by split|done]]).
    destruct Hl as [(-> & Hl & He)|(Ha & tail & Hl & Ht & Ho)].
    + left. split; [done|]. split; [by rewrite Hl, last_saved_snoc, Hc|]. rewrite Hl. apply Forall_app. split; [done|].
      constructor; [by split|done].
    + right. split; [done|]. left. rewrite Hl. apply Forall_app. split; [done|].
      eapply Forall_impl; [exact Ht|apply save_harmless].
Qed.

Lemma drive_cases registry traces receipts r : obedient r -> forall s, in_step s ->
  exists out err s', drive h registry traces receipts r s = (inr (out, err), s') /\
  (Forall harmless (st_log s') \/ is_Some err /\ stopped (st_log s')).
Proof.
  induction r as [out err|e k IH]; intros Ho s Hs.
  - do 3 eexists. split; [reflexivity|]. left. apply Hs.
  - destruct Ho as [Hstop Hgo]. cbn [drive]. unfold mbind, step_bind.
    destruct (on_checkpoint_cases registry traces receipts e s Hs) as (a & s1 & -> & [(-> & H1)|([x ->] & H1)]).
    + by apply (IH None).
    + destruct (Hstop x) as (out & err & ->). do 3 eexists. split; [reflexivity|].
      destruct H1 as [H1|H1]; [by left|right; by eauto].
Qed.

Lemma bind_cases {A B} (m : Step (H := H) A) (k : A -> Step B) s r s' : (m ≫= k) s = (r, s') ->
  (exists e, m s = (inl e, s') /\ r = inl e) \/ exists a s1, m s = (inr a, s1) /\ k a s1 = (r, s').
Proof.
  unfold mbind, step_bind. destruct (m s) as [[e|a] s1]; [intros [= <- <-]; by left; exists e|by right; exists a, s1].
Qed.

(** How an attempt can end: every call's outcome is known, or it fails. *)
Definition settled {A} (r : (step_end + A) * state) : Prop :=
  Forall harmless (st_log (snd r)) \/
  stopped (st_log (snd r)) /\ exists e, fst r = inl e /\ end_Accepted e = false /\ is_Some (end_Err e).

Lemma adds_harmless {A} (m : Step (H := H) A) s r s' :
  adds quiet m -> Forall harmless (st_log s) -> m s = (r, s') -> Forall harmless (st_log s').
Proof.
  intros Hm Hs E. destruct (Hm _ _ _ E) as (l & -> & Hl). apply Forall_app. split; [done|].
  eapply Forall_impl; [exact Hl|apply quiet_harmless].
Qed.
(** A quiet part before the rest. *)
Lemma settled_after {A B} (m : Step (H := H) A) (k : A -> Step B) s :
  adds quiet m -> Forall harmless (st_log s) ->
  (forall a s1, m s = (inr a, s1) -> Forall harmless (st_log s1) -> settled (k a s1)) -> settled ((m ≫= k) s).
Proof.
  intros Hm Hs Hk. destruct ((m ≫= k) s) as [r s'] eqn:E.
  destruct (bind_cases _ _ _ _ _ E) as [(e & E1 & ->)|(a & s1 & E1 & E2)].
  - left. by eapply adds_harmless.
  - rewrite <- E2. apply Hk; [done|]. by eapply adds_harmless.
Qed.
Lemma settled_quiet {A} (m : Step (H := H) A) s : adds quiet m -> Forall harmless (st_log s) -> settled (m s).
Proof. intros Hm Hs. left. destruct (m s) as [r s'] eqn:E. by eapply adds_harmless. Qed.

Lemma fail_quiet {A} e : adds quiet (fail_empty (A := A) e).
Proof. unfold fail_empty. quietly. Qed.
Lemma finish_quiet {A} ok e : adds quiet (finish (A := A) ok e).
Proof. unfold finish. quietly. Qed.
#[local] Hint Resolve fail_quiet finish_quiet take_quiet judge_quiet : core.

Lemma prepare_run_keeps prompt s a s' : prepare_run h task step prompt s = (inr a, s') ->
  st_cp s' = st_cp s /\ st_log s' = st_log s.
Proof.
  unfold prepare_run, research_closed, mbind, step_bind, consult, mret, step_ret.
  repeat case_match; intros; simplify_eq/=; done.
Qed.

Hypothesis Hobedient : forall n q, obedient (sh_run h n q).

Lemma work_settled s : Forall harmless (st_log s) -> settled (work h task step inputs s).
Proof.
  intros Hs. unfold work. apply settled_after; [auto|done|]. intros c s0 [= <- <-] _.
  destruct (negb (Nat.eqb _ _)); [apply settled_quiet; auto|].
  destruct (check_tools h step (s_Tools step)); [apply settled_quiet; auto|].
  apply settled_after; [auto|done|]. intros [prompt|e] s1 _ L1; [|apply settled_quiet; auto].
  apply settled_after; [auto|done|]. intros _ s2 _ L2.
  apply settled_after; [auto|done|]. intros [] s3 [= <-] L3.
  apply settled_after; [auto|done|]. intros [] s4 E4 L4.
  pose proof (persist_or_return_spec (MkStepState (st_n s2) (set_phase "executing" (st_cp s2)) (st_log s2))) as Hp.
  rewrite E4 in Hp. destruct Hp as [Hc4 Hl4]. cbn [st_cp st_log] in Hc4, Hl4.
  apply settled_after; [auto|done|]. intros current s5 [= <- <-] _. cbv zeta.
  apply settled_after; [auto|done|]. intros [[[registry allowed] prompt'] deadline] s6 E6 L6.
  destruct (prepare_run_keeps _ _ _ _ E6) as [Hc6 Hl6].
  apply settled_after; [auto|done|]. intros loop s7 [= <- <-] _.
  apply settled_after; [by apply adds_note|done|]. intros [] s8 [= <-] L8. cbn [st_n st_cp st_log] in *.
  match goal with |- settled ((drive _ ?a ?b ?c ?r ≫= _) ?s) =>
    destruct (drive_cases a b c r (Hobedient _ _) s) as (out & err & s9 & E9 & L9) end.
  { split; cbn [st_cp st_log]; [|done]. by rewrite last_saved_snoc, Hl6, Hl4, last_saved_snoc, Hc6, Hc4. }
  unfold mbind at 1, step_bind at 1. rewrite E9. clear E9.
  assert (forall f : option RunResult -> graphStepCheckpoint -> graphStepCheckpoint, exists s10, match out with Some o => update (f (Some o)) | None => mret () end s9 = (inr (), s10)
    /\ st_log s10 = st_log s9) as Hu by (intros f; destruct out; eexists; by split).
  unfold mbind at 1, step_bind at 1.
  match goal with |- settled (match match out with Some o => update (@?f o) | None => _ end s9 with _ => _ end) =>
    destruct (Hu (fun o => match o with Some o => f o | None => id end)) as (s10 & E10 & Hl10) end.
  cbv beta iota in E10. rewrite E10.
  destruct L9 as [L9|[[x ->] L9]].
  - destruct err; apply settled_quiet; rewrite ?Hl10; auto.
  - right. unfold finish, mbind, step_bind, get_cp, returns. cbn. rewrite Hl10. split; [done|]. eexists. by split_and!.
Qed.

Lemma attempt_settled c : settled (attempt h task step inputs (MkStepState 0 c [])).
Proof.
  unfold attempt. apply settled_after; [auto|done|]. intros c0 s0 [= <- <-] L0. cbn [st_cp].
  destruct (is_some _ && _); [apply settled_quiet; auto|]. destruct (negb _); [apply settled_quiet; auto|].
  apply settled_after; [auto|done|]. intros [] s1 [= <-] L1.
  apply settled_after; [auto|done|]. intros c1 s2 [= <- <-] _.
  destruct (_ && _); [apply settled_quiet; auto|]. destruct (_ && _); [apply settled_quiet; auto|].
  destruct (CandidateReady _); [apply settled_after; [auto|done|]; intros; apply settled_quiet; auto|].
  match goal with |- settled ((work _ _ _ _ ≫= _) ?s) => pose proof (work_settled s L1) as Hw end.
  unfold mbind, step_bind. destruct (work _ _ _ _ _) as [[e|[]] s3].
  - destruct Hw as [Hw|[Hw (e' & [= ->] & He)]]; [by left|]. right. split; [done|]. by exists e'.
  - destruct Hw as [Hw|[_ (e' & [=] & _)]]. apply settled_quiet; auto.
Qed.

Lemma last_saved_in l c : last_saved l = Some c -> EvSave c true ∈ l.
Proof.
  unfold last_saved. intros Hl. apply last_Some_elem_of in Hl. apply list_elem_of_omap in Hl as (e & He & Hs).
  destruct e as [|c' []| | |]; try done. by injection Hs as ->.
Qed.
Lemma stopped_savable log c : stopped log -> last_saved log = Some c -> is_Some (enc_checkpoint c).
Proof.
  intros (pre & pending & effect & e & tail & -> & _ & Hpre & Htail & _) Hc%last_saved_in.
  apply elem_of_app in Hc as [Hc|[Hc|Hc]%elem_of_cons]; [|done|].
  - rewrite Forall_forall in Hpre. apply (Hpre _ Hc).
  - rewrite Forall_forall in Htail. apply (Htail _ Hc).
Qed.

(** A report of such a call is the one the log stops at. *)
Lemma stopped_at log b e : stopped log -> EvOffer (Some b) true e ∈ log -> failed_effect (Some b) true e = true ->
  (exists pre tail, log = pre ++ EvOffer (Some b) true e :: tail /\ Forall is_save tail)
  /\ exists c, last_saved log = Some c /\ PendingTool c = Some b.
Proof.
  intros (pre & pending & effect & e' & tail & -> & Hf & Hpre & Htail & c & b' & Hc & Hb & ->) Hin Hfe.
  assert (Some b = Some b' /\ true = effect /\ e = e') as ([= ->] & <- & ->).
  { apply elem_of_app in Hin as [Hin|[Hin|Hin]%elem_of_cons].
    - rewrite Forall_forall in Hpre. destruct (Hpre _ Hin) as [Hu _]. cbn [unknown_outcome] in Hu. congruence.
    - by injection Hin as -> -> ->.
    - rewrite Forall_forall in Htail. by destruct (Htail _ Hin). }
  split; eauto.
Qed.
End step_properties.

(** ** The attempt after *)

(** A pending call is read back as one, or the checkpoint is refused. *)
Lemma pending_survives c b j c' : enc_checkpoint c = Some j -> PendingTool c = Some b ->
  dec_checkpoint j = Some c' -> is_Some (PendingTool c').
Proof.
  unfold enc_checkpoint. intros He Hb. rewrite Hb in He.
  destruct (mapM enc_receipt (cp_Receipts c)) as [receipts|]; [|done]. cbn [mbind option_bind] in He.
  destruct (enc_call b) as [call|] eqn:Ec; [|done]. cbn [mbind option_bind] in He. injection He as <-.
  assert (is_object call = true) as Ho
    by (unfold enc_call in Ec; destruct (raw_value _); [by injection Ec as <-|done]).
  match goal with |- dec_checkpoint (JObj ?l) = _ -> _ => set (fs := l) end.
  assert (decode_into None as_call "pending_tool" (JObj fs) = as_call None call) as Hp.
  { rewrite decode_into_members. unfold fs, text_omit, member_. cbn [List.concat].
    rewrite <- !app_assoc. member_steps. reflexivity. }
  unfold dec_checkpoint. rewrite Hp. cbn [is_object orb]. destruct call; try done. cbn [as_call].
  intros Hd. repeat (let E := fresh in apply bind_Some in Hd as (? & E & Hd)).
  injection Hd as <-. cbn [PendingTool].
  match goal with E : Some <$> _ = Some _ |- _ => apply fmap_Some in E as (? & _ & ->) end. eauto.
Qed.

(** An attempt that starts from a pending call which is not a read does
    nothing. *)
Lemma pending_refused {H : Type} (h : step_host (H := H)) task step inputs c b j :
  s_Kind step <> "read"%string -> enc_checkpoint c = Some j -> PendingTool c = Some b ->
  exists e, ExecuteGraphStep h task (set_s_Checkpoint j step) inputs = (MkEnd empty_result false (Some e), []).
Proof.
  intros Hk He Hb. unfold ExecuteGraphStep. destruct (negb (sh_deps h)); [eauto|].
  assert (is_object j = true) as Ho.
  { unfold enc_checkpoint in He. destruct (mapM _ _); [|done]. cbn [mbind option_bind] in He.
    destruct (match PendingTool c with Some _ => _ | None => _ end); [by injection He as <-|done]. }
  cbn [set_s_Checkpoint s_Checkpoint]. destruct j; try done.
  destruct (dec_checkpoint _) as [c'|] eqn:Ed; [|eauto].
  destruct (pending_survives _ _ _ _ He Hb Ed) as [b' Hb'].
  unfold attempt, mbind, step_bind, get_cp. cbn [st_cp]. rewrite Hb'. unfold is_read. cbn [set_s_Checkpoint s_Kind is_some].
  rewrite (proj2 (String.eqb_neq _ _)) by done. cbn. eauto.
Qed.

(** C10: An external action whose outcome is unknown is never run again
    (runtime/handler/graph_step.go: OnCheckpoint and the head of
    ExecuteGraphStep).  When the loop, which stops at a checkpoint that could
    not be taken, reports that a call with effects ended in an error, then
    whatever the store answers: the attempt fails, nothing follows the report
    but the attempt to save it (no other tool, no review), the last checkpoint
    saved still names the call, and every later attempt from that checkpoint
    ends at once with an error, runs nothing, asks nobody and saves nothing. *)
Theorem failed_effect_never_repeated {H : Type} (h : step_host (H := H)) task step inputs r log b e :
  (forall n q, obedient (sh_run h n q)) -> s_Kind step <> "read"%string ->
  ExecuteGraphStep h task step inputs = (r, log) ->
  EvOffer (Some b) true e ∈ log -> failed_effect (Some b) true e = true ->
  end_Accepted r = false /\ is_Some (end_Err r)
  /\ (exists pre tail, log = pre ++ EvOffer (Some b) true e :: tail /\ Forall is_save tail)
  /\ exists c j, last_saved log = Some c /\ PendingTool c = Some b /\ enc_checkpoint c = Some j
     /\ forall (h' : step_host (H := H)) task' inputs', exists err,
          ExecuteGraphStep h' task' (set_s_Checkpoint j step) inputs' = (MkEnd empty_result false (Some err), []).
Proof.
  intros Hob Hk Hx Hin Hf. unfold ExecuteGraphStep in Hx.
  destruct (negb (sh_deps h)); [injection Hx as <- <-; by apply not_elem_of_nil in Hin|].
  destruct (match s_Checkpoint step with JNull => _ | _ => _ end) as [c0|];
    [|injection Hx as <- <-; by apply not_elem_of_nil in Hin].
  pose proof (attempt_settled h task step inputs Hob c0) as [Hs|[Hs (e0 & He0 & Ha & Herr)]].
  - assert (Forall harmless log) as Hl by (destruct (attempt _ _ _ _ _) as [[x|[]] s]; by injection Hx as <- <-).
    rewrite Forall_forall in Hl. destruct (Hl _ Hin) as [Hu _]. cbn [unknown_outcome] in Hu. congruence.
  - destruct (attempt _ _ _ _ _) as [x s]. cbn [fst snd] in He0, Hs. rewrite He0 in Hx. injection Hx as <- <-.
    destruct (stopped_at _ _ _ Hs Hin Hf) as (Htail & c & Hc & Hb).
    destruct (stopped_savable _ _ Hs Hc) as [j Hj]. split_and!; [done|done|done|].
    exists c, j. split_and!; [done|done|done|]. intros h' task' inputs'. by eapply pending_refused.
Qed.

(** * Witnesses *)

Definition pay_call : ContentBlock :=
  MkBlock "tool_use" [] "call_1" (lit "pay") (lit "{}") [] "" (RText []) false.
Definition pay_trace (failed : bool) : ToolTrace :=
  MkToolTrace None 40 false "pay" "call_1" "{}" "timeout" failed (Some (MkToolResult "pay" (lit "{}") "timeout" failed)).
Definition pay_registry : ToolRegistry (Handler := unit) :=
  MkRegistry {["pay" := MkTool false (Registry.MkDefinition "pay" "" []) tt None "sync" false false ""]}%string ∅.
Definition pay_step : TaskStep := planned_step "pay" "action" "Pay the invoice" "The invoice is paid" ["pay"]%string [].
(** A loop that starts the call and reports how it ended. *)
Definition stop_on (e : option step_error) (r : run) : run :=
  match e with Some e => Finished None (Some e) | None => r end.
Definition pay_run (failed : bool) : run :=
  Offers (MkRunCheckpoint "tool_started" "" [] (Some pay_call)) (fun e => stop_on e (
    Offers (MkRunCheckpoint "tool_completed" "" [pay_trace failed] None) (fun e => stop_on e (
      Finished (Some (MkRunResult (lit "Paid.<scratchpad>x</scratchpad>") [pay_trace failed])) None)))).
Definition accepts : option CompletionResponse :=
  answer_of (JObj [("accepted", JBool true); ("reason", JStr "receipt shown")])%string.
Definition pay_host (failed : bool) : step_host (H := unit) :=
  MkStepHost true true pay_registry [] false 0 8 (fun _ _ => Ok "Follow the step."%string) (fun _ => Ok "s1"%string)
    (fun _ => None) (fun n => Z.of_nat n) (fun _ _ => pay_run failed) (fun _ r => Ok r) (fun _ _ => Ok accepts).

Definition pay_attempt (failed : bool) : step_end * list (step_event (H := unit)) :=
  ExecuteGraphStep (pay_host failed) sample_task pay_step [].
Definition pay_failed : RunCheckpoint := MkRunCheckpoint "tool_completed" "" [pay_trace true] None.

Lemma accepted_step_was_judged_witness :
  end_Accepted (fst (pay_attempt false)) = true
  /\ it_Output (end_Result (fst (pay_attempt false))) = "Paid."%string
  /\ exists loaded, Some no_checkpoint = Some loaded
     /\ justified (pay_host false) sample_task pay_step loaded (end_Result (fst (pay_attempt false)))
          (snd (pay_attempt false)).
Proof.
  split; [by vm_compute|]. split; [by vm_compute|].
  apply (accepted_step_was_judged (pay_host false) sample_task pay_step []). vm_compute. reflexivity.
Defined.

Lemma pay_obedient failed n q : obedient (sh_run (pay_host failed) n q).
Proof. simpl. repeat split; intros e; by eexists _, _. Qed.

Lemma failed_effect_never_repeated_witness :
  (exists pre tail, snd (pay_attempt true) = pre ++ EvOffer (Some pay_call) true pay_failed :: tail)
  /\ exists c, last_saved (snd (pay_attempt true)) = Some c /\ PendingTool c = Some pay_call.
Proof.
  destruct (failed_effect_never_repeated (pay_host true) sample_task pay_step [] (fst (pay_attempt true))
              (snd (pay_attempt true)) pay_call pay_failed)
    as (_ & _ & (pre & tail & Hl & _) & c & j & Hc & Hb & _).
  - apply pay_obedient.
  - done.
  - apply surjective_pairing.
  - by vm_compute; do 5 right; left.
  - by vm_compute.
  - split; eauto.
Defined.
