(* ===== verification/Regex.v ===== *)
(** * Regex: the regular expressions of package regexp

    Expressions over runes with one capturing group, matched the way Go's
    regexp package does without POSIX: the leftmost match, and among those the
    one a backtracking search meets first.  A byte that is no valid encoding
    counts as the replacement character. *)

From Stdlib Require Import Ascii String.
From S2P Require Import Prelude GoStrings GoJson.

Local Open Scope Z_scope.

(** ** Runes with their bytes *)

Record char := MkChar { c_rune : Z; c_bytes : bytes }.
Fixpoint chars_of (fuel : nat) (s : bytes) : list char :=
  match fuel, s with
  | _, [] => []
  | O, _ => []
  | S fuel, _ =>
      let n := Nat.max 1 (rune_len s) in
      MkChar (rune_at s) (take n s) :: chars_of fuel (drop n s)
  end.
Definition chars (s : bytes) : list char := chars_of (length s) s.
Definition text_of (l : list char) : bytes := List.concat (c_bytes <$> l).

(** ** Expressions *)

Inductive re : Type :=
| Rune (p : Z -> bool)
| Nothing
| Then (a b : re)
| Or (a b : re)
| Star (greedy : bool) (a : re)
| Group (a : re)
| LineStart | LineEnd                      (* [^] and [$] under (?m) *)
| TextStart | TextEnd.

Definition Opt (a : re) : re := Or a Nothing.
Definition Plus (greedy : bool) (a : re) : re := Then a (Star greedy a).
Fixpoint sequence (l : list re) : re := match l with [] => Nothing | a :: l => Then a (sequence l) end.
Fixpoint alternatives (l : list re) : re :=
  match l with [] => Nothing | [a] => a | a :: l => Or a (alternatives l) end.

(** Sets of runes. *)
Definition is_rune (r : Z) (x : Z) : bool := Z.eqb x r.
Definition one_of (l : list Z) (x : Z) : bool := existsb (Z.eqb x) l.
Definition between (lo hi x : Z) : bool := Z.leb lo x && Z.leb x hi.
Definition space_rune : Z -> bool := one_of [9; 10; 12; 13; 32].
Definition digit_rune : Z -> bool := between 48 57.
Definition any_but_newline (x : Z) : bool := negb (Z.eqb x 10).
Definition spaces_ : re := Star true (Rune space_rune).

(** Case folding of the ASCII and Cyrillic letters. *)
Definition fold_rune (r : Z) : Z :=
  if between 65 90 r then r + 32
  else if Z.eqb r 383 then 115 else if Z.eqb r 8490 then 107
  else if between 1040 1071 r then r + 32 else if Z.eqb r 1025 then 1105
  else if Z.eqb r 7296 then 1074 else if Z.eqb r 7297 then 1076 else if Z.eqb r 7298 then 1086
  else if Z.eqb r 7299 then 1089 else if between 7300 7301 r then 1090 else if Z.eqb r 7302 then 1098
  else r.
(** A literal, exact or under (?i). *)
Definition literal_ (s : bytes) : re := sequence ((fun c => Rune (is_rune (c_rune c))) <$> chars s).
Definition literal_i (s : bytes) : re :=
  sequence ((fun c => Rune (fun x => Z.eqb (fold_rune x) (fold_rune (c_rune c)))) <$> chars s).

(** ** Matching *)

Definition span_ : Type := nat * nat.        (* what was left at its start and at its end *)

(** [before]: the rune before the place; [k] is told what follows it. *)
Fixpoint run_re {A} (r : re) (before : option Z) (s : list char) (g : option span_)
    (k : option Z -> list char -> option span_ -> option A) : option A :=
  match r with
  | Rune p => match s with
              | c :: s' => if p (c_rune c) then k (Some (c_rune c)) s' g else None
              | [] => None
              end
  | Nothing => k before s g
  | Then a b => run_re a before s g (fun before s g => run_re b before s g k)
  | Or a b => match run_re a before s g k with Some x => Some x | None => run_re b before s g k end
  | Star greedy a =>
      (fix loop (n : nat) (before : option Z) (s : list char) (g : option span_) : option A :=
         let more := match n with
           | O => None
           | S n => run_re a before s g (fun before' s' g' =>
               if Nat.ltb (length s') (length s) then loop n before' s' g' else None)
           end in
         if (greedy : bool) then match more with Some x => Some x | None => k before s g end
         else match k before s g with Some x => Some x | None => more end) (length s) before s g
  | Group a => run_re a before s g (fun before' s' _ => k before' s' (Some (length s, length s')))
  | LineStart => match before with
                 | None => k before s g
                 | Some c => if Z.eqb c 10 then k before s g else None
                 end
  | LineEnd => match s with
               | [] => k before s g
               | c :: _ => if Z.eqb (c_rune c) 10 then k before s g else None
               end
  | TextStart => match before with None => k before s g | Some _ => None end
  | TextEnd => match s with [] => k before s g | _ => None end
  end.

(** The leftmost match: what comes before it, its text, its group and the rest. *)
Record match_ := MkMatch { m_before : bytes; m_text : bytes; m_group : bytes; m_after : bytes }.
Fixpoint find_from (r : re) (before : option Z) (s : list char) : option (nat * nat * option span_) :=
  match run_re r before s None (fun _ s' g => Some (length s, length s', g)) with
  | Some x => Some x
  | None => match s with [] => None | c :: s' => find_from r (Some (c_rune c)) s' end
  end.
Definition slice (s : list char) (a b : nat) : bytes := text_of (take (a - b) (drop (length s - a) s)).
Definition FindSubmatch (r : re) (text : bytes) : option match_ :=
  let s := chars text in
  '(a, b, g) ← find_from r None s;
  Some (MkMatch (slice s (length s) a) (slice s a b)
          (match g with Some (x, y) => slice s x y | None => [] end) (slice s b 0)).
Definition MatchString (r : re) (text : bytes) : bool :=
  match FindSubmatch r text with Some _ => true | None => false end.

(** ** A match is a place in the text *)

Lemma text_app l l' : text_of (l ++ l') = text_of l ++ text_of l'.
Proof. unfold text_of. by rewrite fmap_app, concat_app. Qed.
Lemma chars_text fuel s : (length s <= fuel)%nat -> text_of (chars_of fuel s) = s.
Proof.
  revert s; induction fuel as [|fuel IH]; intros [|c s] Hl; simpl in Hl; try done; [lia|].
  cbn [chars_of text_of fmap list_fmap List.concat c_bytes]. fold (text_of (chars_of fuel (drop (Nat.max 1 (rune_len (c :: s))) (c :: s)))).
  rewrite IH; [by apply take_drop|]. rewrite length_drop. cbn [length]. lia.
Qed.

(** A search ends in a suffix of the text it was given. *)
Lemma run_re_found {A} r : forall before s g (k : option Z -> list char -> option span_ -> option A) x,
  run_re r before s g k = Some x ->
  exists before' s' g', k before' s' g' = Some x /\ (length s' <= length s)%nat.
Proof.
  induction r as [p| |a IHa b IHb|a IHa b IHb|greedy a IHa|a IHa| | | |]; intros before s g k x; cbn [run_re].
  - destruct s as [|c s]; [done|]. destruct (p (c_rune c)); [|done]. intros Hk. do 3 eexists. split; [exact Hk|simpl; lia].
  - intros Hk. by do 3 eexists.
  - intros (b1 & s1 & g1 & (b2 & s2 & g2 & Hk & H2)%IHb & H1)%IHa. do 3 eexists. split; [exact Hk|lia].
  - destruct (run_re a before s g k) eqn:E; [intros [= ->]; by eapply IHa|apply IHb].
  - generalize (length s) at 1. intros n. revert before s g. induction n as [|n IH]; intros before s g.
    + destruct greedy; destruct (k before s g) eqn:E; try done; intros [= <-]; by do 3 eexists.
    + set (more := run_re a before s g _).
      assert (more = Some x -> exists before' s' g', k before' s' g' = Some x /\ (length s' <= length s)%nat) as Hm.
      { intros (b1 & s1 & g1 & Hl & H1)%IHa. destruct (Nat.ltb (length s1) (length s)); [|done].
        destruct (IH _ _ _ Hl) as (b2 & s2 & g2 & Hk & H2). do 3 eexists. split; [exact Hk|lia]. }
      assert (k before s g = Some x -> exists before' s' g', k before' s' g' = Some x /\ (length s' <= length s)%nat) as Hk
        by (intros; by do 3 eexists).
      destruct greedy; [destruct more|destruct (k before s g)]; auto.
  - intros (b1 & s1 & g1 & Hk & H1)%IHa. by do 3 eexists.
  - destruct before as [c|]; [destruct (Z.eqb c 10); [|done]|]; intros Hk; by do 3 eexists.
  - destruct s as [|c s]; [|destruct (Z.eqb (c_rune c) 10); [|done]]; intros Hk; by do 3 eexists.
  - destruct before; [done|]. intros Hk. by do 3 eexists.
  - destruct s; [|done]. intros Hk. by do 3 eexists.
Qed.

Lemma find_from_bounds r : forall before s a b g, find_from r before s = Some (a, b, g) ->
  (b <= a <= length s)%nat.
Proof.
  intros before s. revert before. induction s as [|c s IH]; intros before a b g; cbn [find_from];
    destruct (run_re r before _ None _) as [y|] eqn:E; try done.
  1, 2: apply run_re_found in E as (before' & s' & g' & [= <-] & Hl); intros [= <- <- <-]; simpl in *; lia.
  intros H%IH. simpl. lia.
Qed.

(** The text of a match stands in the text that was searched. *)
Lemma FindSubmatch_splits r text m : FindSubmatch r text = Some m ->
  text = m_before m ++ m_text m ++ m_after m.
Proof.
  unfold FindSubmatch. destruct (find_from r None (chars text)) as [[[a b] g]|] eqn:E; [|done].
  apply find_from_bounds in E. intros [= <-]. cbn [m_before m_text m_after]. unfold slice.
  rewrite Nat.sub_diag, drop_0, Nat.sub_0_r, <- !text_app.
  set (s := chars text) in *. set (n := length s) in *.
  assert (take (a - b) (drop (n - a) s) ++ take b (drop (n - b) s) = drop (n - a) s) as ->.
  { rewrite (take_ge (drop (n - b) s)) by (rewrite length_drop; fold n; lia).
    replace (n - b)%nat with ((n - a) + (a - b))%nat by lia. rewrite <- drop_drop. apply take_drop. }
  rewrite take_drop. unfold s, chars. by rewrite chars_text.
Qed.
