(* ===== verification/RolePlan.v ===== *)
(** * RolePlan: the step plan of a background task and its evidence ledger

    runtime/handler/plan.go: the plan a planner proposes and an executor
    patches.  The model proposes, the handler owns the state: it names the
    steps, keeps what is done, and bounds what is pending by the iterations
    left.  runtime/handler/evidence.go: the ledger of established facts that
    iterations hand on. *)

From Stdlib Require Import Ascii String.
From stdpp Require Import pretty.
From S2P Require Import Prelude GoStrings Json GoJson JsonText Task TaskConfig PlanExec Citations FinalState GraphCalc GraphStep Regex.

Local Open Scope Z_scope.

(** ** Data *)

Record RoleStep := MkRoleStep {
  rs_ID : string;
  rs_Goal : string;
  rs_Skills : list string;
  rs_Status : string;
  rs_Acceptance : string;
  rs_Result : string;
}.
Record RolePlan := MkRolePlan { Rev : Z; CurrentStepID : string; Steps : list RoleStep }.

(** One edit a model proposes. *)
Record PatchOp := MkPatchOp {
  op_Op : string;
  op_After : string;
  op_ID : string;
  op_Step : option RoleStep;
  op_Goal : option string;
  op_Skills : list string;
  op_Acceptance : option string;
}.
Record PlanPatch := MkPlanPatch { CompletedStepID : string; ResultSummary : string; Operations : list PatchOp }.

Definition set_id (id : string) (s : RoleStep) : RoleStep :=
  MkRoleStep id (rs_Goal s) (rs_Skills s) (rs_Status s) (rs_Acceptance s) (rs_Result s).
Definition set_status (status : string) (s : RoleStep) : RoleStep :=
  MkRoleStep (rs_ID s) (rs_Goal s) (rs_Skills s) status (rs_Acceptance s) (rs_Result s).
Definition set_skills (skills : list string) (s : RoleStep) : RoleStep :=
  MkRoleStep (rs_ID s) (rs_Goal s) skills (rs_Status s) (rs_Acceptance s) (rs_Result s).
Definition set_steps (l : list RoleStep) (p : RolePlan) : RolePlan := MkRolePlan (Rev p) (CurrentStepID p) l.

(** ** The walk over a plan *)

Definition pending (s : RoleStep) : bool := String.eqb (rs_Status s) "pending".
Definition has_id (id : string) (s : RoleStep) : bool := String.eqb (rs_ID s) id.
Definition step (id : string) (p : RolePlan) : option RoleStep := List.find (has_id id) (Steps p).
Definition pendingCount (p : RolePlan) : Z := Z.of_nat (length (List.filter pending (Steps p))).

Definition currentStep (p : RolePlan) : option RoleStep :=
  match (if String.eqb (CurrentStepID p) "" then None
         else List.find (fun s => has_id (CurrentStepID p) s && pending s) (Steps p)) with
  | Some s => Some s
  | None => List.find pending (Steps p)
  end.
Definition advance (p : RolePlan) : RolePlan :=
  MkRolePlan (Rev p) (match currentStep p with Some s => rs_ID s | None => "" end) (Steps p).

(** [for i := range p.Steps { if p.Steps[i].ID == id { ...; break } }] *)
Fixpoint update_step (id : string) (f : RoleStep -> RoleStep) (l : list RoleStep) : list RoleStep :=
  match l with
  | [] => []
  | s :: l => if has_id id s then f s :: l else s :: update_step id f l
  end.
Definition finish_step (summary : string) (s : RoleStep) : RoleStep :=
  MkRoleStep (rs_ID s) (rs_Goal s) (rs_Skills s) "done" (rs_Acceptance s)
    (if String.eqb summary "" then rs_Result s else summary).
Definition completeStep (id summary : string) (p : RolePlan) : RolePlan :=
  advance (set_steps (update_step id (finish_step summary) (Steps p)) p).

(** ** Naming steps *)

(** White space before a number, [None] when a line ends in it. *)
Fixpoint skip_space (fuel : nat) (s : bytes) : option bytes :=
  match fuel with
  | O => Some s
  | S fuel =>
      match space_prefix wide_spaces s with
      | O => Some s
      | n => if HasPrefix s [chr 10] then None else skip_space fuel (drop n s)
      end
  end.
(** [fmt.Sscanf(id, "step_%d", &n)] *)
Definition scan_step (id : string) : option Z :=
  if HasPrefix (lit id) (lit "step_") then
    s ← skip_space (length (lit id)) (drop 5 (lit id));
    let '(sign, rest) := match s with
      | c :: rest => if Ascii.eqb c "-"%char || Ascii.eqb c "+"%char then ([c], rest) else ([], s)
      | [] => ([], s)
      end in
    ParseInt (sign ++ fst (span is_digit rest))
  else None.
Definition pad3 (n : Z) : bytes :=
  if Z.leb 0 n then zeros (3 - length (digits n)) ++ digits n
  else "-"%char :: zeros (2 - length (digits (- n))) ++ digits (- n).
Definition step_id (n : Z) : string := str (lit "step_" ++ pad3 n).
(** Machine arithmetic: the successor of the greatest number is the least. *)
Definition succ64 (n : Z) : Z := if Z.eqb n (2 ^ 63 - 1) then - 2 ^ 63 else n + 1.
Definition greatest (l : list RoleStep) : Z :=
  fold_left (fun m s => match scan_step (rs_ID s) with Some n => Z.max m n | None => m end) l 0.
Definition nextStepID (p : RolePlan) : string := step_id (succ64 (greatest (Steps p))).

(** ** Patches *)

Fixpoint insert_behind (after : string) (s : RoleStep) (l : list RoleStep) : list RoleStep :=
  match l with
  | [] => [s]
  | t :: l => if has_id after t then t :: s :: l else t :: insert_behind after s l
  end.
Definition insertAfter (after : string) (s : RoleStep) (p : RolePlan) : RolePlan :=
  set_steps (if String.eqb after "" then Steps p ++ [s] else insert_behind after s (Steps p)) p.
Fixpoint remove_id (id : string) (l : list RoleStep) : list RoleStep :=
  match l with
  | [] => []
  | s :: l => if has_id id s then l else s :: remove_id id l
  end.
Definition removeStep (id : string) (p : RolePlan) : RolePlan := set_steps (remove_id id (Steps p)) p.

Definition skills_ok (valid : string -> bool) (l : list string) : bool :=
  match l with [] => true | x :: _ => valid x end.
Definition edit_step (valid : string -> bool) (op : PatchOp) (s : RoleStep) : RoleStep :=
  MkRoleStep (rs_ID s) (default (rs_Goal s) (op_Goal op))
    (match op_Skills op with x :: _ => if valid x then [x] else rs_Skills s | [] => rs_Skills s end)
    (rs_Status s) (default (rs_Acceptance s) (op_Acceptance op)) (rs_Result s).
(** The step an "add" brings. *)
Definition new_step (p : RolePlan) (s : RoleStep) : RoleStep :=
  let s := set_status "pending" (set_skills (take 1 (rs_Skills s)) s) in
  if String.eqb (rs_ID s) "" || is_some (step (rs_ID s) p) then set_id (nextStepID p) s else s.
Definition is_pending (id : string) (p : RolePlan) : bool :=
  match step id p with Some s => pending s | None => false end.

(** One operation: the plan and whether it was applied. *)
Definition apply_op (valid : string -> bool) (remaining : Z) (p : RolePlan) (op : PatchOp) : RolePlan * bool :=
  if String.eqb (op_Op op) "add" then
    match op_Step op with
    | None => (p, false)
    | Some s =>
        if Z.leb remaining (pendingCount p) then (p, false)
        else if negb (skills_ok valid (rs_Skills s)) then (p, false)
        else (insertAfter (op_After op) (new_step p s) p, true)
    end
  else if String.eqb (op_Op op) "remove" then
    if is_pending (op_ID op) p then (removeStep (op_ID op) p, true) else (p, false)
  else if String.eqb (op_Op op) "update" then
    if is_pending (op_ID op) p
    then (set_steps (update_step (op_ID op) (edit_step valid op) (Steps p)) p, true) else (p, false)
  else (p, false).
Fixpoint apply_ops (valid : string -> bool) (remaining : Z) (p : RolePlan) (ops : list PatchOp) : RolePlan * Z :=
  match ops with
  | [] => (p, 0)
  | op :: ops =>
      let '(p, ok) := apply_op valid remaining p op in
      let '(p, n) := apply_ops valid remaining p ops in
      (p, (if (ok : bool) then 1 else 0) + n)
  end.
Definition applyPatch (patch : PlanPatch) (valid : string -> bool) (remaining : Z) (p : RolePlan) : RolePlan * Z :=
  let '(p, applied) := apply_ops valid remaining p (Operations patch) in
  if Z.ltb 0 applied then (advance (MkRolePlan (Rev p + 1) (CurrentStepID p) (Steps p)), applied) else (p, applied).

(** ** Reading a model's answer *)

(** The bracketed body of the first block [<<<NAME {...} >>>]. *)
Definition body_at (name : string) (open close : ascii) (s : bytes) : option bytes :=
  let head := lit "<<<" ++ lit name in
  if HasPrefix s head then
    match drop (length head + spaces (drop (length head) s)) s with
    | c :: body =>
        if Ascii.eqb c open then
          k ← past (fun s => _ ← block_end close s; Some 1%nat) body; Some (c :: take k body)
        else None
    | [] => None
    end
  else None.
Fixpoint first_body (name : string) (open close : ascii) (s : bytes) : option bytes :=
  match body_at name open close s with
  | Some b => Some b
  | None => match s with [] => None | _ :: s' => first_body name open close s' end
  end.

Definition as_texts : list string -> json -> option (list string) := as_list as_text.
Definition as_role_step (j : json) : option RoleStep :=
  if is_object j || is_null j then
    id ← decode_string "id" j; goal ← decode_string "goal" j; skills ← decode_into [] as_texts "skills" j;
    status ← decode_string "status" j; acceptance ← decode_string "acceptance" j;
    result ← decode_string "result_summary" j;
    Some (MkRoleStep id goal skills status acceptance result)
  else None.
Definition as_string_pointer (_ : option string) (j : json) : option (option string) :=
  match j with JNull => Some None | JStr s => Some (Some s) | _ => None end.
Definition as_step_pointer (_ : option RoleStep) (j : json) : option (option RoleStep) :=
  match j with JNull => Some None | _ => Some <$> as_role_step j end.
Definition as_patch_op (j : json) : option PatchOp :=
  if is_object j || is_null j then
    op ← decode_string "op" j; after ← decode_string "after" j; id ← decode_string "id" j;
    step ← decode_into None as_step_pointer "step" j; goal ← decode_into None as_string_pointer "goal" j;
    skills ← decode_into [] as_texts "skills" j; acceptance ← decode_into None as_string_pointer "acceptance" j;
    Some (MkPatchOp op after id step goal skills acceptance)
  else None.

(** What the handler adds to a proposed step. *)
Definition normal_step (i : nat) (s : RoleStep) : RoleStep :=
  MkRoleStep (if blank (rs_ID s) then step_id (Z.of_nat i + 1) else rs_ID s) (rs_Goal s)
    (take 1 (rs_Skills s)) (if String.eqb (rs_Status s) "" then "pending" else rs_Status s)%string
    (rs_Acceptance s) (rs_Result s).
Definition parsePlanJSON (reply : bytes) : option RolePlan :=
  body ← first_body "PLAN_JSON" "{" "}" reply;
  j ← Members body;
  if is_object j || is_null j then
    _ ← decode_int "plan_rev" j; current ← decode_string "current_step_id" j;
    steps ← decode_into [] (as_list as_role_step) "steps" j;
    match steps with
    | [] => None
    | _ =>
        let p := MkRolePlan 1 current (imap normal_step steps) in
        Some (match currentStep p with Some _ => advance p | None => p end)
    end
  else None.
Definition parsePlanPatch (reply : bytes) : option PlanPatch :=
  body ← first_body "PLAN_PATCH_JSON" "{" "}" reply;
  j ← Members body;
  if is_object j || is_null j then
    id ← decode_string "completed_step_id" j; summary ← decode_string "result_summary" j;
    ops ← decode_into [] (as_list as_patch_op) "operations" j;
    Some (MkPlanPatch id summary ops)
  else None.

(** [(?im)^\s*RESULT:\s*(.+?)\s*$] *)
Definition resultLineRE : re :=
  sequence [LineStart; spaces_; literal_i (lit "RESULT:"); spaces_;
            Group (Plus false (Rune any_but_newline)); spaces_; LineEnd].
Definition extractResultLine (reply : bytes) : bytes :=
  match FindSubmatch resultLineRE reply with
  | Some m => TrimSpace_b (m_group m)
  | None => PlanExec.truncate (stripPlanMarkers reply) 200
  end.

(** ** An iteration's bookkeeping

    runtime/handler/background.go: the planner's reply makes the plan, an
    executor's reply completes its step and may patch the rest. *)

Definition iterations_left (max_iterations iteration : Z) (reserve : bool) : Z :=
  Z.max 0 (max_iterations - (iteration + 1) - (if reserve then 2 else 1)).
Definition step_done (valid : string -> bool) (remaining : Z) (p : RolePlan) (s : RoleStep) (reply : bytes) : RolePlan :=
  let summary := str (extractResultLine reply) in
  match parsePlanPatch reply with
  | Some patch =>
      let summary := if String.eqb (ResultSummary patch) "" then summary else ResultSummary patch in
      fst (applyPatch patch valid remaining (completeStep (rs_ID s) summary p))
  | None => completeStep (rs_ID s) summary p
  end.
Definition plan_after (valid : string -> bool) (remaining : Z) (synthesis : bool) (plan : option RolePlan)
    (reply : bytes) : option RolePlan :=
  match plan with
  | None => parsePlanJSON reply
  | Some p =>
      match currentStep p with
      | Some s => if synthesis then plan else Some (step_done valid remaining p s reply)
      | None => plan
      end
  end.

(** * Properties *)

Definition ids (l : list RoleStep) : list string := rs_ID <$> l.
Definition finished_steps (p : RolePlan) : list RoleStep := List.filter (fun s => negb (pending s)) (Steps p).

(** The pointer names a pending step, or nothing is pending. *)
Definition pointed (p : RolePlan) : Prop :=
  if String.eqb (CurrentStepID p) "" then List.filter pending (Steps p) = []
  else exists s, s ∈ Steps p /\ pending s = true /\ rs_ID s = CurrentStepID p.
Record steps_fit (l : list RoleStep) : Prop := {
  fit_unique : NoDup (ids l);
  fit_named : Forall (fun s => rs_ID s <> ""%string) l;
  fit_skill : Forall (fun s => (length (rs_Skills s) <= 1)%nat) l;
}.
Definition plan_fit (p : RolePlan) : Prop := steps_fit (Steps p) /\ pointed p.
Definition count (l : list RoleStep) : nat := length (List.filter pending l).

(** ** Names *)

Lemma zeros_digits n : forallb is_digit (zeros n) = true.
Proof. by induction n. Qed.
Lemma number_head k n : 0 <= n -> exists c l, zeros k ++ digits n = c :: l /\ is_digit c = true.
Proof.
  intros Hn. destruct (digits_spec n Hn) as (Hd & Hl & _).
  assert (forallb is_digit (zeros k ++ digits n) = true) as H by (rewrite forallb_app, zeros_digits; exact Hd).
  destruct (zeros k ++ digits n) as [|c l] eqn:E; [apply (f_equal length) in E; rewrite length_app in E; simpl in E; lia|].
  exists c, l. simpl in H. apply andb_true_iff in H as [H _]. by split.
Qed.

(** A generated name is read back as its number. *)
Lemma scan_step_id n : 0 <= n < 2 ^ 63 -> scan_step (step_id n) = Some n.
Proof.
  intros Hn. unfold step_id, scan_step. rewrite lit_str.
  assert (HasPrefix (lit "step_" ++ pad3 n) (lit "step_") = true) as -> by (apply HasPrefix_spec; by eexists).
  change (drop 5 (lit "step_" ++ pad3 n)) with (pad3 n). unfold pad3. rewrite (proj2 (Z.leb_le 0 n)) by lia.
  set (k := (3 - length (digits n))%nat). destruct (number_head k n) as (c & l & E & Hc); [lia|].
  destruct (digits_spec n ltac:(lia)) as (Hd & _ & Hp & _).
  assert (parse_digits 0 (zeros k ++ digits n) = Some n) as Hpz by (rewrite parse_digits_app, parse_zeros; exact Hp).
  assert (span is_digit (zeros k ++ digits n) = (zeros k ++ digits n, [])) as Hs
    by (apply span_all_digits; rewrite forallb_app, zeros_digits; exact Hd).
  rewrite E in *. destruct (digit_not_sign c Hc) as [Hm Hpl].
  assert (space_prefix wide_spaces (c :: l) = 0%nat) as Hsp.
  { unfold is_digit, in_range, code in Hc. apply andb_true_iff in Hc as [H1 H2].
    apply Z.leb_le in H1, H2. cbn [space_prefix]. destruct c as [[] [] [] [] [] [] [] []]; try (exfalso; vm_compute in H1, H2; lia); vm_compute; done. }
  assert (exists m, length (lit "step_" ++ c :: l) = S m) as [m ->] by (by eexists).
  cbn [skip_space]. rewrite Hsp. cbn [mbind option_bind]. rewrite Hm, Hpl. cbn [orb]. rewrite Hs. cbn [fst app].
  unfold ParseInt. rewrite Hm, Hpl, Hpz. cbn -[Z.leb Z.ltb Z.pow].
  by rewrite (proj2 (Z.leb_le _ _)), (proj2 (Z.ltb_lt _ _)) by lia.
Qed.

Lemma greatest_fold l : forall m, m <= fold_left (fun m s => match scan_step (rs_ID s) with Some n => Z.max m n | None => m end) l m
  /\ forall s n, s ∈ l -> scan_step (rs_ID s) = Some n ->
       n <= fold_left (fun m s => match scan_step (rs_ID s) with Some n => Z.max m n | None => m end) l m.
Proof.
  induction l as [|t l IH]; intros m; cbn [fold_left]; [split; [lia|by intros s n Hs%elem_of_nil]|].
  destruct (IH (match scan_step (rs_ID t) with Some n => Z.max m n | None => m end)) as [H1 H2].
  split; [destruct (scan_step (rs_ID t)); lia|]. intros s n [->|Hs]%elem_of_cons Hn; [rewrite Hn in H1 |- *; lia|by eapply H2].
Qed.
Lemma greatest_nonneg l : 0 <= greatest l.
Proof. apply greatest_fold. Qed.
(** No step has a number above [B]. *)
Definition numbers_within (B : Z) (l : list RoleStep) : Prop :=
  forall s n, s ∈ l -> scan_step (rs_ID s) = Some n -> n <= B.

Lemma greatest_within l B : 0 <= B -> numbers_within B l -> greatest l <= B.
Proof.
  unfold greatest. generalize 0 as m. induction l as [|t l IH]; intros m Hm H; cbn [fold_left]; [done|]. apply IH.
  - destruct (scan_step (rs_ID t)) as [k|] eqn:E; [|done]. pose proof (H t k (list_elem_of_here _ _) E). lia.
  - intros s n Hs. apply H. by apply list_elem_of_further.
Qed.

(** A new name is not taken. *)
Lemma nextStepID_fresh p : greatest (Steps p) < 2 ^ 63 - 1 -> nextStepID p ∉ ids (Steps p).
Proof.
  intros Hb Hin. apply list_elem_of_fmap in Hin as (s & Hs & Hin). pose proof (greatest_nonneg (Steps p)).
  unfold nextStepID, succ64 in Hs. destruct (Z.eqb_spec (greatest (Steps p)) (2 ^ 63 - 1)); [lia|].
  assert (scan_step (rs_ID s) = Some (greatest (Steps p) + 1)) as Hn by (rewrite <- Hs; apply scan_step_id; lia).
  apply (proj2 (greatest_fold (Steps p) 0) s) in Hn; [|done]. unfold greatest in Hn. lia.
Qed.
Lemma nextStepID_named p : nextStepID p <> ""%string.
Proof. done. Qed.
Lemma nextStepID_number p n : greatest (Steps p) < 2 ^ 63 - 1 ->
  scan_step (nextStepID p) = Some n -> n = greatest (Steps p) + 1.
Proof.
  intros Hb. pose proof (greatest_nonneg (Steps p)). unfold nextStepID, succ64.
  destruct (Z.eqb_spec (greatest (Steps p)) (2 ^ 63 - 1)); [lia|]. rewrite scan_step_id by lia. by intros [= <-].
Qed.

(** ** Operations on the list of steps *)

Lemma has_id_spec id s : has_id id s = true <-> rs_ID s = id.
Proof. apply String.eqb_eq. Qed.
Lemma step_none id p : step id p = None -> id ∉ ids (Steps p).
Proof.
  intros H Hin. apply list_elem_of_fmap in Hin as (s & -> & Hs). apply list_elem_of_In in Hs.
  pose proof (find_none _ _ H s Hs) as Hf. unfold has_id in Hf. by rewrite String.eqb_refl in Hf.
Qed.
Lemma insert_behind_perm a s l : insert_behind a s l ≡ₚ s :: l.
Proof.
  induction l as [|t l IH]; cbn [insert_behind]; [done|]. destruct (has_id a t); [apply Permutation_swap|].
  rewrite IH. apply Permutation_swap.
Qed.
Lemma insertAfter_perm a s p : Steps (insertAfter a s p) ≡ₚ s :: Steps p.
Proof.
  unfold insertAfter. cbn [Steps set_steps]. destruct (String.eqb a ""); [|apply insert_behind_perm].
  by rewrite Permutation_app_comm.
Qed.
Lemma insert_behind_finished a s l : pending s = true ->
  List.filter (fun s => negb (pending s)) (insert_behind a s l) = List.filter (fun s => negb (pending s)) l.
Proof.
  intros Hp. induction l as [|t l IH]; cbn [insert_behind List.filter]; [by rewrite Hp|].
  destruct (has_id a t); cbn [List.filter]; [by rewrite Hp|by rewrite IH].
Qed.
Lemma insertAfter_finished a s p : pending s = true -> finished_steps (insertAfter a s p) = finished_steps p.
Proof.
  intros Hp. unfold finished_steps, insertAfter. cbn [Steps set_steps].
  destruct (String.eqb a ""); [|by apply insert_behind_finished]. rewrite List.filter_app. cbn [List.filter].
  by rewrite Hp, app_nil_r.
Qed.

(** A step found is the first of its name: the list splits at it. *)
Lemma find_splits {A} (q : A -> bool) l x : List.find q l = Some x ->
  exists before after, l = before ++ x :: after /\ q x = true /\ Forall (fun y => q y = false) before.
Proof.
  induction l as [|y l IH]; cbn [List.find]; [done|]. destruct (q y) eqn:E.
  - intros [= ->]. by exists [], l.
  - intros (b & a & -> & Hq & Hb)%IH. exists (y :: b), a. repeat split; [done|]. by constructor.
Qed.
Lemma remove_id_at id b s a : has_id id s = true -> Forall (fun y => has_id id y = false) b ->
  remove_id id (b ++ s :: a) = b ++ a.
Proof. intros Hs. induction 1 as [|y b Hy _ IH]; cbn [app remove_id]; [by rewrite Hs|by rewrite Hy, IH]. Qed.
Lemma update_step_at id f b s a : has_id id s = true -> Forall (fun y => has_id id y = false) b ->
  update_step id f (b ++ s :: a) = b ++ f s :: a.
Proof. intros Hs. induction 1 as [|y b Hy _ IH]; cbn [app update_step]; [by rewrite Hs|by rewrite Hy, IH]. Qed.
Lemma is_pending_splits id p : is_pending id p = true -> exists b s a, (Steps p = b ++ s :: a) /\
  has_id id s = true /\ pending s = true /\ Forall (fun y => has_id id y = false) b.
Proof.
  unfold is_pending, step. destruct (List.find (has_id id) (Steps p)) as [s|] eqn:E; [|done]. intros Hp.
  apply find_splits in E as (b & a & Hl & Hq & Hb). by exists b, s, a.
Qed.

#[global] Instance steps_fit_proper : Proper ((≡ₚ) ==> iff) steps_fit.
Proof.
  assert (forall k l, k ≡ₚ l -> steps_fit k -> steps_fit l) as H.
  { intros k l E [? ? ?]. split; [|by rewrite <- E..]. unfold ids. by rewrite <- E. }
  intros k l E. split; apply H; [done|by symmetry].
Qed.
Lemma steps_fit_cons s l : rs_ID s ∉ ids l -> rs_ID s <> ""%string -> (length (rs_Skills s) <= 1)%nat ->
  steps_fit l -> steps_fit (s :: l).
Proof. intros ? ? ? [? ? ?]. split; constructor; done. Qed.
Lemma steps_fit_tail s l : steps_fit (s :: l) -> steps_fit l.
Proof.
  intros [Hu Hn Hs]. apply Forall_cons in Hn as [_ ?], Hs as [_ ?]. apply NoDup_cons in Hu as [_ ?]. by split.
Qed.
(** A step may be edited as long as its name stays. *)
Lemma steps_fit_edit s t l : rs_ID t = rs_ID s -> (length (rs_Skills t) <= 1)%nat ->
  steps_fit (s :: l) -> steps_fit (t :: l).
Proof.
  intros Hi Ht [Hu Hn Hs]. apply Forall_cons in Hn as [? ?], Hs as [_ ?]. unfold ids in Hu. cbn in Hu.
  split; [unfold ids; cbn; by rewrite Hi|constructor; [by rewrite Hi|done]|by constructor].
Qed.

(** ** The pointer *)

Lemma currentStep_pending p s : currentStep p = Some s -> s ∈ Steps p /\ pending s = true.
Proof.
  unfold currentStep.
  assert (forall q, List.find q (Steps p) = Some s -> s ∈ Steps p /\ q s = true) as Hf
    by (intros q H%find_some; rewrite <- list_elem_of_In in H; exact H).
  destruct (String.eqb (CurrentStepID p) ""); [apply Hf|].
  destruct (List.find (fun s => has_id (CurrentStepID p) s && pending s) (Steps p)) eqn:E; [|apply Hf].
  intros [= ->]. apply Hf in E as [? [_ ?]%andb_true_iff]. done.
Qed.
Lemma currentStep_none p : currentStep p = None -> List.filter pending (Steps p) = [].
Proof.
  unfold currentStep. intros H.
  assert (List.find pending (Steps p) = None) as Hn
    by (destruct (String.eqb (CurrentStepID p) ""); [done|];
        destruct (List.find (fun s => has_id (CurrentStepID p) s && pending s) (Steps p)); done).
  clear H. induction (Steps p) as [|s l IH]; [done|]. cbn in Hn |- *. destruct (pending s); [done|by apply IH].
Qed.
Lemma advance_pointed p : Forall (fun s => rs_ID s <> ""%string) (Steps p) -> pointed (advance p).
Proof.
  intros Hn. unfold pointed, advance. cbn [CurrentStepID Steps]. destruct (currentStep p) as [s|] eqn:E.
  - apply currentStep_pending in E as [Hs Hp]. rewrite Forall_forall in Hn.
    destruct (String.eqb_spec (rs_ID s) ""); [by destruct (Hn s Hs)|]. by exists s.
  - by apply currentStep_none.
Qed.
Lemma advance_fit p : steps_fit (Steps p) -> plan_fit (advance p).
Proof. intros H. split; [exact H|]. apply advance_pointed, fit_named, H. Qed.

(** ** Counting *)

Lemma plan_count_perm k l : k ≡ₚ l -> count k = count l.
Proof.
  intros H. unfold count. induction H; cbn; [done|..|congruence].
  - by destruct (pending x); cbn; rewrite ?IHPermutation.
  - by destruct (pending x), (pending y).
Qed.
Lemma plan_count_app k l : count (k ++ l) = (count k + count l)%nat.
Proof. unfold count. by rewrite List.filter_app, length_app. Qed.
Lemma plan_count_cons s l : count (s :: l) = ((if pending s then 1 else 0) + count l)%nat.
Proof. unfold count. cbn. by destruct (pending s). Qed.

(** ** One operation *)

Lemma pendingCount_count p : pendingCount p = Z.of_nat (count (Steps p)).
Proof. done. Qed.
Lemma new_step_pending p s : pending (new_step p s) = true.
Proof. unfold new_step. by destruct (String.eqb (rs_ID _) "" || _). Qed.

(** What an operation leaves alone: everything that is done, and the budget. *)
Lemma apply_op_bounds valid remaining p op : let p' := fst (apply_op valid remaining p op) in
  finished_steps p' = finished_steps p /\ pendingCount p' <= Z.max (pendingCount p) remaining
  /\ Rev p' = Rev p /\ CurrentStepID p' = CurrentStepID p.
Proof.
  unfold apply_op. destruct (String.eqb (op_Op op) "add").
  { destruct (op_Step op) as [s|]; cbn [fst]; [|repeat split; lia]. destruct (Z.leb_spec remaining (pendingCount p)); cbn [fst]; [repeat split; lia|].
    destruct (skills_ok valid (rs_Skills s)); cbn [negb fst]; [|repeat split; lia]. repeat split.
    - apply insertAfter_finished, new_step_pending.
    - rewrite !pendingCount_count in *. rewrite (plan_count_perm _ _ (insertAfter_perm _ _ _)), plan_count_cons, new_step_pending. lia. }
  destruct (String.eqb (op_Op op) "remove"); [|destruct (String.eqb (op_Op op) "update"); [|cbn; repeat split; lia]].
  all: destruct (is_pending (op_ID op) p) eqn:E; cbn [fst]; [|repeat split; lia].
  all: apply is_pending_splits in E as (b & s & a & Hl & Hid & Hp & Hb).
  - unfold finished_steps, removeStep. rewrite !pendingCount_count. cbn [Steps set_steps Rev CurrentStepID].
    rewrite Hl, remove_id_at, !List.filter_app, !plan_count_app, plan_count_cons by done. cbn [List.filter]. rewrite Hp. cbn [negb].
    repeat split. lia.
  - unfold finished_steps. rewrite !pendingCount_count. cbn [Steps set_steps Rev CurrentStepID].
    rewrite Hl, update_step_at, !List.filter_app, !plan_count_app, !plan_count_cons by done. cbn [List.filter].
    change (pending (edit_step valid op s)) with (pending s). rewrite Hp. cbn [negb]. repeat split. lia.
Qed.

Definition op_within (B : Z) (op : PatchOp) : Prop :=
  forall s n, op_Step op = Some s -> scan_step (rs_ID s) = Some n -> n <= B.

Lemma numbers_within_mono B C l : B <= C -> numbers_within B l -> numbers_within C l.
Proof. intros ? H s n Hs Hn. specialize (H s n Hs Hn). lia. Qed.
Lemma numbers_within_cons B s l : (forall n, scan_step (rs_ID s) = Some n -> n <= B) ->
  numbers_within B l -> numbers_within B (s :: l).
Proof. intros H ? t n [->|Ht]%elem_of_cons Hn; eauto. Qed.
Lemma numbers_within_sub B k l : (forall s, s ∈ k -> rs_ID s ∈ ids l) -> numbers_within B l -> numbers_within B k.
Proof.
  intros Hk H s n Hs Hn. apply Hk, list_elem_of_fmap in Hs as (t & Ht & Hs). apply (H t); [done|by rewrite <- Ht].
Qed.

(** The step an "add" brings has a name of its own and one skill. *)
Lemma new_step_fit p s B : 0 <= B < 2 ^ 63 - 1 -> numbers_within B (Steps p) ->
  (forall n, scan_step (rs_ID s) = Some n -> n <= B) ->
  rs_ID (new_step p s) ∉ ids (Steps p) /\ rs_ID (new_step p s) <> ""%string
  /\ (length (rs_Skills (new_step p s)) <= 1)%nat
  /\ (forall n, scan_step (rs_ID (new_step p s)) = Some n -> n <= B + 1).
Proof.
  intros HB Hn Hs. pose proof (greatest_within _ B ltac:(lia) Hn) as Hg.
  assert (length (take 1 (rs_Skills s)) <= 1)%nat as Ht by (rewrite length_take; lia).
  unfold new_step. cbn [rs_ID set_status set_skills].
  destruct (String.eqb_spec (rs_ID s) "") as [E|E]; [|destruct (step (rs_ID s) p) eqn:F]; cbn [orb is_some].
  1,2: cbn [rs_ID set_id rs_Skills]; split; [apply nextStepID_fresh; lia|]; split; [done|]; split; [exact Ht|];
    intros n Hk; apply nextStepID_number in Hk; lia.
  cbn [rs_ID rs_Skills]. split; [by apply step_none|]. split; [done|]. split; [exact Ht|]. intros n Hk. specialize (Hs n Hk). lia.
Qed.

Lemma apply_op_fit valid remaining p op B : 0 <= B < 2 ^ 63 - 1 ->
  steps_fit (Steps p) -> numbers_within B (Steps p) -> op_within B op ->
  let p' := fst (apply_op valid remaining p op) in steps_fit (Steps p') /\ numbers_within (B + 1) (Steps p').
Proof.
  intros HB Hf Hn Ho. pose proof (numbers_within_mono B (B + 1) _ ltac:(lia) Hn) as Hn'.
  unfold apply_op. destruct (String.eqb (op_Op op) "add").
  { destruct (op_Step op) as [s|] eqn:E; [|done]. destruct (Z.leb remaining (pendingCount p)); [done|].
    destruct (skills_ok valid (rs_Skills s)); cbn [negb fst]; [|done].
    destruct (new_step_fit p s B HB Hn) as (H1 & H2 & H3 & H4); [intros n; by apply Ho|].
    split; [rewrite insertAfter_perm; by apply steps_fit_cons|].
    apply (numbers_within_sub _ _ (new_step p s :: Steps p)); [|by apply numbers_within_cons].
    intros t Ht. apply list_elem_of_fmap_2. by rewrite insertAfter_perm in Ht. }
  destruct (String.eqb (op_Op op) "remove"); [|destruct (String.eqb (op_Op op) "update"); [|done]].
  all: destruct (is_pending (op_ID op) p) eqn:E; cbn [fst]; [|done].
  all: apply is_pending_splits in E as (b & s & a & Hl & Hid & Hp & Hb); unfold removeStep; cbn [Steps set_steps].
  - rewrite Hl in *. rewrite remove_id_at by done. split.
    + apply (steps_fit_tail s). by rewrite Permutation_middle.
    + apply (numbers_within_sub _ _ (b ++ s :: a)); [|done]. intros t Ht. apply list_elem_of_fmap_2. set_solver.
  - rewrite Hl in *. rewrite update_step_at by done. split.
    + rewrite <- Permutation_middle. apply (steps_fit_edit s); [done| |by rewrite Permutation_middle].
      pose proof (fit_skill _ Hf) as Hs. rewrite Forall_app, Forall_cons in Hs. destruct Hs as (_ & Hs & _).
      cbn [edit_step rs_Skills]. destruct (op_Skills op) as [|x l]; [done|]. by destruct (valid x); [cbn; lia|].
    + apply (numbers_within_sub _ _ (b ++ s :: a)); [|done]. intros t Ht. unfold ids. rewrite fmap_app, fmap_cons.
      rewrite elem_of_app, elem_of_cons. apply elem_of_app in Ht as [Ht|[->|Ht]%elem_of_cons];
        [left; by apply list_elem_of_fmap_2|right; left; done|right; right; by apply list_elem_of_fmap_2].
Qed.

(** ** A patch *)

Definition ops_within (B : Z) (l : list PatchOp) : Prop := Forall (op_within B) l.

Lemma apply_ops_bounds valid remaining ops : forall p, let '(p', n) := apply_ops valid remaining p ops in
  finished_steps p' = finished_steps p /\ pendingCount p' <= Z.max (pendingCount p) remaining
  /\ Rev p' = Rev p /\ CurrentStepID p' = CurrentStepID p /\ 0 <= n <= Z.of_nat (length ops).
Proof.
  induction ops as [|op ops IH]; intros p; cbn [apply_ops]; [repeat split; cbn; lia|].
  pose proof (apply_op_bounds valid remaining p op) as H. destruct (apply_op valid remaining p op) as [q ok].
  cbn in H. specialize (IH q). destruct (apply_ops valid remaining q ops) as [p' n].
  destruct H as (H1 & H2 & H3 & H4), IH as (I1 & I2 & I3 & I4 & I5).
  rewrite I1, I3, I4, H1, H3, H4. cbn [length]. repeat split; try lia; destruct ok; lia.
Qed.
Lemma apply_ops_fit valid remaining ops : forall p B, 0 <= B -> B + Z.of_nat (length ops) < 2 ^ 63 ->
  steps_fit (Steps p) -> numbers_within B (Steps p) -> ops_within B ops ->
  let p' := fst (apply_ops valid remaining p ops) in
  steps_fit (Steps p') /\ numbers_within (B + Z.of_nat (length ops)) (Steps p').
Proof.
  induction ops as [|op ops IH]; intros p B HB Hl Hf Hn Ho; cbn [apply_ops].
  { cbn. split; [done|]. by rewrite Z.add_0_r. }
  cbn [length] in *. apply Forall_cons in Ho as [Ho Hos].
  destruct (apply_op_fit valid remaining p op B ltac:(lia) Hf Hn Ho) as [H1 H2].
  destruct (apply_op valid remaining p op) as [q ok]. cbn [fst] in H1, H2.
  specialize (IH q (B + 1) ltac:(lia) ltac:(lia) H1 H2). destruct (apply_ops valid remaining q ops) as [p' n]. cbn [fst] in *.
  replace (B + Z.of_nat (S (length ops))) with (B + 1 + Z.of_nat (length ops)) by lia. apply IH.
  eapply Forall_impl; [exact Hos|]. intros o H s k Hs Hk. specialize (H s k Hs Hk). lia.
Qed.
(** Nothing applied, nothing changed. *)
Lemma apply_ops_none valid remaining ops : forall p p', apply_ops valid remaining p ops = (p', 0) -> p' = p.
Proof.
  induction ops as [|op ops IH]; intros p p'; cbn [apply_ops]; [by intros [= <-]|].
  destruct (apply_op valid remaining p op) as [q ok] eqn:E.
  pose proof (apply_ops_bounds valid remaining ops q) as Hb. destruct (apply_ops valid remaining q ops) as [r n] eqn:F.
  intros [= <- Hn]. destruct ok; [lia|]. assert (n = 0) as -> by lia. apply IH in F as ->.
  unfold apply_op in E. destruct (String.eqb (op_Op op) "add"); [|destruct (String.eqb (op_Op op) "remove");
    [|destruct (String.eqb (op_Op op) "update")]]; repeat case_match; congruence.
Qed.

Lemma applyPatch_fit patch valid remaining p B : 0 <= B -> B + Z.of_nat (length (Operations patch)) < 2 ^ 63 ->
  plan_fit p -> numbers_within B (Steps p) -> ops_within B (Operations patch) ->
  let p' := fst (applyPatch patch valid remaining p) in
  plan_fit p' /\ numbers_within (B + Z.of_nat (length (Operations patch))) (Steps p').
Proof.
  intros HB Hl [Hf Hp] Hn Ho. pose proof (apply_ops_fit valid remaining _ p B HB Hl Hf Hn Ho) as [H1 H2].
  pose proof (apply_ops_bounds valid remaining (Operations patch) p) as Hb.
  unfold applyPatch. destruct (apply_ops valid remaining p (Operations patch)) as [q n] eqn:E. cbn [fst] in H1, H2.
  destruct (Z.ltb_spec 0 n); cbn [fst]; [split; [by apply advance_fit|done]|].
  assert (n = 0) as -> by lia. apply apply_ops_none in E as ->. by split.
Qed.
Lemma applyPatch_bounds patch valid remaining p : let '(p', n) := applyPatch patch valid remaining p in
  finished_steps p' = finished_steps p /\ pendingCount p' <= Z.max (pendingCount p) remaining
  /\ Rev p' = (if Z.ltb 0 n then Rev p + 1 else Rev p).
Proof.
  pose proof (apply_ops_bounds valid remaining (Operations patch) p) as Hb. unfold applyPatch.
  destruct (apply_ops valid remaining p (Operations patch)) as [q n].
  destruct Hb as (H1 & H2 & H3 & _). destruct (Z.ltb 0 n) eqn:E; rewrite ?E; cbn [Rev advance]; [|done].
  repeat split; [exact H1|exact H2|lia].
Qed.

(** ** Completing a step *)

Lemma unique_splits l s : NoDup (ids l) -> s ∈ l ->
  exists b a, l = b ++ s :: a /\ Forall (fun y => has_id (rs_ID s) y = false) b.
Proof.
  intros Hu Hs. apply list_elem_of_split in Hs as (b & a & ->). exists b, a. split; [done|].
  apply Forall_forall. intros y Hy. apply not_true_iff_false. rewrite has_id_spec. intros E.
  unfold ids in Hu. rewrite fmap_app, fmap_cons in Hu. apply NoDup_app in Hu as (_ & Hd & _).
  apply (Hd (rs_ID y)); [by apply list_elem_of_fmap_2|]. rewrite E. left.
Qed.
Lemma finished_elem s p : s ∈ finished_steps p <-> s ∈ Steps p /\ pending s = false.
Proof. unfold finished_steps. rewrite !list_elem_of_In, List.filter_In. by rewrite negb_true_iff. Qed.

Lemma complete_current p s summary : plan_fit p -> currentStep p = Some s ->
  let p' := completeStep (rs_ID s) summary p in
  plan_fit p' /\ ids (Steps p') = ids (Steps p) /\ pendingCount p' = pendingCount p - 1
  /\ finish_step summary s ∈ finished_steps p' /\ finished_steps p ⊆ finished_steps p'.
Proof.
  intros [Hf Hpt] Hc. apply currentStep_pending in Hc as [Hs Hp]. cbn zeta.
  destruct (unique_splits _ s (fit_unique _ Hf) Hs) as (b & a & Hl & Hb).
  assert (Steps (completeStep (rs_ID s) summary p) = b ++ finish_step summary s :: a) as Hl'.
  { unfold completeStep. cbn [Steps advance set_steps]. rewrite Hl. apply update_step_at; [by apply has_id_spec|done]. }
  split; [|split; [|split; [|split]]].
  - apply advance_fit. change (Steps (set_steps _ _)) with (Steps (completeStep (rs_ID s) summary p)). rewrite Hl'.
    rewrite <- Permutation_middle. apply (steps_fit_edit s); [done| |by rewrite Permutation_middle, <- Hl].
    pose proof (fit_skill _ Hf) as Hk. rewrite Hl, Forall_app, Forall_cons in Hk. apply Hk.
  - rewrite Hl', Hl. unfold ids. by rewrite !fmap_app, !fmap_cons.
  - rewrite !pendingCount_count, Hl', Hl, !plan_count_app, !plan_count_cons, Hp. cbn [finish_step pending rs_Status]. cbn. lia.
  - apply finished_elem. rewrite Hl'. split; [|done]. rewrite elem_of_app, elem_of_cons. auto.
  - intros t [Ht Hd]%finished_elem. apply finished_elem. split; [|done]. rewrite Hl' . rewrite Hl in Ht.
    rewrite elem_of_app, elem_of_cons. apply elem_of_app in Ht as [Ht|[->|Ht]%elem_of_cons]; [auto|congruence|auto].
Qed.

(** ** A run of iterations *)

(** The operations a reply proposes. *)
Definition reply_ops (reply : bytes) : list PatchOp :=
  match parsePlanPatch reply with Some patch => Operations patch | None => [] end.
(** Iterations before the synthesis deadline, one reply each. *)
Fixpoint plan_run (valid : string -> bool) (max_iterations iteration : Z) (reserve : bool) (plan : option RolePlan)
    (replies : list bytes) : option RolePlan :=
  match replies with
  | [] => plan
  | reply :: replies =>
      plan_run valid max_iterations (iteration + 1) reserve
        (plan_after valid (iterations_left max_iterations iteration reserve) false plan reply) replies
  end.

Lemma numbers_within_ids B k l : ids k = ids l -> numbers_within B l -> numbers_within B k.
Proof. intros E. apply numbers_within_sub. intros s Hs. rewrite <- E. by apply list_elem_of_fmap_2. Qed.

Lemma step_done_fit valid remaining p s reply B : 0 <= B -> B + Z.of_nat (length (reply_ops reply)) < 2 ^ 63 ->
  plan_fit p -> numbers_within B (Steps p) -> ops_within B (reply_ops reply) -> currentStep p = Some s ->
  let p' := step_done valid remaining p s reply in
  plan_fit p' /\ numbers_within (B + Z.of_nat (length (reply_ops reply))) (Steps p')
  /\ pendingCount p' <= Z.max (pendingCount p - 1) remaining /\ finished_steps p ⊆ finished_steps p'.
Proof.
  unfold reply_ops, step_done. cbn zeta. intros HB Hl Hf Hn Ho Hc. destruct (parsePlanPatch reply) as [patch|].
  - set (summary := if String.eqb _ _ then _ else _).
    destruct (complete_current p s summary Hf Hc) as (Hf' & Hi & Hk & _ & Hd).
    pose proof (applyPatch_fit patch valid remaining _ B HB Hl Hf' (numbers_within_ids _ _ _ Hi Hn) Ho) as [H1 H2].
    pose proof (applyPatch_bounds patch valid remaining (completeStep (rs_ID s) summary p)) as H.
    destruct (applyPatch patch valid remaining (completeStep (rs_ID s) summary p)) as [q n]. cbn [fst] in *.
    destruct H as (Hq & Hr & _). rewrite Hk in Hr. rewrite Hq. done.
  - destruct (complete_current p s (str (extractResultLine reply)) Hf Hc) as (Hf' & Hi & Hk & _ & Hd).
    split; [done|]. split; [cbn; rewrite Z.add_0_r; by eapply numbers_within_ids|]. split; [lia|done].
Qed.

Lemma ops_within_mono B C l : B <= C -> ops_within B l -> ops_within C l.
Proof. intros ? H. eapply Forall_impl; [exact H|]. intros o Ho s n Hs Hn. specialize (Ho s n Hs Hn). lia. Qed.
Lemma plan_after_fit valid remaining p reply B : 0 <= B -> B + Z.of_nat (length (reply_ops reply)) < 2 ^ 63 ->
  plan_fit p -> numbers_within B (Steps p) -> ops_within B (reply_ops reply) ->
  exists p', plan_after valid remaining false (Some p) reply = Some p' /\ plan_fit p'
    /\ numbers_within (B + Z.of_nat (length (reply_ops reply))) (Steps p')
    /\ pendingCount p' <= Z.max 0 (Z.max (pendingCount p - 1) remaining) /\ finished_steps p ⊆ finished_steps p'.
Proof.
  intros HB Hl Hf Hn Ho. unfold plan_after. destruct (currentStep p) as [s|] eqn:E.
  - eexists. split; [reflexivity|]. destruct (step_done_fit valid remaining p s reply B HB Hl Hf Hn Ho E) as (?&?&?&?).
    repeat split; try done; try apply H; lia.
  - exists p. split; [done|]. split; [done|]. split; [by eapply numbers_within_mono; [|exact Hn]; lia|].
    apply currentStep_none in E. unfold pendingCount. rewrite E. cbn. split; [lia|done].
Qed.

Lemma plan_run_bounds valid max_iterations reserve replies : forall iteration p B, 0 <= B ->
  B + Z.of_nat (length (replies ≫= reply_ops)) < 2 ^ 63 ->
  plan_fit p -> numbers_within B (Steps p) -> Forall (fun r => ops_within B (reply_ops r)) replies ->
  exists p', plan_run valid max_iterations iteration reserve (Some p) replies = Some p' /\ plan_fit p'
    /\ finished_steps p ⊆ finished_steps p'
    /\ pendingCount p' <= Z.max 0 (Z.max (pendingCount p - Z.of_nat (length replies))
         (max_iterations - (iteration + Z.of_nat (length replies)) - if reserve then 2 else 1)).
Proof.
  induction replies as [|r l IH]; intros iteration p B HB Hl Hf Hn Ho; cbn [plan_run].
  { exists p. split; [done|]. split; [done|]. split; [done|]. cbn. lia. }
  apply Forall_cons in Ho as [Hr Ho]. rewrite bind_cons, length_app in Hl.
  destruct (plan_after_fit valid (iterations_left max_iterations iteration reserve) p r B) as (q & -> & Hq & Hn' & Hc & Hd);
    [lia|lia|done..|].
  destruct (IH (iteration + 1) q (B + Z.of_nat (length (reply_ops r)))) as (p' & -> & Hp' & Hd' & Hc'); [lia|lia|done|done| |].
  - eapply Forall_impl; [exact Ho|]. intros x. apply ops_within_mono. lia.
  - exists p'. split; [done|]. split; [done|]. split; [by etrans|]. unfold iterations_left in Hc. cbn [length]. destruct reserve; lia.
Qed.

(** ** The plan is worked off in time *)

(** Iterations between this one and the synthesis deadline. *)
Definition to_deadline (max_iterations iteration : Z) (reserve : bool) : Z :=
  max_iterations - iteration - if reserve then 2 else 1.

(** A patch keeps a plan fit: whatever edits a model proposes, the names of the steps stay distinct and
    non-empty, no step has more than one skill, the pointer names a pending step or nothing is pending; what is done
    is untouched, the pending steps never exceed the iterations left (or what was pending before), and the revision
    moves exactly when an edit was applied. *)
Theorem patch_keeps_plan_fit (patch : PlanPatch) valid remaining (p : RolePlan) (B : Z) :
  0 <= B -> B + Z.of_nat (length (Operations patch)) < 2 ^ 63 ->
  plan_fit p -> numbers_within B (Steps p) -> ops_within B (Operations patch) ->
  let '(p', applied) := applyPatch patch valid remaining p in
  plan_fit p' /\ finished_steps p' = finished_steps p /\ pendingCount p' <= Z.max (pendingCount p) remaining
  /\ Rev p' = (if Z.ltb 0 applied then Rev p + 1 else Rev p).
Proof.
  intros HB Hl Hf Hn Ho. pose proof (applyPatch_fit patch valid remaining p B HB Hl Hf Hn Ho) as [H _].
  pose proof (applyPatch_bounds patch valid remaining p) as Hb. by destruct (applyPatch patch valid remaining p).
Qed.

(** C25: A plan is worked off before the synthesis: a fit plan with no more pending steps than iterations before the
    deadline has no step pending when the deadline comes, whatever the executor's replies say and whatever edits they
    propose; every step done before is still done then. *)
Theorem plan_worked_off valid max_iterations iteration reserve (p : RolePlan) (replies : list bytes) (B : Z) :
  0 <= B -> B + Z.of_nat (length (replies ≫= reply_ops)) < 2 ^ 63 ->
  plan_fit p -> numbers_within B (Steps p) -> Forall (fun r => ops_within B (reply_ops r)) replies ->
  pendingCount p <= to_deadline max_iterations iteration reserve ->
  Z.of_nat (length replies) = to_deadline max_iterations iteration reserve ->
  exists p', plan_run valid max_iterations iteration reserve (Some p) replies = Some p'
    /\ currentStep p' = None /\ plan_fit p' /\ finished_steps p ⊆ finished_steps p'.
Proof.
  unfold to_deadline. intros HB Hl Hf Hn Ho Hc Hk.
  destruct (plan_run_bounds valid max_iterations reserve replies iteration p B HB Hl Hf Hn Ho) as (p' & Hr & Hp' & Hd & Hb).
  exists p'. split; [done|]. split; [|done]. destruct (currentStep p') as [s|] eqn:E; [|done].
  apply currentStep_pending in E as [Hs Hp]. rewrite pendingCount_count in Hb at 1.
  apply list_elem_of_split in Hs as (b & a & Hs). rewrite Hs, plan_count_app, plan_count_cons, Hp in Hb. destruct reserve; lia.
Qed.

(** ** What the planner's answer is made into *)

(** Moving the pointer to the step to run now does not change which one that is. *)
Lemma advance_current p t : currentStep p = Some t ->
  exists u, currentStep (advance p) = Some u /\ rs_ID u = rs_ID t.
Proof.
  intros E. unfold advance. rewrite E. destruct (currentStep_pending p t E) as [Ht Hp].
  unfold currentStep. cbn [CurrentStepID Steps]. destruct (String.eqb_spec (rs_ID t) "") as [Hi|Hi].
  - destruct (List.find pending (Steps p)) as [u|] eqn:F.
    + exists u. split; [done|]. revert E. unfold currentStep. destruct (String.eqb_spec (CurrentStepID p) "") as [|Hc].
      * rewrite F. by intros [= ->].
      * destruct (List.find (fun s => has_id (CurrentStepID p) s && pending s) (Steps p)) as [v|] eqn:G.
        { intros [= ->]. apply find_some in G as [_ [G%has_id_spec _]%andb_true_iff]. congruence. }
        rewrite F. by intros [= ->].
    + apply list_elem_of_In in Ht. by rewrite (find_none _ _ F t Ht) in Hp.
  - destruct (List.find (fun s => has_id (rs_ID t) s && pending s) (Steps p)) as [u|] eqn:F.
    + exists u. split; [done|]. apply find_some in F as [_ [F _]%andb_true_iff]. by apply has_id_spec.
    + apply list_elem_of_In in Ht. pose proof (find_none _ _ F t Ht) as H. cbn in H.
      rewrite (proj2 (has_id_spec _ _)), Hp in H by done. done.
Qed.

Lemma parsed_steps reply p : parsePlanJSON reply = Some p -> exists proposed,
  proposed <> [] /\ Steps p = imap normal_step proposed /\ Rev p = 1
  /\ forall s, currentStep p = Some s -> CurrentStepID p = rs_ID s.
Proof.
  unfold parsePlanJSON. destruct (first_body _ _ _ _) as [body|]; [|done]. cbn [mbind option_bind].
  destruct (Members body) as [j|]; [|done]. cbn [mbind option_bind]. destruct (is_object j || is_null j); [|done].
  destruct (decode_int "plan_rev" j); [|done]. destruct (decode_string "current_step_id" j) as [current|]; [|done].
  destruct (decode_into [] (as_list as_role_step) "steps" j) as [[|s l]|]; [done| |done]. cbn [mbind option_bind].
  set (p0 := MkRolePlan 1 current _). intros [= <-]. exists (s :: l). split; [done|].
  destruct (currentStep p0) as [t|] eqn:E.
  - split; [done|]. split; [done|]. intros u Hu. apply advance_current in E as E'. destruct E' as (v & Hv & Hi).
    rewrite Hu in Hv. injection Hv as <-. unfold advance. by rewrite E.
  - split; [done|]. split; [done|]. intros u Hu. congruence.
Qed.
Lemma step_id_visible n : 0 <= n -> blank (step_id n) = false.
Proof.
  intros Hn. assert (Forall graphic (lit "step_" ++ pad3 n)) as H.
  { apply Forall_app. split; [by repeat constructor|]. unfold pad3. rewrite (proj2 (Z.leb_le 0 n)) by done.
    destruct (digits_spec n Hn) as (Hd & _).
    assert (forallb is_digit (zeros (3 - length (digits n)) ++ digits n) = true) as Hf
      by (rewrite forallb_app, zeros_digits; exact Hd).
    apply forallb_Forall in Hf. eapply Forall_impl; [exact Hf|]. intros c. by destruct c as [[] [] [] [] [] [] [] []]. }
  apply Forall_graphic_ends in H as [Hl Hr]. unfold blank, TrimSpace, step_id. by rewrite lit_str, TrimSpace_b_graphic.
Qed.
Definition step_normal (s : RoleStep) : Prop :=
  blank (rs_ID s) = false /\ (length (rs_Skills s) <= 1)%nat /\ rs_Status s <> ""%string.
Lemma normal_step_normal i s : step_normal (normal_step i s).
Proof.
  unfold normal_step, step_normal. cbn [rs_ID rs_Skills rs_Status]. split; [|split].
  - destruct (blank (rs_ID s)) eqn:E; [|exact E].
    apply step_id_visible. lia.
  - rewrite length_take. lia.
  - by destruct (String.eqb_spec (rs_Status s) "").
Qed.

(** The plan the handler keeps is normal whatever the planner wrote: it has a step, its revision is 1, every step
    has a visible name, at most one skill and a status, and the pointer names the step to run now; when the planner's
    names are distinct and something is pending, the plan is fit. *)
Theorem parsed_plan_is_normal (reply : bytes) (p : RolePlan) : parsePlanJSON reply = Some p ->
  Steps p <> [] /\ Rev p = 1 /\ Forall step_normal (Steps p)
  /\ (forall s, currentStep p = Some s -> CurrentStepID p = rs_ID s)
  /\ (NoDup (ids (Steps p)) -> 0 < pendingCount p -> plan_fit p).
Proof.
  intros (proposed & Hp & Hs & Hr & Hc)%parsed_steps.
  assert (Forall step_normal (Steps p)) as Hn.
  { rewrite Hs. apply Forall_forall. intros s Hin. apply list_elem_of_lookup in Hin as [i Hi].
    rewrite list_lookup_imap in Hi. destruct (proposed !! i); [|done]. injection Hi as <-. apply normal_step_normal. }
  split; [rewrite Hs; by destruct proposed|]. split; [done|]. split; [done|]. split; [done|].
  intros Hu Hpos. assert (steps_fit (Steps p)) as Hf.
  { split; [done|..]; (eapply Forall_impl; [exact Hn|]); intros s (H1 & H2 & _); [|done]. intros E. by rewrite E in H1. }
  split; [done|]. unfold pointed. destruct (currentStep p) as [s|] eqn:E.
  - rewrite (Hc s) by done. apply currentStep_pending in E as [Hin Hq]. pose proof (fit_named _ Hf) as Hnm.
    rewrite Forall_forall in Hnm. destruct (String.eqb_spec (rs_ID s) ""); [by destruct (Hnm s)|]. by exists s.
  - apply currentStep_none in E. unfold pendingCount in Hpos. rewrite E in Hpos. done.
Qed.

(** ** Two steps of one name

    Names a planner repeats are kept; completing the second step marks the first one again, and the second stays
    pending for good. *)
Theorem repeated_name_never_done valid remaining rev current (s t : RoleStep) l (reply : bytes) :
  rs_ID s = rs_ID t -> pending t = true -> parsePlanPatch reply = None ->
  let p' := step_done valid remaining (MkRolePlan rev current (s :: t :: l)) t reply in
  exists s', Steps p' = s' :: t :: l /\ rs_ID s' = rs_ID t.
Proof.
  intros Hi Hp Hn. unfold step_done. rewrite Hn. unfold completeStep. cbn [Steps set_steps advance update_step].
  rewrite (proj2 (has_id_spec _ _)) by done. by eexists.
Qed.

(** ** A run on concrete replies *)

Definition demo_block (name : string) (j : json) : bytes := lit "<<<" ++ lit name ++ lit " " ++ Marshal j ++ lit " >>>".
Definition demo_step (id goal : string) (skills : list string) : json :=
  JObj [("id", JStr id); ("goal", JStr goal); ("skills", JArr (JStr <$> skills))]%string.
Definition demo_planner : bytes := lit "Plan below. " ++ demo_block "PLAN_JSON"
  (JObj [("steps", JArr [demo_step "" "find sources" ["research"; "writing"]; demo_step "compare" "compare offers" []])])%string.
Definition demo_executor : bytes := lit "Found four. RESULT: four sources" ++ chr 10 :: demo_block "PLAN_PATCH_JSON"
  (JObj [("result_summary", JStr "four sources found");
         ("operations", JArr [JObj [("op", JStr "add"); ("after", JStr "step_001"); ("step", demo_step "" "verify" ["research"])];
                              JObj [("op", JStr "remove"); ("id", JStr "step_001")]])])%string.
Definition demo_valid (s : string) : bool := String.eqb s "research".
Definition demo_plan : RolePlan := default (MkRolePlan 0 "" []) (parsePlanJSON demo_planner).
Definition demo_patch : PlanPatch := default (MkPlanPatch "" "" []) (parsePlanPatch demo_executor).

Example demo_planned : demo_plan = MkRolePlan 1 "step_001"
  [MkRoleStep "step_001" "find sources" ["research"%string] "pending" "" "";
   MkRoleStep "compare" "compare offers" [] "pending" "" ""].
Proof. vm_compute. reflexivity. Qed.
Example demo_executed : plan_after demo_valid 2 false (Some demo_plan) demo_executor = Some (MkRolePlan 2 "compare"
  [MkRoleStep "step_001" "find sources" ["research"%string] "done" "" "four sources found";
   MkRoleStep "step_002" "verify" ["research"%string] "pending" "" "";
   MkRoleStep "compare" "compare offers" [] "pending" "" ""]).
Proof. vm_compute. reflexivity. Qed.

Definition within (B : Z) (s : RoleStep) : bool := match scan_step (rs_ID s) with Some n => Z.leb n B | None => true end.
Lemma within_spec B s : within B s = true -> forall n, scan_step (rs_ID s) = Some n -> n <= B.
Proof. unfold within. intros H n E. rewrite E in H. lia. Qed.
Lemma numbers_within_all B l : forallb (within B) l = true -> numbers_within B l.
Proof. intros H s n Hs. rewrite forallb_forall in H. apply list_elem_of_In in Hs. by apply within_spec, H. Qed.
Lemma ops_within_all B l :
  forallb (fun o => match op_Step o with Some s => within B s | None => true end) l = true -> ops_within B l.
Proof.
  intros H. apply Forall_forall. intros o Ho s n Hs. rewrite forallb_forall in H. apply list_elem_of_In, H in Ho.
  rewrite Hs in Ho. by apply within_spec.
Qed.
Lemma demo_plan_fit : plan_fit demo_plan.
Proof.
  rewrite demo_planned. split; [split|].
  - refine (bool_decide_unpack _ _). vm_compute. exact I.
  - by repeat constructor.
  - repeat constructor; cbn; lia.
  - cbn. eexists. split; [left|done].
Qed.

Lemma parsed_plan_is_normal_witness :
  parsePlanJSON demo_planner = Some demo_plan /\ Rev demo_plan = 1 /\ Steps demo_plan <> [].
Proof.
  assert (parsePlanJSON demo_planner = Some demo_plan) as H by (vm_compute; reflexivity).
  split; [exact H|]. destruct (parsed_plan_is_normal demo_planner demo_plan H) as (H1 & H2 & _). by split.
Defined.
Lemma patch_keeps_plan_fit_witness :
  let '(p', applied) := applyPatch demo_patch demo_valid 3 demo_plan in applied = 2 /\ plan_fit p' /\ Rev p' = 2.
Proof.
  assert (snd (applyPatch demo_patch demo_valid 3 demo_plan) = 2) as Hs by (vm_compute; reflexivity).
  pose proof (patch_keeps_plan_fit demo_patch demo_valid 3 demo_plan 10 ltac:(lia) ltac:(vm_compute; reflexivity)
    demo_plan_fit ltac:(apply numbers_within_all; vm_compute; reflexivity)
    ltac:(apply ops_within_all; vm_compute; reflexivity)) as H.
  destruct (applyPatch demo_patch demo_valid 3 demo_plan) as [p' n]. cbn in Hs. subst n.
  destruct H as (H1 & _ & _ & H2). split; [reflexivity|]. split; [exact H1|]. rewrite H2. vm_compute. reflexivity.
Defined.
(** Six iterations: the plan of two steps, patched to three on the way, is done at the deadline. *)
Definition demo_replies : list bytes := [demo_executor; lit "RESULT: verified"; lit "compared"].
Lemma plan_worked_off_witness : exists p',
  plan_run demo_valid 6 1 true (Some demo_plan) demo_replies = Some p'
  /\ currentStep p' = None /\ finished_steps demo_plan ⊆ finished_steps p'.
Proof.
  destruct (plan_worked_off demo_valid 6 1 true demo_plan demo_replies 10) as (p' & H1 & H2 & _ & H3).
  - lia.
  - vm_compute. reflexivity.
  - apply demo_plan_fit.
  - apply numbers_within_all. vm_compute. reflexivity.
  - do 3 (apply Forall_cons; split; [apply ops_within_all; vm_compute; reflexivity|]). apply Forall_nil. exact I.
  - vm_compute. discriminate.
  - vm_compute. reflexivity.
  - exists p'. split; [exact H1|]. by split.
Defined.
