(* ===== verification/Background.v ===== *)
(** * Background: the end of an iteration of a background task

    runtime/handler/background.go: which phase an iteration is in, and what its
    reply becomes: the plan and the ledger it leaves, whether the task is done,
    waits or goes on, what the owner is told, and which offered items that
    message delivers.  runtime/handler/evidence.go: the ledger of established
    facts; notification_validation.go: the last check of a message.

    The members of [bgProgress] this code never reads are left out, and so are
    the tool log, which every result carries, and the logger. *)

From Stdlib Require Import Ascii String.
From stdpp Require Import pretty.
From S2P Require Import Deadlines Prelude GoStrings Json GoJson Task TaskConfig Store AgentText Conversation GraphStep Regex RolePlan.

Local Open Scope Z_scope.

(** ** The evidence ledger *)

Record EvidenceEntry := MkEvidence { ev_Claim : bytes; ev_URL : bytes; ev_Span : bytes; ev_Iteration : Z }.
Definition evidenceSpanMax : nat := 300.
Definition evidenceClaimMax : nat := 220.
Definition evidenceMaxEntries : nat := 40.

Definition as_evidence (j : json) : option EvidenceEntry :=
  if is_object j || is_null j then
    claim ← decode_string "claim" j; url ← decode_string "url" j; span ← decode_string "span" j;
    iteration ← decode_int "iteration" j;
    Some (MkEvidence (lit claim) (lit url) (lit span) iteration)
  else None.
Definition parseEvidenceJSON (reply : bytes) : list EvidenceEntry :=
  default [] (body ← first_body "EVIDENCE_JSON" "[" "]" reply; j ← Members body; as_list as_evidence [] j).

(** Cutting runes of a set off either end. *)
Fixpoint trim_left_set (fuel : nat) (set : list bytes) (s : bytes) : bytes :=
  match fuel with
  | O => s
  | S fuel => match List.find (fun w => HasPrefix s w) set with
              | Some w => trim_left_set fuel set (drop (length w) s)
              | None => s
              end
  end.
Definition trim_right_runes (set : list bytes) (s : bytes) : bytes :=
  reverse (trim_left_set (length s) (reverse <$> set) (reverse s)).
Definition opening : list bytes := [lit "("; lit "<"; lit "["; [chr 194; chr 171]; [chr 34]; lit "'"; lit "`"].
Definition closing : list bytes :=
  ((fun c => [c]) <$> lit ".,;:!?)>]") ++ [[chr 194; chr 187]; [chr 34]; lit "'"; lit "`"].

(** [strings.Fields] *)
Fixpoint fields_from (fuel : nat) (word : bytes) (s : bytes) : list bytes :=
  let flush := match word with [] => [] | _ => [reverse word] end in
  match fuel with
  | O => flush
  | S fuel =>
      match s with
      | [] => flush
      | c :: s' => match space_prefix wide_spaces s with
                   | O => fields_from fuel (c :: word) s'
                   | n => flush ++ fields_from fuel [] (drop n s)
                   end
      end
  end.
Definition Fields (s : bytes) : list bytes := fields_from (S (length s)) [] s.

Section evidence.
Context (ToLower : bytes -> bytes).          (* strings.ToLower *)

(** internal/core/docurl.go *)
Definition NormalizeDocURL (raw : bytes) : bytes :=
  let u := TrimSpace_b raw in
  let u := trim_left_set (length u) opening u in
  let u := trim_right_runes closing u in
  let u := TrimPrefix (TrimPrefix u (lit "https://")) (lit "http://") in
  let u := TrimPrefix u (lit "www.") in
  let u := match Index u (lit "#") with Some i => take i u | None => u end in
  ToLower (Citations.TrimSuffix u (lit "/")).
Definition evidenceKey (e : EvidenceEntry) : bytes :=
  ToLower (Join (lit " ") (Fields (ev_Claim e))) ++ chr 0 :: NormalizeDocURL (ev_URL e).
Definition trimmed_entry (e : EvidenceEntry) : EvidenceEntry :=
  MkEvidence (TrimSpace_b (ev_Claim e)) (TrimSpace_b (ev_URL e)) (TrimSpace_b (ev_Span e)) (ev_Iteration e).
Definition stored_entry (iteration : Z) (e : EvidenceEntry) : EvidenceEntry :=
  MkEvidence (PlanExec.truncate (ev_Claim e) evidenceClaimMax) (ev_URL e)
    (PlanExec.truncate (ev_Span e) evidenceSpanMax) iteration.
Definition sourced (e : EvidenceEntry) : bool :=
  negb (bool_decide (ev_Claim e = [])) && negb (bool_decide (NormalizeDocURL (ev_URL e) = [])).

(** The entries an iteration adds; [seen] are the keys recorded so far. *)
Fixpoint new_entries (iteration : Z) (seen : gset bytes) (proposed : list EvidenceEntry) : list EvidenceEntry :=
  match proposed with
  | [] => []
  | e :: proposed =>
      let e := trimmed_entry e in
      if sourced e && negb (bool_decide (evidenceKey e ∈ seen))
      then stored_entry iteration e :: new_entries iteration ({[evidenceKey e]} ∪ seen) proposed
      else new_entries iteration seen proposed
  end.
Definition mergeEvidence (carried proposed : list EvidenceEntry) (iteration : Z) : list EvidenceEntry :=
  let out := carried ++ new_entries iteration (list_to_set (evidenceKey <$> carried)) proposed in
  drop (length out - evidenceMaxEntries) out.
End evidence.

(** ** What a reply says besides its text *)

Definition strip_all (markers : list string) (s : bytes) : bytes :=
  fold_left (fun s marker => ReplaceAll s (lit marker) []) markers s.

(** A line that only says the work is done. *)
Definition word_i (s : string) : re := literal_i (lit s).
Definition full_stop : re := Opt (Rune (is_rune 46)).
Definition receipt_of (head : string) (tails : list string) : re :=
  sequence [word_i head; Star true (Rune (one_of [44; 46; 33; 32])); Opt (alternatives (word_i <$> tails)); full_stop].
Definition backgroundStatusTailRE : re :=
  sequence [TextStart; spaces_;
    alternatives [receipt_of "готово" ["напомнила"; "отметила"; "записала"; "сделала"; "проверила"; "обновила"];
                  receipt_of "done" ["reminded"; "noted"; "saved"; "updated"; "checked"; "sent"];
                  Then (word_i "reminded") full_stop; Then (word_i "noted") full_stop];
    spaces_; TextEnd]%string.
Fixpoint drop_blank (l : list bytes) : list bytes :=
  match l with
  | x :: l' => if blank_b x then drop_blank l' else l
  | [] => []
  end.
Definition stripBackgroundStatusTails (s : bytes) : bytes :=
  match drop_blank (reverse (split_at (chr 10) s)) with
  | last :: before =>
      if negb (MatchString backgroundStatusTailRE last) then s
      else if forallb blank_b before then s
      else TrimSpace_b (Join [chr 10] (reverse before))
  | [] => s
  end.

(** The control line: [[delivered_items: a, b]] at the end of a line, its payload the group. *)
Definition taskProgramDeliveryAckRE : re :=
  sequence [Opt (Rune (is_rune 10)); literal_ (lit "[delivered_items:"); spaces_;
            Group (Star true (Rune (fun r => negb (one_of [93; 13; 10] r)))); literal_ (lit "]"); spaces_; LineEnd].
Definition taskProgramDeliveryAckAttemptRE : re :=
  sequence [literal_ (lit "["); spaces_; word_i "delivered_items"; spaces_; literal_ (lit ":")].

(** [strings.Count] of a text that does not overlap itself. *)
Fixpoint occurrences (sub s : bytes) : nat :=
  match s with
  | [] => 0
  | _ :: s' => if HasPrefix s sub then S (occurrences sub s') else occurrences sub s'
  end.
(** [strings.EqualFold(s, "none")]: no other rune folds to these letters. *)
Definition is_none_word (s : bytes) : bool := bool_decide (Projection.ToLower_ascii s = lit "none").
(** The refs the tokens stand for, in order, each once. *)
Fixpoint acknowledged_refs (offered : gmap string TaskDeliveryRef) (seen : list TaskDeliveryRef) (tokens : list bytes)
    : option (list TaskDeliveryRef) :=
  match tokens with
  | [] => Some []
  | t :: tokens =>
      let t := TrimSpace_b t in
      match t, offered !! str t with
      | [], _ | _, None => None
      | _, Some ref =>
          if is_none_word t then None
          else if bool_decide (ref ∈ seen) then acknowledged_refs offered seen tokens
          else cons ref <$> acknowledged_refs offered (ref :: seen) tokens
      end
  end.
(** The text without its control line, the acknowledged items and whether the line is valid. *)
Definition consumeTaskProgramDeliveryAck (text : bytes) (offered : gmap string TaskDeliveryRef)
    : bytes * list TaskDeliveryRef * bool :=
  match FindSubmatch taskProgramDeliveryAckRE text with
  | None => (text, [], false)
  | Some m =>
      let body := TrimSpace_b (m_before m) in
      if negb (Nat.eqb (occurrences (lit "[delivered_items:") text) 1) then (body, [], false)
      else
        let payload := TrimSpace_b (m_group m) in
        match payload with
        | [] => (body, [], false)
        | _ => if is_none_word payload then (body, [], true)
               else match acknowledged_refs offered [] (split_at "," payload) with
                    | Some refs => (body, refs, true)
                    | None => (body, [], false)
                    end
        end
  end.

(** Text that is raw tool output: nothing but identifiers. *)
Definition isGarbageOutput (s : bytes) : bool :=
  let cleaned := List.filter (fun c => negb (existsb (Ascii.eqb c) [","%char; " "%char; chr 10; "["%char; "]"%char])) (TrimSpace_b s) in
  Nat.ltb 0 (length cleaned) && Nat.eqb (length cleaned mod 36) 0
  && forallb (fun c => in_range 48 57 c || in_range 97 102 c || Ascii.eqb c "-"%char) cleaned.
Definition no_submission (clean : bytes) : bool :=
  bool_decide (clean = []) || Contains clean (lit "[no-op]") || isGarbageOutput clean.

(** A heading TL;DR on a line of its own, or TL;DR before a colon or a dash. *)
Definition tldr : re := sequence [word_i "TL"; Opt (Rune (is_rune 59)); word_i "DR"].
Definition numbered (tail : re) : re := sequence [Plus true (Rune digit_rune); Rune (is_rune 46); tail].
Definition tldrRE : re :=
  Or (sequence [LineStart; Star true (Rune (is_rune 35)); spaces_; Opt (numbered spaces_); tldr; Opt (Rune (is_rune 58));
                spaces_; LineEnd])
     (sequence [tldr; spaces_; Rune (one_of [58; 8212; 45])]).
(** The heading after it. *)
Definition nextHeadingRE : re :=
  let hash := Rune (is_rune 35) in
  let space := Plus true (Rune space_rune) in
  sequence [LineStart; spaces_;
    Or (sequence [hash; Opt (Then hash (Opt hash)); space])
       (numbered (Then space (Rune (fun r => between 1040 1071 r || between 65 90 r))))].
Definition notifyDigest (text : bytes) : bytes :=
  let body := match FindSubmatch tldrRE text with
    | Some m =>
        let section := m_after m in
        let section := match FindSubmatch nextHeadingRE section with Some h => m_before h | None => section end in
        match TrimSpace_b section with [] => text | s => s end
    | None => text
    end in
  let r := runes_of (TrimSpace_b body) in
  let truncated := Nat.ltb 600 (length r) || Nat.ltb (length body) (length (TrimSpace_b text)) in
  let body := if Nat.ltb 600 (length r) then List.concat (take 600 r) ++ lit "…" else body in
  if truncated then body ++ chr 10 :: chr 10 :: lit "Полный отчёт — в артефактах." else body.

(** ** The phase of an iteration *)

Record bgProgress := MkBgProgress {
  bp_Phase : bytes;
  bp_Summary : bytes;
  bp_PeerTaskID : string;
  bp_RevisionCount : Z;
  bp_Plan : option RolePlan;
  bp_Evidence : list EvidenceEntry;
  bp_BlankSubmissions : Z;
}.
Definition with_phase (phase : bytes) (p : bgProgress) : bgProgress :=
  MkBgProgress phase (bp_Summary p) (bp_PeerTaskID p) (bp_RevisionCount p) (bp_Plan p) (bp_Evidence p) (bp_BlankSubmissions p).
Definition with_blank (n : Z) (p : bgProgress) : bgProgress :=
  MkBgProgress (bp_Phase p) (bp_Summary p) (bp_PeerTaskID p) (bp_RevisionCount p) (bp_Plan p) (bp_Evidence p) n.

(** How the task is configured: its instruction and input mode, what becomes of
    its reply, whether it has a typed program and the host has skills. *)
Record bg_config := MkBgConfig {
  bc_Instruction : string;
  bc_InputMode : string;
  bc_NotifyDefault : bool;
  bc_VoiceHandoff : bool;
  bc_Program : bool;
  bc_Skills : bool;
}.
Definition default_flow (c : bg_config) : bool :=
  String.eqb (bc_Instruction c) "background-task" && String.eqb (bc_InputMode c) "prompt_key".
Definition hasAcceptanceGate (task : AgentTask) : bool :=
  is_none (Schedule task)
  && match AcceptanceCriteria task with Some c => negb (blank c) | None => false end.
Definition isLast (task : AgentTask) : bool :=
  Z.ltb 0 (MaxIterations task) && Z.leb (MaxIterations task) (Iteration task + 1).
Definition reserveAcceptanceRepair (task : AgentTask) (c : bg_config) : bool :=
  hasAcceptanceGate task && default_flow c && negb (bc_Program c) && Z.leb 4 (MaxIterations task).
Definition researchTask (task : AgentTask) (c : bg_config) : bool :=
  is_none (Schedule task) && is_none (Cadence task) && negb (String.eqb (Strategy task) StrategyRecurring)
  && default_flow c && negb (bc_Program c).
(** runtime/handler/background_budget.go *)
Definition researchDeadline (task : AgentTask) (reserve : duration) : option time :=
  match Deadline task with
  | None => None
  | Some deadline =>
      let reserve := if Z.leb reserve 0 then 3 * Minute else reserve in
      let reserve :=
        if negb (IsZero (CreatedAt task)) then
          let total := deadline - TaskWallStart (wall_start_at (Config task)) task (CreatedAt task) in
          if Z.ltb 0 total && Z.ltb (Z.quot total 3) reserve then Z.quot total 3 else reserve
        else reserve in
      Some (deadline - reserve)
  end.
Definition plan_exhausted (p : bgProgress) : bool :=
  match bp_Plan p with Some plan => Z.eqb (pendingCount plan) 0 | None => false end.
Definition research_over (task : AgentTask) (c : bg_config) (p : bgProgress) (now : time) (reserve : duration) : bool :=
  researchTask task c
  && (bool_decide (bp_Phase p = lit "finalizing") || plan_exhausted p
      || match researchDeadline task reserve with Some d => Z.leb d now | None => false end).
Definition planActive (task : AgentTask) (c : bg_config) (p : bgProgress) : bool :=
  default_flow c && Z.leb 4 (MaxIterations task) && bc_Skills c
  && negb (is_none (bp_Plan p) && Z.ltb 0 (Iteration task)).
(** The step this iteration is for. *)
Definition planStep (task : AgentTask) (c : bg_config) (p : bgProgress) : option RoleStep :=
  if planActive task c p then match bp_Plan p with Some plan => currentStep plan | None => None end else None.
Definition isSynthesisDeadline (task : AgentTask) (c : bg_config) (p : bgProgress) (now : time) (reserve : duration) : bool :=
  isLast task
  || reserveAcceptanceRepair task c && Z.leb (MaxIterations task) (Iteration task + 2)
  || research_over task c p now reserve
  || planActive task c p && is_some (bp_Plan p) && is_none (planStep task c p).

(** ** What an iteration returns *)

Inductive bg_error : Type :=
| EAckRequired | EAckEmpty | EVoiceHandoff | ETooLong (limit : Z)
| EValidate (e : string) | EEmptyReplacement | EDeliveryChanged.
(** The saved progress comes with the note the next iteration reads, if any. *)
Record bg_result := MkBgResult {
  br_Done : bool;
  br_Pause : bool;
  br_Progress : option (bgProgress * option bytes);
  br_Output : bytes;
  br_Notify : bytes;
  br_Pending : list TaskDeliveryRef;
}.
Definition empty_handed : bg_result := MkBgResult false false None [] [] [].
Definition with_notify (notify : bytes) (pending : list TaskDeliveryRef) (r : bg_result) : bg_result :=
  MkBgResult (br_Done r) (br_Pause r) (br_Progress r) (br_Output r) notify pending.

(** runtime/handler/notification_validation.go *)
Definition handoff : bytes := lit "[voice_handoff]" ++ [chr 10].
Definition validateBackgroundNotification (validate : bytes -> res string bytes) (text : bytes) (keyedDelivery : bool)
    : res bg_error bytes :=
  let prefix := if HasPrefix text handoff then handoff else [] in
  let text := TrimPrefix text handoff in
  match validate text with
  | Err e => Err (EValidate e)
  | Ok safe =>
      if blank_b safe then Err EEmptyReplacement
      else if keyedDelivery && negb (bool_decide (safe = text)) then Err EDeliveryChanged
      else Ok (prefix ++ safe)
  end.
(** What [Run] does on every return. *)
Definition on_return (validator : option (bytes -> res string bytes)) (r : bg_result) (pending : list TaskDeliveryRef)
    (err : option bg_error) : bg_result * option bg_error :=
  match err, br_Notify r, validator with
  | None, _ :: _, Some validate =>
      match validateBackgroundNotification validate (br_Notify r) (match pending with [] => false | _ => true end) with
      | Err e => (with_notify [] [] r, Some e)
      | Ok safe => (with_notify safe pending r, None)
      end
  | _, _, _ => (with_notify (br_Notify r) pending r, err)
  end.

(** ** Settling an iteration *)

Record bg_iteration := MkBgIteration {
  i_task : AgentTask;
  i_config : bg_config;
  i_progress : bgProgress;                 (* before the reply *)
  i_now : time;
  i_reserve : duration;                    (* TaskFinalizeReserve *)
  i_reply : bytes;
  i_traces : list ToolTrace;
  i_offered : gmap string TaskDeliveryRef; (* the task program's items, by token *)
  i_pauseTools : string -> bool;
  i_reviseTools : string -> bool;
  i_slugs : string -> bool;                (* the host's skill catalog *)
  i_lower : bytes -> bytes;                (* strings.ToLower *)
}.
Definition maxRevisions : Z := 3.
Definition maxTaskProgramDeliveryNotificationRunes : Z := 3500.

Definition i_gate (i : bg_iteration) : bool := hasAcceptanceGate (i_task i).
Definition i_synthesis (i : bg_iteration) : bool :=
  isSynthesisDeadline (i_task i) (i_config i) (i_progress i) (i_now i) (i_reserve i).
Definition keyed (i : bg_iteration) : bool := negb (bool_decide (i_offered i = ∅)).

(** The plan after the reply. *)
Definition next_plan (i : bg_iteration) : option RolePlan :=
  if planActive (i_task i) (i_config i) (i_progress i) then
    plan_after (i_slugs i)
      (iterations_left (MaxIterations (i_task i)) (Iteration (i_task i)) (reserveAcceptanceRepair (i_task i) (i_config i)))
      (i_synthesis i) (bp_Plan (i_progress i)) (i_reply i)
  else bp_Plan (i_progress i).

(** The task an asynchronous peer tool returned; the last one counts. *)
Definition peer_task (output : string) : option string :=
  match Members (lit output) with
  | Some (JObj fs) =>
      match List.find (fun p => String.eqb (fst p) "task_id") (reverse fs) with
      | Some (_, JStr id) => if String.eqb id "" then None else Some id
      | _ => None
      end
  | _ => None
  end.
Definition peer_of (i : bg_iteration) : string :=
  fold_left (fun id t => if i_pauseTools i (t_Name t) then default id (peer_task (t_Output t)) else id) (i_traces i) ""%string.
Definition iterationSentMessage (traces : list ToolTrace) : bool :=
  existsb (fun t => String.eqb (t_Name t) "message_send" && negb (t_Error t)) traces.

Definition next_progress (i : bg_iteration) : bgProgress :=
  let p := i_progress i in
  let peer := peer_of i in
  let revisions := if negb (String.eqb peer "") && negb (String.eqb peer (bp_PeerTaskID p)) then 0 else bp_RevisionCount p in
  let revisions := if existsb (fun t => i_reviseTools i (t_Name t)) (i_traces i) then revisions + 1 else revisions in
  let iteration := Iteration (i_task i) + 1 in
  let proposed := parseEvidenceJSON (i_reply i) in
  MkBgProgress (lit "iteration_" ++ lit (pretty iteration)) (PlanExec.truncate (i_reply i) 500)
    (if String.eqb peer "" then bp_PeerTaskID p else peer) revisions (next_plan i)
    (match proposed with [] => bp_Evidence p | _ => mergeEvidence (i_lower i) (bp_Evidence p) proposed iteration end)
    (bp_BlankSubmissions p).

(** The reply without its markers, its machinery and a closing receipt. *)
Definition clean_reply (reply : bytes) : bytes :=
  let clean := strip_all ["[DONE]"; "[CONTINUE]"; "[PAUSE]"; "[MILESTONE]"; "[NOTIFY]"]%string reply in
  stripBackgroundStatusTails (clean_text clean).
(** The text of the submission, the items it delivers and whether they are acknowledged. *)
Definition read_submission (i : bg_iteration) : bytes * list TaskDeliveryRef * bool :=
  let clean := clean_reply (i_reply i) in
  let '(clean, pending, valid) :=
    if keyed i then consumeTaskProgramDeliveryAck clean (i_offered i) else (clean, [], true) in
  (TrimSpace_b (stripBackgroundStatusTails clean), pending, valid).

(** The note a blank reply is answered with. *)
Definition blank_note (consecutive : Z) : bytes :=
  lit "Your last reply carried no result — it was empty, [no-op], or raw tool output. "
  ++ lit "A reviewer is waiting for the finished deliverable, so a blank iteration submits "
  ++ lit "nothing and costs one of the iterations you have left. Write the deliverable itself now."
  ++ if Z.leb 2 consecutive then
       lit " This is the " ++ lit (pretty consecutive) ++ lit "th blank reply in a row. If a tool limit or missing "
       ++ lit "access genuinely blocks the mission, do NOT answer [no-op] again: write up what you "
       ++ lit "did establish, then state plainly which step is blocked and what would unblock it. "
       ++ lit "A named blocker is a usable result; silence is not."
     else [].

(** With one item on offer a message without any control line is about it. *)
Definition sole_delivery (i : bg_iteration) (pending : list TaskDeliveryRef) (valid : bool) : list TaskDeliveryRef * bool :=
  match map_to_list (i_offered i) with
  | [(_, ref)] =>
      if negb valid && negb (MatchString taskProgramDeliveryAckAttemptRE (i_reply i)) then ([ref], true) else (pending, valid)
  | _ => (pending, valid)
  end.
(** What the owner is told of a submission. *)
Definition submission_notice (i : bg_iteration) (clean : bytes) (pending : list TaskDeliveryRef) : res bg_error bytes :=
  let notify := if negb (bc_NotifyDefault (i_config i)) && negb (Contains (i_reply i) (lit "[NOTIFY]")) then [] else clean in
  let notify := if iterationSentMessage (i_traces i) then [] else notify in
  match notify, pending with
  | [], _ => Ok []
  | _, _ :: _ =>
      if bc_VoiceHandoff (i_config i) then Err EVoiceHandoff
      else if Z.ltb maxTaskProgramDeliveryNotificationRunes (rune_count notify)
      then Err (ETooLong maxTaskProgramDeliveryNotificationRunes) else Ok notify
  | _, [] => Ok (if bc_VoiceHandoff (i_config i) then handoff ++ notify else notifyDigest notify)
  end.

(** The result, the deliveries pending at the return and the error. *)
Definition settlement : Type := bg_result * list TaskDeliveryRef * option bg_error.
Definition settle_submission (i : bg_iteration) : settlement :=
  let '(clean, pending, valid) := read_submission i in
  let blank := no_submission clean in
  let progress := with_blank (if blank then bp_BlankSubmissions (next_progress i) + 1 else 0) (next_progress i) in
  if blank then
    if i_gate i && negb (isLast (i_task i))
    then (MkBgResult false false (Some (progress, Some (blank_note (bp_BlankSubmissions progress)))) [] [] [], pending, None)
    else (MkBgResult true false (Some (progress, None)) [] [] [], pending, None)
  else
    let '(pending, valid) := sole_delivery i pending valid in
    if keyed i && negb valid then (empty_handed, pending, Some EAckRequired)
    else if keyed i && match pending with [] => true | _ => false end then (empty_handed, pending, Some EAckEmpty)
    else match submission_notice i clean pending with
         | Err e => (empty_handed, pending, Some e)
         | Ok notify => (MkBgResult true false (Some (progress, None)) clean notify [], pending, None)
         end.
(** What a milestone says, nothing in a keyed task. *)
Definition milestone (i : bg_iteration) (text : bytes) : bytes :=
  if Contains (i_reply i) (lit "[MILESTONE]") && negb (keyed i) then
    lit (Title (i_task i)) ++ lit " (iteration " ++ lit (pretty (Iteration (i_task i) + 1)) ++ lit "/"
    ++ lit (pretty (MaxIterations (i_task i))) ++ lit ")" ++ chr 10 :: chr 10 :: PlanExec.truncate text 400
  else [].
Definition revision_notice (i : bg_iteration) (p : bgProgress) : bytes :=
  if keyed i then []
  else lit (Title (i_task i)) ++ lit " — peer task " ++ lit (bp_PeerTaskID p) ++ lit " failed "
       ++ lit (pretty (bp_RevisionCount p)) ++ lit " times. Need human input." ++ chr 10 :: chr 10 :: PlanExec.truncate (i_reply i) 300.
Definition settle_iteration (i : bg_iteration) : settlement :=
  let p := next_progress i in
  if Contains (i_reply i) (lit "[DONE]") || i_synthesis i then settle_submission i
  else if Z.leb maxRevisions (bp_RevisionCount p)
  then let p := with_phase (lit "error_loop") p in
       (MkBgResult false true (Some (p, None)) [] (revision_notice i p) [], [], None)
  else if negb (String.eqb (peer_of i) "") || Contains (i_reply i) (lit "[PAUSE]")
  then (MkBgResult false true (Some (with_phase (lit "waiting") p, None)) (i_reply i)
          (milestone i (stripEvidenceMarkers (i_reply i))) [], [], None)
  else (MkBgResult false false (Some (p, None)) (i_reply i) (milestone i (i_reply i)) [], [], None).
Definition finish_iteration (validator : option (bytes -> res string bytes)) (i : bg_iteration) : bg_result * option bg_error :=
  let '(r, pending, err) := settle_iteration i in on_return validator r pending err.

(** * Properties *)

(** ** Acknowledged items *)

(** The items a control line names, each once: every token of it stands for an
    item on offer. *)
Definition names_items (offered : gmap string TaskDeliveryRef) (tokens : list bytes) (refs : list TaskDeliveryRef) : Prop :=
  NoDup refs
  /\ Forall (fun t => exists ref, offered !! str (TrimSpace_b t) = Some ref /\ is_none_word (TrimSpace_b t) = false) tokens
  /\ forall ref, ref ∈ refs <-> exists t, t ∈ tokens /\ offered !! str (TrimSpace_b t) = Some ref.

Lemma acknowledged_refs_spec offered tokens : forall seen refs, acknowledged_refs offered seen tokens = Some refs ->
  NoDup refs
  /\ Forall (fun t => exists ref, offered !! str (TrimSpace_b t) = Some ref /\ is_none_word (TrimSpace_b t) = false) tokens
  /\ forall ref, ref ∈ refs <-> ref ∉ seen /\ exists t, t ∈ tokens /\ offered !! str (TrimSpace_b t) = Some ref.
Proof.
  induction tokens as [|t l IH]; intros seen refs; cbn [acknowledged_refs].
  { intros [= <-]. split; [constructor|]. split; [constructor|]. intros ref. split; [by intros ?%elem_of_nil|].
    by intros (_ & t & ?%elem_of_nil & _). }
  assert (forall ref, (exists t', t' ∈ t :: l /\ offered !! str (TrimSpace_b t') = Some ref)
    <-> offered !! str (TrimSpace_b t) = Some ref \/ exists t', t' ∈ l /\ offered !! str (TrimSpace_b t') = Some ref) as Hex.
  { intros ref. split; [intros (t' & [->|Ht]%elem_of_cons & ?); [by left|right; eauto]|].
    intros [?|(t' & ? & ?)]; [exists t|exists t']; by split; [set_solver|]. }
  destruct (TrimSpace_b t) as [|c t'] eqn:Et; [done|].
  destruct (offered !! str (c :: t')) as [ref|] eqn:E; [|done].
  destruct (is_none_word (c :: t')) eqn:En; [done|]. case_bool_decide as Hs.
  - intros (Hn & Hf & Hr)%IH. split; [done|]. split; [constructor; [rewrite Et; by exists ref|done]|].
    intros x. rewrite Hex, Hr. split; [naive_solver|]. intros (Hx & [[= <-]|?]); [done|by split].
  - destruct (acknowledged_refs offered (ref :: seen) l) as [rest|] eqn:F; [|done]. intros [= <-].
    destruct (IH _ _ F) as (Hn & Hf & Hr). split.
    { constructor; [|done]. rewrite Hr. set_solver. }
    split; [constructor; [rewrite Et; by exists ref|done]|].
    intros x. rewrite Hex, elem_of_cons, Hr. destruct (decide (x = ref)) as [->|Hx].
    + split; [intros _; split; [done|by left]|by intros _; left].
    + split; [intros [?|[H1 H2]]; [done|split; [set_solver|by right]]|].
      intros [H1 [[= <-]|H2]]; [by left|right; split; [set_solver|done]].
Qed.

(** The tokens of the control line of a reply, its only one. *)
Definition control_line (i : bg_iteration) (tokens : list bytes) : Prop :=
  exists m, FindSubmatch taskProgramDeliveryAckRE (clean_reply (i_reply i)) = Some m
  /\ occurrences (lit "[delivered_items:") (clean_reply (i_reply i)) = 1%nat
  /\ tokens = split_at "," (TrimSpace_b (m_group m)).
(** Items a settlement may mark delivered: those the control line names; or the
    only one on offer, when the reply has nothing like a control line. *)
Inductive acknowledges (i : bg_iteration) : list TaskDeliveryRef -> Prop :=
| ack_none : acknowledges i []
| ack_line tokens refs : control_line i tokens -> names_items (i_offered i) tokens refs -> acknowledges i refs
| ack_sole token ref : i_offered i = {[token := ref]} ->
    MatchString taskProgramDeliveryAckAttemptRE (i_reply i) = false -> acknowledges i [ref].

Lemma acknowledges_offered i refs : acknowledges i refs ->
  NoDup refs /\ forall ref, ref ∈ refs -> exists token, i_offered i !! token = Some ref.
Proof.
  intros [|tokens l _ (Hn & _ & Hr)|token ref Ho _].
  - split; [constructor|]. by intros ref ?%elem_of_nil.
  - split; [done|]. intros ref (t & _ & ?)%Hr. eauto.
  - split; [apply NoDup_singleton|]. intros x ->%list_elem_of_singleton. exists token. by rewrite Ho, lookup_singleton_eq.
Qed.

Lemma consume_acknowledges i body refs valid :
  consumeTaskProgramDeliveryAck (clean_reply (i_reply i)) (i_offered i) = (body, refs, valid) -> acknowledges i refs.
Proof.
  unfold consumeTaskProgramDeliveryAck. destruct (FindSubmatch _ _) as [m|] eqn:Em; [|intros [= <- <- <-]; constructor].
  destruct (Nat.eqb_spec (occurrences (lit "[delivered_items:") (clean_reply (i_reply i))) 1) as [Ho|];
    cbn [negb]; [|intros [= <- <- <-]; constructor].
  destruct (TrimSpace_b (m_group m)) as [|c p] eqn:Ep; [intros [= <- <- <-]; constructor|].
  destruct (is_none_word _); [intros [= <- <- <-]; constructor|].
  destruct (acknowledged_refs _ _ _) as [l|] eqn:E; intros [= <- <- <-]; [|constructor].
  apply acknowledged_refs_spec in E as (Hn & Hf & Hr). apply (ack_line i (split_at "," (c :: p))).
  - exists m. by rewrite Ep.
  - split; [done|]. split; [done|]. intros ref. rewrite Hr. split; [by intros [_ ?]|]. intros ?. split; [|done].
    by intros ?%elem_of_nil.
Qed.
Lemma read_submission_acknowledges i clean pending valid :
  read_submission i = (clean, pending, valid) -> acknowledges i pending.
Proof.
  unfold read_submission. destruct (keyed i); [|intros [= <- <- <-]; constructor].
  destruct (consumeTaskProgramDeliveryAck _ _) as [[b l] v] eqn:E. intros [= <- <- <-]. by apply consume_acknowledges in E.
Qed.
Lemma sole_delivery_acknowledges i pending valid : acknowledges i pending ->
  acknowledges i (fst (sole_delivery i pending valid)).
Proof.
  intros H. unfold sole_delivery. destruct (map_to_list (i_offered i)) as [|[token ref] [|]] eqn:E; [done| |done].
  destruct (negb valid); [|done]. destruct (MatchString _ _) eqn:Em; [done|]. cbn [fst andb negb].
  apply (ack_sole i token); [|done]. rewrite <- (list_to_map_to_list (i_offered i)), E. done.
Qed.

(** ** What a keyed iteration shows *)

(** A message is its deliveries: nothing on an error, and otherwise the whole
    output, within the limit, for the items acknowledged. *)
Record keyed_ok (i : bg_iteration) (r : bg_result) (pending : list TaskDeliveryRef) (err : option bg_error) : Prop := {
  ko_error : err <> None -> br_Notify r = [];
  ko_notice : br_Notify r <> [] -> br_Done r = true /\ br_Notify r = br_Output r /\ pending <> []
    /\ rune_count (br_Notify r) <= maxTaskProgramDeliveryNotificationRunes;
  ko_items : acknowledges i pending;
}.
Lemma keyed_ok_silent i r pending err : br_Notify r = [] -> acknowledges i pending -> keyed_ok i r pending err.
Proof. intros Hn Hp. by split. Qed.

Lemma submission_notice_keyed i clean pending notify : pending <> [] -> submission_notice i clean pending = Ok notify ->
  notify <> [] -> notify = clean /\ rune_count notify <= maxTaskProgramDeliveryNotificationRunes.
Proof.
  unfold submission_notice. intros Hp. set (n0 := if negb (bc_NotifyDefault _) && _ then _ else _).
  set (n := if iterationSentMessage _ then _ else _). assert (n <> [] -> n = clean) as Hn.
  { unfold n, n0. destruct (iterationSentMessage (i_traces i)); [done|].
    by destruct (negb (bc_NotifyDefault (i_config i)) && negb (Contains (i_reply i) (lit "[NOTIFY]"))). }
  destruct n as [|c n'] eqn:E; [by intros [= <-]|]. destruct pending as [|r p]; [done|].
  destruct (bc_VoiceHandoff (i_config i)); [done|].
  destruct (Z.ltb_spec maxTaskProgramDeliveryNotificationRunes (rune_count (c :: n'))); [done|].
  intros [= <-] _. split; [by apply Hn|lia].
Qed.

Lemma settle_submission_keyed i r pending err : keyed i = true -> settle_submission i = (r, pending, err) ->
  keyed_ok i r pending err.
Proof.
  intros Hk. unfold settle_submission. destruct (read_submission i) as [[clean p] v] eqn:E.
  apply read_submission_acknowledges in E. destruct (no_submission clean).
  { destruct (i_gate i && negb (isLast (i_task i))); intros [= <- <- <-]; by apply keyed_ok_silent. }
  pose proof (sole_delivery_acknowledges i p v E) as Ho. destruct (sole_delivery i p v) as [q w]. cbn [fst] in Ho.
  rewrite Hk. cbn [andb]. destruct (negb w); [intros [= <- <- <-]; by apply keyed_ok_silent|].
  destruct q as [|ref q]; [intros [= <- <- <-]; by apply keyed_ok_silent|].
  destruct (submission_notice i clean (ref :: q)) as [notify|e] eqn:F; intros [= <- <- <-]; [|by apply keyed_ok_silent].
  split; [done| |done]. cbn [br_Notify br_Done br_Output]. intros Hn.
  destruct (submission_notice_keyed i clean (ref :: q) notify) as [-> ?]; [done..|].
  split; [done|]. split; [done|]. by split.
Qed.
Lemma settle_iteration_keyed i r pending err : keyed i = true -> settle_iteration i = (r, pending, err) ->
  keyed_ok i r pending err.
Proof.
  intros Hk. unfold settle_iteration. destruct (_ || i_synthesis i); [by apply settle_submission_keyed|].
  assert (forall text, milestone i text = []) as Hm by (intros text; unfold milestone; by rewrite Hk, andb_false_r).
  destruct (Z.leb _ _); [|destruct (_ || _)]; intros [= <- <- <-]; (apply keyed_ok_silent; [|constructor]); cbn [br_Notify].
  - unfold revision_notice. by rewrite Hk.
  - apply Hm.
  - apply Hm.
Qed.

(** The validator may veto the text of a delivery, never change it. *)
Lemma validated_delivery validate text safe :
  validateBackgroundNotification validate text true = Ok safe -> safe = text.
Proof.
  unfold validateBackgroundNotification. destruct (validate _) as [s|]; [|done]. destruct (blank_b s); [done|]. cbn [andb].
  case_bool_decide as E; cbn [negb]; [|done]. intros [= <-]. rewrite E. unfold TrimPrefix.
  destruct (HasPrefix text handoff) eqn:Hp; [|done]. apply HasPrefix_spec in Hp as [t ->]. by rewrite drop_app_length.
Qed.

(** C24: A message of an iteration with keyed items is exactly its deliveries: it is shown only by a submission, as the
    whole unaltered result, of at most 3500 characters, and never without an item marked delivered. The items marked are
    on offer, each marked once, and they are those the tokens of the reply's one control line stand for, all of these
    tokens on offer; only when a single item is on offer, and the reply has nothing like a control line, is that item
    marked unacknowledged. When the iteration fails nothing is shown. *)
Theorem keyed_message_is_its_delivery validator (i : bg_iteration) (r : bg_result) (err : option bg_error) :
  keyed i = true -> finish_iteration validator i = (r, err) ->
  (err <> None -> br_Notify r = [])
  /\ (br_Notify r <> [] -> br_Done r = true /\ br_Notify r = br_Output r /\ br_Pending r <> []
        /\ rune_count (br_Notify r) <= maxTaskProgramDeliveryNotificationRunes)
  /\ NoDup (br_Pending r) /\ (forall ref, ref ∈ br_Pending r -> exists token, i_offered i !! token = Some ref)
  /\ acknowledges i (br_Pending r).
Proof.
  intros Hk H. enough ((err <> None -> br_Notify r = [])
    /\ (br_Notify r <> [] -> br_Done r = true /\ br_Notify r = br_Output r /\ br_Pending r <> []
        /\ rune_count (br_Notify r) <= maxTaskProgramDeliveryNotificationRunes)
    /\ acknowledges i (br_Pending r)) as (H1 & H2 & H3) by (destruct (acknowledges_offered _ _ H3); done).
  revert H. unfold finish_iteration. destruct (settle_iteration i) as [[r0 pending] e0] eqn:E.
  apply settle_iteration_keyed in E as [He Hn Ho]; [|done]. unfold on_return.
  destruct e0 as [e|]; [|destruct (br_Notify r0) as [|c n] eqn:F; [|destruct validator as [validate|]]].
  1,2,4: intros [= <- <-]; rewrite ?F; by split.
  destruct (Hn ltac:(done)) as (H1 & H2 & H3 & H4). destruct pending as [|ref p]; [done|].
  destruct (validateBackgroundNotification validate (c :: n) true) as [safe|e] eqn:G; intros [= <- <-].
  - apply validated_delivery in G as ->. cbn. split; [done|]. split; [|done]. intros _. rewrite H1, <- H2. done.
  - cbn. split; [done|]. split; [done|]. constructor.
Qed.

(** ** A reviewed task *)

(** A settlement that ends a reviewed task before its last iteration carries a result. *)
Lemma submission_carries_result validator i r err : i_gate i = true -> isLast (i_task i) = false ->
  finish_iteration validator i = (r, err) -> br_Done r = true -> no_submission (br_Output r) = false.
Proof.
  intros Hg Hl. unfold finish_iteration. destruct (settle_iteration i) as [[r0 pending] e0] eqn:E.
  assert (br_Done r0 = true -> no_submission (br_Output r0) = false) as H0.
  { revert E. unfold settle_iteration. destruct (_ || i_synthesis i).
    - unfold settle_submission. destruct (read_submission i) as [[clean p] v]. destruct (no_submission clean) eqn:Hb.
      { rewrite Hg, Hl. by intros [= <- _ _]. }
      destruct (sole_delivery i p v) as [q w]. destruct (keyed i && negb w); [by intros [= <- _ _]|].
      destruct (keyed i && _); [by intros [= <- _ _]|]. destruct (submission_notice i clean q); by intros [= <- _ _].
    - destruct (Z.leb _ _); [|destruct (_ || _)]; by intros [= <- _ _]. }
  intros H. assert (br_Done r = br_Done r0 /\ br_Output r = br_Output r0) as [-> ->]; [|exact H0].
  revert H. unfold on_return. destruct e0; [by intros [= <- _]|]. destruct (br_Notify r0); [by intros [= <- _]|].
  destruct validator; [|by intros [= <- _]]. destruct (validateBackgroundNotification _ _ _); by intros [= <- _].
Qed.

(** ** The ledger *)

Section ledger.
Context (ToLower : bytes -> bytes) (iteration : Z).
#[local] Abbreviation key := (evidenceKey ToLower).

(** What an iteration adds is what it proposes, with a source and not recorded, each claim once. *)
Lemma new_entries_spec proposed : forall seen, exists picks,
  new_entries ToLower iteration seen proposed = stored_entry iteration <$> picks
  /\ picks ⊆ trimmed_entry <$> proposed /\ NoDup (key <$> picks)
  /\ Forall (fun e => sourced ToLower e = true /\ key e ∉ seen) picks
  /\ forall e, e ∈ trimmed_entry <$> proposed -> sourced ToLower e = true -> key e ∈ seen \/ key e ∈ key <$> picks.
Proof.
  induction proposed as [|e l IH]; intros seen; cbn [new_entries fmap list_fmap].
  { exists []. repeat split; [done|constructor|constructor|]. by intros e ?%elem_of_nil. }
  destruct (sourced ToLower (trimmed_entry e)) eqn:Hs; cbn [andb].
  2: { destruct (IH seen) as (p & H1 & H2 & H3 & H4 & H5). exists p. split; [done|]. split; [set_solver|].
       split; [done|]. split; [done|]. intros x [->|Hx]%elem_of_cons Hq; [congruence|by apply H5]. }
  case_bool_decide as Hk; cbn [negb].
  { destruct (IH seen) as (p & H1 & H2 & H3 & H4 & H5). exists p. split; [done|]. split; [set_solver|].
    split; [done|]. split; [done|]. intros x [->|Hx]%elem_of_cons Hq; [by left|by apply H5]. }
  destruct (IH ({[key (trimmed_entry e)]} ∪ seen)) as (p & H1 & H2 & H3 & H4 & H5).
  exists (trimmed_entry e :: p). rewrite fmap_cons, H1. split; [done|]. split; [set_solver|].
  rewrite Forall_forall in H4. split; [|split].
  - constructor; [|done]. intros (x & Hx & Hp)%list_elem_of_fmap. apply H4 in Hp as [_ Hp]. set_solver.
  - constructor; [done|]. apply Forall_forall. intros x Hx. apply H4 in Hx. set_solver.
  - intros x [->|Hx]%elem_of_cons Hq; [right; left|]. destruct (H5 x Hx Hq) as [[?%elem_of_singleton|?]%elem_of_union|?].
    + right. apply elem_of_cons. by left.
    + by left.
    + right. apply elem_of_cons. by right.
Qed.

(** The ledger carries what was recorded, in order and unchanged, adds every sourced claim that was not, and keeps the
    last forty. *)
Theorem ledger_records_once (carried proposed : list EvidenceEntry) : exists picks,
  mergeEvidence ToLower carried proposed iteration
    = (let out := carried ++ (stored_entry iteration <$> picks) in drop (length out - evidenceMaxEntries) out)
  /\ (length (mergeEvidence ToLower carried proposed iteration) <= evidenceMaxEntries)%nat
  /\ picks ⊆ trimmed_entry <$> proposed /\ NoDup (key <$> picks)
  /\ Forall (fun e => sourced ToLower e = true /\ key e ∉ key <$> carried) picks
  /\ forall e, e ∈ trimmed_entry <$> proposed -> sourced ToLower e = true ->
       key e ∈ key <$> carried \/ key e ∈ key <$> picks.
Proof.
  destruct (new_entries_spec proposed (list_to_set (key <$> carried))) as (p & H1 & H2 & H3 & H4 & H5).
  exists p. unfold mergeEvidence. rewrite H1. split; [done|]. split; [rewrite length_drop; lia|]. split; [done|].
  split; [done|]. split.
  - eapply Forall_impl; [exact H4|]. intros x [? Hx]. split; [done|]. by rewrite elem_of_list_to_set in Hx.
  - intros x Hx Hq. destruct (H5 x Hx Hq) as [Hc|]; [left; by apply elem_of_list_to_set in Hc|by right].
Qed.
End ledger.

(** A claim longer than the ledger keeps is not recognised when it is stated again: its key was made of the whole. *)
Example long_claim_recorded_twice :
  let e := MkEvidence (replicate 230 "a"%char) (lit "https://example.org/a") [] 0 in
  let once := mergeEvidence id [] [e] 1 in length once = 1%nat /\ length (mergeEvidence id once [e] 2) = 2%nat.
Proof. vm_compute. done. Qed.

(** ** Concrete replies *)

Example status_tail_dropped :
  stripBackgroundStatusTails (lit "Take the pills." ++ chr 10 :: lit "Готово, отметила.") = lit "Take the pills."
  /\ stripBackgroundStatusTails (lit "done") = lit "done".
Proof. vm_compute. done. Qed.
Example digest_is_tldr :
  notifyDigest (lit "# Report" ++ chr 10 :: lit "## 1. TL;DR" ++ chr 10 :: lit "Take the train."
    ++ chr 10 :: lit "## Details" ++ chr 10 :: lit "Long.")
  = lit "Take the train." ++ chr 10 :: chr 10 :: lit "Полный отчёт — в артефактах.".
Proof. vm_compute. done. Qed.

Definition demo_config : bg_config := MkBgConfig "reminders" "system" true false true false.
Definition no_bg_progress : bgProgress := MkBgProgress [] [] "" 0 None [] 0.
Definition demo_offered : gmap string TaskDeliveryRef :=
  {["d_1"%string := MkRef "calendar" "k1"; "d_2"%string := MkRef "calendar" "k2"]}.
Definition demo_reply : bytes := lit "Dentist at five." ++ chr 10 :: lit "noted" ++ chr 10 :: lit "[delivered_items: d_2, d_2] [DONE]".
Definition demo_iteration : bg_iteration :=
  MkBgIteration fresh_task demo_config no_bg_progress 0 0 demo_reply [] demo_offered
    (fun _ => false) (fun _ => false) (fun _ => false) id.

Lemma keyed_message_is_its_delivery_witness :
  let '(r, err) := finish_iteration None demo_iteration in
  err = None /\ br_Notify r = lit "Dentist at five." /\ br_Pending r = [MkRef "calendar" "k2"]
  /\ rune_count (br_Notify r) <= maxTaskProgramDeliveryNotificationRunes.
Proof.
  assert (keyed demo_iteration = true) as Hk by (vm_compute; reflexivity).
  pose proof (keyed_message_is_its_delivery None demo_iteration) as H.
  destruct (finish_iteration None demo_iteration) as [r err] eqn:E.
  destruct (H r err Hk eq_refl) as (_ & Hn & _ & _).
  vm_compute in E. injection E as <- <-.
  split; [reflexivity|]. split; [vm_compute; reflexivity|]. split; [reflexivity|].
  destruct Hn as (_ & _ & _ & Hr); [discriminate|exact Hr].
Defined.

(** A milestone of an iteration that goes on is shown as the model wrote it, machinery included. *)
Definition demo_milestone : bg_iteration :=
  MkBgIteration fresh_task demo_config no_bg_progress 0 0
    (lit "[MILESTONE] half way <scratchpad>unsure</scratchpad> <<<EVIDENCE_JSON [] >>>") [] ∅
    (fun _ => false) (fun _ => false) (fun _ => false) id.
Example milestone_shows_machinery :
  let notice := br_Notify (fst (finish_iteration None demo_milestone)) in
  Contains notice (lit "<scratchpad>") && Contains notice (lit "EVIDENCE_JSON") = true.
Proof. vm_compute. reflexivity. Qed.
